(* ===== verification/_CoqProject ===== *)
-Q . S2P
Prelude.v
OrdMap.v
MDHash.v
Sha256.v
Hmac.v
Ripemd160.v
Script.v
Serialize.v
Handle.v
Slots.v
ArithUint.v
Tx.v
Market.v
Merkle.v
Chain.v
Pow.v
Headers.v
Hex.v
Json.v
Session.v
HostShare.v
Draw.v
Key.v
Base58.v
Regex.v
AssetNames.v
AssetScripts.v
BoolExpr.v
AssetTx.v
XNames.v
XClaim.v
XAssign.v
VerifyAssets.v
Attest.v
Lookup.v
Registry.v
Coinbase.v
Blocks.v
CheckTx.v
Coins.v
Producer.v
AssetCache.v
Utxo.v
TxAssets.v
Supply.v
Reorg.v
Active.v
Sha1.v
Ecdsa.v
Interp.v
Sighash.v
Spend.v
Authority.v
Gossip.v
Lottery.v
