(* ===== verification/Prelude.v ===== *)
(** * X Coin verification library

    X Coin is a fork of the Bitcoin and Raven code base in which blocks are not
    mined: every minute is a slot, the nodes whose users are X Verified send
    signed heartbeats, and the producer of a slot's block pays winners that are
    drawn from the active nodes by a hash.  This library is a shallow embedding
    of the parts of the program that decide who takes part, who wins, which
    blocks are valid and what is kept on disk, with the theorems that make them
    correct.

    ** The program and how its parts interact

    A user signs in with X; the session is kept in two files of the data
    directory (src/src/xsession.cpp) and names the handle of the node.  The node
    sends an xhb message (src/src/net_processing.cpp) with its payout script,
    the handle and a compact signature.  The seed asks X about the handle
    (src/src/xlookup.cpp), stamps the pair of script id and handle with the
    attestor key, and every node keeps the stamps and a registry of the live
    nodes (src/src/lottery.cpp).  For the block of a slot the producer takes a
    template (src/src/miner.cpp), draws the winners from the registry, writes
    the payouts and the commitments to the active set, its stamps and the seed's
    signature into the coinbase, and hands the block on.  Every node checks the
    header against its index, the slot lock and the difficulty, the block
    against the Merkle root and weights, and the coinbase against its
    commitments (src/src/validation.cpp), and chooses between forks
    (src/src/chain.cpp).  A block that joins the active chain spends and adds
    coins (src/src/coins.cpp) and issues, reissues and moves assets
    (src/src/assets/assets.cpp), and the scripts of its inputs are run with the
    signatures they carry (src/src/script/interpreter.cpp); a reorganisation
    undoes that.  The main asset of
    an X account is claimed by a transaction without fee whose first input is a
    dummy and which carries a proof signed by the site
    (src/src/assets/xaccount.cpp).  Beside this there are a market of signed asks
    (src/src/xmarket.cpp) and the sharing of wins with guests
    (src/src/hostshare.cpp).

    ** Files

    Foundations.
    - Prelude: bytes as lists of Z, machine integers with their wrap-around,
      byte orders (crypto/common.h), results and verdicts, tactics, hint
      databases and list lemmas.
    - OrdMap: std::map as an association list in key order, for a class of
      ordered keys.
    - MDHash, Sha256, Ripemd160, Sha1, Hmac: the streaming hashers of src/src/crypto
      and hash.h, with their buffer and byte counter.
    - Serialize: the codecs of serialize.h as a record with laws as classes.
    - Hex, Json: the text conversions of utilstrencodings and the JSON library
      of src/src/univalue.
    - Base58: base58.cpp with the addresses of destinations.
    - Regex: the regular expressions of the program, matched by derivatives.
    - ArithUint: arith_uint256 on eight limbs of 32 bits.

    Chain.
    - Script: script.h, script.cpp and standard.cpp up to the output templates.
    - Tx, Merkle: transactions and blocks with their serialization, hashes,
      finality and lock times; the Merkle computation.
    - Slots: the slot lock, timestamps, the median time, the subsidy.
    - Chain, Pow, Headers, Blocks: the block index as an arena whose pointers
      are positions, the skip list, the fork choice and the active chain; the
      difficulty rules; header acceptance; block checks.
    - Coins: the cache of unspent outputs of coins.cpp with its flags.
    - Utxo: the coins of a block: CheckTxInputs, UpdateCoins, and ConnectBlock
      and DisconnectBlock on the coins. What else the loop of ConnectBlock checks
      and changes is a record of two functions on a state of their own.

    Identities and assets.
    - AssetNames, AssetScripts, AssetTx: the grammar of asset names, the records
      that outputs carry with their scripts and burns, and the kinds of asset
      transactions (assets.cpp, assettypes.h).
    - BoolExpr: the verifier strings of LibBoolEE.cpp.
    - XNames, XClaim, XAssign: the main asset name of a handle, the free identity
      claim with its dummy input and signed proof, and the maps from accounts to
      root assets (xaccount.cpp).
    - VerifyAssets, CheckTx: the rules on asset transactions and
      CheckTransaction.
    - AssetCache: CAssetsCache over passets, the cache of rows and the assets
      database, with Flush and DumpCacheToDatabase.
    - TxAssets: CheckTxAssets, what AddCoins and SpendCoin do to the asset cache,
      and the asset part of ConnectBlock's loop as an instance of the record of
      Utxo.
    - Supply: blocks connected to coins and assets together.
    - Reorg: DisconnectBlock on coins, assets and assignments.
    - Active: ConnectTip and DisconnectTip, and the states of a node after any
      sequence of them.

    Scripts and signatures.
    - Ecdsa: the lax and the strict reading of DER signatures, CPubKey::Verify
      and CheckLowS (pubkey.cpp, interpreter.cpp), over the class Secp256k1Ecdsa
      of the libsecp256k1 calls on signatures.
    - Interp: EvalScript with all opcodes and FindAndDelete, as a loop over a
      state of two stacks, the open conditions, the signed code and a count.
    - Sighash: SignatureHash of both versions and the checker of an input.
    - Spend: VerifyScript with witness programs, and spending from an address.
    - Authority: CheckInputs and the script flags as a rule of the loop of
      ConnectBlock, on the active chain.

    Lottery.
    - Handle: handles and the operator's invite list in memory.
    - Key: CKey and CPubKey over the class Secp256k1, the calls of libsecp256k1
      with their laws in the class Secp256k1Laws and a toy instance.
    - Draw: seed, stream, winners and split.
    - Attest: stamps and the three commitments of a coinbase.
    - Session, Lookup: the session files and the question to X.
    - Registry, Coinbase, Gossip: the registry, the coinbase and its check, the
      xhb message.
    - Producer: templates and the producer loop.
    - Lottery: the state of the whole module and all calls that change it.

    Applications: Market (asks) and HostShare (guests).

    ** Conventions

    Definitions keep the names of the C++ code.  State is a record that is
    passed and returned; a variable of a file becomes a field.  A call that
    returns a bool and an error is a result or an option of an error beside the
    new state; an exception is a value of its own; an assertion that fails is a
    verdict of its own.  Integers are Z, with uwrap and swrap where the code's
    width matters.  Locks are left out: each operation runs under one lock and
    is one step.  What the clock, the disk, the network, the wallet and X do is
    an argument of each step and is arbitrary in the theorems.

    ** What the theorems show

    - Coinbase, Draw, Lottery: an accepted coinbase pays exactly the winners of
      the set it commits to; honest coinbases are accepted everywhere, as long as
      there are winners, at most 1024 active ids, payable scripts and a subsidy; the
      draw is a uniform map from offsets to selections; after any sequence of
      calls the registry and the stamps are consistent and no stamp is forged, and
      within a process, which keeps the stamps in memory only, none is lost.
    - Gossip, Registry, Attest, Lookup, Session: only signed, timely and stamped
      heartbeats change the registry; a live node cannot be displaced; a
      signed-in user reaches the seed's registry; a stamp goes back to an answer
      of X of the last hour; commitments and signed strings parse back and are
      unambiguous; sessions load as saved, if the disk holds what was written, and
      cannot be edited.
    - Producer, Slots, Headers, Pow, Blocks: a block made within its minute from
      transactions that pass their checks is valid everywhere, one emission per
      minute, headers keep the chain on its minutes and the difficulty in range,
      with the exact mean of the targets; what happens after a missed minute.
    - Chain, Merkle, ArithUint: the index is well-formed, the skip list agrees
      with the parents, fork choice does not depend on the order of arrival, the
      active chain refines the list of ancestors; the Merkle loop computes the
      tree; the limbs compute with the numbers they stand for.
    - Coins, Utxo: the layered caches of coins answer as one map of the unspent
      outputs; a chain never holds more than its subsidies; a checked block that
      repeats no claim is connected without a failed assertion, and disconnecting
      it restores the coins.
    - AssetCache, Supply, Reorg, Active: the layered caches of assets answer as one
      map of the issues and reissues of the chain; a transaction moves what it
      spends, and issues sub-assets and unique assets and reissues only with the
      owner token;
      after any sequence of connected and disconnected blocks a node holds the
      coins and assets that the blocks of its active chain say, and the outputs
      hold no more of an asset than is recorded.  The conditions of these runs are
      definitions of their own (call_fits, connect_fits, disconnect_fits); a theorem
      and two lemmas show what a reorganisation breaks outside of them.
    - Ecdsa, Interp, Sighash, Spend, Authority: an output of an address, with or
      without an asset, is spent exactly with a signature by a key of the address;
      a signature of everything determines the transaction; on the active chain
      every coin is spent by a script that verifies, and owner tokens, reissues and
      issues of sub-assets and unique assets are signed for by the address that held
      the token, message channels excepted, which anyone can issue; an
      asset can be sent so that its address is shown as its holder and anyone
      spends it.  VerifyScript fails no assertion with the flags in use.
    - XNames, XClaim, XAssign, CheckTx: the name given to a handle is valid and
      free; claims the wallet builds are accepted, and what is signed determines
      the claim; assignments survive a restart; an account spelt in several ways has
      several roots.
    - AssetNames, AssetScripts, BoolExpr: parents of names end at a root; records
      read back; the evaluator computes the value of a formula.
    - Market, HostShare: the book stays consistent and bounded and its eviction
      ends; wins are shared once, in the right parts, and what a restart keeps.
    - Tx, Serialize, Script, Json, Hmac and the hashers: round trips and
      equivalence with the standard definitions.
    - Several theorems show that the code does not do what it means to; their
      comments say so.

    ** Fuel

    Recursion that is not structural has fuel, and the theorems show that the
    fuel given is enough: ancestor searches get the height, the Merkle loops 32
    levels, division 256 bits, the JSON reader one more than the length of the
    text (each turn takes a character), hexadecimal text its length, decimal
    text the number of bits, the eviction of asks the size of the book, the
    search for an operation in a script and the loops of the interpreter its
    length, the evaluator of verifier
    strings one more than the length of the text, the walk to the root of a name
    the 32 turns of the code, AccessByTxid the largest number of outputs that a
    block can hold.  The
    decoder of the chunked coding has no such bound; for it None for every fuel
    means that it does not return, and Lookup shows both that it returns on what
    a sender encodes and when it does not.

    ** Not modelled

    - Elliptic curve arithmetic: the classes Secp256k1 and Secp256k1Ecdsa stand
      for the library; no theorem on scripts needs a law of the second.
    - TLS, sockets, threads and timers; the other peer-to-peer messages; the
      RPC server and the graphical client, which print and parse around the
      operations modelled here.
    - The counts of signature operations with coins and the sequence locks of
      ConnectBlock: a function argument of the loop.
    - The caches of signatures and of executed scripts, the queue of check threads
      and assumevalid, which skip or postpone the checks of CheckInputs.
    - The mempool and the wallet's coin selection and signing: arguments where a
      modelled operation calls them.  The HTTP client that fetches a proof.
    - Block and undo files, LevelDB, failed database writes, the address and
      spent indexes, ActivateBestChain: the theorems on blocks take the undo data
      that connecting returned, and any cache with the same coins.
    - Qualifiers, restrictions and verifiers in the asset cache: restricted assets
      are never active on this chain.  Messages, rewards, snapshots.
    - The hash of a block header (X16R and KAWPOW): a parameter of the index,
      since no block is mined.
    - Persist and LoadFile of the invite list, file permissions, and files that
      exist but cannot be read.
    - The SSE4 variant of the SHA-256 compression function.

    Assumptions of the chain theorems, each stated as a hypothesis apart from the
    checks of the code (checked is what CheckBlock and ContextualCheckBlock
    accept): transactions are new, that is, different ones have different ids and no
    identity claim comes again, which no check of a block sees to (ids_new); an id
    stands for one reissue (reissue_named), scripts are bytes, the height is in the
    coinbase (BIP34), the node is not reindexing, and a block issues or reissues no
    name unissued since the last dump (connect_fits); a block that is disconnected
    reissued no name twice (disconnect_fits).  The index of amounts by address may be
    on or off; only that disconnecting always succeeds is shown for a node without
    it.  AssetCache and Active show that these conditions do not hold of themselves
    and what goes wrong then: repeated_claim_throws has a node on which a block with
    a repeated claim ends ConnectBlock with an exception. *)

From Stdlib Require Export ZArith Lia Sorted.
From stdpp Require Export base numbers strings list.

Local Open Scope Z_scope.

(** ** Bytes, strings and machine integers *)

(** A byte is a [Z] in [0,256); [std::string], [std::vector<unsigned char>],
    [CScript] and [base_blob] are all lists of bytes. *)
Abbreviation bytes := (list Z).

Definition byte_ok (b : Z) : Prop := 0 <= b < 256.
Definition bytes_ok (bs : bytes) : Prop := Forall byte_ok bs.

(** [size()] of a vector, as an unbounded integer. *)
Definition zlen {A} (l : list A) : Z := Z.of_nat (length l).

(** A C string literal as bytes. *)
Definition bs (s : string) : bytes :=
  (fun c => Z.of_N (Ascii.N_of_ascii c)) <$> String.list_ascii_of_string s.

(** Conversion to an unsigned [w]-bit integer. *)
Definition uwrap (w z : Z) : Z := z mod 2 ^ w.
(** Conversion to a signed (two's complement) [w]-bit integer. *)
Definition swrap (w z : Z) : Z :=
  let u := z mod 2 ^ w in if u <? 2 ^ (w - 1) then u else u - 2 ^ w.

Definition INT_MAX : Z := 2 ^ 31 - 1.
Definition INT64_MAX : Z := 2 ^ 63 - 1.
Definition in_int (z : Z) : Prop := - 2 ^ 31 <= z < 2 ^ 31.
Definition in_int64 (z : Z) : Prop := - 2 ^ 63 <= z < 2 ^ 63.

(** [n] low-order bytes, least significant first: [(z >> 8*i) & 0xff]. *)
Fixpoint le_bytes (n : nat) (z : Z) : bytes :=
  match n with
  | O => []
  | S n => Z.land z 255 :: le_bytes n (Z.shiftr z 8)
  end.

(** [b0 | b1 << 8 | b2 << 16 | ...]. *)
Fixpoint le_decode (l : bytes) : Z :=
  match l with
  | [] => 0
  | b :: t => Z.lor b (Z.shiftl (le_decode t) 8)
  end.

Definition be_bytes (n : nat) (z : Z) : bytes := rev (le_bytes n z).
Definition be_decode (l : bytes) : Z := le_decode (rev l).

(** Lexicographic order on bytes: [memcmp] on blobs of equal size and
    [std::string::operator<]. *)
Fixpoint bytes_ltb (a b : bytes) : bool :=
  match a, b with
  | _, [] => false
  | [], _ :: _ => true
  | x :: a', y :: b' => (x <? y) || ((x =? y) && bytes_ltb a' b')
  end.

Definition bytes_eqb (a b : bytes) : bool := bool_decide (a = b).
#[global] Arguments bytes_eqb : simpl never.

(** [memcpy(dst + off, src, size)] into a buffer. *)
Definition splice (off : nat) (src dst : bytes) : bytes :=
  take off dst ++ src ++ drop (off + length src) dst.

(** [v[i]] of a vector, [None] when the access is out of range. *)
Definition at_ {A} (l : list A) (i : nat) : option A := l !! i.

(** The outcome of a fallible call with an error message. *)
Inductive result (A E : Type) := Ok (a : A) | Err (e : E).
Arguments Ok {A E} a.
Arguments Err {A E} e.

Definition is_ok {A E} (r : result A E) : bool :=
  match r with Ok _ => true | Err _ => false end.

(** What a validation function leaves in its [CValidationState]: [DoS(level,
    ..., reason)] and [Invalid(..., reason)], the latter with level 0. *)
Inductive verdict := Accept | Reject (dos : Z) (reason : string).

Definition accepted (v : verdict) : bool := match v with Accept => true | Reject _ _ => false end.

Definition sumZ (l : list Z) : Z := foldr Z.add 0 l.

(** Pairwise relation on neighbours, the shape of the sortedness loops. *)
Fixpoint adjacent {A} (R : A -> A -> bool) (l : list A) : bool :=
  match l with
  | x :: (y :: _) as t => R x y && adjacent R t
  | _ => true
  end.

(** ** Tactics *)

(** Split every [if] and [match] on a boolean test of the goal. *)
Ltac case_ifs :=
  repeat match goal with
         | |- context [if ?b then _ else _] => destruct b eqn:?
         end.
Ltac case_ifs_in H :=
  repeat match type of H with
         | context [if ?b then _ else _] => destruct b eqn:?; try discriminate H
         end.

(** Turn boolean hypotheses into propositions. *)
(** Closes well-formedness of a concrete value: predicates of the [wf]
    database, conjunctions, [Forall] over a literal list, comparisons and
    equations of literals. *)
Create HintDb wf.
Ltac solve_concrete :=
  repeat first
    [ match goal with |- _ /\ _ => split end
    | match goal with |- Forall _ [] => apply Forall_nil_2 end
    | match goal with |- Forall _ (_ :: _) => apply Forall_cons_2; simpl end
    | progress (autounfold with wf; simpl) ];
  try match goal with
      | |- _ <= _ => vm_compute; congruence
      | |- _ < _ => vm_compute; reflexivity
      | |- _ = _ => vm_compute; reflexivity
      end.
#[export] Hint Unfold byte_ok bytes_ok : wf.

(** Reduces the boolean connectives only. *)
Ltac bsimpl := cbn [negb andb orb fst snd].

Ltac bool_prop :=
  repeat match goal with
         | H : _ && _ = true |- _ => apply andb_true_iff in H; destruct H
         | H : _ || _ = false |- _ => apply orb_false_iff in H; destruct H
         | H : negb _ = true |- _ => apply negb_true_iff in H
         | H : negb _ = false |- _ => apply negb_false_iff in H
         | H : (_ <? _) = true |- _ => apply Z.ltb_lt in H
         | H : (_ <? _) = false |- _ => apply Z.ltb_ge in H
         | H : (_ <=? _) = true |- _ => apply Z.leb_le in H
         | H : (_ <=? _) = false |- _ => apply Z.leb_gt in H
         | H : (_ =? _) = true |- _ => apply Z.eqb_eq in H
         | H : (_ =? _) = false |- _ => apply Z.eqb_neq in H
         | H : bytes_eqb _ _ = true |- _ =>
             unfold bytes_eqb in H; apply bool_decide_eq_true in H
         | H : bytes_eqb _ _ = false |- _ =>
             unfold bytes_eqb in H; apply bool_decide_eq_false in H
         | H : bool_decide _ = true |- _ => apply bool_decide_eq_true in H
         | H : bool_decide _ = false |- _ => apply bool_decide_eq_false in H
         end.

Create HintDb xcoin.
Create Rewrite HintDb zlen.
Create Rewrite HintDb len.

(** ** Lemmas on bytes *)

Lemma zlen_nonneg {A} (l : list A) : 0 <= zlen l.
Proof. unfold zlen. lia. Qed.

Lemma zlen_app {A} (l k : list A) : zlen (l ++ k) = zlen l + zlen k.
Proof. unfold zlen. rewrite length_app. lia. Qed.

Lemma zlen_cons {A} (x : A) l : zlen (x :: l) = 1 + zlen l.
Proof. unfold zlen. simpl. lia. Qed.

Lemma zlen_one {A} (x : A) : zlen [x] = 1.
Proof. reflexivity. Qed.

Lemma zlen_0_nil {A} (l : list A) : zlen l = 0 -> l = [].
Proof. destruct l; [done|]. rewrite zlen_cons. pose proof (zlen_nonneg l). lia. Qed.

Lemma take_repeat {A} (x : A) n m : take n (repeat x m) = repeat x (n `min` m).
Proof. revert m; induction n as [|n IH]; intros [|m]; simpl; [done..|]. by rewrite IH. Qed.

Lemma bytes_ok_app a b : bytes_ok (a ++ b) <-> bytes_ok a /\ bytes_ok b.
Proof. apply Forall_app. Qed.

Lemma bytes_ok_take n a : bytes_ok a -> bytes_ok (take n a).
Proof. apply Forall_take. Qed.

Lemma bytes_ok_drop n a : bytes_ok a -> bytes_ok (drop n a).
Proof. apply Forall_drop. Qed.

Lemma land_255 z : Z.land z 255 = z mod 256.
Proof. change 255 with (Z.ones 8). by rewrite Z.land_ones. Qed.

Lemma shiftr_8 z : Z.shiftr z 8 = z / 256.
Proof. by rewrite Z.shiftr_div_pow2. Qed.

Lemma land_255_ok z : byte_ok (Z.land z 255).
Proof. rewrite land_255. unfold byte_ok. apply Z.mod_pos_bound. lia. Qed.

Lemma le_bytes_ok n z : bytes_ok (le_bytes n z).
Proof.
  revert z; induction n as [|n IH]; intros z; [constructor|].
  constructor; [apply land_255_ok|apply IH].
Qed.

Lemma length_le_bytes n z : length (le_bytes n z) = n.
Proof. revert z; induction n; intros z; simpl; auto. Qed.

Lemma lor_byte b x : byte_ok b -> Z.lor b (Z.shiftl x 8) = b + 256 * x.
Proof.
  intros Hb. rewrite Z.shiftl_mul_pow2 by lia. change (2 ^ 8) with 256.
  rewrite (Z.mul_comm 256). rewrite <-Z.lxor_lor, <-Z.add_nocarry_lxor; [done| |].
  all: apply Z.bits_inj_0; intros n; rewrite Z.land_spec; change 256 with (2 ^ 8).
  all: destruct (Z.ltb_spec n 8);
    [ rewrite (Z.mul_pow2_bits_low x) by lia; apply andb_false_r
    | rewrite (Z.bits_above_log2 b); [done| unfold byte_ok in Hb; lia |] ].
  all: destruct (Z.eqb_spec b 0) as [->|]; [ simpl; lia |];
    unfold byte_ok in Hb; apply Z.log2_lt_pow2; [lia|];
    assert (2 ^ 8 <= 2 ^ n) by (apply Z.pow_le_mono_r; lia); lia.
Qed.

Lemma le_decode_cons b t : byte_ok b -> le_decode (b :: t) = b + 256 * le_decode t.
Proof. intros Hb. simpl. by apply lor_byte. Qed.

Lemma le_decode_le_bytes n z : le_decode (le_bytes n z) = z mod 2 ^ (8 * Z.of_nat n).
Proof.
  revert z; induction n as [|n IH]; intros z; [by rewrite Z.mod_1_r|].
  cbn [le_bytes]. rewrite le_decode_cons by apply land_255_ok.
  rewrite IH, land_255, shiftr_8.
  replace (8 * Z.of_nat (S n)) with (8 + 8 * Z.of_nat n) by lia.
  rewrite Z.pow_add_r by lia. change (2 ^ 8) with 256.
  rewrite Z.rem_mul_r by (try apply Z.pow_nonzero; lia). lia.
Qed.

Lemma le_decode_bound l : bytes_ok l -> 0 <= le_decode l < 2 ^ (8 * zlen l).
Proof.
  induction 1 as [|b t Hb Ht IH]; [unfold zlen; simpl; lia|].
  rewrite le_decode_cons, zlen_cons by done.
  replace (8 * (1 + zlen t)) with (8 + 8 * zlen t) by lia.
  pose proof (zlen_nonneg t). rewrite Z.pow_add_r by lia. change (2 ^ 8) with 256.
  unfold byte_ok in Hb. lia.
Qed.

Lemma le_bytes_le_decode l : bytes_ok l -> le_bytes (length l) (le_decode l) = l.
Proof.
  induction 1 as [|b t Hb Ht IH]; [done|].
  rewrite le_decode_cons by done. cbn [length le_bytes].
  rewrite land_255, shiftr_8. unfold byte_ok in Hb.
  rewrite (Z.mul_comm 256), Z.mod_add, Z.div_add, Z.mod_small, Z.div_small by lia.
  by rewrite Z.add_0_l, IH.
Qed.

Lemma le_bytes_mod n z : le_bytes n (z mod 2 ^ (8 * Z.of_nat n)) = le_bytes n z.
Proof.
  rewrite <-le_decode_le_bytes.
  pose proof (le_bytes_le_decode (le_bytes n z) (le_bytes_ok n z)) as E.
  by rewrite length_le_bytes in E.
Qed.

Lemma le_bytes_inj n a b :
  0 <= a < 2 ^ (8 * Z.of_nat n) -> 0 <= b < 2 ^ (8 * Z.of_nat n) ->
  le_bytes n a = le_bytes n b -> a = b.
Proof.
  intros Ha Hb E. apply (f_equal le_decode) in E.
  by rewrite !le_decode_le_bytes, !Z.mod_small in E.
Qed.

Lemma length_splice off src dst :
  (off + length src <= length dst)%nat -> length (splice off src dst) = length dst.
Proof. intros H. unfold splice. rewrite !length_app, length_take, length_drop. lia. Qed.

Lemma take_splice off src dst :
  (off <= length dst)%nat ->
  take (off + length src) (splice off src dst) = take off dst ++ src.
Proof.
  intros H. unfold splice. rewrite app_assoc.
  apply take_app_length'. rewrite length_app, length_take. lia.
Qed.

(** ** Lexicographic order *)

Lemma bytes_ltb_irrefl a : bytes_ltb a a = false.
Proof. induction a; simpl; [done|]. by rewrite Z.ltb_irrefl, Z.eqb_refl, IHa. Qed.

Lemma bytes_ltb_trans a b c :
  bytes_ltb a b = true -> bytes_ltb b c = true -> bytes_ltb a c = true.
Proof.
  revert b c; induction a as [|x a IH]; intros [|y b] [|z c]; simpl; try done.
  rewrite !orb_true_iff, !andb_true_iff, !Z.ltb_lt, !Z.eqb_eq.
  intros [?|[-> ?]] [?|[-> ?]]; try (left; lia).
  right. split; [done|]. by eapply IH.
Qed.

Lemma bytes_ltb_total a b :
  bytes_ltb a b = true \/ a = b \/ bytes_ltb b a = true.
Proof.
  revert b; induction a as [|x a IH]; intros [|y b]; simpl; auto.
  rewrite !orb_true_iff, !andb_true_iff, !Z.ltb_lt, !Z.eqb_eq.
  destruct (Z.lt_trichotomy x y) as [?|[->|?]]; auto.
  destruct (IH b) as [?|[->|?]]; auto.
Qed.

(** ** Sums and neighbours *)

Lemma sumZ_app l k : sumZ (l ++ k) = sumZ l + sumZ k.
Proof. induction l; simpl; unfold sumZ in *; simpl; lia. Qed.

Lemma sumZ_repeat n x : sumZ (repeat x n) = Z.of_nat n * x.
Proof. induction n; [done|]. cbn [repeat]. unfold sumZ in *. simpl. lia. Qed.

Lemma adjacent_cons {A} (R : A -> A -> bool) x y l :
  adjacent R (x :: y :: l) = R x y && adjacent R (y :: l).
Proof. reflexivity. Qed.

Lemma adjacent_StronglySorted {A} (R : A -> A -> bool) l :
  (forall a b c, R a b = true -> R b c = true -> R a c = true) ->
  adjacent R l = true <-> StronglySorted (fun a b => R a b = true) l.
Proof.
  intros Htr. induction l as [|x [|y l] IH]; [by repeat constructor..|].
  rewrite adjacent_cons, andb_true_iff, IH. split.
  - intros [Hxy HS]. constructor; [done|].
    apply StronglySorted_inv in HS as [_ HF]. constructor; [done|].
    eapply Forall_impl; [eassumption|]. intros z Hz. by eapply Htr.
  - intros [HS HF]%StronglySorted_inv. split; [by inv HF|done].
Qed.

#[export] Hint Resolve le_bytes_ok land_255_ok zlen_nonneg : xcoin.
#[export] Hint Rewrite @zlen_app @zlen_one @zlen_cons : zlen.
#[export] Hint Rewrite @length_app @length_take @length_drop length_le_bytes : len.

Lemma bytes_eqb_eq a b : bytes_eqb a b = true <-> a = b.
Proof. apply bool_decide_eq_true. Qed.

Lemma bytes_eqb_neq a b : bytes_eqb a b = false <-> a <> b.
Proof. apply bool_decide_eq_false. Qed.

Lemma bytes_eqb_refl a : bytes_eqb a a = true.
Proof. by apply bytes_eqb_eq. Qed.

Lemma uwrap_small w z : 0 <= z < 2 ^ w -> uwrap w z = z.
Proof. apply Z.mod_small. Qed.

Lemma swrap_small w z : 1 <= w -> - 2 ^ (w - 1) <= z < 2 ^ (w - 1) -> swrap w z = z.
Proof.
  intros Hw Hz. unfold swrap.
  assert (2 ^ w = 2 * 2 ^ (w - 1)) as E by (rewrite <-Z.pow_succ_r by lia; f_equal; lia).
  rewrite E. set (h := 2 ^ (w - 1)) in *. destruct (Z.ltb_spec z 0).
  - rewrite <-(Z.mod_unique z (2 * h) (-1) (z + 2 * h)) by lia.
    destruct (Z.ltb_spec (z + 2 * h) h); lia.
  - rewrite Z.mod_small by lia. destruct (Z.ltb_spec z h); lia.
Qed.

Lemma StronglySorted_replicate {A} (R : relation A) n x : R x x -> StronglySorted R (replicate n x).
Proof. intros Hx. induction n; simpl; constructor; [done|]. by apply Forall_replicate. Qed.

Lemma StronglySorted_app_intro {A} (R : relation A) l1 l2 :
  StronglySorted R l1 -> StronglySorted R l2 -> (forall x y, x ∈ l1 -> y ∈ l2 -> R x y) ->
  StronglySorted R (l1 ++ l2).
Proof.
  intros H1 H2 Hr. induction H1 as [|x l1 Hs IH Hx]; simpl; [done|]. constructor.
  - apply IH. intros a b Ha. apply Hr. by right.
  - apply Forall_app. split; [done|]. apply Forall_forall. intros y Hy. apply Hr; [by left|done].
Qed.

Lemma Forall_filter_keep {A} (Q P : A -> Prop) `{forall x, Decision (P x)} (l : list A) :
  Forall Q l -> Forall Q (filter P l).
Proof. rewrite !Forall_forall. intros HQ x Hx. apply list_elem_of_filter in Hx as [_ Hx]. by apply HQ. Qed.

Lemma StronglySorted_filter_keep {A} (R : relation A) (P : A -> Prop) `{forall x, Decision (P x)} (l : list A) :
  StronglySorted R l -> StronglySorted R (filter P l).
Proof.
  induction 1 as [|x l Hs IH Hx]; [constructor|]. rewrite filter_cons. case_decide; [|done].
  constructor; [done|]. by apply Forall_filter_keep.
Qed.
