(* ===== verification/OrdMap.v ===== *)
(** Ordered maps: [std::map] as an association list kept in key order, so that
    iteration visits the keys in the order the C++ loops do. *)

From S2P Require Import Prelude.

Local Open Scope Z_scope.

(** The strict total order [std::less] of a key type. *)
Class OrdKey (K : Type) `{EqDecision K} := {
  key_ltb : K -> K -> bool;
  key_ltb_irrefl a : key_ltb a a = false;
  key_ltb_trans a b c :
    key_ltb a b = true -> key_ltb b c = true -> key_ltb a c = true;
  key_ltb_total a b : key_ltb a b = true \/ a = b \/ key_ltb b a = true
}.

#[export] Instance bytes_OrdKey : OrdKey bytes := {|
  key_ltb := bytes_ltb;
  key_ltb_irrefl := bytes_ltb_irrefl;
  key_ltb_trans := bytes_ltb_trans;
  key_ltb_total := bytes_ltb_total
|}.

#[export] Program Instance Z_OrdKey : OrdKey Z := {| key_ltb := Z.ltb |}.
Next Obligation. apply Z.ltb_irrefl. Qed.
Next Obligation. intros a b c. rewrite !Z.ltb_lt. lia. Qed.
Next Obligation. intros a b. rewrite !Z.ltb_lt. lia. Qed.

Abbreviation omap K V := (list (K * V)).

Section ordmap.
Context {K : Type} `{OrdKey K} {V : Type}.
Implicit Types (k : K) (v : V) (m : omap K V).

(** [m.find(k)] *)
Fixpoint om_find k m : option V :=
  match m with
  | [] => None
  | (k', v) :: t => if decide (k = k') then Some v else om_find k t
  end.

(** [m[k] = v] *)
Fixpoint om_insert k v m : omap K V :=
  match m with
  | [] => [(k, v)]
  | (k', v') :: t =>
      if decide (k = k') then (k, v) :: t
      else if key_ltb k k' then (k, v) :: m
      else (k', v') :: om_insert k v t
  end.

(** [m.erase(k)] *)
Definition om_erase k m : omap K V := filter (fun kv => kv.1 <> k) m.

Definition om_keys m : list K := fst <$> m.
Definition om_mem k m : bool := match om_find k m with Some _ => true | None => false end.

(** Keys are strictly increasing. *)
Definition om_wf m : Prop := StronglySorted (fun a b => key_ltb a b = true) (om_keys m).

Lemma key_ltb_ne a b : key_ltb a b = true -> a <> b.
Proof. intros Hlt ->. by rewrite key_ltb_irrefl in Hlt. Qed.

Lemma om_find_insert_eq k v m : om_find k (om_insert k v m) = Some v.
Proof.
  induction m as [|[k' v'] t IH]; simpl; [by rewrite decide_True|].
  case_decide; simpl; [by rewrite decide_True|].
  destruct (key_ltb k k'); simpl; [by rewrite decide_True|].
  by rewrite decide_False.
Qed.

Lemma om_find_insert_ne k k' v m :
  k <> k' -> om_find k' (om_insert k v m) = om_find k' m.
Proof.
  intros Hne. induction m as [|[a x] t IH]; simpl; [by rewrite decide_False|].
  case_decide; simpl.
  - subst. by rewrite !(decide_False (P := k' = a)).
  - destruct (key_ltb k a); simpl; [by rewrite (decide_False (P := k' = k))|].
    by rewrite IH.
Qed.

Lemma om_find_insert k k' v m :
  om_find k' (om_insert k v m) = if decide (k = k') then Some v else om_find k' m.
Proof. case_decide; [subst; apply om_find_insert_eq|by apply om_find_insert_ne]. Qed.

Lemma om_find_erase_eq k m : om_find k (om_erase k m) = None.
Proof.
  unfold om_erase. induction m as [|[a x] t IH]; [done|].
  rewrite filter_cons. case_decide as E; simpl; [|done].
  simpl in E. by rewrite decide_False.
Qed.

Lemma om_find_erase_ne k k' m : k <> k' -> om_find k' (om_erase k m) = om_find k' m.
Proof.
  intros Hne. unfold om_erase. induction m as [|[a x] t IH]; [done|].
  rewrite filter_cons. simpl. case_decide as E; simpl in *; [by rewrite IH|].
  rewrite IH. rewrite decide_False; [done|]. naive_solver.
Qed.

Lemma om_find_erase k k' m :
  om_find k' (om_erase k m) = if decide (k = k') then None else om_find k' m.
Proof. case_decide; [subst; apply om_find_erase_eq|by apply om_find_erase_ne]. Qed.

Lemma om_find_Some_in k v m : om_find k m = Some v -> (k, v) ∈ m.
Proof.
  induction m as [|[a x] t IH]; simpl; [done|].
  case_decide; [intros [= <-]; subst; by left|]. intros ?. right. auto.
Qed.

Lemma om_wf_cons kv m :
  om_wf (kv :: m) <-> om_wf m /\ Forall (fun kv' => key_ltb kv.1 kv'.1 = true) m.
Proof.
  unfold om_wf, om_keys. simpl. split.
  - intros [HS HF]%StronglySorted_inv. split; [done|]. by apply Forall_fmap in HF.
  - intros [HS HF]. constructor; [done|]. by apply Forall_fmap.
Qed.

Lemma om_wf_nil : om_wf [].
Proof. constructor. Qed.

Lemma om_wf_app_l m n : om_wf (m ++ n) -> om_wf m.
Proof.
  induction m as [|kv m IH]; [intros; apply om_wf_nil|]. cbn [app]. rewrite !om_wf_cons, Forall_app. naive_solver.
Qed.

(** A key above all others goes to the end. *)
Lemma om_insert_last k v m : om_wf (m ++ [(k, v)]) -> om_insert k v m = m ++ [(k, v)].
Proof.
  induction m as [|[a x] t IH]; [done|]. cbn [app om_insert]. intros [Hwf HF]%om_wf_cons.
  apply Forall_app in HF as [_ HF]. apply Forall_cons in HF as [Hlt _]. cbn in Hlt.
  rewrite decide_False by (intros ->; by rewrite key_ltb_irrefl in Hlt).
  destruct (key_ltb k a) eqn:E; [|by rewrite IH]. pose proof (key_ltb_trans _ _ _ Hlt E) as Hc.
  by rewrite key_ltb_irrefl in Hc.
Qed.

Lemma om_in_find k v m : om_wf m -> (k, v) ∈ m -> om_find k m = Some v.
Proof.
  induction m as [|[a x] t IH]; intros Hwf Hin; [by apply elem_of_nil in Hin|].
  apply om_wf_cons in Hwf as [Hwf HF]. apply elem_of_cons in Hin as [[= -> ->]|Hin]; simpl.
  - by rewrite decide_True.
  - rewrite Forall_forall in HF. specialize (HF _ Hin). simpl in HF.
    rewrite decide_False by (intros ->; by rewrite key_ltb_irrefl in HF). auto.
Qed.

Lemma om_keys_in k m : k ∈ om_keys m <-> exists v, (k, v) ∈ m.
Proof.
  unfold om_keys. rewrite list_elem_of_fmap. split.
  - intros [[a x] [-> Hin]]. by exists x.
  - intros [v Hin]. by exists (k, v).
Qed.

Lemma om_keys_find k m : om_wf m -> k ∈ om_keys m <-> is_Some (om_find k m).
Proof.
  intros Hwf. rewrite om_keys_in. split.
  - intros [v Hin]. exists v. by apply om_in_find.
  - intros [v Hv]. exists v. by apply om_find_Some_in.
Qed.

Lemma om_insert_in k v m kv :
  kv ∈ om_insert k v m -> kv = (k, v) \/ kv ∈ m.
Proof.
  induction m as [|[a x] t IH]; simpl; [intros ?%list_elem_of_singleton; auto|].
  rewrite !elem_of_cons.
  case_decide; [subst|destruct (key_ltb k a)]; rewrite !elem_of_cons; tauto.
Qed.

Lemma om_wf_insert k v m : om_wf m -> om_wf (om_insert k v m).
Proof.
  induction m as [|[a x] t IH]; intros Hwf; simpl.
  { apply om_wf_cons. split; [apply om_wf_nil|constructor]. }
  pose proof Hwf as [Hwft HF]%om_wf_cons. simpl in HF.
  case_decide as E; [subst; by apply om_wf_cons|].
  destruct (key_ltb k a) eqn:Hlt.
  - apply om_wf_cons. split; [done|]. constructor; [done|].
    eapply Forall_impl; [exact HF|]. intros [b y] Hb. by eapply key_ltb_trans.
  - apply om_wf_cons. split; [auto|]. apply Forall_forall. intros kv Hin.
    apply om_insert_in in Hin as [->|Hin].
    + destruct (key_ltb_total k a) as [?|[?|?]]; [congruence|congruence|done].
    + rewrite Forall_forall in HF. by apply HF.
Qed.

Lemma om_wf_filter (P : K * V -> Prop) `{forall x, Decision (P x)} m :
  om_wf m -> om_wf (filter P m).
Proof.
  induction m as [|kv t IH]; intros Hwf; [done|].
  apply om_wf_cons in Hwf as [Hwf HF]. rewrite filter_cons.
  case_decide; [|auto]. apply om_wf_cons. split; [auto|].
  apply Forall_forall. intros x [_ Hx]%list_elem_of_filter.
  rewrite Forall_forall in HF. by apply HF.
Qed.

Lemma om_wf_erase k m : om_wf m -> om_wf (om_erase k m).
Proof. apply om_wf_filter. Qed.

Lemma om_keys_NoDup m : om_wf m -> NoDup (om_keys m).
Proof.
  unfold om_wf. induction 1 as [|a l HS IH HF]; constructor; [|done].
  intros Hin. rewrite Forall_forall in HF. apply HF in Hin.
  by rewrite key_ltb_irrefl in Hin.
Qed.

Lemma om_insert_length_ne k v m :
  om_find k m = None -> length (om_insert k v m) = S (length m).
Proof.
  induction m as [|[a x] t IH]; simpl; [done|].
  case_decide; [done|]. intros Hf. destruct (key_ltb k a); simpl; auto.
Qed.

Lemma om_insert_length_le k v m : (length (om_insert k v m) <= S (length m))%nat.
Proof.
  induction m as [|[a x] t IH]; simpl; [lia|].
  case_decide; [simpl; lia|]. destruct (key_ltb k a); simpl; lia.
Qed.

Lemma om_insert_length_eq k v m :
  om_wf m -> is_Some (om_find k m) -> length (om_insert k v m) = length m.
Proof.
  induction m as [|[a x] t IH]; simpl; [by intros _ [? ?]|].
  intros Hwf [y Hy]. apply om_wf_cons in Hwf as [Hwf HF].
  case_decide; [done|]. destruct (key_ltb k a) eqn:Hlt; simpl.
  - exfalso. apply om_find_Some_in in Hy. rewrite Forall_forall in HF.
    specialize (HF _ Hy). simpl in HF. pose proof (key_ltb_trans _ _ _ Hlt HF) as C.
    by rewrite key_ltb_irrefl in C.
  - f_equal. apply IH; [done|by exists y].
Qed.

Lemma om_erase_length_le k m : (length (om_erase k m) <= length m)%nat.
Proof. apply length_filter. Qed.

Lemma om_erase_length_lt k m :
  is_Some (om_find k m) -> (length (om_erase k m) < length m)%nat.
Proof.
  intros [v Hv]. apply om_find_Some_in in Hv.
  apply (length_filter_lt _ _ (k, v)); [done|]. simpl. auto.
Qed.

Lemma om_erase_notin k m : om_find k m = None -> om_erase k m = m.
Proof.
  unfold om_erase. induction m as [|[a x] t IH]; simpl; [done|].
  case_decide; [done|]. intros Hf. rewrite filter_cons. simpl.
  rewrite decide_True by congruence. by rewrite IH.
Qed.

Lemma om_erase_length_eq k m : om_wf m -> is_Some (om_find k m) -> S (length (om_erase k m)) = length m.
Proof.
  induction m as [|[a x] t IH]; simpl; [by intros _ [? ?]|].
  intros Hwf Hs. apply om_wf_cons in Hwf as [Hwf HF]. unfold om_erase in *. rewrite filter_cons. simpl.
  destruct (decide (k = a)) as [->|Hne].
  - rewrite decide_False by (by intros Hn). f_equal. pose proof (om_erase_notin a t) as Hn. unfold om_erase in Hn.
    rewrite Hn; [done|]. destruct (om_find a t) eqn:E; [|done]. apply om_find_Some_in in E.
    rewrite Forall_forall in HF. specialize (HF _ E). simpl in HF. by rewrite key_ltb_irrefl in HF.
  - rewrite decide_True by congruence. simpl. f_equal. by apply IH.
Qed.
End ordmap.

#[export] Hint Resolve om_wf_insert om_wf_erase om_wf_nil : xcoin.
