(* ===== verification/MDHash.v ===== *)
(** The buffering discipline shared by the streaming hashers of src/src/crypto:
    a 64-byte buffer, a byte counter and a compression function applied to full
    blocks. [Write] and [pad_len] are the code's; [absorb] is the reference
    meaning of a message as a sequence of blocks. *)

From S2P Require Import Prelude.

Local Open Scope Z_scope.

(** The members [s], [buf] and [bytes] of [CSHA256] and [CRIPEMD160]. *)
Record hasher (S : Type) := Hasher { hs : S; hbuf : bytes; hbytes : Z }.
Arguments Hasher {S} _ _ _.
Arguments hs {S} _.
Arguments hbuf {S} _.
Arguments hbytes {S} _.

Section md.
Context {S : Type} (Transform1 : S -> bytes -> S).

(** [Transform(s, chunk, blocks)]: [while (blocks--)], 64 bytes at a time. *)
Fixpoint TransformN (s : S) (chunk : bytes) (blocks : nat) : S :=
  match blocks with
  | O => s
  | Datatypes.S n => TransformN (Transform1 s (take 64 chunk)) (drop 64 chunk) n
  end.

Definition u64 (z : Z) : Z := z mod 2 ^ 64.

(** Keep what remains in the buffer. *)
Definition write_rest (c : hasher S) (data : bytes) (bufsize : nat) : hasher S :=
  if (0 <? length data)%nat then
    Hasher (hs c) (splice bufsize data (hbuf c)) (u64 (hbytes c + zlen data))
  else c.

(** Process whole blocks straight from the source, then keep the rest. *)
Definition write_blocks (c : hasher S) (data : bytes) (bufsize : nat) : hasher S :=
  if (64 <=? length data)%nat then
    let blocks := (length data / 64)%nat in
    write_rest
      (Hasher (TransformN (hs c) data blocks) (hbuf c) (u64 (hbytes c + Z.of_nat (64 * blocks))))
      (drop (64 * blocks) data) bufsize
  else write_rest c data bufsize.

(** [Write(data, len)]: fill the buffer first when the data completes it. *)
Definition Write (c : hasher S) (data : bytes) : hasher S :=
  let bufsize := Z.to_nat (hbytes c mod 64) in
  if negb (bufsize =? 0)%nat && (64 <=? bufsize + length data)%nat then
    let n := (64 - bufsize)%nat in
    let buf := splice bufsize (take n data) (hbuf c) in
    write_blocks
      (Hasher (Transform1 (hs c) buf) buf (u64 (hbytes c + Z.of_nat n))) (drop n data) O
  else write_blocks c data bufsize.

(** [1 + ((119 - (bytes % 64)) % 64)] bytes of [pad]. *)
Definition pad_len (n : Z) : nat := Z.to_nat (1 + (119 - n mod 64) mod 64).
Definition pad : bytes := 128 :: repeat 0 63.

(** The reference: all whole blocks of [m], starting from [s0]. *)
Definition absorb (s0 : S) (m : bytes) : S := TransformN s0 m (length m / 64).

(** What a hasher holds after the message [m] has been written to it. *)
Definition holds (s0 : S) (m : bytes) (c : hasher S) : Prop :=
  hs c = absorb s0 m /\
  take (length m mod 64) (hbuf c) = drop (64 * (length m / 64)) m /\
  length (hbuf c) = 64%nat /\
  hbytes c = u64 (zlen m).

Lemma TransformN_app s m k n :
  (64 * n <= length m)%nat -> TransformN s (m ++ k) n = TransformN s m n.
Proof.
  revert s m; induction n as [|n IH]; intros s m Hlen; [done|]. simpl.
  rewrite take_app_le, drop_app_le by lia. apply IH. rewrite length_drop. lia.
Qed.

Lemma TransformN_add s m a b :
  TransformN s m (a + b) = TransformN (TransformN s m a) (drop (64 * a) m) b.
Proof.
  revert s m; induction a as [|a IH]; intros s m; [done|].
  cbn [Nat.add TransformN]. rewrite IH, drop_drop. f_equal. f_equal. lia.
Qed.

Lemma u64_idem_l a b : u64 (u64 a + b) = u64 (a + b).
Proof. unfold u64. by rewrite Z.add_mod_idemp_l. Qed.

Lemma u64_mod_64 a : u64 a mod 64 = a mod 64.
Proof.
  unfold u64. change (2 ^ 64) with (64 * 2 ^ 58).
  rewrite Z.rem_mul_r by lia. rewrite Z.mul_comm, Z.mod_add by lia.
  by rewrite Z.mod_mod.
Qed.

Lemma bufsize_holds s0 m c :
  holds s0 m c -> Z.to_nat (hbytes c mod 64) = (length m mod 64)%nat.
Proof.
  intros (_ & _ & _ & ->). rewrite u64_mod_64. unfold zlen.
  rewrite <-(Nat2Z.inj_mod _ 64), Nat2Z.id. done.
Qed.

Lemma absorb_add s0 m k :
  (length m mod 64 = 0)%nat -> absorb s0 (m ++ k) = absorb (absorb s0 m) k.
Proof.
  intros Hm. unfold absorb.
  assert (length m = 64 * (length m / 64))%nat as Hd
    by (pose proof (Nat.div_mod_eq (length m) 64); lia).
  assert (length (m ++ k) / 64 = length m / 64 + length k / 64)%nat as ->.
  { rewrite length_app, Hd at 1. rewrite (Nat.mul_comm 64).
    rewrite Nat.add_comm, Nat.div_add by lia. lia. }
  rewrite TransformN_add. f_equal; [apply TransformN_app; lia|].
  rewrite <-Hd. apply drop_app_length.
Qed.

(** Splitting a message at its last whole block. *)
Lemma absorb_whole s0 m :
  absorb s0 m = absorb s0 (take (64 * (length m / 64)) m).
Proof.
  unfold absorb. set (n := (length m / 64)%nat).
  assert (64 * n <= length m)%nat by (subst n; pose proof (Nat.div_mod_eq (length m) 64); lia).
  rewrite length_take, Nat.min_l by lia.
  rewrite (Nat.mul_comm 64), Nat.div_mul by lia.
  rewrite <-(TransformN_app s0 (take (n * 64) m) (drop (n * 64) m) n);
    [by rewrite take_drop|rewrite length_take; lia].
Qed.

Lemma holds_parts s0 m c :
  holds s0 m c ->
  exists h r, m = h ++ r /\ (length h mod 64 = 0)%nat /\ (length r = length m mod 64)%nat /\
    hs c = absorb s0 h /\ take (length r) (hbuf c) = r /\ length (hbuf c) = 64%nat /\
    hbytes c = u64 (zlen m).
Proof.
  intros (Hs & Hb & Hl & Hn). set (q := (length m / 64)%nat) in *.
  pose proof (Nat.div_mod_eq (length m) 64) as Hdm. fold q in Hdm.
  exists (take (64 * q) m), (drop (64 * q) m).
  rewrite length_take, length_drop, Nat.min_l by lia.
  replace (length m - 64 * q)%nat with (length m mod 64)%nat by lia.
  rewrite take_drop, (Nat.mul_comm 64 q), Nat.Div0.mod_mul.
  repeat split; auto; [|by rewrite <-(Nat.mul_comm 64)].
  rewrite Hs, absorb_whole. by rewrite (Nat.mul_comm 64).
Qed.

Lemma absorb_one s b : length b = 64%nat -> absorb s b = Transform1 s b.
Proof. intros Hb. unfold absorb. rewrite Hb. simpl. by rewrite take_ge by lia. Qed.

Lemma absorb_short s r : (length r < 64)%nat -> absorb s r = s.
Proof. intros Hr. unfold absorb. by rewrite Nat.div_small. Qed.

Lemma zlen_take {A} n (l : list A) : (n <= length l)%nat -> zlen (take n l) = Z.of_nat n.
Proof. intros. unfold zlen. rewrite length_take. lia. Qed.

Lemma fill_holds s0 m c d :
  holds s0 m c -> let b := (length m mod 64)%nat in
  (0 < b)%nat -> (64 <= b + length d)%nat ->
  let n := (64 - b)%nat in let buf := splice b (take n d) (hbuf c) in
  holds s0 (m ++ take n d) (Hasher (Transform1 (hs c) buf) buf (u64 (hbytes c + Z.of_nat n))) /\
  (length (m ++ take n d) mod 64 = 0)%nat.
Proof.
  intros Hc b Hb0 Hb n buf.
  apply holds_parts in Hc as (h & r & -> & Hh & Hr & Hs & Hbuf & Hl & Hn). fold b in Hr.
  assert (b < 64)%nat by (apply Nat.mod_upper_bound; lia).
  assert (length (take n d) = n) as Hln by (rewrite length_take; lia).
  assert (buf = r ++ take n d) as Ebuf.
  { unfold buf, splice. rewrite Hln, drop_ge, app_nil_r by lia. by rewrite <-Hr, Hbuf. }
  assert (length buf = 64)%nat as Elen by (rewrite Ebuf, length_app; lia).
  assert (length ((h ++ r) ++ take n d) mod 64 = 0)%nat as Hm.
  { rewrite <-app_assoc, <-Ebuf, length_app, Elen.
    rewrite <-Nat.Div0.add_mod_idemp_l, Hh. done. }
  split; [|done]. unfold holds. cbn [hs hbuf hbytes]. rewrite Hm.
  repeat split.
  - rewrite <-app_assoc, <-Ebuf, absorb_add, Hs by done. rewrite (absorb_one _ buf) by done. done.
  - rewrite drop_ge; [done|].
    pose proof (Nat.div_mod_eq (length ((h ++ r) ++ take n d)) 64). lia.
  - done.
  - rewrite Hn, u64_idem_l, (zlen_app (h ++ r)), zlen_take by lia. done.
Qed.

Lemma blocks_holds s0 m c d :
  holds s0 m c -> (length m mod 64 = 0)%nat -> let blocks := (length d / 64)%nat in
  holds s0 (m ++ take (64 * blocks) d)
    (Hasher (TransformN (hs c) d blocks) (hbuf c) (u64 (hbytes c + Z.of_nat (64 * blocks)))) /\
  (length (m ++ take (64 * blocks) d) mod 64 = 0)%nat.
Proof.
  intros (Hs & Hb & Hl & Hn) Hm blocks.
  pose proof (Nat.div_mod_eq (length d) 64) as Hd. fold blocks in Hd.
  assert (length (m ++ take (64 * blocks) d) mod 64 = 0)%nat as Hm'.
  { rewrite length_app, length_take, Nat.min_l by lia.
    rewrite <-Nat.Div0.add_mod_idemp_l, Hm, Nat.add_0_l, (Nat.mul_comm 64).
    apply Nat.Div0.mod_mul. }
  split; [|done]. unfold holds. cbn [hs hbuf hbytes]. rewrite Hm'. repeat split.
  - rewrite absorb_add, Hs by done. unfold blocks. by rewrite <-absorb_whole.
  - rewrite drop_ge; [done|].
    pose proof (Nat.div_mod_eq (length (m ++ take (64 * blocks) d)) 64). lia.
  - done.
  - rewrite Hn, u64_idem_l, zlen_app, zlen_take by lia. done.
Qed.

Lemma rest_holds s0 m c d :
  holds s0 m c -> (length m mod 64 + length d < 64)%nat ->
  holds s0 (m ++ d)
    (Hasher (hs c) (splice (length m mod 64) d (hbuf c)) (u64 (hbytes c + zlen d))).
Proof.
  intros Hc Hd. apply holds_parts in Hc as (h & r & E & Hh & Hr & Hs & Hbuf & Hl & Hn).
  rewrite <-Hr in *. rewrite E in *. clear E m.
  assert (length h = 64 * (length h / 64))%nat as Eh
    by (pose proof (Nat.div_mod_eq (length h) 64); lia).
  assert (length ((h ++ r) ++ d) / 64 = length h / 64)%nat as Ediv.
  { rewrite !length_app, Eh at 1. rewrite (Nat.mul_comm 64), <-Nat.add_assoc.
    rewrite Nat.add_comm, Nat.div_add, Nat.div_small by lia. lia. }
  assert (length ((h ++ r) ++ d) mod 64 = length r + length d)%nat as Emod.
  { pose proof (Nat.div_mod_eq (length ((h ++ r) ++ d)) 64) as X.
    rewrite Ediv in X. rewrite !length_app in *. lia. }
  unfold holds. cbn [hs hbuf hbytes]. rewrite Ediv, Emod, <-Eh. repeat split.
  - rewrite Hs, <-app_assoc, absorb_add by done.
    by rewrite (absorb_short _ (r ++ d)) by (rewrite length_app; lia).
  - rewrite take_splice, Hbuf by lia. by rewrite <-app_assoc, drop_app_length.
  - rewrite length_splice; lia.
  - by rewrite Hn, u64_idem_l, (zlen_app (h ++ r)).
Qed.

Lemma write_rest_holds s0 m c d :
  holds s0 m c -> (length m mod 64 + length d < 64)%nat ->
  holds s0 (m ++ d) (write_rest c d (length m mod 64)).
Proof.
  intros Hc Hd. unfold write_rest. destruct (Nat.ltb_spec 0 (length d)).
  - by apply rest_holds.
  - destruct d; [by rewrite app_nil_r|simpl in *; lia].
Qed.

Lemma write_blocks_holds s0 m c d :
  holds s0 m c -> (length m mod 64 = 0)%nat ->
  holds s0 (m ++ d) (write_blocks c d 0).
Proof.
  intros Hc Hm. unfold write_blocks. destruct (Nat.leb_spec 64 (length d)) as [Hd|Hd].
  - destruct (blocks_holds s0 m c d Hc Hm) as [Hc' Hm'].
    pose proof (write_rest_holds s0 _ _ (drop (64 * (length d / 64)) d) Hc') as Hw.
    rewrite Hm', <-app_assoc, take_drop in Hw. apply Hw. rewrite length_drop.
    pose proof (Nat.div_mod_eq (length d) 64). pose proof (Nat.mod_upper_bound (length d) 64).
    lia.
  - rewrite <-Hm. apply write_rest_holds; [done|lia].
Qed.

(** Writing [d] after [m] leaves the hasher holding [m ++ d]. *)
Lemma Write_holds s0 m c d : holds s0 m c -> holds s0 (m ++ d) (Write c d).
Proof.
  intros Hc. unfold Write. rewrite (bufsize_holds _ _ _ Hc).
  assert (length m mod 64 < 64)%nat by (apply Nat.mod_upper_bound; lia).
  destruct (Nat.eqb_spec (length m mod 64) 0) as [Hb0|Hb0]; cbn [negb andb].
  { rewrite Hb0. by apply write_blocks_holds. }
  destruct (Nat.leb_spec 64 (length m mod 64 + length d)) as [Hbl|Hbl].
  - destruct (fill_holds s0 m c d Hc) as [Hc' Hm']; [lia..|].
    rewrite <-(take_drop (64 - length m mod 64) d) at 1. rewrite app_assoc.
    by apply write_blocks_holds.
  - unfold write_blocks. destruct (Nat.leb_spec 64 (length d)); [lia|].
    by apply write_rest_holds.
Qed.

Lemma Writes_holds s0 m c ds :
  holds s0 m c -> holds s0 (m ++ concat ds) (fold_left Write ds c).
Proof.
  revert m c; induction ds as [|d ds IH]; intros m c Hc; simpl; [by rewrite app_nil_r|].
  rewrite app_assoc. by apply IH, Write_holds.
Qed.

Lemma init_holds s0 buf : length buf = 64%nat -> holds s0 [] (Hasher s0 buf 0).
Proof. intros Hb. by repeat split. Qed.

(** The padded message is a whole number of blocks. *)
Lemma pad_len_spec n : 0 <= n -> (n + Z.of_nat (pad_len n) + 8) mod 64 = 0.
Proof.
  intros Hn. unfold pad_len. pose proof (Z.mod_pos_bound (119 - n mod 64) 64).
  rewrite Z2Nat.id by lia.
  pose proof (Z.div_mod n 64). pose proof (Z.mod_pos_bound n 64).
  pose proof (Z.div_mod (119 - n mod 64) 64).
  replace (n + (1 + (119 - n mod 64) mod 64) + 8)
    with ((n / 64 + 2 - (119 - n mod 64) / 64) * 64) by lia.
  apply Z.mod_mul. lia.
Qed.
End md.

Arguments Write {S} Transform1 c data : simpl never.
