(* ===== verification/Sha256.v ===== *)
(** SHA-256: src/src/crypto/sha256.cpp, and the double hash [CHash256] and
    [Hash] of src/src/hash.h. The compression function is written out; the
    streaming interface is [MDHash.Write]. *)

From S2P Require Import Prelude MDHash.

Local Open Scope Z_scope.

Module sha256.

(** uint32_t arithmetic. *)
Definition u32 (z : Z) : Z := Z.land z 4294967295.
Definition add32 (a b : Z) : Z := u32 (a + b).
Definition shl32 (x n : Z) : Z := u32 (Z.shiftl x n).
Definition ror (x n : Z) : Z := Z.lor (Z.shiftr x n) (shl32 x (32 - n)).

Definition Ch (x y z : Z) : Z := Z.lxor z (Z.land x (Z.lxor y z)).
Definition Maj (x y z : Z) : Z := Z.lor (Z.land x y) (Z.land z (Z.lor x y)).
Definition Sigma0 (x : Z) : Z := Z.lxor (Z.lxor (ror x 2) (ror x 13)) (ror x 22).
Definition Sigma1 (x : Z) : Z := Z.lxor (Z.lxor (ror x 6) (ror x 11)) (ror x 25).
Definition sigma0 (x : Z) : Z := Z.lxor (Z.lxor (ror x 7) (ror x 18)) (Z.shiftr x 3).
Definition sigma1 (x : Z) : Z := Z.lxor (Z.lxor (ror x 17) (ror x 19)) (Z.shiftr x 10).

(** The eight working variables, and the array [uint32_t s[8]]. *)
Record regs := Regs { ra : Z; rb : Z; rc : Z; rd : Z; re : Z; rf : Z; rg : Z; rh : Z }.

(** One round. The calls of [Transform] pass the variables rotated by one each
    time; the result here is already rotated that way. *)
Definition Round (r : regs) (k w : Z) : regs :=
  let '(Regs a b c d e f g h) := r in
  let t1 := add32 (add32 (add32 (add32 h (Sigma1 e)) (Ch e f g)) k) w in
  let t2 := add32 (Sigma0 a) (Maj a b c) in
  Regs (add32 t1 t2) a b c (add32 d t1) e f g.

Definition Initialize : regs :=
  Regs 0x6a09e667 0xbb67ae85 0x3c6ef372 0xa54ff53a 0x510e527f 0x9b05688c 0x1f83d9ab 0x5be0cd19.

(** The calls of [Round] in order, as (constant, message word): the first
    sixteen, which read the words of the chunk, *)
Definition first_calls : list (Z * Z) :=
  [(0x428a2f98, 0); (0x71374491, 1); (0xb5c0fbcf, 2); (0xe9b5dba5, 3);
   (0x3956c25b, 4); (0x59f111f1, 5); (0x923f82a4, 6); (0xab1c5ed5, 7);
   (0xd807aa98, 8); (0x12835b01, 9); (0x243185be, 10); (0x550c7dc3, 11);
   (0x72be5d74, 12); (0x80deb1fe, 13); (0x9bdc06a7, 14); (0xc19bf174, 15)].

(** and the other forty-eight, each of which first updates its word. *)
Definition later_calls : list (Z * Z) :=
  [(0xe49b69c1, 0); (0xefbe4786, 1); (0x0fc19dc6, 2); (0x240ca1cc, 3);
   (0x2de92c6f, 4); (0x4a7484aa, 5); (0x5cb0a9dc, 6); (0x76f988da, 7);
   (0x983e5152, 8); (0xa831c66d, 9); (0xb00327c8, 10); (0xbf597fc7, 11);
   (0xc6e00bf3, 12); (0xd5a79147, 13); (0x06ca6351, 14); (0x14292967, 15);
   (0x27b70a85, 0); (0x2e1b2138, 1); (0x4d2c6dfc, 2); (0x53380d13, 3);
   (0x650a7354, 4); (0x766a0abb, 5); (0x81c2c92e, 6); (0x92722c85, 7);
   (0xa2bfe8a1, 8); (0xa81a664b, 9); (0xc24b8b70, 10); (0xc76c51a3, 11);
   (0xd192e819, 12); (0xd6990624, 13); (0xf40e3585, 14); (0x106aa070, 15);
   (0x19a4c116, 0); (0x1e376c08, 1); (0x2748774c, 2); (0x34b0bcb5, 3);
   (0x391c0cb3, 4); (0x4ed8aa4a, 5); (0x5b9cca4f, 6); (0x682e6ff3, 7);
   (0x748f82ee, 8); (0x78a5636f, 9); (0x84c87814, 10); (0x8cc70208, 11);
   (0x90befffa, 12); (0xa4506ceb, 13); (0xbef9a3f7, 14); (0xc67178f2, 15)].

(** [w0 += sigma1(w14) + w9 + sigma0(w1)] and its fifteen renamings: the word
    [w_i] is updated from the words 14, 9 and 1 places on. *)
Definition update_w (w : list Z) (i : Z) : list Z :=
  let at_off d := nth (Z.to_nat ((i + d) mod 16)) w 0 in
  <[Z.to_nat i := add32 (at_off 0) (add32 (add32 (sigma1 (at_off 14)) (at_off 9)) (sigma0 (at_off 1)))]> w.

Definition do_first (w : list Z) (r : regs) (call : Z * Z) : regs :=
  Round r call.1 (nth (Z.to_nat call.2) w 0).

Definition do_later (wr : list Z * regs) (call : Z * Z) : list Z * regs :=
  let w := update_w wr.1 call.2 in (w, Round wr.2 call.1 (nth (Z.to_nat call.2) w 0)).

Definition rounds (w : list Z) (r : regs) : regs :=
  (fold_left do_later later_calls (w, fold_left (do_first w) first_calls r)).2.

(** [ReadBE32] of [n] consecutive words. *)
Fixpoint read_be32 (n : nat) (chunk : bytes) : list Z :=
  match n with
  | O => []
  | S n => be_decode (take 4 chunk) :: read_be32 n (drop 4 chunk)
  end.

Definition Transform1 (s : regs) (chunk : bytes) : regs :=
  let '(Regs a b c d e f g h) := s in
  let '(Regs a' b' c' d' e' f' g' h') := rounds (read_be32 16 chunk) s in
  Regs (add32 a a') (add32 b b') (add32 c c') (add32 d d')
       (add32 e e') (add32 f f') (add32 g g') (add32 h h').

Definition CSHA256 : hasher regs := Hasher Initialize (repeat 0 64) 0.
Definition CSHA256_Write (c : hasher regs) (data : bytes) : hasher regs :=
  Write Transform1 c data.

Definition out_bytes (s : regs) : bytes :=
  let '(Regs a b c d e f g h) := s in
  be_bytes 4 a ++ be_bytes 4 b ++ be_bytes 4 c ++ be_bytes 4 d ++
  be_bytes 4 e ++ be_bytes 4 f ++ be_bytes 4 g ++ be_bytes 4 h.

Definition CSHA256_Finalize (c : hasher regs) : bytes :=
  let sizedesc := be_bytes 8 (u64 (Z.shiftl (hbytes c) 3)) in
  let c1 := CSHA256_Write c (take (pad_len (hbytes c)) pad) in
  out_bytes (hs (CSHA256_Write c1 sizedesc)).

(** The hasher keeps its buffer contents; only the counter and [s] restart. *)
Definition CSHA256_Reset (c : hasher regs) : hasher regs := Hasher Initialize (hbuf c) 0.

(** The chained calls [CSHA256().Write(..).Write(..).Finalize(h)]. *)
Definition SHA256 (parts : list bytes) : bytes :=
  CSHA256_Finalize (fold_left CSHA256_Write parts CSHA256).

(** [CHash256::Finalize]: the digest of the digest. *)
Definition CHash256_Finalize (c : hasher regs) : bytes :=
  CSHA256_Finalize (CSHA256_Write (CSHA256_Reset c) (CSHA256_Finalize c)).

(** [Hash(...)] of src/src/hash.h, on any number of ranges. *)
Definition Hash (parts : list bytes) : bytes :=
  CHash256_Finalize (fold_left CSHA256_Write parts CSHA256).

(** The specification: FIPS 180-4 padding of the whole message, then the
    blocks in order. *)
Definition fips_pad (m : bytes) : bytes :=
  m ++ 128 :: repeat 0 (Z.to_nat ((55 - zlen m) mod 64)) ++ be_bytes 8 (8 * zlen m).
Definition sha256_spec (m : bytes) : bytes :=
  out_bytes (absorb Transform1 Initialize (fips_pad m)).

Lemma pad_take n :
  take (pad_len n) pad = 128 :: repeat 0 (Z.to_nat ((55 - n) mod 64)).
Proof.
  unfold pad_len, pad.
  assert ((119 - n mod 64) mod 64 = (55 - n) mod 64) as ->.
  { rewrite Zminus_mod_idemp_r. replace (119 - n) with (55 - n + 1 * 64) by lia.
    by rewrite Z.mod_add. }
  pose proof (Z.mod_pos_bound (55 - n) 64).
  rewrite Z2Nat.inj_add by lia. change (Z.to_nat 1) with 1%nat.
  change (take (1 + ?n) (?x :: ?l)) with (x :: take n l).
  by rewrite take_repeat, Nat.min_l by lia.
Qed.

Lemma sizedesc_eq n : be_bytes 8 (u64 (Z.shiftl (u64 n) 3)) = be_bytes 8 (8 * n).
Proof.
  unfold be_bytes, u64. f_equal. rewrite Z.shiftl_mul_pow2 by lia.
  change (2 ^ 3) with 8. rewrite Z.mul_mod_idemp_l, Z.mul_comm by lia.
  apply (le_bytes_mod 8).
Qed.

Lemma pad_len_u64 n : pad_len (u64 n) = pad_len n.
Proof. unfold pad_len. by rewrite u64_mod_64. Qed.

(** A hasher that holds [m] finalizes to the digest of [m]. *)
Lemma Finalize_holds m c :
  holds Transform1 Initialize m c -> CSHA256_Finalize c = sha256_spec m.
Proof.
  intros Hc. pose proof Hc as (_ & _ & _ & Hn). unfold CSHA256_Finalize, sha256_spec.
  pose proof (Write_holds _ _ _ _ (take (pad_len (hbytes c)) pad) Hc) as H1.
  pose proof (Write_holds _ _ _ _ (be_bytes 8 (u64 (Z.shiftl (hbytes c) 3))) H1) as H2.
  destruct H2 as (H2 & _). fold CSHA256_Write in H2 |- *.
  unfold CSHA256_Write. rewrite H2, Hn, sizedesc_eq, pad_len_u64, pad_take.
  unfold fips_pad. by rewrite <-app_assoc.
Qed.

Lemma CSHA256_holds : holds Transform1 Initialize [] CSHA256.
Proof. by apply init_holds. Qed.

Lemma SHA256_correct parts : SHA256 parts = sha256_spec (concat parts).
Proof.
  unfold SHA256. apply Finalize_holds.
  exact (Writes_holds _ _ [] _ parts CSHA256_holds).
Qed.

Lemma length_out_bytes s : length (out_bytes s) = 32%nat.
Proof. destruct s. done. Qed.

Lemma length_SHA256 parts : length (SHA256 parts) = 32%nat.
Proof. apply length_out_bytes. Qed.

Lemma be_bytes_ok n z : bytes_ok (be_bytes n z).
Proof. unfold be_bytes. apply Forall_rev, le_bytes_ok. Qed.

Lemma out_bytes_ok s : bytes_ok (out_bytes s).
Proof. destruct s. unfold out_bytes. rewrite !bytes_ok_app. auto 20 using be_bytes_ok. Qed.

Lemma SHA256_ok parts : bytes_ok (SHA256 parts).
Proof. apply out_bytes_ok. Qed.

Lemma Hash_correct parts :
  Hash parts = sha256_spec (sha256_spec (concat parts)).
Proof.
  unfold Hash, CHash256_Finalize.
  set (c := fold_left CSHA256_Write parts CSHA256).
  assert (holds Transform1 Initialize (concat parts) c) as H
    by exact (Writes_holds Transform1 _ [] _ parts CSHA256_holds).
  rewrite (Finalize_holds _ _ H). apply Finalize_holds.
  apply (Write_holds _ _ []). apply init_holds. apply H.
Qed.

(** The self-test vectors of [SelfTest] and the standard "abc" vector. *)
Example SelfTest_out1 :
  absorb Transform1 Initialize (fips_pad []) =
  Regs 0xe3b0c442 0x98fc1c14 0x9afbf4c8 0x996fb924 0x27ae41e4 0x649b934c 0xa495991b 0x7852b855.
Proof. vm_compute. reflexivity. Qed.

Example SelfTest_out2 :
  absorb Transform1 Initialize (fips_pad (repeat 32 64)) =
  Regs 0xce4153b0 0x147c2a86 0x3ed4298e 0xe0676bc8 0x79fc77a1 0x2abe1f49 0xb2b055df 0x1069523e.
Proof. vm_compute. reflexivity. Qed.

End sha256.

#[export] Hint Resolve sha256.length_SHA256 sha256.SHA256_ok : xcoin.
#[export] Hint Rewrite sha256.length_SHA256 : len.
#[global] Arguments sha256.SHA256 : simpl never.
#[global] Arguments sha256.sha256_spec : simpl never.
