(* ===== verification/Hmac.v ===== *)
(** * HMAC-SHA-256

    [CHMAC_SHA256] of src/src/crypto/hmac_sha256.{h,cpp}: two running hashers,
    one for the inner and one for the outer hash, and that they compute the
    construction of RFC 2104. *)

From S2P Require Import Prelude MDHash Sha256.

Import sha256.

Local Open Scope Z_scope.

Record hmac := mkHmac { hm_outer : hasher regs; hm_inner : hasher regs }.

(** The constructor: the key padded or hashed to a block, then turned into the
    two pads in place. *)
Definition CHMAC_SHA256 (key : bytes) : hmac :=
  let rkey := if zlen key <=? 64 then key ++ repeat 0 (64 - length key)
              else CSHA256_Finalize (CSHA256_Write CSHA256 key) ++ repeat 0 32 in
  let rkey := map (fun b => Z.lxor b 0x5c) rkey in
  let outer := CSHA256_Write CSHA256 rkey in
  let rkey := map (fun b => Z.lxor b (Z.lxor 0x5c 0x36)) rkey in
  mkHmac outer (CSHA256_Write CSHA256 rkey).

Definition CHMAC_SHA256_Write (h : hmac) (data : bytes) : hmac :=
  mkHmac (hm_outer h) (CSHA256_Write (hm_inner h) data).

Definition CHMAC_SHA256_Finalize (h : hmac) : bytes :=
  CSHA256_Finalize (CSHA256_Write (hm_outer h) (CSHA256_Finalize (hm_inner h))).

(** ** The construction *)

Definition hmac_key (key : bytes) : bytes :=
  let k := if zlen key <=? 64 then key else sha256_spec key in k ++ repeat 0 (64 - length k).
Definition xor_pad (c : Z) (k : bytes) : bytes := map (fun b => Z.lxor b c) k.
Definition hmac_spec (key m : bytes) : bytes :=
  sha256_spec (xor_pad 0x5c (hmac_key key) ++ sha256_spec (xor_pad 0x36 (hmac_key key) ++ m)).

Lemma sha256_spec_length m : length (sha256_spec m) = 32%nat.
Proof. rewrite <-(app_nil_r m). change (m ++ []) with (concat [m]). rewrite <-SHA256_correct. apply length_SHA256. Qed.

Lemma sha256_spec_ok m : bytes_ok (sha256_spec m).
Proof. rewrite <-(app_nil_r m). change (m ++ []) with (concat [m]). rewrite <-SHA256_correct. apply SHA256_ok. Qed.

Lemma hmac_spec_ok key m : bytes_ok (hmac_spec key m).
Proof. apply sha256_spec_ok. Qed.

Lemma hmac_spec_length key m : length (hmac_spec key m) = 32%nat.
Proof. apply sha256_spec_length. Qed.

Lemma hmac_holds key parts :
  holds Transform1 Initialize (xor_pad 0x5c (hmac_key key))
    (hm_outer (fold_left CHMAC_SHA256_Write parts (CHMAC_SHA256 key))) /\
  holds Transform1 Initialize (xor_pad 0x36 (hmac_key key) ++ concat parts)
    (hm_inner (fold_left CHMAC_SHA256_Write parts (CHMAC_SHA256 key))).
Proof.
  assert (forall d, holds Transform1 Initialize d (CSHA256_Write CSHA256 d)) as Hw.
  { intros d. apply (Write_holds _ _ [] CSHA256 d), CSHA256_holds. }
  assert (forall h o i, holds Transform1 Initialize o (hm_outer h) -> holds Transform1 Initialize i (hm_inner h) ->
    holds Transform1 Initialize o (hm_outer (fold_left CHMAC_SHA256_Write parts h)) /\
    holds Transform1 Initialize (i ++ concat parts) (hm_inner (fold_left CHMAC_SHA256_Write parts h))) as Hgen.
  { induction parts as [|d parts IH]; intros h o i Ho Hi; [by rewrite app_nil_r|].
    cbn [fold_left concat]. rewrite app_assoc. apply IH; [done|]. by apply Write_holds. }
  apply Hgen; unfold CHMAC_SHA256; cbn [hm_outer hm_inner].
  - unfold hmac_key. destruct (zlen key <=? 64); [apply Hw|].
    rewrite (Finalize_holds _ _ (Hw key)), sha256_spec_length. apply Hw.
  - rewrite map_map. unfold hmac_key, xor_pad.
    erewrite (map_ext (fun x => Z.lxor (Z.lxor x _) _) (fun b => Z.lxor b 0x36));
      [|intros b; rewrite Z.lxor_assoc; reflexivity].
    destruct (zlen key <=? 64); [apply Hw|]. rewrite (Finalize_holds _ _ (Hw key)), sha256_spec_length. apply Hw.
Qed.

(** The keyed hash of the session proof is HMAC-SHA-256: however the
    message is cut into writes, and for keys shorter than, as long as and
    longer than a block, the two running hashers give
    H(K xor opad, H(K xor ipad, message)) of RFC 2104 over the padded hash
    function of FIPS 180-4. *)
Lemma hmac_correct (key : bytes) (parts : list bytes) :
  CHMAC_SHA256_Finalize (fold_left CHMAC_SHA256_Write parts (CHMAC_SHA256 key)) = hmac_spec key (concat parts).
Proof.
  destruct (hmac_holds key parts) as [Ho Hi]. unfold CHMAC_SHA256_Finalize, hmac_spec.
  rewrite (Finalize_holds _ _ Hi). by apply Finalize_holds, Write_holds.
Qed.

(** One write, as the callers use it. *)
Lemma hmac_one key m : CHMAC_SHA256_Finalize (CHMAC_SHA256_Write (CHMAC_SHA256 key) m) = hmac_spec key m.
Proof.
  destruct (hmac_holds key [m]) as [Ho Hi]. cbn [fold_left concat] in Ho, Hi. rewrite app_nil_r in Hi.
  unfold CHMAC_SHA256_Finalize, hmac_spec. rewrite (Finalize_holds _ _ Hi). by apply Finalize_holds, Write_holds.
Qed.
