(* ===== verification/Ripemd160.v ===== *)
(** RIPEMD-160: src/src/crypto/ripemd160.cpp, and the 160-bit hash [CHash160] /
    [Hash160] of src/src/hash.h. *)

From S2P Require Import Prelude MDHash Sha256.

Local Open Scope Z_scope.

Module ripemd160.
Import sha256.

Definition not32 (x : Z) : Z := Z.lxor x 4294967295.
Definition f1 (x y z : Z) : Z := Z.lxor (Z.lxor x y) z.
Definition f2 (x y z : Z) : Z := Z.lor (Z.land x y) (Z.land (not32 x) z).
Definition f3 (x y z : Z) : Z := Z.lxor (Z.lor x (not32 y)) z.
Definition f4 (x y z : Z) : Z := Z.lor (Z.land x z) (Z.land y (not32 z)).
Definition f5 (x y z : Z) : Z := Z.lxor x (Z.lor y (not32 z)).

Record regs5 := Regs5 { r0 : Z; r1 : Z; r2 : Z; r3 : Z; r4 : Z }.

Definition rmd_Initialize : regs5 :=
  Regs5 0x67452301 0xEFCDAB89 0x98BADCFE 0x10325476 0xC3D2E1F0.

Definition rol (x i : Z) : Z := Z.lor (shl32 x i) (Z.shiftr x (32 - i)).

(** [Round(a, b, c, d, e, f(b, c, d), x, k, r)]. The calls rotate the five
    variables by one each time, [(a,b,c,d,e)] then [(e,a,b,c,d)]; the result is
    given already rotated. *)
Definition rmd_Round (f : Z -> Z -> Z -> Z) (k : Z) (s : regs5) (x r : Z) : regs5 :=
  let '(Regs5 a b c d e) := s in
  let a' := add32 (rol (add32 (add32 (add32 a (f b c d)) x) k) r) e in
  Regs5 e a' b (rol c 10) d.

(** One line: the (word, shift) pairs of sixteen rounds. *)
Fixpoint line (f : Z -> Z -> Z -> Z) (k : Z) (ws : list Z) (sched : list (Z * Z)) (s : regs5) : regs5 :=
  match sched with
  | [] => s
  | (i, r) :: t => line f k ws t (rmd_Round f k s (nth (Z.to_nat i) ws 0) r)
  end.

(** The left half, R11 to R51. *)
Definition sched11 : list (Z * Z) :=
  [(0, 11); (1, 14); (2, 15); (3, 12); (4, 5); (5, 8); (6, 7); (7, 9);
    (8, 11); (9, 13); (10, 14); (11, 15); (12, 6); (13, 7); (14, 9); (15, 8)].
Definition sched21 : list (Z * Z) :=
  [(7, 7); (4, 6); (13, 8); (1, 13); (10, 11); (6, 9); (15, 7); (3, 15);
    (12, 7); (0, 12); (9, 15); (5, 9); (2, 11); (14, 7); (11, 13); (8, 12)].
Definition sched31 : list (Z * Z) :=
  [(3, 11); (10, 13); (14, 6); (4, 7); (9, 14); (15, 9); (8, 13); (1, 15);
    (2, 14); (7, 8); (0, 13); (6, 6); (13, 5); (11, 12); (5, 7); (12, 5)].
Definition sched41 : list (Z * Z) :=
  [(1, 11); (9, 12); (11, 14); (10, 15); (0, 14); (8, 15); (12, 9); (4, 8);
    (13, 9); (3, 14); (7, 5); (15, 6); (14, 8); (5, 6); (6, 5); (2, 12)].
Definition sched51 : list (Z * Z) :=
  [(4, 9); (0, 15); (5, 5); (9, 11); (7, 6); (12, 8); (2, 13); (10, 12);
    (14, 5); (1, 12); (3, 13); (8, 14); (11, 11); (6, 8); (15, 5); (13, 6)].
(** The right half, R12 to R52. *)
Definition sched12 : list (Z * Z) :=
  [(5, 8); (14, 9); (7, 9); (0, 11); (9, 13); (2, 15); (11, 15); (4, 5);
    (13, 7); (6, 7); (15, 8); (8, 11); (1, 14); (10, 14); (3, 12); (12, 6)].
Definition sched22 : list (Z * Z) :=
  [(6, 9); (11, 13); (3, 15); (7, 7); (0, 12); (13, 8); (5, 9); (10, 11);
    (14, 7); (15, 7); (8, 12); (12, 7); (4, 6); (9, 15); (1, 13); (2, 11)].
Definition sched32 : list (Z * Z) :=
  [(15, 9); (5, 7); (1, 15); (3, 11); (7, 8); (14, 6); (6, 6); (9, 14);
    (11, 12); (8, 13); (12, 5); (2, 14); (10, 13); (0, 13); (4, 7); (13, 5)].
Definition sched42 : list (Z * Z) :=
  [(8, 15); (6, 5); (4, 8); (1, 11); (3, 14); (11, 14); (15, 6); (0, 14);
    (5, 6); (12, 9); (2, 12); (13, 9); (9, 12); (7, 5); (10, 15); (14, 8)].
Definition sched52 : list (Z * Z) :=
  [(12, 8); (15, 5); (10, 12); (4, 9); (1, 12); (5, 5); (8, 14); (7, 6);
    (6, 8); (2, 13); (13, 6); (14, 5); (0, 15); (3, 13); (9, 11); (11, 11)].

Fixpoint read_le32 (n : nat) (chunk : bytes) : list Z :=
  match n with
  | O => []
  | S n => le_decode (take 4 chunk) :: read_le32 n (drop 4 chunk)
  end.

Definition rmd_Transform (s : regs5) (chunk : bytes) : regs5 :=
  let w := read_le32 16 chunk in
  let '(Regs5 a1 b1 c1 d1 e1) :=
    line f5 0xA953FD4E w sched51 (line f4 0x8F1BBCDC w sched41 (line f3 0x6ED9EBA1 w sched31
      (line f2 0x5A827999 w sched21 (line f1 0 w sched11 s)))) in
  let '(Regs5 a2 b2 c2 d2 e2) :=
    line f1 0 w sched52 (line f2 0x7A6D76E9 w sched42 (line f3 0x6D703EF3 w sched32
      (line f4 0x5C4DD124 w sched22 (line f5 0x50A28BE6 w sched12 s)))) in
  let '(Regs5 s0 s1 s2 s3 s4) := s in
  Regs5 (add32 (add32 s1 c1) d2) (add32 (add32 s2 d1) e2) (add32 (add32 s3 e1) a2)
        (add32 (add32 s4 a1) b2) (add32 (add32 s0 b1) c2).

Definition CRIPEMD160 : hasher regs5 := Hasher rmd_Initialize (repeat 0 64) 0.
(** The [while (end >= data + 64)] loop runs [len / 64] times. *)
Definition CRIPEMD160_Write (c : hasher regs5) (data : bytes) : hasher regs5 :=
  Write rmd_Transform c data.

Definition rmd_out (s : regs5) : bytes :=
  let '(Regs5 a b c d e) := s in
  le_bytes 4 a ++ le_bytes 4 b ++ le_bytes 4 c ++ le_bytes 4 d ++ le_bytes 4 e.

Definition CRIPEMD160_Finalize (c : hasher regs5) : bytes :=
  let sizedesc := le_bytes 8 (u64 (Z.shiftl (hbytes c) 3)) in
  let c1 := CRIPEMD160_Write c (take (pad_len (hbytes c)) pad) in
  rmd_out (hs (CRIPEMD160_Write c1 sizedesc)).

(** [CHash160::Finalize] after writing [data], that is [Hash160]. *)
Definition Hash160 (data : bytes) : bytes :=
  CRIPEMD160_Finalize
    (CRIPEMD160_Write CRIPEMD160 (CSHA256_Finalize (CSHA256_Write CSHA256 data))).

(** The specification: the whole padded message, block after block. *)
Definition rmd_pad (m : bytes) : bytes :=
  m ++ 128 :: repeat 0 (Z.to_nat ((55 - zlen m) mod 64)) ++ le_bytes 8 (8 * zlen m).
Definition ripemd160_spec (m : bytes) : bytes :=
  rmd_out (absorb rmd_Transform rmd_Initialize (rmd_pad m)).

Lemma rmd_sizedesc_eq n : le_bytes 8 (u64 (Z.shiftl (u64 n) 3)) = le_bytes 8 (8 * n).
Proof.
  unfold u64. rewrite Z.shiftl_mul_pow2 by lia.
  change (2 ^ 3) with 8. rewrite Z.mul_mod_idemp_l, Z.mul_comm by lia.
  apply (le_bytes_mod 8).
Qed.

Lemma rmd_Finalize_holds m c :
  holds rmd_Transform rmd_Initialize m c -> CRIPEMD160_Finalize c = ripemd160_spec m.
Proof.
  intros Hc. pose proof Hc as (_ & _ & _ & Hn). unfold CRIPEMD160_Finalize, ripemd160_spec.
  pose proof (Write_holds _ _ _ _ (take (pad_len (hbytes c)) pad) Hc) as H1.
  pose proof (Write_holds _ _ _ _ (le_bytes 8 (u64 (Z.shiftl (hbytes c) 3))) H1) as H2.
  destruct H2 as (H2 & _). unfold CRIPEMD160_Write.
  rewrite H2, Hn, rmd_sizedesc_eq, pad_len_u64, pad_take.
  unfold rmd_pad. by rewrite <-app_assoc.
Qed.

Lemma CRIPEMD160_holds : holds rmd_Transform rmd_Initialize [] CRIPEMD160.
Proof. by apply init_holds. Qed.

Lemma Hash160_correct m : Hash160 m = ripemd160_spec (sha256_spec m).
Proof.
  unfold Hash160. rewrite (Finalize_holds m) by (apply (Write_holds _ _ []), CSHA256_holds).
  apply rmd_Finalize_holds. apply (Write_holds _ _ []), CRIPEMD160_holds.
Qed.

Lemma length_Hash160 m : length (Hash160 m) = 20%nat.
Proof. unfold Hash160, CRIPEMD160_Finalize. by destruct (hs _). Qed.

Lemma Hash160_ok m : bytes_ok (Hash160 m).
Proof.
  unfold Hash160, CRIPEMD160_Finalize. destruct (hs _). unfold rmd_out.
  rewrite !bytes_ok_app. auto 20 with xcoin.
Qed.

(** The vectors of src/src/test/crypto_tests.cpp. *)
Example ripemd160_abc :
  ripemd160_spec (bs "abc") =
  [0x8e; 0xb2; 0x08; 0xf7; 0xe0; 0x5d; 0x98; 0x7a; 0x9b; 0x04;
   0x4a; 0x8e; 0x98; 0xc6; 0xb0; 0x87; 0xf1; 0x5a; 0x0b; 0xfc].
Proof. vm_compute. reflexivity. Qed.

(** The hashers compute their hash functions: feeding a message to
    [CSHA256] in any number of pieces of any length yields the SHA-256 of the
    concatenation, that is the compression function folded over the padded
    blocks; the double hash [Hash] is the SHA-256 of that digest, and [CHash160]
    is the RIPEMD-160 of the SHA-256. *)
Theorem hash_streaming_correct (parts : list bytes) :
  sha256.SHA256 parts = sha256.sha256_spec (concat parts) /\
  sha256.Hash parts = sha256.sha256_spec (sha256.sha256_spec (concat parts)) /\
  Hash160 (concat parts) = ripemd160_spec (sha256.sha256_spec (concat parts)).
Proof. split_and!; [apply sha256.SHA256_correct|apply sha256.Hash_correct|apply Hash160_correct]. Qed.

End ripemd160.

#[export] Hint Resolve ripemd160.length_Hash160 ripemd160.Hash160_ok : xcoin.
#[export] Hint Rewrite ripemd160.length_Hash160 : len.
#[global] Arguments ripemd160.Hash160 : simpl never.
