(* ===== verification/Script.v ===== *)
(** Scripts: the encoder and decoder of src/src/script/script.h, the predicates
    of src/src/script/script.cpp and the output templates of
    src/src/script/standard.cpp, with [CPubKey] of src/src/pubkey.h.

    A [CScript] is its bytes; a [const_iterator] into it is the suffix that is
    left to read, so [pc == end()] is the empty suffix. *)

From S2P Require Import Prelude Sha256 Ripemd160.

Local Open Scope Z_scope.

Abbreviation CScript := (list Z) (only parsing).

(** ** Opcodes used by the program's own code *)
Definition OP_0 : Z := 0x00.
Definition OP_PUSHDATA1 : Z := 0x4c.
Definition OP_PUSHDATA2 : Z := 0x4d.
Definition OP_PUSHDATA4 : Z := 0x4e.
Definition OP_1NEGATE : Z := 0x4f.
Definition OP_RESERVED : Z := 0x50.
Definition OP_1 : Z := 0x51.
Definition OP_16 : Z := 0x60.
Definition OP_RETURN : Z := 0x6a.
Definition OP_DROP : Z := 0x75.
Definition OP_DUP : Z := 0x76.
Definition OP_EQUAL : Z := 0x87.
Definition OP_EQUALVERIFY : Z := 0x88.
Definition OP_HASH160 : Z := 0xa9.
Definition OP_CHECKSIG : Z := 0xac.
Definition OP_CHECKSIGVERIFY : Z := 0xad.
Definition OP_CHECKMULTISIG : Z := 0xae.
Definition OP_CHECKMULTISIGVERIFY : Z := 0xaf.
Definition OP_NOP10 : Z := 0xb9.
Definition OP_RVN_ASSET : Z := 0xc0.
Definition OP_SMALLINTEGER : Z := 0xfa.
Definition OP_PUBKEYS : Z := 0xfb.
Definition OP_PUBKEYHASH : Z := 0xfd.
Definition OP_PUBKEY : Z := 0xfe.
Definition MAX_OPCODE : Z := OP_NOP10.
Definition MAX_SCRIPT_ELEMENT_SIZE : Z := 520.
Definition MAX_SCRIPT_SIZE : Z := 10000.
Definition MAX_PUBKEYS_PER_MULTISIG : Z := 20.

(** The hash types of signatures *)
Definition SIGHASH_ALL : Z := 1.
Definition SIGHASH_NONE : Z := 2.
Definition SIGHASH_SINGLE : Z := 3.
Definition SIGHASH_ANYONECANPAY : Z := 0x80.

(** [script[i]]; every use below is behind a size test. *)
Definition sat (s : CScript) (i : nat) : Z := nth i s 0.

(** ** Encoding *)

(** [operator<<(const std::vector<unsigned char>&)]: the pushed bytes. *)
Definition push (b : bytes) : CScript :=
  (if zlen b <? OP_PUSHDATA1 then le_bytes 1 (zlen b)
   else if zlen b <=? 0xff then OP_PUSHDATA1 :: le_bytes 1 (zlen b)
   else if zlen b <=? 0xffff then OP_PUSHDATA2 :: le_bytes 2 (zlen b)
   else OP_PUSHDATA4 :: le_bytes 4 (zlen b)) ++ b.

(** ** Script numbers: [CScriptNum] *)

(** [while (absvalue) { push_back(absvalue & 0xff); absvalue >>= 8; }]; a
    64-bit value has at most eight bytes. *)
Fixpoint num_bytes (fuel : nat) (a : Z) : bytes :=
  match fuel with
  | O => []
  | S n => if a =? 0 then [] else Z.land a 255 :: num_bytes n (Z.shiftr a 8)
  end.

Definition CScriptNum_serialize (value : Z) : bytes :=
  if value =? 0 then [] else
  let neg := value <? 0 in
  let result := num_bytes 8 (Z.abs value) in
  let top := List.last result 0 in
  if negb (Z.land top 128 =? 0) then result ++ [if neg then 128 else 0]
  else if neg then removelast result ++ [Z.lor top 128]
  else result.

Definition set_vch (vch : bytes) : Z :=
  match vch with
  | [] => 0
  | _ =>
      let result := le_decode vch in
      if negb (Z.land (List.last vch 0) 128 =? 0)
      then - Z.land result (Z.lnot (Z.shiftl 128 (8 * (zlen vch - 1))))
      else result
  end.

Inductive num_result := NumOk (v : Z) | NumOverflow | NumNonMinimal.

(** The throwing constructor [CScriptNum(vch, fRequireMinimal, nMaxNumSize)]. *)
Definition CScriptNum_of (vch : bytes) (fRequireMinimal : bool) (nMaxNumSize : Z) : num_result :=
  if nMaxNumSize <? zlen vch then NumOverflow else
  if fRequireMinimal && (0 <? zlen vch) && (Z.land (List.last vch 0) 127 =? 0) &&
     ((zlen vch <=? 1) || (Z.land (sat vch (length vch - 2)) 128 =? 0))
  then NumNonMinimal
  else NumOk (set_vch vch).

(** [getint]: saturate to [int]. *)
Definition getint (m_value : Z) : Z :=
  if INT_MAX <? m_value then INT_MAX
  else if m_value <? - 2 ^ 31 then - 2 ^ 31 else m_value.

(** [push_int64] *)
Definition push_int64 (n : Z) : CScript :=
  if (n =? -1) || ((1 <=? n) && (n <=? 16)) then [n + (OP_1 - 1)]
  else if n =? 0 then [OP_0]
  else push (CScriptNum_serialize n).

(** ** Decoding *)

Record op_result := OpResult { op_code : Z; op_data : bytes; op_rest : bytes }.

(** [GetOp2(pc, opcodeRet, pvchRet)]: [None] when it returns false. *)
Definition take_data (opcode nSize : Z) (pc : bytes) : option op_result :=
  if zlen pc <? nSize then None
  else Some (OpResult opcode (take (Z.to_nat nSize) pc) (drop (Z.to_nat nSize) pc)).

Definition GetOp2 (pc : bytes) : option op_result :=
  match pc with
  | [] => None
  | opcode :: pc =>
      if opcode <=? OP_PUSHDATA4 then
        if opcode <? OP_PUSHDATA1 then take_data opcode opcode pc
        else if opcode =? OP_PUSHDATA1 then
          if zlen pc <? 1 then None
          else take_data opcode (le_decode (take 1 pc)) (drop 1 pc)
        else if opcode =? OP_PUSHDATA2 then
          if zlen pc <? 2 then None
          else take_data opcode (le_decode (take 2 pc)) (drop 2 pc)
        else
          if zlen pc <? 4 then None
          else take_data opcode (le_decode (take 4 pc)) (drop 4 pc)
      else if opcode =? OP_RVN_ASSET then
        (* everything after OP_RVN_ASSET is data *)
        Some (OpResult opcode pc [])
      else Some (OpResult opcode [] pc)
  end.

Definition DecodeOP_N (opcode : Z) : Z := if opcode =? OP_0 then 0 else opcode - (OP_1 - 1).
Definition EncodeOP_N (n : Z) : Z := if n =? 0 then OP_0 else OP_1 + n - 1.

(** Loops over the operations of a script run once per operation; each one
    consumes at least a byte, so [length] iterations are enough. *)
Fixpoint IsPushOnly_loop (fuel : nat) (pc : bytes) : bool :=
  match fuel, pc with
  | _, [] => true
  | O, _ => false
  | S n, _ =>
      match GetOp2 pc with
      | None => false
      | Some r => if OP_16 <? op_code r then false else IsPushOnly_loop n (op_rest r)
      end
  end.
Definition IsPushOnly (pc : bytes) : bool := IsPushOnly_loop (length pc) pc.

Fixpoint HasValidOps_loop (fuel : nat) (pc : bytes) : bool :=
  match fuel, pc with
  | _, [] => true
  | O, _ => false
  | S n, _ =>
      match GetOp2 pc with
      | None => false
      | Some r =>
          if (MAX_OPCODE <? op_code r) || (MAX_SCRIPT_ELEMENT_SIZE <? zlen (op_data r)) then false
          else HasValidOps_loop n (op_rest r)
      end
  end.
Definition HasValidOps (s : CScript) : bool := HasValidOps_loop (length s) s.

Fixpoint GetSigOpCount_loop (fuel : nat) (fAccurate : bool) (lastOpcode n : Z) (pc : bytes) : Z :=
  match fuel with
  | O => n
  | S fuel =>
      match GetOp2 pc with
      | None => n
      | Some r =>
          let opcode := op_code r in
          let n' :=
            if (opcode =? OP_CHECKSIG) || (opcode =? OP_CHECKSIGVERIFY) then n + 1
            else if (opcode =? OP_CHECKMULTISIG) || (opcode =? OP_CHECKMULTISIGVERIFY) then
              if fAccurate && (OP_1 <=? lastOpcode) && (lastOpcode <=? OP_16)
              then n + DecodeOP_N lastOpcode
              else n + MAX_PUBKEYS_PER_MULTISIG
            else n in
          GetSigOpCount_loop fuel fAccurate opcode n' (op_rest r)
      end
  end.
Definition GetSigOpCount (fAccurate : bool) (s : CScript) : Z :=
  GetSigOpCount_loop (length s) fAccurate 0xff 0 s.

(** ** Predicates of script.cpp *)

Definition IsPayToPublicKeyHash (s : CScript) : bool :=
  (zlen s =? 25) && (sat s 0 =? OP_DUP) && (sat s 1 =? OP_HASH160) && (sat s 2 =? 0x14) &&
  (sat s 23 =? OP_EQUALVERIFY) && (sat s 24 =? OP_CHECKSIG).

Definition IsPayToScriptHash (s : CScript) : bool :=
  (zlen s =? 23) && (sat s 0 =? OP_HASH160) && (sat s 1 =? 0x14) && (sat s 22 =? OP_EQUAL).

(** enum txnouttype *)
Inductive txnouttype :=
  | TX_NONSTANDARD | TX_PUBKEY | TX_PUBKEYHASH | TX_SCRIPTHASH | TX_MULTISIG | TX_NULL_DATA
  | TX_WITNESS_V0_SCRIPTHASH | TX_WITNESS_V0_KEYHASH
  | TX_NEW_ASSET | TX_REISSUE_ASSET | TX_TRANSFER_ASSET | TX_RESTRICTED_ASSET_DATA.

#[export] Instance txnouttype_eq_dec : EqDecision txnouttype.
Proof. solve_decision. Defined.

Definition RVN_R : Z := 114.
Definition RVN_V : Z := 118.
Definition RVN_N : Z := 110.
Definition RVN_Q : Z := 113.
Definition RVN_T : Z := 116.
Definition RVN_O : Z := 111.

(** [IsAssetScript(nType, fIsOwner, nStartingIndex)]; [fIsOwner] is only
    written on the two TX_NEW_ASSET branches, the callers pass [false]. *)
Definition IsAssetScript (s : CScript) : option (txnouttype * bool * Z) :=
  if negb (31 <? zlen s) then None else
  if negb (sat s 25 =? OP_RVN_ASSET) then None else
  let index : Z :=
    if sat s 27 =? RVN_R then
      if (sat s 28 =? RVN_V) && (sat s 29 =? RVN_N) then 30 else -1
    else
      if (sat s 28 =? RVN_R) && (sat s 29 =? RVN_V) && (sat s 30 =? RVN_N) then 31 else -1 in
  if negb (0 <? index) then None else
  let c := sat s (Z.to_nat index) in
  if c =? RVN_T then Some (TX_TRANSFER_ASSET, false, index + 1)
  else if (c =? RVN_Q) && (39 <? zlen s) then Some (TX_NEW_ASSET, false, index + 1)
  else if c =? RVN_O then Some (TX_NEW_ASSET, true, index + 1)
  else if c =? RVN_R then Some (TX_REISSUE_ASSET, false, index + 1)
  else None.

Definition IsNewAsset (s : CScript) : bool :=
  match IsAssetScript s with
  | Some (ty, fIsOwner, _) => negb fIsOwner && bool_decide (ty = TX_NEW_ASSET)
  | None => false
  end.
Definition IsOwnerAsset (s : CScript) : bool :=
  match IsAssetScript s with
  | Some (ty, fIsOwner, _) => fIsOwner && bool_decide (ty = TX_NEW_ASSET)
  | None => false
  end.
Definition IsReissueAsset (s : CScript) : bool :=
  match IsAssetScript s with
  | Some (ty, _, _) => bool_decide (ty = TX_REISSUE_ASSET)
  | None => false
  end.
Definition IsTransferAsset (s : CScript) : bool :=
  match IsAssetScript s with
  | Some (ty, _, _) => bool_decide (ty = TX_TRANSFER_ASSET)
  | None => false
  end.

Definition IsNullAssetTxDataScript (s : CScript) : bool :=
  (23 <? zlen s) && (sat s 0 =? OP_RVN_ASSET) && (sat s 1 =? 0x14).
Definition IsNullGlobalRestrictionAssetTxDataScript (s : CScript) : bool :=
  (6 <? zlen s) && (sat s 0 =? OP_RVN_ASSET) && (sat s 1 =? OP_RESERVED) && (sat s 2 =? OP_RESERVED).
Definition IsNullAssetVerifierTxDataScript (s : CScript) : bool :=
  (3 <? zlen s) && (sat s 0 =? OP_RVN_ASSET) && (sat s 1 =? OP_RESERVED) &&
  negb (sat s 2 =? OP_RESERVED).
Definition IsNullAsset (s : CScript) : bool :=
  IsNullAssetTxDataScript s || IsNullGlobalRestrictionAssetTxDataScript s ||
  IsNullAssetVerifierTxDataScript s.

Definition IsWitnessProgram (s : CScript) : option (Z * bytes) :=
  if (zlen s <? 4) || (42 <? zlen s) then None
  else if negb (sat s 0 =? OP_0) && ((sat s 0 <? OP_1) || (OP_16 <? sat s 0)) then None
  else if sat s 1 + 2 =? zlen s then Some (DecodeOP_N (sat s 0), drop 2 s)
  else None.

(** ** Public keys *)

(** [CPubKey]: the serialized key, [[]] when invalid. *)
Abbreviation CPubKey := (list Z) (only parsing).
Definition GetLen (chHeader : Z) : Z :=
  if (chHeader =? 2) || (chHeader =? 3) then 33
  else if (chHeader =? 4) || (chHeader =? 6) || (chHeader =? 7) then 65
  else 0.
Definition CPubKey_Set (v : bytes) : CPubKey :=
  let len := match v with [] => 0 | b :: _ => GetLen b end in
  if negb (len =? 0) && (len =? zlen v) then v else [].
Definition CPubKey_IsValid (k : CPubKey) : bool := 0 <? zlen k.
Definition CPubKey_GetID (k : CPubKey) : bytes := ripemd160.Hash160 k.

(** ** Solver *)

Definition template_TX_PUBKEY : CScript := [OP_PUBKEY; OP_CHECKSIG].
Definition template_TX_PUBKEYHASH : CScript :=
  [OP_DUP; OP_HASH160; OP_PUBKEYHASH; OP_EQUALVERIFY; OP_CHECKSIG].
Definition template_TX_MULTISIG : CScript :=
  [OP_SMALLINTEGER; OP_PUBKEYS; OP_SMALLINTEGER; OP_CHECKMULTISIG].

(** The inner [while] of OP_PUBKEYS: collect pubkey-sized pushes. On a failed
    [GetOp] the opcode becomes OP_INVALIDOPCODE with no data. *)
Fixpoint collect_pubkeys (fuel : nat) (opcode1 : Z) (vch1 : bytes) (pc1 : bytes)
    (sols : list bytes) : Z * bytes * bytes * list bytes :=
  match fuel with
  | O => (opcode1, vch1, pc1, sols)
  | S fuel =>
      if (33 <=? zlen vch1) && (zlen vch1 <=? 65) then
        match GetOp2 pc1 with
        | None => (0xff, [], pc1, sols ++ [vch1])
        | Some r => collect_pubkeys fuel (op_code r) (op_data r) (op_rest r) (sols ++ [vch1])
        end
      else (opcode1, vch1, pc1, sols)
  end.

(** The comparison of a script with one template: [None] is [break]. *)
Fixpoint match_template (fuel : nat) (pc1 pc2 : bytes) (sols : list bytes) : option (list bytes) :=
  match fuel with
  | O => None
  | S fuel =>
      match pc1, pc2 with
      | [], [] => Some sols
      | _, _ =>
          match GetOp2 pc1, GetOp2 pc2 with
          | Some r1, Some r2 =>
              let '(opcode1, vch1, pc1', sols) :=
                if op_code r2 =? OP_PUBKEYS
                then collect_pubkeys (length pc1) (op_code r1) (op_data r1) (op_rest r1) sols
                else (op_code r1, op_data r1, op_rest r1, sols) in
              match (if op_code r2 =? OP_PUBKEYS then GetOp2 (op_rest r2) else Some r2) with
              | None => None
              | Some r2 =>
                  let opcode2 := op_code r2 in
                  if opcode2 =? OP_PUBKEY then
                    if (zlen vch1 <? 33) || (65 <? zlen vch1) then None
                    else match_template fuel pc1' (op_rest r2) (sols ++ [vch1])
                  else if opcode2 =? OP_PUBKEYHASH then
                    if negb (zlen vch1 =? 20) then None
                    else match_template fuel pc1' (op_rest r2) (sols ++ [vch1])
                  else if opcode2 =? OP_SMALLINTEGER then
                    if (opcode1 =? OP_0) || ((OP_1 <=? opcode1) && (opcode1 <=? OP_16))
                    then match_template fuel pc1' (op_rest r2) (sols ++ [[DecodeOP_N opcode1]])
                    else None
                  else if negb (opcode1 =? opcode2) || negb (bytes_eqb vch1 (op_data r2)) then None
                  else match_template fuel pc1' (op_rest r2) sols
              end
          | _, _ => None
          end
      end
  end.

(** A template has at most five operations. *)
Definition match_tpl (s tpl : CScript) : option (list bytes) := match_template 6 s tpl [].

(** [Solver(scriptPubKey, typeRet, vSolutionsRet)] *)
Definition Solver (s : CScript) : option (txnouttype * list bytes) :=
  if IsPayToScriptHash s then Some (TX_SCRIPTHASH, [take 20 (drop 2 s)]) else
  match IsAssetScript s with
  | Some (nType, _, _) => Some (nType, [take 20 (drop 3 s)])
  | None =>
  match IsWitnessProgram s with
  | Some (v, prog) =>
      if (v =? 0) && (zlen prog =? 20) then Some (TX_WITNESS_V0_KEYHASH, [prog])
      else if (v =? 0) && (zlen prog =? 32) then Some (TX_WITNESS_V0_SCRIPTHASH, [prog])
      else None
  | None =>
      if (1 <=? zlen s) && (sat s 0 =? OP_RETURN) && IsPushOnly (drop 1 s)
      then Some (TX_NULL_DATA, [])
      else if (1 <=? zlen s) && (sat s 0 =? OP_RVN_ASSET) && IsPushOnly (drop 1 s)
      then Some (TX_RESTRICTED_ASSET_DATA,
                 if (23 <=? zlen s) && negb (sat s 1 =? OP_RESERVED) then [take 20 (drop 2 s)] else [])
      else
        match match_tpl s template_TX_PUBKEY with
        | Some sols => Some (TX_PUBKEY, sols)
        | None =>
        match match_tpl s template_TX_PUBKEYHASH with
        | Some sols => Some (TX_PUBKEYHASH, sols)
        | None =>
        match match_tpl s template_TX_MULTISIG with
        | Some sols =>
            let m := sat (List.hd [] sols) 0 in
            let n := sat (List.last sols []) 0 in
            if (m <? 1) || (n <? 1) || (n <? m) || negb (zlen sols - 2 =? n)
            then None else Some (TX_MULTISIG, sols)
        | None => None
        end end end
  end end.

(** [CTxDestination] *)
Inductive CTxDestination := CNoDestination | CKeyID (id : bytes) | CScriptID (id : bytes).

Definition ExtractDestination (s : CScript) : option CTxDestination :=
  match Solver s with
  | None => None
  | Some (ty, sols) =>
      match ty with
      | TX_PUBKEY =>
          let pubKey := CPubKey_Set (List.hd [] sols) in
          if negb (CPubKey_IsValid pubKey) then None else Some (CKeyID (CPubKey_GetID pubKey))
      | TX_PUBKEYHASH => Some (CKeyID (List.hd [] sols))
      | TX_SCRIPTHASH => Some (CScriptID (List.hd [] sols))
      | TX_NEW_ASSET | TX_REISSUE_ASSET | TX_TRANSFER_ASSET => Some (CKeyID (List.hd [] sols))
      | TX_RESTRICTED_ASSET_DATA =>
          match sols with [] => None | h :: _ => Some (CKeyID h) end
      | _ => None
      end
  end.

Definition GetScriptForDestination (d : CTxDestination) : CScript :=
  match d with
  | CNoDestination => []
  | CKeyID id => OP_DUP :: OP_HASH160 :: push id ++ [OP_EQUALVERIFY; OP_CHECKSIG]
  | CScriptID id => OP_HASH160 :: push id ++ [OP_EQUAL]
  end.

(** ** Lemmas *)

Lemma length_push b : (length b < length (push b))%nat.
Proof.
  unfold push. case_ifs; rewrite length_app; cbn [length]; rewrite ?length_le_bytes; lia.
Qed.

Lemma push_ok b : bytes_ok b -> bytes_ok (push b).
Proof.
  intros Hb. unfold push. apply bytes_ok_app. split; [|done].
  case_ifs; [apply le_bytes_ok|constructor; [done|apply le_bytes_ok]..].
Qed.

Lemma take_data_app opcode b rest :
  take_data opcode (zlen b) (b ++ rest) = Some (OpResult opcode b rest).
Proof.
  unfold take_data. rewrite zlen_app. pose proof (zlen_nonneg rest).
  destruct (Z.ltb_spec (zlen b + zlen rest) (zlen b)); [lia|].
  unfold zlen. by rewrite Nat2Z.id, take_app_length, drop_app_length.
Qed.

Lemma take_data_prefix n opcode b rest :
  zlen b < 2 ^ (8 * Z.of_nat n) ->
  (if zlen (le_bytes n (zlen b) ++ b ++ rest) <? Z.of_nat n then None
   else take_data opcode (le_decode (take n (le_bytes n (zlen b) ++ b ++ rest)))
          (drop n (le_bytes n (zlen b) ++ b ++ rest)))
  = Some (OpResult opcode b rest).
Proof.
  intros Hb. pose proof (zlen_nonneg b). rewrite zlen_app.
  assert (zlen (le_bytes n (zlen b)) = Z.of_nat n) as E
    by (unfold zlen at 1; by rewrite length_le_bytes).
  rewrite E. pose proof (zlen_nonneg (b ++ rest)).
  destruct (Z.ltb_spec (Z.of_nat n + zlen (b ++ rest)) (Z.of_nat n)); [lia|].
  rewrite take_app_length', drop_app_length' by (by rewrite length_le_bytes).
  rewrite le_decode_le_bytes, Z.mod_small by lia. apply take_data_app.
Qed.

(** Reading back a push: the data and what follows it. *)
Lemma GetOp2_push b rest :
  zlen b < 2 ^ 32 ->
  exists opcode, opcode <= OP_PUSHDATA4 /\
    GetOp2 (push b ++ rest) = Some (OpResult opcode b rest).
Proof.
  intros Hb. unfold push. pose proof (zlen_nonneg b).
  destruct (Z.ltb_spec (zlen b) OP_PUSHDATA1) as [H1|H1].
  { unfold OP_PUSHDATA1 in H1. exists (zlen b). split; [unfold OP_PUSHDATA4; lia|].
    cbn [le_bytes app GetOp2]. rewrite land_255, Z.mod_small by lia.
    unfold OP_PUSHDATA4, OP_PUSHDATA1.
    destruct (Z.leb_spec (zlen b) 78); [|lia]. destruct (Z.ltb_spec (zlen b) 76); [|lia].
    apply take_data_app. }
  destruct (Z.leb_spec (zlen b) 0xff); [|destruct (Z.leb_spec (zlen b) 0xffff)].
  - exists OP_PUSHDATA1. split; [done|]. rewrite <-app_assoc.
    apply (take_data_prefix 1 OP_PUSHDATA1). simpl. lia.
  - exists OP_PUSHDATA2. split; [done|]. rewrite <-app_assoc.
    apply (take_data_prefix 2 OP_PUSHDATA2). simpl. lia.
  - exists OP_PUSHDATA4. split; [done|]. rewrite <-app_assoc.
    apply (take_data_prefix 4 OP_PUSHDATA4). simpl. lia.
Qed.

Lemma GetOp2_rest pc r : GetOp2 pc = Some r -> (length (op_rest r) < length pc)%nat.
Proof.
  destruct pc as [|op pc]; simpl; [done|]. unfold take_data. intros H.
  case_ifs_in H; injection H as <-; cbn [op_rest length]; rewrite ?length_drop; lia.
Qed.

(** The loops stop before their fuel runs out. *)
Lemma IsPushOnly_loop_fuel n m pc :
  (length pc <= n)%nat -> (length pc <= m)%nat -> IsPushOnly_loop n pc = IsPushOnly_loop m pc.
Proof.
  revert m pc; induction n as [|n IH]; intros [|m] [|b pc] Hn Hm; simpl length in *;
    try lia; [done..|].
  cbn [IsPushOnly_loop]. destruct (GetOp2 (b :: pc)) as [r|] eqn:E; [|done].
  pose proof (GetOp2_rest _ _ E) as Hr. simpl in Hr.
  destruct (OP_16 <? op_code r); [done|]. apply IH; lia.
Qed.

(** *** Script numbers *)

Lemma num_bytes_spec fuel a :
  0 <= a < 2 ^ (8 * Z.of_nat fuel) ->
  le_decode (num_bytes fuel a) = a /\ bytes_ok (num_bytes fuel a) /\
  (length (num_bytes fuel a) <= fuel)%nat /\
  (a <> 0 -> num_bytes fuel a <> [] /\ List.last (num_bytes fuel a) 0 <> 0).
Proof.
  revert a; induction fuel as [|n IH]; intros a Ha; simpl.
  { replace a with 0 by (simpl in Ha; lia). repeat split; try constructor; done. }
  destruct (Z.eqb_spec a 0) as [->|Ha0]; [repeat split; try constructor; simpl; lia|].
  assert (0 <= Z.shiftr a 8 < 2 ^ (8 * Z.of_nat n)) as Hr.
  { rewrite shiftr_8. replace (8 * Z.of_nat (S n)) with (8 + 8 * Z.of_nat n) in Ha by lia.
    rewrite Z.pow_add_r in Ha by lia. change (2 ^ 8) with 256 in Ha. split.
    - apply Z.div_pos; lia.
    - apply Z.div_lt_upper_bound; lia. }
  destruct (IH _ Hr) as (Hd & Hok & Hlen & Hl). repeat split.
  - change (le_decode (Z.land a 255 :: num_bytes n (Z.shiftr a 8)) = a).
    rewrite le_decode_cons by apply land_255_ok. rewrite Hd, land_255, shiftr_8.
    pose proof (Z.div_mod a 256). lia.
  - constructor; [apply land_255_ok|done].
  - simpl. lia.
  - done.
  - destruct (num_bytes n (Z.shiftr a 8)) as [|c l] eqn:E.
    + cbn [List.last]. simpl in Hd. rewrite land_255.
      rewrite shiftr_8 in Hd. pose proof (Z.div_mod a 256). lia.
    + change (List.last (c :: l) 0 <> 0). apply Hl. intros Hz. rewrite Hz in E.
      destruct n; simpl in E; [done|]. discriminate E.
Qed.

Lemma lor_disjoint_add x n : 0 <= n -> 0 <= x < 2 ^ n -> x + 2 ^ n = Z.lor x (2 ^ n).
Proof.
  intros Hn Hx. rewrite <-Z.lxor_lor, <-Z.add_nocarry_lxor; [done| |];
    apply Z.bits_inj_0; intros i; rewrite Z.land_spec;
    (destruct (Z.ltb_spec i 0); [by rewrite Z.testbit_neg_r|]);
    rewrite Z.pow2_bits_eqb by lia; destruct (Z.eqb_spec n i) as [<-|]; rewrite ?andb_false_r; try done;
    (destruct (Z.eqb_spec x 0) as [->|]; [by rewrite Z.testbit_0_l|]);
    rewrite Z.bits_above_log2 by (try apply Z.log2_lt_pow2; lia); done.
Qed.

Lemma clear_top x n :
  0 <= n -> 0 <= x < 2 ^ n -> Z.land (x + 2 ^ n) (Z.lnot (2 ^ n)) = x.
Proof.
  intros Hn Hx. rewrite lor_disjoint_add by done. apply Z.bits_inj_iff. intros i.
  destruct (Z.ltb_spec i 0); [by rewrite !Z.testbit_neg_r|].
  rewrite Z.land_spec, Z.lnot_spec, Z.lor_spec, Z.pow2_bits_eqb by lia.
  destruct (Z.eqb_spec n i) as [<-|]; [|by rewrite orb_false_r, andb_true_r].
  rewrite andb_false_r. symmetry.
  destruct (Z.eqb_spec x 0) as [->|]; [by rewrite Z.testbit_0_l|].
  apply Z.bits_above_log2; [lia|]. apply Z.log2_lt_pow2; lia.
Qed.

Lemma le_decode_app a b :
  bytes_ok a -> le_decode (a ++ b) = le_decode a + 2 ^ (8 * zlen a) * le_decode b.
Proof.
  induction 1 as [|x l Hx Hl IH]; [unfold zlen; simpl; lia|].
  rewrite <-app_comm_cons, !le_decode_cons, IH, zlen_cons by done.
  replace (8 * (1 + zlen l)) with (8 + 8 * zlen l) by lia.
  pose proof (zlen_nonneg l). rewrite Z.pow_add_r by lia. change (2 ^ 8) with 256. lia.
Qed.

Lemma land_128 b : byte_ok b -> (Z.land b 128 =? 0) = (b <? 128).
Proof.
  intros Hb. assert (forall k, (0 <= k < 256)%nat ->
    (Z.land (Z.of_nat k) 128 =? 0) = (Z.of_nat k <? 128)) as Hall.
  { assert (forallb (fun k => Bool.eqb (Z.land (Z.of_nat k) 128 =? 0) (Z.of_nat k <? 128))
      (seq 0 256) = true) as F by (vm_compute; reflexivity).
    intros k Hk. rewrite forallb_forall in F. apply Bool.eqb_prop, F, in_seq. lia. }
  unfold byte_ok in Hb. specialize (Hall (Z.to_nat b)). rewrite Z2Nat.id in Hall by lia.
  apply Hall. lia.
Qed.

Lemma last_snoc_Z (l : bytes) x : List.last (l ++ [x]) 0 = x.
Proof. apply List.last_last. Qed.

(** A byte string whose top bit is set reads as the negated rest. *)
Lemma set_vch_neg l t x :
  byte_ok t -> 128 <= t -> 0 <= x < 2 ^ (8 * zlen l + 7) ->
  le_decode (l ++ [t]) = x + 2 ^ (8 * zlen l + 7) ->
  set_vch (l ++ [t]) = - x.
Proof.
  intros Ht H128 Hx Hd. unfold set_vch.
  destruct (l ++ [t]) as [|c k] eqn:E; [by destruct l|]. rewrite <-E in *. clear E c k.
  rewrite last_snoc_Z, land_128, zlen_app by done.
  destruct (Z.ltb_spec t 128); [lia|]. cbn [negb]. f_equal. rewrite Hd.
  replace (8 * (zlen l + zlen [t] - 1)) with (8 * zlen l) by (unfold zlen; simpl; lia).
  pose proof (zlen_nonneg l).
  rewrite Z.shiftl_mul_pow2 by lia. change 128 with (2 ^ 7).
  rewrite <-Z.pow_add_r, (Z.add_comm 7) by lia. apply clear_top; lia.
Qed.

Lemma set_vch_pos l t :
  byte_ok t -> t < 128 -> set_vch (l ++ [t]) = le_decode (l ++ [t]).
Proof.
  intros Ht H128. unfold set_vch.
  destruct (l ++ [t]) as [|c k] eqn:E; [by destruct l|]. rewrite <-E. clear E c k.
  rewrite last_snoc_Z, land_128 by done. by destruct (Z.ltb_spec t 128); [|lia].
Qed.

Lemma le_decode_snoc l t :
  bytes_ok l -> byte_ok t -> le_decode (l ++ [t]) = le_decode l + 2 ^ (8 * zlen l) * t.
Proof.
  intros Hl Ht. rewrite le_decode_app by done. f_equal. f_equal. apply Z.lor_0_r.
Qed.

(** The absolute value of a script number as low bytes and a top byte. *)
Lemma num_bytes_split a :
  0 < a < 2 ^ 63 ->
  exists l t, num_bytes 8 a = l ++ [t] /\ bytes_ok l /\ byte_ok t /\ t <> 0 /\
    a = le_decode l + 2 ^ (8 * zlen l) * t /\ (length l <= 7)%nat.
Proof.
  intros Ha.
  destruct (num_bytes_spec 8 a) as (Hd & Hok & Hlen & Hl); [change (8 * Z.of_nat 8) with 64; lia|].
  destruct Hl as [Hne Hl]; [lia|].
  pose proof (app_removelast_last 0 Hne) as E.
  set (l := removelast (num_bytes 8 a)) in *. set (t := List.last (num_bytes 8 a) 0) in *.
  rewrite E in Hok, Hd, Hlen. apply bytes_ok_app in Hok as [Hokl Hokt]. inv Hokt.
  exists l, t. split_and!; auto.
  - by rewrite le_decode_snoc in Hd.
  - rewrite length_app in Hlen. simpl in Hlen. lia.
Qed.

Lemma lor_128 t : 0 <= t < 128 -> Z.lor t 128 = t + 128.
Proof. intros Ht. change 128 with (2 ^ 7). rewrite lor_disjoint_add; lia. Qed.

(** The encoding of a number in terms of its bytes, and its sign handling. *)
Lemma serialize_cases v :
  v <> 0 -> - 2 ^ 63 < v < 2 ^ 63 ->
  exists l t, Z.abs v = le_decode l + 2 ^ (8 * zlen l) * t /\ bytes_ok l /\ byte_ok t /\
    t <> 0 /\ (length l <= 7)%nat /\
    CScriptNum_serialize v =
      if 128 <=? t then (l ++ [t]) ++ [if v <? 0 then 128 else 0]
      else if v <? 0 then l ++ [t + 128] else l ++ [t].
Proof.
  intros Hv0 Hv. destruct (num_bytes_split (Z.abs v)) as (l & t & E & Hl & Ht & Ht0 & Ha & Hlen);
    [lia|]. exists l, t. split_and!; auto.
  unfold CScriptNum_serialize. destruct (Z.eqb_spec v 0); [lia|].
  rewrite E, last_snoc_Z, land_128, removelast_last by done.
  rewrite Z.ltb_antisym, negb_involutive. unfold byte_ok in Ht.
  destruct (Z.leb_spec 128 t); [done|]. by rewrite lor_128 by lia.
Qed.

Lemma set_vch_serialize v : - 2 ^ 63 < v < 2 ^ 63 -> set_vch (CScriptNum_serialize v) = v.
Proof.
  intros Hv. destruct (Z.eq_dec v 0) as [->|Hv0]; [done|].
  destruct (serialize_cases v Hv0 Hv) as (l & t & Ha & Hl & Ht & Ht0 & Hlen & ->).
  assert (bytes_ok (l ++ [t])) as Hlt by (apply bytes_ok_app; split; [|constructor]; auto).
  pose proof (le_decode_bound _ Hl) as Bl. pose proof (le_decode_bound _ Hlt) as Blt.
  pose proof (zlen_nonneg l). rewrite le_decode_snoc, <-Ha in Blt by done.
  assert (0 < 2 ^ (8 * zlen l)) by (apply Z.pow_pos_nonneg; lia).
  unfold byte_ok in Ht. destruct (Z.leb_spec 128 t); destruct (Z.ltb_spec v 0).
  - transitivity (- Z.abs v); [|lia]. apply set_vch_neg; [unfold byte_ok; lia|lia| |].
    + split; [lia|]. eapply Z.lt_le_trans; [apply Blt|]. apply Z.pow_le_mono_r; lia.
    + rewrite le_decode_snoc, le_decode_snoc, <-Ha by (done || unfold byte_ok; lia).
      rewrite Z.pow_add_r by (try apply Z.mul_nonneg_nonneg; auto using zlen_nonneg; lia).
      change (2 ^ 7) with 128. lia.
  - rewrite set_vch_pos, le_decode_snoc, le_decode_snoc, <-Ha by (done || unfold byte_ok; lia). lia.
  - transitivity (- Z.abs v); [|lia]. apply set_vch_neg; [unfold byte_ok; lia|lia| |].
    + rewrite Z.pow_add_r by lia. change (2 ^ 7) with 128. nia.
    + rewrite le_decode_snoc by (done || unfold byte_ok; lia).
      rewrite Z.pow_add_r by lia. change (2 ^ 7) with 128. lia.
  - rewrite set_vch_pos, le_decode_snoc, <-Ha by (done || unfold byte_ok; lia). lia.
Qed.

Lemma length_serialize v : - 2 ^ 63 < v < 2 ^ 63 -> (length (CScriptNum_serialize v) <= 8)%nat.
Proof.
  intros Hv. destruct (Z.eq_dec v 0) as [->|Hv0]; [simpl; lia|].
  destruct (serialize_cases v Hv0 Hv) as (l & t & Ha & Hl & Ht & Ht0 & Hlen & ->).
  pose proof (le_decode_bound _ Hl) as Bl. destruct (Z.leb_spec 128 t) as [H128|].
  - rewrite !length_app. cbn [length].
    assert (length l <> 7)%nat; [|lia]. intros E. unfold zlen in Ha. rewrite E in Ha.
    change (2 ^ (8 * Z.of_nat 7)) with (2 ^ 56) in Ha. lia.
  - destruct (v <? 0); rewrite length_app; simpl; lia.
Qed.

Lemma sat_snoc_prev l t u : sat ((l ++ [t]) ++ [u]) (length ((l ++ [t]) ++ [u]) - 2) = t.
Proof.
  unfold sat. rewrite !length_app. cbn [length].
  replace (length l + 1 + 1 - 2)%nat with (length l) by lia.
  rewrite app_nth1 by (rewrite length_app; simpl; lia).
  by rewrite app_nth2, Nat.sub_diag by lia.
Qed.

Lemma land_127 b : byte_ok b -> Z.land b 127 = b mod 128.
Proof. intros _. change 127 with (Z.ones 7). by rewrite Z.land_ones. Qed.

(** A script number encodes minimally and reads back: for every int64
    whose negation does not overflow, the encoder's output passes the
    minimal-encoding check of the decoder and decodes to the same value. *)
Lemma scriptnum_roundtrip v :
  - 2 ^ 63 < v < 2 ^ 63 -> CScriptNum_of (CScriptNum_serialize v) true 8 = NumOk v.
Proof.
  intros Hv. pose proof (length_serialize v Hv) as Hlen. unfold CScriptNum_of.
  destruct (Z.ltb_spec 8 (zlen (CScriptNum_serialize v))); [unfold zlen in *; lia|].
  rewrite set_vch_serialize by done.
  destruct (Z.eq_dec v 0) as [->|Hv0]; [done|].
  destruct (serialize_cases v Hv0 Hv) as (l & t & Ha & Hl & Ht & Ht0 & _ & ->).
  unfold byte_ok in Ht. destruct (Z.leb_spec 128 t).
  - rewrite sat_snoc_prev, land_128 by done. destruct (Z.ltb_spec t 128); [lia|].
    pose proof (zlen_nonneg l). rewrite !zlen_app, !zlen_one.
    destruct (Z.leb_spec (zlen l + 1 + 1) 1); [lia|]. by rewrite andb_false_r.
  - destruct (v <? 0); rewrite last_snoc_Z, land_127 by (unfold byte_ok; lia).
    + replace (t + 128) with (t + 1 * 128) by lia.
      rewrite Z.mod_add, Z.mod_small by lia. destruct (Z.eqb_spec t 0); [lia|].
      by rewrite andb_false_r.
    + rewrite Z.mod_small by lia. destruct (Z.eqb_spec t 0); [lia|]. by rewrite andb_false_r.
Qed.

(** *** Standard destinations *)

Lemma length_P2PKH id :
  length id = 20%nat -> zlen (GetScriptForDestination (CKeyID id)) = 25.
Proof.
  intros Hl. do 20 (destruct id as [|? id]; [discriminate Hl|]). destruct id; [|discriminate Hl].
  reflexivity.
Qed.

Lemma ExtractDestination_P2PKH id :
  length id = 20%nat ->
  ExtractDestination (GetScriptForDestination (CKeyID id)) = Some (CKeyID id).
Proof.
  intros H. do 20 (destruct id as [|? id]; [discriminate H|]). destruct id; [|discriminate H].
  reflexivity.
Qed.

Lemma ExtractDestination_P2SH id :
  length id = 20%nat ->
  ExtractDestination (GetScriptForDestination (CScriptID id)) = Some (CScriptID id).
Proof.
  intros H. do 20 (destruct id as [|? id]; [discriminate H|]). destruct id; [|discriminate H].
  reflexivity.
Qed.

(** An output script in the shape of an asset transfer whose first byte is
    OP_RETURN: [Solver] recognises the asset marker before it looks at the
    first byte, so the script has a key destination although it is
    unspendable. *)
Definition asset_shaped_op_return (id : bytes) : CScript :=
  OP_RETURN :: 0 :: 0 :: id ++ [0; 0; OP_RVN_ASSET; 6; RVN_R; RVN_V; RVN_N; RVN_T; 0].

Lemma asset_shaped_destination id :
  length id = 20%nat ->
  ExtractDestination (asset_shaped_op_return id) = Some (CKeyID id).
Proof.
  intros H. do 20 (destruct id as [|? id]; [discriminate H|]). destruct id; [|discriminate H].
  reflexivity.
Qed.

#[export] Hint Resolve push_ok : xcoin.
