(* ===== verification/Serialize.v ===== *)
(** Serialization of src/src/serialize.h: fixed-width integers, CompactSize,
    byte strings, vectors and pairs, as encoder/decoder pairs with the law that
    decoding inverts encoding and the law that a decoded value has exactly one
    encoding. A failed read, which throws in the program, is [None]. *)

From S2P Require Import Prelude.

Local Open Scope Z_scope.

(** ** Reading *)
Definition reader (A : Type) : Type := bytes -> option (A * bytes).

Definition rret {A} (a : A) : reader A := fun s => Some (a, s).
Definition rfail {A} : reader A := fun _ => None.
Definition rbind {A B} (m : reader A) (k : A -> reader B) : reader B :=
  fun s => match m s with Some (a, rest) => k a rest | None => None end.

Declare Scope reader_scope.
Delimit Scope reader_scope with reader.
Notation "x <-- m ;; k" := (rbind m (fun x => k))
  (at level 100, m at next level, right associativity) : reader_scope.

(** [s.read(buf, n)] *)
Definition read_bytes (n : nat) : reader bytes :=
  fun s => if (length s <? n)%nat then None else Some (take n s, drop n s).

(** ** Codecs *)
Record codec (A : Type) := mkCodec { enc : A -> bytes; dec : reader A }.
Arguments mkCodec {A} enc dec.
Arguments enc {A} c a.
Arguments dec {A} c.

(** [ser_writedata8/16/32/64] and their readers, unsigned and signed. *)
Definition c_uint (n : nat) : codec Z :=
  mkCodec (le_bytes n) (rbind (read_bytes n) (fun b => rret (le_decode b))).
Definition c_int (n : nat) : codec Z :=
  mkCodec (le_bytes n)
    (rbind (read_bytes n) (fun b => rret (swrap (8 * Z.of_nat n) (le_decode b)))).

Definition MAX_SIZE : Z := 0x02000000.

Definition GetSizeOfCompactSize (nSize : Z) : Z :=
  if nSize <? 253 then 1 else if nSize <=? 0xffff then 3
  else if nSize <=? 0xffffffff then 5 else 9.

Definition WriteCompactSize (nSize : Z) : bytes :=
  if nSize <? 253 then le_bytes 1 nSize
  else if nSize <=? 0xffff then le_bytes 1 253 ++ le_bytes 2 nSize
  else if nSize <=? 0xffffffff then le_bytes 1 254 ++ le_bytes 4 nSize
  else le_bytes 1 255 ++ le_bytes 8 nSize.

Definition ReadCompactSize : reader Z :=
  let finish nSizeRet := if MAX_SIZE <? nSizeRet then rfail else rret nSizeRet in
  rbind (dec (c_uint 1)) (fun chSize =>
    if chSize <? 253 then finish chSize
    else if chSize =? 253 then
      rbind (dec (c_uint 2)) (fun n => if n <? 253 then rfail else finish n)
    else if chSize =? 254 then
      rbind (dec (c_uint 4)) (fun n => if n <? 0x10000 then rfail else finish n)
    else
      rbind (dec (c_uint 8)) (fun n => if n <? 0x100000000 then rfail else finish n)).

Definition c_compact : codec Z := mkCodec WriteCompactSize ReadCompactSize.

(** A blob of fixed size: [base_blob::Serialize]. *)
Definition c_blob (n : nat) : codec bytes := mkCodec (fun b => b) (read_bytes n).

(** Strings, scripts and byte vectors. *)
Definition c_bytes : codec bytes :=
  mkCodec (fun b => WriteCompactSize (zlen b) ++ b)
          (rbind ReadCompactSize (fun n => read_bytes (Z.to_nat n))).

(** Vectors of other element types. *)
Fixpoint read_n {A} (d : reader A) (n : nat) : reader (list A) :=
  match n with
  | O => rret []
  | S n' => rbind d (fun a => rbind (read_n d n') (fun l => rret (a :: l)))
  end.

Definition c_vector {A} (c : codec A) : codec (list A) :=
  mkCodec (fun l => WriteCompactSize (zlen l) ++ concat (map (enc c) l))
          (rbind ReadCompactSize (fun n => read_n (dec c) (Z.to_nat n))).

Definition c_pair {A B} (ca : codec A) (cb : codec B) : codec (A * B) :=
  mkCodec (fun p => enc ca p.1 ++ enc cb p.2)
          (rbind (dec ca) (fun a => rbind (dec cb) (fun b => rret (a, b)))).

(** A class of records serialized field by field. *)
Definition c_map {A B} (f : A -> B) (g : B -> A) (c : codec A) : codec B :=
  mkCodec (fun b => enc c (g b)) (rbind (dec c) (fun a => rret (f a))).

(** ** Laws *)

(** Decoding inverts encoding on the values in [wf]. *)
Class Roundtrips {A} (c : codec A) (wf : A -> Prop) : Prop := {
  dec_enc a rest : wf a -> dec c (enc c a ++ rest) = Some (a, rest);
  enc_bytes a : wf a -> bytes_ok (enc c a);
}.

(** A decoded value is in [wf] and what was read is its encoding. *)
Class Canonical {A} (c : codec A) (wf : A -> Prop) : Prop :=
  dec_canonical s a rest : bytes_ok s -> dec c s = Some (a, rest) -> wf a /\ s = enc c a ++ rest.

Definition wf_uint (n : nat) (z : Z) : Prop := 0 <= z < 2 ^ (8 * Z.of_nat n).
Definition wf_int (n : nat) (z : Z) : Prop := - 2 ^ (8 * Z.of_nat n - 1) <= z < 2 ^ (8 * Z.of_nat n - 1).
Definition wf_compact (z : Z) : Prop := 0 <= z <= MAX_SIZE.
Definition wf_blob (n : nat) (b : bytes) : Prop := bytes_ok b /\ length b = n.
Definition wf_bytes (b : bytes) : Prop := bytes_ok b /\ zlen b <= MAX_SIZE.
Definition wf_vector {A} (wf : A -> Prop) (l : list A) : Prop := Forall wf l /\ zlen l <= MAX_SIZE.
Definition wf_pair {A B} (wa : A -> Prop) (wb : B -> Prop) (p : A * B) : Prop := wa p.1 /\ wb p.2.

#[export] Hint Unfold wf_uint wf_int wf_compact wf_blob wf_bytes wf_vector wf_pair : wf.

Lemma read_bytes_app n b rest : length b = n -> read_bytes n (b ++ rest) = Some (b, rest).
Proof.
  intros Hl. unfold read_bytes. rewrite length_app.
  destruct (Nat.ltb_spec (length b + length rest) n); [lia|].
  by rewrite take_app_length', drop_app_length'.
Qed.

Lemma read_bytes_inv n s b rest :
  read_bytes n s = Some (b, rest) -> s = b ++ rest /\ length b = n.
Proof.
  unfold read_bytes. destruct (Nat.ltb_spec (length s) n); [done|]. intros [= <- <-].
  rewrite take_drop, length_take. split; [done|lia].
Qed.

Lemma rbind_inv {A B} (m : reader A) (k : A -> reader B) s b rest :
  rbind m k s = Some (b, rest) -> exists a r, m s = Some (a, r) /\ k a r = Some (b, rest).
Proof. unfold rbind. destruct (m s) as [[a r]|]; [eauto|done]. Qed.

Lemma rbind_step {A B} (m : reader A) (k : A -> reader B) s a r :
  m s = Some (a, r) -> rbind m k s = k a r.
Proof. unfold rbind. by intros ->. Qed.

Lemma bytes_ok_app_inv a b : bytes_ok (a ++ b) -> bytes_ok a /\ bytes_ok b.
Proof. apply Forall_app. Qed.

#[global] Instance c_uint_roundtrips n : Roundtrips (c_uint n) (wf_uint n).
Proof.
  split; simpl; [|intros; apply le_bytes_ok]. intros z rest Hz.
  erewrite rbind_step by (apply read_bytes_app, length_le_bytes). unfold rret.
  rewrite le_decode_le_bytes, Z.mod_small by done. done.
Qed.

#[global] Instance c_uint_canonical n : Canonical (c_uint n) (wf_uint n).
Proof.
  intros s z rest Hs Hd. simpl in *. apply rbind_inv in Hd as (b & r & Hb & [= <- <-]).
  apply read_bytes_inv in Hb as [-> Hl]. apply bytes_ok_app_inv in Hs as [Hb Hr].
  split; [unfold wf_uint; rewrite <-Hl; by apply le_decode_bound|].
  rewrite <-Hl. by rewrite le_bytes_le_decode.
Qed.

(** Two's complement: a signed value is determined by its bytes. *)
Lemma swrap_mod w z : 1 <= w -> - 2 ^ (w - 1) <= z < 2 ^ (w - 1) -> swrap w (z mod 2 ^ w) = z.
Proof.
  intros Hw Hz. rewrite <-(swrap_small w z) at 2 by done. unfold swrap.
  by rewrite Z.mod_mod by (apply Z.pow_nonzero; lia).
Qed.

Lemma swrap_bound w z : 1 <= w -> - 2 ^ (w - 1) <= swrap w z < 2 ^ (w - 1).
Proof.
  intros Hw. unfold swrap.
  assert (2 ^ w = 2 * 2 ^ (w - 1)) as E by (rewrite <-Z.pow_succ_r by lia; f_equal; lia).
  assert (0 < 2 ^ (w - 1)) by (apply Z.pow_pos_nonneg; lia).
  pose proof (Z.mod_pos_bound z (2 ^ w) ltac:(lia)).
  destruct (Z.ltb_spec (z mod 2 ^ w) (2 ^ (w - 1))); lia.
Qed.

Lemma swrap_congr w z : (swrap w z) mod 2 ^ w = z mod 2 ^ w.
Proof.
  unfold swrap. case_ifs; [apply Zmod_mod|].
  rewrite Zminus_mod, Z_mod_same_full, Z.sub_0_r, !Zmod_mod. done.
Qed.

#[global] Instance c_int_roundtrips n : (0 < n)%nat -> Roundtrips (c_int n) (wf_int n).
Proof.
  intros Hn. split; simpl; [|intros; apply le_bytes_ok]. intros z rest Hz.
  erewrite rbind_step by (apply read_bytes_app, length_le_bytes). unfold rret.
  rewrite le_decode_le_bytes. by rewrite swrap_mod by (done || lia).
Qed.

#[global] Instance c_int_canonical n : (0 < n)%nat -> Canonical (c_int n) (wf_int n).
Proof.
  intros Hn s z rest Hs Hd. simpl in *. apply rbind_inv in Hd as (b & r & Hb & [= <- <-]).
  apply read_bytes_inv in Hb as [-> Hl]. apply bytes_ok_app_inv in Hs as [Hb Hr].
  split; [apply swrap_bound; lia|]. f_equal.
  rewrite <-(le_bytes_mod n (swrap _ _)), swrap_congr, le_bytes_mod, <-Hl.
  by rewrite le_bytes_le_decode.
Qed.

Lemma finish_compact n s z rest :
  (if MAX_SIZE <? n then rfail else rret n) s = Some (z, rest) -> z = n /\ rest = s /\ n <= MAX_SIZE.
Proof. destruct (Z.ltb_spec MAX_SIZE n); [done|]. by intros [= <- <-]. Qed.

#[global] Instance c_compact_roundtrips : Roundtrips c_compact wf_compact.
Proof.
  split; simpl.
  - intros z rest Hz. unfold wf_compact, MAX_SIZE in Hz. unfold WriteCompactSize, ReadCompactSize, MAX_SIZE.
    assert (forall k, wf_uint 1 k -> forall (f : Z -> reader Z) t,
      rbind (dec (c_uint 1)) f (le_bytes 1 k ++ t) = f k t) as H1.
    { intros k Hk f t. by apply rbind_step, (dec_enc (c := c_uint 1)). }
    destruct (Z.ltb_spec z 253); [|destruct (Z.leb_spec z 0xffff)].
    + rewrite H1 by (unfold wf_uint; simpl; lia). destruct (Z.ltb_spec z 253); [|lia].
      by destruct (Z.ltb_spec 0x02000000 z); [lia|].
    + rewrite <-app_assoc, H1 by done. cbv beta. change (253 <? 253) with false. change (253 =? 253) with true. cbv iota.
      erewrite rbind_step by (apply (dec_enc (c := c_uint 2)); unfold wf_uint; simpl; lia).
      destruct (Z.ltb_spec z 253); [lia|]. by destruct (Z.ltb_spec 0x02000000 z); [lia|].
    + destruct (Z.leb_spec z 0xffffffff); [|lia].
      rewrite <-app_assoc, H1 by done. cbv beta. change (254 <? 253) with false. change (254 =? 253) with false.
      change (254 =? 254) with true. cbv iota.
      erewrite rbind_step by (apply (dec_enc (c := c_uint 4)); unfold wf_uint; simpl; lia).
      destruct (Z.ltb_spec z 0x10000); [lia|]. by destruct (Z.ltb_spec 0x02000000 z); [lia|].
  - intros z _. unfold WriteCompactSize. case_ifs; rewrite ?bytes_ok_app; auto using le_bytes_ok.
Qed.

#[global] Instance c_compact_canonical : Canonical c_compact wf_compact.
Proof.
  intros s z rest Hs Hd. simpl in *. unfold ReadCompactSize in Hd.
  apply rbind_inv in Hd as (ch & r & Hch & Hd).
  apply (dec_canonical (c := c_uint 1)) in Hch as [Hw ->]; [|done].
  simpl in Hs. change (Z.land ch 255 :: r) with (le_bytes 1 ch ++ r) in Hs.
  apply bytes_ok_app_inv in Hs as [_ Hr]. unfold wf_uint in Hw. simpl in Hw.
  assert (forall n lo (Hlo : 253 <= lo), (ch = 253 \/ ch = 254 \/ ch = 255) ->
    rbind (dec (c_uint n)) (fun k => if k <? lo then rfail else
      if MAX_SIZE <? k then rfail else rret k) r = Some (z, rest) ->
    wf_uint n z /\ lo <= z <= MAX_SIZE /\ r = le_bytes n z ++ rest) as Hwide.
  { intros n lo Hlo Hc Hb. apply rbind_inv in Hb as (k & r' & Hk & Hb).
    apply (dec_canonical (c := c_uint n)) in Hk as [Hwk ->]; [|done].
    destruct (Z.ltb_spec k lo); [done|]. apply finish_compact in Hb as (-> & -> & Hmax).
    split_and!; [apply Hwk..|lia|lia|done]. }
  unfold wf_compact, WriteCompactSize. destruct (Z.ltb_spec ch 253).
  { apply finish_compact in Hd as (-> & -> & Hmax). destruct (Z.ltb_spec ch 253); [|lia]. split; [lia|done]. }
  destruct (Z.eqb_spec ch 253) as [->|]; [|destruct (Z.eqb_spec ch 254) as [->|]].
  - apply Hwide in Hd as (Hz & Hb & ->); [|lia..]. unfold wf_uint in Hz. simpl in Hz.
    destruct (Z.ltb_spec z 253); [lia|]. destruct (Z.leb_spec z 0xffff); [|lia].
    split; [lia|]. by rewrite <-app_assoc.
  - apply Hwide in Hd as (Hz & Hb & ->); [|lia..]. unfold wf_uint in Hz. simpl in Hz.
    destruct (Z.ltb_spec z 253); [lia|]. destruct (Z.leb_spec z 0xffff); [lia|].
    destruct (Z.leb_spec z 0xffffffff); [|lia]. split; [lia|]. by rewrite <-app_assoc.
  - apply Hwide in Hd as (Hz & Hb & ->); [|lia..]. unfold MAX_SIZE in Hb. lia.
Qed.

#[global] Instance c_blob_roundtrips n : Roundtrips (c_blob n) (wf_blob n).
Proof. split; simpl; intros b; [intros rest|]; intros [Hb Hl]; [by apply read_bytes_app|done]. Qed.

#[global] Instance c_blob_canonical n : Canonical (c_blob n) (wf_blob n).
Proof.
  intros s b rest Hs Hd. apply read_bytes_inv in Hd as [-> Hl].
  apply bytes_ok_app_inv in Hs as [Hb _]. by split.
Qed.

#[global] Instance c_bytes_roundtrips : Roundtrips c_bytes wf_bytes.
Proof.
  split; simpl.
  - intros b rest [Hb Hl]. rewrite <-app_assoc. pose proof (zlen_nonneg b).
    erewrite rbind_step by (by apply (dec_enc (c := c_compact))).
    apply read_bytes_app. unfold zlen. lia.
  - intros b [Hb Hl]. apply Forall_app. split; [|done].
    apply (enc_bytes (c := c_compact)). split; [apply zlen_nonneg|done].
Qed.

#[global] Instance c_bytes_canonical : Canonical c_bytes wf_bytes.
Proof.
  intros s b rest Hs Hd. simpl in *. apply rbind_inv in Hd as (n & r & Hn & Hd).
  apply (dec_canonical (c := c_compact)) in Hn as [Hw ->]; [|done].
  apply read_bytes_inv in Hd as [-> Hl]. apply bytes_ok_app_inv in Hs as [_ Hs].
  apply bytes_ok_app_inv in Hs as [Hb _]. destruct Hw as [H0 Hm].
  assert (zlen b = n) as E by (unfold zlen; lia). rewrite E, <-app_assoc.
  split; [|done]. split; [done|lia].
Qed.

Lemma read_n_app {A} (c : codec A) (wf : A -> Prop) `{!Roundtrips c wf} l : forall rest,
  Forall wf l -> read_n (dec c) (length l) (concat (map (enc c) l) ++ rest) = Some (l, rest).
Proof.
  induction l as [|a l IH]; intros rest Hl; [done|]. inv Hl. simpl. rewrite <-app_assoc.
  erewrite rbind_step by (by apply (dec_enc (c := c))). by erewrite rbind_step by (by apply IH).
Qed.

Lemma read_n_inv {A} (c : codec A) (wf : A -> Prop) `{!Canonical c wf} n : forall s l rest,
  bytes_ok s -> read_n (dec c) n s = Some (l, rest) ->
  Forall wf l /\ length l = n /\ s = concat (map (enc c) l) ++ rest.
Proof.
  induction n as [|n IH]; intros s l rest Hs Hd; simpl in Hd.
  { by injection Hd as <- <-. }
  apply rbind_inv in Hd as (a & r & Ha & Hd). apply rbind_inv in Hd as (l' & r' & Hl & [= <- <-]).
  apply (dec_canonical (c := c)) in Ha as [Hw ->]; [|done].
  apply bytes_ok_app_inv in Hs as [_ Hr]. apply IH in Hl as (Hf & Hn & ->); [|done].
  split_and!; [by constructor|simpl; lia|]. simpl. by rewrite app_assoc.
Qed.

#[global] Instance c_vector_roundtrips {A} (c : codec A) (wf : A -> Prop) :
  Roundtrips c wf -> Roundtrips (c_vector c) (wf_vector wf).
Proof.
  intros Hc. split; simpl.
  - intros l rest [Hf Hl]. rewrite <-app_assoc. pose proof (zlen_nonneg l).
    erewrite rbind_step by (by apply (dec_enc (c := c_compact))).
    unfold zlen. rewrite Nat2Z.id. by apply (read_n_app c wf).
  - intros l [Hf Hl]. apply Forall_app. split.
    { apply (enc_bytes (c := c_compact)). split; [apply zlen_nonneg|done]. }
    clear Hl. induction Hf; simpl; [constructor|]. apply Forall_app. split; [by apply (enc_bytes (c := c))|done].
Qed.

#[global] Instance c_vector_canonical {A} (c : codec A) (wf : A -> Prop) :
  Canonical c wf -> Canonical (c_vector c) (wf_vector wf).
Proof.
  intros Hc s l rest Hs Hd. simpl in *. apply rbind_inv in Hd as (n & r & Hn & Hd).
  apply (dec_canonical (c := c_compact)) in Hn as [Hw ->]; [|done].
  apply bytes_ok_app_inv in Hs as [_ Hs]. destruct Hw as [H0 Hm].
  apply (read_n_inv c wf) in Hd as (Hf & Hl & ->); [|done].
  assert (zlen l = n) as E by (unfold zlen; lia). rewrite E, <-app_assoc. split; [|done]. split; [done|lia].
Qed.

#[global] Instance c_pair_roundtrips {A B} (ca : codec A) (cb : codec B) wa wb :
  Roundtrips ca wa -> Roundtrips cb wb -> Roundtrips (c_pair ca cb) (wf_pair wa wb).
Proof.
  intros Ha Hb. split; simpl.
  - intros [a b] rest [Hwa Hwb]. simpl in *. rewrite <-app_assoc.
    erewrite rbind_step by (by apply (dec_enc (c := ca))).
    by erewrite rbind_step by (by apply (dec_enc (c := cb))).
  - intros [a b] [Hwa Hwb]. apply Forall_app.
    split; [by apply (enc_bytes (c := ca))|by apply (enc_bytes (c := cb))].
Qed.

#[global] Instance c_pair_canonical {A B} (ca : codec A) (cb : codec B) wa wb :
  Canonical ca wa -> Canonical cb wb -> Canonical (c_pair ca cb) (wf_pair wa wb).
Proof.
  intros Ha Hb s [a b] rest Hs Hd. simpl in *. apply rbind_inv in Hd as (a' & r & H1 & Hd).
  apply rbind_inv in Hd as (b' & r' & H2 & [= -> -> ->]).
  apply (dec_canonical (c := ca)) in H1 as [Hwa ->]; [|done].
  apply bytes_ok_app_inv in Hs as [_ Hs]. apply (dec_canonical (c := cb)) in H2 as [Hwb ->]; [|done].
  split; [done|]. by rewrite app_assoc.
Qed.

Lemma c_map_roundtrips {A B} (f : A -> B) (g : B -> A) (c : codec A) (wa : A -> Prop) (wb : B -> Prop) :
  (forall b, wb b -> wa (g b) /\ f (g b) = b) -> Roundtrips c wa -> Roundtrips (c_map f g c) wb.
Proof.
  intros Hw Hc. split; simpl.
  - intros b rest Hb. destruct (Hw b Hb) as [Ha E].
    erewrite rbind_step by (by apply (dec_enc (c := c))). unfold rret. by rewrite E.
  - intros b Hb. apply (enc_bytes (c := c)), Hw, Hb.
Qed.

Lemma c_map_canonical {A B} (f : A -> B) (g : B -> A) (c : codec A) (wa : A -> Prop) (wb : B -> Prop) :
  (forall a, wa a -> wb (f a) /\ g (f a) = a) -> Canonical c wa -> Canonical (c_map f g c) wb.
Proof.
  intros Hw Hc s b rest Hs Hd. simpl in *. apply rbind_inv in Hd as (a & r & Ha & [= <- <-]).
  apply (dec_canonical (c := c)) in Ha as [Ha ->]; [|done]. destruct (Hw a Ha) as [Hb E]. by rewrite E.
Qed.

(** The size announced for a CompactSize is the size written. *)
Lemma zlen_WriteCompactSize n : zlen (WriteCompactSize n) = GetSizeOfCompactSize n.
Proof.
  unfold WriteCompactSize, GetSizeOfCompactSize, zlen.
  case_ifs; rewrite ?length_app, !length_le_bytes; done.
Qed.

(** CompactSize: reading back a written size gives the size and consumes
    exactly its bytes, for every size up to [MAX_SIZE]; a read that succeeds has
    consumed the one canonical encoding of its result, of the length
    [GetSizeOfCompactSize] announces; a size above [MAX_SIZE] never reads. *)
Lemma compact_size_roundtrip (n : Z) (s rest : bytes) :
  (0 <= n <= MAX_SIZE -> ReadCompactSize (WriteCompactSize n ++ rest) = Some (n, rest)) /\
  (bytes_ok s -> ReadCompactSize s = Some (n, rest) ->
     0 <= n <= MAX_SIZE /\ s = WriteCompactSize n ++ rest) /\
  zlen (WriteCompactSize n) = GetSizeOfCompactSize n.
Proof.
  split; [apply (dec_enc (c := c_compact) (wf := wf_compact))|].
  split; [apply (dec_canonical (c := c_compact) (wf := wf_compact))|]. apply zlen_WriteCompactSize.
Qed.
