(* ===== verification/Handle.v ===== *)
(** X handles and the operator invite list of src/src/lottery.cpp:
    [TrimCopy], [NormalizeXHandle], [ParseXAccountSpec] and the in-memory part
    of [Allowlist]. *)

From S2P Require Import Prelude OrdMap.

Local Open Scope Z_scope.

Definition MAX_X_HANDLE : Z := 32.

(** [std::isspace] in the "C" locale. *)
Definition isspace (c : Z) : bool := ((9 <=? c) && (c <=? 13)) || (c =? 32).
Definition isdigit (c : Z) : bool := (48 <=? c) && (c <=? 57).
Definition isalnum (c : Z) : bool := isdigit c || ((65 <=? c) && (c <=? 90)) || ((97 <=? c) && (c <=? 122)).

Fixpoint drop_space (s : bytes) : bytes :=
  match s with
  | c :: t => if isspace c then drop_space t else s
  | [] => []
  end.

Definition TrimCopy (s : bytes) : bytes := rev (drop_space (rev (drop_space s))).

(** [c - 'A' + 'a'] on 'A'..'Z'. *)
Definition to_lower (c : Z) : Z := if (65 <=? c) && (c <=? 90) then c - 65 + 97 else c.
Definition handle_char (c : Z) : bool :=
  ((97 <=? c) && (c <=? 122)) || isdigit c || (c =? 95).

Fixpoint normalize_chars (s : bytes) : option bytes :=
  match s with
  | [] => Some []
  | c :: t =>
      let c := to_lower c in
      if negb (handle_char c) then None
      else match normalize_chars t with Some o => Some (c :: o) | None => None end
  end.

Definition strip_at (s : bytes) : bytes :=
  match s with 64 :: t => t | _ => s end.

Inductive handle_error := HandleEmpty | HandleTooLong | HandleBadChar.

Definition NormalizeXHandle (input : bytes) : result bytes handle_error :=
  let s := TrimCopy (strip_at (TrimCopy input)) in
  match s with
  | [] => Err HandleEmpty
  | _ =>
      if MAX_X_HANDLE <? zlen s then Err HandleTooLong
      else match normalize_chars s with
           | None => Err HandleBadChar
           | Some out => Ok out
           end
  end.

(** struct XAccount *)
Record XAccount := { xhandle : bytes; xuserId : Z }.
Definition XAccount_empty : XAccount := {| xhandle := []; xuserId := 0 |}.

(** [s.find_first_of(":,")], as the parts before and after the separator. *)
Fixpoint split_sep (s : bytes) : bytes * option bytes :=
  match s with
  | [] => ([], None)
  | c :: t =>
      if (c =? 58) || (c =? 44) then ([], Some t)
      else let '(a, b) := split_sep t in (c :: a, b)
  end.

(** The value of a decimal string, most significant digit first. *)
Definition dec_value (s : bytes) : Z := fold_left (fun n c => n * 10 + (c - 48)) s 0.

Inductive spec_error := SpecEmpty | SpecHandle (e : handle_error) | SpecIdNotDigits | SpecIdRange.

Definition ParseXAccountSpec (input : bytes) : result XAccount spec_error :=
  match TrimCopy input with
  | [] => Err SpecEmpty
  | s =>
      let '(handlePart, tail) := split_sep s in
      let idPart := match tail with Some t => TrimCopy t | None => [] end in
      match NormalizeXHandle handlePart with
      | Err e => Err (SpecHandle e)
      | Ok h =>
          match idPart with
          | [] => Ok {| xhandle := h; xuserId := 0 |}
          | _ =>
              if negb (forallb isdigit idPart) then Err SpecIdNotDigits
              else if 2 ^ 64 <=? dec_value idPart then Err SpecIdRange (* std::stoull throws *)
              else Ok {| xhandle := h; xuserId := dec_value idPart |}
          end
      end
  end.

(** ** The operator invite list *)
Record Allowlist := {
  al_handles : omap bytes Z;
  al_byUserId : omap Z bytes;
  al_pins : omap bytes bytes
}.

Definition Allowlist_empty : Allowlist := {| al_handles := []; al_byUserId := []; al_pins := [] |}.

(** [Add] without the file write. *)
Definition Allowlist_Add (al : Allowlist) (handle : bytes) (userId : Z) (pinnedScript : bytes)
    : result Allowlist handle_error :=
  match NormalizeXHandle handle with
  | Err e => Err e
  | Ok norm =>
      Ok {| al_handles := om_insert norm userId (al_handles al);
            al_byUserId :=
              if userId =? 0 then al_byUserId al else om_insert userId norm (al_byUserId al);
            al_pins :=
              match pinnedScript with
              | [] => al_pins al
              | _ => om_insert norm pinnedScript (al_pins al)
              end |}
  end.

Inductive remove_error := RemoveHandle (e : handle_error) | RemoveNotListed.

Definition Allowlist_Remove (al : Allowlist) (handle : bytes) : result Allowlist remove_error :=
  match NormalizeXHandle handle with
  | Err e => Err (RemoveHandle e)
  | Ok norm =>
      match om_find norm (al_handles al) with
      | None => Err RemoveNotListed
      | Some uid =>
          Ok {| al_handles := om_erase norm (al_handles al);
                al_byUserId :=
                  if uid =? 0 then al_byUserId al else om_erase uid (al_byUserId al);
                al_pins := om_erase norm (al_pins al) |}
      end
  end.

Definition Allowlist_Contains (al : Allowlist) (handle : bytes) (userId : Z) : bool :=
  match NormalizeXHandle handle with
  | Err _ => false
  | Ok norm =>
      match om_find norm (al_handles al) with
      | None => false
      | Some uid => negb (negb (uid =? 0) && negb (userId =? 0) && negb (uid =? userId))
      end
  end.

Definition Allowlist_Allows (al : Allowlist) (handle : bytes) (userId : Z) : bool := true.

Definition Allowlist_PinnedScript (al : Allowlist) (handle : bytes) : bytes :=
  match NormalizeXHandle handle with
  | Err _ => []
  | Ok norm => match om_find norm (al_pins al) with Some p => p | None => [] end
  end.

(** struct VerifiedXAccount *)
Record VerifiedXAccount := { va_handle : bytes; va_userId : Z; va_pinnedScript : bytes }.

Definition Allowlist_List (al : Allowlist) : list VerifiedXAccount :=
  (fun kv => {| va_handle := kv.1; va_userId := kv.2;
                va_pinnedScript := default [] (om_find kv.1 (al_pins al)) |}) <$> al_handles al.

Definition Allowlist_Size (al : Allowlist) : Z := zlen (al_handles al).

(** The set of handles the program works with. *)
Definition valid_handle (h : bytes) : Prop :=
  1 <= zlen h <= MAX_X_HANDLE /\ Forall (fun c => handle_char c = true) h.

(** ** Lemmas *)

Lemma handle_char_range c : handle_char c = true -> 48 <= c <= 122 /\ c <> 64.
Proof.
  unfold handle_char, isdigit. rewrite !orb_true_iff, !andb_true_iff, !Z.leb_le, Z.eqb_eq. lia.
Qed.

Lemma handle_char_not_space c : handle_char c = true -> isspace c = false.
Proof.
  intros H%handle_char_range. unfold isspace.
  destruct (Z.leb_spec 9 c), (Z.leb_spec c 13), (Z.eqb_spec c 32); simpl; lia.
Qed.

Lemma handle_char_lower c : handle_char c = true -> to_lower c = c.
Proof.
  unfold handle_char, isdigit, to_lower.
  rewrite !orb_true_iff, !andb_true_iff, !Z.leb_le, Z.eqb_eq. intros H.
  destruct (Z.leb_spec 65 c), (Z.leb_spec c 90); simpl; lia.
Qed.

Lemma normalize_chars_valid s o :
  normalize_chars s = Some o ->
  length o = length s /\ Forall (fun c => handle_char c = true) o.
Proof.
  revert o; induction s as [|c t IH]; simpl; intros o H; [injection H as <-; by split|].
  case_ifs_in H. destruct (normalize_chars t) as [o'|]; [|discriminate H].
  injection H as <-. destruct (IH o' eq_refl) as [Hl Hf]. split; [simpl; lia|].
  constructor; [by apply negb_false_iff|done].
Qed.

Lemma normalize_chars_id h :
  Forall (fun c => handle_char c = true) h -> normalize_chars h = Some h.
Proof.
  induction 1 as [|c t Hc Ht IH]; [done|]. simpl.
  by rewrite handle_char_lower, Hc, IH.
Qed.

Lemma drop_space_id s : Forall (fun c => handle_char c = true) s -> drop_space s = s.
Proof. destruct 1 as [|c t Hc _]; [done|]. simpl. by rewrite handle_char_not_space. Qed.

Lemma TrimCopy_id s : Forall (fun c => handle_char c = true) s -> TrimCopy s = s.
Proof.
  intros H. unfold TrimCopy. rewrite (drop_space_id s) by done.
  rewrite drop_space_id by (by apply Forall_rev). apply rev_involutive.
Qed.

Lemma strip_at_id s : Forall (fun c => handle_char c = true) s -> strip_at s = s.
Proof.
  destruct 1 as [|c t Hc _]; [done|]. apply handle_char_range in Hc. unfold strip_at.
  repeat case_match; done || lia.
Qed.

(** A valid handle is its own normal form, with or without the leading '@'. *)
Lemma Normalize_valid h : valid_handle h -> NormalizeXHandle h = Ok h.
Proof.
  intros [Hl Hf]. unfold NormalizeXHandle.
  rewrite (TrimCopy_id h), strip_at_id, (TrimCopy_id h), normalize_chars_id by done.
  destruct h; [unfold zlen in Hl; simpl in Hl; lia|].
  by destruct (Z.ltb_spec MAX_X_HANDLE (zlen (z :: h))); [lia|].
Qed.

Lemma Normalize_Ok_valid s h : NormalizeXHandle s = Ok h -> valid_handle h.
Proof.
  unfold NormalizeXHandle. destruct (TrimCopy (strip_at (TrimCopy s))) as [|c t]; [done|].
  intros H. case_ifs_in H. bool_prop.
  destruct (normalize_chars (c :: t)) as [o|] eqn:E; [|done]. injection H as <-.
  apply normalize_chars_valid in E as [El Ef]. split; [|done].
  unfold zlen in *. rewrite El. simpl in *. lia.
Qed.

(** Normalising an X handle: an accepted input yields 1 to 32 characters of
    [a-z0-9_]; the result is a fixed point of the normalisation, with and
    without a leading '@'; so every later use of a stored handle sees the same
    key. *)
Lemma normalize_handle_canonical s h :
  NormalizeXHandle s = Ok h ->
  valid_handle h /\ NormalizeXHandle h = Ok h /\ NormalizeXHandle (64 :: h) = Ok h.
Proof.
  intros Hs. pose proof (Normalize_Ok_valid s h Hs) as Hv.
  split; [done|]. split; [by apply Normalize_valid|].
  destruct Hv as [Hl Hf].
  assert (TrimCopy (64 :: h) = 64 :: h) as E.
  { unfold TrimCopy. change (drop_space (64 :: h)) with (64 :: h). simpl rev.
    destruct (rev h) as [|c t] eqn:Er.
    - apply (f_equal (@rev Z)) in Er. rewrite rev_involutive in Er. by subst.
    - assert (handle_char c = true) as Hc.
      { apply Forall_rev in Hf. rewrite Er in Hf. by inv Hf. }
      rewrite <-app_comm_cons. simpl. rewrite (handle_char_not_space c Hc).
      rewrite <-(rev_involutive h), Er. simpl. by rewrite rev_app_distr. }
  transitivity (NormalizeXHandle h); [|by apply Normalize_valid]. unfold NormalizeXHandle.
  rewrite E, (TrimCopy_id h), (strip_at_id h), (TrimCopy_id h) by done.
  cbn [strip_at]. by rewrite (TrimCopy_id h).
Qed.

(** *** Invite list *)

Lemma Allowlist_Contains_Add al al' handle uid pin h q :
  Allowlist_Add al handle uid pin = Ok al' -> NormalizeXHandle h = Ok q ->
  NormalizeXHandle handle = Ok q -> forall u,
  Allowlist_Contains al' h u = negb (negb (uid =? 0) && negb (u =? 0) && negb (uid =? u)).
Proof.
  unfold Allowlist_Add, Allowlist_Contains. intros H Hh Hq u. rewrite Hq in H. injection H as <-.
  rewrite Hh. simpl. by rewrite om_find_insert_eq.
Qed.

Lemma PinnedScript_norm al h : valid_handle h ->
  Allowlist_PinnedScript al h = default [] (om_find h (al_pins al)).
Proof. intros H. unfold Allowlist_PinnedScript. rewrite Normalize_valid by done. by destruct om_find. Qed.
