(* ===== verification/Slots.v ===== *)
(** The lottery clock: heights, minute slots and timestamps of
    src/src/lottery.cpp, the subsidy schedule of src/src/validation.cpp, the
    money range of src/src/amount.h and the median time of src/src/chain.h. *)

From S2P Require Import Prelude.
From stdpp Require Import sorting.

Local Open Scope Z_scope.

(** ** Amounts *)
Definition COIN : Z := 100000000.
Definition MAX_MONEY : Z := 21000000000 * COIN.
Definition MoneyRange (nValue : Z) : bool := (0 <=? nValue) && (nValue <=? MAX_MONEY).

(** ** Slots *)
Definition SLOT_SECONDS : Z := 60.
Definition MAX_FUTURE_SLOTS : Z := 1.

Definition SlotFromTime (unixTime : Z) : Z :=
  if unixTime <? 0 then 0 else Z.quot unixTime SLOT_SECONDS.

Definition SlotFromHeight (nHeight genesisTime : Z) : Z :=
  if nHeight <=? 0 then SlotFromTime genesisTime
  else SlotFromTime genesisTime + nHeight.

Definition SlotStartTime (nHeight genesisTime : Z) : Z :=
  SlotFromHeight nHeight genesisTime * SLOT_SECONDS.

Definition CheckBlockTime (nHeight nTime genesisTime nowLocal : Z) (fMineBlocksOnDemand : bool)
    : verdict :=
  if fMineBlocksOnDemand then Accept else
  if nHeight <=? 0 then Accept else
  let slot := SlotFromHeight nHeight genesisTime in
  let slotStart := slot * SLOT_SECONDS in
  let slotEnd := slotStart + SLOT_SECONDS in
  if (nTime <? slotStart) || (slotEnd <=? nTime) then Reject 100 "bad-lottery-slot-time" else
  let nowSlot := SlotFromTime nowLocal in
  if nowSlot + MAX_FUTURE_SLOTS <? slot then Reject 0 "time-too-new" else
  Accept.

Definition ClampTimeToSlot (nHeight genesisTime now mtp : Z) : Z :=
  let slotStart := SlotStartTime nHeight genesisTime in
  let slotEnd := slotStart + SLOT_SECONDS in
  let t := now in
  let t := if t <? slotStart then slotStart else t in
  let t := if slotEnd <=? t then slotEnd - 1 else t in
  if t <=? mtp then mtp + 1 else t.

(** [GetMedianTimePast] of a chain given by its block times, tip first: sort at
    most eleven of them and take the middle one. *)
Definition nMedianTimeSpan : nat := 11.
Definition GetMedianTimePast (times : list Z) : Z :=
  let w := merge_sort Z.le (take nMedianTimeSpan times) in
  nth (length w / 2) w 0.

Definition MAX_FUTURE_BLOCK_TIME : Z := 2 * 60 * 60.
Definition MAX_FUTURE_BLOCK_TIME_DGW : Z := Z.quot MAX_FUTURE_BLOCK_TIME 10.
Definition IsDGWActive (nBlockNumber nDGWActivationBlock : Z) : bool :=
  nDGWActivationBlock <=? nBlockNumber.

(** The timestamp part of [ContextualCheckBlockHeader], in its order: the slot
    lock, the median time past, the two-hour (or, with DGW, twelve-minute)
    limit on future times. *)
Definition CheckHeaderTime (nHeight nTime genesisTime nAdjustedTime : Z)
    (fMineBlocksOnDemand : bool) (nDGWActivationBlock : Z) (prevTimes : list Z) : verdict :=
  let slotCheck :=
    if negb fMineBlocksOnDemand
    then CheckBlockTime nHeight nTime genesisTime nAdjustedTime false else Accept in
  match slotCheck with
  | Reject d r => Reject d r
  | Accept =>
      if nTime <=? GetMedianTimePast prevTimes then Reject 0 "time-too-old" else
      let limit := if IsDGWActive nHeight nDGWActivationBlock
                   then MAX_FUTURE_BLOCK_TIME_DGW else MAX_FUTURE_BLOCK_TIME in
      if nAdjustedTime + limit <? nTime then Reject 0 "time-too-new" else Accept
  end.

(** ** Subsidy *)
Definition GetBlockSubsidy (nHeight nSubsidyHalvingInterval : Z) : Z :=
  if nHeight <? 1 then 0 else
  if nSubsidyHalvingInterval <=? 0 then 0 else
  let halvings := Z.quot nHeight nSubsidyHalvingInterval in
  if 64 <=? halvings then 0 else
  Z.shiftr (5000 * COIN) halvings.

Definition WinnerCount (nHeight nSubsidyHalvingInterval : Z) : Z :=
  let nHeight := if nHeight <? 0 then 0 else nHeight in
  if nSubsidyHalvingInterval <=? 0 then 1 else
  let halvings := Z.quot nHeight nSubsidyHalvingInterval in
  let halvings := if 1023 <? halvings then 1023 else halvings in
  halvings + 1.

(** Consensus parameters of the three networks, src/src/chainparams.cpp. *)
Definition main_genesis_nTime : Z := 1789197360.
Definition main_nSubsidyHalvingInterval : Z := 2100000.
Definition regtest_nSubsidyHalvingInterval : Z := 150.

(** Subsidy paid out by the heights 1 to [n]. *)
Fixpoint total_subsidy (interval : Z) (n : nat) : Z :=
  match n with
  | O => 0
  | S m => total_subsidy interval m + GetBlockSubsidy (Z.of_nat n) interval
  end.

(** A chain of block times, tip first, whose heights count down to a genesis
    block: every block after it was accepted by the slot lock. *)
Fixpoint slot_chain (genesisTime : Z) (times : list Z) : Prop :=
  match times with
  | [] => False
  | [t] => t = genesisTime
  | t :: rest =>
      SlotStartTime (zlen rest) genesisTime <= t < SlotStartTime (zlen rest) genesisTime + 60 /\
      slot_chain genesisTime rest
  end.

(** ** Lemmas *)

Lemma SlotFromTime_nonneg t : 0 <= t -> SlotFromTime t = t / 60.
Proof.
  intros Ht. unfold SlotFromTime, SLOT_SECONDS. destruct (Z.ltb_spec t 0); [lia|].
  by rewrite Z.quot_div_nonneg by lia.
Qed.

Lemma SlotStartTime_eq h g : 0 <= g -> 0 <= h -> SlotStartTime h g = 60 * (g / 60 + h).
Proof.
  intros Hg Hh. unfold SlotStartTime, SlotFromHeight, SLOT_SECONDS.
  rewrite SlotFromTime_nonneg by done. destruct (Z.leb_spec h 0); [|lia].
  replace h with 0 by lia. lia.
Qed.

(** The window of [CheckBlockTime], in arithmetic. *)
Lemma CheckBlockTime_iff h t g now :
  0 <= g -> 1 <= h -> 0 <= now ->
  CheckBlockTime h t g now false = Accept <->
  60 * (g / 60 + h) <= t < 60 * (g / 60 + h) + 60 /\ g / 60 + h <= now / 60 + 1.
Proof.
  intros Hg Hh Hn. unfold CheckBlockTime, SlotFromHeight, SLOT_SECONDS, MAX_FUTURE_SLOTS.
  rewrite !SlotFromTime_nonneg by done.
  destruct (Z.leb_spec h 0); [lia|].
  destruct (Z.ltb_spec t ((g / 60 + h) * 60)); simpl; [split; [done|lia]|].
  destruct (Z.leb_spec ((g / 60 + h) * 60 + 60) t); simpl; [split; [done|lia]|].
  destruct (Z.ltb_spec (now / 60 + 1) (g / 60 + h)); split; (done || lia).
Qed.

Lemma slot_chain_bounds g times :
  0 <= g -> slot_chain g times ->
  Forall (fun t => t < SlotStartTime (zlen times) g) times.
Proof.
  intros Hg. induction times as [|t rest IH]; [constructor|]. intros Hc.
  rewrite zlen_cons. rewrite SlotStartTime_eq by (auto; pose proof (zlen_nonneg rest); lia).
  pose proof (zlen_nonneg rest). destruct rest as [|t' rest].
  - simpl in Hc. subst. constructor; [|constructor]. unfold zlen. simpl.
    pose proof (Z.div_mod g 60). pose proof (Z.mod_pos_bound g 60). lia.
  - destruct Hc as [Ht Hc]. rewrite SlotStartTime_eq in Ht by lia.
    constructor; [lia|]. eapply Forall_impl; [by apply IH|].
    intros x Hx. simpl in Hx. rewrite SlotStartTime_eq in Hx by lia. lia.
Qed.

Lemma GetMedianTimePast_in times : times <> [] -> GetMedianTimePast times ∈ times.
Proof.
  intros Hne. unfold GetMedianTimePast.
  set (w := merge_sort Z.le (take nMedianTimeSpan times)).
  assert (w ≡ₚ take nMedianTimeSpan times) as Hp by apply merge_sort_Permutation.
  assert (length w <> 0)%nat as Hl.
  { rewrite Hp, length_take. destruct times; [done|]. unfold nMedianTimeSpan. simpl. lia. }
  assert (length w / 2 < length w)%nat as Hlt by (apply Nat.div_lt; lia).
  assert (nth (length w / 2) w 0 ∈ take nMedianTimeSpan times) as Hin.
  { rewrite <-Hp. apply list_elem_of_In, nth_In, Hlt. }
  apply elem_of_take in Hin as (i & Hi & _). by eapply list_elem_of_lookup_2.
Qed.

Lemma slot_chain_mtp g times :
  0 <= g -> slot_chain g times -> GetMedianTimePast times < SlotStartTime (zlen times) g.
Proof.
  intros Hg Hc. pose proof (slot_chain_bounds g times Hg Hc) as Hb.
  rewrite Forall_forall in Hb. apply Hb, GetMedianTimePast_in. by destruct times.
Qed.

Lemma ClampTimeToSlot_window h g now mtp :
  mtp < SlotStartTime h g ->
  SlotStartTime h g <= ClampTimeToSlot h g now mtp < SlotStartTime h g + 60 /\
  mtp < ClampTimeToSlot h g now mtp /\
  (SlotStartTime h g <= now < SlotStartTime h g + 60 -> ClampTimeToSlot h g now mtp = now).
Proof.
  intros Hm. unfold ClampTimeToSlot, SLOT_SECONDS.
  destruct (Z.ltb_spec now (SlotStartTime h g)).
  - destruct (Z.leb_spec (SlotStartTime h g + 60) (SlotStartTime h g)); [lia|].
    destruct (Z.leb_spec (SlotStartTime h g) mtp); lia.
  - destruct (Z.leb_spec (SlotStartTime h g + 60) now).
    + destruct (Z.leb_spec (SlotStartTime h g + 60 - 1) mtp); lia.
    + destruct (Z.leb_spec now mtp); lia.
Qed.

Lemma slot_chain_cons g t times :
  times <> [] ->
  slot_chain g (t :: times) <->
  SlotStartTime (zlen times) g <= t < SlotStartTime (zlen times) g + 60 /\ slot_chain g times.
Proof. by destruct times. Qed.

Lemma slot_chain_sorted g times :
  0 <= g -> slot_chain g times -> StronglySorted Z.gt times.
Proof.
  intros Hg. induction times as [|t rest IH]; [done|]. intros Hc.
  destruct rest as [|t' rest]; [by repeat constructor|].
  apply slot_chain_cons in Hc as [Ht Hc]; [|done].
  constructor; [by apply IH|]. eapply Forall_impl; [by apply slot_chain_bounds|].
  intros x Hx. cbv beta in Hx. lia.
Qed.

(** On a slot-locked chain the two older timestamp rules decide nothing: a
    header passes all of them as soon as it passes the slot lock. *)
Lemma CheckHeaderTime_slot_lock g t now dgw times :
  0 <= g -> 0 <= now -> slot_chain g times -> 1 <= zlen times ->
  CheckHeaderTime (zlen times) t g now false dgw times
  = CheckBlockTime (zlen times) t g now false.
Proof.
  intros Hg Hn Hc Hl. unfold CheckHeaderTime. simpl negb. cbv iota.
  destruct (CheckBlockTime (zlen times) t g now false) eqn:E; [|done].
  apply CheckBlockTime_iff in E as [Ht Hs]; [|lia..].
  pose proof (slot_chain_mtp g times Hg Hc) as Hm. rewrite SlotStartTime_eq in Hm by lia.
  destruct (Z.leb_spec t (GetMedianTimePast times)); [lia|].
  set (limit := if IsDGWActive _ _ then _ else _).
  assert (720 <= limit).
  { subst limit. by destruct (IsDGWActive _ _). }
  pose proof (Z.div_mod now 60). pose proof (Z.mod_pos_bound now 60).
  destruct (Z.ltb_spec (now + limit) t); [lia|done].
Qed.

Lemma zlen_slot_chain g times : slot_chain g times -> 1 <= zlen times.
Proof. destruct times; [done|]. intros _. rewrite zlen_cons. pose proof (zlen_nonneg times). lia. Qed.

(** The slot lock: on main and test a header at height [h >= 1] passes
    [CheckBlockTime] exactly when its time lies in the sixty seconds of slot
    [genesis minute + h] and that slot is at most one ahead of the local clock.
    So a timestamp determines the only height it can appear at, and the chain
    cannot be taller than the minutes since genesis plus one. *)
Lemma slot_lock_iff (h t g now : Z) :
  0 <= g -> 1 <= h -> 0 <= now ->
  CheckBlockTime h t g now false = Accept <->
  SlotFromTime t = SlotFromHeight h g /\ 0 <= t /\
  h <= SlotFromTime now - SlotFromTime g + MAX_FUTURE_SLOTS.
Proof.
  intros Hg Hh Hn. rewrite CheckBlockTime_iff by done.
  unfold SlotFromHeight, MAX_FUTURE_SLOTS. destruct (Z.leb_spec h 0); [lia|].
  rewrite (SlotFromTime_nonneg g), (SlotFromTime_nonneg now) by done.
  pose proof (Z.div_pos g 60 Hg eq_refl). split.
  - intros [Ht Hs]. rewrite SlotFromTime_nonneg by lia. split_and!; [|lia..].
    symmetry. apply (Z.div_unique _ _ _ (t - 60 * (g / 60 + h))); lia.
  - intros (Ht & Ht0 & Hs). rewrite SlotFromTime_nonneg in Ht by done.
    pose proof (Z.div_mod t 60). pose proof (Z.mod_pos_bound t 60). lia.
Qed.

(** Every header that passes the timestamp rules extends a slot-locked
    chain to a slot-locked chain, whose times strictly decrease from the tip;
    and on such a chain the time the producer stamps, its clock clamped by
    [ClampTimeToSlot], passes the whole timestamp check whenever the slot has
    come within one of the clock. *)
Theorem producer_time_accepted (g now dgw : Z) (times : list Z) :
  0 <= g -> 0 <= now -> slot_chain g times ->
  (forall t, CheckHeaderTime (zlen times) t g now false dgw times = Accept ->
     slot_chain g (t :: times) /\ StronglySorted Z.gt (t :: times)) /\
  (SlotFromHeight (zlen times) g <= SlotFromTime now + MAX_FUTURE_SLOTS ->
   CheckHeaderTime (zlen times)
     (ClampTimeToSlot (zlen times) g now (GetMedianTimePast times)) g now false dgw times = Accept).
Proof.
  intros Hg Hn Hc. pose proof (zlen_slot_chain g times Hc) as Hl. split.
  - intros t. rewrite CheckHeaderTime_slot_lock, CheckBlockTime_iff by done. intros [Ht _].
    assert (slot_chain g (t :: times)) as Hc'.
    { apply slot_chain_cons; [by destruct times|]. rewrite SlotStartTime_eq by lia. done. }
    split; [done|]. by apply (slot_chain_sorted g (t :: times)).
  - rewrite CheckHeaderTime_slot_lock, CheckBlockTime_iff by done.
    pose proof (ClampTimeToSlot_window _ _ now _ (slot_chain_mtp g times Hg Hc)) as [Hw _].
    rewrite SlotStartTime_eq in Hw by lia. unfold SlotFromHeight, MAX_FUTURE_SLOTS.
    destruct (Z.leb_spec (zlen times) 0); [lia|]. rewrite !SlotFromTime_nonneg by done. lia.
Qed.

Lemma producer_time_accepted_witness :
  CheckHeaderTime 2 (ClampTimeToSlot 2 1000 1500 (GetMedianTimePast [1039; 1000])) 1000 1500 false 1
    [1039; 1000] = Accept.
Proof.
  refine (proj2 (producer_time_accepted 1000 1500 1 [1039; 1000] _ _ _) _);
    [lia|lia| |by vm_compute].
  vm_compute. split_and!; congruence.
Defined.

(** ** The supply *)

(** Subsidy of halving epoch [k], and what the epochs before [k] pay. *)
Definition epoch_subsidy (k : Z) : Z := if 64 <=? k then 0 else Z.shiftr (5000 * COIN) k.

Fixpoint epochs_total (interval : Z) (k : nat) : Z :=
  match k with
  | O => 0
  | S m => epochs_total interval m + interval * epoch_subsidy (Z.of_nat m)
  end.

Lemma epochs_total_S interval k :
  epochs_total interval (S k) = epochs_total interval k + interval * epoch_subsidy (Z.of_nat k).
Proof. done. Qed.

Lemma epoch_subsidy_nonneg k : 0 <= epoch_subsidy k.
Proof. unfold epoch_subsidy. case_ifs; [done|]. by apply Z.shiftr_nonneg. Qed.

Lemma GetBlockSubsidy_epoch h interval :
  1 <= h -> 0 < interval -> GetBlockSubsidy h interval = epoch_subsidy (h / interval).
Proof.
  intros Hh Hi. unfold GetBlockSubsidy.
  destruct (Z.ltb_spec h 1); [lia|]. destruct (Z.leb_spec interval 0); [lia|].
  by rewrite Z.quot_div_nonneg by lia.
Qed.

(** Height 0 pays nothing, so the first epoch is one block short. *)
Lemma total_subsidy_closed interval n :
  0 < interval ->
  let h := Z.of_nat n / interval in
  total_subsidy interval n
  = epochs_total interval (Z.to_nat h) - epoch_subsidy 0
    + (Z.of_nat n mod interval + 1) * epoch_subsidy h.
Proof.
  intros Hi. cbv zeta. induction n as [|n IH].
  { change (Z.of_nat 0) with 0. rewrite Z.mod_0_l, Z.div_0_l by lia. simpl. lia. }
  cbn [total_subsidy]. rewrite GetBlockSubsidy_epoch, IH by lia.
  set (N := Z.of_nat n). replace (Z.of_nat (S n)) with (N + 1) by lia.
  pose proof (Z.div_mod N interval ltac:(lia)) as Hdm.
  pose proof (Z.mod_pos_bound N interval Hi) as Hm.
  assert (0 <= N / interval) by (apply Z.div_pos; lia).
  destruct (Z.eq_dec (N mod interval) (interval - 1)) as [E|E].
  - rewrite <-(Z.div_unique (N + 1) interval (N / interval + 1) 0) by lia.
    rewrite <-(Z.mod_unique (N + 1) interval (N / interval + 1) 0) by lia.
    rewrite Z2Nat.inj_add by lia. change (Z.to_nat 1) with 1%nat.
    rewrite Nat.add_1_r. cbn [epochs_total]. rewrite Z2Nat.id, E by lia. lia.
  - rewrite <-(Z.div_unique (N + 1) interval (N / interval) (N mod interval + 1)) by lia.
    rewrite <-(Z.mod_unique (N + 1) interval (N / interval) (N mod interval + 1)) by lia. lia.
Qed.

Lemma total_subsidy_mono interval n m :
  0 < interval -> (n <= m)%nat -> total_subsidy interval n <= total_subsidy interval m.
Proof.
  intros Hi. induction 1 as [|m Hm IH]; [lia|]. cbn [total_subsidy].
  rewrite GetBlockSubsidy_epoch by lia.
  pose proof (epoch_subsidy_nonneg (Z.of_nat (S m) / interval)). lia.
Qed.

Lemma epochs_total_stop interval k :
  (39 <= k)%nat -> epochs_total interval k = epochs_total interval 39.
Proof.
  induction 1 as [|k Hk IH]; [done|]. rewrite epochs_total_S, IH.
  assert (epoch_subsidy (Z.of_nat k) = 0) as ->; [|lia].
  unfold epoch_subsidy. destruct (Z.leb_spec 64 (Z.of_nat k)); [done|].
  rewrite Z.shiftr_div_pow2 by lia. apply Z.div_small. split; [done|].
  apply Z.lt_le_trans with (2 ^ 39); [done|]. apply Z.pow_le_mono_r; lia.
Qed.

Lemma total_subsidy_stop interval n :
  0 < interval -> 39 * interval <= Z.of_nat n ->
  total_subsidy interval n = epochs_total interval 39 - epoch_subsidy 0.
Proof.
  intros Hi Hn. rewrite total_subsidy_closed by done.
  assert (39 <= Z.of_nat n / interval) as Hh by (apply Z.div_le_lower_bound; lia).
  rewrite epochs_total_stop by lia.
  pose proof (epochs_total_stop 1 (S (Z.to_nat (Z.of_nat n / interval))) ltac:(lia)) as E1.
  rewrite epochs_total_S, epochs_total_stop, Z2Nat.id in E1 by lia. nia.
Qed.

(** The supply: the subsidies of the heights 1 to [n] on main never add up
    to more than 20,999,994,999.727 XFER, which is below [MAX_MONEY]; the
    schedule reaches that sum after 39 halvings and pays nothing further. *)
Lemma main_supply_cap (n : nat) :
  0 <= total_subsidy main_nSubsidyHalvingInterval n <= 2099999499972700000 /\
  MoneyRange (total_subsidy main_nSubsidyHalvingInterval n) = true /\
  (39 * main_nSubsidyHalvingInterval <= Z.of_nat n ->
   total_subsidy main_nSubsidyHalvingInterval n = 2099999499972700000).
Proof.
  set (I := main_nSubsidyHalvingInterval). assert (0 < I) as Hi by done.
  assert (epochs_total I 39 - epoch_subsidy 0 = 2099999499972700000) as Hcap by by vm_compute.
  assert (0 <= total_subsidy I n <= 2099999499972700000) as Hb.
  { split; [apply (total_subsidy_mono I 0 n); [done|lia]|].
    rewrite <-Hcap, <-(total_subsidy_stop I (n + Z.to_nat (39 * I))) by lia.
    apply total_subsidy_mono; [done|lia]. }
  split_and!; [lia..| |].
  - unfold MoneyRange, MAX_MONEY, COIN. rewrite andb_true_iff, !Z.leb_le. lia.
  - intros Hn. by rewrite total_subsidy_stop.
Qed.
