(* ===== verification/ArithUint.v ===== *)
(** * 256-bit arithmetic

    [base_uint<256>] and [arith_uint256] of src/src/arith_uint256.h and
    arith_uint256.cpp: eight 32-bit limbs, least significant first, with the
    carry loops of the source, and the compact format of difficulty targets.
    [val] is the number the limbs stand for. *)

From S2P Require Import Prelude.

Local Open Scope Z_scope.

(** The limbs [pn]. *)
Abbreviation base_uint := (list Z).
Definition WIDTH : nat := 8.
Definition mask32 : Z := 0xffffffff.

Definition uint_zero : base_uint := repeat 0 WIDTH.

(** [base_uint(uint64_t)]. *)
Definition of_uint64 (b : Z) : base_uint := uwrap 32 b :: uwrap 32 (Z.shiftr b 32) :: repeat 0 (WIDTH - 2).

(** [operator~], [operator++], [operator-] *)
Definition uint_not (a : base_uint) : base_uint := map (fun x => Z.lxor x mask32) a.

Fixpoint uint_incr (a : base_uint) : base_uint :=
  match a with
  | [] => []
  | x :: a => let x := uwrap 32 (x + 1) in if x =? 0 then x :: uint_incr a else x :: a
  end.

Definition uint_neg (a : base_uint) : base_uint := uint_incr (uint_not a).

(** [operator+=]: the loop from a carry on. *)
Fixpoint add_carry (carry : Z) (a b : base_uint) : base_uint :=
  match a, b with
  | x :: a, y :: b =>
      let n := uwrap 64 (carry + x + y) in
      Z.land n mask32 :: add_carry (Z.shiftr n 32) a b
  | _, _ => []
  end.

Definition uint_add (a b : base_uint) : base_uint := add_carry 0 a b.
Definition uint_sub (a b : base_uint) : base_uint := uint_add a (uint_neg b).

(** [operator*=(uint32_t)] *)
Fixpoint mul_carry (carry : Z) (a : base_uint) (b32 : Z) : base_uint :=
  match a with
  | [] => []
  | x :: a =>
      let n := uwrap 64 (carry + b32 * x) in
      Z.land n mask32 :: mul_carry (Z.shiftr n 32) a b32
  end.

Definition uint_mul32 (a : base_uint) (b32 : Z) : base_uint := mul_carry 0 a b32.

(** [operator*=(const base_uint&)]: the inner loop adds [x * b] to the limbs
    from [j] on, the outer one goes on with the limbs after them. *)
Fixpoint mul_row (carry x : Z) (acc b : base_uint) : base_uint :=
  match acc, b with
  | p :: acc, y :: b =>
      let n := uwrap 64 (carry + p + x * y) in
      Z.land n mask32 :: mul_row (Z.shiftr n 32) x acc b
  | _, _ => []
  end.

Fixpoint mul_rows (a acc b : base_uint) : base_uint :=
  match a with
  | [] => acc
  | x :: a =>
      match mul_row 0 x acc b with
      | [] => []
      | lo :: hi => lo :: mul_rows a hi b
      end
  end.

Definition uint_mul (a b : base_uint) : base_uint := mul_rows a uint_zero b.

(** [operator<<=]: limb [i] goes to [i + k] and, for its upper bits, to
    [i + k + 1]. *)
Definition or_at (i : nat) (x : Z) (a : base_uint) : base_uint := alter (fun y => Z.lor y x) i a.

Definition shl_limb (k : nat) (shift : Z) (a : base_uint) (res : base_uint) (i : nat) : base_uint :=
  let x := nth i a 0 in
  let res := if (i + k + 1 <? WIDTH)%nat && negb (shift =? 0)
             then or_at (i + k + 1) (Z.shiftr x (32 - shift)) res else res in
  if (i + k <? WIDTH)%nat then or_at (i + k) (uwrap 32 (Z.shiftl x shift)) res else res.

Definition uint_shl (a : base_uint) (shift : Z) : base_uint :=
  fold_left (shl_limb (Z.to_nat (shift / 32)) (shift mod 32) a) (seq 0 WIDTH) uint_zero.

(** [operator>>=] *)
Definition shr_limb (k : nat) (shift : Z) (a : base_uint) (res : base_uint) (i : nat) : base_uint :=
  let x := nth i a 0 in
  let res := if (k + 1 <=? i)%nat && negb (shift =? 0)
             then or_at (i - k - 1) (uwrap 32 (Z.shiftl x (32 - shift))) res else res in
  if (k <=? i)%nat then or_at (i - k) (Z.shiftr x shift) res else res.

Definition uint_shr (a : base_uint) (shift : Z) : base_uint :=
  fold_left (shr_limb (Z.to_nat (shift / 32)) (shift mod 32) a) (seq 0 WIDTH) uint_zero.

(** [CompareTo], from the most significant limb; [top] lists the limbs that
    way round. *)
Fixpoint compare_top (a b : list Z) : Z :=
  match a, b with
  | x :: a, y :: b => if x <? y then -1 else if y <? x then 1 else compare_top a b
  | _, _ => 0
  end.

Definition CompareTo (a b : base_uint) : Z := compare_top (rev a) (rev b).

(** [bits]: the highest non-zero limb and its highest bit. *)
Fixpoint top_bit (x : Z) (nbits : nat) : nat :=
  match nbits with
  | O => 0
  | S m => if negb (Z.land x (Z.shiftl 1 (Z.of_nat nbits)) =? 0) then nbits else top_bit x m
  end.

Fixpoint bits_from (pos : nat) (a : base_uint) : nat :=
  match pos with
  | O => 0
  | S pos =>
      if negb (nth pos a 0 =? 0) then 32 * pos + top_bit (nth pos a 0) 31 + 1 else bits_from pos a
  end.

Definition bits (a : base_uint) : nat := bits_from WIDTH a.

(** [operator/=]: the shift-and-subtract loop; [None] is the exception on a zero
    divisor. *)
Definition div_step (shift : nat) (num div quot : base_uint) : base_uint * base_uint :=
  if 0 <=? CompareTo num div
  then (uint_sub num div, or_at (shift / 32) (Z.shiftl 1 (Z.land (Z.of_nat shift) 31)) quot)
  else (num, quot).

Fixpoint div_loop (shift : nat) (num div quot : base_uint) : base_uint :=
  let '(num, quot) := div_step shift num div quot in
  match shift with
  | O => quot
  | S shift => div_loop shift num (uint_shr div 1) quot
  end.

Definition uint_div (a b : base_uint) : option base_uint :=
  let num_bits := bits a in
  let div_bits := bits b in
  if (div_bits =? 0)%nat then None else
  if (num_bits <? div_bits)%nat then Some uint_zero else
  let shift := (num_bits - div_bits)%nat in
  Some (div_loop shift a (uint_shl b (Z.of_nat shift)) uint_zero).

Definition GetLow64 (a : base_uint) : Z := Z.lor (nth 0 a 0) (Z.shiftl (nth 1 a 0) 32).

(** [SetCompact]: the number, and the flags for a negative and for an
    overflowing one. *)
Definition SetCompact (nCompact : Z) : base_uint * bool * bool :=
  let nSize := Z.shiftr nCompact 24 in
  let nWord := Z.land nCompact 0x007fffff in
  let '(res, nWord) :=
    if nSize <=? 3 then
      let nWord := Z.shiftr nWord (8 * (3 - nSize)) in (of_uint64 nWord, nWord)
    else (uint_shl (of_uint64 nWord) (8 * (nSize - 3)), nWord) in
  (res,
   negb (nWord =? 0) && negb (Z.land nCompact 0x00800000 =? 0),
   negb (nWord =? 0) && ((34 <? nSize) || (0xff <? nWord) && (33 <? nSize) ||
                         (0xffff <? nWord) && (32 <? nSize))).

Definition GetCompact (a : base_uint) (fNegative : bool) : Z :=
  let nSize := (Z.of_nat (bits a) + 7) / 8 in
  let nCompact :=
    if nSize <=? 3 then uwrap 32 (Z.shiftl (GetLow64 a) (8 * (3 - nSize)))
    else uwrap 32 (GetLow64 (uint_shr a (8 * (nSize - 3)))) in
  let '(nCompact, nSize) :=
    if negb (Z.land nCompact 0x00800000 =? 0) then (Z.shiftr nCompact 8, nSize + 1)
    else (nCompact, nSize) in
  let nCompact := Z.lor nCompact (uwrap 32 (Z.shiftl nSize 24)) in
  Z.lor nCompact (if fNegative && negb (Z.land nCompact 0x007fffff =? 0) then 0x00800000 else 0).

(** [ArithToUint256] and [UintToArith256] *)
Definition ArithToUint256 (a : base_uint) : bytes := concat (map (le_bytes 4) a).
Fixpoint read_limbs (n : nat) (b : bytes) : base_uint :=
  match n with O => [] | S n => le_decode (take 4 b) :: read_limbs n (drop 4 b) end.
Definition UintToArith256 (b : bytes) : base_uint := read_limbs WIDTH b.

(** ** The number *)
Fixpoint val (a : base_uint) : Z := match a with [] => 0 | x :: a => x + 2 ^ 32 * val a end.

Definition limb_ok (x : Z) : Prop := 0 <= x < 2 ^ 32.
Definition uint_ok (a : base_uint) : Prop := length a = WIDTH /\ Forall limb_ok a.

(** [2 ^ (32 * n)], what [n] limbs wrap at. *)
Definition BW (n : nat) : Z := 2 ^ (32 * Z.of_nat n).

Lemma BW_S n : BW (S n) = 2 ^ 32 * BW n.
Proof. unfold BW. rewrite <-Z.pow_add_r by lia. f_equal. lia. Qed.

Lemma BW_pos n : 0 < BW n.
Proof. unfold BW. apply Z.pow_pos_nonneg; lia. Qed.

Lemma BW_0 : BW 0 = 1.
Proof. done. Qed.

(** A limb and the carried rest. *)
Lemma mod_limb x t M :
  0 < M -> x mod 2 ^ 32 + 2 ^ 32 * ((x / 2 ^ 32 + t) mod M) = (x + 2 ^ 32 * t) mod (2 ^ 32 * M).
Proof.
  intros HM. rewrite Z.rem_mul_r by lia.
  by rewrite (Z.mul_comm (2 ^ 32) t), Z.mod_add, Z.div_add by lia.
Qed.

Lemma mod_limb_small x t M :
  0 <= x < 2 ^ 32 -> 0 < M -> x + 2 ^ 32 * (t mod M) = (x + 2 ^ 32 * t) mod (2 ^ 32 * M).
Proof. intros Hx HM. by rewrite <-mod_limb, (Z.mod_small x), (Z.div_small x). Qed.

Lemma land_mask x : Z.land x mask32 = x mod 2 ^ 32.
Proof. change mask32 with (Z.ones 32). by rewrite Z.land_ones. Qed.

Lemma shiftr_32 x : Z.shiftr x 32 = x / 2 ^ 32.
Proof. by rewrite Z.shiftr_div_pow2. Qed.

Lemma mod_limb_ok x : limb_ok (x mod 2 ^ 32).
Proof. apply Z.mod_pos_bound. lia. Qed.

Lemma val_bound a : Forall limb_ok a -> 0 <= val a < BW (length a).
Proof.
  induction 1 as [|x a Hx _ IH]; [by cbn|]. cbn [val length]. rewrite BW_S. unfold limb_ok in Hx. nia.
Qed.

Lemma val_app a b : val (a ++ b) = val a + BW (length a) * val b.
Proof.
  induction a as [|x a IH]; cbn [val app length]; [rewrite BW_0; lia|]. rewrite BW_S, IH. lia.
Qed.

Lemma val_inj a b : length a = length b -> Forall limb_ok a -> Forall limb_ok b -> val a = val b -> a = b.
Proof.
  intros Hl Ha. revert b Hl. induction Ha as [|x a Hx _ IH]; intros [|y b]; try done.
  intros [= Hl] Hb E. inversion_clear Hb as [|?? Hy Hb']. cbn [val] in E. unfold limb_ok in *.
  assert (x = y) as -> by lia. f_equal. apply IH; [done..|]. lia.
Qed.

Create HintDb uint.
#[local] Hint Resolve mod_limb_ok BW_pos : uint.

Lemma add_carry_spec c a b :
  0 <= c <= 1 -> length a = length b -> Forall limb_ok a -> Forall limb_ok b ->
  length (add_carry c a b) = length a /\ Forall limb_ok (add_carry c a b) /\
  val (add_carry c a b) = (c + val a + val b) mod BW (length a).
Proof.
  intros Hc Hl Ha. revert c b Hc Hl. induction Ha as [|x a Hx Ha IH]; intros c [|y b] Hc; try done.
  { intros _ _. cbn. by rewrite Z.mod_1_r. }
  intros [= Hl] Hb. inversion_clear Hb as [|?? Hy Hb']. cbn [add_carry]. unfold limb_ok in *.
  rewrite uwrap_small, land_mask, shiftr_32 by lia.
  destruct (IH ((c + x + y) / 2 ^ 32) b) as (L & O & V); [|done..|].
  { split; [apply Z.div_pos; lia|]. apply Z.lt_succ_r, Z.div_lt_upper_bound; lia. }
  cbn [length val]. rewrite BW_S, L. split; [done|]. split; [constructor; [apply mod_limb_ok|exact O]|].
  rewrite V, <-(Z.add_assoc (_ / _)), mod_limb by auto with uint. f_equal. lia.
Qed.

Lemma mul_carry_spec c a b32 :
  limb_ok c -> limb_ok b32 -> Forall limb_ok a ->
  length (mul_carry c a b32) = length a /\ Forall limb_ok (mul_carry c a b32) /\
  val (mul_carry c a b32) = (c + b32 * val a) mod BW (length a).
Proof.
  intros Hc Hb Ha. revert c Hc. induction Ha as [|x a Hx Ha IH]; intros c Hc.
  { cbn. by rewrite Z.mod_1_r. }
  cbn [mul_carry]. unfold limb_ok in *. rewrite uwrap_small, land_mask, shiftr_32 by nia.
  destruct (IH ((c + b32 * x) / 2 ^ 32)) as (L & O & V).
  { split; [apply Z.div_pos; nia|]. apply Z.div_lt_upper_bound; nia. }
  cbn [length val]. rewrite BW_S, L. split; [done|]. split; [constructor; [apply mod_limb_ok|exact O]|].
  rewrite V, mod_limb by auto with uint. f_equal. lia.
Qed.

Lemma mul_row_spec c x acc b :
  limb_ok c -> limb_ok x -> (length acc <= length b)%nat -> Forall limb_ok acc -> Forall limb_ok b ->
  length (mul_row c x acc b) = length acc /\ Forall limb_ok (mul_row c x acc b) /\
  val (mul_row c x acc b) = (c + val acc + x * val b) mod BW (length acc).
Proof.
  intros Hc Hx Hl Ha. revert c b Hc Hl. induction Ha as [|p acc Hp Ha IH]; intros c b Hc Hl Hb.
  { cbn. by rewrite Z.mod_1_r. }
  destruct Hb as [|y b Hy Hb]; [cbn in Hl; lia|]. cbn [mul_row]. unfold limb_ok in *.
  rewrite uwrap_small, land_mask, shiftr_32 by nia.
  destruct (IH ((c + p + x * y) / 2 ^ 32) b) as (L & O & V); [|cbn in Hl; lia|done|].
  { split; [apply Z.div_pos; nia|]. apply Z.div_lt_upper_bound; nia. }
  cbn [length val]. rewrite BW_S, L. split; [done|]. split; [constructor; [apply mod_limb_ok|exact O]|].
  rewrite V, <-(Z.add_assoc (_ / _)), mod_limb by auto with uint. f_equal. lia.
Qed.

Lemma mul_rows_spec a acc b :
  length a = length acc -> (length acc <= length b)%nat ->
  Forall limb_ok a -> Forall limb_ok acc -> Forall limb_ok b ->
  length (mul_rows a acc b) = length acc /\ Forall limb_ok (mul_rows a acc b) /\
  val (mul_rows a acc b) = (val acc + val a * val b) mod BW (length acc).
Proof.
  intros Hl Hlb Ha. revert acc Hl Hlb. induction Ha as [|x a Hx Ha IH]; intros acc Hl Hlb Hacc Hb.
  { destruct acc; [|done]. cbn. by rewrite Z.mod_1_r. }
  destruct (mul_row_spec 0 x acc b) as (L & O & V); [done..|]. cbn [mul_rows].
  destruct (mul_row 0 x acc b) as [|lo hi]; [cbn in *; lia|]. inversion_clear O as [|?? Hlo Hhi].
  destruct acc as [|p acc]; [done|]. cbn [length] in *.
  destruct (IH hi) as (L' & O' & V'); [lia|lia|done..|].
  split; [lia|]. split; [by constructor|]. cbn [val]. rewrite V'. replace (length hi) with (length acc) by lia.
  rewrite mod_limb_small, <-BW_S by auto with uint. cbn [val] in V.
  replace (lo + 2 ^ 32 * (val hi + val a * val b)) with (lo + 2 ^ 32 * val hi + 2 ^ 32 * (val a * val b)) by lia.
  rewrite V, Zplus_mod_idemp_l. f_equal. lia.
Qed.

Lemma uint_incr_spec a :
  Forall limb_ok a ->
  length (uint_incr a) = length a /\ Forall limb_ok (uint_incr a) /\
  val (uint_incr a) = (val a + 1) mod BW (length a).
Proof.
  induction 1 as [|x a Hx Ha (L & O & V)]; [cbn; by rewrite Z.mod_1_r|]. cbn [uint_incr]. unfold limb_ok in Hx.
  pose proof (val_bound a Ha) as Hb. pose proof (BW_S (length a)) as HS. change (length (x :: a)) with (S (length a)).
  destruct (Z.eqb_spec (uwrap 32 (x + 1)) 0) as [E|E]; cbn [length val]; (split; [by rewrite ?L|]).
  - assert (x = 2 ^ 32 - 1) as -> by (unfold uwrap in E; destruct (decide (x + 1 < 2 ^ 32)); [rewrite Z.mod_small in E|]; lia).
    split; [by rewrite E; constructor|]. rewrite E, V, HS.
    rewrite mod_limb_small by (auto with uint; lia). f_equal. lia.
  - assert (x + 1 < 2 ^ 32) as Hx1.
    { destruct (decide (x + 1 < 2 ^ 32)); [done|]. exfalso. apply E. replace x with (2 ^ 32 - 1) by lia. done. }
    rewrite uwrap_small by lia. split; [constructor; [unfold limb_ok; lia|done]|].
    rewrite Z.mod_small; [lia|]. rewrite HS. nia.
Qed.

Lemma lxor_mask x : limb_ok x -> Z.lxor x mask32 = 2 ^ 32 - 1 - x.
Proof.
  intros Hx. change mask32 with (Z.ones 32). rewrite Z.lxor_comm.
  assert (forall i, 32 <= i -> Z.testbit x i = false) as Hi.
  { intros i Hi. apply Z.bits_above_log2; [apply Hx|]. destruct (decide (x = 0)) as [->|]; [cbn; lia|].
    apply Z.log2_lt_pow2; [unfold limb_ok in Hx; lia|]. unfold limb_ok in Hx.
    apply Z.lt_le_trans with (2 ^ 32); [lia|]. apply Z.pow_le_mono_r; lia. }
  assert (Z.lxor (Z.ones 32) x = Z.ldiff (Z.ones 32) x) as ->.
  { apply Z.bits_inj'. intros i Hi0. rewrite Z.lxor_spec, Z.ldiff_spec.
    destruct (decide (i < 32)); [by rewrite Z.ones_spec_low by lia; destruct (Z.testbit x i)|].
    rewrite Z.ones_spec_high, Hi by lia. done. }
  rewrite <-Z.sub_nocarry_ldiff; [by rewrite Z.ones_equiv|].
  apply Z.bits_inj'. intros i Hi0. rewrite Z.ldiff_spec, Z.bits_0.
  destruct (decide (i < 32)); [rewrite Z.ones_spec_low by lia; apply andb_false_r|]. by rewrite Hi by lia.
Qed.

Lemma uint_not_spec a :
  Forall limb_ok a ->
  length (uint_not a) = length a /\ Forall limb_ok (uint_not a) /\ val (uint_not a) = BW (length a) - 1 - val a.
Proof.
  unfold uint_not. induction 1 as [|x a Hx Ha (L & O & V)]; [done|]. cbn [map length val].
  rewrite L, V, BW_S, lxor_mask by done. split; [done|]. unfold limb_ok in Hx. split; [|lia].
  constructor; [unfold limb_ok; lia|done].
Qed.

Lemma uint_neg_spec a :
  Forall limb_ok a ->
  length (uint_neg a) = length a /\ Forall limb_ok (uint_neg a) /\ val (uint_neg a) = (- val a) mod BW (length a).
Proof.
  intros Ha. destruct (uint_not_spec a Ha) as (L & O & V). destruct (uint_incr_spec _ O) as (L' & O' & V').
  unfold uint_neg. rewrite L', V', L, V. split_and!; [done..|].
  rewrite <-(Z.mod_add (- val a) 1 (BW (length a))) by (pose proof (BW_pos (length a)); lia). f_equal. lia.
Qed.

(** ** Specifications of the operators on well-formed numbers *)
Lemma uint_add_spec a b :
  uint_ok a -> uint_ok b -> uint_ok (uint_add a b) /\ val (uint_add a b) = (val a + val b) mod 2 ^ 256.
Proof.
  intros [La Ha] [Lb Hb]. destruct (add_carry_spec 0 a b) as (L & O & V); [lia|congruence|done..|].
  unfold uint_add, uint_ok. rewrite V, L, La. done.
Qed.

Lemma uint_sub_spec a b :
  uint_ok a -> uint_ok b -> uint_ok (uint_sub a b) /\ val (uint_sub a b) = (val a - val b) mod 2 ^ 256.
Proof.
  intros Ha [Lb Hb]. destruct (uint_neg_spec b Hb) as (L & O & V).
  destruct (uint_add_spec a (uint_neg b) Ha) as [Hok E]; [split; congruence|]. split; [done|].
  unfold uint_sub. rewrite E, V, Lb. change (BW WIDTH) with (2 ^ 256). by rewrite Zplus_mod_idemp_r.
Qed.

Lemma uint_mul32_spec a b :
  uint_ok a -> limb_ok b -> uint_ok (uint_mul32 a b) /\ val (uint_mul32 a b) = (val a * b) mod 2 ^ 256.
Proof.
  intros [La Ha] Hb. destruct (mul_carry_spec 0 a b) as (L & O & V); [done..|].
  unfold uint_mul32, uint_ok. rewrite V, L, La. split; [done|]. by rewrite Z.add_0_l, Z.mul_comm.
Qed.

Lemma uint_mul_spec a b :
  uint_ok a -> uint_ok b -> uint_ok (uint_mul a b) /\ val (uint_mul a b) = (val a * val b) mod 2 ^ 256.
Proof.
  intros [La Ha] [Lb Hb].
  destruct (mul_rows_spec a uint_zero b) as (L & O & V); [done|by rewrite Lb|done|by repeat constructor|done|].
  unfold uint_mul, uint_ok. by rewrite V, L.
Qed.

Lemma CompareTo_spec a b :
  length a = length b -> Forall limb_ok a -> Forall limb_ok b ->
  CompareTo a b = match val a ?= val b with Lt => -1 | Eq => 0 | Gt => 1 end.
Proof.
  unfold CompareTo. revert b. induction a as [|x a IH] using rev_ind; intros b Hl Ha Hb; [by destruct b|].
  destruct b as [|y b _] using rev_ind; [rewrite length_app in Hl; cbn in Hl; lia|].
  rewrite !length_app, !Nat.add_1_r in Hl. injection Hl as Hl.
  apply Forall_app in Ha as [Ha Hx], Hb as [Hb Hy]. apply Forall_singleton in Hx, Hy.
  rewrite !rev_unit, !val_app, Hl. cbn [val compare_top]. rewrite IH by done.
  pose proof (val_bound a Ha) as Ba. pose proof (val_bound b Hb) as Bb. rewrite Hl in Ba. unfold limb_ok in *.
  set (W := BW (length b)) in *.
  destruct (Z.ltb_spec x y); [rewrite (proj2 (Z.compare_lt_iff _ _)); [done|nia]|].
  destruct (Z.ltb_spec y x); [rewrite (proj2 (Z.compare_gt_iff _ _)); [done|nia]|].
  replace x with y by lia. by rewrite !(Z.add_comm (val _)), Z.add_compare_mono_l.
Qed.

(** One limb of a number. *)
Lemma val_split a i : (i < length a)%nat -> val a = val (take i a) + BW i * (nth i a 0 + 2 ^ 32 * val (drop (S i) a)).
Proof.
  intros Hi. rewrite <-(take_drop i a) at 1. rewrite val_app, length_take_le by lia.
  destruct (lookup_lt_is_Some_2 a i Hi) as [x Hx]. by rewrite (drop_S _ _ _ Hx), nth_lookup, Hx.
Qed.

Lemma val_alter f i a : (i < length a)%nat -> val (alter f i a) = val a + BW i * (f (nth i a 0) - nth i a 0).
Proof.
  intros Hi. rewrite (val_split (alter f i a) i) by by rewrite length_alter. rewrite (val_split a i Hi).
  rewrite take_alter, drop_alter by lia. rewrite !nth_lookup, list_lookup_alter_eq.
  rewrite !decide_False by lia. destruct (lookup_lt_is_Some_2 a i Hi) as [x ->]. cbn. lia.
Qed.

Lemma nth_limb_ok a i : Forall limb_ok a -> limb_ok (nth i a 0).
Proof.
  intros Ha. rewrite nth_lookup. destruct (a !! i) as [x|] eqn:Hx; [by eapply Forall_lookup_1 in Hx|done].
Qed.

Lemma nth_limb a i : (i < length a)%nat -> Forall limb_ok a -> nth i a 0 = (val a / BW i) mod 2 ^ 32.
Proof.
  intros Hi Ha. pose proof (nth_limb_ok a i Ha) as Hn. rewrite (val_split a i Hi). pose proof (BW_pos i).
  pose proof (val_bound (take i a) (Forall_take _ _ _ Ha)) as Hb. rewrite length_take_le in Hb by lia.
  rewrite (Z.mul_comm (BW i)), Z.div_add, Z.div_small, Z.add_0_l, (Z.mul_comm (2 ^ 32)), Z.mod_add by lia.
  by rewrite Z.mod_small.
Qed.

(** ** [bits] *)
Lemma land_pow2 x n : 0 <= n -> (Z.land x (Z.shiftl 1 n) =? 0) = negb (Z.testbit x n).
Proof.
  intros Hn. destruct (Z.testbit x n) eqn:E; cbn [negb].
  - apply Z.eqb_neq. intros H. apply (f_equal (fun z => Z.testbit z n)) in H.
    by rewrite Z.land_spec, E, Z.shiftl_1_l, Z.pow2_bits_true, Z.bits_0 in H by lia.
  - apply Z.eqb_eq, Z.bits_inj'. intros m Hm. rewrite Z.land_spec, Z.shiftl_1_l, Z.pow2_bits_eqb, Z.bits_0 by lia.
    destruct (Z.eqb_spec n m) as [<-|]; [by rewrite E|apply andb_false_r].
Qed.

Lemma testbit_top x n : 0 <= n -> 0 <= x < 2 ^ (n + 1) -> Z.testbit x n = (2 ^ n <=? x).
Proof.
  intros Hn Hx. rewrite Z.pow_add_r in Hx by lia. pose proof (Z.pow_pos_nonneg 2 n). 
  rewrite Z.testbit_odd, Z.shiftr_div_pow2 by lia. destruct (Z.leb_spec (2 ^ n) x).
  - replace (x / 2 ^ n) with 1; [done|]. apply (Z.div_unique _ _ _ (x - 2 ^ n)); lia.
  - by rewrite Z.div_small by lia.
Qed.

Lemma top_bit_spec x n :
  0 < x < 2 ^ (Z.of_nat n + 1) -> 2 ^ Z.of_nat (top_bit x n) <= x < 2 ^ (Z.of_nat (top_bit x n) + 1).
Proof.
  induction n as [|n IH]; intros Hx; cbn [top_bit]; [cbn in *; lia|].
  rewrite land_pow2, negb_involutive, testbit_top by lia. destruct (Z.leb_spec (2 ^ Z.of_nat (S n)) x); [lia|].
  apply IH. replace (Z.of_nat n + 1) with (Z.of_nat (S n)) by lia. lia.
Qed.

Lemma top_bit_le x n : (top_bit x n <= n)%nat.
Proof. induction n as [|n IH]; cbn [top_bit]; [lia|]. destruct (negb _); lia. Qed.

Lemma bits_from_spec n a :
  (n <= length a)%nat -> Forall limb_ok a ->
  (val (take n a) = 0 /\ bits_from n a = 0%nat) \/
  (0 < bits_from n a <= 32 * n)%nat /\
  2 ^ (Z.of_nat (bits_from n a) - 1) <= val (take n a) < 2 ^ Z.of_nat (bits_from n a).
Proof.
  intros Hn Ha. induction n as [|n IH]; [by left|]. cbn [bits_from].
  destruct (lookup_lt_is_Some_2 a n) as [x Hx]; [lia|].
  rewrite (take_S_r _ _ _ Hx), val_app, length_take_le by lia. cbn [val].
  replace (nth n a 0) with x by by rewrite nth_lookup, Hx.
  assert (limb_ok x) as Hok by by eapply Forall_lookup_1 in Hx. unfold limb_ok in Hok.
  destruct (Z.eqb_spec x 0) as [->|Hne]; cbn [negb].
  { rewrite Z.mul_0_r, Z.add_0_r.
    destruct IH as [?|[? ?]]; [lia|by left|right; split; [lia|done]]. }
  right. destruct (top_bit_spec x 31) as [Hl Hu]; [cbn; lia|]. set (t := top_bit x 31) in *.
  pose proof (val_bound (take n a) (Forall_take _ _ _ Ha)) as Hb. rewrite length_take_le in Hb by lia.
  assert (t <= 31)%nat as Ht by apply top_bit_le.
  replace (Z.of_nat (32 * n + t + 1) - 1) with (32 * Z.of_nat n + Z.of_nat t) by lia.
  replace (Z.of_nat (32 * n + t + 1)) with (32 * Z.of_nat n + (Z.of_nat t + 1)) by lia.
  split; [lia|]. rewrite !(Z.pow_add_r 2 (32 * Z.of_nat n)) by lia. fold (BW n). nia.
Qed.

Lemma bits_spec a :
  uint_ok a ->
  (val a = 0 /\ bits a = 0%nat) \/
  (0 < bits a <= 256)%nat /\ 2 ^ (Z.of_nat (bits a) - 1) <= val a < 2 ^ Z.of_nat (bits a).
Proof.
  intros [L Ha]. destruct (bits_from_spec WIDTH a) as [[E ?]|[? E]]; [by rewrite L|done|left|right].
  all: rewrite take_ge in E by (rewrite L; done); done.
Qed.

Lemma bits_eq a k : uint_ok a -> 0 <= k -> 2 ^ k <= val a < 2 ^ (k + 1) -> Z.of_nat (bits a) = k + 1.
Proof.
  intros Ha Hk Hv. pose proof (Z.pow_pos_nonneg 2 k). destruct (bits_spec a Ha) as [[? _]|[Hb Hr]]; [lia|].
  assert (k < Z.of_nat (bits a)) by (apply (Z.pow_lt_mono_r_iff 2); lia).
  assert (Z.of_nat (bits a) - 1 < k + 1) by (apply (Z.pow_lt_mono_r_iff 2); lia). lia.
Qed.

(** ** Shifts *)
Ltac eval_BW :=
  repeat match goal with |- context [BW ?n] => let v := eval vm_compute in (BW n) in change (BW n) with v end.

Lemma lor_low h m k : 0 <= k -> 0 <= h < 2 ^ k -> Z.lor h (2 ^ k * m) = h + 2 ^ k * m.
Proof.
  intros Hk Hh. assert (Z.land h (2 ^ k * m) = 0) as E.
  { apply Z.bits_inj'. intros i Hi. rewrite Z.land_spec, Z.bits_0, (Z.mul_comm (2 ^ k)), <-Z.shiftl_mul_pow2, Z.shiftl_spec by lia.
    destruct (decide (i < k)); [rewrite (Z.testbit_neg_r m) by lia; apply andb_false_r|].
    replace h with (h mod 2 ^ k) by (apply Z.mod_small; lia). by rewrite Z.mod_pow2_bits_high by lia. }
  rewrite <-Z.lxor_lor, <-Z.add_nocarry_lxor by done. done.
Qed.

(** The two parts of a limb shifted left by [s]. *)
Definition lo_part (s x : Z) : Z := uwrap 32 (Z.shiftl x s).
Definition hi_part (s x : Z) : Z := if s =? 0 then 0 else Z.shiftr x (32 - s).

Lemma shl_parts s x :
  0 <= s < 32 -> limb_ok x ->
  x * 2 ^ s = lo_part s x + 2 ^ 32 * hi_part s x /\ 0 <= hi_part s x < 2 ^ s /\ limb_ok (lo_part s x) /\
  exists m, lo_part s x = 2 ^ s * m.
Proof.
  intros Hs Hx. unfold lo_part, hi_part, uwrap, limb_ok in *. rewrite Z.shiftl_mul_pow2 by lia.
  assert (2 ^ 32 = 2 ^ s * 2 ^ (32 - s)) as E by (rewrite <-Z.pow_add_r by lia; f_equal; lia).
  pose proof (Z.pow_pos_nonneg 2 s). pose proof (Z.pow_pos_nonneg 2 (32 - s)).
  assert (x * 2 ^ s / 2 ^ 32 = if s =? 0 then 0 else Z.shiftr x (32 - s)) as Eh.
  { destruct (Z.eqb_spec s 0) as [->|]; [apply Z.div_small; lia|].
    by rewrite Z.shiftr_div_pow2, E, Z.mul_comm, Z.div_mul_cancel_l by lia. }
  rewrite <-Eh. pose proof (Z.div_mod (x * 2 ^ s) (2 ^ 32)). pose proof (Z.mod_pos_bound (x * 2 ^ s) (2 ^ 32)).
  split_and!; try lia.
  - apply Z.div_lt_upper_bound; nia.
  - exists (x mod 2 ^ (32 - s)). rewrite E, (Z.mul_comm x), Z.mul_mod_distr_l by lia. done.
Qed.

Lemma lor_parts s x y :
  0 <= s < 32 -> limb_ok x -> limb_ok y ->
  Z.lor (hi_part s x) (lo_part s y) = hi_part s x + lo_part s y /\ limb_ok (hi_part s x + lo_part s y).
Proof.
  intros Hs Hx Hy. destruct (shl_parts s x Hs Hx) as (_ & Hh & _). destruct (shl_parts s y Hs Hy) as (_ & _ & Hl & m & E).
  rewrite E in *. split; [by apply lor_low; lia|]. unfold limb_ok in *.
  assert (2 ^ 32 = 2 ^ s * 2 ^ (32 - s)) as E' by (rewrite <-Z.pow_add_r by lia; f_equal; lia).
  assert (m < 2 ^ (32 - s)) by (apply (Z.mul_lt_mono_pos_l (2 ^ s)); lia). nia.
Qed.

(** What the loop of [operator<<=] computes: limbs moved up by [k] and glued. *)
Definition shl_ref (k : nat) (s : Z) (a : base_uint) : base_uint :=
  map (fun j => if (j <? k)%nat then 0
                else Z.lor (if (j =? k)%nat then 0 else hi_part s (nth (j - k - 1) a 0)) (lo_part s (nth (j - k) a 0)))
    (seq 0 WIDTH).

Lemma shl_ref_eq k s a : length a = WIDTH -> fold_left (shl_limb k s a) (seq 0 WIDTH) uint_zero = shl_ref k s a.
Proof.
  intros Ha. destruct a as [|a0 [|a1 [|a2 [|a3 [|a4 [|a5 [|a6 [|a7 [|]]]]]]]]]; try done.
  unfold shl_ref, shl_limb, hi_part, lo_part, or_at.
  by destruct (s =? 0); do 8 (destruct k as [|k]; [reflexivity|]).
Qed.

Lemma shl_ref_spec k s a :
  uint_ok a -> 0 <= s < 32 -> (k < WIDTH)%nat ->
  uint_ok (shl_ref k s a) /\
  val a * 2 ^ s * BW k
  = val (shl_ref k s a) + 2 ^ 256 * (val (drop (WIDTH - k) a) * 2 ^ s + hi_part s (nth (7 - k) a 0)).
Proof.
  intros [La Ha] Hs Hk.
  assert (forall j, limb_ok (nth j a 0)) as Hn by (intros j; by apply nth_limb_ok).
  assert (forall j, limb_ok (lo_part s (nth j a 0))) as Hlo by (intros j; by apply shl_parts).
  assert (forall i j, limb_ok (Z.lor (hi_part s (nth i a 0)) (lo_part s (nth j a 0)))) as Hor.
  { intros i j. destruct (lor_parts s _ _ Hs (Hn i) (Hn j)) as [-> ?]. done. }
  split.
  - split; [done|]. unfold shl_ref. apply Forall_map, Forall_forall. intros j _.
    destruct (j <? k)%nat; [done|]. destruct (j =? k)%nat; [apply Hlo|apply Hor].
  - assert (forall j, nth j a 0 * 2 ^ s = lo_part s (nth j a 0) + 2 ^ 32 * hi_part s (nth j a 0)) as Hp.
    { intros j. by apply shl_parts. }
    assert (forall i j, Z.lor (hi_part s (nth i a 0)) (lo_part s (nth j a 0))
                        = hi_part s (nth i a 0) + lo_part s (nth j a 0)) as Hl.
    { intros i j. by apply lor_parts. }
    clear Hlo Hor Hn.
    destruct a as [|a0 [|a1 [|a2 [|a3 [|a4 [|a5 [|a6 [|a7 [|]]]]]]]]]; try done. clear La Ha.
    pose proof (Hp 0%nat). pose proof (Hp 1%nat). pose proof (Hp 2%nat). pose proof (Hp 3%nat).
    pose proof (Hp 4%nat). pose proof (Hp 5%nat). pose proof (Hp 6%nat). pose proof (Hp 7%nat).
    clear Hp. unfold shl_ref.
    do 8 (destruct k as [|k]; [cbn [map seq WIDTH Nat.ltb Nat.leb Nat.eqb Nat.sub]; rewrite ?Hl, ?Z.lor_0_l; clear Hl;
      eval_BW; cbn [nth drop val] in *; lia|]).
    unfold WIDTH in Hk. lia.
Qed.

Lemma uint_shl_spec a s :
  uint_ok a -> 0 <= s -> uint_ok (uint_shl a s) /\ val (uint_shl a s) = (val a * 2 ^ s) mod 2 ^ 256.
Proof.
  intros Ha Hs. unfold uint_shl. rewrite shl_ref_eq by apply Ha.
  pose proof (Z.mod_pos_bound s 32). pose proof (Z.div_mod s 32). set (k := Z.to_nat (s / 32)).
  assert (0 <= s / 32) by (apply Z.div_pos; lia).
  assert (2 ^ s = 2 ^ (s mod 32) * BW k) as E.
  { unfold BW. rewrite <-Z.pow_add_r by lia. f_equal. lia. }
  destruct (decide (k < WIDTH)%nat) as [Hk|Hk].
  - destruct (shl_ref_spec k (s mod 32) a Ha) as [Hok V]; [lia|done|]. split; [done|].
    rewrite E, Z.mul_assoc, V, Z.mul_comm, Z.mod_add by lia. symmetry. apply Z.mod_small.
    pose proof (val_bound _ (proj2 Hok)) as Hb. rewrite (proj1 Hok) in Hb. exact Hb.
  - assert (shl_ref k (s mod 32) a = uint_zero) as ->.
    { unfold shl_ref, uint_zero. replace (repeat 0 WIDTH) with (map (fun _ : nat => 0) (seq 0 WIDTH)) by done.
      apply map_ext_in. intros j Hj. apply in_seq in Hj. by destruct (Nat.ltb_spec j k); [|lia]. }
    split; [split; [done|by repeat constructor]|].
    replace (2 ^ s) with (2 ^ (s - 256) * 2 ^ 256).
    + by rewrite Z.mul_assoc, Z.mod_mul.
    + rewrite <-Z.pow_add_r by (unfold WIDTH in Hk; lia). f_equal. lia.
Qed.

(** The loop of [operator>>=]: the low bits of a limb move to the one below. *)
Definition up_part (s x : Z) : Z := if negb (s =? 0) then uwrap 32 (Z.shiftl x (32 - s)) else 0.

Definition shr_ref (k : nat) (s : Z) (a : base_uint) : base_uint :=
  map (fun j => if (j + k <? WIDTH)%nat
                then Z.lor (Z.shiftr (nth (j + k) a 0) s)
                       (if (j + k + 1 <? WIDTH)%nat then up_part s (nth (j + k + 1) a 0) else 0)
                else 0)
    (seq 0 WIDTH).

Lemma shr_ref_eq k s a : length a = WIDTH -> fold_left (shr_limb k s a) (seq 0 WIDTH) uint_zero = shr_ref k s a.
Proof.
  intros Ha. destruct a as [|a0 [|a1 [|a2 [|a3 [|a4 [|a5 [|a6 [|a7 [|]]]]]]]]]; try done.
  unfold shr_ref, shr_limb, up_part, or_at.
  destruct (s =? 0); do 8 (destruct k as [|k]; [cbn; rewrite ?Z.lor_0_r; reflexivity|]); reflexivity.
Qed.

Lemma shr_parts s x y :
  0 <= s < 32 -> limb_ok x -> limb_ok y ->
  x = 2 ^ s * Z.shiftr x s + x mod 2 ^ s /\ 2 ^ s * up_part s x = 2 ^ 32 * (x mod 2 ^ s) /\
  Z.lor (Z.shiftr x s) (up_part s y) = Z.shiftr x s + up_part s y /\
  limb_ok (Z.shiftr x s) /\ limb_ok (Z.shiftr x s + up_part s y).
Proof.
  intros Hs Hx Hy. rewrite Z.shiftr_div_pow2 by lia. unfold up_part, uwrap, limb_ok in *.
  assert (2 ^ 32 = 2 ^ s * 2 ^ (32 - s)) as E by (rewrite <-Z.pow_add_r by lia; f_equal; lia).
  pose proof (Z.pow_pos_nonneg 2 s). pose proof (Z.pow_pos_nonneg 2 (32 - s)).
  assert (0 <= x / 2 ^ s < 2 ^ (32 - s)) as Hq.
  { split; [apply Z.div_pos; lia|]. apply Z.div_lt_upper_bound; lia. }
  assert (forall z, (if negb (s =? 0) then Z.shiftl z (32 - s) mod 2 ^ 32 else 0) = 2 ^ (32 - s) * (z mod 2 ^ s)) as El.
  { intros z. destruct (Z.eqb_spec s 0) as [->|]; cbn [negb]; [by rewrite Z.mod_1_r, Z.mul_0_r|].
    rewrite Z.shiftl_mul_pow2, E, (Z.mul_comm z), (Z.mul_comm (2 ^ s)), Z.mul_mod_distr_l by lia. done. }
  rewrite !El, lor_low by lia. pose proof (Z.mod_pos_bound y (2 ^ s)). pose proof (Z.div_mod x (2 ^ s)).
  split_and!; try lia; nia.
Qed.

Lemma shr_ref_spec k s a :
  uint_ok a -> 0 <= s < 32 -> (k < WIDTH)%nat ->
  uint_ok (shr_ref k s a) /\
  val a = 2 ^ s * BW k * val (shr_ref k s a) + (val (take k a) + BW k * (nth k a 0 mod 2 ^ s)).
Proof.
  intros [La Ha] Hs Hk.
  assert (forall j, limb_ok (nth j a 0)) as Hn by (intros j; by apply nth_limb_ok).
  split.
  - split; [done|]. unfold shr_ref. apply Forall_map, Forall_forall. intros j _. cbv zeta.
    destruct (j + k <? WIDTH)%nat; [|done].
    destruct (shr_parts s _ _ Hs (Hn (j + k)%nat) (Hn (j + k + 1)%nat)) as (_ & _ & El & Hok & Hok').
    destruct (j + k + 1 <? WIDTH)%nat; [by rewrite El|by rewrite Z.lor_0_r].
  - assert (forall i j, Z.lor (Z.shiftr (nth i a 0) s) (up_part s (nth j a 0))
                        = Z.shiftr (nth i a 0) s + up_part s (nth j a 0)) as Hl.
    { intros i j. by apply shr_parts. }
    assert (forall j, nth j a 0 = 2 ^ s * Z.shiftr (nth j a 0) s + nth j a 0 mod 2 ^ s /\
                      2 ^ s * up_part s (nth j a 0) = 2 ^ 32 * (nth j a 0 mod 2 ^ s)) as Hp.
    { intros j. destruct (shr_parts s _ _ Hs (Hn j) (Hn j)) as (? & ? & _). done. }
    clear Hn. destruct a as [|a0 [|a1 [|a2 [|a3 [|a4 [|a5 [|a6 [|a7 [|]]]]]]]]]; try done. clear La Ha.
    pose proof (Hp 0%nat). pose proof (Hp 1%nat). pose proof (Hp 2%nat). pose proof (Hp 3%nat).
    pose proof (Hp 4%nat). pose proof (Hp 5%nat). pose proof (Hp 6%nat). pose proof (Hp 7%nat).
    clear Hp. unfold shr_ref.
    do 8 (destruct k as [|k]; [cbn [map seq WIDTH Nat.ltb Nat.leb Nat.add]; rewrite ?Hl, ?Z.lor_0_r; clear Hl;
      eval_BW; cbn [nth take val] in *; lia|]).
    unfold WIDTH in Hk. lia.
Qed.

Lemma uint_shr_spec a s :
  uint_ok a -> 0 <= s < 256 -> uint_ok (uint_shr a s) /\ val (uint_shr a s) = val a / 2 ^ s.
Proof.
  intros Ha Hs. unfold uint_shr. rewrite shr_ref_eq by apply Ha.
  pose proof (Z.mod_pos_bound s 32). pose proof (Z.div_mod s 32). set (k := Z.to_nat (s / 32)).
  assert (0 <= s / 32) by (apply Z.div_pos; lia).
  assert (2 ^ s = 2 ^ (s mod 32) * BW k) as E.
  { unfold BW. rewrite <-Z.pow_add_r by lia. f_equal. lia. }
  destruct (shr_ref_spec k (s mod 32) a Ha) as [Hok V]; [lia|unfold WIDTH; lia|]. split; [done|].
  destruct Ha as [La Ha]. pose proof (val_bound _ (Forall_take _ k _ Ha)) as Hb.
  rewrite length_take_le in Hb by (rewrite La; unfold WIDTH; lia).
  pose proof (Z.mod_pos_bound (nth k a 0) (2 ^ (s mod 32)) ltac:(apply Z.pow_pos_nonneg; lia)).
  eapply Z.div_unique; [left|by rewrite V at 1; rewrite E]. rewrite E. nia.
Qed.

(** ** Division *)

(** Setting a bit below all bits set so far. *)
Lemma set_bit_spec quot (shift : nat) q :
  uint_ok quot -> (shift < 256)%nat -> val quot = 2 ^ Z.of_nat (S shift) * q ->
  let quot' := or_at (shift / 32) (Z.shiftl 1 (Z.land (Z.of_nat shift) 31)) quot in
  uint_ok quot' /\ val quot' = val quot + 2 ^ Z.of_nat shift.
Proof.
  intros [L Hq] Hs V. cbv zeta. change 31 with (Z.ones 5). rewrite Z.land_ones, Z.shiftl_1_l by lia. change (2 ^ 5) with 32.
  set (i := (shift / 32)%nat). set (r := Z.of_nat shift mod 32).
  assert (i < WIDTH)%nat as Hi by (apply Nat.Div0.div_lt_upper_bound; unfold WIDTH; lia).
  assert (Z.of_nat shift = 32 * Z.of_nat i + r) as Er.
  { unfold i, r. rewrite Nat2Z.inj_div. apply Z.div_mod. lia. }
  pose proof (Z.mod_pos_bound (Z.of_nat shift) 32 ltac:(lia)) as Hr. fold r in Hr.
  assert (exists m, nth i quot 0 = 2 ^ (r + 1) * m /\ 0 <= m < 2 ^ (31 - r)) as (m & Em & Hm).
  { rewrite nth_limb by (congruence || done). rewrite V. replace (Z.of_nat (S shift)) with (32 * Z.of_nat i + (r + 1)) by lia.
    rewrite Z.pow_add_r by lia. fold (BW i). rewrite <-Z.mul_assoc, (Z.mul_comm (BW i)), Z.div_mul by (pose proof (BW_pos i); lia).
    exists (q mod 2 ^ (31 - r)). replace (2 ^ 32) with (2 ^ (r + 1) * 2 ^ (31 - r)) by (rewrite <-Z.pow_add_r by lia; f_equal; lia).
    rewrite Z.mul_mod_distr_l by (apply Z.pow_nonzero; lia). split; [done|]. apply Z.mod_pos_bound, Z.pow_pos_nonneg; lia. }
  assert (2 ^ 32 = 2 ^ (r + 1) * 2 ^ (31 - r)) as E32 by (rewrite <-Z.pow_add_r by lia; f_equal; lia).
  assert (2 ^ (r + 1) = 2 * 2 ^ r) as E1 by (rewrite Z.pow_add_r by lia; lia). pose proof (Z.pow_pos_nonneg 2 r ltac:(lia) ltac:(lia)).
  assert (Z.lor (nth i quot 0) (2 ^ r) = nth i quot 0 + 2 ^ r) as El by (rewrite Em, Z.lor_comm, lor_low; lia).
  unfold or_at. split.
  - split; [by rewrite length_alter|]. apply Forall_alter; [done|]. intros x Hx _.
    assert (x = nth i quot 0) as -> by by rewrite nth_lookup, Hx. rewrite El, Em. unfold limb_ok. nia.
  - rewrite val_alter, El by congruence. rewrite Er, Z.pow_add_r by lia. unfold BW. lia.
Qed.

Lemma uint_bound a : uint_ok a -> 0 <= val a < 2 ^ 256.
Proof. intros [L Ha]. pose proof (val_bound a Ha) as Hb. by rewrite L in Hb. Qed.

Lemma div_step_spec b shift num div quot q :
  (shift < 256)%nat -> 0 < b -> uint_ok num -> uint_ok div -> uint_ok quot ->
  val div = b * 2 ^ Z.of_nat shift -> val num < b * 2 ^ Z.of_nat (S shift) ->
  val quot = 2 ^ Z.of_nat (S shift) * q ->
  let '(num', quot') := div_step shift num div quot in
  uint_ok num' /\ uint_ok quot' /\ val num' < b * 2 ^ Z.of_nat shift /\
  (exists q', val quot' = 2 ^ Z.of_nat shift * q') /\ val quot' * b + val num' = val quot * b + val num.
Proof.
  intros Hs Hb Hn Hd Hq Ed En Eq. pose proof (uint_bound _ Hn) as Bn. pose proof (uint_bound _ Hd) as Bd.
  unfold div_step. rewrite CompareTo_spec by (apply Hn || apply Hd || (rewrite (proj1 Hn); symmetry; apply Hd)).
  assert (2 ^ Z.of_nat (S shift) = 2 * 2 ^ Z.of_nat shift) as E2 by (rewrite Nat2Z.inj_succ, Z.pow_succ_r; lia).
  destruct (Z.compare_spec (val num) (val div)) as [E|E|E]; cbn [Z.leb Z.compare].
  2: { split_and!; try done; [lia|]. exists (2 * q). lia. }
  all: destruct (set_bit_spec quot _ q Hq Hs Eq) as [Hset ->]; destruct (uint_sub_spec num div Hn Hd) as [Hsub ->].
  all: rewrite Z.mod_small by lia; split_and!; try done; [lia|exists (2 * q + 1); lia|lia].
Qed.

Lemma div_loop_spec b shift num div quot q :
  (shift < 256)%nat -> 0 < b -> uint_ok num -> uint_ok div -> uint_ok quot ->
  val div = b * 2 ^ Z.of_nat shift -> val num < b * 2 ^ Z.of_nat (S shift) ->
  val quot = 2 ^ Z.of_nat (S shift) * q ->
  uint_ok (div_loop shift num div quot) /\
  val (div_loop shift num div quot) = (val quot * b + val num) / b.
Proof.
  revert num div quot q. induction shift as [|shift IH]; intros num div quot q Hs Hb Hn Hd Hq Ed En Eq.
  all: pose proof (div_step_spec b _ num div quot q Hs Hb Hn Hd Hq Ed En Eq) as Hstep.
  all: cbn [div_loop]; destruct (div_step _ num div quot) as [num' quot']; destruct Hstep as (Hn' & Hq' & En' & [q' Eq'] & <-).
  - split; [done|]. pose proof (uint_bound _ Hn'). rewrite Z.add_comm, Z.div_add, Z.div_small by lia. done.
  - destruct (uint_shr_spec div 1 Hd) as [Hd' Vd]; [lia|]. apply (IH _ _ _ q'); try done; [lia|].
    rewrite Vd, Ed, Nat2Z.inj_succ, Z.pow_succ_r by lia.
    replace (b * (2 * 2 ^ Z.of_nat shift)) with (b * 2 ^ Z.of_nat shift * 2 ^ 1) by lia. by rewrite Z.div_mul.
Qed.

Lemma uint_zero_ok : uint_ok uint_zero.
Proof. split; [done|by repeat constructor]. Qed.

Lemma uint_div_spec a b :
  uint_ok a -> uint_ok b ->
  match uint_div a b with
  | None => val b = 0
  | Some q => val b <> 0 /\ uint_ok q /\ val q = val a / val b
  end.
Proof.
  intros Ha Hb. unfold uint_div. pose proof (uint_bound _ Ha). pose proof (uint_bound _ Hb).
  destruct (bits_spec b Hb) as [[Eb ->]|[Hbb Bb]]; [done|].
  destruct (Nat.eqb_spec (bits b) 0); [lia|].
  assert (0 < val b) by (pose proof (Z.pow_pos_nonneg 2 (Z.of_nat (bits b) - 1)); lia).
  destruct (bits_spec a Ha) as [[Ea Eba]|[Hba Ba]].
  { rewrite Eba. destruct (Nat.ltb_spec 0 (bits b)); [|lia]. split_and!; [lia|apply uint_zero_ok|by rewrite Ea]. }
  destruct (Nat.ltb_spec (bits a) (bits b)) as [Hlt|Hge].
  { split_and!; [lia|apply uint_zero_ok|]. rewrite Z.div_small; [done|]. split; [lia|].
    assert (2 ^ Z.of_nat (bits a) <= 2 ^ (Z.of_nat (bits b) - 1)) by (apply Z.pow_le_mono_r; lia). lia. }
  set (shift := (bits a - bits b)%nat).
  assert (2 ^ Z.of_nat (bits a) = 2 ^ Z.of_nat (bits b) * 2 ^ Z.of_nat shift) as Ep.
  { rewrite <-Z.pow_add_r by lia. f_equal. lia. }
  assert (2 ^ Z.of_nat (bits b) = 2 * 2 ^ (Z.of_nat (bits b) - 1)) as E2.
  { rewrite <-Z.pow_succ_r by lia. f_equal. lia. }
  assert (2 ^ Z.of_nat (bits a) <= 2 ^ 256) by (apply Z.pow_le_mono_r; lia).
  pose proof (Z.pow_pos_nonneg 2 (Z.of_nat shift) ltac:(lia) ltac:(lia)).
  destruct (uint_shl_spec b (Z.of_nat shift) Hb) as [Hd Vd]; [lia|]. rewrite Z.mod_small in Vd by nia.
  destruct (div_loop_spec (val b) shift a (uint_shl b (Z.of_nat shift)) uint_zero 0) as [Hok V]; try done;
    [lia|apply uint_zero_ok|rewrite Nat2Z.inj_succ, Z.pow_succ_r by lia; nia|exact (eq_sym (Z.mul_0_r _))|].
  split_and!; [lia|done|exact V].
Qed.

(** ** The compact format *)
Lemma GetLow64_spec a : uint_ok a -> GetLow64 a = val a mod 2 ^ 64.
Proof.
  intros [L Ha]. destruct a as [|a0 [|a1 a]]; try done. cbn [GetLow64 nth].
  inversion_clear Ha as [|?? H0 Ha']. inversion_clear Ha' as [|?? H1 _]. unfold GetLow64. cbn [nth].
  rewrite Z.shiftl_mul_pow2, (Z.mul_comm a1), lor_low by (lia || done). cbn [val].
  replace (a0 + 2 ^ 32 * (a1 + 2 ^ 32 * val a)) with (a0 + 2 ^ 32 * a1 + val a * 2 ^ 64) by lia.
  rewrite Z.mod_add by lia. symmetry. apply Z.mod_small. unfold limb_ok in *. lia.
Qed.

(** The mantissa of [v] for a size in bytes, and the size and mantissa after the
    step that keeps the sign bit clear. *)
Definition mantissa (v size : Z) : Z := 2 ^ 24 * v / 2 ^ (8 * size).
Definition clear_sign (m size : Z) : Z * Z := if 2 ^ 23 <=? m then (m / 2 ^ 8, size + 1) else (m, size).
Definition compact_size (v : Z) : Z := if v =? 0 then 0 else (Z.log2 v + 8) / 8.

Lemma bits_log2 a : uint_ok a -> (Z.of_nat (bits a) + 7) / 8 = compact_size (val a).
Proof.
  intros Ha. unfold compact_size. destruct (bits_spec a Ha) as [[E ->]|[Hb Hv]]; [by rewrite E|].
  pose proof (Z.pow_pos_nonneg 2 (Z.of_nat (bits a) - 1)). destruct (Z.eqb_spec (val a) 0); [lia|].
  rewrite (Z.log2_unique (val a) (Z.of_nat (bits a) - 1)); [f_equal; lia|lia|].
  replace (Z.succ (Z.of_nat (bits a) - 1)) with (Z.of_nat (bits a)) by lia. lia.
Qed.

Lemma compact_size_spec v :
  0 < v < 2 ^ 256 ->
  1 <= compact_size v <= 32 /\ 2 ^ (8 * compact_size v - 8) <= v < 2 ^ (8 * compact_size v).
Proof.
  intros Hv. unfold compact_size. destruct (Z.eqb_spec v 0); [lia|].
  pose proof (Z.log2_spec v ltac:(lia)) as [Hl Hu]. pose proof (Z.log2_nonneg v).
  assert (Z.log2 v < 256) by (apply Z.log2_lt_pow2; lia).
  pose proof (Z.div_mod (Z.log2 v + 8) 8 ltac:(lia)). pose proof (Z.mod_pos_bound (Z.log2 v + 8) 8 ltac:(lia)).
  set (s := (Z.log2 v + 8) / 8) in *.
  assert (2 ^ (8 * s - 8) <= 2 ^ Z.log2 v) by (apply Z.pow_le_mono_r; lia).
  assert (2 ^ Z.succ (Z.log2 v) <= 2 ^ (8 * s)) by (apply Z.pow_le_mono_r; lia). lia.
Qed.

Lemma mantissa_cases v s :
  0 <= s -> mantissa v s = if s <=? 3 then v * 2 ^ (8 * (3 - s)) else v / 2 ^ (8 * (s - 3)).
Proof.
  intros Hs. unfold mantissa. pose proof (Z.pow_pos_nonneg 2 (8 * s) ltac:(lia) ltac:(lia)). destruct (Z.leb_spec s 3).
  - replace (2 ^ 24) with (2 ^ (8 * (3 - s)) * 2 ^ (8 * s)) by (rewrite <-Z.pow_add_r by lia; f_equal; lia).
    replace (2 ^ (8 * (3 - s)) * 2 ^ (8 * s) * v) with (v * 2 ^ (8 * (3 - s)) * 2 ^ (8 * s)) by lia. by rewrite Z.div_mul by lia.
  - replace (2 ^ (8 * s)) with (2 ^ 24 * 2 ^ (8 * (s - 3))) by (rewrite <-Z.pow_add_r by lia; f_equal; lia).
    by rewrite Z.div_mul_cancel_l by (try apply Z.pow_nonzero; lia).
Qed.

Lemma mantissa_bound v s : 0 < v -> 1 <= s -> 2 ^ (8 * s - 8) <= v < 2 ^ (8 * s) -> 2 ^ 16 <= mantissa v s < 2 ^ 24.
Proof.
  intros Hv Hs Hb. unfold mantissa. pose proof (Z.pow_pos_nonneg 2 (8 * s) ltac:(lia) ltac:(lia)). split.
  - apply Z.div_le_lower_bound; [lia|].
    replace (2 ^ (8 * s)) with (2 ^ 8 * 2 ^ (8 * s - 8)) by (rewrite <-Z.pow_add_r by lia; f_equal; lia). lia.
  - apply Z.div_lt_upper_bound; lia.
Qed.

Lemma testbit_24 x k : 0 <= k -> (Z.land x (2 ^ k) =? 0) = negb (Z.testbit x k).
Proof. intros Hk. rewrite <-(land_pow2 x k Hk). by rewrite Z.shiftl_1_l. Qed.

Lemma GetCompact_spec a :
  uint_ok a ->
  let '(m, s) := clear_sign (mantissa (val a) (compact_size (val a))) (compact_size (val a)) in
  GetCompact a false = m + 2 ^ 24 * s /\ 0 <= m < 2 ^ 23 /\ 0 <= s <= 33.
Proof.
  intros Ha. unfold GetCompact. rewrite bits_log2 by done. pose proof (uint_bound a Ha) as Hv.
  assert (exists s, compact_size (val a) = s /\ 0 <= s <= 32 /\ 0 <= mantissa (val a) s < 2 ^ 24) as (s & Es & Hs & Hm).
  { destruct (decide (val a = 0)) as [->|]; [by exists 0|]. eexists. split; [done|].
    destruct (compact_size_spec (val a)) as [Hs Hb]; [lia|]. split; [lia|].
    pose proof (mantissa_bound (val a) (compact_size (val a)) ltac:(lia) ltac:(lia) Hb). lia. }
  rewrite Es. cbv zeta.
  assert ((if s <=? 3 then uwrap 32 (Z.shiftl (GetLow64 a) (8 * (3 - s)))
           else uwrap 32 (GetLow64 (uint_shr a (8 * (s - 3))))) = mantissa (val a) s) as ->.
  { rewrite mantissa_cases in Hm |- * by lia. destruct (Z.leb_spec s 3).
    - pose proof (Z.pow_pos_nonneg 2 (8 * (3 - s)) ltac:(lia) ltac:(lia)).
      rewrite GetLow64_spec, Z.mod_small, Z.shiftl_mul_pow2, uwrap_small by (done || nia || lia). done.
    - destruct (uint_shr_spec a (8 * (s - 3)) Ha) as [Ok V]; [lia|]. rewrite GetLow64_spec, V, Z.mod_small, uwrap_small by (done || lia). done. }
  unfold clear_sign. change 0x00800000 with (2 ^ 23). rewrite testbit_24, negb_involutive, testbit_top by lia.
  set (m := mantissa (val a) s) in *.
  destruct (Z.leb_spec (2 ^ 23) m); cbn [andb]; rewrite ?Z.lor_0_r.
  - rewrite Z.shiftr_div_pow2 by lia. assert (0 <= m / 2 ^ 8 < 2 ^ 16) by (split; [apply Z.div_pos|apply Z.div_lt_upper_bound]; lia).
    rewrite Z.shiftl_mul_pow2, uwrap_small, (Z.mul_comm (s + 1)), lor_low by lia. split_and!; lia.
  - rewrite Z.shiftl_mul_pow2, uwrap_small, (Z.mul_comm s), lor_low by lia. split_and!; lia.
Qed.

Lemma of_uint64_spec b : 0 <= b < 2 ^ 64 -> uint_ok (of_uint64 b) /\ val (of_uint64 b) = b.
Proof.
  intros Hb. unfold of_uint64, uwrap. rewrite Z.shiftr_div_pow2 by lia.
  pose proof (Z.div_mod b (2 ^ 32) ltac:(lia)). pose proof (Z.mod_pos_bound b (2 ^ 32) ltac:(lia)).
  assert (0 <= b / 2 ^ 32 < 2 ^ 32) by (split; [apply Z.div_pos|apply Z.div_lt_upper_bound]; lia).
  rewrite (Z.mod_small (b / 2 ^ 32)) by lia. split.
  - split; [done|]. repeat (constructor; [unfold limb_ok; lia|]). constructor.
  - cbn [val repeat WIDTH Nat.sub]. lia.
Qed.

Lemma SetCompact_spec m s :
  0 <= m < 2 ^ 23 -> 0 <= s < 256 ->
  let w := if s <=? 3 then m / 2 ^ (8 * (3 - s)) else m in
  exists t, SetCompact (m + 2 ^ 24 * s) =
    (t, false, negb (w =? 0) && ((34 <? s) || (0xff <? w) && (33 <? s) || (0xffff <? w) && (32 <? s))) /\
    uint_ok t /\ val t = (m * 2 ^ (8 * s) / 2 ^ 24) mod 2 ^ 256.
Proof.
  intros Hm Hs. cbv zeta. unfold SetCompact. rewrite Z.shiftr_div_pow2 by lia.
  assert ((m + 2 ^ 24 * s) / 2 ^ 24 = s) as ->.
  { rewrite Z.mul_comm, Z.div_add, Z.div_small by lia. lia. }
  change 0x007fffff with (Z.ones 23). rewrite Z.land_ones by lia.
  assert ((m + 2 ^ 24 * s) mod 2 ^ 23 = m) as ->.
  { replace (m + 2 ^ 24 * s) with (m + 2 * s * 2 ^ 23) by lia. rewrite Z.mod_add, Z.mod_small by lia. done. }
  change 0x00800000 with (2 ^ 23). rewrite testbit_24, negb_involutive by lia.
  assert (Z.testbit (m + 2 ^ 24 * s) 23 = false) as ->.
  { rewrite Z.testbit_odd, Z.shiftr_div_pow2 by lia. replace (m + 2 ^ 24 * s) with (m + 2 * s * 2 ^ 23) by lia.
    rewrite Z.div_add, Z.div_small, Z.add_0_l, Z.odd_mul by lia. done. }
  destruct (Z.leb_spec s 3).
  - rewrite Z.shiftr_div_pow2 by lia. set (w := m / 2 ^ (8 * (3 - s))).
    assert (m * 2 ^ (8 * s) / 2 ^ 24 = w) as Ew.
    { replace (2 ^ 24) with (2 ^ (8 * (3 - s)) * 2 ^ (8 * s)) by (rewrite <-Z.pow_add_r by lia; f_equal; lia).
      by rewrite Z.div_mul_cancel_r by (apply Z.pow_nonzero; lia). }
    assert (0 <= w <= m) by (split; [apply Z.div_pos; [lia|apply Z.pow_pos_nonneg; lia]|apply Z.div_le_upper_bound; [apply Z.pow_pos_nonneg; lia|]]; pose proof (Z.pow_pos_nonneg 2 (8 * (3 - s)) ltac:(lia) ltac:(lia)); nia).
    destruct (of_uint64_spec w) as [Ok V]; [lia|]. eexists. split; [by rewrite andb_false_r|]. split; [done|].
    rewrite V, Ew, Z.mod_small by lia. done.
  - destruct (of_uint64_spec m) as [Ok V]; [lia|]. destruct (uint_shl_spec (of_uint64 m) (8 * (s - 3)) Ok) as [Ok' V']; [lia|].
    eexists. split; [by rewrite andb_false_r|]. split; [done|]. rewrite V', V. f_equal.
    replace (2 ^ (8 * s)) with (2 ^ (8 * (s - 3)) * 2 ^ 24) by (rewrite <-Z.pow_add_r by lia; f_equal; lia).
    by rewrite Z.mul_assoc, Z.div_mul.
Qed.

Lemma compact_size_unique v s : 1 <= s -> 2 ^ (8 * s - 8) <= v < 2 ^ (8 * s) -> compact_size v = s.
Proof.
  intros Hs Hv. pose proof (Z.pow_pos_nonneg 2 (8 * s - 8) ltac:(lia) ltac:(lia)). unfold compact_size. destruct (Z.eqb_spec v 0); [lia|].
  pose proof (Z.log2_spec v ltac:(lia)) as [Hl Hu].
  assert (8 * s - 8 < Z.succ (Z.log2 v)) by (apply (Z.pow_lt_mono_r_iff 2); [lia|pose proof (Z.log2_nonneg v); lia|lia]).
  assert (Z.log2 v < 8 * s) by (apply (Z.pow_lt_mono_r_iff 2); lia).
  symmetry. apply (Z.div_unique _ _ _ (Z.log2 v + 8 - 8 * s)); lia.
Qed.

(** Rounding down to a multiple of [2 ^ k]. *)
Lemma round_down v k : 0 <= k -> let q := v / 2 ^ k * 2 ^ k in q <= v < q + 2 ^ k.
Proof.
  intros Hk. cbv zeta. pose proof (Z.pow_pos_nonneg 2 k ltac:(lia) ltac:(lia)).
  pose proof (Z.div_mod v (2 ^ k) ltac:(lia)). pose proof (Z.mod_pos_bound v (2 ^ k) ltac:(lia)). lia.
Qed.

(** What is left of [v] after a trip through the format. *)
Definition compact_round (v : Z) : Z :=
  let '(m, s) := clear_sign (mantissa v (compact_size v)) (compact_size v) in m * 2 ^ (8 * s) / 2 ^ 24.

Lemma compact_round_cases v :
  0 < v < 2 ^ 256 ->
  let s := compact_size v in
  let k := if 2 ^ 23 <=? mantissa v s then 8 * (s - 2) else 8 * (s - 3) in
  compact_round v = if k <=? 0 then v else v / 2 ^ k * 2 ^ k.
Proof.
  intros Hv. cbv zeta. unfold compact_round, clear_sign. destruct (compact_size_spec v Hv) as [Hs Hb].
  set (s := compact_size v) in *. rewrite mantissa_cases by lia.
  assert (forall a b, 0 <= a -> 0 <= b -> 2 ^ (a + b) = 2 ^ a * 2 ^ b) as Hp by (intros; apply Z.pow_add_r; lia).
  destruct (Z.leb_spec s 3) as [H3|H3].
  - destruct (Z.leb_spec (2 ^ 23) (v * 2 ^ (8 * (3 - s)))) as [Hm|Hm].
    + destruct (Z.leb_spec (8 * (s - 2)) 0).
      * replace (v * 2 ^ (8 * (3 - s)) / 2 ^ 8) with (v * 2 ^ (8 * (2 - s))).
        2: { replace (8 * (3 - s)) with (8 * (2 - s) + 8) by lia. by rewrite Hp, Z.mul_assoc, Z.div_mul by lia. }
        replace (v * 2 ^ (8 * (2 - s)) * 2 ^ (8 * (s + 1))) with (v * 2 ^ 24); [by rewrite Z.div_mul|].
        rewrite <-Z.mul_assoc, <-Hp by lia. do 2 f_equal. lia.
      * assert (s = 3) as -> by lia. change (2 ^ (8 * (3 - 3))) with 1. rewrite Z.mul_1_r.
        change (8 * (3 + 1)) with (8 + 24). by rewrite Hp, Z.mul_assoc, Z.div_mul by lia.
    + destruct (Z.leb_spec (8 * (s - 3)) 0); [|lia].
      rewrite <-Z.mul_assoc, <-Hp by lia. replace (8 * (3 - s) + 8 * s) with 24 by lia. by rewrite Z.div_mul.
  - destruct (Z.leb_spec (2 ^ 23) (v / 2 ^ (8 * (s - 3)))) as [Hm|Hm].
    + destruct (Z.leb_spec (8 * (s - 2)) 0); [lia|]. rewrite Z.div_div, <-Hp by (try apply Z.pow_pos_nonneg; try apply Z.pow_nonzero; lia).
      replace (8 * (s - 3) + 8) with (8 * (s - 2)) by lia.
      replace (8 * (s + 1)) with (8 * (s - 2) + 24) by lia. by rewrite Hp, Z.mul_assoc, Z.div_mul by lia.
    + destruct (Z.leb_spec (8 * (s - 3)) 0); [lia|].
      replace (8 * s) with (8 * (s - 3) + 24) by lia. by rewrite Hp, Z.mul_assoc, Z.div_mul by lia.
Qed.

Lemma mantissa_ge_iff v s : 0 <= s -> 2 ^ 23 <= mantissa v s <-> 2 ^ (8 * s) <= 2 * v.
Proof.
  intros Hs. unfold mantissa. pose proof (Z.pow_pos_nonneg 2 (8 * s) ltac:(lia) ltac:(lia)). split; intros H'.
  - pose proof (Z.mul_div_le (2 ^ 24 * v) (2 ^ (8 * s)) ltac:(lia)). nia.
  - apply Z.div_le_lower_bound; [lia|]. lia.
Qed.

Lemma compact_round_spec v :
  0 < v < 2 ^ 256 ->
  let q := compact_round v in
  q <= v /\ (v - q) * 2 ^ 15 <= v /\ compact_size q = compact_size v /\
  clear_sign (mantissa q (compact_size v)) (compact_size v)
  = clear_sign (mantissa v (compact_size v)) (compact_size v).
Proof.
  intros Hv. cbv zeta. pose proof (compact_round_cases v Hv) as Eq. cbv zeta in Eq.
  destruct (compact_size_spec v Hv) as [Hs Hb]. set (s := compact_size v) in *.
  set (k := if 2 ^ 23 <=? mantissa v s then 8 * (s - 2) else 8 * (s - 3)) in *.
  destruct (Z.leb_spec k 0) as [Hk|Hk]; rewrite Eq; [split_and!; [lia|lia|done|done]|].
  pose proof (round_down v k ltac:(lia)) as Hr. cbv zeta in Hr. set (q := v / 2 ^ k * 2 ^ k) in *.
  assert (0 <= k <= 8 * s - 16) as Hks by (subst k; destruct (2 ^ 23 <=? mantissa v s); lia).
  assert (forall a b, 0 <= a -> 0 <= b -> 2 ^ (a + b) = 2 ^ a * 2 ^ b) as Hp by (intros; apply Z.pow_add_r; lia).
  assert (2 ^ (k + 15) <= v) as Hv15.
  { subst k. destruct (Z.leb_spec (2 ^ 23) (mantissa v s)) as [Hm|Hm].
    - apply mantissa_ge_iff in Hm; [|lia]. replace (8 * s) with (8 * (s - 2) + 15 + 1) in Hm by lia. rewrite Hp in Hm by lia. lia.
    - etransitivity; [|apply Hb]. apply Z.pow_le_mono_r; lia. }
  rewrite Hp in Hv15 by lia.
  assert (compact_size q = s) as Es.
  { apply compact_size_unique; [lia|]. split; [|lia]. subst q.
    replace (8 * s - 8) with (8 * s - 8 - k + k) by lia. rewrite Hp by lia.
    apply Z.mul_le_mono_nonneg_r; [apply Z.pow_nonneg; lia|]. apply Z.div_le_lower_bound; [apply Z.pow_pos_nonneg; lia|].
    rewrite <-Hp by lia. replace (k + (8 * s - 8 - k)) with (8 * s - 8) by lia. lia. }
  split_and!; [lia|lia|done|].
  assert (0 < 2 ^ k) as Hk0 by (apply Z.pow_pos_nonneg; lia).
  subst k. unfold clear_sign. destruct (Z.leb_spec (2 ^ 23) (mantissa v s)) as [Hm|Hm].
  - assert (forall x, mantissa x s = x / 2 ^ (8 * (s - 3))) as Em.
    { intros x. rewrite mantissa_cases by lia. destruct (Z.leb_spec s 3) as [H3|]; [|done].
      assert (s = 3) as -> by lia. change (2 ^ (8 * (3 - 3))) with 1. by rewrite Z.div_1_r, Z.mul_1_r. }
    assert (2 ^ (8 * (s - 2)) = 2 ^ (8 * (s - 3)) * 2 ^ 8) as E8 by (rewrite <-Hp by lia; f_equal; lia).
    assert (0 < 2 ^ (8 * (s - 3))) by (apply Z.pow_pos_nonneg; lia).
    rewrite !Em. replace (q / 2 ^ (8 * (s - 3))) with (v / 2 ^ (8 * (s - 2)) * 2 ^ 8).
    2: { subst q. rewrite E8 at 3. rewrite (Z.mul_comm (2 ^ (8 * (s - 3)))), Z.mul_assoc, Z.div_mul by lia. done. }
    assert (2 ^ 15 <= v / 2 ^ (8 * (s - 2))) by (apply Z.div_le_lower_bound; lia).
    destruct (Z.leb_spec (2 ^ 23) (v / 2 ^ (8 * (s - 2)) * 2 ^ 8)); [|lia].
    rewrite Z.div_mul, Z.div_div, E8 by lia. done.
  - assert (mantissa q s = mantissa v s) as ->.
    { rewrite !mantissa_cases by lia. destruct (Z.leb_spec s 3); [lia|]. subst q. by rewrite Z.div_mul by lia. }
    by destruct (Z.leb_spec (2 ^ 23) (mantissa v s)); [lia|].
Qed.

(** The 256-bit operators compute with the numbers their limbs stand for:
    sums, differences, products and left shifts modulo [2^256], right shifts and
    quotients exactly, with division failing on a zero divisor only, and
    comparison by value. *)
Theorem arith_uint256_correct (a b : base_uint) (s : Z) :
  uint_ok a -> uint_ok b -> 0 <= s < 256 ->
  val (uint_add a b) = (val a + val b) mod 2 ^ 256 /\
  val (uint_sub a b) = (val a - val b) mod 2 ^ 256 /\
  val (uint_mul a b) = (val a * val b) mod 2 ^ 256 /\
  val (uint_shl a s) = (val a * 2 ^ s) mod 2 ^ 256 /\
  val (uint_shr a s) = val a / 2 ^ s /\
  (val b = 0 -> uint_div a b = None) /\
  (val b <> 0 -> exists q, uint_div a b = Some q /\ uint_ok q /\ val q = val a / val b) /\
  CompareTo a b = match val a ?= val b with Lt => -1 | Eq => 0 | Gt => 1 end.
Proof.
  intros Ha Hb Hs. pose proof (uint_div_spec a b Ha Hb) as Hd. split_and!.
  - by apply uint_add_spec.
  - by apply uint_sub_spec.
  - by apply uint_mul_spec.
  - apply uint_shl_spec; [done|lia].
  - by apply uint_shr_spec.
  - destruct (uint_div a b); [by intros ?; destruct Hd|done].
  - destruct (uint_div a b) as [q|]; [|done]. intros _. destruct Hd as (_ & ? & ?). by exists q.
  - apply CompareTo_spec; [|apply Ha|apply Hb]. by rewrite (proj1 Ha), (proj1 Hb).
Qed.

Lemma arith_uint256_correct_witness :
  uint_div (of_uint64 1000) (of_uint64 7) = Some (of_uint64 142) /\
  val (uint_sub (of_uint64 1) (of_uint64 2)) = 2 ^ 256 - 1 /\
  val (uint_shl (of_uint64 3) 40) = 3 * 2 ^ 40.
Proof.
  assert (uint_ok (of_uint64 1000) /\ uint_ok (of_uint64 7)) as [H1 H2] by (split; apply of_uint64_spec; lia).
  assert (uint_ok (of_uint64 1) /\ uint_ok (of_uint64 2)) as [H3 H4] by (split; apply of_uint64_spec; lia).
  assert (uint_ok (of_uint64 3)) as H5 by (apply of_uint64_spec; lia).
  split_and!.
  - destruct (arith_uint256_correct (of_uint64 1000) (of_uint64 7) 0 H1 H2 ltac:(lia)) as (_ & _ & _ & _ & _ & _ & Hd & _).
    destruct Hd as (q & -> & Hq & Vq); [vm_compute; discriminate|]. f_equal.
    apply val_inj; [by rewrite (proj1 Hq)|apply Hq|by apply of_uint64_spec|rewrite Vq; vm_compute; reflexivity].
  - destruct (arith_uint256_correct (of_uint64 1) (of_uint64 2) 0 H3 H4 ltac:(lia)) as (_ & -> & _). vm_compute. reflexivity.
  - destruct (arith_uint256_correct (of_uint64 3) (of_uint64 3) 40 H5 H5 ltac:(lia)) as (_ & _ & _ & -> & _). vm_compute. reflexivity.
Defined.

Lemma compact_back (a : base_uint) :
  uint_ok a ->
  exists t, SetCompact (GetCompact a false) = (t, false, false) /\ uint_ok t /\
    val t <= val a /\ (val a - val t) * 2 ^ 15 <= val a /\ GetCompact t false = GetCompact a false.
Proof.
  intros Ha. pose proof (uint_bound a Ha) as Hv. pose proof (GetCompact_spec a Ha) as Hc.
  destruct (decide (val a = 0)) as [E0|Hne].
  { assert (a = uint_zero) as -> by (apply val_inj; [apply Ha|apply Ha|apply uint_zero_ok|done]).
    exists uint_zero. split; [vm_compute; reflexivity|]. split; [apply uint_zero_ok|]. by split_and!. }
  destruct (compact_round_spec (val a)) as (Hle & Hprec & Esz & Ecl); [lia|].
  destruct (compact_size_spec (val a)) as [Hsz _]; [lia|]. unfold compact_round in *.
  set (s0 := compact_size (val a)) in *.
  assert (forall m s, clear_sign (mantissa (val a) s0) s0 = (m, s) -> s = 33 -> m < 2 ^ 16) as H33.
  { intros m s. unfold clear_sign. destruct (compact_size_spec (val a) ltac:(lia)) as [_ Hb].
    pose proof (mantissa_bound (val a) s0 ltac:(lia) ltac:(lia) Hb).
    destruct (_ <=? _); intros [= <- <-] ?; [apply Z.div_lt_upper_bound; lia|lia]. }
  destruct (clear_sign (mantissa (val a) s0) s0) as [m s] eqn:Ecs. destruct Hc as (-> & Hm & Hs).
  destruct (SetCompact_spec m s Hm ltac:(lia)) as (t & -> & Ht & Vt).
  specialize (H33 m s eq_refl).
  assert (val t = m * 2 ^ (8 * s) / 2 ^ 24) as Vt'.
  { rewrite Vt. apply Z.mod_small. split; [|lia]. apply Z.div_pos; [|lia]. pose proof (Z.pow_pos_nonneg 2 (8 * s)). nia. }
  exists t. split_and!.
  - f_equal. apply andb_false_intro2. rewrite (proj2 (Z.ltb_ge 34 s)), (proj2 (Z.ltb_ge 33 s)), andb_false_r by lia.
    apply andb_false_iff. destruct (decide (s = 33)) as [E|]; [left; apply Z.ltb_ge|right; apply Z.ltb_ge; lia].
    destruct (Z.leb_spec s 3); lia.
  - done.
  - by rewrite Vt'.
  - by rewrite Vt'.
  - pose proof (GetCompact_spec t Ht) as Hc. rewrite Vt', Esz, Ecl in Hc. by destruct Hc.
Qed.

(** The compact format of targets rounds down and is stable: encoding any
    256-bit number and decoding it sets neither the sign nor the overflow flag,
    loses less than one part in [2^15], and encoding the result again gives the
    same 32 bits. *)
Lemma compact_target_rounds (a : base_uint) :
  uint_ok a ->
  exists t, SetCompact (GetCompact a false) = (t, false, false) /\ uint_ok t /\
    val t <= val a /\ (val a - val t) * 2 ^ 15 <= val a /\ GetCompact t false = GetCompact a false.
Proof. apply compact_back. Qed.
