(* ===== verification/Tx.v ===== *)
(** Transactions and blocks: the data of src/src/primitives/transaction.h and
    block.h with their serialization and hashes, output totals of
    transaction.cpp, and finality and relative lock times of
    src/src/consensus/tx_verify.cpp. *)

From S2P Require Import Prelude Sha256 Script Serialize Slots.

Local Open Scope Z_scope.

(** ** Data *)
Record COutPoint := mkOutPoint { out_hash : bytes; out_n : Z }.
Record CTxIn := mkTxIn {
  prevout : COutPoint;
  scriptSig : CScript;
  nSequence : Z;
  scriptWitness : list bytes;
}.
Record CTxOut := mkTxOut { nValue : Z; scriptPubKey : CScript }.
Definition CTxOut_null : CTxOut := mkTxOut (-1) [].
Record CTransaction := mkTx {
  tx_nVersion : Z;
  vin : list CTxIn;
  vout : list CTxOut;
  nLockTime : Z;
}.

Definition uint256_null : bytes := repeat 0 32.
Definition SEQUENCE_FINAL : Z := 0xffffffff.

Definition COutPoint_IsNull (o : COutPoint) : bool :=
  bytes_eqb (out_hash o) uint256_null && (out_n o =? 0xffffffff).

Definition outpoint_eqb (a b : COutPoint) : bool :=
  bytes_eqb (out_hash a) (out_hash b) && (out_n a =? out_n b).

Definition COutPoint_ltb (a b : COutPoint) : bool :=
  bytes_ltb (out_hash a) (out_hash b) ||
  (bytes_eqb (out_hash a) (out_hash b) && (out_n a <? out_n b)).

Definition IsCoinBase (tx : CTransaction) : bool :=
  match vin tx with [i] => COutPoint_IsNull (prevout i) | _ => false end.

Definition HasWitness (tx : CTransaction) : bool :=
  existsb (fun i => negb (zlen (scriptWitness i) =? 0)) (vin tx).

(** ** Serialization *)
Definition c_outpoint : codec COutPoint :=
  c_map (fun p => mkOutPoint p.1 p.2) (fun o => (out_hash o, out_n o)) (c_pair (c_blob 32) (c_uint 4)).

(** [CTxIn] without its witness, which only [CTransaction] serializes. *)
Definition c_txin : codec CTxIn :=
  c_map (fun p => mkTxIn p.1 p.2.1 p.2.2 []) (fun i => (prevout i, (scriptSig i, nSequence i)))
    (c_pair c_outpoint (c_pair c_bytes (c_uint 4))).

Definition c_txout : codec CTxOut :=
  c_map (fun p => mkTxOut p.1 p.2) (fun o => (nValue o, scriptPubKey o)) (c_pair (c_int 8) c_bytes).

Definition c_stack : codec (list bytes) := c_vector c_bytes.

Definition SerializeTransaction (fAllowWitness : bool) (tx : CTransaction) : bytes :=
  let flags := if fAllowWitness && HasWitness tx then 1 else 0 in
  enc (c_int 4) (tx_nVersion tx)
  ++ (if negb (flags =? 0) then enc (c_vector c_txin) [] ++ enc (c_uint 1) flags else [])
  ++ enc (c_vector c_txin) (vin tx)
  ++ enc (c_vector c_txout) (vout tx)
  ++ (if negb (Z.land flags 1 =? 0)
      then concat (map (fun i => enc c_stack (scriptWitness i)) (vin tx)) else [])
  ++ enc (c_uint 4) (nLockTime tx).

(** [s >> tx.vin[i].scriptWitness.stack] for every input. *)
Fixpoint read_witnesses (ins : list CTxIn) : reader (list CTxIn) :=
  match ins with
  | [] => rret []
  | i :: ins' =>
      rbind (dec c_stack) (fun w =>
      rbind (read_witnesses ins') (fun l =>
      rret (mkTxIn (prevout i) (scriptSig i) (nSequence i) w :: l)))
  end.

Definition UnserializeTransaction (fAllowWitness : bool) : reader CTransaction :=
  (nVersion <-- dec (c_int 4) ;;
   ins0 <-- dec (c_vector c_txin) ;;
   p <-- (if (zlen ins0 =? 0) && fAllowWitness then
            flags <-- dec (c_uint 1) ;;
            if negb (flags =? 0) then
              ins <-- dec (c_vector c_txin) ;;
              outs <-- dec (c_vector c_txout) ;;
              rret (flags, ins, outs)
            else rret (flags, ins0, [])
          else
            outs <-- dec (c_vector c_txout) ;;
            rret (0, ins0, outs)) ;;
   let '(flags, ins, outs) := p in
   q <-- (if negb (Z.land flags 1 =? 0) && fAllowWitness then
            ins' <-- read_witnesses ins ;;
            rret (Z.lxor flags 1, ins')
          else rret (flags, ins)) ;;
   let '(flags, ins) := q in
   if negb (flags =? 0) then rfail else
   lock <-- dec (c_uint 4) ;;
   rret (mkTx nVersion ins outs lock))%reader.

Definition c_tx (fAllowWitness : bool) : codec CTransaction :=
  mkCodec (SerializeTransaction fAllowWitness) (UnserializeTransaction fAllowWitness).

Definition GetHash (tx : CTransaction) : bytes := sha256.Hash [SerializeTransaction false tx].
Definition GetWitnessHash (tx : CTransaction) : bytes :=
  if negb (HasWitness tx) then GetHash tx else sha256.Hash [SerializeTransaction true tx].
Definition GetTotalSize (tx : CTransaction) : Z := zlen (SerializeTransaction true tx).

(** ** Totals: [None] is the exception *)
Definition is_asset_script (s : CScript) : bool :=
  match IsAssetScript s with Some _ => true | None => false end.

Fixpoint value_out (fAreEnforcedValues : bool) (outs : list CTxOut) (nValueOut : Z) : option Z :=
  match outs with
  | [] => Some nValueOut
  | o :: outs' =>
      if negb fAreEnforcedValues && is_asset_script (scriptPubKey o)
      then value_out fAreEnforcedValues outs' nValueOut
      else
        let nValueOut := swrap 64 (nValueOut + nValue o) in
        if negb (MoneyRange (nValue o)) || negb (MoneyRange nValueOut) then None
        else value_out fAreEnforcedValues outs' nValueOut
  end.

Definition GetValueOut (fAreEnforcedValues : bool) (tx : CTransaction) : option Z :=
  value_out fAreEnforcedValues (vout tx) 0.

(** ** Blocks *)
Record CBlockHeader := mkHeader {
  hdr_nVersion : Z;
  hashPrevBlock : bytes;
  hashMerkleRoot : bytes;
  nTime : Z;
  nBits : Z;
  nNonce : Z;
  hdr_nHeight : Z;
  nNonce64 : Z;
  mix_hash : bytes;
}.
Record CBlock := mkBlock { block_header : CBlockHeader; vtx : list CTransaction }.

Section Header.
Variable nKAWPOWActivationTime : Z.

Definition SerializeHeader (h : CBlockHeader) : bytes :=
  enc (c_int 4) (hdr_nVersion h) ++ enc (c_blob 32) (hashPrevBlock h)
  ++ enc (c_blob 32) (hashMerkleRoot h) ++ enc (c_uint 4) (nTime h) ++ enc (c_uint 4) (nBits h)
  ++ (if nTime h <? nKAWPOWActivationTime then enc (c_uint 4) (nNonce h)
      else enc (c_uint 4) (hdr_nHeight h) ++ enc (c_uint 8) (nNonce64 h) ++ enc (c_blob 32) (mix_hash h)).

(** Into a fresh header: the fields not read stay null. *)
Definition UnserializeHeader : reader CBlockHeader :=
  (version <-- dec (c_int 4) ;;
   prev <-- dec (c_blob 32) ;;
   root <-- dec (c_blob 32) ;;
   time <-- dec (c_uint 4) ;;
   bits <-- dec (c_uint 4) ;;
   if time <? nKAWPOWActivationTime then
     nonce <-- dec (c_uint 4) ;;
     rret (mkHeader version prev root time bits nonce 0 0 uint256_null)
   else
     height <-- dec (c_uint 4) ;;
     nonce64 <-- dec (c_uint 8) ;;
     mix <-- dec (c_blob 32) ;;
     rret (mkHeader version prev root time bits 0 height nonce64 mix))%reader.

Definition c_header : codec CBlockHeader := mkCodec SerializeHeader UnserializeHeader.

Definition c_block (fAllowWitness : bool) : codec CBlock :=
  c_map (fun p => mkBlock p.1 p.2) (fun b => (block_header b, vtx b))
    (c_pair c_header (c_vector (c_tx fAllowWitness))).

(** [GetKAWPOWHeaderHash]: the header without nonce and mix hash. *)
Definition GetKAWPOWHeaderHash (h : CBlockHeader) : bytes :=
  sha256.Hash [enc (c_int 4) (hdr_nVersion h) ++ enc (c_blob 32) (hashPrevBlock h)
    ++ enc (c_blob 32) (hashMerkleRoot h) ++ enc (c_uint 4) (nTime h) ++ enc (c_uint 4) (nBits h)
    ++ enc (c_uint 4) (hdr_nHeight h)].
End Header.

(** ** Lock times *)
Definition LOCKTIME_THRESHOLD : Z := 500000000.
Definition SEQUENCE_LOCKTIME_DISABLE_FLAG : Z := 2 ^ 31.
Definition SEQUENCE_LOCKTIME_TYPE_FLAG : Z := 2 ^ 22.
Definition SEQUENCE_LOCKTIME_MASK : Z := 0xffff.
Definition SEQUENCE_LOCKTIME_GRANULARITY : Z := 9.
Definition LOCKTIME_VERIFY_SEQUENCE : Z := 1.

Definition IsFinalTx (tx : CTransaction) (nBlockHeight nBlockTime : Z) : bool :=
  if nLockTime tx =? 0 then true else
  if nLockTime tx <? (if nLockTime tx <? LOCKTIME_THRESHOLD then nBlockHeight else nBlockTime)
  then true else
  forallb (fun i => nSequence i =? SEQUENCE_FINAL) (vin tx).

(** One input: the pair so far, the coin height (which the code sets to 0 when
    the input carries no lock) and the median time of the block before the
    coin's. *)
Definition sequence_lock_in (mtp_at : Z -> Z) (acc : Z * Z) (i : CTxIn) (nCoinHeight : Z) : (Z * Z) * Z :=
  if negb (Z.land (nSequence i) SEQUENCE_LOCKTIME_DISABLE_FLAG =? 0) then (acc, 0) else
  if negb (Z.land (nSequence i) SEQUENCE_LOCKTIME_TYPE_FLAG =? 0) then
    let nCoinTime := mtp_at (Z.max (nCoinHeight - 1) 0) in
    ((acc.1, Z.max acc.2 (nCoinTime
        + Z.shiftl (Z.land (nSequence i) SEQUENCE_LOCKTIME_MASK) SEQUENCE_LOCKTIME_GRANULARITY - 1)),
     nCoinHeight)
  else
    ((Z.max acc.1 (nCoinHeight + Z.land (nSequence i) SEQUENCE_LOCKTIME_MASK - 1), acc.2), nCoinHeight).

Fixpoint sequence_locks (mtp_at : Z -> Z) (acc : Z * Z) (ins : list CTxIn) (prevHeights : list Z)
    : (Z * Z) * list Z :=
  match ins, prevHeights with
  | i :: ins', h :: hs =>
      let '(acc, h) := sequence_lock_in mtp_at acc i h in
      let '(r, hs) := sequence_locks mtp_at acc ins' hs in (r, h :: hs)
  | _, _ => (acc, prevHeights)
  end.

(** [CalculateSequenceLocks]: the (height, time) pair and the updated heights. *)
Definition CalculateSequenceLocks (tx : CTransaction) (flags : Z) (prevHeights : list Z)
    (mtp_at : Z -> Z) : (Z * Z) * list Z :=
  let fEnforceBIP68 :=
    (2 <=? uwrap 32 (tx_nVersion tx)) && negb (Z.land flags LOCKTIME_VERIFY_SEQUENCE =? 0) in
  if negb fEnforceBIP68 then ((-1, -1), prevHeights)
  else sequence_locks mtp_at (-1, -1) (vin tx) prevHeights.

Definition EvaluateSequenceLocks (nHeight prevMedianTimePast : Z) (lockPair : Z * Z) : bool :=
  negb ((nHeight <=? lockPair.1) || (prevMedianTimePast <=? lockPair.2)).

Definition SequenceLocks (tx : CTransaction) (flags : Z) (prevHeights : list Z) (mtp_at : Z -> Z)
    (nHeight prevMedianTimePast : Z) : bool :=
  EvaluateSequenceLocks nHeight prevMedianTimePast
    (CalculateSequenceLocks tx flags prevHeights mtp_at).1.

Definition GetLegacySigOpCount (tx : CTransaction) : Z :=
  uwrap 32 (sumZ (map (fun i => GetSigOpCount false (scriptSig i)) (vin tx))
            + sumZ (map (fun o => GetSigOpCount false (scriptPubKey o)) (vout tx))).

(** ** Outpoints *)

Lemma outpoint_eqb_eq a b : outpoint_eqb a b = true <-> a = b.
Proof.
  unfold outpoint_eqb. rewrite andb_true_iff, Z.eqb_eq, bytes_eqb_eq. destruct a, b; simpl. split; [by intros [-> ->]|].
  by intros [= -> ->].
Qed.

(** ** Laws of the codecs *)
Definition wf_outpoint (o : COutPoint) : Prop := wf_blob 32 (out_hash o) /\ wf_uint 4 (out_n o).
Definition wf_txin_base (i : CTxIn) : Prop :=
  wf_outpoint (prevout i) /\ wf_bytes (scriptSig i) /\ wf_uint 4 (nSequence i).
Definition wf_txout (o : CTxOut) : Prop := wf_int 8 (nValue o) /\ wf_bytes (scriptPubKey o).
Definition no_witness (i : CTxIn) : Prop := scriptWitness i = [].
Definition wf_stack : list bytes -> Prop := wf_vector wf_bytes.

#[export] Hint Unfold wf_outpoint wf_txin_base wf_txout no_witness wf_stack : wf.

#[global] Instance c_outpoint_roundtrips : Roundtrips c_outpoint wf_outpoint.
Proof. eapply c_map_roundtrips; [|apply _]. by intros [h n] [H1 H2]. Qed.
#[global] Instance c_outpoint_canonical : Canonical c_outpoint wf_outpoint.
Proof. eapply c_map_canonical; [|apply _]. by intros [h n] [H1 H2]. Qed.

#[global] Instance c_txin_roundtrips : Roundtrips c_txin (fun i => wf_txin_base i /\ no_witness i).
Proof.
  eapply c_map_roundtrips; [|apply _]. intros [p s n w] [(H1 & H2 & H3) Hw]. unfold no_witness in Hw.
  simpl in *. by subst.
Qed.
#[global] Instance c_txin_canonical : Canonical c_txin (fun i => wf_txin_base i /\ no_witness i).
Proof. eapply c_map_canonical; [|apply _]. by intros [p [s n]] (H1 & H2 & H3). Qed.

#[global] Instance c_txout_roundtrips : Roundtrips c_txout wf_txout.
Proof.
  eapply c_map_roundtrips; [|apply c_pair_roundtrips; [apply c_int_roundtrips; lia|apply _]].
  by intros [v s] [H1 H2].
Qed.
#[global] Instance c_txout_canonical : Canonical c_txout wf_txout.
Proof.
  eapply c_map_canonical; [|apply c_pair_canonical; [apply c_int_canonical; lia|apply _]].
  by intros [v s] [H1 H2].
Qed.

#[global] Instance c_stack_roundtrips : Roundtrips c_stack wf_stack.
Proof. apply _. Qed.

(** ** Transactions *)

(** A transaction within the limits of the encoding; with witnesses allowed, an
    empty input list announces the extended format and needs empty outputs. *)
Definition wf_tx (fAllowWitness : bool) (tx : CTransaction) : Prop :=
  wf_int 4 (tx_nVersion tx) /\ wf_vector wf_txin_base (vin tx) /\
  wf_vector wf_txout (vout tx) /\ wf_uint 4 (nLockTime tx) /\
  Forall (fun i => wf_stack (scriptWitness i)) (vin tx) /\
  (fAllowWitness = true -> vin tx = [] -> vout tx = []).

Definition strip_in (i : CTxIn) : CTxIn := mkTxIn (prevout i) (scriptSig i) (nSequence i) [].
Definition strip_witness (tx : CTransaction) : CTransaction :=
  mkTx (tx_nVersion tx) (map strip_in (vin tx)) (vout tx) (nLockTime tx).

Lemma enc_txins_strip l : enc (c_vector c_txin) (map strip_in l) = enc (c_vector c_txin) l.
Proof. simpl. unfold zlen. by rewrite length_map, map_map. Qed.

Lemma wf_txins_strip l :
  wf_vector wf_txin_base l -> wf_vector (fun i => wf_txin_base i /\ no_witness i) (map strip_in l).
Proof.
  intros [Hf Hl]. split; [|unfold zlen; by rewrite length_map].
  induction Hf; simpl; constructor; [done|]. apply IHHf. rewrite zlen_cons in Hl. lia.
Qed.

(** Reading the inputs of any transaction gives them without witnesses. *)
Lemma dec_txins l rest :
  wf_vector wf_txin_base l ->
  dec (c_vector c_txin) (enc (c_vector c_txin) l ++ rest) = Some (map strip_in l, rest).
Proof.
  intros Hl. rewrite <-enc_txins_strip.
  by apply (dec_enc (c := c_vector c_txin)), wf_txins_strip.
Qed.

Lemma read_witnesses_app l rest :
  Forall (fun i => wf_stack (scriptWitness i)) l ->
  read_witnesses (map strip_in l) (concat (map (fun i => enc c_stack (scriptWitness i)) l) ++ rest)
  = Some (l, rest).
Proof.
  induction 1 as [|i l Hi _ IH]; [done|]. cbn [map concat read_witnesses]. rewrite <-app_assoc.
  erewrite rbind_step by (by apply (dec_enc (c := c_stack))).
  erewrite rbind_step by apply IH. unfold rret. simpl. by destruct i.
Qed.

Lemma HasWitness_false tx : HasWitness tx = false -> map strip_in (vin tx) = vin tx.
Proof.
  unfold HasWitness. induction (vin tx) as [|[p s n w] l IH]; simpl; [done|].
  rewrite orb_false_iff, negb_false_iff, Z.eqb_eq. intros [Hw Hl].
  apply zlen_0_nil in Hw as ->. by rewrite IH.
Qed.

Lemma HasWitness_nil tx : vin tx = [] -> HasWitness tx = false.
Proof. unfold HasWitness. by intros ->. Qed.

(** One step of a decoder over an encoded field. *)
Ltac dec_step c := erewrite rbind_step by (by apply (dec_enc (c := c))).

(** Evaluates the tests on a cleared flags byte. *)
Ltac rewrite_flags :=
  change (Z.land 0 1) with 0; change (0 =? 0) with true; cbn [negb andb app];
  erewrite rbind_step by reflexivity; cbv beta iota; change (0 =? 0) with true; cbn [negb].

Lemma tx_roundtrip_plain allow tx rest :
  wf_tx allow tx -> allow && HasWitness tx = false ->
  UnserializeTransaction allow (SerializeTransaction allow tx ++ rest) = Some (strip_witness tx, rest).
Proof.
  intros (Hv & Hi & Ho & Hl & Hs & He) Hw. unfold SerializeTransaction, UnserializeTransaction.
  rewrite Hw. cbn [Z.eqb Z.land negb app]. rewrite <-!app_assoc.
  assert (Roundtrips (c_int 4) (wf_int 4)) as H4 by (apply c_int_roundtrips; lia).
  dec_step (c_int 4). erewrite rbind_step by (by apply dec_txins).
  destruct ((zlen (map strip_in (vin tx)) =? 0) && allow) eqn:Eg.
  - apply andb_true_iff in Eg as [Ez ->]. apply Z.eqb_eq, zlen_0_nil, map_eq_nil in Ez.
    rewrite (He eq_refl Ez), Ez. cbn [enc c_vector map concat app].
    change (WriteCompactSize (zlen (@nil CTxOut))) with (enc (c_uint 1) 0).
    rewrite app_nil_r. erewrite rbind_step by (dec_step (c_uint 1); reflexivity).
    rewrite_flags. dec_step (c_uint 4). unfold rret, strip_witness. by rewrite Ez, (He eq_refl Ez).
  - erewrite rbind_step by (dec_step (c_vector c_txout); reflexivity).
    rewrite_flags. dec_step (c_uint 4). done.
Qed.

Lemma HasWitness_nonempty tx : HasWitness tx = true -> vin tx <> [].
Proof. intros Hw E. by rewrite HasWitness_nil in Hw. Qed.

Lemma tx_roundtrip_witness tx rest :
  wf_tx true tx -> HasWitness tx = true ->
  UnserializeTransaction true (SerializeTransaction true tx ++ rest) = Some (tx, rest).
Proof.
  intros (Hv & Hi & Ho & Hl & Hs & He) Hw. unfold SerializeTransaction, UnserializeTransaction.
  rewrite Hw. change (Z.land 1 1) with 1. change (1 =? 0) with false. cbn [negb andb]. rewrite <-!app_assoc.
  assert (Roundtrips (c_int 4) (wf_int 4)) as H4 by (apply c_int_roundtrips; lia).
  dec_step (c_int 4). erewrite rbind_step by (apply (dec_txins []); by split).
  change ((zlen (map strip_in []) =? 0) && true) with true. cbv iota.
  erewrite rbind_step; last first.
  { dec_step (c_uint 1). change (1 =? 0) with false. cbn [negb].
    erewrite rbind_step by (by apply dec_txins). dec_step (c_vector c_txout). reflexivity. }
  cbv beta iota. change (Z.land 1 1 =? 0) with false. cbn [negb andb].
  erewrite rbind_step; last first.
  { erewrite rbind_step by (by apply read_witnesses_app). reflexivity. }
  cbv beta iota. change (Z.lxor 1 1 =? 0) with true. cbn [negb].
  dec_step (c_uint 4). unfold rret. by destruct tx.
Qed.

Lemma tx_roundtrip_full allow tx rest :
  wf_tx allow tx ->
  UnserializeTransaction allow (SerializeTransaction allow tx ++ rest)
  = Some (if allow then tx else strip_witness tx, rest).
Proof.
  intros Hw. destruct (allow && HasWitness tx) eqn:E.
  - apply andb_true_iff in E as [-> E]. by apply tx_roundtrip_witness.
  - rewrite tx_roundtrip_plain by done. destruct allow; [|done]. do 2 f_equal.
    simpl in E. unfold strip_witness. rewrite HasWitness_false by done. by destruct tx.
Qed.

Lemma SerializeTransaction_ok allow tx : wf_tx allow tx -> bytes_ok (SerializeTransaction allow tx).
Proof.
  intros (Hv & Hi & Ho & Hl & Hs & _). unfold SerializeTransaction, bytes_ok.
  assert (bytes_ok (enc (c_vector c_txin) (vin tx))) as Hins.
  { rewrite <-enc_txins_strip. by apply (enc_bytes (c := c_vector c_txin)), wf_txins_strip. }
  rewrite !Forall_app. split_and!; [apply le_bytes_ok| |done|..|apply le_bytes_ok].
  - destruct (negb _); [|constructor]. apply Forall_app. split; [by repeat constructor|apply le_bytes_ok].
  - by apply (enc_bytes (c := c_vector c_txout)).
  - destruct (negb _); [|constructor]. clear -Hs. induction Hs; simpl; [constructor|].
    apply Forall_app. split; [by apply (enc_bytes (c := c_stack))|done].
Qed.

#[global] Instance c_tx_roundtrips : Roundtrips (c_tx true) (wf_tx true).
Proof.
  split; [|apply SerializeTransaction_ok]. intros tx rest Hw.
  by apply (tx_roundtrip_full true).
Qed.

(** ** Headers and blocks *)
Definition wf_header (kt : Z) (h : CBlockHeader) : Prop :=
  wf_int 4 (hdr_nVersion h) /\ wf_blob 32 (hashPrevBlock h) /\ wf_blob 32 (hashMerkleRoot h) /\
  wf_uint 4 (nTime h) /\ wf_uint 4 (nBits h) /\
  if nTime h <? kt
  then wf_uint 4 (nNonce h) /\ hdr_nHeight h = 0 /\ nNonce64 h = 0 /\ mix_hash h = uint256_null
  else nNonce h = 0 /\ wf_uint 4 (hdr_nHeight h) /\ wf_uint 8 (nNonce64 h) /\ wf_blob 32 (mix_hash h).

#[global] Instance c_header_roundtrips kt : Roundtrips (c_header kt) (wf_header kt).
Proof.
  assert (Roundtrips (c_int 4) (wf_int 4)) as H4 by (apply c_int_roundtrips; lia).
  split; intros [v p r t b n hh n64 m]; [intros rest|]; intros (Hv & Hp & Hr & Ht & Hb & Hrest);
    cbn [dec enc c_header hdr_nVersion hashPrevBlock hashMerkleRoot nTime nBits nNonce hdr_nHeight
         nNonce64 mix_hash] in *; unfold SerializeHeader, UnserializeHeader; simpl nTime in *.
  - rewrite <-!app_assoc. dec_step (c_int 4). dec_step (c_blob 32). dec_step (c_blob 32).
    dec_step (c_uint 4). dec_step (c_uint 4). simpl nTime.
    destruct (t <? kt).
    + destruct Hrest as (Hn & -> & -> & ->). by dec_step (c_uint 4).
    + destruct Hrest as (-> & Hhh & Hn64 & Hm). rewrite <-!app_assoc.
      dec_step (c_uint 4). dec_step (c_uint 8). by dec_step (c_blob 32).
  - rewrite !bytes_ok_app. split_and!; try apply le_bytes_ok; [apply Hp|apply Hr|].
    destruct (t <? kt); [apply le_bytes_ok|]. rewrite !bytes_ok_app.
    split_and!; [apply le_bytes_ok..|apply Hrest].
Qed.

#[global] Instance c_block_roundtrips kt :
  Roundtrips (c_block kt true) (fun b => wf_header kt (block_header b) /\ wf_vector (wf_tx true) (vtx b)).
Proof. eapply c_map_roundtrips; [|apply _]. by intros [h t] [H1 H2]. Qed.

(** ** Output totals *)
Definition counted (fAreEnforcedValues : bool) (outs : list CTxOut) : list Z :=
  map nValue (List.filter (fun o => fAreEnforcedValues || negb (is_asset_script (scriptPubKey o))) outs).

Lemma MoneyRange_iff z : MoneyRange z = true <-> 0 <= z <= MAX_MONEY.
Proof. unfold MoneyRange. rewrite andb_true_iff, !Z.leb_le. done. Qed.

Lemma sumZ_nonneg l : Forall (fun z => 0 <= z) l -> 0 <= sumZ l.
Proof. induction 1; simpl; [done|]. unfold sumZ in *. simpl. lia. Qed.

(** The loop on the counted values alone. *)
Fixpoint sum_money (l : list Z) (acc : Z) : option Z :=
  match l with
  | [] => Some acc
  | v :: l' =>
      let acc := swrap 64 (acc + v) in
      if negb (MoneyRange v) || negb (MoneyRange acc) then None else sum_money l' acc
  end.

Lemma value_out_counted e outs acc : value_out e outs acc = sum_money (counted e outs) acc.
Proof.
  revert acc. induction outs as [|o outs IH]; intros acc; [done|].
  unfold counted in *. cbn [value_out List.filter]. destruct e; cbn [negb orb andb map sum_money].
  - by rewrite IH.
  - destruct (is_asset_script (scriptPubKey o)); cbn [negb map sum_money]; by rewrite IH.
Qed.

Lemma sum_money_spec l : forall acc,
  0 <= acc <= MAX_MONEY ->
  sum_money l acc = Some (acc + sumZ l) /\ Forall (fun z => 0 <= z) l /\ acc + sumZ l <= MAX_MONEY \/
  sum_money l acc = None /\ ~ (Forall (fun z => 0 <= z) l /\ acc + sumZ l <= MAX_MONEY).
Proof.
  induction l as [|v l IH]; intros acc Ha.
  { left. unfold sumZ. simpl. rewrite Z.add_0_r. split_and!; [done|constructor|lia]. }
  cbn [sum_money]. change (sumZ (v :: l)) with (v + sumZ l).
  destruct (MoneyRange v) eqn:Ev; cbn [negb orb].
  2: { right. split; [done|]. intros [Hf Hs]. inv Hf. apply not_true_iff_false in Ev. apply Ev.
       apply MoneyRange_iff. pose proof (sumZ_nonneg l ltac:(done)). lia. }
  apply MoneyRange_iff in Ev. unfold MAX_MONEY, COIN in *.
  rewrite swrap_small by lia. destruct (MoneyRange (acc + v)) eqn:Es; cbn [negb].
  - apply MoneyRange_iff in Es. unfold MAX_MONEY, COIN in *.
    destruct (IH (acc + v)) as [(E & Hf & Hs)|(E & Hn)]; [lia|left|right]; rewrite E.
    + split_and!; [f_equal; lia|constructor; [lia|done]|lia].
    + split; [done|]. intros [Hf Hs]. inv Hf. apply Hn. split; [done|lia].
  - right. split; [done|]. intros [Hf Hs]. inv Hf. apply not_true_iff_false in Es. apply Es.
    apply MoneyRange_iff. unfold MAX_MONEY, COIN. pose proof (sumZ_nonneg l ltac:(done)). lia.
Qed.

(** [GetValueOut] never returns a wrapped sum: it yields the exact total of
    the outputs it counts when none of them is negative and the total is at
    most [MAX_MONEY], and throws in every other case. *)
Lemma value_out_exact (e : bool) (tx : CTransaction) (v : Z) :
  GetValueOut e tx = Some v <->
  v = sumZ (counted e (vout tx)) /\ Forall (fun z => 0 <= z) (counted e (vout tx)) /\ v <= MAX_MONEY.
Proof.
  unfold GetValueOut. rewrite value_out_counted.
  destruct (sum_money_spec (counted e (vout tx)) 0) as [(E & Hf & Hs)|(E & Hn)];
    [unfold MAX_MONEY, COIN; lia|..]; rewrite E, ?Z.add_0_l in *.
  - split; [intros [= <-]; auto|intros (-> & _); done].
  - split; [done|]. intros (-> & Hf & Hs). exfalso. by apply Hn.
Qed.

(** Transactions survive the wire: reading a written transaction gives it
    back, with its witnesses in the extended format and without them in the
    basic one, and leaves exactly the bytes that follow; the transaction hash
    is the same with and without witnesses. *)
Lemma tx_serialization_roundtrip (fAllowWitness : bool) (tx : CTransaction) (rest : bytes) :
  wf_tx fAllowWitness tx ->
  UnserializeTransaction fAllowWitness (SerializeTransaction fAllowWitness tx ++ rest)
    = Some (if fAllowWitness then tx else strip_witness tx, rest) /\
  GetHash tx = GetHash (strip_witness tx).
Proof.
  intros Hw. split; [by apply tx_roundtrip_full|].
  unfold GetHash, SerializeTransaction, strip_witness. cbn [vin vout tx_nVersion nLockTime].
  by rewrite enc_txins_strip.
Qed.

Definition toy_tx : CTransaction :=
  mkTx 2 [mkTxIn (mkOutPoint (repeat 3 32) 1) [1; 2] SEQUENCE_FINAL [[9; 9]; []]]
    [mkTxOut 5000 [OP_RETURN]] 7.

Lemma tx_serialization_roundtrip_witness :
  UnserializeTransaction true (SerializeTransaction true toy_tx ++ [1]) = Some (toy_tx, [1]).
Proof.
  apply (tx_serialization_roundtrip true toy_tx [1]).
  unfold wf_tx. simpl. solve_concrete. discriminate.
Defined.

(** Blocks survive the wire: reading a written block gives the block back,
    for headers before and after the KAWPOW switch, and leaves the bytes that
    follow. *)
Lemma block_serialization_roundtrip (kt : Z) (b : CBlock) (rest : bytes) :
  wf_header kt (block_header b) -> wf_vector (wf_tx true) (vtx b) ->
  dec (c_block kt true) (enc (c_block kt true) b ++ rest) = Some (b, rest).
Proof. intros Hh Ht. by apply (dec_enc (c := c_block kt true)). Qed.

Definition toy_header : CBlockHeader :=
  mkHeader 4 (repeat 1 32) (repeat 2 32) 1789197400 0x207fffff 0 12 34 (repeat 5 32).

(** ** Relative lock times *)

(** The condition BIP 68 puts on one input whose coin was mined at height [h]. *)
Definition input_lock_met (mtp_at : Z -> Z) (nHeight mtp : Z) (p : CTxIn * Z) : Prop :=
  let '(i, h) := p in
  if negb (Z.land (nSequence i) SEQUENCE_LOCKTIME_DISABLE_FLAG =? 0) then True else
  if negb (Z.land (nSequence i) SEQUENCE_LOCKTIME_TYPE_FLAG =? 0)
  then mtp_at (Z.max (h - 1) 0) + Z.land (nSequence i) SEQUENCE_LOCKTIME_MASK * 512 <= mtp
  else h + Z.land (nSequence i) SEQUENCE_LOCKTIME_MASK <= nHeight.

Lemma sequence_locks_spec mtp_at nHeight mtp ins : forall acc hs,
  length hs = length ins ->
  let r := (sequence_locks mtp_at acc ins hs).1 in
  (r.1 < nHeight /\ r.2 < mtp) <->
  (acc.1 < nHeight /\ acc.2 < mtp) /\ Forall (input_lock_met mtp_at nHeight mtp) (zip ins hs).
Proof.
  induction ins as [|i ins IH]; intros acc hs Hl; destruct hs as [|h hs]; try discriminate Hl.
  { simpl. split; [by intros|by intros [? _]]. }
  injection Hl as Hl. cbn [sequence_locks zip_with]. rewrite Forall_cons. unfold sequence_lock_in.
  unfold input_lock_met at 1, SEQUENCE_LOCKTIME_GRANULARITY. rewrite Z.shiftl_mul_pow2 by lia.
  change (2 ^ 9) with 512.
  destruct (negb (Z.land (nSequence i) SEQUENCE_LOCKTIME_DISABLE_FLAG =? 0));
    [|destruct (negb (Z.land (nSequence i) SEQUENCE_LOCKTIME_TYPE_FLAG =? 0))];
    match goal with |- context [sequence_locks _ ?a _ _] => specialize (IH a hs Hl) end;
    destruct (sequence_locks _ _ _ _) as [r hs']; cbv zeta in *; cbn [fst snd] in *; rewrite IH;
    intuition lia.
Qed.

(** The running maximum of [CalculateSequenceLocks] decides exactly the
    conjunction of the inputs' own conditions: a transaction passes
    [SequenceLocks] when relative locks are not enforced on it, or when every
    input that carries a lock has waited its blocks or its 512-second units. *)
Lemma sequence_locks_iff (tx : CTransaction) (flags : Z) (prevHeights : list Z) (mtp_at : Z -> Z)
    (nHeight mtp : Z) :
  length prevHeights = length (vin tx) -> 0 <= nHeight -> 0 <= mtp ->
  SequenceLocks tx flags prevHeights mtp_at nHeight mtp = true <->
  (uwrap 32 (tx_nVersion tx) < 2 \/ Z.land flags LOCKTIME_VERIFY_SEQUENCE = 0 \/
   Forall (input_lock_met mtp_at nHeight mtp) (zip (vin tx) prevHeights)).
Proof.
  intros Hl Hh Hm. unfold SequenceLocks, EvaluateSequenceLocks, CalculateSequenceLocks.
  rewrite negb_true_iff, orb_false_iff, !Z.leb_gt.
  destruct (Z.leb_spec 2 (uwrap 32 (tx_nVersion tx))); cbn [andb negb fst snd].
  2: { split; [intros; by left|lia]. }
  destruct (Z.eqb_spec (Z.land flags LOCKTIME_VERIFY_SEQUENCE) 0); cbn [andb negb fst snd].
  { split; [intros; right; by left|lia]. }
  rewrite (sequence_locks_spec mtp_at nHeight mtp (vin tx) (-1, -1) prevHeights Hl). simpl.
  split; [intros [_ HF]; auto|]. intros [|[|HF]]; [lia|done|]. split; [lia|done].
Qed.
