(* ===== verification/Market.v ===== *)
(** * The marketplace book

    src/src/xmarket.cpp: the book of asks that peers gossip as [xord] messages,
    with its validation, replacement, eviction, pruning and rate limit. The
    coins of the tip are an argument; the asset layer's reading of a script and
    the script interpreter are parameters. *)

From S2P Require Import Prelude OrdMap Sha256 Script Serialize Slots Tx.

Local Open Scope Z_scope.

Definition MAX_ASKS : Z := 200.
Definition MAX_ASK_BYTES : Z := 20000.
Definition MAX_PUSH_ON_CONNECT : nat := 50.

(** The book: asks by transaction hash, and when each was listed. *)
Record Book := mkBook { mapAsks : omap bytes CTransaction; mapAskTime : omap bytes Z }.
Definition empty_book : Book := mkBook [] [].


(** The coins of the tip: the unspent output, if it is one. [None] in place of
    the whole view is the null [pcoinsTip]. *)
Definition CoinsView : Type := COutPoint -> option CTxOut.

(** The signature type is the last byte of the first push. *)
Definition ScriptSigIsSingleAnyoneCanPay (scriptSig : CScript) : bool :=
  match GetOp2 scriptSig with
  | None => false
  | Some op =>
      match last (op_data op) with
      | None => false
      | Some nHashType =>
          (Z.land nHashType (Z.lnot SIGHASH_ANYONECANPAY) =? SIGHASH_SINGLE) &&
          negb (Z.land nHashType SIGHASH_ANYONECANPAY =? 0)
      end
  end.

Definition erase_ask (b : Book) (hash : bytes) : Book :=
  mkBook (om_erase hash (mapAsks b)) (om_erase hash (mapAskTime b)).
Definition erase_asks (b : Book) (hashes : list bytes) : Book := fold_left erase_ask hashes b.

(** The first entry with the least time. *)
Fixpoint oldest_time (oldest : option (bytes * Z)) (times : omap bytes Z) : option (bytes * Z) :=
  match times with
  | [] => oldest
  | (h, t) :: times =>
      oldest_time (match oldest with
                   | Some (_, oldestTime) => if t <? oldestTime then Some (h, t) else oldest
                   | None => Some (h, t)
                   end) times
  end.

Definition DropOldestLocked (b : Book) : Book :=
  match mapAsks b with
  | [] => b
  | _ => match oldest_time None (mapAskTime b) with Some (h, _) => erase_ask b h | None => b end
  end.

(** [while (mapAsks.size() >= MAX_ASKS) DropOldestLocked();] — [None] when the
    fuel is used up. *)
Fixpoint make_room (fuel : nat) (b : Book) : option Book :=
  if zlen (mapAsks b) <? MAX_ASKS then Some b else
  match fuel with
  | O => None
  | S fuel => make_room fuel (DropOldestLocked b)
  end.

(** What is no longer on the chain: no input, or the listed output is spent. *)
Definition ask_dead (view : CoinsView) (tx : CTransaction) : bool :=
  match vin tx with
  | [] => true
  | i :: _ => match view (prevout i) with Some _ => false | None => true end
  end.
Definition dead_asks (view : CoinsView) (asks : omap bytes CTransaction) : list bytes :=
  om_keys (filter (fun kv => ask_dead view kv.2 = true) asks).
Definition PruneSpent (coins : option CoinsView) (b : Book) : Book :=
  match coins with
  | None => b
  | Some view => erase_asks b (dead_asks view (mapAsks b))
  end.

Section Market.
(** Name and amount of the asset a script moves, when it is an asset script. *)
Variable GetAssetInfoFromScript : CScript -> option (bytes * Z).
(** [VerifyScript] of the first input against the output it spends. *)
Variable VerifyScript : CTransaction -> CTxOut -> bool.

Definition owner_token (strAsset : bytes) : bool :=
  existsb (Z.eqb 126) strAsset || match last strAsset with Some c => c =? 33 | None => false end.

(** The asset, its amount and the price, or what is wrong. *)
Definition ValidateAsk (coins : option CoinsView) (tx : CTransaction) : result (bytes * Z * Z) string :=
  match vin tx, vout tx with
  | [i], [pay] =>
      if MAX_ASK_BYTES <? zlen (SerializeTransaction true tx) then Err "Listing is too large."%string else
      if nValue pay <=? 0 then Err "Price must be XFER in the first output."%string else
      match GetAssetInfoFromScript (scriptPubKey pay) with
      | Some _ => Err "Price output cannot be an asset."%string
      | None =>
          if (zlen (scriptSig i) =? 0) || negb (ScriptSigIsSingleAnyoneCanPay (scriptSig i))
          then Err "Listing must be signed SINGLE|ANYONECANPAY so a buyer can complete it."%string else
          match coins with
          | None => Err "Chain is not ready."%string
          | Some view =>
              match view (prevout i) with
              | None => Err "That asset output is already spent."%string
              | Some coin =>
                  match GetAssetInfoFromScript (scriptPubKey coin) with
                  | None => Err "First input must be an asset."%string
                  | Some (strAsset, nAmount) =>
                      if (zlen strAsset =? 0) || (nAmount <=? 0) then Err "First input must be an asset."%string else
                      if owner_token strAsset then Err "Owner tokens cannot be listed."%string else
                      if negb (VerifyScript tx coin) then Err "Listing signature is not valid."%string else
                      Ok (strAsset, nAmount, nValue pay)
                  end
              end
          end
      end
  | _, _ => Err "Listing must spend one asset output and pay XFER in a single first output."%string
  end.

(** The asks that list the same output. *)
Definition lists (listed : COutPoint) (tx : CTransaction) : bool :=
  match vin tx with i :: _ => outpoint_eqb (prevout i) listed | [] => false end.
Definition same_listing (listed : COutPoint) (asks : omap bytes CTransaction) : list bytes :=
  om_keys (filter (fun kv => lists listed kv.2 = true) asks).

(** The verdict and the book; [None] is the loop that makes room not ending. *)
Definition AcceptAsk (coins : option CoinsView) (now : Z) (tx : CTransaction) (b : Book)
    : option (result unit string * Book) :=
  let b := PruneSpent coins b in
  match ValidateAsk coins tx with
  | Err e => Some (Err e, b)
  | Ok _ =>
      let hash := GetHash tx in
      let b := match vin tx with i :: _ => erase_asks b (same_listing (prevout i) (mapAsks b)) | [] => b end in
      if om_mem hash (mapAsks b) then Some (Ok tt, b) else
      match make_room (length (mapAsks b)) b with
      | None => None
      | Some b => Some (Ok tt, mkBook (om_insert hash tx (mapAsks b)) (om_insert hash now (mapAskTime b)))
      end
  end.

Definition RemoveAsk (b : Book) (hash : bytes) : Book := erase_ask b hash.
Definition GetAsk (b : Book) (hash : bytes) : option CTransaction := om_find hash (mapAsks b).
Definition ListAsks (coins : option CoinsView) (b : Book) : list CTransaction * Book :=
  let b := PruneSpent coins b in (map snd (mapAsks b), b).

(** ** Messages *)

(** The times of a peer's messages in the last minute. *)
Fixpoint pop_old (now : Z) (q : list Z) : list Z :=
  match q with
  | t :: q' => if 60 <? now - t then pop_old now q' else q
  | [] => []
  end.
Definition RateOk (now id : Z) (hits : omap Z (list Z)) : bool * omap Z (list Z) :=
  let q := pop_old now (default [] (om_find id hits)) in
  if 30 <=? zlen q then (false, om_insert id q hits) else (true, om_insert id (q ++ [now]) hits).

(** A connected peer, as the relay sees it. *)
Record peer := mkPeer { peer_id : Z; fSuccessfullyConnected : bool; fDisconnect : bool }.

Definition RelayAsk (peers : list peer) (pfrom : option Z) : list Z :=
  map peer_id (filter (fun p => negb (match pfrom with Some id => peer_id p =? id | None => false end) &&
                                fSuccessfullyConnected p && negb (fDisconnect p) = true) peers).

(** The asks pushed to a new peer. *)
Definition PushBook (coins : option CoinsView) (pto : peer) (b : Book) : list CTransaction * Book :=
  if negb (fSuccessfullyConnected pto) || fDisconnect pto then ([], b) else
  let '(asks, b) := ListAsks coins b in (take MAX_PUSH_ON_CONNECT asks, b).

(** The score charged, the book, the rates, and who the ask is relayed to. *)
Definition ProcessXord (coins : option CoinsView) (now : Z) (peers : list peer) (pfrom : Z) (vRecv : bytes)
    (b : Book) (hits : omap Z (list Z)) : option (Z * Book * omap Z (list Z) * list Z) :=
  if MAX_ASK_BYTES + 32 <? zlen vRecv then Some (20, b, hits, []) else
  let '(ok, hits) := RateOk now pfrom hits in
  if negb ok then Some (1, b, hits, []) else
  match UnserializeTransaction true vRecv with
  | None => Some (1, b, hits, [])
  | Some (tx, _) =>
      if MAX_ASK_BYTES <? zlen (SerializeTransaction true tx) then Some (20, b, hits, []) else
      let hash := GetHash tx in
      if om_mem hash (mapAsks b) then Some (0, b, hits, []) else
      match AcceptAsk coins now tx b with
      | None => None
      | Some (Err _, b) => Some (0, b, hits, [])
      | Some (Ok _, b) =>
          if om_mem hash (mapAsks b) then Some (0, b, hits, RelayAsk peers (Some pfrom)) else Some (0, b, hits, [])
      end
  end.

(** ** Runs *)

(** What happens to the book: messages, commands, and the listings the wallet
    asks for, each with the coins and the clock of the moment. *)
Inductive market_event :=
  | RecvXord (coins : option CoinsView) (now : Z) (peers : list peer) (pfrom : Z) (vRecv : bytes)
  | LocalAsk (coins : option CoinsView) (now : Z) (tx : CTransaction)
  | DropAsk (hash : bytes)
  | ShowBook (coins : option CoinsView).

Definition market_step (e : market_event) (s : Book * omap Z (list Z)) : option (Book * omap Z (list Z)) :=
  let '(b, hits) := s in
  match e with
  | RecvXord coins now peers pfrom vRecv =>
      match ProcessXord coins now peers pfrom vRecv b hits with
      | Some (_, b, hits, _) => Some (b, hits)
      | None => None
      end
  | LocalAsk coins now tx => match AcceptAsk coins now tx b with Some (_, b) => Some (b, hits) | None => None end
  | DropAsk hash => Some (RemoveAsk b hash, hits)
  | ShowBook coins => Some ((ListAsks coins b).2, hits)
  end.

Fixpoint market_run (es : list market_event) (s : Book * omap Z (list Z)) : option (Book * omap Z (list Z)) :=
  match es with
  | [] => Some s
  | e :: es => match market_step e s with Some s => market_run es s | None => None end
  end.
End Market.

(** ** The book's invariant *)

Section BookFacts.
Variable GetAssetInfoFromScript : CScript -> option (bytes * Z).
Variable VerifyScript : CTransaction -> CTxOut -> bool.

(** What validation leaves of a listing, whatever becomes of its coin. *)
Definition ask_ok (hash : bytes) (tx : CTransaction) : Prop :=
  GetHash tx = hash /\ zlen (SerializeTransaction true tx) <= MAX_ASK_BYTES /\
  exists i pay, vin tx = [i] /\ vout tx = [pay] /\ 0 < nValue pay /\
    GetAssetInfoFromScript (scriptPubKey pay) = None /\ ScriptSigIsSingleAnyoneCanPay (scriptSig i) = true.

Record book_ok (b : Book) : Prop := {
  bk_asks : om_wf (mapAsks b);
  bk_times : om_wf (mapAskTime b);
  bk_dom : forall h, is_Some (om_find h (mapAsks b)) <-> is_Some (om_find h (mapAskTime b));
  bk_size : zlen (mapAsks b) <= MAX_ASKS;
  bk_ask : forall h tx, om_find h (mapAsks b) = Some tx -> ask_ok h tx;
  bk_one : forall h h' tx tx' listed, om_find h (mapAsks b) = Some tx -> om_find h' (mapAsks b) = Some tx' ->
    lists listed tx = true -> lists listed tx' = true -> h = h';
}.

Lemma empty_book_ok : book_ok empty_book.
Proof. split; [apply om_wf_nil|apply om_wf_nil|by intros h; split; intros [? ?]|unfold zlen, MAX_ASKS; simpl; lia|done|done]. Qed.

Lemma erase_ask_ok b h : book_ok b -> book_ok (erase_ask b h).
Proof.
  intros [H1 H2 H3 H4 H5 H6]. split; unfold erase_ask; cbn [mapAsks mapAskTime].
  - by apply om_wf_erase.
  - by apply om_wf_erase.
  - intros h'. rewrite !om_find_erase. case_decide; [by split; intros [? ?]|apply H3].
  - unfold zlen in *. pose proof (om_erase_length_le h (mapAsks b)). lia.
  - intros h' tx. rewrite om_find_erase. case_decide; [done|apply H5].
  - intros h1 h2 tx tx' l. rewrite !om_find_erase. do 2 case_decide; try done. apply H6.
Qed.

Lemma erase_asks_ok hs : forall b, book_ok b -> book_ok (erase_asks b hs).
Proof. induction hs as [|h hs IH]; intros b Hb; [done|]. apply IH, erase_ask_ok, Hb. Qed.

Lemma find_erase_asks hs : forall b h,
  om_find h (mapAsks (erase_asks b hs)) = if decide (h ∈ hs) then None else om_find h (mapAsks b).
Proof.
  induction hs as [|h' hs IH]; intros b h; cbn [erase_asks fold_left].
  - by rewrite decide_False by apply not_elem_of_nil.
  - fold (erase_asks (erase_ask b h') hs). rewrite IH. unfold erase_ask at 1. cbn [mapAsks].
    rewrite om_find_erase. destruct (decide (h ∈ hs)) as [Hin|Hin]; [by rewrite decide_True by by right|].
    destruct (decide (h' = h)) as [->|Hne]; [by rewrite decide_True by left|].
    rewrite decide_False; [done|]. intros [->|?]%elem_of_cons; done.
Qed.

Lemma in_filter_keys (P : CTransaction -> bool) (m : omap bytes CTransaction) h :
  om_wf m -> h ∈ om_keys (filter (fun kv => P kv.2 = true) m) <-> exists tx, om_find h m = Some tx /\ P tx = true.
Proof.
  intros Hw. rewrite om_keys_in. split.
  - intros [tx Hin]. apply list_elem_of_filter in Hin as [HP Hin]. exists tx. split; [by apply om_in_find|done].
  - intros (tx & Hf & HP). exists tx. apply list_elem_of_filter. split; [done|by apply om_find_Some_in].
Qed.

(** [PruneSpent] keeps exactly the asks whose output is unspent. *)
Lemma PruneSpent_find coins b h tx : book_ok b ->
  om_find h (mapAsks (PruneSpent coins b)) = Some tx <->
  om_find h (mapAsks b) = Some tx /\ match coins with Some view => ask_dead view tx = false | None => True end.
Proof.
  intros Hb. destruct coins as [view|]; [|by split; [|intros []]]. unfold PruneSpent. rewrite find_erase_asks.
  pose proof (in_filter_keys (ask_dead view) (mapAsks b) h (bk_asks _ Hb)) as Hin. fold (dead_asks view (mapAsks b)) in Hin.
  case_decide as Hd.
  - apply Hin in Hd as (tx' & Hf & HP). split; [done|]. intros [Hf' HP']. congruence.
  - split; [|by intros []]. intros Hf. split; [done|]. apply not_true_is_false. intros HP. apply Hd, Hin. by exists tx.
Qed.

Lemma PruneSpent_ok coins b : book_ok b -> book_ok (PruneSpent coins b).
Proof. intros Hb. destruct coins; [by apply erase_asks_ok|done]. Qed.

(** ** Eviction *)
Lemma oldest_time_spec times : forall o,
  match oldest_time o times with
  | Some (h, t) => ((h, t) ∈ times \/ o = Some (h, t)) /\ (forall h' t', (h', t') ∈ times \/ o = Some (h', t') -> t <= t')
  | None => times = [] /\ o = None
  end.
Proof.
  induction times as [|[h t] times IH]; intros o; cbn [oldest_time].
  - destruct o as [[h t]|]; [|done]. split; [by right|]. intros h' t' [Hin|[= -> ->]]; [by apply not_elem_of_nil in Hin|lia].
  - set (o' := match o with Some _ => _ | None => _ end).
    assert (exists h' t', o' = Some (h', t') /\ ((h', t') = (h, t) \/ o = Some (h', t')) /\ t' <= t /\
            forall h2 t2, o = Some (h2, t2) -> t' <= t2) as (h1 & t1 & -> & Ho & Hle & Hmin).
    { subst o'. destruct o as [[h0 t0]|]; [destruct (Z.ltb_spec t t0)|].
      - exists h, t. split_and!; [done|by left|lia|]. intros ? ? [= <- <-]. lia.
      - exists h0, t0. split_and!; [done|by right|lia|]. intros ? ? [= <- <-]. lia.
      - exists h, t. by split_and!; [done|left|lia|]. }
    specialize (IH (Some (h1, t1))). destruct (oldest_time _ _) as [[h2 t2]|]; [|by destruct IH].
    destruct IH as [Hin Hm]. pose proof (Hm h1 t1 ltac:(by right)). split.
    + destruct Hin as [Hin|[= -> ->]]; [left; by right|]. destruct Ho as [[= -> ->]|Ho]; [left; left|by right].
    + intros h' t' [Hin'|Ho']; [|by specialize (Hmin _ _ Ho'); lia].
      apply elem_of_cons in Hin' as [[= -> ->]|Hin']; [lia|]. apply (Hm h'). by left.
Qed.

(** One eviction takes out the ask listed first. *)
Lemma DropOldest_spec b : book_ok b -> mapAsks b <> [] ->
  exists h t, om_find h (mapAskTime b) = Some t /\ is_Some (om_find h (mapAsks b)) /\
    (forall h' t', om_find h' (mapAskTime b) = Some t' -> t <= t') /\ DropOldestLocked b = erase_ask b h.
Proof.
  intros Hb Hne. unfold DropOldestLocked. destruct (mapAsks b) as [|[k tx] l] eqn:E; [done|].
  pose proof (oldest_time_spec (mapAskTime b) None) as Ho. destruct (oldest_time None _) as [[h t]|].
  - destruct Ho as [[Hin|] Hmin]; [|done]. exists h, t.
    assert (om_find h (mapAskTime b) = Some t) as Hf by (by apply om_in_find; [apply Hb|]).
    split_and!; [done| | |done].
    + rewrite <-E. by apply (bk_dom _ Hb).
    + intros h' t' Hf'. apply (Hmin h'). left. by apply om_find_Some_in.
  - destruct Ho as [Hn _]. pose proof (proj1 (bk_dom _ Hb k)) as Hd. rewrite E, Hn in Hd. simpl in Hd.
    rewrite decide_True in Hd by done. by destruct Hd.
Qed.

(** The loop ends: what it leaves out is older than what it keeps. *)
Definition evicted_older (b b' : Book) : Prop :=
  (forall h tx, om_find h (mapAsks b') = Some tx -> om_find h (mapAsks b) = Some tx) /\
  (forall h t, om_find h (mapAskTime b') = Some t -> om_find h (mapAskTime b) = Some t) /\
  forall h h' t t', om_find h (mapAskTime b) = Some t -> om_find h (mapAskTime b') = None ->
    om_find h' (mapAskTime b') = Some t' -> t <= t'.

Lemma evicted_older_refl b : evicted_older b b.
Proof. split; [done|]. split; [done|]. intros; congruence. Qed.

Lemma make_room_spec fuel : forall b, book_ok b -> (length (mapAsks b) <= fuel)%nat ->
  exists b', make_room fuel b = Some b' /\ book_ok b' /\
    zlen (mapAsks b') = Z.min (zlen (mapAsks b)) (MAX_ASKS - 1) /\ evicted_older b b'.
Proof.
  induction fuel as [|fuel IH]; intros b Hb Hf; cbn [make_room];
    (destruct (Z.ltb_spec (zlen (mapAsks b)) MAX_ASKS) as [Hlt|Hge];
      [exists b; split_and!; [done|done|lia|apply evicted_older_refl]|]).
  - unfold zlen, MAX_ASKS in Hge. lia.
  - assert (mapAsks b <> []) as Hne by (intros E; rewrite E in Hge; unfold zlen, MAX_ASKS in Hge; simpl in Hge; lia).
    destruct (DropOldest_spec b Hb Hne) as (h & t & Ht & Hs & Hmin & ->).
    assert (S (length (mapAsks (erase_ask b h))) = length (mapAsks b)) as Hl
      by (unfold erase_ask; cbn [mapAsks]; apply om_erase_length_eq; [apply Hb|done]).
    destruct (IH (erase_ask b h)) as (b' & E & Hb' & Hz & He1 & He2 & He3); [by apply erase_ask_ok|lia|].
    exists b'. unfold evicted_older. split_and!; [done|done|unfold zlen in *; lia|..].
    + intros h1 tx H1. specialize (He1 h1 tx H1). unfold erase_ask in He1. cbn [mapAsks] in He1.
      rewrite om_find_erase in He1. by case_decide.
    + intros h1 t1 H1. specialize (He2 h1 t1 H1). unfold erase_ask in He2. cbn [mapAskTime] in He2.
      rewrite om_find_erase in He2. by case_decide.
    + intros h1 h2 t1 t2 H1 H2 H3. destruct (decide (h = h1)) as [<-|Hne1].
      * assert (t1 = t) as -> by congruence. apply (Hmin h2). specialize (He2 h2 t2 H3). unfold erase_ask in He2.
        cbn [mapAskTime] in He2. rewrite om_find_erase in He2. by case_decide.
      * apply (He3 h1 h2); [|done..]. unfold erase_ask. cbn [mapAskTime]. rewrite om_find_erase. by case_decide.
Qed.

(** ** Accepting *)
Lemma ValidateAsk_ok coins tx r : ValidateAsk GetAssetInfoFromScript VerifyScript coins tx = Ok r ->
  ask_ok (GetHash tx) tx /\
  exists view i coin, coins = Some view /\ vin tx = [i] /\ view (prevout i) = Some coin /\
    r.2 = match vout tx with pay :: _ => nValue pay | [] => 0 end /\
    GetAssetInfoFromScript (scriptPubKey coin) = Some r.1 /\ VerifyScript tx coin = true.
Proof.
  unfold ValidateAsk. destruct (vin tx) as [|i [|]] eqn:Ei; try done. destruct (vout tx) as [|pay [|]] eqn:Eo; try done.
  destruct (Z.ltb_spec MAX_ASK_BYTES (zlen (SerializeTransaction true tx))); [done|].
  destruct (Z.leb_spec (nValue pay) 0); [done|]. destruct (GetAssetInfoFromScript (scriptPubKey pay)) eqn:Ep; [done|].
  destruct (ScriptSigIsSingleAnyoneCanPay (scriptSig i)) eqn:Es; [|by rewrite orb_true_r].
  destruct (_ || _); [done|]. destruct coins as [view|]; [|done]. destruct (view (prevout i)) as [coin|] eqn:Ev; [|done].
  destruct (GetAssetInfoFromScript (scriptPubKey coin)) as [[name amount]|] eqn:Ea; [|done].
  destruct (_ || _); [done|]. destruct (owner_token name); [done|].
  destruct (VerifyScript tx coin) eqn:Eval; cbn [negb]; [|done]. intros [= <-].
  split; [split_and!; [done|lia|by exists i, pay]|]. by exists view, i, coin.
Qed.

Lemma insert_ask_ok b tx now :
  book_ok b -> zlen (mapAsks b) < MAX_ASKS -> ask_ok (GetHash tx) tx ->
  om_find (GetHash tx) (mapAsks b) = None ->
  (forall h tx' listed, om_find h (mapAsks b) = Some tx' -> lists listed tx = true -> lists listed tx' = false) ->
  book_ok (mkBook (om_insert (GetHash tx) tx (mapAsks b)) (om_insert (GetHash tx) now (mapAskTime b))).
Proof.
  intros [H1 H2 H3 H4 H5 H6] Hsz Hok Hn Hl. split; cbn [mapAsks mapAskTime].
  - by apply om_wf_insert.
  - by apply om_wf_insert.
  - intros h. rewrite !om_find_insert. case_decide; [done|apply H3].
  - unfold zlen in *. rewrite om_insert_length_ne by done. lia.
  - intros h tx'. rewrite om_find_insert. case_decide; [|apply H5]. by intros [= <-]; subst.
  - intros h h' t t' l. rewrite !om_find_insert. do 2 case_decide; subst; try congruence.
    + intros [= <-] Hf Ht Ht'. by rewrite (Hl _ _ _ Hf Ht) in Ht'.
    + intros Hf [= <-] Ht Ht'. by rewrite (Hl _ _ _ Hf Ht') in Ht.
    + apply H6.
Qed.

Abbreviation validate := (ValidateAsk GetAssetInfoFromScript VerifyScript).
Abbreviation accept := (AcceptAsk GetAssetInfoFromScript VerifyScript).

(** The asks other than [tx] in [b'] were in [b], still unspent, and list
    something else. *)
Definition others_kept (coins : option CoinsView) (tx : CTransaction) (b b' : Book) : Prop :=
  forall h tx', h <> GetHash tx -> om_find h (mapAsks b') = Some tx' ->
    om_find h (mapAsks b) = Some tx' /\ (forall listed, lists listed tx = true -> lists listed tx' = false) /\
    match coins with Some view => ask_dead view tx' = false | None => True end.

(** A listed transaction with the hash of [tx] that spends something else. *)
Definition hash_clash (tx : CTransaction) (b : Book) : Prop :=
  exists tx', om_find (GetHash tx) (mapAsks b) = Some tx' /\
    forall listed, lists listed tx = true -> lists listed tx' = false.

Lemma AcceptAsk_spec coins now tx b : book_ok b ->
  exists res b', accept coins now tx b = Some (res, b') /\ book_ok b' /\
    match res with
    | Err e => validate coins tx = Err e /\ b' = PruneSpent coins b
    | Ok _ => is_ok (validate coins tx) = true /\ others_kept coins tx b b' /\
              (~ hash_clash tx b -> om_find (GetHash tx) (mapAsks b') = Some tx /\
                                    om_find (GetHash tx) (mapAskTime b') = Some now)
    end.
Proof.
  intros Hb. unfold AcceptAsk. set (b1 := PruneSpent coins b). assert (book_ok b1) as Hb1 by by apply PruneSpent_ok.
  destruct (validate coins tx) as [r|e] eqn:Ev; [|by exists (Err e), b1].
  destruct (ValidateAsk_ok coins tx r Ev) as (Hok & view & i & coin & -> & Hi & _). rewrite Hi.
  set (b2 := erase_asks b1 _). assert (book_ok b2) as Hb2 by by apply erase_asks_ok.
  assert (Hlist : forall listed, lists listed tx = true -> listed = prevout i).
  { intros listed. unfold lists. rewrite Hi. by intros ->%outpoint_eqb_eq. }
  assert (Hf2 : forall h tx', om_find h (mapAsks b2) = Some tx' ->
    om_find h (mapAsks b) = Some tx' /\ (forall listed, lists listed tx = true -> lists listed tx' = false) /\
    ask_dead view tx' = false).
  { intros h tx'. subst b2. rewrite find_erase_asks. case_decide as Hd; [done|]. intros Hf.
    pose proof (proj1 (PruneSpent_find (Some view) b h tx' Hb) Hf) as [Hf' Hu]. split_and!; [done| |done].
    intros listed ->%Hlist. apply not_true_is_false. intros Hl. apply Hd, in_filter_keys; [apply Hb1|by exists tx']. }
  unfold om_mem. destruct (om_find (GetHash tx) (mapAsks b2)) as [tx'|] eqn:Eh.
  - exists (Ok tt), b2. split; [done|]. split; [done|]. split; [done|]. split; [by intros h t _ Hf; apply Hf2|].
    intros []. exists tx'. destruct (Hf2 _ _ Eh) as (Hf & Hl & _). by split.
  - destruct (make_room_spec (length (mapAsks b2)) b2 Hb2) as (b3 & -> & Hb3 & Hz & Hsub & _); [done|].
    eexists (Ok tt), _. split; [done|]. split.
    + apply insert_ask_ok; [done|unfold MAX_ASKS in *; lia|done| |].
      * destruct (om_find _ (mapAsks b3)) eqn:E; [|done]. apply Hsub in E. congruence.
      * intros h t l Hf Hl. apply Hsub in Hf. by apply (Hf2 h t Hf).
    + split; [done|]. cbn [mapAsks mapAskTime]. split.
      * intros h t Hne. cbn [mapAsks]. rewrite om_find_insert_ne by done. intros Hf%Hsub. by apply Hf2.
      * by rewrite !om_find_insert_eq.
Qed.

Abbreviation process := (ProcessXord GetAssetInfoFromScript VerifyScript).

(** A message never gets the handler stuck, and keeps the book. *)
Lemma ProcessXord_ok coins now peers pfrom vRecv b hits : book_ok b ->
  exists score b' hits' relay, process coins now peers pfrom vRecv b hits = Some (score, b', hits', relay) /\ book_ok b'.
Proof.
  intros Hb. unfold ProcessXord. destruct (_ <? _); [eauto 10|]. destruct (RateOk _ _ _) as [[] hits']; cbn [negb]; [|eauto 10].
  destruct (UnserializeTransaction _ _) as [[tx rest]|]; [|eauto 10]. destruct (_ <? _); [eauto 10|].
  destruct (om_mem _ _); [eauto 10|].
  destruct (AcceptAsk_spec coins now tx b Hb) as (res & b' & -> & Hb' & _). destruct res; [|eauto 10].
  destruct (om_mem _ _); eauto 10.
Qed.

Lemma market_step_ok e b hits : book_ok b ->
  exists b' hits', market_step GetAssetInfoFromScript VerifyScript e (b, hits) = Some (b', hits') /\ book_ok b'.
Proof.
  intros Hb. destruct e as [coins now peers pfrom vRecv|coins now tx|hash|coins]; cbn [market_step].
  - destruct (ProcessXord_ok coins now peers pfrom vRecv b hits Hb) as (sc & b' & hits' & rl & -> & Hb'). eauto.
  - destruct (AcceptAsk_spec coins now tx b Hb) as (res & b' & -> & Hb' & _). eauto.
  - eexists _, _. split; [done|]. by apply erase_ask_ok.
  - eexists _, _. split; [done|]. by apply PruneSpent_ok.
Qed.

Lemma market_run_ok es : forall b hits, book_ok b ->
  exists b' hits', market_run GetAssetInfoFromScript VerifyScript es (b, hits) = Some (b', hits') /\ book_ok b'.
Proof.
  induction es as [|e es IH]; intros b hits Hb; cbn [market_run]; [eauto|].
  destruct (market_step_ok e b hits Hb) as (b1 & hits1 & -> & Hb1). by apply IH.
Qed.
End BookFacts.

(** C31. The order book in every run. Whatever messages, listings, removals and
    coins come, every handler returns, and the book stays consistent: both maps
    have the same keys, at most [MAX_ASKS] of them, each the hash of its
    transaction; every ask has one input signed SINGLE|ANYONECANPAY and one
    output that pays a positive price and is not an asset; and no output is
    listed twice. A valid ask is then listed in place of the old one for its
    output, at the cost of no other ask but the oldest of a full book, as long
    as no listed transaction with the same hash spends something else. Every
    ask that [ListAsks] returns is unspent. *)
Theorem ask_book_invariant (GetAssetInfoFromScript : CScript -> option (bytes * Z))
    (VerifyScript : CTransaction -> CTxOut -> bool) (es : list market_event) :
  exists b hits, market_run GetAssetInfoFromScript VerifyScript es (empty_book, []) = Some (b, hits) /\
    book_ok GetAssetInfoFromScript b /\
    (forall coins now tx,
       is_ok (ValidateAsk GetAssetInfoFromScript VerifyScript coins tx) = true -> ~ hash_clash tx b ->
       exists b', AcceptAsk GetAssetInfoFromScript VerifyScript coins now tx b = Some (Ok tt, b') /\
         GetAsk b' (GetHash tx) = Some tx /\ others_kept coins tx b b') /\
    forall view, Forall (fun tx => ask_dead view tx = false) (ListAsks (Some view) b).1.
Proof.
  destruct (market_run_ok GetAssetInfoFromScript VerifyScript es empty_book []) as (b & hits & E & Hb);
    [apply empty_book_ok|].
  exists b, hits. split; [done|]. split; [done|]. split.
  - intros coins now tx Hv Hc.
    destruct (AcceptAsk_spec GetAssetInfoFromScript VerifyScript coins now tx b Hb) as (res & b' & E' & _ & Hres).
    destruct res as [[]|e]; [|by destruct Hres as [Hres _]; rewrite Hres in Hv].
    destruct Hres as (_ & Hk & Hl). exists b'. split; [done|]. split; [by apply Hl|done].
  - intros view. unfold ListAsks. cbn [fst]. apply Forall_forall. intros tx Hin.
    apply list_elem_of_fmap in Hin as ([h tx'] & -> & Hin). cbn [snd].
    assert (om_find h (mapAsks (PruneSpent (Some view) b)) = Some tx') as Hf
      by (apply om_in_find; [apply (PruneSpent_ok GetAssetInfoFromScript (Some view) b Hb)|done]).
    by apply (PruneSpent_find GetAssetInfoFromScript (Some view) b h tx' Hb) in Hf as [_ ?].
Qed.

(** C39. Making room ends. On a consistent book the loop
    [while (mapAsks.size() >= MAX_ASKS) DropOldestLocked()] ends after at most as
    many turns as there are asks; it leaves a consistent book with room for one
    more, drops no more asks than that needs, and everything it drops was
    listed no later than anything it keeps. *)
Theorem make_room_terminates (GetAssetInfoFromScript : CScript -> option (bytes * Z)) (b : Book) :
  book_ok GetAssetInfoFromScript b ->
  exists b', make_room (length (mapAsks b)) b = Some b' /\ book_ok GetAssetInfoFromScript b' /\
    zlen (mapAsks b') = Z.min (zlen (mapAsks b)) (MAX_ASKS - 1) /\ evicted_older b b'.
Proof. intros Hb. by apply make_room_spec. Qed.

(** ** The rate limit *)

(** The calls of [RateOk] that it let through, in order. *)
Fixpoint rate_run (calls : list (Z * Z)) (hits : omap Z (list Z)) : list (Z * Z) :=
  match calls with
  | [] => []
  | (now, id) :: calls =>
      let '(ok, hits) := RateOk now id hits in
      if ok then (now, id) :: rate_run calls hits else rate_run calls hits
  end.

Lemma pop_old_spec now q : exists old, q = old ++ pop_old now q /\ Forall (fun t => 60 < now - t) old.
Proof.
  induction q as [|t q (old & E & Hf)]; [by exists []|]. cbn [pop_old]. destruct (Z.ltb_spec 60 (now - t)).
  - exists (t :: old). split; [simpl; congruence|by constructor].
  - by exists [].
Qed.

(** Thirty apart, more than a minute apart. *)
Definition spaced (l : list Z) : Prop :=
  forall i a c, l !! i = Some a -> l !! (i + 30)%nat = Some c -> 60 < c - a.

(** [past] are the accepted times of a peer, of which the queue is the end; what
    left the queue is over a minute old. *)
Definition queue_ok (now : Z) (past q : list Z) : Prop :=
  spaced past /\ exists old, past = old ++ q /\ Forall (fun t => 60 < now - t) old.

Lemma queue_ok_later now now' past q : now <= now' -> queue_ok now past q -> queue_ok now' past q.
Proof.
  intros Hle (Hs & old & E & Hf). split; [done|]. exists old. split; [done|].
  eapply Forall_impl; [exact Hf|]. intros t Ht. cbv beta in Ht. lia.
Qed.

Lemma queue_ok_pop now past q : queue_ok now past q -> queue_ok now past (pop_old now q).
Proof.
  intros (Hs & old & -> & Hf). split; [done|]. destruct (pop_old_spec now q) as (old' & E & Hf').
  exists (old ++ old'). split; [rewrite E at 1; by rewrite app_assoc|]. by apply Forall_app.
Qed.

Lemma queue_ok_push now past q : queue_ok now past q -> zlen q < 30 -> queue_ok now (past ++ [now]) (q ++ [now]).
Proof.
  intros (Hs & old & -> & Hf) Hl. split; [|exists old; by rewrite app_assoc].
  intros i a c Ha Hc. destruct (decide (i + 30 < length (old ++ q))%nat) as [Hi|Hi].
  - rewrite lookup_app_l in Hc by done. rewrite lookup_app_l in Ha by lia. by apply (Hs i).
  - assert (length (old ++ q) = i + 30)%nat as El.
    { apply lookup_lt_Some in Hc. rewrite length_app in Hc. simpl in Hc. lia. }
    assert (c = now) as -> by (rewrite <-El, list_lookup_middle in Hc; [congruence|done]).
    unfold zlen in Hl. rewrite length_app in El. rewrite <-app_assoc, lookup_app_l in Ha by lia.
    rewrite Forall_lookup in Hf. by apply (Hf i).
Qed.

Lemma rate_run_spaced id calls : forall past hits now,
  StronglySorted Z.le (now :: map fst calls) -> queue_ok now past (default [] (om_find id hits)) ->
  spaced (past ++ map fst (filter (fun c => c.2 = id) (rate_run calls hits))).
Proof.
  induction calls as [|[t id'] calls IH]; intros past hits now Hs Hq.
  - cbn. rewrite app_nil_r. apply Hq.
  - cbn [map fst] in Hs. apply StronglySorted_inv in Hs as [Hs Hf]. inv Hf.
    assert (queue_ok t past (pop_old t (default [] (om_find id hits)))) as Hq' by (by eapply queue_ok_pop, queue_ok_later).
    assert (queue_ok t past (default [] (om_find id hits))) as Hq'' by (by eapply queue_ok_later).
    cbn [rate_run]. unfold RateOk. destruct (Z.leb_spec 30 (zlen (pop_old t (default [] (om_find id' hits))))).
    + apply (IH past _ t); [done|]. rewrite om_find_insert. case_decide; [by subst|done].
    + rewrite filter_cons. cbn [snd]. case_decide as Hid.
      * subst id'. cbn [map fst]. change (t :: ?l) with ([t] ++ l). rewrite app_assoc. apply (IH _ _ t); [done|].
        rewrite om_find_insert_eq. by apply queue_ok_push.
      * apply (IH past _ t); [done|]. by rewrite om_find_insert_ne.
Qed.

(** The rate limit holds. While the clock does not go back, of the [xord]
    messages of one peer that [RateOk] lets through, any two that are thirty
    apart are more than a minute apart, whatever other peers do in between: at
    most thirty in any minute. *)
Lemma xord_rate_limit (calls : list (Z * Z)) (id : Z) :
  StronglySorted Z.le (map fst calls) ->
  spaced (map fst (filter (fun c => c.2 = id) (rate_run calls []))).
Proof.
  intros Hs. destruct calls as [|[t id'] calls]; [by intros i ? ? ?|].
  apply (rate_run_spaced id ((t, id') :: calls) [] [] t); [|by split; [|exists []]].
  cbn [map fst] in *. constructor; [done|]. apply StronglySorted_inv in Hs as [_ Hf]. by constructor.
Qed.

(** ** A full book *)
Definition toy_asset (s : CScript) : option (bytes * Z) := match s with 1 :: _ => Some (bs "A", 1) | _ => None end.
Definition toy_ask (k : Z) : CTransaction :=
  mkTx 2 [mkTxIn (mkOutPoint (repeat k 32) 0) [1; 0x83] SEQUENCE_FINAL []] [mkTxOut 5 [OP_RETURN]] 0.
Definition toy_asks : list market_event :=
  map (fun k => LocalAsk (Some (fun _ => Some (mkTxOut 0 [1]))) (1000 + Z.of_nat k) (toy_ask (Z.of_nat k))) (seq 0 200).
Definition book_of (s : option (Book * omap Z (list Z))) : Book :=
  match s with Some (b, _) => b | None => empty_book end.
Definition toy_full_book : Book := book_of (market_run toy_asset (fun _ _ => true) toy_asks (empty_book, [])).

Lemma make_room_terminates_witness :
  exists b', make_room (length (mapAsks toy_full_book)) toy_full_book = Some b' /\ zlen (mapAsks b') = 199.
Proof.
  assert (zlen (mapAsks toy_full_book) = 200) as E by (vm_compute; reflexivity).
  destruct (make_room_terminates toy_asset toy_full_book) as (b' & E' & _ & Hz & _).
  - unfold toy_full_book. destruct (market_run_ok toy_asset (fun _ _ => true) toy_asks empty_book [])
      as (b & hits & -> & Hb); [apply empty_book_ok|exact Hb].
  - exists b'. split; [exact E'|]. rewrite Hz, E. reflexivity.
Defined.

Lemma seq_sorted n : forall m, StronglySorted Z.le (map Z.of_nat (seq m n)).
Proof.
  induction n as [|n IH]; intros m; cbn [seq map]; constructor; [apply IH|].
  apply Forall_forall. intros z Hz. apply list_elem_of_fmap in Hz as (k & -> & Hk). apply elem_of_seq in Hk. lia.
Qed.
