(* ===== verification/Merkle.v ===== *)
(** * Merkle trees

    [MerkleComputation] of src/src/consensus/merkle.cpp, the constant-space
    loop that yields the root, the branch of one leaf and the flag for repeated
    subtrees, with its callers. The specification builds the tree level by
    level, repeating the last hash of an odd level. *)

From S2P Require Import Prelude Sha256 Serialize Tx.

Local Open Scope Z_scope.

(** ** The computation *)

(** [count & (((uint32_t)1) << level)]. *)
Definition bit_set (count : Z) (level : nat) : bool :=
  negb (Z.land count (Z.shiftl 1 (Z.of_nat level)) =? 0).

Record mstate := mkM {
  inner : list bytes;
  mutated : bool;
  matchlevel : Z;
  pbranch : list bytes;
}.

Section Computation.
(** The combination of two hashes. *)
Variable node : bytes -> bytes -> bytes.
(** Whether the caller asks for the branch. *)
Variable want : bool.

(** The branch bookkeeping before [inner[level]] and [h] are combined. *)
Definition note_pair (level : nat) (h : bytes) (matchh : bool) (st : mstate) : bool * list bytes :=
  if want then
    if matchh then (matchh, pbranch st ++ [nth level (inner st) uint256_null])
    else if matchlevel st =? Z.of_nat level then (true, pbranch st ++ [h])
    else (matchh, pbranch st)
  else (matchh, pbranch st).

(** The loops over the zero bits of [count] from [level] on. The one over the
    leaves also records equal pairs ([track]). *)
Fixpoint climb (track : bool) (fuel : nat) (count : Z) (level : nat) (h : bytes) (matchh : bool)
    (st : mstate) : nat * bytes * bool * mstate :=
  match fuel with
  | O => (level, h, matchh, st)
  | S fuel =>
      if bit_set count level then (level, h, matchh, st) else
      let i := nth level (inner st) uint256_null in
      let '(matchh, br) := note_pair level h matchh st in
      climb track fuel count (S level) (node i h) matchh
        (mkM (inner st) (mutated st || track && bytes_eqb i h) (matchlevel st) br)
  end.

(** One leaf, the [count]th. *)
Definition add_leaf (branchpos : Z) (cs : Z * mstate) (leaf : bytes) : Z * mstate :=
  let '(count, st) := cs in
  let matchh := count =? branchpos in
  let count := uwrap 32 (count + 1) in
  let '(level, h, matchh, st) := climb true 32 count 0 leaf matchh st in
  (count, mkM (<[level := h]> (inner st)) (mutated st)
            (if matchh then Z.of_nat level else matchlevel st) (pbranch st)).

(** The sweep over the rightmost branch. *)
Fixpoint sweep (fuel : nat) (count : Z) (level : nat) (h : bytes) (matchh : bool) (st : mstate)
    : bytes * mstate :=
  match fuel with
  | O => (h, st)
  | S fuel =>
      if count =? Z.shiftl 1 (Z.of_nat level) then (h, st) else
      let br := if want && matchh then pbranch st ++ [h] else pbranch st in
      let count := uwrap 32 (count + Z.shiftl 1 (Z.of_nat level)) in
      let '(level, h, matchh, st) :=
        climb false 32 count (S level) (node h h) matchh
          (mkM (inner st) (mutated st) (matchlevel st) br) in
      sweep fuel count level h matchh st
  end.

(** The lowest bit set in [count]. *)
Fixpoint lowest_bit (fuel : nat) (count : Z) (level : nat) : nat :=
  match fuel with
  | O => level
  | S fuel => if bit_set count level then level else lowest_bit fuel count (S level)
  end.

(** The root, the flag and the branch. *)
Definition MerkleComputation (leaves : list bytes) (branchpos : Z) : bytes * bool * list bytes :=
  if zlen leaves =? 0 then (uint256_null, false, []) else
  let '(count, st) :=
    fold_left (add_leaf branchpos) leaves (0, mkM (repeat uint256_null 32) false (-1) []) in
  let level := lowest_bit 32 count 0 in
  let h := nth level (inner st) uint256_null in
  let '(root, st) := sweep 32 count level h (matchlevel st =? Z.of_nat level) st in
  (root, mutated st, pbranch st).

(** One step up the branch: the sibling and the index that says its side. *)
Definition branch_step (hi : bytes * Z) (sib : bytes) : bytes * Z :=
  let '(hash, nIndex) := hi in
  (if negb (Z.land nIndex 1 =? 0) then node sib hash else node hash sib,
   Z.shiftr nIndex 1).

End Computation.

(** Two hashes combined: [CHash256().Write(a).Write(b).Finalize]. *)
Definition merkle_node (a b : bytes) : bytes := sha256.Hash [a; b].

Definition ComputeMerkleRoot (leaves : list bytes) : bytes * bool :=
  let '(root, mut, _) := MerkleComputation merkle_node false leaves (2 ^ 32 - 1) in (root, mut).

Definition ComputeMerkleBranch (leaves : list bytes) (position : Z) : list bytes :=
  let '(_, _, br) := MerkleComputation merkle_node true leaves position in br.

Definition ComputeMerkleRootFromBranch (leaf : bytes) (vMerkleBranch : list bytes) (nIndex : Z) : bytes :=
  (fold_left (branch_step merkle_node) vMerkleBranch (leaf, nIndex)).1.

Definition BlockMerkleRoot (vtx : list CTransaction) : bytes * bool :=
  ComputeMerkleRoot (map GetHash vtx).

(** The witness hash of the coinbase counts as zero. *)
Definition BlockWitnessMerkleRoot (vtx : list CTransaction) : bytes * bool :=
  ComputeMerkleRoot (match vtx with [] => [] | _ :: rest => uint256_null :: map GetWitnessHash rest end).

Definition BlockMerkleBranch (vtx : list CTransaction) (position : Z) : list bytes :=
  ComputeMerkleBranch (map GetHash vtx) position.

(** ** The tree, level by level *)

Section Tree.
Variable node : bytes -> bytes -> bytes.

(** The next level: neighbours combined, the last hash of an odd level with
    itself. *)
Fixpoint next_level (hs : list bytes) : list bytes :=
  match hs with
  | a :: b :: rest => node a b :: next_level rest
  | [a] => [node a a]
  | [] => []
  end.

Fixpoint merkle_levels (fuel : nat) (hs : list bytes) : bytes :=
  match hs, fuel with
  | [h], _ => h
  | _, S fuel => merkle_levels fuel (next_level hs)
  | _, O => uint256_null
  end.

Definition merkle_spec (leaves : list bytes) : bytes := merkle_levels (length leaves) leaves.

Variable leaves : list bytes.
Abbreviation n := (length leaves).

(** Node [i] of level [l] of the tree over [leaves]. *)
Fixpoint sub (l i : nat) : bytes :=
  match l with
  | O => nth i leaves uint256_null
  | S l => node (sub l (2 * i)) (sub l (if decide ((2 * i + 1) * 2 ^ l < n)%nat then 2 * i + 1 else 2 * i)%nat)
  end.

(** Two complete sibling subtrees within the first [c] leaves have one hash. *)
Definition pair_equal (c : nat) : Prop :=
  exists l i, ((2 * i + 2) * 2 ^ l <= c)%nat /\ sub l (2 * i) = sub l (2 * i + 1).

Local Open Scope nat_scope.

Lemma bit_set_even c l i : c = ((2 * i) * 2 ^ l)%nat -> bit_set (Z.of_nat c) l = false.
Proof.
  intros ->. unfold bit_set. apply negb_false_iff, Z.eqb_eq, Z.bits_inj'. intros m Hm.
  rewrite Z.land_spec, Z.bits_0, Z.shiftl_1_l, Z.pow2_bits_eqb by lia.
  destruct (Z.eqb_spec (Z.of_nat l) m) as [<-|]; [|by rewrite andb_false_r].
  rewrite andb_true_r, Nat2Z.inj_mul, Nat2Z.inj_pow, Nat2Z.inj_mul, <-Z.shiftl_mul_pow2 by lia.
  rewrite Z.shiftl_spec, Z.sub_diag by lia. by rewrite Z.testbit_even_0.
Qed.

Lemma bit_set_odd c l i : c = ((2 * i + 1) * 2 ^ l)%nat -> bit_set (Z.of_nat c) l = true.
Proof.
  intros ->. unfold bit_set. apply negb_true_iff, Z.eqb_neq. intros E.
  apply (f_equal (fun z => Z.testbit z (Z.of_nat l))) in E.
  rewrite Z.land_spec, Z.bits_0, Z.shiftl_1_l, Z.pow2_bits_true, andb_true_r in E by lia.
  rewrite Nat2Z.inj_mul, Nat2Z.inj_pow, <-Z.shiftl_mul_pow2, Z.shiftl_spec, Z.sub_diag in E by lia.
  replace (Z.of_nat (2 * i + 1)) with (2 * Z.of_nat i + 1)%Z in E by lia.
  by rewrite Z.testbit_odd_0 in E.
Qed.

Lemma pow2_pos l : (0 < 2 ^ l)%nat.
Proof. induction l; simpl; lia. Qed.

Lemma sub_pair l i : ((2 * i + 1) * 2 ^ l < n)%nat -> sub (S l) i = node (sub l (2 * i)) (sub l (2 * i + 1)).
Proof. intros Hn. cbn [sub]. by rewrite decide_True. Qed.

Lemma sub_single l i : (n <= (2 * i + 1) * 2 ^ l)%nat -> sub (S l) i = node (sub l (2 * i)) (sub l (2 * i)).
Proof. intros Hn. cbn [sub]. rewrite decide_False; [done|lia]. Qed.

(** [inner] holds, for each bit of [k], the last complete subtree of that size. *)
Definition inner_ok (k : nat) (inn : list bytes) : Prop :=
  length inn = 32 /\ forall l i, k / 2 ^ l = 2 * i + 1 -> l < 32 -> nth l inn uint256_null = sub l (2 * i).

Lemma div_pow_range k l i : i * 2 ^ l <= k < (i + 1) * 2 ^ l <-> k / 2 ^ l = i.
Proof.
  pose proof (pow2_pos l). split.
  - intros [A B]. symmetry. apply (Nat.div_unique k (2 ^ l) i (k - i * 2 ^ l)); nia.
  - intros <-. pose proof (Nat.div_mod_eq k (2 ^ l)). pose proof (Nat.mod_upper_bound k (2 ^ l)). nia.
Qed.

Lemma div_pow_S k l : k / 2 ^ S l = k / 2 ^ l / 2.
Proof. rewrite Nat.Div0.div_div. f_equal. simpl. lia. Qed.

(** Above the lowest bit of [c], the bits of [c] and [c - 1] agree. *)
Lemma div_pow_pred c l j i :
  c = (2 * i + 1) * 2 ^ l -> l < j -> c / 2 ^ j = (c - 1) / 2 ^ j.
Proof.
  intros -> Hj. assert (((2 * i + 1) * 2 ^ l) / 2 ^ S l = ((2 * i + 1) * 2 ^ l - 1) / 2 ^ S l) as E.
  { pose proof (pow2_pos l). rewrite (proj1 (div_pow_range _ (S l) i)) by (simpl; nia).
    symmetry. apply div_pow_range. simpl. nia. }
  replace j with (S l + (j - S l))%nat by lia. by rewrite Nat.pow_add_r, <-!Nat.Div0.div_div, E.
Qed.

(** The branch collected so far leads from leaf [p] to its node of level [l]. *)
Variable p : nat.
Definition on_branch (l : nat) (br : list bytes) : Prop :=
  fold_left (branch_step node) br (nth p leaves uint256_null, Z.of_nat p)
  = (sub l (p / 2 ^ l), Z.of_nat (p / 2 ^ l)).

Lemma half_even i : (2 * i) / 2 = i.
Proof. by rewrite Nat.mul_comm, Nat.div_mul. Qed.

Lemma half_odd i : (2 * i + 1) / 2 = i.
Proof. symmetry. apply (Nat.div_unique _ 2 i 1); lia. Qed.

Lemma branch_side i l br sib :
  on_branch l br -> p / 2 ^ l = i ->
  fold_left (branch_step node) (br ++ [sib]) (nth p leaves uint256_null, Z.of_nat p)
  = (if (Z.of_nat i mod 2 =? 0)%Z then node (sub l i) sib else node sib (sub l i), Z.of_nat (p / 2 ^ S l)).
Proof.
  intros Hb Hp. rewrite fold_left_app, Hb, div_pow_S, Hp. cbn [fold_left branch_step].
  rewrite Z.shiftr_div_pow2, Nat2Z.inj_div by lia. f_equal.
  change 1%Z with (Z.ones 1). rewrite Z.land_ones by lia. change (2 ^ 1)%Z with 2%Z.
  by destruct (_ =? 0)%Z.
Qed.

Lemma branch_left l br sib i :
  on_branch l br -> p / 2 ^ l = 2 * i -> node (sub l (2 * i)) sib = sub (S l) i -> on_branch (S l) (br ++ [sib]).
Proof.
  intros Hb Hp Hs. unfold on_branch. rewrite (branch_side _ _ _ _ Hb Hp), div_pow_S, Hp, half_even, Hs.
  by replace (Z.of_nat (2 * i) mod 2)%Z with 0%Z by (apply (Z.mod_unique _ _ (Z.of_nat i)); lia).
Qed.

Lemma branch_right l br sib i :
  on_branch l br -> p / 2 ^ l = 2 * i + 1 -> node sib (sub l (2 * i + 1)) = sub (S l) i ->
  on_branch (S l) (br ++ [sib]).
Proof.
  intros Hb Hp Hs. unfold on_branch. rewrite (branch_side _ _ _ _ Hb Hp), div_pow_S, Hp, half_odd, Hs.
  by replace (Z.of_nat (2 * i + 1) mod 2)%Z with 1%Z by (apply (Z.mod_unique _ _ (Z.of_nat i)); lia).
Qed.

(** The leaf sits in a stored subtree of level at least [l]. *)
Definition stored (k l : nat) (ml : Z) (br : list bytes) : Prop :=
  exists m i, ml = Z.of_nat m /\ l <= m /\ k / 2 ^ m = 2 * i + 1 /\ p / 2 ^ m = 2 * i /\ on_branch m br.

(** While [h], node [i] of level [l], is carried up: the leaf is below [h], or
    stored, or not reached. *)
Definition match_ok (k l i l' : nat) (matchh : bool) (ml : Z) (br : list bytes) : Prop :=
  matchh = true /\ p / 2 ^ l = i /\ on_branch l br \/
  matchh = false /\ (stored k l' ml br \/ k < p /\ ml = (-1)%Z /\ br = []).

Lemma note_pair_ok k l i matchh st :
  inner_ok k (inner st) -> l < 32 -> k / 2 ^ l = 2 * i + 1 -> (2 * i + 1) * 2 ^ l < n ->
  match_ok k l (2 * i + 1) l matchh (matchlevel st) (pbranch st) ->
  match_ok k (S l) i (S l) (note_pair true l (sub l (2 * i + 1)) matchh st).1 (matchlevel st)
    (note_pair true l (sub l (2 * i + 1)) matchh st).2.
Proof.
  intros [_ Hin] Hl Hk Hn Hm. unfold note_pair. rewrite (Hin _ _ Hk Hl).
  destruct Hm as [(-> & Hp & Hb)|[-> [(m & i' & Hm & Hlm & Hkm & Hpm & Hb)|(Hp & -> & ->)]]].
  - left. split; [done|]. split; [by rewrite div_pow_S, Hp, half_odd|].
    eapply branch_right; [done..|]. by rewrite sub_pair.
  - rewrite Hm. destruct (Z.eqb_spec (Z.of_nat m) (Z.of_nat l)) as [E|E]; cbn [fst snd].
    + assert (m = l) as -> by lia. assert (i' = i) as -> by lia. left. split; [done|]. split.
      * by rewrite div_pow_S, Hpm, half_even.
      * eapply branch_left; [done..|]. by rewrite sub_pair.
    + right. split; [done|]. left. exists m, i'. split_and!; [done|lia|done..].
  - destruct (Z.eqb_spec (-1) (Z.of_nat l)); [lia|]. right. split; [done|]. by right.
Qed.

Variable want : bool.

(** The carry: from node [i] of level [l] to the node of the level of the lowest
    bit of the count. *)
Lemma climb_spec D track fuel k l i matchh st :
  D < 32 -> 32 <= l + fuel -> (i + 1) * 2 ^ l <= 2 ^ D ->
  inner_ok k (inner st) -> k / 2 ^ l = i -> i * 2 ^ l < n ->
  exists L r matchh' st',
    climb node want track fuel (Z.of_nat ((i + 1) * 2 ^ l)) l (sub l i) matchh st
      = (L, sub L (2 * r), matchh', st') /\
    (2 * r + 1) * 2 ^ L = (i + 1) * 2 ^ l /\ l <= L /\ k / 2 ^ L = 2 * r /\ 2 * r * 2 ^ L < n /\
    (L = l \/ 2 ^ (L - 1) < n) /\ inner st' = inner st /\ matchlevel st' = matchlevel st /\
    (mutated st' = true <-> mutated st = true \/
       track = true /\ exists j i', l <= j /\ (2 * i' + 2) * 2 ^ j = (i + 1) * 2 ^ l /\
                              sub j (2 * i') = sub j (2 * i' + 1)) /\
    (want = true -> match_ok k l i l matchh (matchlevel st) (pbranch st) ->
     match_ok k L (2 * r) (S L) matchh' (matchlevel st') (pbranch st')).
Proof.
  intros HD. revert l i matchh st. induction fuel as [|fuel IH]; intros l i matchh st Hf Hc Hin Hk Hn.
  { exfalso. assert (2 ^ D < 2 ^ l) by (apply Nat.pow_lt_mono_r; lia). pose proof (pow2_pos l). nia. }
  assert (l < 32) as Hl.
  { destruct (decide (l < 32)); [done|]. assert (2 ^ D < 2 ^ l) by (apply Nat.pow_lt_mono_r; lia). pose proof (pow2_pos l). nia. }
  cbn [climb]. destruct (Nat.Even_or_Odd i) as [[r ->]|[r ->]].
  - rewrite (bit_set_odd _ _ r) by done. exists l, r, matchh, st. split_and!; try done; [by left|..].
    + split; [by left|]. intros [|(_ & j & i' & Hj & E & _)]; [done|]. exfalso.
      replace j with (l + (j - l)) in E by lia. rewrite Nat.pow_add_r in E. pose proof (pow2_pos l).
      assert ((2 * i' + 2) * 2 ^ (j - l) = 2 * r + 1) by nia. nia.
    + intros _ [?|[? [(m & i' & Hm & Hlm & Hkm & ?)|?]]]; [by left|right; split; [done|]..]; [left|by right].
      exists m, i'. split_and!; try tauto. destruct (decide (m = l)) as [->|]; lia.
  - rewrite (bit_set_even _ _ (r + 1)) by lia.
    pose proof (note_pair_ok k l r matchh st Hin Hl Hk Hn) as Hnote.
    pose proof (proj2 Hin _ _ Hk Hl) as Hi.
    destruct (note_pair want l (sub l (2 * r + 1)) matchh st) as [mh br] eqn:Enp. rewrite Hi, <-sub_pair by done.
    assert ((2 * r + 1 + 1) * 2 ^ l = (r + 1) * 2 ^ S l) as Ec by (cbn [Nat.pow]; lia). rewrite Ec in *.
    set (st1 := mkM _ _ _ _).
    destruct (IH (S l) r mh st1) as (L & r' & mh' & st' & E & Hc' & HL & HkL & HnL & Hmin & Hi' & Hm' & Hmut & Hmat);
      [lia|done|done|by rewrite div_pow_S, Hk, half_odd|cbn [Nat.pow]; lia|].
    exists L, r', mh', st'. split_and!; try done; [lia|..].
    + right. destruct Hmin as [->|]; [|done]. replace (S l - 1) with l by lia. pose proof (pow2_pos l). nia.
    + rewrite Hmut. cbn [mutated st1]. rewrite orb_true_iff, andb_true_iff, bytes_eqb_eq. split.
      * intros [[?|[-> E1]]|(-> & j & i' & Hj & Ej & Es)]; [by left|right; split; [done|]..].
        -- exists l, r. split_and!; [lia|cbn [Nat.pow]; lia|done].
        -- exists j, i'. split_and!; [lia|done..].
      * intros [?|(-> & j & i' & Hj & Ej & Es)]; [by left; left|]. destruct (decide (j = l)) as [->|].
        -- left. right. pose proof (pow2_pos l). cbn [Nat.pow] in Ej. assert (i' = r) as -> by nia. done.
        -- right. split; [done|]. exists j, i'. split_and!; [lia|done..].
    + intros Hw Hm. apply Hmat; [done|]. rewrite Hw in Enp. rewrite Enp in Hnote. by apply Hnote.
Qed.
Lemma div_pow_low c L l r i : c = (2 * r + 1) * 2 ^ L -> l < L -> c / 2 ^ l = 2 * i + 1 -> False.
Proof.
  intros -> Hl Hi. replace L with (l + S (L - S l)) in Hi by lia.
  rewrite Nat.pow_add_r, (Nat.mul_comm (2 ^ l)), Nat.mul_assoc, Nat.div_mul in Hi by (pose proof (pow2_pos l); lia).
  cbn [Nat.pow] in Hi. lia.
Qed.

Lemma inner_ok_store c L r inn :
  inner_ok (c - 1) inn -> c = (2 * r + 1) * 2 ^ L -> L < 32 -> inner_ok c (<[L := sub L (2 * r)]> inn).
Proof.
  intros [Hlen Hin] Ec HL. split; [by rewrite length_insert|]. intros l i Hi Hl.
  assert (c / 2 ^ L = 2 * r + 1) as EL.
  { rewrite Ec. apply Nat.div_mul. pose proof (pow2_pos L). lia. }
  destruct (decide (l = L)) as [->|Hne].
  { rewrite nth_lookup, list_lookup_insert_eq by lia. simpl. f_equal. lia. }
  rewrite nth_lookup, list_lookup_insert_ne, <-nth_lookup by done.
  apply Hin; [|done]. destruct (decide (L < l)) as [|Hlt]; [by rewrite <-(div_pow_pred c L l r)|].
  exfalso. eapply (div_pow_low c L l); [done|lia|done].
Qed.

(** Before the leaf with index [c]. *)
Definition leaf_inv (c : nat) (cs : Z * mstate) : Prop :=
  cs.1 = Z.of_nat c /\ inner_ok c (inner cs.2) /\ (mutated cs.2 = true <-> pair_equal c) /\
  (want = true -> stored c 0 (matchlevel cs.2) (pbranch cs.2) \/
                  c <= p /\ matchlevel cs.2 = (-1)%Z /\ pbranch cs.2 = []).

Lemma pair_equal_S c :
  pair_equal (S c) <-> pair_equal c \/
    exists j i, 0 <= j /\ (2 * i + 2) * 2 ^ j = (c + 1) * 2 ^ 0 /\ sub j (2 * i) = sub j (2 * i + 1).
Proof.
  unfold pair_equal. split.
  - intros (l & i & Hle & E). destruct (decide ((2 * i + 2) * 2 ^ l <= c)); [left; by eauto|].
    right. exists l, i. split_and!; [lia|simpl; lia|done].
  - intros [(l & i & Hle & E)|(l & i & _ & Hle & E)]; exists l, i; (split; [simpl in *; lia|done]).
Qed.

Lemma nat_pow_bound D m : D < 32 -> m <= 2 ^ D -> (Z.of_nat m <= 2 ^ 31)%Z.
Proof.
  intros HD Hm. apply inj_le in Hm. rewrite Nat2Z.inj_pow in Hm.
  pose proof (Z.pow_le_mono_r 2 (Z.of_nat D) 31). lia.
Qed.

Lemma add_leaf_inv D c branchpos cs leaf :
  D < 32 -> n <= 2 ^ D -> leaf_inv c cs -> leaves !! c = Some leaf ->
  (want = true -> branchpos = Z.of_nat p) ->
  leaf_inv (S c) (add_leaf node want branchpos cs leaf).
Proof.
  intros HD Hn (Hc & Hin & Hmut & Hm) Hleaf Hbp. destruct cs as [count st]. cbn [fst snd] in *.
  assert (c < n) as Hcn by by eapply lookup_lt_Some.
  pose proof (nat_pow_bound D n HD Hn) as H31.
  assert (uwrap 32 (count + 1) = Z.of_nat ((c + 1) * 2 ^ 0)) as Ecount.
  { rewrite Hc. cbn [Nat.pow]. rewrite uwrap_small by lia. lia. }
  unfold add_leaf. rewrite Ecount.
  replace leaf with (sub 0 c) by (simpl; by rewrite nth_lookup, Hleaf).
  destruct (climb_spec D true 32 c 0 c (count =? branchpos)%Z st)
    as (L & r & mh & st' & -> & Ec & _ & HkL & HnL & _ & Hi' & Hm' & Hmut' & Hmat);
    [done|lia|simpl; lia|done|by rewrite Nat.div_1_r|simpl; lia|].
  assert (L < 32) as HL.
  { destruct (decide (L < 32)); [done|]. assert (2 ^ D < 2 ^ L) by (apply Nat.pow_lt_mono_r; lia).
    pose proof (pow2_pos L). simpl in Ec. nia. }
  cbn [Nat.pow] in Ec.
  split_and!; cbn [fst snd inner mutated matchlevel pbranch]; [f_equal; simpl; lia|..].
  - rewrite Hi'. apply inner_ok_store; [by replace (S c - 1) with c by lia|lia|done].
  - rewrite Hmut', pair_equal_S, Hmut. tauto.
  - intros Hw. specialize (Hm Hw). rewrite (Hbp Hw), Hc in Hmat.
    destruct Hmat as [(-> & Hp & Hb)|[-> [(m & i & Hml & HLm & Hkm & Hpm & Hb)|(Hp & Hml & Hbr)]]]; [done|..].
    + destruct (Z.eqb_spec (Z.of_nat c) (Z.of_nat p)) as [E|E].
      * left. assert (c = p) by lia. subst c. split; [done|]. split; [apply Nat.div_1_r|].
        destruct Hm as [(m & i & _ & _ & ? & ? & _)|(_ & _ & ->)]; [lia|].
        unfold on_branch. cbn [fold_left sub Nat.pow]. by rewrite Nat.div_1_r.
      * right. split; [done|]. destruct Hm as [?|(? & ? & ?)]; [by left|right; split_and!; [lia|done..]].
    + left. exists L, r. split_and!; try done; [lia|]. symmetry.
      apply (Nat.div_unique _ _ _ 0); [pose proof (pow2_pos L)|]; lia.
    + left. exists m, i. split_and!; try done; [lia|].
      rewrite (div_pow_pred (S c) L m r) by lia. by replace (S c - 1) with c by lia.
    + right. split_and!; [lia|done..].
Qed.

Lemma fold_leaf_inv D branchpos c cs :
  D < 32 -> n <= 2 ^ D -> (want = true -> branchpos = Z.of_nat p) -> c <= n -> leaf_inv c cs ->
  leaf_inv n (fold_left (add_leaf node want branchpos) (drop c leaves) cs).
Proof.
  intros HD Hn Hbp Hc. remember (n - c) as m eqn:Em. revert c cs Em Hc.
  induction m as [|m IH]; intros c cs Em Hc Hinv.
  - rewrite drop_ge by lia. by replace n with c by lia.
  - destruct (lookup_lt_is_Some_2 leaves c) as [x Hx]; [lia|].
    rewrite (drop_S _ _ _ Hx). cbn [fold_left]. apply IH; [lia..|]. by eapply add_leaf_inv.
Qed.

Lemma leaf_inv_init : leaf_inv 0 (0%Z, mkM (repeat uint256_null 32) false (-1) []).
Proof.
  split_and!; cbn [fst snd inner mutated matchlevel pbranch]; [done|..].
  - split; [done|]. intros l i Hi. rewrite Nat.Div0.div_0_l in Hi. lia.
  - split; [done|]. intros (l & i & Hle & _). pose proof (pow2_pos l). nia.
  - intros _. right. split_and!; [lia|done..].
Qed.

Lemma lowest_bit_spec D fuel l i :
  D < 32 -> 32 <= l + fuel -> (i + 1) * 2 ^ l <= 2 ^ D ->
  exists L r, lowest_bit fuel (Z.of_nat ((i + 1) * 2 ^ l)) l = L /\ (2 * r + 1) * 2 ^ L = (i + 1) * 2 ^ l.
Proof.
  intros HD. revert l i. induction fuel as [|fuel IH]; intros l i Hf Hc; cbn [lowest_bit].
  { exfalso. assert (2 ^ D < 2 ^ l) by (apply Nat.pow_lt_mono_r; lia). pose proof (pow2_pos l). nia. }
  destruct (Nat.Even_or_Odd i) as [[r ->]|[r ->]].
  - rewrite (bit_set_odd _ _ r) by done. by exists l, r.
  - rewrite (bit_set_even _ _ (r + 1)) by lia.
    assert ((2 * r + 1 + 1) * 2 ^ l = (r + 1) * 2 ^ S l) as Ec by (cbn [Nat.pow]; lia). rewrite Ec in *.
    apply IH; [lia|done].
Qed.

Lemma round_up_pow r a D : 1 <= r -> r * 2 ^ a < 2 ^ D -> (r + 1) * 2 ^ a <= 2 ^ D.
Proof.
  intros Hr Hlt. pose proof (pow2_pos a).
  assert (a < D) by (apply (Nat.pow_lt_mono_r_iff 2); nia).
  replace D with (D - a + a) in * by lia. rewrite Nat.pow_add_r in *. apply Nat.mul_le_mono_r.
  replace (D - a + a - a + a - a) with (D - a) in * by lia. nia.
Qed.

Lemma sweep_spec D fuel l r matchh st :
  D < 32 -> n <= 2 ^ D -> 32 <= l + fuel -> inner_ok n (inner st) ->
  2 * r * 2 ^ l < n <= (2 * r + 1) * 2 ^ l -> (l = 0 \/ 2 ^ (l - 1) < n) ->
  exists L st',
    sweep node want fuel (Z.of_nat ((2 * r + 1) * 2 ^ l)) l (sub l (2 * r)) matchh st = (sub L 0, st') /\
    n <= 2 ^ L /\ (L = 0 \/ 2 ^ (L - 1) < n) /\ mutated st' = mutated st /\
    (want = true -> p < n -> match_ok n l (2 * r) (S l) matchh (matchlevel st) (pbranch st) ->
     on_branch L (pbranch st')).
Proof.
  intros HD Hn. revert l r matchh st. induction fuel as [|fuel IH]; intros l r matchh st Hf Hin Hr Hmin.
  { exfalso. assert (2 ^ D <= 2 ^ (l - 1)) by (apply Nat.pow_le_mono_r; lia). lia. }
  cbn [sweep]. rewrite Z.shiftl_1_l. change 2%Z with (Z.of_nat 2). rewrite <-Nat2Z.inj_pow.
  destruct (Z.eqb_spec (Z.of_nat ((2 * r + 1) * 2 ^ l)) (Z.of_nat (2 ^ l))) as [E|E].
  - apply Nat2Z.inj in E. pose proof (pow2_pos l). assert (r = 0) as -> by nia.
    exists l, st. split_and!; try done; [lia|].
    intros _ Hp [(_ & _ & ?)|[_ [(m & i & _ & Hm & Hk & _)|?]]]; [done| |lia].
    exfalso. assert (2 ^ S l <= 2 ^ m) by (apply Nat.pow_le_mono_r; lia).
    apply div_pow_range in Hk. cbn [Nat.pow] in *. nia.
  - assert (1 <= r) as Hr1 by (destruct r; [exfalso; apply E; f_equal; lia|lia]).
    assert (r * 2 ^ S l < n < (r + 1) * 2 ^ S l) as Hr' by (cbn [Nat.pow]; lia).
    pose proof (round_up_pow r (S l) D Hr1 ltac:(lia)) as Hup.
    replace (uwrap 32 _) with (Z.of_nat ((r + 1) * 2 ^ S l)).
    2: { pose proof (nat_pow_bound D _ HD Hup). rewrite uwrap_small; [cbn [Nat.pow]; lia|].
         split; [lia|]. cbn [Nat.pow] in *. lia. }
    rewrite <-sub_single by lia.
    set (st1 := mkM _ _ _ _).
    destruct (climb_spec D false 32 n (S l) r matchh st1)
      as (L & r' & mh & st' & -> & Ec & HL & HkL & HnL & Hmn & Hi' & Hm' & Hmut' & Hmat);
      [done|lia|done|done|apply div_pow_range; lia|lia|].
    rewrite <-Ec. apply div_pow_range in HkL.
    destruct (IH L r' mh st') as (L' & st'' & -> & HL' & Hmin' & Hmut & Hbr); [lia|by rewrite Hi'|lia| |].
    { right. destruct Hmn as [->|]; [|done]. replace (S l - 1) with l by lia. cbn [Nat.pow] in Hr'. nia. }
    exists L', st''. split_and!; try done.
    + rewrite Hmut. apply eq_true_iff_eq. rewrite Hmut'. cbn [mutated st1].
      split; [intros [?|[? _]]|intros ?; left]; done.
    + intros Hw Hp Hmo. apply Hbr; [done..|]. apply Hmat; [done|]. cbn [matchlevel pbranch st1]. rewrite Hw. cbn [andb].
      destruct Hmo as [(-> & Hpl & Hb)|[-> Ho]]; [left|right; by split].
      split; [done|]. split; [by rewrite div_pow_S, Hpl, half_even|].
      eapply branch_left; [done..|]. rewrite sub_single; [done|lia].
Qed.

(** ** The tree by levels *)
Definition width (l : nat) : nat := (n + 2 ^ l - 1) / 2 ^ l.
Definition level (l : nat) : list bytes := map (sub l) (seq 0 (width l)).

Lemma width_lt l i : i < width l <-> i * 2 ^ l < n.
Proof.
  unfold width. pose proof (pow2_pos l). split; intros Hi.
  - pose proof (Nat.Div0.mul_div_le (n + 2 ^ l - 1) (2 ^ l)). nia.
  - apply (Nat.div_le_lower_bound _ _ (S i)); [lia|]. nia.
Qed.

Lemma lookup_next_level hs i :
  next_level hs !! i = match hs !! (2 * i) with
                       | Some a => Some (node a (default a (hs !! (2 * i + 1))))
                       | None => None
                       end.
Proof.
  revert hs. induction i as [|i IH]; intros [|a [|b hs]]; try done.
  change (next_level (a :: b :: hs) !! S i) with (next_level hs !! i). rewrite IH.
  by replace (2 * S i) with (S (S (2 * i))) by lia.
Qed.

Lemma lookup_level l i : level l !! i = if decide (i < width l) then Some (sub l i) else None.
Proof.
  unfold level. change (map (sub l)) with (fmap (M := list) (sub l)). rewrite list_lookup_fmap.
  case_decide as Hi; [by rewrite lookup_seq_lt|]. by rewrite lookup_seq_ge by lia.
Qed.

Lemma next_level_level l : next_level (level l) = level (S l).
Proof.
  apply list_eq. intros i. rewrite lookup_next_level, !lookup_level.
  destruct (decide (i < width (S l))) as [H2|H2]; rewrite width_lt in H2; cbn [Nat.pow] in H2;
    (destruct (decide (2 * i < width l)) as [H|H]; rewrite width_lt in H; [|try lia; done]); [|lia].
  f_equal. cbn [sub]. f_equal.
  destruct (decide (2 * i + 1 < width l)) as [H'|H']; rewrite width_lt in H';
    [by rewrite decide_True|by rewrite decide_False].
Qed.

Lemma level_0 : level 0 = leaves.
Proof.
  apply list_eq. intros i. rewrite lookup_level. case_decide as Hi; rewrite width_lt, Nat.mul_1_r in Hi.
  - destruct (lookup_lt_is_Some_2 leaves i Hi) as [x Hx]. cbn [sub]. by rewrite nth_lookup, Hx.
  - symmetry. apply lookup_ge_None_2. lia.
Qed.

Lemma level_top L : 0 < n -> n <= 2 ^ L -> level L = [sub L 0].
Proof.
  intros H0 HL. pose proof (proj2 (width_lt L 0) H0). pose proof (proj1 (width_lt L 1)).
  unfold level. by replace (width L) with 1 by lia.
Qed.

Lemma merkle_levels_root fuel l L :
  n <= 2 ^ L -> (L = 0 \/ 2 ^ (L - 1) < n) -> 0 < n -> l <= L <= l + fuel ->
  merkle_levels fuel (level l) = sub L 0.
Proof.
  intros HL Hmin Hn. revert l. induction fuel as [|fuel IH]; intros l Hl.
  - replace l with L by lia. by rewrite level_top.
  - destruct (decide (l = L)) as [->|]; [by rewrite level_top|].
    assert (1 < width l).
    { apply width_lt. assert (2 ^ l <= 2 ^ (L - 1)) by (apply Nat.pow_le_mono_r; lia). lia. }
    assert (length (level l) = width l) as El by (unfold level; by rewrite length_map, length_seq).
    rewrite <-(IH (S l)), <-next_level_level by lia. by destruct (level l) as [|a [|b rest]]; [simpl in El; lia..|].
Qed.

Lemma MerkleComputation_spec D branchpos :
  D < 32 -> 0 < n <= 2 ^ D -> (want = true -> branchpos = Z.of_nat p) ->
  exists mut br, MerkleComputation node want leaves branchpos = (merkle_spec leaves, mut, br) /\
    (mut = true <-> pair_equal n) /\
    (want = true -> p < n ->
     (fold_left (branch_step node) br (nth p leaves uint256_null, Z.of_nat p)).1 = merkle_spec leaves).
Proof.
  intros HD [H0 Hn] Hbp. unfold MerkleComputation.
  destruct (Z.eqb_spec (zlen leaves) 0) as [E|_]; [unfold zlen in E; lia|].
  pose proof (fold_leaf_inv D branchpos 0 (0%Z, mkM (repeat uint256_null 32) false (-1) []) HD Hn Hbp) as Hinv.
  rewrite drop_0 in Hinv. destruct (fold_left (add_leaf node want branchpos) leaves _) as [count st].
  destruct Hinv as (Hc & Hin & Hmut & Hm); [lia|by apply leaf_inv_init|]. cbn [fst snd] in *. subst count.
  destruct (lowest_bit_spec D 32 0 (n - 1) HD) as (l & r & El & Er); [lia|simpl; lia|].
  replace ((n - 1 + 1) * 2 ^ 0) with n in El, Er by (simpl; lia). rewrite El.
  assert (n / 2 ^ l = 2 * r + 1) as Ed by (rewrite <-Er; apply Nat.div_mul; pose proof (pow2_pos l); lia).
  assert (l < 32) as Hl.
  { destruct (decide (l < 32)); [done|]. assert (2 ^ D < 2 ^ l) by (apply Nat.pow_lt_mono_r; lia). pose proof (pow2_pos l). nia. }
  rewrite (proj2 Hin _ _ Ed Hl).
  destruct (sweep_spec D 32 l r (matchlevel st =? Z.of_nat l)%Z st) as (L & st' & E & HL & Hmin & Hmut' & Hbr);
    [done|done|lia|done|pose proof (pow2_pos l); lia|..].
  { destruct l; [by left|right]. replace (S l - 1) with l by lia. cbn [Nat.pow] in Er. pose proof (pow2_pos l). nia. }
  rewrite Er in E. rewrite E.
  assert (merkle_spec leaves = sub L 0) as Hroot.
  { unfold merkle_spec. rewrite <-(merkle_levels_root n 0 L HL Hmin H0).
    - by rewrite level_0.
    - destruct Hmin as [->|]; [lia|]. pose proof (Nat.pow_gt_lin_r 2 (L - 1)). lia. }
  rewrite Hroot. exists (mutated st'), (pbranch st'). split; [done|]. rewrite Hmut'. split; [done|].
  intros Hw Hp. rewrite Hbr; [|done|done|].
  { cbn [fst]. f_equal. apply Nat.div_small. lia. }
  destruct (Hm Hw) as [(m & i & Hml & _ & Hkm & Hpm & Hb)|(? & _)]; [|lia].
  destruct (Z.eqb_spec (matchlevel st) (Z.of_nat l)) as [Eml|Eml].
  - left. assert (m = l) as -> by lia. split_and!; [done|lia|done].
  - right. split; [done|]. left. exists m, i. split_and!; try done.
    destruct (decide (m < l)); [|lia]. exfalso. by eapply (div_pow_low n l m).
Qed.

End Tree.

(** C38. The one-pass computation builds the tree: for up to [2^31] leaves the
    root is the one obtained level by level, repeating the last hash of an odd
    level; the flag is set exactly when two complete sibling subtrees have one
    hash, the ambiguity of CVE-2012-2459; and the branch of a leaf, folded from
    the leaf with its position, yields the root. *)
Theorem merkle_root_and_branch (leaves : list bytes) (position : nat) :
  zlen leaves <= 2 ^ 31 -> (position < length leaves)%nat ->
  (ComputeMerkleRoot leaves).1 = merkle_spec merkle_node leaves /\
  ((ComputeMerkleRoot leaves).2 = true <-> pair_equal merkle_node leaves (length leaves)) /\
  ComputeMerkleRootFromBranch (nth position leaves uint256_null)
    (ComputeMerkleBranch leaves (Z.of_nat position)) (Z.of_nat position) = merkle_spec merkle_node leaves.
Proof.
  intros Hn Hp. assert (length leaves <= 2 ^ 31)%nat as Hn'.
  { apply Nat2Z.inj_le. rewrite Nat2Z.inj_pow. exact Hn. }
  unfold ComputeMerkleRoot, ComputeMerkleBranch, ComputeMerkleRootFromBranch.
  destruct (MerkleComputation_spec merkle_node leaves position false 31 (2 ^ 32 - 1)) as (mut & br & -> & Hmut & _);
    [lia|lia|done|].
  destruct (MerkleComputation_spec merkle_node leaves position true 31 (Z.of_nat position)) as (mut' & br' & -> & _ & Hbr);
    [lia|lia|done|].
  split_and!; [done|done|]. by apply Hbr.
Qed.

Lemma merkle_root_and_branch_witness :
  let leaves := [[1]; [2]; [3]; [4]; [5]; [6]] in
  (ComputeMerkleRoot leaves).1 = merkle_spec merkle_node leaves /\
  ((ComputeMerkleRoot leaves).2 = true <-> pair_equal merkle_node leaves (length leaves)) /\
  ComputeMerkleRootFromBranch [5] (ComputeMerkleBranch leaves 4) 4 = merkle_spec merkle_node leaves.
Proof.
  apply (merkle_root_and_branch [[1]; [2]; [3]; [4]; [5]; [6]] 4); [vm_compute; discriminate|simpl; lia].
Defined.
