(* ===== verification/Chain.v ===== *)
(** * The block index and the active chain

    [CBlockIndex] and [CChain] of src/src/chain.h and chain.cpp with the skip
    list, the fork choice, and [AddToBlockIndex] of validation.cpp. The index
    entries live in an arena, a pointer is a position in it; entries are only
    ever appended. *)

From S2P Require Import Prelude ArithUint Tx.

Local Open Scope Z_scope.

Record CBlockIndex := mkIndex {
  phashBlock : bytes;
  pprev : option nat;
  pskip : option nat;
  nHeight : Z;
  nChainWork : base_uint;
  bi_nTime : Z;
  bi_nBits : Z;
  nTimeMax : Z;
}.

Abbreviation arena := (list CBlockIndex).

(** ** The skip list *)
Definition InvertLowestOne (n : Z) : Z := Z.land n (n - 1).

Definition GetSkipHeight (height : Z) : Z :=
  if height <? 2 then 0 else
  if negb (Z.land height 1 =? 0) then InvertLowestOne (InvertLowestOne (height - 1)) + 1
  else InvertLowestOne height.

(** The loop of [GetAncestor] from the entry [p] at height [heightWalk]; [None]
    is the assertion that fails at a missing parent, or exhausted fuel. *)
Fixpoint ancestor_loop (a : arena) (height : Z) (fuel : nat) (p : nat) (heightWalk : Z) : option nat :=
  if heightWalk <=? height then Some p else
  match fuel with
  | O => None
  | S fuel =>
      match a !! p with
      | None => None
      | Some pindexWalk =>
          let heightSkip := GetSkipHeight heightWalk in
          let heightSkipPrev := GetSkipHeight (heightWalk - 1) in
          let follow := (heightSkip =? height) ||
                        (height <? heightSkip) &&
                        negb ((heightSkipPrev <? heightSkip - 2) && (height <=? heightSkipPrev)) in
          match pskip pindexWalk with
          | Some s =>
              if follow then ancestor_loop a height fuel s heightSkip else
              match pprev pindexWalk with
              | Some q => ancestor_loop a height fuel q (heightWalk - 1)
              | None => None
              end
          | None =>
              match pprev pindexWalk with
              | Some q => ancestor_loop a height fuel q (heightWalk - 1)
              | None => None
              end
          end
      end
  end.

Definition GetAncestor (a : arena) (p : nat) (height : Z) : option nat :=
  match a !! p with
  | None => None
  | Some this =>
      if (nHeight this <? height) || (height <? 0) then None
      else ancestor_loop a height (Z.to_nat (nHeight this)) p (nHeight this)
  end.

(** ** Fork choice *)
Definition GetBlockProof : base_uint := of_uint64 1.

Definition PreferLotteryFork (a : arena) (candidate incumbent : option nat) : bool :=
  match candidate, incumbent with
  | None, _ => false
  | Some _, None => true
  | Some c, Some i =>
      match a !! c, a !! i with
      | Some c, Some i =>
          if negb (CompareTo (nChainWork c) (nChainWork i) =? 0)
          then 0 <? CompareTo (nChainWork c) (nChainWork i)
          else bytes_ltb (phashBlock c) (phashBlock i)
      | _, _ => false
      end
  end.

(** [CBlockIndexWorkComparator]; the address order is the order of positions. *)
Definition work_less (a : arena) (pa pb : nat) : bool :=
  if PreferLotteryFork a (Some pb) (Some pa) then true else
  if PreferLotteryFork a (Some pa) (Some pb) then false else
  (pb <? pa)%nat.

(** ** The index *)
Record BlockIndexState := mkBlockIndex {
  entries : arena;
  pindexBestHeader : option nat;
}.

Fixpoint find_hash (hash : bytes) (a : arena) (i : nat) : option nat :=
  match a with
  | [] => None
  | e :: a => if bytes_eqb (phashBlock e) hash then Some i else find_hash hash a (S i)
  end.

(** [mapBlockIndex.find] *)
Definition mapBlockIndex_find (a : arena) (hash : bytes) : option nat := find_hash hash a 0.

Definition set_prev (q : nat) (height : Z) (e : CBlockIndex) : CBlockIndex :=
  mkIndex (phashBlock e) (Some q) (pskip e) height (nChainWork e) (bi_nTime e) (bi_nBits e) (nTimeMax e).
Definition set_skip (s : option nat) (e : CBlockIndex) : CBlockIndex :=
  mkIndex (phashBlock e) (pprev e) s (nHeight e) (nChainWork e) (bi_nTime e) (bi_nBits e) (nTimeMax e).
Definition set_work (timeMax : Z) (work : base_uint) (e : CBlockIndex) : CBlockIndex :=
  mkIndex (phashBlock e) (pprev e) (pskip e) (nHeight e) work (bi_nTime e) (bi_nBits e) timeMax.

(** [BuildSkip] of the entry [p]. *)
Definition BuildSkip (a : arena) (p : nat) : arena :=
  match a !! p with
  | Some e =>
      match pprev e with
      | Some q => alter (set_skip (GetAncestor a q (GetSkipHeight (nHeight e)))) p a
      | None => a
      end
  | None => a
  end.

(** [nTimeMax] and [nChainWork] of the entry [p], from its parent's. *)
Definition sum_up (a : arena) (p : nat) : arena :=
  match a !! p with
  | Some e =>
      match pprev e ≫= (a !!.) with
      | Some prev => alter (set_work (Z.max (nTimeMax prev) (bi_nTime e))
                                     (uint_add (nChainWork prev) GetBlockProof)) p a
      | None => alter (set_work (bi_nTime e) (uint_add uint_zero GetBlockProof)) p a
      end
  | None => a
  end.

(** The entry of a header not yet linked. *)
Definition CBlockIndex_of (hash : bytes) (block : CBlockHeader) : CBlockIndex :=
  mkIndex hash None None (swrap 32 (hdr_nHeight block)) uint_zero (nTime block) (nBits block) 0.

Section Index.
(** The block hash, X16R or ProgPoW by the header's time. *)
Variable GetHash : CBlockHeader -> bytes.

(** [AddToBlockIndex]: the entry and the index. The entry is in the map
      before its parent is looked up, and keeps the header's own height when
      the parent is unknown. *)
Definition AddToBlockIndex (s : BlockIndexState) (block : CBlockHeader) : nat * BlockIndexState :=
  let hash := GetHash block in
  match mapBlockIndex_find (entries s) hash with
  | Some p => (p, s)
  | None =>
      let p := length (entries s) in
      let a := entries s ++ [CBlockIndex_of hash block] in
      let a := match mapBlockIndex_find a (hashPrevBlock block) with
               | Some q =>
                   let height := match a !! q with Some e => nHeight e + 1 | None => 0 end in
                   BuildSkip (alter (set_prev q height) p a) p
               | None => a
               end in
      let a := sum_up a p in
      let best := pindexBestHeader s in
      (p, mkBlockIndex a (if PreferLotteryFork a (Some p) best then Some p else best))
  end.
End Index.

(** The time [tip]'s proof is worth between two entries. *)
Definition GetBlockProofEquivalentTime (nPowTargetSpacing : Z) (to from : CBlockIndex) : option Z :=
  let '(r, sign) :=
    if 0 <? CompareTo (nChainWork to) (nChainWork from)
    then (uint_sub (nChainWork to) (nChainWork from), 1)
    else (uint_sub (nChainWork from) (nChainWork to), -1) in
  match uint_div (uint_mul r (of_uint64 nPowTargetSpacing)) GetBlockProof with
  | None => None
  | Some r => Some (if (63 <? bits r)%nat then sign * INT64_MAX
                    else swrap 64 (uwrap 64 (sign * GetLow64 r)))
  end.

(** ** The active chain *)

(** [vChain]; a hole is a null pointer. *)
Abbreviation CChain := (list (option nat)).

Definition chain_at (c : CChain) (height : Z) : option nat :=
  if (height <? 0) || (zlen c <=? height) then None else
  match c !! Z.to_nat height with Some e => e | None => None end.

Definition chain_Height (c : CChain) : Z := zlen c - 1.
Definition chain_Tip (c : CChain) : option nat := chain_at c (chain_Height c).

Definition is_ptr (e : option nat) (p : nat) : bool := match e with Some q => (q =? p)%nat | None => false end.

Definition Contains (a : arena) (c : CChain) (p : nat) : bool :=
  match a !! p with Some e => is_ptr (chain_at c (nHeight e)) p | None => false end.

Definition chain_Next (a : arena) (c : CChain) (p : nat) : option nat :=
  match a !! p with
  | Some e => if Contains a c p then chain_at c (nHeight e + 1) else None
  | None => None
  end.

(** [resize]: cut, or fill with null pointers. *)
Definition resize (n : nat) (c : CChain) : CChain := take n c ++ repeat None (n - length c).

(** The loop of [SetTip]. *)
Fixpoint set_tip_loop (a : arena) (fuel : nat) (p : option nat) (c : CChain) : CChain :=
  match p, fuel with
  | Some i, S fuel =>
      match a !! i with
      | None => c
      | Some e =>
          if is_ptr (chain_at c (nHeight e)) i then c
          else set_tip_loop a fuel (pprev e) (<[Z.to_nat (nHeight e) := Some i]> c)
      end
  | _, _ => c
  end.

Definition SetTip (a : arena) (c : CChain) (p : option nat) : CChain :=
  match p with
  | None => []
  | Some i =>
      match a !! i with
      | None => c
      | Some e =>
          let n := Z.to_nat (nHeight e + 1) in
          set_tip_loop a n p (resize n c)
      end
  end.

(** The loop of [FindFork]. *)
Fixpoint find_fork_loop (a : arena) (c : CChain) (fuel : nat) (p : option nat) : option nat :=
  match p, fuel with
  | Some i, S fuel =>
      if Contains a c i then p
      else find_fork_loop a c fuel (match a !! i with Some e => pprev e | None => None end)
  | _, _ => None
  end.

Definition FindFork (a : arena) (c : CChain) (p : option nat) : option nat :=
  match p with
  | None => None
  | Some i =>
      match a !! i with
      | None => None
      | Some e =>
          let p := if chain_Height c <? nHeight e then GetAncestor a i (chain_Height c) else p in
          find_fork_loop a c (S (Z.to_nat (nHeight e))) p
      end
  end.

(** [GetBlockTimeMax() < nTime] of the chain's block at [k]. *)
Definition chain_below (a : arena) (c : CChain) (nTime : Z) (k : nat) : bool :=
  match chain_at c (Z.of_nat k) ≫= (a !!.) with Some e => nTimeMax e <? nTime | None => false end.

(** [std::lower_bound] over the active chain: halve [len] elements from [first]. *)
Fixpoint lower_bound (a : arena) (c : CChain) (nTime : Z) (fuel first len : nat) : nat :=
  match fuel with
  | O => first
  | S fuel =>
      if (len =? 0)%nat then first else
      let half := Nat.div2 len in
      if chain_below a c nTime (first + half)
      then lower_bound a c nTime fuel (first + half + 1) (len - half - 1)
      else lower_bound a c nTime fuel first half
  end.

Definition FindEarliestAtLeast (a : arena) (c : CChain) (nTime : Z) : option nat :=
  chain_at c (Z.of_nat (lower_bound a c nTime (length c) 0 (length c))).

(** The loop of [LastCommonAncestor]; its last assertion is that both ends meet. *)
Fixpoint meet_loop (a : arena) (fuel : nat) (pa pb : nat) : option nat :=
  if (pa =? pb)%nat then Some pa else
  match fuel with
  | O => None
  | S fuel =>
      match a !! pa, a !! pb with
      | Some ea, Some eb =>
          match pprev ea, pprev eb with
          | Some qa, Some qb => meet_loop a fuel qa qb
          | _, _ => None
          end
      | _, _ => None
      end
  end.

Definition LastCommonAncestor (a : arena) (pa pb : nat) : option nat :=
  match a !! pa, a !! pb with
  | Some ea, Some eb =>
      let pa' := if nHeight eb <? nHeight ea then GetAncestor a pa (nHeight eb) else Some pa in
      let pb' := if nHeight ea <? nHeight eb then GetAncestor a pb (nHeight ea) else Some pb in
      match pa', pb' with
      | Some qa, Some qb => meet_loop a (Z.to_nat (nHeight ea)) qa qb
      | _, _ => None
      end
  | _, _ => None
  end.

(** The loop of [GetLocator], from the entry [p]. *)
Fixpoint locator_loop (a : arena) (c : CChain) (fuel : nat) (nStep : Z) (vHave : list bytes) (p : option nat)
    : list bytes :=
  match p, fuel with
  | Some i, S fuel =>
      match a !! i with
      | None => vHave
      | Some e =>
          let vHave := vHave ++ [phashBlock e] in
          if nHeight e =? 0 then vHave else
          let height := Z.max (nHeight e - nStep) 0 in
          let next := if Contains a c i then chain_at c height else GetAncestor a i height in
          let nStep := if (10 <? zlen vHave) then nStep * 2 else nStep in
          locator_loop a c fuel nStep vHave next
      end
  | _, _ => vHave
  end.

Definition GetLocator (a : arena) (c : CChain) (p : option nat) : list bytes :=
  let p := match p with Some _ => p | None => chain_Tip c end in
  match p with
  | Some i => match a !! i with
              | Some e => locator_loop a c (S (Z.to_nat (nHeight e))) 1 [] p
              | None => []
              end
  | None => []
  end.

(** ** Well-formed indexes *)

(** [n] steps to the parent. *)
Fixpoint up (a : arena) (n : nat) (p : nat) : option nat :=
  match n with
  | O => Some p
  | S n => match a !! p ≫= pprev with Some q => up a n q | None => None end
  end.

(** The entry [e] at [i]: one unit of work per height, the parent before it and
    one lower, the skip pointer the ancestor at [GetSkipHeight]. *)
Record entry_ok (a : arena) (i : nat) (e : CBlockIndex) : Prop := {
  eo_height : 0 <= nHeight e <= Z.of_nat i;
  eo_work : uint_ok (nChainWork e) /\ val (nChainWork e) = nHeight e + 1;
  eo_link : match pprev e with
            | None => nHeight e = 0 /\ i = 0%nat
            | Some j => (j < i)%nat /\ exists ej, a !! j = Some ej /\ nHeight e = nHeight ej + 1 /\
                        nTimeMax ej <= nTimeMax e
            end;
  eo_time : bi_nTime e <= nTimeMax e;
  eo_skip : pskip e = (pprev e ≫= fun _ => up a (Z.to_nat (nHeight e - GetSkipHeight (nHeight e))) i);
}.

(** Every entry well-formed, no hash twice, heights within an [int]. *)
Record arena_ok (a : arena) : Prop := {
  ao_entry : forall i e, a !! i = Some e -> entry_ok a i e;
  ao_hash : NoDup (phashBlock <$> a);
  ao_size : zlen a <= 2 ^ 31;
}.

Lemma land_le_r n m : 0 <= m -> 0 <= Z.land n m <= m.
Proof.
  intros Hm. split; [apply Z.land_nonneg; by right|].
  destruct (Z.eq_dec (Z.land n m) 0) as [->|]; [done|].
  assert (Z.land n m + Z.ldiff m n = m); [|assert (0 <= Z.ldiff m n) by (apply Z.ldiff_nonneg; lia); lia].
  rewrite Z.add_nocarry_lxor.
  - apply Z.bits_inj'. intros k Hk. rewrite Z.lxor_spec, Z.land_spec, Z.ldiff_spec.
    by destruct (Z.testbit n k), (Z.testbit m k).
  - apply Z.bits_inj'. intros k Hk. rewrite !Z.land_spec, Z.ldiff_spec, Z.bits_0.
    by destruct (Z.testbit n k), (Z.testbit m k).
Qed.

Lemma invert_lowest n : 0 < n -> 0 <= InvertLowestOne n < n.
Proof. intros Hn. unfold InvertLowestOne. pose proof (land_le_r n (n - 1) ltac:(lia)). lia. Qed.

(** A skip goes strictly down. *)
Lemma skip_range n : 0 < n -> 0 <= GetSkipHeight n < n.
Proof.
  intros Hn. unfold GetSkipHeight. destruct (Z.ltb_spec n 2); [lia|].
  pose proof (invert_lowest n Hn). pose proof (invert_lowest (n - 1) ltac:(lia)).
  case_ifs; [|lia]. destruct (Z.eq_dec (InvertLowestOne (n - 1)) 0) as [->|]; [change (InvertLowestOne 0) with 0; lia|].
  pose proof (invert_lowest (InvertLowestOne (n - 1)) ltac:(lia)). lia.
Qed.

Lemma up_add a n m p : up a (n + m) p = up a n p ≫= up a m.
Proof.
  revert p. induction n as [|n IH]; intros p; [done|]. cbn [up Nat.add].
  destruct (a !! p ≫= pprev); [apply IH|done].
Qed.

Section WellFormed.
Context (a : arena) (Ha : arena_ok a).

Lemma parent_ok p e q :
  a !! p = Some e -> pprev e = Some q ->
  (q < p)%nat /\ exists eq, a !! q = Some eq /\ nHeight e = nHeight eq + 1 /\ nTimeMax eq <= nTimeMax e.
Proof. intros Hp E. pose proof (eo_link _ _ _ (ao_entry a Ha p e Hp)) as L. by rewrite E in L. Qed.

Lemma parent_exists p e : a !! p = Some e -> 0 < nHeight e -> exists q, pprev e = Some q.
Proof.
  intros Hp Hh. pose proof (eo_link _ _ _ (ao_entry a Ha p e Hp)) as L.
  destruct (pprev e); [eauto|lia].
Qed.

Lemma up_spec n p e :
  a !! p = Some e -> Z.of_nat n <= nHeight e ->
  exists q eq, up a n p = Some q /\ a !! q = Some eq /\ nHeight eq = nHeight e - Z.of_nat n /\
               nTimeMax eq <= nTimeMax e /\ (q <= p)%nat.
Proof.
  revert p e. induction n as [|n IH]; intros p e Hp Hn.
  { exists p, e. cbn [up]. repeat split; [done|lia..]. }
  destruct (parent_exists p e Hp) as [q Eq]; [lia|].
  destruct (parent_ok p e q Hp Eq) as (Hlt & eq & Hq & Hh & Ht).
  destruct (IH q eq Hq) as (r & er & Hr & Her & Hhr & Htr & Hle); [lia|].
  exists r, er. cbn [up]. rewrite Hp. cbn [mbind option_bind]. rewrite Eq.
  repeat split; [done..|lia|lia|lia].
Qed.

Lemma skip_spec p e s : a !! p = Some e -> pskip e = Some s ->
  0 < nHeight e /\ up a (Z.to_nat (nHeight e - GetSkipHeight (nHeight e))) p = Some s.
Proof.
  intros Hp Hs. pose proof (ao_entry a Ha p e Hp) as O. pose proof (eo_skip _ _ _ O) as K.
  rewrite Hs in K. destruct (pprev e) as [q|] eqn:Eq; [|done]. split; [|done].
  destruct (parent_ok p e q Hp Eq) as (_ & eq & Hq & Hh & _).
  pose proof (eo_height _ _ _ (ao_entry a Ha q eq Hq)). lia.
Qed.

(** The skip list finds what walking the parents finds, and the height is
    fuel enough. *)
Lemma ancestor_loop_spec height fuel : forall p e,
  a !! p = Some e -> 0 <= height <= nHeight e -> nHeight e <= Z.of_nat fuel ->
  ancestor_loop a height fuel p (nHeight e) = up a (Z.to_nat (nHeight e - height)) p.
Proof.
  induction fuel as [|fuel IH]; intros p e Hp Hh Hf; cbn [ancestor_loop].
  { destruct (Z.leb_spec (nHeight e) height); [|lia]. by replace (nHeight e - height) with 0 by lia. }
  destruct (Z.leb_spec (nHeight e) height) as [|Hlt].
  { by replace (nHeight e - height) with 0 by lia. }
  rewrite Hp. cbv zeta.
  assert (Hstep : match pprev e with
            | Some q => ancestor_loop a height fuel q (nHeight e - 1)
            | None => None
            end = up a (Z.to_nat (nHeight e - height)) p).
  { destruct (parent_exists p e Hp) as [q Eq]; [lia|].
    destruct (parent_ok p e q Hp Eq) as (_ & eq & Hq & Hhq & _).
    replace (Z.to_nat (nHeight e - height)) with (S (Z.to_nat (nHeight eq - height))) by lia.
    cbn [up]. rewrite Hp. cbn [mbind option_bind]. rewrite Eq, <-(IH q eq Hq) by lia. f_equal. lia. }
  destruct (pskip e) as [s|] eqn:Es; [|done].
  destruct (_ || _) eqn:Ef; [|done].
  destruct (skip_spec p e s Hp Es) as [Hpos Hs].
  pose proof (skip_range (nHeight e) Hpos) as Hr.
  assert (height <= GetSkipHeight (nHeight e)).
  { apply orb_true_iff in Ef as [Ef|Ef]; bool_prop; lia. }
  destruct (up_spec (Z.to_nat (nHeight e - GetSkipHeight (nHeight e))) p e Hp) as (s' & es & Hs' & Hes & Hhs & _); [lia|].
  rewrite Hs in Hs'. injection Hs' as <-.
  replace (GetSkipHeight (nHeight e)) with (nHeight es) by lia.
  rewrite (IH s es Hes) by lia.
  replace (Z.to_nat (nHeight e - height))
    with (Z.to_nat (nHeight e - GetSkipHeight (nHeight e)) + Z.to_nat (nHeight es - height))%nat by lia.
  by rewrite up_add, Hs.
Qed.

Lemma GetAncestor_spec p e height :
  a !! p = Some e -> 0 <= height <= nHeight e ->
  GetAncestor a p height = up a (Z.to_nat (nHeight e - height)) p.
Proof.
  intros Hp Hh. unfold GetAncestor. rewrite Hp.
  destruct (Z.ltb_spec (nHeight e) height); [lia|]. destruct (Z.ltb_spec height 0); [lia|]. bsimpl.
  apply ancestor_loop_spec; [done|lia|lia].
Qed.
End WellFormed.

(** ** Growing the index *)

Lemma find_hash_spec hash a i :
  match find_hash hash a i with
  | Some p => (i <= p)%nat /\ exists e, a !! (p - i)%nat = Some e /\ phashBlock e = hash
  | None => hash ∉ phashBlock <$> a
  end.
Proof.
  revert i. induction a as [|e a IH]; intros i; cbn [find_hash]; [apply not_elem_of_nil|].
  destruct (bytes_eqb (phashBlock e) hash) eqn:E; bool_prop.
  { split; [lia|]. exists e. by rewrite Nat.sub_diag. }
  specialize (IH (S i)). destruct (find_hash hash a (S i)) as [p|].
  - destruct IH as [Hle (e' & He' & Hh)]. split; [lia|]. exists e'. split; [|done].
    by replace (p - i)%nat with (S (p - S i)) by lia.
  - rewrite fmap_cons, not_elem_of_cons. by split.
Qed.

Lemma find_spec a hash :
  match mapBlockIndex_find a hash with
  | Some p => exists e, a !! p = Some e /\ phashBlock e = hash
  | None => hash ∉ phashBlock <$> a
  end.
Proof.
  unfold mapBlockIndex_find. pose proof (find_hash_spec hash a 0) as H.
  destruct (find_hash hash a 0); [|done]. rewrite Nat.sub_0_r in H. by destruct H.
Qed.

Lemma find_hash_app hash a e i :
  phashBlock e <> hash -> find_hash hash (a ++ [e]) i = find_hash hash a i.
Proof.
  intros Hne. revert i. induction a as [|x a IH]; intros i; cbn [find_hash app].
  - unfold bytes_eqb. by rewrite bool_decide_eq_false_2.
  - by rewrite IH.
Qed.

Section Extend.
Context (a : arena) (Ha : arena_ok a).

Lemma up_app k n p : (p < length a)%nat -> up (a ++ k) n p = up a n p.
Proof.
  revert p. induction n as [|n IH]; intros p Hp; [done|]. cbn [up].
  rewrite lookup_app_l by done. destruct (lookup_lt_is_Some_2 a p Hp) as [e He]. rewrite He.
  cbn [mbind option_bind]. destruct (pprev e) as [q|] eqn:Eq; [|done].
  destruct (parent_ok a Ha p e q He Eq) as [Hlt _]. apply IH. lia.
Qed.

Lemma ancestor_loop_app k height fuel : forall p e,
  a !! p = Some e ->
  ancestor_loop (a ++ k) height fuel p (nHeight e) = ancestor_loop a height fuel p (nHeight e).
Proof.
  induction fuel as [|fuel IH]; intros p e Hp; cbn [ancestor_loop]; destruct (nHeight e <=? height); try done.
  rewrite (lookup_app_l_Some _ _ _ _ Hp), Hp.
  assert (Hstep : match pprev e with
            | Some q => ancestor_loop (a ++ k) height fuel q (nHeight e - 1)
            | None => None end =
            match pprev e with
            | Some q => ancestor_loop a height fuel q (nHeight e - 1)
            | None => None end).
  { destruct (pprev e) as [q|] eqn:Eq; [|done].
    destruct (parent_ok a Ha p e q Hp Eq) as (_ & eq & Hq & Hh & _).
    replace (nHeight e - 1) with (nHeight eq) by lia. by apply IH. }
  destruct (pskip e) as [s|] eqn:Es; [|done]. cbv zeta. destruct (_ || _); [|exact Hstep].
  destruct (skip_spec a Ha p e s Hp Es) as [Hpos Hs].
  pose proof (skip_range _ Hpos).
  destruct (up_spec a Ha (Z.to_nat (nHeight e - GetSkipHeight (nHeight e))) p e Hp)
    as (s' & es & Hs' & Hes & Hhs & _); [lia|].
  rewrite Hs in Hs'. injection Hs' as <-.
  replace (GetSkipHeight (nHeight e)) with (nHeight es) by lia. by apply IH.
Qed.

Lemma GetAncestor_app k p height :
  (p < length a)%nat -> GetAncestor (a ++ k) p height = GetAncestor a p height.
Proof.
  intros Hp. destruct (lookup_lt_is_Some_2 a p Hp) as [e He]. unfold GetAncestor.
  rewrite (lookup_app_l_Some _ _ _ _ He), He. case_ifs; [done|]. by apply ancestor_loop_app.
Qed.

Lemma entry_ok_app k i e : entry_ok a i e -> (i < length a)%nat -> entry_ok (a ++ k) i e.
Proof.
  intros [H1 H2 H3 H4 H5] Hi. split; [done..| |done|].
  - destruct (pprev e); [|done]. destruct H3 as (? & ej & Hj & ?). split; [done|].
    exists ej. split; [by apply lookup_app_l_Some|done].
  - rewrite H5. destruct (pprev e); [|done]. cbn [mbind option_bind]. by rewrite up_app.
Qed.

Lemma arena_ok_snoc e :
  entry_ok (a ++ [e]) (length a) e -> phashBlock e ∉ phashBlock <$> a -> zlen a < 2 ^ 31 ->
  arena_ok (a ++ [e]).
Proof.
  intros He Hnew Hsz. split.
  - intros i x Hx. apply lookup_app_Some in Hx as [Hx|[Hge Hx]].
    + apply entry_ok_app; [by apply (ao_entry a Ha)|by apply lookup_lt_Some in Hx].
    + apply list_lookup_singleton_Some in Hx as [Hi ->]. by replace i with (length a) by lia.
  - rewrite fmap_app. apply NoDup_app. split; [apply Ha|]. split; [|apply NoDup_singleton].
    intros h Hh Hin. apply list_elem_of_singleton in Hin as ->. done.
  - rewrite zlen_app, zlen_one. lia.
Qed.
End Extend.

Lemma alter_snoc (f : CBlockIndex -> CBlockIndex) a e : alter f (length a) (a ++ [e]) = a ++ [f e].
Proof. pose proof (alter_app_r f a [e] 0) as H. by rewrite Nat.add_0_r in H. Qed.

Lemma lookup_snoc (a : arena) e : (a ++ [e]) !! length a = Some e.
Proof. rewrite lookup_app_r by lia. by rewrite Nat.sub_diag. Qed.

(** The finished entry of a header with the parent [q]. *)
Definition linked (a : arena) (hash : bytes) (block : CBlockHeader) (q : nat) (eq : CBlockIndex) : CBlockIndex :=
  mkIndex hash (Some q) (GetAncestor a q (GetSkipHeight (nHeight eq + 1))) (nHeight eq + 1)
    (uint_add (nChainWork eq) GetBlockProof) (nTime block) (nBits block) (Z.max (nTimeMax eq) (nTime block)).

Definition rooted (hash : bytes) (block : CBlockHeader) : CBlockIndex :=
  mkIndex hash None None (swrap 32 (hdr_nHeight block)) (uint_add uint_zero GetBlockProof)
    (nTime block) (nBits block) (nTime block).

Definition new_entry (a : arena) (hash : bytes) (block : CBlockHeader) : CBlockIndex :=
  match mapBlockIndex_find a (hashPrevBlock block) with
  | Some q => match a !! q with Some eq => linked a hash block q eq | None => rooted hash block end
  | None => rooted hash block
  end.

Lemma proof_ok : uint_ok GetBlockProof /\ val GetBlockProof = 1.
Proof. by apply (of_uint64_spec 1). Qed.

Section Grow.
Context (GetHash : CBlockHeader -> bytes).

(** A header the index can take: the genesis header first, then children of
    known blocks. *)
Definition linkable (a : arena) (block : CBlockHeader) : Prop :=
  GetHash block <> hashPrevBlock block /\ zlen a < 2 ^ 31 /\
  match mapBlockIndex_find a (hashPrevBlock block) with
  | Some _ => True
  | None => mapBlockIndex_find a (GetHash block) <> None \/ a = [] /\ hdr_nHeight block = 0
  end.

Lemma add_fresh s block :
  arena_ok (entries s) -> GetHash block <> hashPrevBlock block ->
  mapBlockIndex_find (entries s) (GetHash block) = None ->
  entries (AddToBlockIndex GetHash s block).2
  = entries s ++ [new_entry (entries s) (GetHash block) block] /\
  (AddToBlockIndex GetHash s block).1 = length (entries s).
Proof.
  intros Ha Hne Hnew. unfold AddToBlockIndex. rewrite Hnew. cbn [fst snd entries]. split; [|done].
  set (a := entries s) in *. set (e0 := CBlockIndex_of (GetHash block) block).
  assert (mapBlockIndex_find (a ++ [e0]) (hashPrevBlock block) = mapBlockIndex_find a (hashPrevBlock block)) as ->.
  { by apply find_hash_app. }
  unfold new_entry. pose proof (find_spec a (hashPrevBlock block)) as F.
  destruct (mapBlockIndex_find a (hashPrevBlock block)) as [q|].
  - destruct F as (eq & Hq & _). pose proof (lookup_lt_Some _ _ _ Hq) as Hlt.
    rewrite (lookup_app_l_Some _ _ _ _ Hq), Hq, alter_snoc. unfold BuildSkip.
    rewrite lookup_snoc. cbn [set_prev pprev nHeight]. rewrite alter_snoc, GetAncestor_app by done.
    unfold sum_up. rewrite lookup_snoc. cbn [set_skip set_prev pprev mbind option_bind].
    rewrite (lookup_app_l_Some _ _ _ _ Hq), alter_snoc. done.
  - unfold sum_up. rewrite lookup_snoc. cbn [e0 CBlockIndex_of pprev mbind option_bind]. by rewrite alter_snoc.
Qed.

Lemma new_entry_ok a block :
  arena_ok a -> linkable a block -> mapBlockIndex_find a (GetHash block) = None ->
  let e := new_entry a (GetHash block) block in
  entry_ok (a ++ [e]) (length a) e /\ phashBlock e = GetHash block.
Proof.
  intros Ha (Hne & Hsz & Hl) Hnew. unfold new_entry. destruct proof_ok as [Pok Pv].
  pose proof (find_spec a (hashPrevBlock block)) as F.
  destruct (mapBlockIndex_find a (hashPrevBlock block)) as [q|].
  - destruct F as (eq & Hq & _). rewrite Hq. cbv zeta. split; [|done].
    pose proof (ao_entry a Ha q eq Hq) as [Hh [Hw Hv] _ _ _]. pose proof (lookup_lt_Some _ _ _ Hq) as Hlt.
    destruct (uint_add_spec (nChainWork eq) GetBlockProof Hw Pok) as [Wok Wv].
    pose proof (skip_range (nHeight eq + 1) ltac:(lia)) as Hs.
    split; cbn [linked nHeight nChainWork pprev bi_nTime nTimeMax pskip].
    + lia.
    + split; [done|]. rewrite Wv, Hv, Pv. unfold zlen in Hsz. apply Z.mod_small. lia.
    + split; [done|]. exists eq. split; [by apply lookup_app_l_Some|]. lia.
    + lia.
    + cbn [mbind option_bind]. rewrite (GetAncestor_spec a Ha q eq) by (done || lia).
      replace (Z.to_nat (nHeight eq + 1 - GetSkipHeight (nHeight eq + 1)))
        with (S (Z.to_nat (nHeight eq - GetSkipHeight (nHeight eq + 1)))) by lia.
      cbn [up]. rewrite lookup_snoc. cbn [mbind option_bind linked pprev]. by rewrite up_app.
  - destruct Hl as [Hl|[-> Hh]]; [done|]. cbv zeta. split; [|done].
    split; cbn [rooted nHeight nChainWork pprev bi_nTime nTimeMax pskip length]; rewrite ?Hh; try done.
Qed.

Lemma add_arena_ok s block :
  arena_ok (entries s) -> linkable (entries s) block ->
  arena_ok (entries (AddToBlockIndex GetHash s block).2).
Proof.
  intros Ha Hl. destruct (mapBlockIndex_find (entries s) (GetHash block)) as [p|] eqn:E.
  { unfold AddToBlockIndex. by rewrite E. }
  destruct (new_entry_ok (entries s) block Ha Hl E) as [He Hh].
  destruct (add_fresh s block Ha (proj1 Hl) E) as [-> _].
  pose proof (find_spec (entries s) (GetHash block)) as F. rewrite E in F.
  apply arena_ok_snoc; [done..|by rewrite Hh|apply Hl].
Qed.
End Grow.

(** ** Fork choice *)

(** The longer chain, then the smaller hash. *)
Definition better (c i : CBlockIndex) : bool :=
  (nHeight i <? nHeight c) || (nHeight c =? nHeight i) && bytes_ltb (phashBlock c) (phashBlock i).

Lemma prefer_spec a c i ec ei :
  arena_ok a -> a !! c = Some ec -> a !! i = Some ei ->
  PreferLotteryFork a (Some c) (Some i) = better ec ei.
Proof.
  intros Ha Hc Hi. unfold PreferLotteryFork, better. rewrite Hc, Hi.
  destruct (eo_work _ _ _ (ao_entry a Ha c ec Hc)) as [[Lc Fc] Vc].
  destruct (eo_work _ _ _ (ao_entry a Ha i ei Hi)) as [[Li Fi] Vi].
  rewrite CompareTo_spec, Vc, Vi by congruence.
  destruct (Z.compare_spec (nHeight ec + 1) (nHeight ei + 1));
    destruct (Z.ltb_spec (nHeight ei) (nHeight ec)); destruct (Z.eqb_spec (nHeight ec) (nHeight ei));
    try lia; done.
Qed.

Lemma better_irrefl e : better e e = false.
Proof. unfold better. by rewrite Z.ltb_irrefl, bytes_ltb_irrefl, andb_false_r. Qed.

Lemma better_iff c i :
  better c i = true <->
  nHeight i < nHeight c \/ nHeight c = nHeight i /\ bytes_ltb (phashBlock c) (phashBlock i) = true.
Proof. unfold better. rewrite orb_true_iff, andb_true_iff, Z.ltb_lt, Z.eqb_eq. done. Qed.

Lemma better_trans x y z : better x y = true -> better y z = true -> better x z = true.
Proof.
  rewrite !better_iff. intros [|[]] [|[]]; [left; lia..|]. right. split; [congruence|].
  by eapply bytes_ltb_trans.
Qed.

Lemma better_total x y : better x y = true \/ better y x = true \/
  nHeight x = nHeight y /\ phashBlock x = phashBlock y.
Proof.
  rewrite !better_iff. destruct (Z.lt_total (nHeight x) (nHeight y)) as [|[E|]]; [tauto| |tauto].
  pose proof (eq_sym E). destruct (bytes_ltb_total (phashBlock x) (phashBlock y)) as [|[|]]; tauto.
Qed.

(** An entry not worse than a third is not worse than what the third beats. *)
Lemma better_neg_trans x y z : better x y = false -> better y z = false -> better x z = false.
Proof.
  intros H1 H2. destruct (better x z) eqn:E; [|done].
  destruct (better_total x y) as [|[Hyx|[Hh Hp]]]; [congruence| |].
  - by rewrite (better_trans y x z Hyx E) in H2.
  - unfold better in E, H2. rewrite Hh, Hp in E. congruence.
Qed.

(** The best header: nothing in the index is better. *)
Definition best_ok (s : BlockIndexState) : Prop :=
  match pindexBestHeader s with
  | None => entries s = []
  | Some b => exists eb, entries s !! b = Some eb /\
              forall i e, entries s !! i = Some e -> better e eb = false
  end.

Definition index_ok (s : BlockIndexState) : Prop := arena_ok (entries s) /\ best_ok s.

Definition empty_index : BlockIndexState := mkBlockIndex [] None.

Lemma empty_index_ok : index_ok empty_index.
Proof. split; [|done]. split; [done|constructor|done]. Qed.

Section Grow2.
Context (GetHash : CBlockHeader -> bytes).

Lemma add_index_ok s block :
  index_ok s -> linkable GetHash (entries s) block -> index_ok (AddToBlockIndex GetHash s block).2.
Proof.
  intros [Ha Hb] Hl. split; [by apply add_arena_ok|].
  pose proof (add_arena_ok GetHash s block Ha Hl) as Ha'.
  destruct (mapBlockIndex_find (entries s) (GetHash block)) as [p|] eqn:E.
  { unfold AddToBlockIndex. by rewrite E. }
  destruct (add_fresh GetHash s block Ha (proj1 Hl) E) as [HE Hp].
  set (e := new_entry (entries s) (GetHash block) block) in *.
  set (s' := (AddToBlockIndex GetHash s block).2) in *.
  assert (pindexBestHeader s' = if PreferLotteryFork (entries s') (Some (length (entries s))) (pindexBestHeader s)
          then Some (length (entries s)) else pindexBestHeader s) as HB.
  { unfold s', AddToBlockIndex. by rewrite E. }
  assert (entries s' !! length (entries s) = Some e) as Hnew by (rewrite HE; apply lookup_snoc).
  unfold best_ok in *. rewrite HB. destruct (pindexBestHeader s) as [b|].
  - destruct Hb as (eb & Hb & Hmax).
    assert (entries s' !! b = Some eb) as Hb' by (rewrite HE; by apply lookup_app_l_Some).
    rewrite (prefer_spec _ _ _ e eb Ha' Hnew Hb').
    destruct (better e eb) eqn:Ebt; [exists e|exists eb]; (split; [done|]); intros i x Hx;
      rewrite HE in Hx; apply lookup_app_Some in Hx as [Hx|[_ Hx]].
    + apply (better_neg_trans x eb e); [by eapply Hmax|].
      destruct (better eb e) eqn:E2; [|done]. pose proof (better_trans _ _ _ Ebt E2) as Hc.
      by rewrite better_irrefl in Hc.
    + apply list_lookup_singleton_Some in Hx as [_ ->]. apply better_irrefl.
    + by eapply Hmax.
    + by apply list_lookup_singleton_Some in Hx as [_ ->].
  - cbn [PreferLotteryFork]. exists e. split; [done|]. intros i x Hx. rewrite HE, Hb in Hx.
    apply list_lookup_singleton_Some in Hx as [_ ->]. apply better_irrefl.
Qed.

(** The index after a sequence of headers. *)
Definition grow (s : BlockIndexState) (l : list CBlockHeader) : BlockIndexState :=
  foldl (fun s b => (AddToBlockIndex GetHash s b).2) s l.

Fixpoint all_linkable (s : BlockIndexState) (l : list CBlockHeader) : Prop :=
  match l with
  | [] => True
  | b :: l => linkable GetHash (entries s) b /\ all_linkable (AddToBlockIndex GetHash s b).2 l
  end.

Lemma grow_ok s l : index_ok s -> all_linkable s l -> index_ok (grow s l).
Proof.
  revert s. induction l as [|b l IH]; intros s Hs Hl; [done|]. destruct Hl as [Hb Hl].
  cbn [grow foldl]. apply IH; [by apply add_index_ok|done].
Qed.

Lemma all_linkable_snoc s l b :
  all_linkable s (l ++ [b]) <-> all_linkable s l /\ linkable GetHash (entries (grow s l)) b.
Proof.
  revert s. induction l as [|x l IH]; intros s; cbn [all_linkable app]; [cbn; tauto|].
  rewrite IH. cbn [grow foldl]. tauto.
Qed.

Lemma grow_snoc s l b : grow s (l ++ [b]) = (AddToBlockIndex GetHash (grow s l) b).2.
Proof. unfold grow. by rewrite foldl_app. Qed.
End Grow2.

(** ** The index does not depend on the order of arrival *)
Section Origin.
Context (GetHash : CBlockHeader -> bytes).

(** Each entry comes from a header of [l] and sits on the entry its header
    names; each header of [l] has an entry; the first header is the root. *)
Record origin (l : list CBlockHeader) (a : arena) : Prop := {
  or_entry : forall i e, a !! i = Some e -> exists b, b ∈ l /\ phashBlock e = GetHash b /\
    match pprev e with
    | Some q => exists eq, a !! q = Some eq /\ phashBlock eq = hashPrevBlock b
    | None => True
    end;
  or_header : forall b, b ∈ l -> exists i e, a !! i = Some e /\ phashBlock e = GetHash b;
  or_root : forall e b, a !! 0%nat = Some e -> head l = Some b -> phashBlock e = GetHash b;
}.

Lemma origin_snoc l s b :
  index_ok s -> linkable GetHash (entries s) b -> origin l (entries s) -> (l = [] -> entries s = []) ->
  origin (l ++ [b]) (entries (AddToBlockIndex GetHash s b).2).
Proof.
  intros [Ha _] Hl [O1 O2 O3] Hnil.
  assert (Hext : forall i e k, entries s !! i = Some e -> exists b', b' ∈ l ++ [b] /\ phashBlock e = GetHash b' /\
    match pprev e with
    | Some q => exists eq, (entries s ++ k) !! q = Some eq /\ phashBlock eq = hashPrevBlock b'
    | None => True
    end).
  { intros i e k He. destruct (O1 i e He) as (b' & Hin & Hh & Hq). exists b'.
    split; [apply elem_of_app; by left|]. split; [done|]. destruct (pprev e); [|done].
    destruct Hq as (eq & Hq & ?). exists eq. split; [by apply lookup_app_l_Some|done]. }
  destruct (mapBlockIndex_find (entries s) (GetHash b)) as [p|] eqn:E.
  - unfold AddToBlockIndex. rewrite E. cbn [snd].
    pose proof (find_spec (entries s) (GetHash b)) as F. rewrite E in F. destruct F as (e & He & Hh).
    split.
    + intros i x Hx. specialize (Hext i x [] Hx). by rewrite app_nil_r in Hext.
    + intros b' [Hin|Hin%list_elem_of_singleton]%elem_of_app; [by apply O2|]. subst. eauto.
    + intros x b' Hx Hb'. destruct l as [|c l]; [rewrite Hnil in He by done; done|]. by apply (O3 x b').
  - destruct (add_fresh GetHash s b Ha (proj1 Hl) E) as [-> _].
    destruct (new_entry_ok GetHash (entries s) b Ha Hl E) as [_ Hh].
    split.
    + intros i x [Hx|[_ Hx]]%lookup_app_Some; [by apply (Hext i)|].
      apply list_lookup_singleton_Some in Hx as [_ <-]. exists b.
      split; [apply elem_of_app; right; by apply list_elem_of_singleton|]. split; [done|].
      unfold new_entry. pose proof (find_spec (entries s) (hashPrevBlock b)) as F.
      destruct (mapBlockIndex_find (entries s) (hashPrevBlock b)) as [q|]; [|done].
      destruct F as (eq & Hq & Hqh). rewrite Hq. cbn [linked pprev]. exists eq.
      split; [by apply lookup_app_l_Some|done].
    + intros b' [Hin|Hin%list_elem_of_singleton]%elem_of_app.
      * destruct (O2 b' Hin) as (i & e & He & ?). exists i, e. split; [by apply lookup_app_l_Some|done].
      * subst. eexists _, _. split; [apply lookup_snoc|done].
    + intros x b' Hx Hb'. destruct l as [|c l].
      * rewrite Hnil in Hx by done. injection Hx as <-. injection Hb' as <-. rewrite <-(Hnil eq_refl). done.
      * destruct (O2 c ltac:(constructor)) as (i & e & He & _).
        apply (O3 x b'); [|done]. rewrite lookup_app_l in Hx; [done|].
        apply lookup_lt_Some in He. lia.
Qed.

Lemma grow_origin l : all_linkable GetHash empty_index l -> origin l (entries (grow GetHash empty_index l)).
Proof.
  induction l as [|b l IH] using rev_ind; intros Hl.
  { split; [done| |done]. intros b Hb. by apply not_elem_of_nil in Hb. }
  apply all_linkable_snoc in Hl as [Hl Hb]. rewrite grow_snoc.
  apply origin_snoc; [|done|by apply IH|by intros ->].
  by apply grow_ok; [apply empty_index_ok|].
Qed.

(** Two indexes of the same headers on one genesis give a block the same
    height. *)
Lemma same_height g l1 l2 a1 a2 :
  arena_ok a1 -> arena_ok a2 -> origin (g :: l1) a1 -> origin (g :: l2) a2 ->
  (forall b, b ∈ g :: l1 <-> b ∈ g :: l2) ->
  (forall b b', b ∈ g :: l1 -> b' ∈ g :: l1 -> GetHash b = GetHash b' -> b = b') ->
  (forall b, b ∈ g :: l1 -> GetHash b <> hashPrevBlock g) ->
  forall i e1 j e2, a1 !! i = Some e1 -> a2 !! j = Some e2 -> phashBlock e1 = phashBlock e2 ->
  nHeight e1 = nHeight e2.
Proof.
  intros A1 A2 O1 O2 Hset Hinj Hgen i. induction (lt_wf i) as [i _ IH]. intros e1 j e2 H1 H2 Hh.
  destruct (or_entry _ _ O1 i e1 H1) as (b1 & In1 & Hb1 & P1).
  destruct (or_entry _ _ O2 j e2 H2) as (b2 & In2 & Hb2 & P2).
  assert (b1 = b2) as <-; [apply Hinj; [done|by apply Hset|congruence]|].
  pose proof (eo_link _ _ _ (ao_entry a1 A1 i e1 H1)) as L1.
  pose proof (eo_link _ _ _ (ao_entry a2 A2 j e2 H2)) as L2.
  assert (Hroot : forall a l k e, origin (g :: l) a -> (forall b, b ∈ g :: l -> b ∈ g :: l1) -> b1 ∈ g :: l1 ->
    a !! k = Some e -> phashBlock e = GetHash b1 -> k = 0%nat -> b1 = g).
  { intros a l k e O Hs Hin He Hb ->. apply Hinj; [done|by constructor|].
    rewrite <-Hb. by apply (or_root _ _ O e g). }
  assert (Hnonroot : forall a l q, origin (g :: l) a -> (forall b, b ∈ g :: l -> b ∈ g :: l1) ->
    (exists eq, a !! q = Some eq /\ phashBlock eq = hashPrevBlock b1) -> b1 <> g).
  { intros a l q O Hs (eq & Hq & Hp) ->. destruct (or_entry _ _ O q eq Hq) as (b & Hin & Hb & _).
    apply (Hgen b); [by apply Hs|congruence]. }
  destruct (pprev e1) as [q1|], (pprev e2) as [q2|].
  - destruct L1 as (Hlt & eq1 & Hq1 & -> & _). destruct L2 as (_ & eq2 & Hq2 & -> & _).
    destruct P1 as (x1 & Hx1 & Hp1), P2 as (x2 & Hx2 & Hp2). simplify_eq.
    f_equal. eapply IH; [exact Hlt|eassumption..|congruence].
  - exfalso. apply (Hnonroot a1 l1 q1 O1 ltac:(done) P1). destruct L2 as [_ ->].
    by apply (Hroot a2 l2 0%nat e2 O2 ltac:(by apply Hset)).
  - exfalso. apply (Hnonroot a2 l2 q2 O2 ltac:(by apply Hset) P2). destruct L1 as [_ ->].
    by apply (Hroot a1 l1 0%nat e1 O1 ltac:(done)).
  - lia.
Qed.
End Origin.

(** The hash of the best header. *)
Definition best_hash (s : BlockIndexState) : option bytes :=
  match pindexBestHeader s with
  | Some b => phashBlock <$> entries s !! b
  | None => None
  end.

(** C35. The block index. Whatever headers are added with [AddToBlockIndex],
    the genesis header first and every other after its parent, each entry
    carries one unit of work per block below it, the skip list reaches from it
    the ancestor at every height the parents reach, at exactly that height,
    within as many steps as its own height, and [GetAncestor] is null at the
    other heights; the best header is an entry no other entry is preferred to. *)
Theorem block_index_sound (GetHash : CBlockHeader -> bytes) (l : list CBlockHeader) :
  all_linkable GetHash empty_index l ->
  let s := grow GetHash empty_index l in
  let a := entries s in
  (forall p e, a !! p = Some e ->
     val (nChainWork e) = nHeight e + 1 /\
     forall height,
       if (0 <=? height) && (height <=? nHeight e)
       then exists q eq, GetAncestor a p height = Some q /\ up a (Z.to_nat (nHeight e - height)) p = Some q /\
                         a !! q = Some eq /\ nHeight eq = height
       else GetAncestor a p height = None) /\
  match pindexBestHeader s with
  | None => a = []
  | Some b => is_Some (a !! b) /\
              forall i, is_Some (a !! i) -> PreferLotteryFork a (Some i) (Some b) = false
  end.
Proof.
  intros Hl s a. destruct (grow_ok GetHash empty_index l empty_index_ok Hl) as [Ha Hb].
  fold s in Ha, Hb. fold a in Ha. split.
  - intros p e Hp. split; [apply (ao_entry a Ha p e Hp)|]. intros height.
    destruct (Z.leb_spec 0 height); destruct (Z.leb_spec height (nHeight e)); bsimpl.
    2-4: unfold GetAncestor; rewrite Hp; destruct (Z.ltb_spec (nHeight e) height), (Z.ltb_spec height 0); done || lia.
    destruct (up_spec a Ha (Z.to_nat (nHeight e - height)) p e Hp) as (q & eq & Hq & Heq & Hh & _); [lia|].
    exists q, eq. rewrite (GetAncestor_spec a Ha p e) by (done || lia).
    repeat split; [done..|]. lia.
  - unfold best_ok in Hb. fold a in Hb. destruct (pindexBestHeader s) as [b|]; [|done].
    destruct Hb as (eb & Hb & Hmax). split; [by exists eb|]. intros i [e He].
    rewrite (prefer_spec a i b e eb Ha He Hb). by eapply Hmax.
Qed.

Section Toy.
(** A chain of headers hashed by their nonce, for the examples. *)
Definition toy_hash (b : CBlockHeader) : bytes := le_bytes 32 (nNonce b).
Definition toy_child (prev nonce time : Z) : CBlockHeader :=
  mkHeader 4 (le_bytes 32 prev) uint256_null time 0x207fffff nonce 0 0 uint256_null.
Definition toy_genesis : CBlockHeader := toy_child 0 1 100.
Definition toy_headers : list CBlockHeader :=
  [toy_genesis; toy_child 1 2 160; toy_child 2 4 220; toy_child 1 3 161; toy_child 3 5 221].
End Toy.

(** [all_linkable], computed. *)
Definition linkableb (GetHash : CBlockHeader -> bytes) (a : arena) (block : CBlockHeader) : bool :=
  negb (bytes_eqb (GetHash block) (hashPrevBlock block)) && (zlen a <? 2 ^ 31) &&
  match mapBlockIndex_find a (hashPrevBlock block) with
  | Some _ => true
  | None => match mapBlockIndex_find a (GetHash block) with
            | Some _ => true
            | None => (zlen a =? 0) && (hdr_nHeight block =? 0)
            end
  end.
Fixpoint all_linkableb (GetHash : CBlockHeader -> bytes) (s : BlockIndexState) (l : list CBlockHeader) : bool :=
  match l with
  | [] => true
  | b :: l => linkableb GetHash (entries s) b && all_linkableb GetHash (AddToBlockIndex GetHash s b).2 l
  end.

Lemma all_linkableb_true GetHash l : forall s, all_linkableb GetHash s l = true -> all_linkable GetHash s l.
Proof.
  induction l as [|b l IH]; intros s H; [done|]. cbn [all_linkableb] in H. apply andb_true_iff in H as [H1 H2].
  split; [|by apply IH]. unfold linkableb, linkable in *. bool_prop. split; [done|]. split; [done|].
  destruct (mapBlockIndex_find (entries s) (hashPrevBlock b)); [done|].
  destruct (mapBlockIndex_find (entries s) (GetHash b)); [by left|]. right. bool_prop.
  split; [by apply zlen_0_nil|done].
Qed.

Lemma toy_linkable : all_linkable toy_hash empty_index toy_headers.
Proof. apply all_linkableb_true. vm_compute. reflexivity. Qed.

Definition toy_index : BlockIndexState := Eval vm_compute in grow toy_hash empty_index toy_headers.
Lemma toy_index_eq : grow toy_hash empty_index toy_headers = toy_index.
Proof. vm_compute. reflexivity. Qed.

Lemma block_index_sound_witness :
  let a := entries (grow toy_hash empty_index toy_headers) in
  exists q eq, GetAncestor a 4 1 = Some q /\ up a 1 4 = Some q /\ a !! q = Some eq /\ nHeight eq = 1.
Proof.
  pose proof (block_index_sound toy_hash toy_headers toy_linkable) as H. cbv zeta in *.
  rewrite toy_index_eq in *. destruct H as [H _]. destruct (H 4%nat _ eq_refl) as [_ H1]. exact (H1 1).
Defined.

(** C36. Fork choice does not depend on the order in which headers arrive. Two
    nodes that start from one genesis header (which no header hashes to the
    parent of) and learn the same headers, each after its parent, have the same
    best header, as long as no two of these headers have the same hash. *)
Theorem fork_choice_converges (GetHash : CBlockHeader -> bytes) (g : CBlockHeader) (l1 l2 : list CBlockHeader) :
  (forall b, b ∈ g :: l1 <-> b ∈ g :: l2) ->
  (forall b b', b ∈ g :: l1 -> b' ∈ g :: l1 -> GetHash b = GetHash b' -> b = b') ->
  (forall b, b ∈ g :: l1 -> GetHash b <> hashPrevBlock g) ->
  all_linkable GetHash empty_index (g :: l1) -> all_linkable GetHash empty_index (g :: l2) ->
  exists h, best_hash (grow GetHash empty_index (g :: l1)) = Some h /\
            best_hash (grow GetHash empty_index (g :: l2)) = Some h.
Proof.
  intros Hset Hinj Hgen L1 L2.
  pose proof (grow_origin GetHash _ L1) as O1. pose proof (grow_origin GetHash _ L2) as O2.
  destruct (grow_ok GetHash _ _ empty_index_ok L1) as [A1 B1].
  destruct (grow_ok GetHash _ _ empty_index_ok L2) as [A2 B2].
  unfold best_hash. revert A1 B1 O1 A2 B2 O2. generalize (grow GetHash empty_index (g :: l1)) as s1.
  generalize (grow GetHash empty_index (g :: l2)) as s2. intros s2 s1 A1 B1 O1 A2 B2 O2.
  pose proof (same_height GetHash g l1 l2 _ _ A1 A2 O1 O2 Hset Hinj Hgen) as Hsame.
  destruct (or_header _ _ _ O1 g ltac:(constructor)) as (i0 & e0 & He0 & _).
  destruct (or_header _ _ _ O2 g ltac:(constructor)) as (j0 & f0 & Hf0 & _).
  unfold best_ok in B1, B2.
  destruct (pindexBestHeader s1) as [b1|]; [|by rewrite B1 in He0].
  destruct (pindexBestHeader s2) as [b2|]; [|by rewrite B2 in Hf0].
  destruct B1 as (x1 & Hx1 & M1), B2 as (x2 & Hx2 & M2). rewrite Hx1, Hx2.
  destruct (or_entry _ _ _ O1 b1 x1 Hx1) as (h1 & In1 & Hh1 & _).
  destruct (or_entry _ _ _ O2 b2 x2 Hx2) as (h2 & In2 & Hh2 & _).
  destruct (or_header _ _ _ O2 h1 ltac:(by apply Hset)) as (j & y1 & Hy1 & Hyh1).
  destruct (or_header _ _ _ O1 h2 ltac:(by apply Hset)) as (i & y2 & Hy2 & Hyh2).
  pose proof (Hsame b1 x1 j y1 Hx1 Hy1 ltac:(congruence)) as E1.
  pose proof (Hsame i y2 b2 x2 Hy2 Hx2 ltac:(congruence)) as E2.
  pose proof (M1 i y2 Hy2) as N1. pose proof (M2 j y1 Hy1) as N2.
  exists (phashBlock x1). split; [done|]. cbn. f_equal.
  destruct (better_total x1 x2) as [Hb|[Hb|[_ ->]]]; [exfalso..|done]; apply better_iff in Hb.
  - assert (better y1 x2 = true); [|congruence]. apply better_iff.
    rewrite <-E1, Hyh1, <-Hh1. done.
  - assert (better y2 x1 = true); [|congruence]. apply better_iff.
    rewrite E2, Hyh2, <-Hh2. done.
Qed.

Lemma fork_choice_converges_witness :
  let l1 := [toy_child 1 2 160; toy_child 2 4 220; toy_child 1 3 161; toy_child 3 5 221] in
  let l2 := [toy_child 1 3 161; toy_child 1 2 160; toy_child 3 5 221; toy_child 2 4 220] in
  exists h, best_hash (grow toy_hash empty_index (toy_genesis :: l1)) = Some h /\
            best_hash (grow toy_hash empty_index (toy_genesis :: l2)) = Some h.
Proof.
  intros l1 l2. apply fork_choice_converges.
  - unfold l1, l2. intros b. rewrite !elem_of_cons. tauto.
  - unfold l1. intros b b'. rewrite !elem_of_cons, !elem_of_nil.
    intros [->|[->|[->|[->|[->|[]]]]]] [->|[->|[->|[->|[->|[]]]]]]; vm_compute; intros E;
      reflexivity || discriminate E.
  - unfold l1. intros b. rewrite !elem_of_cons, elem_of_nil.
    intros [->|[->|[->|[->|[->|[]]]]]]; vm_compute; discriminate.
  - apply all_linkableb_true. vm_compute. reflexivity.
  - apply all_linkableb_true. vm_compute. reflexivity.
Defined.

(** ** The active chain *)

(** [vChain] holds at each height the ancestor of the tip. *)
Definition represents (a : arena) (c : CChain) (tip : option nat) : Prop :=
  match tip with
  | None => c = []
  | Some t => exists e, a !! t = Some e /\ zlen c = nHeight e + 1 /\
      forall k, (k <= Z.to_nat (nHeight e))%nat -> c !! k = Some (up a (Z.to_nat (nHeight e) - k) t)
  end.

(** [x] is [p] or below it. *)
Definition ancestor (a : arena) (x p : nat) : Prop := exists n, up a n p = Some x.

Lemma chain_at_lookup c k : chain_at c (Z.of_nat k) = mjoin (c !! k).
Proof.
  unfold chain_at. rewrite Nat2Z.id. destruct (Z.ltb_spec (Z.of_nat k) 0); [lia|].
  destruct (Z.leb_spec (zlen c) (Z.of_nat k)); bsimpl; [|by destruct (c !! k)].
  rewrite lookup_ge_None_2; [done|]. unfold zlen in *. lia.
Qed.

Lemma is_ptr_true e p : is_ptr e p = true <-> e = Some p.
Proof.
  destruct e as [q|]; cbn [is_ptr]; [|done]. rewrite Nat.eqb_eq. split; [by intros ->|by intros [= ->]].
Qed.

(** A locator from [p]: hashes of ever lower ancestors, the last the genesis. *)
Inductive locator_path (a : arena) : nat -> list bytes -> Prop :=
| locator_root p e : a !! p = Some e -> nHeight e = 0 -> locator_path a p [phashBlock e]
| locator_step p e q eq l :
    a !! p = Some e -> a !! q = Some eq -> ancestor a q p -> nHeight eq < nHeight e ->
    locator_path a q l -> locator_path a p (phashBlock e :: l).

Section Active.
Context (a : arena) (Ha : arena_ok a).

Lemma height_nonneg p e : a !! p = Some e -> 0 <= nHeight e.
Proof. intros Hp. apply (eo_height _ _ _ (ao_entry a Ha p e Hp)). Qed.

(** Below an entry of the vector there are its ancestors. *)
Definition consistent (c : CChain) (h : nat) : Prop :=
  forall k x, (k <= h)%nat -> c !! k = Some (Some x) ->
  forall k', (k' <= k)%nat -> c !! k' = Some (up a (k - k') x).

Lemma set_tip_loop_spec fuel : forall i e c,
  a !! i = Some e -> nHeight e < Z.of_nat fuel -> nHeight e < zlen c ->
  consistent c (Z.to_nat (nHeight e)) ->
  let c' := set_tip_loop a fuel (Some i) c in
  length c' = length c /\
  (forall k, (k <= Z.to_nat (nHeight e))%nat -> c' !! k = Some (up a (Z.to_nat (nHeight e) - k) i)) /\
  (forall k, (Z.to_nat (nHeight e) < k)%nat -> c' !! k = c !! k).
Proof.
  induction fuel as [|fuel IH]; intros i e c Hi Hf Hc Hcons; pose proof (height_nonneg i e Hi) as Hh0; [lia|].
  cbn [set_tip_loop]. rewrite Hi. unfold zlen in Hc.
  set (h := Z.to_nat (nHeight e)) in *.
  assert (Hat : chain_at c (nHeight e) = mjoin (c !! h)).
  { rewrite <-(chain_at_lookup c h). f_equal. lia. }
  destruct (is_ptr (chain_at c (nHeight e)) i) eqn:E.
  { rewrite is_ptr_true, Hat in E. destruct (c !! h) as [y|] eqn:Ey; [|done]. cbn in E. subst y.
    split; [done|]. split; [|done]. intros k Hk. by apply (Hcons h). }
  destruct (pprev e) as [q|] eqn:Eq; cycle 1.
  { assert (h = 0%nat) as Hz.
    { pose proof (eo_link _ _ _ (ao_entry a Ha i e Hi)) as L. rewrite Eq in L. lia. }
    destruct fuel; cbn [set_tip_loop]; rewrite length_insert; (split; [done|]); split; intros k Hk.
    1,3: replace k with h by lia; rewrite list_lookup_insert_eq by lia; by rewrite Nat.sub_diag.
    all: rewrite list_lookup_insert_ne by lia; done. }
  destruct (parent_ok a Ha i e q Hi Eq) as (_ & eq & Hq & Hhq & _).
  pose proof (height_nonneg q eq Hq) as Hq0.
  destruct (IH q eq (<[h := Some i]> c) Hq) as (Hl & Hlow & Hhigh); [lia| | |].
  { unfold zlen. rewrite length_insert. lia. }
  { intros k x Hk Hx k' Hk'. rewrite list_lookup_insert_ne in Hx |- * by lia. apply (Hcons k x); [lia|done..]. }
  rewrite length_insert in Hl. split; [done|]. split; intros k Hk.
  - destruct (decide (k = h)) as [->|Hne].
    + rewrite Hhigh by lia. rewrite list_lookup_insert_eq by lia. by rewrite Nat.sub_diag.
    + rewrite Hlow by lia. replace (h - k)%nat with (S (Z.to_nat (nHeight eq) - k)) by lia.
      cbn [up]. rewrite Hi. cbn [mbind option_bind]. by rewrite Eq.
  - rewrite Hhigh by lia. by apply list_lookup_insert_ne; lia.
Qed.

Lemma represents_tip c t : represents a c (Some t) ->
  chain_Tip c = Some t /\ exists e, a !! t = Some e /\ chain_Height c = nHeight e.
Proof.
  intros (et & Ht & Hlen & Hk). pose proof (height_nonneg t et Ht). unfold chain_Tip, chain_Height. rewrite Hlen.
  replace (nHeight et + 1 - 1) with (nHeight et) by lia. split; [|by exists et].
  replace (nHeight et) with (Z.of_nat (Z.to_nat (nHeight et))) by lia.
  rewrite chain_at_lookup, Hk by lia. by rewrite Nat.sub_diag.
Qed.

Lemma resize_length n c : length (resize n c) = n.
Proof. unfold resize. rewrite length_app, length_take, repeat_length. lia. Qed.

Lemma resize_lookup n c k x : resize n c !! k = Some (Some x) -> c !! k = Some (Some x).
Proof.
  unfold resize. intros [H|[_ H]]%lookup_app_Some; [by apply lookup_take_Some in H as [? _]|].
  apply list_elem_of_lookup_2 in H. by apply list_elem_of_In, repeat_spec in H.
Qed.

Lemma resize_lookup_2 n c k x : (k < n)%nat -> c !! k = Some x -> resize n c !! k = Some x.
Proof. intros Hk Hx. unfold resize. apply lookup_app_l_Some. by apply lookup_take_Some. Qed.

Lemma represents_consistent c tip n h : represents a c tip -> (h < n)%nat -> consistent (resize n c) h.
Proof.
  destruct tip as [t|]; cbn [represents]; intros R Hn k x Hk Hx k' Hk'; apply resize_lookup in Hx; [|by rewrite R in Hx].
  destruct R as (e & Ht & Hlen & R). pose proof (height_nonneg t e Ht).
  pose proof (lookup_lt_Some _ _ _ Hx) as Hlt. unfold zlen in Hlen.
  apply resize_lookup_2; [lia|]. rewrite R in Hx |- * by lia. injection Hx as Hx. f_equal.
  replace (Z.to_nat (nHeight e) - k')%nat with ((Z.to_nat (nHeight e) - k) + (k - k'))%nat by lia.
  by rewrite up_add, Hx.
Qed.

Lemma SetTip_spec c tip p :
  represents a c tip -> match p with Some i => is_Some (a !! i) | None => True end ->
  represents a (SetTip a c p) p.
Proof.
  intros R Hp. destruct p as [i|]; [|done]. destruct Hp as [e Hi]. pose proof (height_nonneg i e Hi).
  unfold SetTip. rewrite Hi. cbv zeta.
  destruct (set_tip_loop_spec (Z.to_nat (nHeight e + 1)) i e (resize (Z.to_nat (nHeight e + 1)) c) Hi) as (L & H1 & _).
  - lia.
  - unfold zlen. rewrite resize_length. lia.
  - apply (represents_consistent c tip); [done|lia].
  - exists e. split; [done|]. split; [|done]. unfold zlen. rewrite L, resize_length. lia.
Qed.

Lemma up_bound n : forall p e q, a !! p = Some e -> up a n p = Some q -> Z.of_nat n <= nHeight e.
Proof.
  induction n as [|n IH]; intros p e q Hp Hu; [by apply height_nonneg in Hp|].
  cbn [up] in Hu. rewrite Hp in Hu. cbn [mbind option_bind] in Hu. destruct (pprev e) as [r|] eqn:Er; [|done].
  destruct (parent_ok a Ha p e r Hp Er) as (_ & er & Hr & Hh & _). specialize (IH r er q Hr Hu). lia.
Qed.

(** An ancestor is found by the difference in height. *)
Lemma ancestor_up x p ex ep :
  a !! x = Some ex -> a !! p = Some ep ->
  ancestor a x p <-> nHeight ex <= nHeight ep /\ up a (Z.to_nat (nHeight ep - nHeight ex)) p = Some x.
Proof.
  intros Hx Hp. split; [|intros [_ H]; by eexists]. intros [n Hn].
  pose proof (up_bound n p ep x Hp Hn) as Hb.
  destruct (up_spec a Ha n p ep Hp Hb) as (x' & ex' & Hn' & Hx' & Hh & _). rewrite Hn in Hn'. simplify_eq.
  split; [lia|]. rewrite <-Hn. f_equal. lia.
Qed.

Lemma ancestor_valid x p ep : a !! p = Some ep -> ancestor a x p -> exists ex, a !! x = Some ex.
Proof.
  intros Hp [n Hn]. pose proof (up_bound n p ep x Hp Hn) as Hb.
  destruct (up_spec a Ha n p ep Hp Hb) as (x' & ex' & Hn' & Hx' & _). rewrite Hn in Hn'. simplify_eq. eauto.
Qed.

Lemma ancestor_refl p : ancestor a p p.
Proof. by exists 0%nat. Qed.

Lemma ancestor_trans x y z : ancestor a x y -> ancestor a y z -> ancestor a x z.
Proof. intros [n Hn] [m Hm]. exists (m + n)%nat. by rewrite up_add, Hm. Qed.

(** Between an entry and an ancestor, the entry at a height in between. *)
Lemma ancestor_between x y p ep h ex :
  a !! p = Some ep -> a !! x = Some ex -> ancestor a x p -> nHeight ex <= h <= nHeight ep ->
  up a (Z.to_nat (nHeight ep - h)) p = Some y -> ancestor a x y.
Proof.
  intros Hp Hx Hanc Hh Hy. apply (ancestor_up x p ex ep Hx Hp) in Hanc as [_ Hanc].
  exists (Z.to_nat (h - nHeight ex)).
  replace (Z.to_nat (nHeight ep - nHeight ex))
    with (Z.to_nat (nHeight ep - h) + Z.to_nat (h - nHeight ex))%nat in Hanc by lia.
  by rewrite up_add, Hy in Hanc.
Qed.

Lemma ancestor_parent x p ep q :
  a !! p = Some ep -> pprev ep = Some q -> ancestor a x p -> x <> p -> ancestor a x q.
Proof.
  intros Hp Hq [[|n] Hn] Hne; [by injection Hn as ->|]. cbn [up] in Hn. rewrite Hp in Hn.
  cbn [mbind option_bind] in Hn. rewrite Hq in Hn. by exists n.
Qed.

Lemma parent_ancestor p ep q : a !! p = Some ep -> pprev ep = Some q -> ancestor a q p.
Proof. intros Hp Hq. exists 1%nat. cbn [up]. rewrite Hp. cbn [mbind option_bind]. by rewrite Hq. Qed.

Lemma root_zero p ep : a !! p = Some ep -> nHeight ep = 0 -> p = 0%nat.
Proof.
  intros Hp Hh. pose proof (eo_link _ _ _ (ao_entry a Ha p ep Hp)) as L.
  destruct (pprev ep) as [q|]; [|apply L]. destruct L as (_ & eq & Hq & He & _).
  pose proof (height_nonneg q eq Hq). lia.
Qed.

Lemma root_ancestor p ep : a !! p = Some ep -> ancestor a 0 p.
Proof.
  intros Hp. pose proof (height_nonneg p ep Hp).
  destruct (up_spec a Ha (Z.to_nat (nHeight ep)) p ep Hp) as (q & eq & Hq & He & Hh & _); [lia|].
  rewrite (root_zero q eq He ltac:(lia)) in Hq. by eexists.
Qed.

Lemma Contains_spec c t p e :
  represents a c (Some t) -> a !! p = Some e -> Contains a c p = true <-> ancestor a p t.
Proof.
  intros (et & Ht & Hlen & R) Hp. unfold Contains. rewrite Hp, is_ptr_true.
  pose proof (height_nonneg p e Hp). pose proof (height_nonneg t et Ht).
  rewrite (ancestor_up p t e et Hp Ht).
  replace (nHeight e) with (Z.of_nat (Z.to_nat (nHeight e))) at 1 by lia.
  rewrite chain_at_lookup. unfold zlen in Hlen. split.
  - intros Hc. destruct (c !! Z.to_nat (nHeight e)) as [y|] eqn:Ey; [|done]. cbn in Hc. subst y.
    pose proof (lookup_lt_Some _ _ _ Ey). rewrite R in Ey by lia. injection Ey as Ey.
    split; [lia|]. rewrite <-Ey. f_equal. lia.
  - intros [Hle Hu]. rewrite R by lia. cbn. rewrite <-Hu. f_equal. lia.
Qed.

(** [f] is the highest entry in common of a predicate and the ancestors of [p]. *)
Definition last_with (P : nat -> Prop) (p f : nat) : Prop :=
  ancestor a f p /\ P f /\ forall x, ancestor a x p -> P x -> ancestor a x f.

Lemma find_fork_loop_spec c t fuel : forall p e,
  represents a c (Some t) -> a !! p = Some e -> nHeight e < Z.of_nat fuel ->
  exists f, find_fork_loop a c fuel (Some p) = Some f /\ last_with (fun x => ancestor a x t) p f.
Proof.
  induction fuel as [|fuel IH]; intros p e R Hp Hf; pose proof (height_nonneg p e Hp); [lia|].
  cbn [find_fork_loop]. pose proof (Contains_spec c t p e R Hp) as HC.
  destruct (Contains a c p).
  { exists p. split; [done|]. split; [apply ancestor_refl|]. split; [by apply HC|done]. }
  assert (~ ancestor a p t) as Hno by (rewrite <-HC; done). rewrite Hp.
  destruct (pprev e) as [q|] eqn:Eq.
  - destruct (parent_ok a Ha p e q Hp Eq) as (_ & eq & Hq & Hh & _).
    destruct (IH q eq R Hq ltac:(lia)) as (f & Hf' & F1 & F2 & F3). exists f. split; [done|].
    split; [by eapply ancestor_trans; [|apply (parent_ancestor p e q)]|]. split; [done|].
    intros x Hx Hxt. apply F3; [|done]. apply (ancestor_parent x p e q); [done..|by intros ->].
  - exfalso. apply Hno. pose proof (eo_link _ _ _ (ao_entry a Ha p e Hp)) as L. rewrite Eq in L.
    destruct L as [_ ->]. destruct R as (et & Ht & _). by apply (root_ancestor t et).
Qed.

Lemma FindFork_spec c t p :
  represents a c (Some t) -> is_Some (a !! p) ->
  exists f, FindFork a c (Some p) = Some f /\ last_with (fun x => ancestor a x t) p f.
Proof.
  intros R [e Hp]. pose proof R as (et & Ht & Hlen & _). pose proof (height_nonneg t et Ht).
  unfold FindFork. rewrite Hp. unfold chain_Height. rewrite Hlen.
  replace (nHeight et + 1 - 1) with (nHeight et) by lia.
  destruct (Z.ltb_spec (nHeight et) (nHeight e)); [|by apply (find_fork_loop_spec c t _ p e); [| |lia]].
  rewrite (GetAncestor_spec a Ha p e) by (done || lia).
  destruct (up_spec a Ha (Z.to_nat (nHeight e - nHeight et)) p e Hp) as (q & eq & Hq & He & Hh & _); [lia|].
  rewrite Hq. destruct (find_fork_loop_spec c t (S (Z.to_nat (nHeight e))) q eq R He) as (f & Hf & F1 & F2 & F3); [lia|].
  exists f. split; [done|]. split; [apply (ancestor_trans f q p F1); by eexists|]. split; [done|].
  intros x Hx Hxt. apply F3; [|done]. destruct (ancestor_valid x p e Hp Hx) as [ex Hex].
  pose proof (proj1 (ancestor_up x t ex et Hex Ht) Hxt) as [Hxh _].
  apply (ancestor_between x q p e (nHeight et) ex Hp Hex Hx); [lia|done].
Qed.

Lemma meet_loop_spec fuel : forall p q ep eq,
  a !! p = Some ep -> a !! q = Some eq -> nHeight ep = nHeight eq -> nHeight ep <= Z.of_nat fuel ->
  exists f, meet_loop a fuel p q = Some f /\ last_with (fun x => ancestor a x q) p f.
Proof.
  induction fuel as [|fuel IH]; intros p q ep eq Hp Hq Hh Hf; pose proof (height_nonneg p ep Hp); cbn [meet_loop];
    (destruct (Nat.eqb_spec p q) as [->|Hne];
     [exists q; split; [done|]; split; [apply ancestor_refl|]; split; [apply ancestor_refl|done]|]).
  { exfalso. apply Hne. rewrite (root_zero p ep Hp), (root_zero q eq Hq); lia. }
  rewrite Hp, Hq. destruct (Z.eq_dec (nHeight ep) 0) as [Hz|Hz].
  { exfalso. apply Hne. rewrite (root_zero p ep Hp), (root_zero q eq Hq); lia. }
  destruct (parent_exists a Ha p ep Hp) as [p' Ep]; [lia|]. destruct (parent_exists a Ha q eq Hq) as [q' Eq]; [lia|].
  rewrite Ep, Eq. destruct (parent_ok a Ha p ep p' Hp Ep) as (_ & ep' & Hp' & Hhp & _).
  destruct (parent_ok a Ha q eq q' Hq Eq) as (_ & eq' & Hq' & Hhq & _).
  destruct (IH p' q' ep' eq' Hp' Hq') as (f & Hf' & F1 & F2 & F3); [lia..|].
  exists f. split; [done|]. split; [by eapply ancestor_trans; [|apply (parent_ancestor p ep p')]|].
  split; [by eapply ancestor_trans; [|apply (parent_ancestor q eq q')]|].
  intros x Hxp Hxq. assert (x <> p /\ x <> q) as [Hnp Hnq].
  { split; intros ->.
    - apply (ancestor_up p q ep eq Hp Hq) in Hxq as [_ Hu]. replace (nHeight eq - nHeight ep) with 0 in Hu by lia.
      by injection Hu as ->.
    - apply (ancestor_up q p eq ep Hq Hp) in Hxp as [_ Hu]. replace (nHeight ep - nHeight eq) with 0 in Hu by lia.
      by injection Hu as ->. }
  apply F3; [by apply (ancestor_parent x p ep p')|by apply (ancestor_parent x q eq q')].
Qed.

Lemma LastCommonAncestor_spec p q :
  is_Some (a !! p) -> is_Some (a !! q) ->
  exists f, LastCommonAncestor a p q = Some f /\ last_with (fun x => ancestor a x q) p f.
Proof.
  intros [ep Hp] [eq Hq]. unfold LastCommonAncestor. rewrite Hp, Hq.
  pose proof (height_nonneg p ep Hp). pose proof (height_nonneg q eq Hq).
  set (h := Z.min (nHeight ep) (nHeight eq)).
  destruct (up_spec a Ha (Z.to_nat (nHeight ep - h)) p ep Hp) as (p' & ep' & Up & Hp' & Hhp & _); [lia|].
  destruct (up_spec a Ha (Z.to_nat (nHeight eq - h)) q eq Hq) as (q' & eq' & Uq & Hq' & Hhq & _); [lia|].
  assert ((if nHeight eq <? nHeight ep then GetAncestor a p (nHeight eq) else Some p) = Some p') as ->.
  { destruct (Z.ltb_spec (nHeight eq) (nHeight ep)).
    - rewrite (GetAncestor_spec a Ha p ep) by (done || lia). rewrite <-Up. f_equal. lia.
    - rewrite <-Up. replace (nHeight ep - h) with 0 by lia. done. }
  assert ((if nHeight ep <? nHeight eq then GetAncestor a q (nHeight ep) else Some q) = Some q') as ->.
  { destruct (Z.ltb_spec (nHeight ep) (nHeight eq)).
    - rewrite (GetAncestor_spec a Ha q eq) by (done || lia). rewrite <-Uq. f_equal. lia.
    - rewrite <-Uq. replace (nHeight eq - h) with 0 by lia. done. }
  destruct (meet_loop_spec (Z.to_nat (nHeight ep)) p' q' ep' eq' Hp' Hq') as (f & Hf & F1 & F2 & F3); [lia..|].
  exists f. split; [done|]. split; [apply (ancestor_trans f p' p F1); by eexists|].
  split; [apply (ancestor_trans f q' q F2); by eexists|]. intros x Hxp Hxq.
  destruct (ancestor_valid x p ep Hp Hxp) as [ex Hx].
  pose proof (proj1 (ancestor_up x p ex ep Hx Hp) Hxp) as [? _].
  pose proof (proj1 (ancestor_up x q ex eq Hx Hq) Hxq) as [? _].
  apply F3; [apply (ancestor_between x p' p ep h ex)|apply (ancestor_between x q' q eq h ex)]; done || lia.
Qed.

Lemma lower_bound_spec c T fuel : forall first len,
  (forall j k, (j <= k)%nat -> chain_below a c T k = true -> chain_below a c T j = true) ->
  (len <= fuel)%nat ->
  (forall k, (k < first)%nat -> chain_below a c T k = true) ->
  (forall k, (first + len <= k)%nat -> chain_below a c T k = false) ->
  let r := lower_bound a c T fuel first len in
  (first <= r <= first + len)%nat /\ (forall k, (k < r)%nat <-> chain_below a c T k = true).
Proof.
  induction fuel as [|fuel IH]; intros first len Hmono Hf Hlo Hhi; cbn [lower_bound].
  - split; [lia|]. intros k. split; [apply Hlo|]. intros Hk. destruct (decide (k < first)%nat); [done|].
    rewrite Hhi in Hk by lia. done.
  - destruct (Nat.eqb_spec len 0) as [->|Hne].
    { split; [lia|]. intros k. split; [apply Hlo|]. intros Hk. destruct (decide (k < first)%nat); [done|].
      rewrite Hhi in Hk by lia. done. }
    pose proof (Nat.lt_div2 len ltac:(lia)) as Hd. cbv zeta. revert Hd. generalize (Nat.div2 len) as d. intros d Hd.
    destruct (chain_below a c T (first + d)) eqn:E.
    + destruct (IH (first + d + 1)%nat (len - d - 1)%nat) as [Hr Hk]; [done|lia|..].
      * intros k Hk. apply (Hmono k (first + d)%nat); [lia|done].
      * intros k Hk. apply Hhi. lia.
      * split; [lia|done].
    + destruct (IH first d) as [Hr Hk]; [done|lia|done| |].
      * intros k Hk. destruct (chain_below a c T k) eqn:Ek; [|done].
        by rewrite (Hmono (first + d)%nat k Hk Ek) in E.
      * split; [lia|done].
Qed.

Lemma chain_below_spec c t et T k :
  represents a c (Some t) -> a !! t = Some et ->
  chain_below a c T k = true <->
  exists x ex, a !! x = Some ex /\ ancestor a x t /\ nHeight ex = Z.of_nat k /\ nTimeMax ex < T /\
               c !! k = Some (Some x).
Proof.
  intros (et' & Ht & Hlen & R) Ht'. assert (et' = et) as -> by congruence. pose proof (height_nonneg t et Ht).
  unfold chain_below. rewrite chain_at_lookup. unfold zlen in Hlen. split.
  - intros Hb. destruct (c !! k) as [y|] eqn:Ey; [|done]. pose proof (lookup_lt_Some _ _ _ Ey) as Hk.
    rewrite R in Ey by lia.
    destruct (up_spec a Ha (Z.to_nat (nHeight et) - k) t et Ht) as (x & ex & Hu & Hx & Hh & _); [lia|].
    rewrite Hu in Ey. injection Ey as <-. cbn in Hb. rewrite Hx in Hb. bool_prop.
    exists x, ex. repeat split; [done|by eexists|lia|done].
  - intros (x & ex & Hx & _ & _ & HT & ->). cbn. rewrite Hx. by apply Z.ltb_lt.
Qed.

Lemma chain_lookup c t et x ex :
  represents a c (Some t) -> a !! t = Some et -> a !! x = Some ex -> ancestor a x t ->
  c !! Z.to_nat (nHeight ex) = Some (Some x).
Proof.
  intros (et' & Ht & Hlen & R) Ht' Hx Hanc. assert (et' = et) as -> by congruence.
  apply (ancestor_up x t ex et Hx Ht) in Hanc as [Hle Hu]. pose proof (height_nonneg x ex Hx).
  rewrite R by lia. rewrite <-Hu. do 2 f_equal. lia.
Qed.

Lemma time_mono x p ex ep : a !! x = Some ex -> a !! p = Some ep -> ancestor a x p -> nTimeMax ex <= nTimeMax ep.
Proof.
  intros Hx Hp Hanc. apply (ancestor_up x p ex ep Hx Hp) in Hanc as [Hle Hu]. pose proof (height_nonneg x ex Hx).
  destruct (up_spec a Ha (Z.to_nat (nHeight ep - nHeight ex)) p ep Hp) as (x' & ex' & Hu' & Hx' & _ & ? & _); [lia|].
  rewrite Hu in Hu'. by simplify_eq.
Qed.

(** Of two blocks of the chain the lower one is an ancestor. *)
Lemma chain_linear t et x y ex ey :
  a !! t = Some et -> a !! x = Some ex -> a !! y = Some ey -> ancestor a x t -> ancestor a y t ->
  nHeight ex <= nHeight ey -> ancestor a x y.
Proof.
  intros Ht Hx Hy Hxt Hyt Hle. apply (ancestor_up y t ey et Hy Ht) in Hyt as [? Hu].
  by apply (ancestor_between x y t et (nHeight ey) ex).
Qed.

Lemma FindEarliestAtLeast_spec c t T :
  represents a c (Some t) ->
  match FindEarliestAtLeast a c T with
  | Some p => exists e, a !! p = Some e /\ ancestor a p t /\ T <= nTimeMax e /\
              forall x ex, a !! x = Some ex -> ancestor a x t -> T <= nTimeMax ex -> ancestor a p x
  | None => forall x ex, a !! x = Some ex -> ancestor a x t -> nTimeMax ex < T
  end.
Proof.
  intros R. pose proof R as (et & Ht & Hlen & R'). pose proof (height_nonneg t et Ht). unfold zlen in Hlen.
  unfold FindEarliestAtLeast. rewrite chain_at_lookup.
  destruct (lower_bound_spec c T (length c) 0 (length c)) as [Hr Hk]; [|lia|lia| |].
  { intros j k Hjk. rewrite !(chain_below_spec c t et) by done. intros (x & ex & Hx & Hxt & Hh & HT & _).
    pose proof (proj1 (ancestor_up x t ex et Hx Ht) Hxt) as [? _].
    destruct (up_spec a Ha (Z.to_nat (nHeight et) - j) t et Ht) as (y & ey & Hu & Hy & Hhy & _); [lia|].
    assert (ancestor a y t) by (by eexists).
    exists y, ey. repeat split; [done..|lia| |rewrite R' by lia; by rewrite Hu].
    pose proof (time_mono y x ey ex Hy Hx ltac:(eapply chain_linear; [exact Ht|done..|lia])). lia. }
  { intros k Hge. destruct (chain_below a c T k) eqn:E; [|done].
    apply (chain_below_spec c t et) in E as (x & ex & _ & _ & _ & _ & Hx); [|done..].
    apply lookup_lt_Some in Hx. lia. }
  set (r := lower_bound a c T (length c) 0 (length c)) in *.
  assert (Hbelow : forall x ex, a !! x = Some ex -> ancestor a x t -> (Z.to_nat (nHeight ex) < r)%nat <-> nTimeMax ex < T).
  { intros x ex Hx Hxt. rewrite Hk, (chain_below_spec c t et) by done. pose proof (height_nonneg x ex Hx).
    pose proof (chain_lookup c t et x ex R Ht Hx Hxt) as Hcx. split.
    - intros (y & ey & Hy & _ & _ & HT & Hcy). rewrite Hcx in Hcy. injection Hcy as ->. by simplify_eq.
    - intros HT. exists x, ex. repeat split; [done..|lia|done|done]. }
  destruct (decide (r < length c)%nat) as [Hlt|Hge].
  - rewrite R' by lia. cbn.
    destruct (up_spec a Ha (Z.to_nat (nHeight et) - r) t et Ht) as (p & e & Hu & Hp & Hh & _); [lia|].
    rewrite Hu. assert (Hpt : ancestor a p t) by (by eexists). exists e. split; [done|]. split; [done|].
    pose proof (Hbelow p e Hp Hpt) as HB. split; [lia|]. intros x ex Hx Hxt HT.
    pose proof (Hbelow x ex Hx Hxt). pose proof (height_nonneg x ex Hx). apply (chain_linear t et p x e ex); [done..|lia].
  - rewrite lookup_ge_None_2 by lia. cbn. intros x ex Hx Hxt. apply (Hbelow x ex Hx Hxt).
    pose proof (proj1 (ancestor_up x t ex et Hx Ht) Hxt) as [? _]. lia.
Qed.

Lemma locator_loop_spec c t fuel : forall nStep vHave p e,
  represents a c (Some t) -> a !! p = Some e -> nHeight e < Z.of_nat fuel -> 1 <= nStep ->
  exists l, locator_loop a c fuel nStep vHave (Some p) = vHave ++ l /\ locator_path a p l.
Proof.
  induction fuel as [|fuel IH]; intros nStep vHave p e R Hp Hf Hs; pose proof (height_nonneg p e Hp); [lia|].
  cbn [locator_loop]. rewrite Hp. cbv zeta. destruct (Z.eqb_spec (nHeight e) 0) as [Hz|Hz].
  { exists [phashBlock e]. split; [done|]. by apply locator_root. }
  set (h := Z.max (nHeight e - nStep) 0).
  destruct (up_spec a Ha (Z.to_nat (nHeight e - h)) p e Hp) as (q & eq & Hu & Hq & Hh & _); [lia|].
  assert ((if Contains a c p then chain_at c h else GetAncestor a p h) = Some q) as ->.
  { destruct (Contains a c p) eqn:EC.
    - pose proof R as (et & Ht & _). apply (Contains_spec c t p e R Hp) in EC.
      assert (ancestor a q t) as Hqt by (apply (ancestor_trans q p t); [by eexists|done]).
      pose proof (chain_lookup c t et q eq R Ht Hq Hqt) as Hl. pose proof (height_nonneg q eq Hq).
      replace h with (Z.of_nat (Z.to_nat (nHeight eq))) by lia. by rewrite chain_at_lookup, Hl.
    - by rewrite (GetAncestor_spec a Ha p e) by (done || lia). }
  match goal with |- context [locator_loop a c fuel ?n ?v (Some q)] =>
    destruct (IH n v q eq R Hq ltac:(lia) ltac:(case_ifs; lia)) as (l & -> & Hl) end.
  exists (phashBlock e :: l). split; [by rewrite <-app_assoc|].
  apply (locator_step a p e q eq); [done|done|by eexists|lia|done].
Qed.

Lemma GetLocator_spec c t p :
  represents a c (Some t) -> is_Some (a !! p) -> locator_path a p (GetLocator a c (Some p)).
Proof.
  intros R [e Hp]. pose proof (height_nonneg p e Hp). unfold GetLocator. rewrite Hp.
  destruct (locator_loop_spec c t (S (Z.to_nat (nHeight e))) 1 [] p e R Hp) as (l & -> & Hl); [lia..|done].
Qed.
End Active.

(** One spacing per height between two entries. *)
Lemma GetBlockProofEquivalentTime_spec a p q ep eq spacing :
  arena_ok a -> a !! p = Some ep -> a !! q = Some eq -> 0 < spacing < 2 ^ 31 ->
  GetBlockProofEquivalentTime spacing ep eq = Some ((nHeight ep - nHeight eq) * spacing).
Proof.
  intros Ha Hp Hq Hs. unfold GetBlockProofEquivalentTime.
  destruct (ao_entry a Ha p ep Hp) as [Hhp [Wp Vp] _ _ _]. destruct (ao_entry a Ha q eq Hq) as [Hhq [Wq Vq] _ _ _].
  pose proof (lookup_lt_Some _ _ _ Hp). pose proof (lookup_lt_Some _ _ _ Hq). pose proof (ao_size a Ha) as Hsz.
  unfold zlen in Hsz.
  rewrite CompareTo_spec, Vp, Vq by (destruct Wp, Wq; congruence).
  destruct (of_uint64_spec spacing ltac:(lia)) as [Sok Sv]. destruct proof_ok as [Pok Pv].
  assert (Hrest : forall r sign d, uint_ok r -> val r = d -> 0 <= d < 2 ^ 31 -> sign = 1 \/ sign = -1 ->
    match uint_div (uint_mul r (of_uint64 spacing)) GetBlockProof with
    | None => None
    | Some r => Some (if (63 <? bits r)%nat then sign * INT64_MAX else swrap 64 (uwrap 64 (sign * GetLow64 r)))
    end = Some (sign * d * spacing)).
  { intros r sign d Rok Rv Hd Hsign.
    destruct (uint_mul_spec r (of_uint64 spacing) Rok Sok) as [Mok Mv].
    rewrite Rv, Sv, Z.mod_small in Mv by nia.
    pose proof (uint_div_spec (uint_mul r (of_uint64 spacing)) GetBlockProof Mok Pok) as D.
    destruct (uint_div _ _) as [x|]; [|lia]. destruct D as (_ & Xok & Xv). rewrite Pv, Z.div_1_r, Mv in Xv. f_equal.
    assert (Hb : (bits x <= 63)%nat).
    { destruct (bits_spec x Xok) as [[_ ->]|[_ [Hlo _]]]; [lia|]. rewrite Xv in Hlo.
      destruct (decide (bits x <= 63)%nat); [done|].
      assert (2 ^ 63 <= 2 ^ (Z.of_nat (bits x) - 1)) by (apply Z.pow_le_mono_r; lia). nia. }
    replace (63 <? bits x)%nat with false by (symmetry; apply Nat.ltb_ge; lia).
    rewrite (GetLow64_spec x Xok), Xv, (Z.mod_small (d * spacing)) by nia.
    unfold swrap, uwrap. rewrite Z.mod_mod by done.
    destruct Hsign as [-> | ->].
    - rewrite Z.mod_small by nia. destruct (Z.ltb_spec (1 * (d * spacing)) (2 ^ (64 - 1))); nia.
    - destruct (Z.eq_dec d 0) as [->|]; [done|].
      replace ((-1 * (d * spacing)) mod 2 ^ 64) with (2 ^ 64 - d * spacing)
        by (rewrite <-(Z.mod_add _ 1), Z.mod_small by nia; lia).
      destruct (Z.ltb_spec (2 ^ 64 - d * spacing) (2 ^ (64 - 1))); nia. }
  destruct (Z.compare_spec (nHeight ep + 1) (nHeight eq + 1)) as [E|E|E]; cbn [Z.ltb Z.compare].
  - destruct (uint_sub_spec (nChainWork eq) (nChainWork ep) Wq Wp) as [Dok Dv].
    rewrite (Hrest _ (-1) 0 Dok); [f_equal; nia| |lia|by right]. rewrite Dv. replace (_ - _) with 0 by lia. done.
  - destruct (uint_sub_spec (nChainWork eq) (nChainWork ep) Wq Wp) as [Dok Dv].
    rewrite (Hrest _ (-1) (nHeight eq - nHeight ep) Dok); [f_equal; nia| |lia|by right].
    rewrite Dv, Z.mod_small; lia.
  - destruct (uint_sub_spec (nChainWork ep) (nChainWork eq) Wp Wq) as [Dok Dv].
    rewrite (Hrest _ 1 (nHeight ep - nHeight eq) Dok); [f_equal; nia| |lia|by left].
    rewrite Dv, Z.mod_small; lia.
Qed.

(** ** The node's view: headers arrive, tips are set *)
Section Reach.
Context (GetHash : CBlockHeader -> bytes).

Inductive chain_reach : BlockIndexState -> CChain -> option nat -> Prop :=
| reach_init : chain_reach empty_index [] None
| reach_header s c t b :
    chain_reach s c t -> linkable GetHash (entries s) b ->
    chain_reach (AddToBlockIndex GetHash s b).2 c t
| reach_tip s c t p :
    chain_reach s c t -> is_Some (entries s !! p) ->
    chain_reach s (SetTip (entries s) c (Some p)) (Some p)
| reach_clear s c t : chain_reach s c t -> chain_reach s (SetTip (entries s) c None) None.

Lemma add_extends s b :
  index_ok s -> linkable GetHash (entries s) b ->
  exists k, entries (AddToBlockIndex GetHash s b).2 = entries s ++ k.
Proof.
  intros [Ha _] Hl. destruct (mapBlockIndex_find (entries s) (GetHash b)) as [p|] eqn:E.
  - exists []. unfold AddToBlockIndex. by rewrite E, app_nil_r.
  - destruct (add_fresh GetHash s b Ha (proj1 Hl) E) as [-> _]. by eexists.
Qed.

Lemma represents_app a k c t : arena_ok a -> represents a c t -> represents (a ++ k) c t.
Proof.
  intros Ha. destruct t as [t|]; [|done]. intros (e & Ht & Hl & R). exists e.
  split; [by apply lookup_app_l_Some|]. split; [done|]. intros j Hj.
  rewrite up_app; [by apply R|done|by apply lookup_lt_Some in Ht].
Qed.

Lemma reach_ok s c t : chain_reach s c t -> index_ok s /\ represents (entries s) c t.
Proof.
  induction 1 as [|s c t b _ [Hs R] Hl|s c t p _ [Hs R] Hp|s c t _ [Hs R]].
  - split; [apply empty_index_ok|done].
  - split; [by apply add_index_ok|]. destruct (add_extends s b Hs Hl) as [k ->].
    apply represents_app; [apply Hs|done].
  - split; [done|]. by apply (SetTip_spec _ (proj1 Hs) c t).
  - done.
Qed.
End Reach.

(** The active chain. However headers arrive and tips are set, [vChain]
    is the list of the tip's ancestors: [SetTip], which stops at the first
    entry already in place, leaves what a full rebuild would. So [Contains] is
    being an ancestor of the tip, [FindFork] finds the highest block of the
    chain below a block, [FindEarliestAtLeast]'s binary search finds the lowest
    block of the chain whose time maximum reaches the time, and [GetLocator]
    lists ever lower ancestors down to the genesis block. Any two blocks have
    the last common ancestor [LastCommonAncestor] returns: its final assertion
    never fails. *)
Lemma active_chain_refines (GetHash : CBlockHeader -> bytes) s c t p e :
  chain_reach GetHash s c (Some t) -> entries s !! p = Some e ->
  let a := entries s in
  chain_Tip c = Some t /\
  (Contains a c p = true <-> ancestor a p t) /\
  (exists f, FindFork a c (Some p) = Some f /\ last_with a (fun x => ancestor a x t) p f) /\
  (forall T, match FindEarliestAtLeast a c T with
     | Some q => exists eq, a !! q = Some eq /\ ancestor a q t /\ T <= nTimeMax eq /\
                 forall x ex, a !! x = Some ex -> ancestor a x t -> T <= nTimeMax ex -> ancestor a q x
     | None => forall x ex, a !! x = Some ex -> ancestor a x t -> nTimeMax ex < T
     end) /\
  locator_path a p (GetLocator a c (Some p)) /\
  (forall q, is_Some (a !! q) ->
     exists f, LastCommonAncestor a p q = Some f /\ last_with a (fun x => ancestor a x q) p f).
Proof.
  intros H Hp a. destruct (reach_ok GetHash s c (Some t) H) as [[Ha _] R]. fold a in Ha, R.
  split; [by apply (represents_tip a Ha)|].
  split; [by apply (Contains_spec a Ha c t p e)|].
  split; [apply (FindFork_spec a Ha); [done|by eexists]|].
  split; [intros T; by apply (FindEarliestAtLeast_spec a Ha c t)|].
  split; [apply (GetLocator_spec a Ha c t); [done|by eexists]|].
  intros q Hq. apply (LastCommonAncestor_spec a Ha); [by eexists|done].
Qed.

Lemma toy_reach : chain_reach toy_hash toy_index (SetTip (entries toy_index) [] (Some 2%nat)) (Some 2%nat).
Proof.
  apply (reach_tip _ _ _ None); [|by eexists]. rewrite <-toy_index_eq.
  assert (H : forall l s c t, chain_reach toy_hash s c t -> all_linkable toy_hash s l ->
    chain_reach toy_hash (grow toy_hash s l) c t).
  { induction l as [|b l IH]; intros s c t Hr Hl; [done|]. destruct Hl as [Hb Hl]. cbn [grow foldl].
    apply IH; [by apply reach_header|done]. }
  apply H; [constructor|apply toy_linkable].
Qed.

Lemma active_chain_refines_witness :
  let a := entries toy_index in
  let c := SetTip a [] (Some 2%nat) in
  exists f, FindFork a c (Some 4%nat) = Some f /\ last_with a (fun x => ancestor a x 2) 4 f.
Proof. apply (active_chain_refines toy_hash _ _ 2 4 _ toy_reach eq_refl). Defined.
