(* ===== verification/Pow.v ===== *)
(** * Difficulty

    src/src/pow.cpp: DarkGravityWave and the older interval rule, which choose
    the [nBits] that a header must carry, and [CheckProofOfWork], which on this
    chain accepts every hash. *)

From S2P Require Import Prelude Slots ArithUint Tx Chain.

Local Open Scope Z_scope.

(** The fields of [Consensus::Params] and [CChainParams] the rules read. *)
Record PowParams := mkPow {
  powLimit : bytes;
  kawpowLimit : bytes;
  fPowAllowMinDifficultyBlocks : bool;
  fPowNoRetargeting : bool;
  nPowTargetSpacing : Z;
  nPowTargetTimespan : Z;
  nDGWActivationBlock : Z;
  nKAWPOWActivationTime : Z;
}.

Definition DifficultyAdjustmentInterval (params : PowParams) : Z :=
  Z.quot (nPowTargetTimespan params) (nPowTargetSpacing params).

Definition nPastBlocks : Z := 180.

(** The last block that does not carry the limit by the special rule: back from
    [p] to a multiple of the interval, the genesis block or other bits. *)
Fixpoint last_not_special (a : arena) (params : PowParams) (limit : Z) (fuel p : nat) : option Z :=
  match a !! p with
  | None => None
  | Some e =>
      match pprev e, fuel with
      | Some q, S fuel =>
          if negb (Z.rem (nHeight e) (DifficultyAdjustmentInterval params) =? 0) && (bi_nBits e =? limit)
          then last_not_special a params limit fuel q else Some (bi_nBits e)
      | Some _, O => None
      | None, _ => Some (bi_nBits e)
      end
  end.

Definition SetCompact_target (nBits : Z) : base_uint := let '(t, _, _) := SetCompact nBits in t.

(** The loop over the past blocks, [n] of them left, the [nCountBlocks]th being
    [p]: the block reached, the average and the number of KAWPOW blocks. [None]
    is the failed assertion or a division by zero. *)
Fixpoint dgw_loop (a : arena) (params : PowParams) (n : nat) (nCountBlocks : Z) (p : nat)
    (bnPastTargetAvg : base_uint) (nKAWPOWBlocksFound : Z) : option (nat * base_uint * Z) :=
  match n with
  | O => Some (p, bnPastTargetAvg, nKAWPOWBlocksFound)
  | S n =>
      match a !! p with
      | None => None
      | Some e =>
          let bnTarget := SetCompact_target (bi_nBits e) in
          match (if nCountBlocks =? 1 then Some bnTarget
                 else uint_div (uint_add (uint_mul32 bnPastTargetAvg nCountBlocks) bnTarget)
                               (of_uint64 (nCountBlocks + 1))) with
          | None => None
          | Some avg =>
              let found := if nKAWPOWActivationTime params <=? bi_nTime e
                           then nKAWPOWBlocksFound + 1 else nKAWPOWBlocksFound in
              if negb (nCountBlocks =? nPastBlocks) then
                match pprev e with
                | Some q => dgw_loop a params n (nCountBlocks + 1) q avg found
                | None => None
                end
              else dgw_loop a params n (nCountBlocks + 1) p avg found
          end
      end
  end.

(** [bnNew *= nActualTimespan; bnNew /= nTargetTimespan], cut at the limit. The
    factor converts to [uint32_t], the divisor to [uint64_t]. *)
Definition retarget (params : PowParams) (bnNew : base_uint) (nActualTimespan nTargetTimespan : Z) : option Z :=
  let bnPowLimit := UintToArith256 (powLimit params) in
  match uint_div (uint_mul32 bnNew (uwrap 32 nActualTimespan)) (of_uint64 (uwrap 64 nTargetTimespan)) with
  | None => None
  | Some bnNew =>
      let bnNew := if 0 <? CompareTo bnNew bnPowLimit then bnPowLimit else bnNew in
      Some (GetCompact bnNew false)
  end.

Definition DarkGravityWave (a : arena) (params : PowParams) (pindexLast : nat) (pblock : CBlockHeader) : option Z :=
  match a !! pindexLast with
  | None => None
  | Some last =>
      let nProofOfWorkLimit := GetCompact (UintToArith256 (powLimit params)) false in
      if nHeight last <? nPastBlocks then Some nProofOfWorkLimit else
      if fPowAllowMinDifficultyBlocks params && fPowNoRetargeting params then
        if bi_nTime last + nPowTargetSpacing params * 2 <? nTime pblock then Some nProofOfWorkLimit
        else last_not_special a params nProofOfWorkLimit (Z.to_nat (nHeight last)) pindexLast
      else
      match dgw_loop a params (Z.to_nat nPastBlocks) 1 pindexLast uint_zero 0 with
      | None => None
      | Some (pindex, bnPastTargetAvg, nKAWPOWBlocksFound) =>
          if (nKAWPOWActivationTime params <=? nTime pblock) && negb (nKAWPOWBlocksFound =? nPastBlocks)
          then Some (GetCompact (UintToArith256 (kawpowLimit params)) false) else
          match a !! pindex with
          | None => None
          | Some first =>
              let nActualTimespan := bi_nTime last - bi_nTime first in
              let nTargetTimespan := nPastBlocks * nPowTargetSpacing params in
              let nActualTimespan := if nActualTimespan <? Z.quot nTargetTimespan 3
                                     then Z.quot nTargetTimespan 3 else nActualTimespan in
              let nActualTimespan := if nTargetTimespan * 3 <? nActualTimespan
                                     then nTargetTimespan * 3 else nActualTimespan in
              retarget params bnPastTargetAvg nActualTimespan nTargetTimespan
          end
      end
  end.

Definition CalculateNextWorkRequired (params : PowParams) (last : CBlockIndex) (nFirstBlockTime : Z) : option Z :=
  if fPowNoRetargeting params then Some (bi_nBits last) else
  let timespan := nPowTargetTimespan params in
  let nActualTimespan := bi_nTime last - nFirstBlockTime in
  let nActualTimespan := if nActualTimespan <? Z.quot timespan 4 then Z.quot timespan 4 else nActualTimespan in
  let nActualTimespan := if timespan * 4 <? nActualTimespan then timespan * 4 else nActualTimespan in
  retarget params (SetCompact_target (bi_nBits last)) nActualTimespan timespan.

Definition GetNextWorkRequiredBTC (a : arena) (params : PowParams) (pindexLast : nat) (pblock : CBlockHeader)
    : option Z :=
  match a !! pindexLast with
  | None => None
  | Some last =>
      let nProofOfWorkLimit := GetCompact (UintToArith256 (powLimit params)) false in
      if negb (Z.rem (nHeight last + 1) (DifficultyAdjustmentInterval params) =? 0) then
        if fPowAllowMinDifficultyBlocks params then
          if bi_nTime last + nPowTargetSpacing params * 2 <? nTime pblock then Some nProofOfWorkLimit
          else last_not_special a params nProofOfWorkLimit (Z.to_nat (nHeight last)) pindexLast
        else Some (bi_nBits last)
      else
        let nHeightFirst := nHeight last - (DifficultyAdjustmentInterval params - 1) in
        if nHeightFirst <? 0 then None else
        match GetAncestor a pindexLast nHeightFirst ≫= (a !!.) with
        | None => None
        | Some first => CalculateNextWorkRequired params last (bi_nTime first)
        end
  end.

Definition GetNextWorkRequired (a : arena) (params : PowParams) (pindexLast : nat) (pblock : CBlockHeader)
    : option Z :=
  match a !! pindexLast with
  | None => None
  | Some last =>
      if IsDGWActive (nHeight last + 1) (nDGWActivationBlock params) then DarkGravityWave a params pindexLast pblock
      else GetNextWorkRequiredBTC a params pindexLast pblock
  end.

Definition CheckProofOfWork (hash : bytes) (nBits : Z) (params : PowParams) : bool := true.

(** The main network's parameters. *)
Definition main_pow : PowParams :=
  mkPow (le_bytes 32 (2 ^ 236 - 1)) (le_bytes 32 (2 ^ 216 - 1)) false false 60 (2016 * 60) 1 4102444800.
Definition test_pow : PowParams :=
  mkPow (le_bytes 32 (2 ^ 236 - 1)) (le_bytes 32 (2 ^ 232 - 1)) true false 60 (2016 * 60) 1 4102444800.
Definition regtest_pow : PowParams :=
  mkPow (le_bytes 32 (2 ^ 255 - 1)) (le_bytes 32 (2 ^ 255 - 1)) true true 60 (2016 * 60) 200 3582830167.

(** ** What the rules promise *)

Definition limit_val (params : PowParams) : Z := val (UintToArith256 (powLimit params)).

(** Bits that decode, without sign or overflow, to a target within the limit. *)
Definition in_range (params : PowParams) (nBits : Z) : Prop :=
  exists t, SetCompact nBits = (t, false, false) /\ uint_ok t /\ val t <= limit_val params.

(** Parameters for which the arithmetic cannot wrap: either the chain never
    retargets, or its limit leaves room for the factors. *)
Record pow_wf (params : PowParams) : Prop := {
  pw_limit : uint_ok (UintToArith256 (powLimit params));
  pw_kawpow : uint_ok (UintToArith256 (kawpowLimit params)) /\
              val (UintToArith256 (kawpowLimit params)) <= limit_val params;
  pw_spacing : 0 < nPowTargetSpacing params <= 600;
  pw_timespan : nPowTargetSpacing params <= nPowTargetTimespan params <= 2 ^ 17;
  pw_room : fPowAllowMinDifficultyBlocks params && fPowNoRetargeting params = true \/ limit_val params < 2 ^ 236;
}.

Lemma compact_in_range params a : uint_ok a -> val a <= limit_val params -> in_range params (GetCompact a false).
Proof. intros Ha Hv. destruct (compact_back a Ha) as (t & E & Ht & Hle & _). exists t. repeat split; [done|apply Ht..|lia]. Qed.

Lemma in_range_target params b :
  in_range params b -> uint_ok (SetCompact_target b) /\ 0 <= val (SetCompact_target b) <= limit_val params.
Proof.
  intros (t & E & Ht & Hv). unfold SetCompact_target. rewrite E. split; [done|].
  pose proof (uint_bound t Ht). lia.
Qed.

(** The block [i] steps back carries a target between [lo] and [hi]. *)
Definition targets_between (a : arena) (lo hi : Z) (n p : nat) : Prop :=
  forall i x e, (i < n)%nat -> up a i p = Some x -> a !! x = Some e ->
  lo <= val (SetCompact_target (bi_nBits e)) <= hi.

Section Rules.
Context (a : arena) (Ha : arena_ok a) (params : PowParams) (Hw : pow_wf params).
Context (Hbits : forall p e, a !! p = Some e -> in_range params (bi_nBits e)).

Lemma last_not_special_spec limit fuel : forall p e,
  a !! p = Some e -> nHeight e <= Z.of_nat fuel ->
  exists b, last_not_special a params limit fuel p = Some b /\ in_range params b.
Proof.
  induction fuel as [|fuel IH]; intros p e Hp Hf; cbn [last_not_special]; rewrite Hp;
    destruct (pprev e) as [q|] eqn:Eq; eauto.
  - destruct (parent_ok a Ha p e q Hp Eq) as (_ & eq & Hq & Hh & _). pose proof (height_nonneg a Ha q eq Hq). lia.
  - destruct (parent_ok a Ha p e q Hp Eq) as (_ & eq & Hq & Hh & _).
    destruct (_ && _); [|eauto]. apply (IH q eq); [done|lia].
Qed.

(** A weighted average stays between its terms. *)
Lemma average_between lo hi avg t k :
  0 < k -> lo <= avg <= hi -> lo <= t <= hi -> lo <= (avg * k + t) / (k + 1) <= hi.
Proof.
  intros Hk Ha' Ht. split; [apply Z.div_le_lower_bound|apply Z.div_le_upper_bound]; nia.
Qed.

(** The targets of the last blocks, the newest first, and what [DarkGravityWave]
    makes of them: each step rounds down. *)
Fixpoint past_targets (n : nat) (p : nat) : list Z :=
  match n, a !! p with
  | S n, Some e => val (SetCompact_target (bi_nBits e)) :: match pprev e with Some q => past_targets n q | None => [] end
  | _, _ => []
  end.
Fixpoint dgw_mean_from (k avg : Z) (ts : list Z) : Z :=
  match ts with [] => avg | t :: ts => dgw_mean_from (k + 1) ((avg * k + t) / (k + 1)) ts end.
Definition dgw_mean (ts : list Z) : Z := match ts with [] => 0 | t :: ts => dgw_mean_from 2 t ts end.

(** So it is the mean in which the newest target counts twice, less what the
    steps round off. *)
Lemma dgw_mean_from_bound ts : forall k avg, 0 < k ->
  let n := zlen ts in
  (k + n) * dgw_mean_from k avg ts <= avg * k + sumZ ts /\ 2 * (avg * k + sumZ ts - (k + n) * dgw_mean_from k avg ts) <= n * (2 * k + n - 1).
Proof.
  induction ts as [|t ts IH]; intros k avg Hk; cbn [dgw_mean_from]; cbv zeta; [change (sumZ []) with 0; change (zlen (@nil Z)) with 0; lia|].
  change (sumZ (t :: ts)) with (t + sumZ ts). rewrite zlen_cons. specialize (IH (k + 1) ((avg * k + t) / (k + 1)) ltac:(lia)). cbv zeta in IH.
  pose proof (Z.div_mod (avg * k + t) (k + 1) ltac:(lia)). pose proof (Z.mod_pos_bound (avg * k + t) (k + 1) ltac:(lia)). pose proof (zlen_nonneg ts). nia.
Qed.

Lemma dgw_loop_spec lo hi n : forall k p e avg found,
  limit_val params < 2 ^ 236 -> 0 <= lo -> hi <= limit_val params ->
  a !! p = Some e -> Z.of_nat n - 1 <= nHeight e -> (0 < n)%nat -> k + Z.of_nat n = nPastBlocks + 1 -> 1 <= k ->
  targets_between a lo hi n p ->
  uint_ok avg -> (k <> 1 -> lo <= val avg <= hi) ->
  exists q avg' found', dgw_loop a params n k p avg found = Some (q, avg', found') /\
    up a (n - 1) p = Some q /\ uint_ok avg' /\ lo <= val avg' <= hi /\
    length (past_targets n p) = n /\ val avg' = if k =? 1 then dgw_mean (past_targets n p) else dgw_mean_from k (val avg) (past_targets n p).
Proof.
  induction n as [|n IH]; intros k p e avg found Hlim Hlo Hhi Hp Hh Hn Hk Hk1 Hb Hok Havg; [lia|].
  cbn [dgw_loop]. rewrite Hp. cbv zeta. destruct (in_range_target params _ (Hbits p e Hp)) as [Tok _].
  pose proof (Hb 0%nat p e ltac:(lia) eq_refl Hp) as HT. set (t := SetCompact_target (bi_nBits e)) in *.
  unfold nPastBlocks in *.
  assert (exists avg', (if k =? 1 then Some t
            else uint_div (uint_add (uint_mul32 avg k) t) (of_uint64 (k + 1))) = Some avg' /\
          uint_ok avg' /\ lo <= val avg' <= hi /\ val avg' = if k =? 1 then val t else (val avg * k + val t) / (k + 1)) as (avg' & -> & Hok' & Havg' & Hval).
  { destruct (Z.eqb_spec k 1) as [->|Hne]; [eauto 10|]. specialize (Havg Hne).
    destruct (uint_mul32_spec avg k Hok) as [Mok Mv]; [unfold limb_ok; lia|]. rewrite Z.mod_small in Mv by nia.
    destruct (uint_add_spec _ t Mok Tok) as [Aok Av]. rewrite Mv, Z.mod_small in Av by nia.
    destruct (of_uint64_spec (k + 1) ltac:(lia)) as [Kok Kv].
    pose proof (uint_div_spec _ _ Aok Kok) as D. destruct (uint_div _ _) as [r|]; [|lia].
    destruct D as (_ & Rok & Rv). exists r. split; [done|]. split; [done|]. rewrite Rv, Av, Kv. split; [|done].
    apply average_between; lia. }
  destruct (Z.eqb_spec k 180) as [->|Hne]; bsimpl.
  { replace n with 0%nat by lia. cbn [dgw_loop]. eexists p, avg', _. split; [done|]. split; [done|]. split; [done|]. split; [done|].
    cbn [past_targets]. rewrite Hp. fold t. destruct (pprev e); (split; [done|]); done. }
  destruct (parent_exists a Ha p e Hp) as [q Eq]; [lia|]. rewrite Eq.
  destruct (parent_ok a Ha p e q Hp Eq) as (_ & eq & Hq & Hhq & _).
  edestruct (IH (k + 1) q eq avg') as (r & avg'' & found'' & Hd & Hu & Hok'' & Hb'' & Hlen & Hv''); [done..|lia|lia|lia|lia| |done|done|].
  { intros i x ex Hi Hx. apply (Hb (S i)); [lia|]. cbn [up]. rewrite Hp. cbn [mbind option_bind]. by rewrite Eq. }
  exists r, avg'', found''. split; [exact Hd|]. split; [|split; [done|split; [done|]]].
  - replace (S n - 1)%nat with (S (n - 1)) by lia. cbn [up]. rewrite Hp. cbn [mbind option_bind]. by rewrite Eq.
  - cbn [past_targets]. rewrite Hp, Eq. fold t. cbn [length]. rewrite Hlen. split; [done|]. rewrite Hv'', Hval. destruct (Z.eqb_spec (k + 1) 1); [lia|]. by destruct (Z.eqb_spec k 1) as [->|].
Qed.

Lemma retarget_spec b span T :
  limit_val params < 2 ^ 236 -> uint_ok b -> val b <= limit_val params -> 0 <= span < 2 ^ 20 -> 0 < T < 2 ^ 20 ->
  exists t, uint_ok t /\ retarget params b span T = Some (GetCompact t false) /\
            val t = Z.min (limit_val params) (val b * span / T).
Proof.
  intros Hlim Hb Hv Hs HT. unfold retarget, uwrap. rewrite (Z.mod_small span), (Z.mod_small T) by lia.
  pose proof (uint_bound b Hb). destruct (uint_mul32_spec b span Hb) as [Mok Mv]; [unfold limb_ok; lia|].
  rewrite Z.mod_small in Mv by nia. destruct (of_uint64_spec T ltac:(lia)) as [Tok Tv].
  pose proof (uint_div_spec _ _ Mok Tok) as D. destruct (uint_div _ _) as [r|]; [|lia].
  destruct D as (_ & Rok & Rv). rewrite Mv, Tv in Rv. pose proof (pw_limit _ Hw) as Lok.
  rewrite CompareTo_spec by (destruct Rok, Lok; congruence). fold (limit_val params).
  destruct (Z.compare_spec (val r) (limit_val params)); cbn [Z.ltb Z.compare];
    [exists r|exists r|exists (UintToArith256 (powLimit params))]; (split; [done|]); (split; [done|]).
  1,2: lia. fold (limit_val params). lia.
Qed.

Lemma limit_in_range : in_range params (GetCompact (UintToArith256 (powLimit params)) false).
Proof. apply compact_in_range; [apply Hw|done]. Qed.

(** The span of the last 180 blocks, held between a third and three times the
    target span. *)
Definition held_span (T span : Z) : Z := Z.max (T / 3) (Z.min (T * 3) span).

Lemma held_span_bound T span : 0 < T -> T * 3 < 2 ^ 20 -> 0 <= held_span T span < 2 ^ 20.
Proof.
  intros H0 H1. unfold held_span. pose proof (Z.div_pos T 3 ltac:(lia) ltac:(lia)).
  pose proof (Z.div_lt_upper_bound T 3 (2 ^ 20) ltac:(lia) ltac:(lia)). lia.
Qed.

Lemma held_span_eq T span :
  0 < T ->
  (if T * 3 <? (if span <? Z.quot T 3 then Z.quot T 3 else span) then T * 3
   else if span <? Z.quot T 3 then Z.quot T 3 else span) = held_span T span.
Proof.
  intros HT. rewrite Z.quot_div_nonneg by lia. unfold held_span.
  pose proof (Z.div_lt_upper_bound T 3 (T * 3) ltac:(lia) ltac:(lia)). destruct (Z.ltb_spec span (T / 3)); case_ifs; bool_prop; lia.
Qed.

Lemma DarkGravityWave_spec p e block lo hi :
  a !! p = Some e -> nPastBlocks <= nHeight e ->
  fPowAllowMinDifficultyBlocks params && fPowNoRetargeting params = false ->
  0 <= lo -> hi <= limit_val params -> targets_between a lo hi 180 p ->
  let T := nPastBlocks * nPowTargetSpacing params in
  let avg := dgw_mean (past_targets 180 p) in
  length (past_targets 180 p) = 180%nat /\ lo <= avg <= hi /\
  exists q eq t, up a 179 p = Some q /\ a !! q = Some eq /\ uint_ok t /\
    val t = Z.min (limit_val params) (avg * held_span T (bi_nTime e - bi_nTime eq) / T) /\
    (DarkGravityWave a params p block = Some (GetCompact t false) \/
     nKAWPOWActivationTime params <= nTime block /\
     DarkGravityWave a params p block = Some (GetCompact (UintToArith256 (kawpowLimit params)) false)).
Proof.
  intros Hp Hh Hspecial Hlo Hhi Hb T m. pose proof (pw_spacing _ Hw) as Hsp.
  destruct (pw_room _ Hw) as [?|Hroom]; [congruence|]. unfold nPastBlocks in *.
  destruct (dgw_loop_spec lo hi 180 1 p e uint_zero 0) as (q & avg & found & Hd & Hu & Hok & Hav & Hlen & Hval);
    [done|done|done|done|lia|lia|done|lia|done|apply uint_zero_ok|lia|].
  destruct (up_spec a Ha 179 p e Hp) as (q' & eq & Hu' & Hq & _); [lia|]. change (180 - 1)%nat with 179%nat in Hu. rewrite Hu in Hu'. injection Hu' as <-.
  destruct (retarget_spec avg (held_span T (bi_nTime e - bi_nTime eq)) T) as (t & Tok & Hr & Hv);
    [done|done|lia|apply held_span_bound; unfold T; lia|unfold T; lia|].
  subst m. change (1 =? 1) with true in Hval. cbn iota in Hval. rewrite <-Hval. split; [done|]. split; [done|].
  exists q, eq, t. split; [done|]. split; [done|]. split; [done|]. split; [done|].
  unfold DarkGravityWave. rewrite Hp. unfold nPastBlocks. destruct (Z.ltb_spec (nHeight e) 180); [lia|].
  rewrite Hspecial. change (Z.to_nat 180) with 180%nat. rewrite Hd, Hq. cbv zeta. fold T.
  rewrite held_span_eq, Hr by (unfold T; lia).
  destruct (Z.leb_spec (nKAWPOWActivationTime params) (nTime block)); bsimpl; [|by left].
  destruct (negb (found =? 180)); [by right|by left].
Qed.

Lemma DarkGravityWave_total p e block :
  a !! p = Some e -> exists b, DarkGravityWave a params p block = Some b /\ in_range params b.
Proof.
  intros Hp. pose proof (height_nonneg a Ha p e Hp).
  destruct (fPowAllowMinDifficultyBlocks params && fPowNoRetargeting params) eqn:Hs.
  { unfold DarkGravityWave. rewrite Hp, Hs. destruct (_ <? _); [eexists; split; [done|apply limit_in_range]|].
    destruct (_ <? _); [eexists; split; [done|apply limit_in_range]|].
    apply (last_not_special_spec _ _ p e); [done|lia]. }
  destruct (Z.ltb_spec (nHeight e) nPastBlocks) as [Hlt|Hge].
  { unfold DarkGravityWave. rewrite Hp. destruct (Z.ltb_spec (nHeight e) nPastBlocks); [|lia].
    eexists. split; [done|apply limit_in_range]. }
  destruct (DarkGravityWave_spec p e block 0 (limit_val params) Hp Hge Hs)
    as (_ & _ & q & eq & t & _ & _ & Tok & Hv & [Hd|[_ Hd]]); [lia|lia| | |].
  - intros i x ex _ _ Hx. apply in_range_target. by apply (Hbits x).
  - eexists. split; [done|]. apply compact_in_range; [done|lia].
  - eexists. split; [done|]. apply compact_in_range; apply (pw_kawpow _ Hw).
Qed.

Lemma CalculateNextWorkRequired_total p e first :
  a !! p = Some e -> fPowNoRetargeting params = true \/ limit_val params < 2 ^ 236 ->
  exists b, CalculateNextWorkRequired params e first = Some b /\ in_range params b.
Proof.
  intros Hp Hroom. unfold CalculateNextWorkRequired.
  destruct (fPowNoRetargeting params) eqn:Hn; [eauto|]. destruct Hroom as [?|Hroom]; [done|].
  destruct (in_range_target params _ (Hbits p e Hp)) as [Tok [_ Hv]]. cbv zeta.
  pose proof (pw_timespan _ Hw) as Ht. pose proof (pw_spacing _ Hw) as Hsp. rewrite Z.quot_div_nonneg by lia.
  pose proof (Z.div_pos (nPowTargetTimespan params) 4 ltac:(lia) ltac:(lia)).
  pose proof (Z.div_le_upper_bound (nPowTargetTimespan params) 4 (2 ^ 17) ltac:(lia) ltac:(lia)).
  match goal with |- context [retarget params ?b ?s ?t] =>
    destruct (retarget_spec b s t) as (t' & Tok' & -> & Hv'); [done..|case_ifs; bool_prop; lia|lia|] end.
  eexists. split; [done|]. apply compact_in_range; [done|lia].
Qed.

Lemma GetNextWorkRequired_total p e block :
  a !! p = Some e -> exists b, GetNextWorkRequired a params p block = Some b /\ in_range params b.
Proof.
  intros Hp. pose proof (height_nonneg a Ha p e Hp). unfold GetNextWorkRequired. rewrite Hp.
  destruct (IsDGWActive _ _); [by apply (DarkGravityWave_total p e)|].
  unfold GetNextWorkRequiredBTC. rewrite Hp. cbv zeta.
  set (I := DifficultyAdjustmentInterval params).
  pose proof (pw_spacing _ Hw). pose proof (pw_timespan _ Hw).
  assert (1 <= I).
  { unfold I, DifficultyAdjustmentInterval. rewrite Z.quot_div_nonneg by lia. apply Z.div_le_lower_bound; lia. }
  destruct (negb (Z.rem (nHeight e + 1) I =? 0)) eqn:Er.
  { destruct (fPowAllowMinDifficultyBlocks params); [|eauto].
    destruct (_ <? _); [eexists; split; [done|apply limit_in_range]|].
    apply (last_not_special_spec _ _ p e); [done|lia]. }
  bool_prop. rewrite Z.rem_mod_nonneg in Er by lia.
  assert (I <= nHeight e + 1).
  { destruct (Z.le_gt_cases I (nHeight e + 1)); [done|]. rewrite Z.mod_small in Er; lia. }
  destruct (Z.ltb_spec (nHeight e - (I - 1)) 0); [lia|].
  rewrite (GetAncestor_spec a Ha p e) by (done || lia).
  destruct (up_spec a Ha (Z.to_nat (nHeight e - (nHeight e - (I - 1)))) p e Hp) as (q & eq & -> & Hq & _); [lia|].
  cbn [mbind option_bind]. rewrite Hq. apply (CalculateNextWorkRequired_total p); [done|].
  destruct (pw_room _ Hw) as [Hr|Hr]; [left; by apply andb_true_iff in Hr as [_ ?]|by right].
Qed.
End Rules.

(** C37. Difficulty. On a block index whose blocks all carry bits within the
    limit, [GetNextWorkRequired] never fails one of its assertions and returns
    bits within the limit again, so a header check against it keeps every chain
    there. Where DarkGravityWave retargets, it returns the compact form of a mean of
    the last 180 targets times the time they took, held between a third and three
    times the target span, over the target span, and at most the limit; no product
    wraps. In the mean the newest target counts twice: 181 times it is the sum of
    the targets and the newest again, less at most 16,289 lost to rounding; and it
    lies between the least and the greatest target. For a KAWPOW header it may be
    the KAWPOW limit instead. *)
Theorem difficulty_in_range (a : arena) (params : PowParams) (p : nat) (e : CBlockIndex) (block : CBlockHeader) :
  arena_ok a -> pow_wf params -> (forall q eq, a !! q = Some eq -> in_range params (bi_nBits eq)) ->
  a !! p = Some e ->
  (exists b, GetNextWorkRequired a params p block = Some b /\ in_range params b) /\
  forall lo hi,
    nPastBlocks <= nHeight e -> nDGWActivationBlock params <= nHeight e + 1 ->
    fPowAllowMinDifficultyBlocks params && fPowNoRetargeting params = false ->
    0 <= lo -> hi <= limit_val params -> targets_between a lo hi 180 p ->
    let T := nPastBlocks * nPowTargetSpacing params in
    let ts := past_targets a 180 p in
    let avg := dgw_mean ts in
    let weighted := List.hd 0 ts + sumZ ts in
    length ts = 180%nat /\ lo <= avg <= hi /\ weighted - 16289 <= 181 * avg <= weighted /\
    exists q eq t, up a 179 p = Some q /\ a !! q = Some eq /\ uint_ok t /\
      val t = Z.min (limit_val params) (avg * held_span T (bi_nTime e - bi_nTime eq) / T) /\
      (GetNextWorkRequired a params p block = Some (GetCompact t false) \/
       nKAWPOWActivationTime params <= nTime block /\
       GetNextWorkRequired a params p block = Some (GetCompact (UintToArith256 (kawpowLimit params)) false)).
Proof.
  intros Ha Hw Hbits Hp. split; [by apply (GetNextWorkRequired_total a Ha params Hw Hbits p e)|].
  intros lo hi Hh Hact Hs Hlo Hhi Hb T ts avg weighted.
  assert (GetNextWorkRequired a params p block = DarkGravityWave a params p block) as ->.
  { unfold GetNextWorkRequired, IsDGWActive. by rewrite Hp, (proj2 (Z.leb_le _ _) Hact). }
  destruct (DarkGravityWave_spec a Ha params Hw Hbits p e block lo hi Hp Hh Hs Hlo Hhi Hb) as (Hlen & Hav & Hrest). fold ts avg in Hlen, Hav, Hrest.
  split; [done|]. split; [done|]. split; [|exact Hrest]. subst avg weighted. destruct ts as [|t0 ts']; [done|]. injection Hlen as Hlen. cbn [dgw_mean List.hd].
  change (sumZ (t0 :: ts')) with (t0 + sumZ ts'). pose proof (dgw_mean_from_bound ts' 2 t0 ltac:(lia)) as Hm. cbv zeta in Hm. unfold zlen in Hm. rewrite Hlen in Hm. lia.
Qed.

Lemma read_limbs_ok n b : bytes_ok b -> length b = (4 * n)%nat -> length (read_limbs n b) = n /\ Forall limb_ok (read_limbs n b).
Proof.
  revert b. induction n as [|n IH]; intros b Hb Hl; [by split; [|constructor]|]. cbn [read_limbs length].
  destruct (IH (drop 4 b)) as [IH1 IH2]; [by apply bytes_ok_drop|rewrite length_drop; lia|].
  split; [by rewrite IH1|]. constructor; [|done].
  pose proof (le_decode_bound (take 4 b) (bytes_ok_take 4 b Hb)) as Hd. unfold zlen in Hd.
  rewrite length_take_le in Hd by lia. exact Hd.
Qed.

Lemma UintToArith256_ok z : uint_ok (UintToArith256 (le_bytes 32 z)).
Proof. apply read_limbs_ok; [apply le_bytes_ok|by rewrite length_le_bytes]. Qed.

Lemma main_pow_wf : pow_wf main_pow.
Proof.
  split; unfold main_pow; cbn [powLimit kawpowLimit nPowTargetSpacing nPowTargetTimespan].
  - apply UintToArith256_ok.
  - split; [apply UintToArith256_ok|]. apply Z.leb_le. vm_compute. reflexivity.
  - lia.
  - lia.
  - right. apply Z.ltb_lt. vm_compute. reflexivity.
Qed.

(** Two hundred blocks a minute apart, all at the limit. *)
Definition toy_bits : Z := 0x1e0fffff.
Definition toy_minute (i : nat) : CBlockHeader :=
  mkHeader 4 (le_bytes 32 (Z.of_nat i)) uint256_null (1000 + 60 * Z.of_nat i) toy_bits (Z.of_nat i + 1) 0 0 uint256_null.
Definition toy_pow_arena : arena := entries (grow toy_hash empty_index (map toy_minute (seq 0 200))).

Lemma toy_pow_arena_ok : arena_ok toy_pow_arena.
Proof.
  apply (grow_ok toy_hash empty_index); [apply empty_index_ok|]. apply all_linkableb_true.
  vm_compute. reflexivity.
Qed.

Lemma forallb_lookup (f : CBlockIndex -> bool) (a : arena) q e : forallb f a = true -> a !! q = Some e -> f e = true.
Proof. intros Hall Hq. rewrite forallb_forall in Hall. apply Hall, list_elem_of_In. by eapply list_elem_of_lookup_2. Qed.

Lemma toy_pow_bits q e : toy_pow_arena !! q = Some e -> in_range main_pow (bi_nBits e).
Proof.
  intros Hq. assert (bi_nBits e = toy_bits) as ->.
  { apply Z.eqb_eq. refine (forallb_lookup (fun e => bi_nBits e =? toy_bits) toy_pow_arena q e _ Hq).
    vm_compute. reflexivity. }
  replace toy_bits with (GetCompact (UintToArith256 (powLimit main_pow)) false) by (vm_compute; reflexivity).
  exact (limit_in_range main_pow main_pow_wf).
Qed.

(** The compact form of the limit is what the next block carries. *)
Lemma difficulty_in_range_witness :
  exists e, toy_pow_arena !! 199%nat = Some e /\ nHeight e = 199 /\
  (exists b, GetNextWorkRequired toy_pow_arena main_pow 199 (toy_minute 200) = Some b /\ in_range main_pow b) /\
  let ts := past_targets toy_pow_arena 180 199 in
  length ts = 180%nat /\ List.hd 0 ts + sumZ ts - 16289 <= 181 * dgw_mean ts <= List.hd 0 ts + sumZ ts.
Proof.
  destruct (toy_pow_arena !! 199%nat) as [e|] eqn:He; [|exfalso; revert He; vm_compute; discriminate].
  assert (Hh : nHeight e = 199).
  { assert (Hh : (nHeight <$> toy_pow_arena !! 199%nat) = Some 199) by (vm_compute; reflexivity). rewrite He in Hh. injection Hh as Hh. exact Hh. }
  destruct (difficulty_in_range toy_pow_arena main_pow 199 e (toy_minute 200) toy_pow_arena_ok main_pow_wf toy_pow_bits He) as [Hb Hm].
  exists e. split; [reflexivity|]. split; [exact Hh|]. split; [exact Hb|]. rewrite Hh in Hm.
  destruct (Hm 0 (limit_val main_pow)) as (Hl & _ & Hw & _);
    [vm_compute; discriminate|vm_compute; discriminate|reflexivity|lia|lia| |exact (conj Hl Hw)].
  intros i x ex _ _ Hx. apply in_range_target. exact (toy_pow_bits x ex Hx).
Defined.
