(* ===== verification/Headers.v ===== *)
(** * Header acceptance

    [CheckBlockHeader], [ContextualCheckBlockHeader], [AcceptBlockHeader] and
    [ProcessNewBlockHeaders] of src/src/validation.cpp over the block index, with
    the status flags of src/src/chain.h and [GetLastCheckpoint] of
    src/src/checkpoints.cpp. The status of an entry is kept in a list beside the
    arena. *)

From S2P Require Import Prelude Slots ArithUint Tx Chain Pow.

Local Open Scope Z_scope.

(** ** Status flags *)
Definition BLOCK_VALID_TREE : Z := 2.
Definition BLOCK_VALID_SCRIPTS : Z := 5.
Definition BLOCK_VALID_MASK : Z := 7.
Definition BLOCK_FAILED_VALID : Z := 32.
Definition BLOCK_FAILED_CHILD : Z := 64.
Definition BLOCK_FAILED_MASK : Z := Z.lor BLOCK_FAILED_VALID BLOCK_FAILED_CHILD.

Definition failed (nStatus : Z) : bool := negb (Z.land nStatus BLOCK_FAILED_MASK =? 0).

Definition IsValid (nStatus nUpTo : Z) : bool :=
  if failed nStatus then false else nUpTo <=? Z.land nStatus BLOCK_VALID_MASK.

Definition RaiseValidity (nStatus nUpTo : Z) : Z :=
  if failed nStatus then nStatus else
  if Z.land nStatus BLOCK_VALID_MASK <? nUpTo
  then Z.lor (Z.land nStatus (Z.lnot BLOCK_VALID_MASK)) nUpTo else nStatus.

(** ** Parameters and the node's view *)
Record HeaderParams := mkHP {
  hp_pow : PowParams;
  hp_genesis_nTime : Z;
  hashGenesisBlock : bytes;
  fMineBlocksOnDemand : bool;
  nHeightHeaderCheckActivation : Z;
  mapCheckpoints : list (Z * bytes);
}.

Record HeaderView := mkHV {
  hv_chainActive : CChain;
  hv_GetTime : Z;
  nAdjustedTime : Z;
  hv_connman : option Z; (* the number of connections, when there is a manager *)
  nMaxReorgDepth : Z;
  nMinReorgPeers : Z;
  nMinReorgAge : Z;
  fCheckpointsEnabled : bool;
  AreAssetsDeployed : bool;
}.

Record HeaderState := mkHS {
  hs_index : BlockIndexState;
  hs_status : list Z;
  g_failed_blocks : list nat;
}.

(** Block times from [p] down, at most [n] of them. *)
Fixpoint index_times (a : arena) (n : nat) (p : nat) : list Z :=
  match n with
  | O => []
  | S n => match a !! p with
           | None => []
           | Some e => bi_nTime e :: match pprev e with Some q => index_times a n q | None => [] end
           end
  end.

Definition index_mtp (a : arena) (p : nat) : Z := GetMedianTimePast (index_times a nMedianTimeSpan p).

(** The checkpoint with the greatest height that is in the index. *)
Fixpoint last_checkpoint (a : arena) (rev_checkpoints : list (Z * bytes)) : option nat :=
  match rev_checkpoints with
  | [] => None
  | (_, hash) :: l => match mapBlockIndex_find a hash with Some p => Some p | None => last_checkpoint a l end
  end.
Definition GetLastCheckpoint (a : arena) (checkpoints : list (Z * bytes)) : option nat :=
  last_checkpoint a (rev checkpoints).

Definition checkpoint_height (a : arena) (checkpoints : list (Z * bytes)) : option Z :=
  match GetLastCheckpoint a checkpoints with
  | Some p => nHeight <$> a !! p
  | None => None
  end.

Definition VERSIONBITS_TOP_BITS_ASSETS : Z := 0x30000000.

Section Accept.
(** The block hash, and the full hash with the mix hash it finds. *)
Variable GetHash : CBlockHeader -> bytes.
Variable GetHashFull : CBlockHeader -> bytes * bytes.
Variable hp : HeaderParams.

Definition kawpow (block : CBlockHeader) : bool := nKAWPOWActivationTime (hp_pow hp) <=? nTime block.

Definition CheckBlockHeader (a : arena) (block : CBlockHeader) (fCheckPOW : bool) : verdict :=
  let below_checkpoint :=
    if fCheckPOW && kawpow block then
      match checkpoint_height a (mapCheckpoints hp) with
      | Some h => hdr_nHeight block <=? uwrap 32 h
      | None => false
      end
    else false in
  if below_checkpoint then
    if negb (CheckProofOfWork (GetHash block) (nBits block) (hp_pow hp)) then Reject 50 "high-hash" else Accept
  else
  let '(hash, mix) := GetHashFull block in
  if fCheckPOW && negb (CheckProofOfWork hash (nBits block) (hp_pow hp)) then Reject 50 "high-hash" else
  if fCheckPOW && kawpow block && negb (bytes_eqb mix (mix_hash block)) then Reject 50 "invalid-mix-hash" else
  Accept.

(** Too deep a fork for a caught-up node; [None] is the null tip. *)
Definition reorg_too_deep (a : arena) (hv : HeaderView) (nHeight' : Z) : option bool :=
  if nMaxReorgDepth hv <=? chain_Height (hv_chainActive hv) - (nHeight' - 1) then
    match hv_connman hv with
    | None => Some false
    | Some nCurrentNodeCount =>
        match chain_Tip (hv_chainActive hv) ≫= (a !!.) with
        | None => None
        | Some tip => Some ((nMinReorgPeers hv <=? nCurrentNodeCount) &&
                            (hv_GetTime hv - bi_nTime tip <=? nMinReorgAge hv))
        end
    end
  else Some false.

(** [None] is a failed assertion in the difficulty rule, or the null tip. *)
Definition ContextualCheckBlockHeader (a : arena) (hv : HeaderView) (block : CBlockHeader) (pindexPrev : nat)
    : option verdict :=
  match a !! pindexPrev with
  | None => None
  | Some prev =>
      let height := nHeight prev + 1 in
      match reorg_too_deep a hv height with
      | None => None
      | Some true => Some (Reject 10 "bad-fork-prior-to-maxreorgdepth")
      | Some false =>
      match GetNextWorkRequired a (hp_pow hp) pindexPrev block with
      | None => None
      | Some nBits' =>
      Some (
        if negb (nBits block =? nBits') then Reject 100 "bad-diffbits" else
        if (nHeightHeaderCheckActivation hp <=? height) && kawpow block && negb (hdr_nHeight block =? uwrap 32 height)
        then Reject 100 "bad-blk-height" else
        if fCheckpointsEnabled hv &&
           match checkpoint_height a (mapCheckpoints hp) with Some h => height <? h | None => false end
        then Reject 100 "bad-fork-prior-to-checkpoint" else
        match CheckHeaderTime height (nTime block) (hp_genesis_nTime hp) (nAdjustedTime hv)
                (fMineBlocksOnDemand hp) (nDGWActivationBlock (hp_pow hp))
                (index_times a nMedianTimeSpan pindexPrev) with
        | Reject d r => Reject d r
        | Accept =>
            if AreAssetsDeployed hv && (hdr_nVersion block <? VERSIONBITS_TOP_BITS_ASSETS)
            then Reject 0 "bad-version" else Accept
        end)
      end
      end
  end.

Definition status_at (s : HeaderState) (p : nat) : Z := nth p (hs_status s) 0.

(** Mark [p] and what is below it as children of the failed block. *)
Fixpoint mark_failed_child (a : arena) (fuel : nat) (failedit p : nat) (status : list Z) : list Z :=
  match fuel with
  | O => status
  | S fuel =>
      if (p =? failedit)%nat then status else
      let status := alter (fun st => Z.lor st BLOCK_FAILED_CHILD) p status in
      match a !! p ≫= pprev with
      | Some q => mark_failed_child a fuel failedit q status
      | None => status
      end
  end.

(** The first failed block that is an ancestor of [p]. *)
Fixpoint failed_ancestor (a : arena) (p : nat) (failed_blocks : list nat) : option nat :=
  match failed_blocks with
  | [] => None
  | f :: l =>
      match a !! f with
      | Some ef => if is_ptr (GetAncestor a p (nHeight ef)) f then Some f else failed_ancestor a p l
      | None => failed_ancestor a p l
      end
  end.

(** [AddToBlockIndex] with the status of the entry. *)
Definition index_header (s : HeaderState) (block : CBlockHeader) : HeaderState * nat :=
  let '(p, index) := AddToBlockIndex GetHash (hs_index s) block in
  (mkHS index (if (p <? length (hs_status s))%nat then hs_status s
               else hs_status s ++ [RaiseValidity 0 BLOCK_VALID_TREE]) (g_failed_blocks s), p).

(** The state, the verdict and the entry; [None] as above. *)
Definition AcceptBlockHeader (hv : HeaderView) (s : HeaderState) (block : CBlockHeader)
    : option (HeaderState * verdict * option nat) :=
  let a := entries (hs_index s) in
  let add := let '(s, p) := index_header s block in Some (s, Accept, Some p) in
  if bytes_eqb (GetHash block) (hashGenesisBlock hp) then add else
  match mapBlockIndex_find a (GetHash block) with
  | Some p => Some (s, if failed (status_at s p) then Reject 0 "duplicate" else Accept, Some p)
  | None =>
  match CheckBlockHeader a block true with
  | Reject d r => Some (s, Reject d r, None)
  | Accept =>
  match mapBlockIndex_find a (hashPrevBlock block) with
  | None => Some (s, Reject 10 "prev-blk-not-found", None)
  | Some pindexPrev =>
  if failed (status_at s pindexPrev) then Some (s, Reject 100 "bad-prevblk", None) else
  match ContextualCheckBlockHeader a hv block pindexPrev with
  | None => None
  | Some (Reject d r) => Some (s, Reject d r, None)
  | Some Accept =>
  if IsValid (status_at s pindexPrev) BLOCK_VALID_SCRIPTS then add else
  match failed_ancestor a pindexPrev (g_failed_blocks s) with
  | Some f => Some (mkHS (hs_index s) (mark_failed_child a (S pindexPrev) f pindexPrev (hs_status s)) (g_failed_blocks s),
                    Reject 100 "bad-prevblk", None)
  | None => add
  end
  end
  end
  end
  end.

(** [ProcessNewBlockHeaders], each header with the view of the moment: the
    state, the verdict, the last entry, and the first header refused. *)
Fixpoint ProcessNewBlockHeaders (s : HeaderState) (headers : list (CBlockHeader * HeaderView)) (pindex : option nat)
    : option (HeaderState * verdict * option nat * option CBlockHeader) :=
  match headers with
  | [] => Some (s, Accept, pindex, None)
  | (header, hv) :: headers =>
      match AcceptBlockHeader hv s header with
      | None => None
      | Some (s, Reject d r, _) => Some (s, Reject d r, pindex, Some header)
      | Some (s, Accept, p) => ProcessNewBlockHeaders s headers p
      end
  end.
End Accept.

(** ** The header tree *)

Section Tree.
Context (GetHash : CBlockHeader -> bytes) (GetHashFull : CBlockHeader -> bytes * bytes) (hp : HeaderParams).

(** States reached from the genesis block by headers arriving while the
    adjusted time is at most [T], whatever the verdicts; other code may change
    the status flags and the failed set at any point. *)
Inductive header_reach (T : Z) : HeaderState -> Prop :=
| hr_genesis g :
    GetHash g = hashGenesisBlock hp -> nTime g = hp_genesis_nTime hp -> hdr_nHeight g = 0 ->
    in_range (hp_pow hp) (nBits g) -> GetHash g <> hashPrevBlock g ->
    header_reach T (mkHS (AddToBlockIndex GetHash empty_index g).2 [RaiseValidity 0 BLOCK_VALID_TREE] [])
| hr_accept s hv b s' v p :
    header_reach T s -> 0 <= nAdjustedTime hv <= T -> zlen (entries (hs_index s)) < 2 ^ 31 ->
    AcceptBlockHeader GetHash GetHashFull hp hv s b = Some (s', v, p) -> header_reach T s'
| hr_status s status failed_blocks :
    header_reach T s -> length status = length (hs_status s) ->
    header_reach T (mkHS (hs_index s) status failed_blocks).

(** One entry of the tree: bits within the limit; on a chain with the slot lock
    its times count the minutes down to the genesis block and its slot has come. *)
Record header_ok (T : Z) (a : arena) (p : nat) (e : CBlockIndex) : Prop := {
  ho_bits : in_range (hp_pow hp) (bi_nBits e);
  ho_slot : fMineBlocksOnDemand hp = false ->
            slot_chain (hp_genesis_nTime hp) (index_times a (S (Z.to_nat (nHeight e))) p) /\
            (0 < nHeight e -> nHeight e <= SlotFromTime T - SlotFromTime (hp_genesis_nTime hp) + MAX_FUTURE_SLOTS);
}.

Record tree_ok (T : Z) (s : HeaderState) : Prop := {
  to_index : index_ok (hs_index s);
  to_status : length (hs_status s) = length (entries (hs_index s));
  to_root : mapBlockIndex_find (entries (hs_index s)) (hashGenesisBlock hp) <> None;
  to_headers : forall p e, entries (hs_index s) !! p = Some e -> header_ok T (entries (hs_index s)) p e;
}.

Lemma index_times_app a k n p : arena_ok a -> (p < length a)%nat -> index_times (a ++ k) n p = index_times a n p.
Proof.
  intros Ha. revert p. induction n as [|n IH]; intros p Hp; [done|]. cbn [index_times].
  rewrite lookup_app_l by done. destruct (a !! p) as [e|] eqn:He; [|done].
  destruct (pprev e) as [q|] eqn:Eq; [|done]. destruct (parent_ok a Ha p e q He Eq) as [Hlt _].
  rewrite IH by lia. done.
Qed.

Lemma index_times_length a n p e :
  arena_ok a -> a !! p = Some e -> Z.of_nat n <= nHeight e -> zlen (index_times a (S n) p) = Z.of_nat n + 1.
Proof.
  intros Ha. revert p e. induction n as [|n IH]; intros p e Hp Hn.
  { cbn [index_times]. rewrite Hp. by destruct (pprev e). }
  cbn [index_times]. rewrite Hp. destruct (parent_exists a Ha p e Hp) as [q Eq]; [lia|]. rewrite Eq.
  destruct (parent_ok a Ha p e q Hp Eq) as (_ & eq & Hq & Hh & _).
  rewrite zlen_cons. pose proof (IH q eq Hq ltac:(lia)) as L. cbn [index_times] in L. rewrite L. lia.
Qed.

Lemma header_ok_app T a k p e : arena_ok a -> a !! p = Some e -> header_ok T a p e -> header_ok T (a ++ k) p e.
Proof.
  intros Ha Hp [H1 H2]. split; [done|]. intros Hd. rewrite index_times_app; [by apply H2|done|].
  by apply lookup_lt_Some in Hp.
Qed.

(** A header accepted on top of [q] makes a good entry. *)
Lemma child_header_ok T a hv block q eq e k :
  arena_ok a -> 0 <= hp_genesis_nTime hp -> 0 <= nAdjustedTime hv <= T -> pow_wf (hp_pow hp) ->
  (forall x ex, a !! x = Some ex -> header_ok T a x ex) ->
  a !! q = Some eq -> pprev e = Some q -> nHeight e = nHeight eq + 1 ->
  bi_nTime e = nTime block -> bi_nBits e = nBits block -> (a ++ k) !! length a = Some e ->
  ContextualCheckBlockHeader hp a hv block q = Some Accept ->
  header_ok T (a ++ k) (length a) e.
Proof.
  intros Ha Hg Hadj Hw Hall Hq Hprev Hh Ht Hb Hnew Hctx. pose proof (height_nonneg a Ha q eq Hq) as Hh0.
  unfold ContextualCheckBlockHeader in Hctx. rewrite Hq in Hctx.
  destruct (reorg_too_deep _ _ _) as [[]|]; try discriminate Hctx.
  destruct (GetNextWorkRequired_total a Ha (hp_pow hp) Hw (fun x ex Hx => ho_bits _ _ _ _ (Hall x ex Hx)) q eq block Hq)
    as (b & HGN & Hrange). rewrite HGN in Hctx. injection Hctx as Hctx.
  destruct (nBits block =? b) eqn:Eb; [|done]. bool_prop. cbn [negb] in Hctx.
  destruct (_ && _ && _); [done|]. destruct (_ && _); [done|].
  destruct (CheckHeaderTime _ _ _ _ _ _ _) eqn:ET; [|done].
  split; [congruence|]. intros Hd. rewrite Hd in ET. unfold CheckHeaderTime in ET. cbn [negb] in ET.
  destruct (CheckBlockTime _ _ _ _ _) eqn:ES; [|done].
  apply CheckBlockTime_iff in ES as [Hwin Hnow]; [|lia..].
  rewrite !SlotFromTime_nonneg by lia. unfold MAX_FUTURE_SLOTS. split.
  - destruct (Hall q eq Hq) as [_ Hslot]. destruct (Hslot Hd) as [Hc _].
    replace (Z.to_nat (nHeight e)) with (S (Z.to_nat (nHeight eq))) by lia.
    cbn [index_times]. rewrite Hnew, Hprev. change (match (a ++ k) !! q with
      | Some e0 => bi_nTime e0 :: _ | None => [] end) with (index_times (a ++ k) (S (Z.to_nat (nHeight eq))) q).
    rewrite index_times_app by (done || by apply lookup_lt_Some in Hq).
    apply slot_chain_cons; [intros En; by rewrite En in Hc|]. split; [|done].
    rewrite (index_times_length a _ q eq) by (done || lia). rewrite SlotStartTime_eq by lia.
    rewrite Ht, Z2Nat.id by lia. lia.
  - intros _. pose proof (Z.div_le_mono (nAdjustedTime hv) T 60). lia.
Qed.

Lemma length_mark_failed_child a fuel f p status : length (mark_failed_child a fuel f p status) = length status.
Proof.
  revert p status. induction fuel as [|fuel IH]; intros p status; [done|]. cbn [mark_failed_child].
  destruct (p =? f)%nat; [done|]. destruct (a !! p ≫= pprev); rewrite ?IH; apply length_alter.
Qed.

(** The state after a new header has been added. *)
Definition added (s : HeaderState) (block : CBlockHeader) : HeaderState :=
  mkHS (AddToBlockIndex GetHash (hs_index s) block).2
       (hs_status s ++ [RaiseValidity 0 BLOCK_VALID_TREE]) (g_failed_blocks s).

Lemma find_app a e hash :
  mapBlockIndex_find a hash <> None -> mapBlockIndex_find (a ++ [e]) hash <> None.
Proof.
  intros H E. pose proof (find_spec a hash) as F1. pose proof (find_spec (a ++ [e]) hash) as F2. rewrite E in F2.
  destruct (mapBlockIndex_find a hash); [|done]. destruct F1 as (x & Hx & <-). apply F2.
  apply list_elem_of_fmap. exists x. split; [done|]. apply elem_of_app. left. by eapply list_elem_of_lookup_2.
Qed.

Lemma added_tree_ok T hv s block q :
  0 <= hp_genesis_nTime hp -> pow_wf (hp_pow hp) -> 0 <= nAdjustedTime hv <= T ->
  zlen (entries (hs_index s)) < 2 ^ 31 -> tree_ok T s ->
  mapBlockIndex_find (entries (hs_index s)) (GetHash block) = None ->
  mapBlockIndex_find (entries (hs_index s)) (hashPrevBlock block) = Some q ->
  ContextualCheckBlockHeader hp (entries (hs_index s)) hv block q = Some Accept ->
  tree_ok T (added s block).
Proof.
  intros Hg Hw Hadj Hsz [[Ha Hbest] Hst Hroot Hall] Hnew Hprev Hctx.
  assert (Hne : GetHash block <> hashPrevBlock block) by (intros E; rewrite E in Hnew; congruence).
  assert (Hl : linkable GetHash (entries (hs_index s)) block) by (unfold linkable; by rewrite Hprev).
  destruct (add_fresh GetHash (hs_index s) block Ha Hne Hnew) as [HE _].
  pose proof (find_spec (entries (hs_index s)) (hashPrevBlock block)) as F. rewrite Hprev in F.
  destruct F as (eq & Hq & _). set (a := entries (hs_index s)) in *.
  assert (Hentry : new_entry a (GetHash block) block = linked a (GetHash block) block q eq).
  { unfold new_entry. by rewrite Hprev, Hq. }
  rewrite Hentry in HE. set (e := linked a (GetHash block) block q eq) in *.
  split; cbn [added hs_index hs_status].
  - apply add_index_ok; [done|exact Hl].
  - rewrite HE, !length_app, Hst. done.
  - rewrite HE. by apply find_app.
  - rewrite HE. intros p x [Hx|[Hge Hx]]%lookup_app_Some.
    + apply header_ok_app; [done|done|by apply Hall].
    + assert (p = length a) as ->.
      { apply list_lookup_singleton_Some in Hx. lia. }
      apply list_lookup_singleton_Some in Hx as [_ <-].
      apply (child_header_ok T a hv block q eq); try done. apply lookup_snoc.
Qed.

Lemma accept_tree_ok T hv s block s' v p :
  0 <= hp_genesis_nTime hp -> pow_wf (hp_pow hp) -> 0 <= nAdjustedTime hv <= T ->
  zlen (entries (hs_index s)) < 2 ^ 31 -> tree_ok T s ->
  AcceptBlockHeader GetHash GetHashFull hp hv s block = Some (s', v, p) -> tree_ok T s'.
Proof.
  intros Hg Hw Hadj Hsz Hs. pose proof Hs as [Hi Hst Hroot Hall]. unfold AcceptBlockHeader.
  assert (Hadd : mapBlockIndex_find (entries (hs_index s)) (GetHash block) = None ->
    index_header GetHash s block = (added s block, length (entries (hs_index s)))).
  { intros Hnew. unfold index_header, added, AddToBlockIndex. rewrite Hnew. cbn [fst snd].
    rewrite Hst, Nat.ltb_irrefl. done. }
  destruct (bytes_eqb (GetHash block) (hashGenesisBlock hp)) eqn:Eg.
  { bool_prop. unfold index_header, AddToBlockIndex. rewrite Eg. pose proof (find_spec (entries (hs_index s)) (hashGenesisBlock hp)) as F.
    destruct (mapBlockIndex_find (entries (hs_index s)) (hashGenesisBlock hp)) as [x|] eqn:Ex; [|done].
    destruct F as (ex & Hx & _). apply lookup_lt_Some in Hx. intros [= <- _ _].
    rewrite (proj2 (Nat.ltb_lt _ _)) by lia. split; [done|done|cbn [hs_index]; by rewrite Ex|done]. }
  destruct (mapBlockIndex_find (entries (hs_index s)) (GetHash block)) as [x|] eqn:Enew; [by intros [= <- _ _]|].
  destruct (CheckBlockHeader _ _ _ _ _ _); [|by intros [= <- _ _]].
  destruct (mapBlockIndex_find (entries (hs_index s)) (hashPrevBlock block)) as [q|] eqn:Eprev; [|by intros [= <- _ _]].
  destruct (failed _); [by intros [= <- _ _]|].
  destruct (ContextualCheckBlockHeader hp (entries (hs_index s)) hv block q) as [[]|] eqn:Ectx; [|by intros [= <- _ _]|done].
  rewrite Hadd by done. destruct (IsValid _ _); [intros [= <- _ _]; by apply (added_tree_ok T hv s block q)|].
  destruct (failed_ancestor _ _ _) as [f|]; [|intros [= <- _ _]; by apply (added_tree_ok T hv s block q)].
  pose proof (length_mark_failed_child (entries (hs_index s)) (S q) f q (hs_status s)) as Hm.
  intros [= <- _ _]. split; cbn [hs_index hs_status]; [done|rewrite <-Hst; exact Hm|done|done].
Qed.

Lemma genesis_tree_ok T g :
  0 <= hp_genesis_nTime hp ->
  GetHash g = hashGenesisBlock hp -> nTime g = hp_genesis_nTime hp -> hdr_nHeight g = 0 ->
  in_range (hp_pow hp) (nBits g) -> GetHash g <> hashPrevBlock g ->
  tree_ok T (mkHS (AddToBlockIndex GetHash empty_index g).2 [RaiseValidity 0 BLOCK_VALID_TREE] []).
Proof.
  intros Hg Hh Ht Hz Hb Hne.
  assert (Hl : linkable GetHash [] g) by (split; [done|]; split; [done|]; by right).
  destruct (add_fresh GetHash empty_index g (proj1 empty_index_ok) Hne eq_refl) as [HE _].
  cbn [entries empty_index app] in HE.
  split; cbn [hs_index hs_status].
  - apply add_index_ok; [apply empty_index_ok|done].
  - by rewrite HE.
  - rewrite HE, <-Hh. unfold mapBlockIndex_find. cbn [find_hash new_entry rooted phashBlock].
    by rewrite bytes_eqb_refl.
  - rewrite HE. intros p e He. apply list_lookup_singleton_Some in He as [-> <-].
    split; [done|]. intros Hd.
    assert (nHeight (new_entry [] (GetHash g) g) = 0) as -> by (cbn; by rewrite Hz).
    split; [exact Ht|lia].
Qed.

Lemma header_reach_ok T s :
  0 <= hp_genesis_nTime hp -> pow_wf (hp_pow hp) -> header_reach T s -> tree_ok T s.
Proof.
  intros Hg Hw. induction 1 as [g|s hv b s' v p _ IH Hadj Hsz Hacc|s status fb _ IH Hl].
  - by apply genesis_tree_ok.
  - by apply (accept_tree_ok T hv s b s' v p).
  - destruct IH as [H1 H2 H3 H4]. split; cbn [hs_index hs_status]; [done|congruence|done|done].
Qed.
End Tree.

(** C29. The header tree. From the genesis block on, whatever headers peers send
    and whatever the node answers, [AcceptBlockHeader] keeps the index
    well-formed, every entry's bits within the difficulty limit, and, on a
    network with the slot lock, every chain of headers on its minutes: the times
    from any entry down to the genesis block strictly decrease, each within the
    minute of its height, and no entry is higher than the minutes from genesis
    to the latest adjusted time plus one. Its assertions never fail as long as
    the fork-depth test finds a tip. *)
Theorem header_tree_invariant GetHash GetHashFull (hp : HeaderParams) (T : Z) (s : HeaderState) :
  0 <= hp_genesis_nTime hp -> pow_wf (hp_pow hp) -> header_reach GetHash GetHashFull hp T s ->
  let a := entries (hs_index s) in
  index_ok (hs_index s) /\
  (forall p e, a !! p = Some e ->
     in_range (hp_pow hp) (bi_nBits e) /\
     (fMineBlocksOnDemand hp = false ->
        let times := index_times a (S (Z.to_nat (nHeight e))) p in
        slot_chain (hp_genesis_nTime hp) times /\ StronglySorted Z.gt times /\
        (0 < nHeight e -> nHeight e <= SlotFromTime T - SlotFromTime (hp_genesis_nTime hp) + MAX_FUTURE_SLOTS))) /\
  (forall hv block, (forall h, reorg_too_deep a hv h <> None) ->
     AcceptBlockHeader GetHash GetHashFull hp hv s block <> None).
Proof.
  intros Hg Hw Hr. destruct (header_reach_ok GetHash GetHashFull hp T s Hg Hw Hr) as [Hi Hst Hroot Hall].
  split; [done|]. split.
  - intros p e He. destruct (Hall p e He) as [Hb Hslot]. split; [done|]. intros Hd. destruct (Hslot Hd) as [Hc Hle].
    split; [done|]. split; [by apply (slot_chain_sorted (hp_genesis_nTime hp))|done].
  - intros hv block Hdeep. unfold AcceptBlockHeader. destruct (index_header GetHash s block).
    destruct (bytes_eqb _ _); [done|]. destruct (mapBlockIndex_find _ (GetHash block)); [done|].
    destruct (CheckBlockHeader _ _ _ _ _ _); [|done].
    pose proof (find_spec (entries (hs_index s)) (hashPrevBlock block)) as F.
    destruct (mapBlockIndex_find _ (hashPrevBlock block)) as [q|]; [|done]. destruct F as (eq & Hq & _).
    destruct (failed _); [done|].
    assert (ContextualCheckBlockHeader hp (entries (hs_index s)) hv block q <> None) as Hctx.
    { unfold ContextualCheckBlockHeader. rewrite Hq.
      destruct (reorg_too_deep _ _ _) as [[]|] eqn:Ed; [done| |by apply Hdeep in Ed].
      destruct (GetNextWorkRequired_total _ (proj1 Hi) (hp_pow hp) Hw
                  (fun x ex Hx => ho_bits _ _ _ _ _ (Hall x ex Hx)) q eq block Hq) as (b & -> & _). done. }
    destruct (ContextualCheckBlockHeader _ _ _ _ _) as [[]|]; [|done|done].
    destruct (IsValid _ _); [done|]. by destruct (failed_ancestor _ _ _).
Qed.

(** Two headers on a chain that starts at second 1000. *)
Definition toy_hp : HeaderParams := mkHP main_pow 1000 (le_bytes 32 1) false 0 [].
Definition toy_header_at (prev nonce time : Z) : CBlockHeader :=
  mkHeader 0x30000000 (le_bytes 32 prev) uint256_null time toy_bits nonce 0 0 uint256_null.
Definition toy_view (now : Z) : HeaderView := mkHV [Some 0%nat] now now (Some 8) 60 4 43200 true true.
Definition toy_full (b : CBlockHeader) : bytes * bytes := (toy_hash b, uint256_null).

Definition toy_hs0 : HeaderState :=
  mkHS (AddToBlockIndex toy_hash empty_index (toy_header_at 0 1 1000)).2 [RaiseValidity 0 BLOCK_VALID_TREE] [].
Definition toy_hs1 : HeaderState :=
  match AcceptBlockHeader toy_hash toy_full toy_hp (toy_view 1010) toy_hs0 (toy_header_at 1 2 1030) with
  | Some (s, Accept, _) => s
  | _ => toy_hs0
  end.

Lemma toy_header_reach : header_reach toy_hash toy_full toy_hp 1010 toy_hs1.
Proof.
  apply (hr_accept _ _ _ 1010 toy_hs0 (toy_view 1010) (toy_header_at 1 2 1030) toy_hs1 Accept (Some 1%nat)).
  - apply (hr_genesis _ _ toy_hp); [vm_compute; reflexivity..| |vm_compute; discriminate].
    replace (nBits _) with (GetCompact (UintToArith256 (powLimit main_pow)) false) by (vm_compute; reflexivity).
    exact (limit_in_range main_pow main_pow_wf).
  - cbn. lia.
  - vm_compute. reflexivity.
  - vm_compute. reflexivity.
Qed.

Lemma header_tree_invariant_witness :
  slot_chain 1000 (index_times (entries (hs_index toy_hs1)) 2 1) /\
  index_times (entries (hs_index toy_hs1)) 2 1 = [1030; 1000].
Proof.
  split; [|vm_compute; reflexivity].
  assert (Hg : 0 <= hp_genesis_nTime toy_hp) by (cbn; lia).
  destruct (header_tree_invariant toy_hash toy_full toy_hp 1010 toy_hs1 Hg main_pow_wf toy_header_reach) as (_ & H & _).
  destruct (entries (hs_index toy_hs1) !! 1%nat) as [e|] eqn:He; [|exfalso; revert He; vm_compute; discriminate].
  assert (Hh : nHeight e = 1).
  { assert (E : (nHeight <$> entries (hs_index toy_hs1) !! 1%nat) = Some 1) by (vm_compute; reflexivity).
    rewrite He in E. injection E as E. exact E. }
  destruct (H 1%nat e He) as [_ Hs]. destruct (Hs eq_refl) as [Hc _]. rewrite Hh in Hc. exact Hc.
Defined.
