(* ===== verification/Hex.v ===== *)
(** * Hexadecimal and decimal text

    [HexDigit], [IsHex], [ParseHex] and [atoi64] of src/src/utilstrencodings.cpp
    and [HexStr] of src/src/utilstrencodings.h. A string is a list of bytes; the
    C string behind it ends at its end or at the first NUL, and NUL is neither a
    digit nor a space. *)

From S2P Require Import Prelude Handle.

Local Open Scope Z_scope.

(** The table [p_util_hexdigit]. *)
Definition HexDigit (c : Z) : Z :=
  if (48 <=? c) && (c <=? 57) then c - 48
  else if (65 <=? c) && (c <=? 70) then c - 65 + 10
  else if (97 <=? c) && (c <=? 102) then c - 97 + 10
  else -1.

Definition IsHex (str : bytes) : bool :=
  forallb (fun c => negb (HexDigit c <? 0)) str && (0 <? zlen str) && (zlen str mod 2 =? 0).

(** One turn of the loop: spaces, then two digits. Every turn that goes on takes
    two characters at least, so the length of the string is fuel enough. *)
Fixpoint parse_hex (fuel : nat) (psz : bytes) : bytes :=
  match fuel with
  | O => []
  | S fuel =>
      match drop_space psz with
      | c1 :: c2 :: psz =>
          if HexDigit c1 =? -1 then [] else
          if HexDigit c2 =? -1 then [] else
          Z.lor (uwrap 8 (Z.shiftl (HexDigit c1) 4)) (HexDigit c2) :: parse_hex fuel psz
      | _ => []
      end
  end.
Definition ParseHex (str : bytes) : bytes := parse_hex (length str) str.

Definition hexmap (d : Z) : Z := if d <? 10 then 48 + d else 97 + (d - 10).
Definition HexStr (vch : bytes) : bytes :=
  concat (map (fun val => [hexmap (Z.shiftr val 4); hexmap (Z.land val 15)]) vch).

(** [strtoll] in base ten: spaces, a sign, digits; out of range it returns the
    nearest bound. *)
Fixpoint take_digits (s : bytes) : bytes :=
  match s with
  | c :: s => if isdigit c then c :: take_digits s else []
  | [] => []
  end.
Definition atoi64 (str : bytes) : Z :=
  let s := drop_space str in
  let '(neg, s) := match s with
                   | c :: s' => if c =? 45 then (true, s') else if c =? 43 then (false, s') else (false, s)
                   | [] => (false, s)
                   end in
  let n := dec_value (take_digits s) in
  let n := if (neg : bool) then - n else n in
  Z.max (- 2 ^ 63) (Z.min (2 ^ 63 - 1) n).

(** ** Round trip *)

Lemma hexmap_digit d : 0 <= d < 16 -> HexDigit (hexmap d) = d /\ isspace (hexmap d) = false.
Proof.
  intros Hd. unfold HexDigit, hexmap, isspace.
  destruct (Z.ltb_spec d 10); split;
    repeat match goal with |- context [?a <=? ?b] => destruct (Z.leb_spec a b) end; cbn [andb orb]; try lia;
    repeat match goal with |- context [?a =? ?b] => destruct (Z.eqb_spec a b) end; lia || done.
Qed.

Lemma nibbles v : byte_ok v -> Z.lor (uwrap 8 (Z.shiftl (Z.shiftr v 4) 4)) (Z.land v 15) = v.
Proof.
  intros Hv. unfold byte_ok in Hv. unfold uwrap.
  change 15 with (Z.ones 4). rewrite (Z.land_ones v 4) by lia. rewrite Z.shiftr_div_pow2, Z.shiftl_mul_pow2 by lia.
  pose proof (Z.div_mod v (2 ^ 4) ltac:(lia)). pose proof (Z.mod_pos_bound v (2 ^ 4) ltac:(lia)).
  rewrite Z.mod_small by lia.
  assert (Z.land (v / 2 ^ 4 * 2 ^ 4) (v mod 2 ^ 4) = 0) as E.
  { rewrite <-Z.shiftl_mul_pow2 by lia. apply Z.bits_inj'. intros i Hi. rewrite Z.land_spec, Z.bits_0.
    destruct (Z.lt_ge_cases i 4); [by rewrite Z.shiftl_spec_low|].
    rewrite Z.mod_pow2_bits_high by lia. apply andb_false_r. }
  pose proof (Z.add_lor_land (v / 2 ^ 4 * 2 ^ 4) (v mod 2 ^ 4)). lia.
Qed.

Lemma HexDigit_hexmap v :
  byte_ok v -> HexDigit (hexmap (Z.shiftr v 4)) = Z.shiftr v 4 /\ HexDigit (hexmap (Z.land v 15)) = Z.land v 15 /\
  isspace (hexmap (Z.shiftr v 4)) = false /\ 0 <= Z.shiftr v 4 < 16 /\ 0 <= Z.land v 15 < 16.
Proof.
  intros Hv. unfold byte_ok in Hv.
  assert (0 <= Z.shiftr v 4 < 16) as H1
    by (rewrite Z.shiftr_div_pow2 by lia; split; [apply Z.div_pos; lia|apply Z.div_lt_upper_bound; lia]).
  assert (0 <= Z.land v 15 < 16) as H2 by (change 15 with (Z.ones 4); rewrite (Z.land_ones v 4) by lia; apply Z.mod_pos_bound; lia).
  destruct (hexmap_digit _ H1) as [-> ->]. by destruct (hexmap_digit _ H2) as [-> _].
Qed.

Lemma length_HexStr v : length (HexStr v) = (2 * length v)%nat.
Proof. induction v as [|x v IH]; [done|]. unfold HexStr in *. simpl in *. lia. Qed.

(** [ParseHex] inverts [HexStr]. *)
Lemma ParseHex_HexStr v : bytes_ok v -> ParseHex (HexStr v) = v.
Proof.
  intros Hv. unfold ParseHex. rewrite length_HexStr. assert (length v <= 2 * length v)%nat as Hf by lia.
  revert Hf. generalize (2 * length v)%nat as fuel. induction Hv as [|x v Hx _ IH]; intros fuel Hf.
  - by destruct fuel.
  - destruct fuel as [|fuel]; [simpl in Hf; lia|].
    destruct (HexDigit_hexmap x Hx) as (E1 & E2 & E3 & ? & ?).
    unfold HexStr. cbn [map concat app parse_hex drop_space]. rewrite E3, E1, E2.
    destruct (Z.eqb_spec (Z.shiftr x 4) (-1)); [lia|]. destruct (Z.eqb_spec (Z.land x 15) (-1)); [lia|].
    rewrite nibbles by done. f_equal. apply IH. simpl in Hf. lia.
Qed.

Lemma IsHex_HexStr v : bytes_ok v -> v <> [] -> IsHex (HexStr v) = true.
Proof.
  intros Hv Hne. unfold IsHex, zlen. rewrite length_HexStr. apply andb_true_iff. split; [apply andb_true_iff; split|].
  - unfold HexStr. induction Hv as [|x v Hx Hv IH]; [done|]. cbn [map concat app forallb].
    destruct (HexDigit_hexmap x Hx) as (-> & -> & _ & ? & ?).
    destruct (Z.ltb_spec (Z.shiftr x 4) 0); [lia|]. destruct (Z.ltb_spec (Z.land x 15) 0); [lia|]. cbn [negb andb].
    destruct v; [done|by apply IH].
  - destruct v; [done|]. apply Z.ltb_lt. simpl. lia.
  - apply Z.eqb_eq. rewrite Nat2Z.inj_mul, Z.mul_comm. apply Z.mod_mul. lia.
Qed.
