(* ===== verification/Json.v ===== *)
(** * JSON values

    src/src/univalue: the value type with its accessors, [write] with and without
    indentation, the tokenizer with its UTF-8 filter, and [read]. The session,
    the guest list and the answers of X are kept in this form. *)

From S2P Require Import Prelude Handle Hex.

Local Open Scope Z_scope.

(** [UniValue], by its type tag; numbers keep their text, objects keep their
    keys and values side by side. *)
Inductive UniValue :=
  | VNULL
  | VBOOL (b : bool)
  | VNUM (val : bytes)
  | VSTR (val : bytes)
  | VARR (values : list UniValue)
  | VOBJ (keys : list bytes) (values : list UniValue).

(** ** Accessors *)
Definition getValStr (v : UniValue) : bytes :=
  match v with
  | VBOOL true => bs "1"
  | VNUM val | VSTR val => val
  | _ => []
  end.
Definition isTrue (v : UniValue) : bool := match v with VBOOL b => b | _ => false end.
Definition isBool (v : UniValue) : bool := match v with VBOOL _ => true | _ => false end.
Definition isNum (v : UniValue) : bool := match v with VNUM _ => true | _ => false end.
Definition isObject (v : UniValue) : bool := match v with VOBJ _ _ => true | _ => false end.
Definition isArray (v : UniValue) : bool := match v with VARR _ => true | _ => false end.
(** The elements [operator[]] with an index reaches. *)
Definition uv_values (v : UniValue) : list UniValue := match v with VARR vs | VOBJ _ vs => vs | _ => [] end.

Fixpoint find_key (key : bytes) (keys : list bytes) (i : nat) : option nat :=
  match keys with
  | [] => None
  | k :: keys => if bytes_eqb k key then Some i else find_key key keys (S i)
  end.
Definition findKey (v : UniValue) (key : bytes) : option nat :=
  match v with VOBJ keys _ => find_key key keys 0 | _ => None end.
Definition uv_exists (v : UniValue) (key : bytes) : bool :=
  match findKey v key with Some _ => true | None => false end.

(** [operator[]] with a key. *)
Definition uv_at (v : UniValue) (key : bytes) : UniValue :=
  match v, findKey v key with
  | VOBJ _ values, Some i => default VNULL (values !! i)
  | _, _ => VNULL
  end.

Definition pushKV (v : UniValue) (key : bytes) (val : UniValue) : UniValue :=
  match v with
  | VOBJ keys values =>
      match find_key key keys 0 with
      | Some i => VOBJ keys (<[i := val]> values)
      | None => VOBJ (keys ++ [key]) (values ++ [val])
      end
  | _ => v
  end.

(** The text of an integer, as [ostringstream] prints it. *)
Fixpoint digits (fuel : nat) (n : Z) : bytes :=
  match fuel with
  | O => []
  | S fuel => if n <? 10 then [48 + n] else digits fuel (n / 10) ++ [48 + n mod 10]
  end.
Definition dec_str (z : Z) : bytes :=
  if z <? 0 then 45 :: digits (S (Z.to_nat (Z.log2 (- z)))) (- z) else digits (S (Z.to_nat (Z.log2 z))) z.
Definition uv_int (z : Z) : UniValue := VNUM (dec_str z).

Definition json_isspace (ch : Z) : bool := (ch =? 0x20) || (ch =? 0x09) || (ch =? 0x0a) || (ch =? 0x0d).

(** [ParseInt64] and [ParseInt32]: no padding, no NUL, a whole decimal number
    within the range. *)
Definition ParsePrechecks (str : bytes) : bool :=
  match str, last str with
  | c :: _, Some d => negb (json_isspace c || json_isspace d) && negb (existsb (Z.eqb 0) str)
  | _, _ => false
  end.
Definition strtoll (str : bytes) : option Z :=
  let s := drop_space str in
  let '(neg, s) := match s with
                   | c :: s' => if c =? 45 then (true, s') else if c =? 43 then (false, s') else (false, s)
                   | [] => (false, s)
                   end in
  match s with
  | [] => None
  | _ => if forallb isdigit s then Some (if (neg : bool) then - dec_value s else dec_value s) else None
  end.
Definition ParseInt (w : Z) (str : bytes) : option Z :=
  if negb (ParsePrechecks str) then None else
  match strtoll str with
  | Some n => if (- 2 ^ (w - 1) <=? n) && (n <? 2 ^ (w - 1)) then Some n else None
  | None => None
  end.

(** [None]: it throws. *)
Definition get_int (v : UniValue) : option Z := match v with VNUM val => ParseInt 32 val | _ => None end.
Definition get_int64 (v : UniValue) : option Z := match v with VNUM val => ParseInt 64 val | _ => None end.

(** ** Writing *)

(** The table [escapes]: control characters, quote, backslash and DEL. *)
Definition escape_char (ch : Z) : bytes :=
  if ch =? 8 then bs "\b" else if ch =? 9 then bs "\t" else if ch =? 10 then bs "\n"
  else if ch =? 12 then bs "\f" else if ch =? 13 then bs "\r"
  else if (ch <? 32) || (ch =? 127) then bs "\u00" ++ [hexmap (Z.shiftr ch 4); hexmap (Z.land ch 15)]
  else if (ch =? 34) || (ch =? 92) then [92; ch]
  else [ch].
Definition json_escape (inS : bytes) : bytes := concat (map escape_char inS).

Definition quoted (s : bytes) : bytes := [34] ++ json_escape s ++ [34].
Definition indentStr (prettyIndent indentLevel : nat) : bytes := repeat 32 (prettyIndent * indentLevel).
Definition when_pretty (prettyIndent : nat) (s : bytes) : bytes := match prettyIndent with O => [] | _ => s end.

(** The elements of an array or members of an object, each on its line when
    [p] is positive, with commas between them. *)
Definition write_elems (p level : nat) (elems : list bytes) : bytes :=
  (fix go (l : list bytes) : bytes :=
     match l with
     | [] => []
     | e :: l' => when_pretty p (indentStr p level) ++ e ++ (match l' with [] => [] | _ => [44] end) ++
                  when_pretty p [10] ++ go l'
     end) elems.

Fixpoint uv_write (p level : nat) (v : UniValue) {struct v} : bytes :=
  let m := match level with O => 1%nat | _ => level end in
  match v with
  | VNULL => bs "null"
  | VBOOL b => if b then bs "true" else bs "false"
  | VNUM val => val
  | VSTR val => quoted val
  | VARR values =>
      [91] ++ when_pretty p [10] ++ write_elems p m (map (uv_write p (S m)) values) ++
      when_pretty p (indentStr p (m - 1)) ++ [93]
  | VOBJ keys values =>
      [123] ++ when_pretty p [10] ++
      write_elems p m
        (zip_with (fun k s => quoted k ++ [58] ++ when_pretty p [32] ++ s) keys (map (uv_write p (S m)) values)) ++
      when_pretty p (indentStr p (m - 1)) ++ [125]
  end.

(** ** The UTF-8 filter *)
Record utf_filter := mkFilter { uf_str : bytes; is_valid : bool; codepoint : Z; uf_state : Z; surpair : Z }.
Definition filter_init : utf_filter := mkFilter [] true 0 0 0.

Definition append_codepoint (cp : Z) : bytes :=
  if cp <=? 0x7f then [cp]
  else if cp <=? 0x7ff then [Z.lor 0xc0 (Z.shiftr cp 6); Z.lor 0x80 (Z.land cp 0x3f)]
  else if cp <=? 0xffff then
    [Z.lor 0xe0 (Z.shiftr cp 12); Z.lor 0x80 (Z.land (Z.shiftr cp 6) 0x3f); Z.lor 0x80 (Z.land cp 0x3f)]
  else if cp <=? 0x1fffff then
    [Z.lor 0xf0 (Z.shiftr cp 18); Z.lor 0x80 (Z.land (Z.shiftr cp 12) 0x3f);
     Z.lor 0x80 (Z.land (Z.shiftr cp 6) 0x3f); Z.lor 0x80 (Z.land cp 0x3f)]
  else [].

Definition push_back_u (w : utf_filter) (cp : Z) : utf_filter :=
  let ok := is_valid w && (uf_state w =? 0) in
  if (0xd800 <=? cp) && (cp <? 0xdc00) then
    if negb (surpair w =? 0) then mkFilter (uf_str w) false (codepoint w) (uf_state w) (surpair w)
    else mkFilter (uf_str w) ok (codepoint w) (uf_state w) cp
  else if (0xdc00 <=? cp) && (cp <? 0xe000) then
    if negb (surpair w =? 0) then
      let full := Z.lor (Z.lor 0x10000 (Z.shiftl (surpair w - 0xd800) 10)) (cp - 0xdc00) in
      mkFilter (uf_str w ++ append_codepoint full) ok (codepoint w) (uf_state w) 0
    else mkFilter (uf_str w) false (codepoint w) (uf_state w) (surpair w)
  else
    if negb (surpair w =? 0) then mkFilter (uf_str w) false (codepoint w) (uf_state w) (surpair w)
    else mkFilter (uf_str w ++ append_codepoint cp) ok (codepoint w) (uf_state w) (surpair w).

Definition filter_push (w : utf_filter) (ch : Z) : utf_filter :=
  if uf_state w =? 0 then
    if ch <? 0x80 then mkFilter (uf_str w ++ [ch]) (is_valid w) (codepoint w) 0 (surpair w)
    else if ch <? 0xc0 then mkFilter (uf_str w) false (codepoint w) 0 (surpair w)
    else if ch <? 0xe0 then mkFilter (uf_str w) (is_valid w) (Z.shiftl (Z.land ch 0x1f) 6) 6 (surpair w)
    else if ch <? 0xf0 then mkFilter (uf_str w) (is_valid w) (Z.shiftl (Z.land ch 0x0f) 12) 12 (surpair w)
    else if ch <? 0xf8 then mkFilter (uf_str w) (is_valid w) (Z.shiftl (Z.land ch 0x07) 18) 18 (surpair w)
    else mkFilter (uf_str w) false (codepoint w) 0 (surpair w)
  else
    let ok := is_valid w && (Z.land ch 0xc0 =? 0x80) in
    let state := uf_state w - 6 in
    let cp := Z.lor (codepoint w) (Z.shiftl (Z.land ch 0x3f) state) in
    let w := mkFilter (uf_str w) ok cp state (surpair w) in
    if state =? 0 then push_back_u w cp else w.

Definition filter_finalize (w : utf_filter) : bool := is_valid w && (uf_state w =? 0) && (surpair w =? 0).

(** ** Tokens *)
Inductive jtoken :=
  | JTOK_OBJ_OPEN | JTOK_OBJ_CLOSE | JTOK_ARR_OPEN | JTOK_ARR_CLOSE | JTOK_COLON | JTOK_COMMA
  | JTOK_KW_NULL | JTOK_KW_TRUE | JTOK_KW_FALSE | JTOK_NUMBER (tokenVal : bytes) | JTOK_STRING (tokenVal : bytes).

(** [JTOK_NONE], [JTOK_ERR], or a token and what follows it. *)
Inductive lexed := LexNone | LexErr | Lex (tok : jtoken) (rest : bytes).

Fixpoint skip_ws (raw : bytes) : bytes :=
  match raw with
  | c :: raw' => if json_isspace c then skip_ws raw' else raw
  | [] => []
  end.

Fixpoint span_digits (raw : bytes) : bytes * bytes :=
  match raw with
  | c :: raw' => if isdigit c then let '(ds, rest) := span_digits raw' in (c :: ds, rest) else ([], raw)
  | [] => ([], [])
  end.

Definition starts_digit (raw : bytes) : bool := match raw with c :: _ => isdigit c | [] => false end.

(** The exponent, after the digits [num]. *)
Definition lex_exp (num r : bytes) : lexed :=
  match r with
  | d :: r' =>
      if (d =? 101) || (d =? 69) then
        let '(sign, r') := match r' with
                           | s :: r'' => if (s =? 45) || (s =? 43) then ([s], r'') else ([], r')
                           | [] => ([], r')
                           end in
        if starts_digit r' then
          let '(es, r'') := span_digits r' in Lex (JTOK_NUMBER (num ++ d :: sign ++ es)) r''
        else LexErr
      else Lex (JTOK_NUMBER num) r
  | [] => Lex (JTOK_NUMBER num) r
  end.

(** The fraction and the exponent. *)
Definition lex_frac (num r : bytes) : lexed :=
  match r with
  | d :: r' =>
      if d =? 46 then
        if starts_digit r' then let '(fs, r'') := span_digits r' in lex_exp (num ++ d :: fs) r'' else LexErr
      else lex_exp num r
  | [] => lex_exp num r
  end.

(** A number, [raw] starting with a digit or a minus sign. *)
Definition lex_number (raw : bytes) : lexed :=
  match raw with
  | [] => LexErr
  | c :: r =>
      let firstDigit := if isdigit c then raw else r in
      if match firstDigit with d :: r' => (d =? 48) && starts_digit r' | [] => false end then LexErr else
      if (c =? 45) && negb (zlen r =? 0) && negb (starts_digit r) then LexErr else
      let '(ds, r) := span_digits r in lex_frac (c :: ds) r
  end.

(** What a one-letter escape stands for. *)
Definition unescape (c : Z) : option Z :=
  if c =? 34 then Some 34 else if c =? 92 then Some 92 else if c =? 47 then Some 47
  else if c =? 98 then Some 8 else if c =? 102 then Some 12 else if c =? 110 then Some 10
  else if c =? 114 then Some 13 else if c =? 116 then Some 9 else None.

Definition hatoui (h1 h2 h3 h4 : Z) : option Z :=
  if existsb (fun h => HexDigit h <? 0) [h1; h2; h3; h4] then None
  else Some (16 * (16 * (16 * HexDigit h1 + HexDigit h2) + HexDigit h3) + HexDigit h4).

(** The characters of a string after its opening quote. *)
Fixpoint lex_string (w : utf_filter) (raw : bytes) : lexed :=
  match raw with
  | [] => LexErr
  | c :: raw1 =>
      if c <? 0x20 then LexErr
      else if c =? 92 then
        match raw1 with
        | [] => LexErr
        | e :: raw2 =>
            if e =? 117 then
              match raw2 with
              | h1 :: h2 :: h3 :: h4 :: raw3 =>
                  match raw3 with
                  | [] => LexErr
                  | _ => match hatoui h1 h2 h3 h4 with
                         | Some cp => lex_string (push_back_u w cp) raw3
                         | None => LexErr
                         end
                  end
              | _ => LexErr
              end
            else match unescape e with
                 | Some ch => lex_string (filter_push w ch) raw2
                 | None => LexErr
                 end
        end
      else if c =? 34 then if filter_finalize w then Lex (JTOK_STRING (uf_str w)) raw1 else LexErr
      else lex_string (filter_push w c) raw1
  end.

Fixpoint strip_prefix (p s : bytes) : option bytes :=
  match p, s with
  | [], _ => Some s
  | x :: p, y :: s => if x =? y then strip_prefix p s else None
  | _ :: _, [] => None
  end.

Definition getJsonToken (raw : bytes) : lexed :=
  match skip_ws raw with
  | [] => LexNone
  | c :: r =>
      let raw := c :: r in
      if c =? 123 then Lex JTOK_OBJ_OPEN r else if c =? 125 then Lex JTOK_OBJ_CLOSE r
      else if c =? 91 then Lex JTOK_ARR_OPEN r else if c =? 93 then Lex JTOK_ARR_CLOSE r
      else if c =? 58 then Lex JTOK_COLON r else if c =? 44 then Lex JTOK_COMMA r
      else if (c =? 110) || (c =? 116) || (c =? 102) then
        match strip_prefix (bs "null") raw with
        | Some r => Lex JTOK_KW_NULL r
        | None =>
            match strip_prefix (bs "true") raw with
            | Some r => Lex JTOK_KW_TRUE r
            | None => match strip_prefix (bs "false") raw with Some r => Lex JTOK_KW_FALSE r | None => LexErr end
            end
        end
      else if (c =? 45) || isdigit c then lex_number raw
      else if c =? 34 then lex_string filter_init r
      else LexErr
  end.

(** ** Reading *)

(** The bits of [expectMask]. *)
Record expects := mkExp { x_obj_name : bool; x_colon : bool; x_arr_value : bool; x_value : bool; x_not_value : bool }.

(** An open container; the [stack] of pointers into the value is kept as the
    open containers themselves, the innermost first, and a container goes into
    the one around it when it is closed. *)
Inductive frame := FArr (values : list UniValue) | FObj (keys : list bytes) (values : list UniValue).
Definition frame_value (f : frame) : UniValue := match f with FArr vs => VARR vs | FObj ks vs => VOBJ ks vs end.
Definition frame_push (f : frame) (v : UniValue) : frame :=
  match f with FArr vs => FArr (vs ++ [v]) | FObj ks vs => FObj ks (vs ++ [v]) end.

Record jstate := mkJ {
  j_raw : bytes;
  j_exp : expects;
  j_stack : list frame;
  j_last : option jtoken;
  j_this : UniValue;
}.

Definition isValueOpen (tok : jtoken) : bool :=
  match tok with
  | JTOK_KW_NULL | JTOK_KW_TRUE | JTOK_KW_FALSE | JTOK_NUMBER _ | JTOK_STRING _ | JTOK_OBJ_OPEN | JTOK_ARR_OPEN => true
  | _ => false
  end.

(** The tests on the mask; [None] is a refusal. *)
Definition check_expect (e : expects) (tok : jtoken) : option expects :=
  let r :=
    if x_value e then
      if isValueOpen tok then Some (mkExp (x_obj_name e) (x_colon e) (x_arr_value e) false (x_not_value e)) else None
    else if x_arr_value e then
      if isValueOpen tok || match tok with JTOK_ARR_CLOSE => true | _ => false end
      then Some (mkExp (x_obj_name e) (x_colon e) false (x_value e) (x_not_value e)) else None
    else if x_obj_name e then
      match tok with JTOK_OBJ_CLOSE | JTOK_STRING _ => Some e | _ => None end
    else if x_colon e then
      match tok with
      | JTOK_COLON => Some (mkExp (x_obj_name e) false (x_arr_value e) (x_value e) (x_not_value e))
      | _ => None
      end
    else match tok with JTOK_COLON => None | _ => Some e end in
  match r with
  | None => None
  | Some e =>
      if x_not_value e then
        if isValueOpen tok then None
        else Some (mkExp (x_obj_name e) (x_colon e) (x_arr_value e) (x_value e) false)
      else Some e
  end.

Definition set_not_value (e : expects) : expects :=
  mkExp (x_obj_name e) (x_colon e) (x_arr_value e) (x_value e) true.
Definition set_arr_value (e : expects) : expects :=
  mkExp (x_obj_name e) (x_colon e) true (x_value e) (x_not_value e).
Definition set_obj_name (b : bool) (e : expects) : expects :=
  mkExp b (x_colon e) (x_arr_value e) (x_value e) (x_not_value e).
Definition set_value (e : expects) : expects :=
  mkExp (x_obj_name e) (x_colon e) (x_arr_value e) true (x_not_value e).
Definition set_colon (e : expects) : expects :=
  mkExp (x_obj_name e) true (x_arr_value e) (x_value e) (x_not_value e).

(** A scalar: the whole value, or the next one of the innermost container. *)
Definition put_scalar (st : jstate) (e : expects) (rest : bytes) (tok : jtoken) (v : UniValue) : jstate :=
  match j_stack st with
  | [] => mkJ rest e [] (Some tok) v
  | f :: fs => mkJ rest (set_not_value e) (frame_push f v :: fs) (Some tok) (j_this st)
  end.

(** A container is complete. *)
Definition close_frame (st : jstate) (e : expects) (rest : bytes) (tok : jtoken) (f : frame) (fs : list frame) : jstate :=
  let e := set_not_value (set_obj_name false e) in
  match fs with
  | [] => mkJ rest e [] (Some tok) (frame_value f)
  | g :: gs => mkJ rest e (frame_push g (frame_value f) :: gs) (Some tok) (j_this st)
  end.

(** The innermost open container, and whether the token before was a comma. *)
Definition after_comma (st : jstate) : bool := match j_last st with Some JTOK_COMMA => true | _ => false end.
Definition after_arr_open (st : jstate) : bool := match j_last st with Some JTOK_ARR_OPEN => true | _ => false end.

(** One turn of the loop. *)
Definition read_step (st : jstate) : option jstate :=
  match getJsonToken (j_raw st) with
  | LexNone | LexErr => None
  | Lex tok rest =>
      match check_expect (j_exp st) tok with
      | None => None
      | Some e =>
          match tok with
          | JTOK_OBJ_OPEN => Some (mkJ rest (set_obj_name true e) (FObj [] [] :: j_stack st) (Some tok) (j_this st))
          | JTOK_ARR_OPEN => Some (mkJ rest (set_arr_value e) (FArr [] :: j_stack st) (Some tok) (j_this st))
          | JTOK_OBJ_CLOSE =>
              match j_stack st with
              | FObj ks vs :: fs => if after_comma st then None else Some (close_frame st e rest tok (FObj ks vs) fs)
              | _ => None
              end
          | JTOK_ARR_CLOSE =>
              match j_stack st with
              | FArr vs :: fs => if after_comma st then None else Some (close_frame st e rest tok (FArr vs) fs)
              | _ => None
              end
          | JTOK_COLON =>
              match j_stack st with
              | FObj _ _ :: _ => Some (mkJ rest (set_value e) (j_stack st) (Some tok) (j_this st))
              | _ => None
              end
          | JTOK_COMMA =>
              match j_stack st with
              | [] => None
              | f :: _ =>
                  if after_comma st || after_arr_open st then None else
                  let e := match f with FObj _ _ => set_obj_name true e | FArr _ => set_arr_value e end in
                  Some (mkJ rest e (j_stack st) (Some tok) (j_this st))
              end
          | JTOK_KW_NULL => Some (put_scalar st e rest tok VNULL)
          | JTOK_KW_TRUE => Some (put_scalar st e rest tok (VBOOL true))
          | JTOK_KW_FALSE => Some (put_scalar st e rest tok (VBOOL false))
          | JTOK_NUMBER val => Some (put_scalar st e rest tok (VNUM val))
          | JTOK_STRING val =>
              if x_obj_name e then
                match j_stack st with
                | FObj ks vs :: fs =>
                    Some (mkJ rest (set_not_value (set_colon (set_obj_name false e))) (FObj (ks ++ [val]) vs :: fs)
                            (Some tok) (j_this st))
                | _ => None
                end
              else Some (put_scalar st e rest tok (VSTR val))
          end
      end
  end.

(** The loop, until the outermost value is complete; every token takes a
    character at least, so the length of the text is fuel enough. *)
Fixpoint read_loop (fuel : nat) (st : jstate) : option jstate :=
  match fuel with
  | O => None
  | S fuel =>
      match read_step st with
      | None => None
      | Some st => match j_stack st with [] => Some st | _ => read_loop fuel st end
      end
  end.

Definition exp_none : expects := mkExp false false false false false.
Definition uv_read (raw : bytes) : option UniValue :=
  match read_loop (S (length raw)) (mkJ raw exp_none [] None VNULL) with
  | Some st => match getJsonToken (j_raw st) with LexNone => Some (j_this st) | _ => None end
  | None => None
  end.

(** ** Well-formed values *)

Section UniValue_induction.
Variable P : UniValue -> Prop.
Hypothesis Hnull : P VNULL.
Hypothesis Hbool : forall b, P (VBOOL b).
Hypothesis Hnum : forall s, P (VNUM s).
Hypothesis Hstr : forall s, P (VSTR s).
Hypothesis Harr : forall vs, Forall P vs -> P (VARR vs).
Hypothesis Hobj : forall ks vs, Forall P vs -> P (VOBJ ks vs).

(** Induction through the elements of arrays and objects. *)
Fixpoint UniValue_nested (v : UniValue) : P v :=
  let all := fix go (l : list UniValue) : Forall P l :=
    match l with
    | [] => Forall_nil_2 P
    | x :: l => Forall_cons_2 P x l (UniValue_nested x) (go l)
    end in
  match v with
  | VNULL => Hnull
  | VBOOL b => Hbool b
  | VNUM s => Hnum s
  | VSTR s => Hstr s
  | VARR vs => Harr vs (all vs)
  | VOBJ ks vs => Hobj ks vs (all vs)
  end.
End UniValue_induction.

(** A code point that UTF-8 can carry. *)
Definition cp_ok (cp : Z) : Prop := 0 <= cp <= 0x1fffff /\ ~ (0xd800 <= cp < 0xe000).
(** The string is UTF-8. *)
Definition str_ok (s : bytes) : Prop := exists cps, Forall cp_ok cps /\ s = concat (map append_codepoint cps).

Definition digs (s : bytes) : Prop := s <> [] /\ forallb isdigit s = true.
(** The number grammar: sign, integer without leading zeros, fraction,
    exponent. *)
Definition num_ok (s : bytes) : Prop :=
  exists sign ip fr ex, s = sign ++ ip ++ fr ++ ex /\ (sign = [] \/ sign = [45]) /\
    digs ip /\ (ip = [48] \/ List.hd 0 ip <> 48) /\
    (fr = [] \/ exists ds, fr = 46 :: ds /\ digs ds) /\
    (ex = [] \/ exists e sg ds, ex = e :: sg ++ ds /\ (e = 101 \/ e = 69) /\ (sg = [] \/ sg = [45] \/ sg = [43]) /\ digs ds).

Fixpoint uv_ok (v : UniValue) : Prop :=
  match v with
  | VNULL | VBOOL _ => True
  | VNUM s => num_ok s
  | VSTR s => str_ok s
  | VARR vs => (fix all l := match l with [] => True | x :: l => uv_ok x /\ all l end) vs
  | VOBJ ks vs => Forall str_ok ks /\ length ks = length vs /\
                  (fix all l := match l with [] => True | x :: l => uv_ok x /\ all l end) vs
  end.

Lemma uv_ok_all vs :
  (fix all l := match l with [] => True | x :: l => uv_ok x /\ all l end) vs <-> Forall uv_ok vs.
Proof. induction vs as [|x vs IH]; [by split|]. rewrite Forall_cons. by rewrite IH. Qed.

Lemma uv_ok_arr vs : Forall uv_ok vs -> uv_ok (VARR vs).
Proof. apply uv_ok_all. Qed.
Lemma uv_ok_obj ks vs : Forall str_ok ks -> length ks = length vs -> Forall uv_ok vs -> uv_ok (VOBJ ks vs).
Proof. intros ? ? ?. split_and!; [done..|]. by apply uv_ok_all. Qed.

(** ** Strings *)

Lemma lor_add a b k : 0 <= k -> 0 <= b < 2 ^ k -> Z.lor (a * 2 ^ k) b = a * 2 ^ k + b.
Proof.
  intros Hk Hb. pose proof (Z.add_lor_land (a * 2 ^ k) b) as E.
  assert (Z.land (a * 2 ^ k) b = 0) as E0; [|lia].
  rewrite <-Z.shiftl_mul_pow2 by done. apply Z.bits_inj'. intros i Hi. rewrite Z.land_spec, Z.bits_0.
  destruct (Z.lt_ge_cases i k); [by rewrite Z.shiftl_spec_low|].
  destruct (Z.eq_dec b 0) as [->|Hne]; [by rewrite Z.bits_0, andb_false_r|].
  rewrite (Z.bits_above_log2 b i), andb_false_r; [done|lia|].
  apply Z.log2_lt_pow2; [lia|]. eapply Z.lt_le_trans; [apply Hb|]. by apply Z.pow_le_mono_r.
Qed.

(** A test of all bytes. *)
Lemma byte_forall (P : Z -> bool) b : forallb P (map Z.of_nat (seq 0 256)) = true -> 0 <= b < 256 -> P b = true.
Proof.
  intros Hf Hb. rewrite forallb_forall in Hf. apply Hf, list_elem_of_In, list_elem_of_fmap.
  exists (Z.to_nat b). split; [lia|]. apply elem_of_seq. lia.
Qed.

Lemma lor_c0 q : 0 <= q < 64 -> Z.lor 0xc0 q = 192 + q.
Proof. intros. by apply (lor_add 3 q 6). Qed.
Lemma lor_e0 q : 0 <= q < 32 -> Z.lor 0xe0 q = 224 + q.
Proof. intros. by apply (lor_add 7 q 5). Qed.
Lemma lor_f0 q : 0 <= q < 16 -> Z.lor 0xf0 q = 240 + q.
Proof. intros. by apply (lor_add 15 q 4). Qed.
Lemma lor_80 q : 0 <= q < 64 -> Z.lor 0x80 q = 128 + q.
Proof. intros. by apply (lor_add 2 q 6). Qed.

Lemma land_low_mask q k m : 0 <= k -> m = 2 ^ k - 1 -> Z.land q m = q mod 2 ^ k.
Proof. intros Hk ->. rewrite <-Z.land_ones by done. f_equal. rewrite Z.ones_equiv. lia. Qed.

Lemma cont_byte x : 0 <= x < 64 -> Z.land (128 + x) 0xc0 = 0x80.
Proof.
  intros Hx. apply Z.eqb_eq.
  pose proof (byte_forall (fun b => negb ((128 <=? b) && (b <? 192)) || (Z.land b 0xc0 =? 0x80)) (128 + x)
    ltac:(vm_compute; reflexivity) ltac:(lia)) as Hb. cbv beta in Hb.
  destruct (Z.leb_spec 128 (128 + x)); [|lia]. destruct (Z.ltb_spec (128 + x) 192); [|lia]. exact Hb.
Qed.

(** The filter between characters. *)
Abbreviation open_filter str cp := (mkFilter str true cp 0 0).

Lemma mod_top a q k : 0 <= k -> 0 <= q < 2 ^ k -> (a * 2 ^ k + q) mod 2 ^ k = q.
Proof. intros Hk Hq. rewrite Z.add_comm, Z.mod_add by lia. by apply Z.mod_small. Qed.

(** The first byte of a sequence of [n] bytes. *)
Lemma push_lead str c q (hi k st : Z) :
  (hi, k, st) = (192, 5, 6) \/ (hi, k, st) = (224, 4, 12) \/ (hi, k, st) = (240, 3, 18) -> 0 <= q < 2 ^ k ->
  filter_push (open_filter str c) (hi + q) = mkFilter str true (q * 2 ^ st) st 0.
Proof.
  intros Hc Hq. unfold filter_push. change (uf_state _ =? 0) with true. cbv iota. cbn [uf_str is_valid surpair].
  rewrite (land_low_mask _ 5), (land_low_mask _ 4), (land_low_mask _ 3) by (done || lia).
  destruct Hc as [E|[E|E]]; injection E as -> -> ->;
    repeat (match goal with |- context [?a <? ?b] => destruct (Z.ltb_spec a b); try lia end);
    rewrite Z.shiftl_mul_pow2 by lia; do 2 f_equal.
  - by apply (mod_top 6 q 5).
  - by apply (mod_top 14 q 4).
  - by apply (mod_top 30 q 3).
Qed.

(** A continuation byte with the bits [x]. *)
Lemma push_cont str c st x : 6 <= st -> 0 <= x < 64 ->
  filter_push (mkFilter str true c st 0) (128 + x) =
  let w := mkFilter str true (Z.lor c (x * 2 ^ (st - 6))) (st - 6) 0 in
  if st - 6 =? 0 then push_back_u w (codepoint w) else w.
Proof.
  intros Hst Hx. unfold filter_push. cbn [uf_state is_valid uf_str surpair codepoint]. destruct (Z.eqb_spec st 0); [lia|].
  rewrite cont_byte, (land_low_mask _ 6) by (done || lia). change (128 + x) with (2 * 2 ^ 6 + x).
  rewrite mod_top, Z.shiftl_mul_pow2 by lia. done.
Qed.

(** The bytes of one code point go through the filter unchanged. *)
Lemma filter_pass cp str x : cp_ok cp -> 0x80 <= cp ->
  exists y, fold_left filter_push (append_codepoint cp) (open_filter str x) = open_filter (str ++ append_codepoint cp) y /\
    Forall (fun b => 0x80 <= b < 256) (append_codepoint cp).
Proof.
  intros [Hcp Hsur] Hlo. exists cp.
  assert (Hl : forall z, Z.land z 0x3f = z mod 64) by (intros; by apply (land_low_mask _ 6)).
  assert (Hpush : forall c, c = cp -> push_back_u (open_filter str c) c = open_filter (str ++ append_codepoint cp) cp).
  { intros c ->. unfold push_back_u. cbn [is_valid uf_state surpair uf_str codepoint]. change (0 =? 0) with true. cbn [negb andb].
    destruct (Z.leb_spec 0xd800 cp), (Z.ltb_spec cp 0xdc00), (Z.leb_spec 0xdc00 cp), (Z.ltb_spec cp 0xe000); cbn [andb];
      done || lia. }
  pose proof (Z.div_mod cp 64 ltac:(lia)) as D1. pose proof (Z.mod_pos_bound cp 64 ltac:(lia)) as M1.
  pose proof (Z.div_mod (cp / 64) 64 ltac:(lia)) as D2. pose proof (Z.mod_pos_bound (cp / 64) 64 ltac:(lia)) as M2.
  pose proof (Z.div_mod (cp / 64 / 64) 64 ltac:(lia)) as D3. pose proof (Z.mod_pos_bound (cp / 64 / 64) 64 ltac:(lia)) as M3.
  assert (E6 : Z.shiftr cp 6 = cp / 64) by by apply Z.shiftr_div_pow2.
  assert (E12 : Z.shiftr cp 12 = cp / 64 / 64) by (rewrite Z.shiftr_div_pow2, Z.div_div by lia; done).
  assert (E18 : Z.shiftr cp 18 = cp / 64 / 64 / 64) by (rewrite Z.shiftr_div_pow2, !Z.div_div by lia; done).
  unfold append_codepoint at 1 3. destruct (Z.leb_spec cp 0x7f); [lia|]. rewrite E6, E12, E18, !Hl.
  set (q1 := cp / 64) in *. set (q2 := q1 / 64) in *. set (q3 := q2 / 64) in *.
  destruct (Z.leb_spec cp 0x7ff); [|destruct (Z.leb_spec cp 0xffff); [|destruct (Z.leb_spec cp 0x1fffff); [|lia]]].
  - rewrite lor_c0, lor_80 by lia. split; [|repeat constructor; lia]. cbn [fold_left].
    rewrite (push_lead _ _ _ _ 5 6), push_cont by (lia || auto). cbn zeta. change (6 - 6 =? 0) with true. cbv iota.
    apply Hpush. cbn [codepoint]. change (6 - 6) with 0. rewrite Z.mul_1_r, lor_add by lia. lia.
  - rewrite lor_e0, !lor_80 by lia. split; [|repeat constructor; lia]. cbn [fold_left].
    rewrite (push_lead _ _ _ _ 4 12), push_cont by (lia || auto). cbn zeta. change (12 - 6 =? 0) with false. cbv iota.
    change (12 - 6) with 6. rewrite push_cont by lia. cbn zeta. change (6 - 6 =? 0) with true. cbv iota.
    apply Hpush. cbn [codepoint]. change (6 - 6) with 0. rewrite Z.mul_1_r, (lor_add q2 _ 12) by lia.
    replace (q2 * 2 ^ 12 + q1 mod 64 * 2 ^ 6) with (q1 * 2 ^ 6) by lia. rewrite lor_add by lia. lia.
  - rewrite lor_f0, !lor_80 by lia. split; [|repeat constructor; lia]. cbn [fold_left].
    rewrite (push_lead _ _ _ _ 3 18), push_cont by (lia || auto). cbn zeta. change (18 - 6 =? 0) with false. cbv iota.
    change (18 - 6) with 12. rewrite push_cont by lia. cbn zeta. change (12 - 6 =? 0) with false. cbv iota.
    change (12 - 6) with 6. rewrite push_cont by lia. cbn zeta. change (6 - 6 =? 0) with true. cbv iota.
    apply Hpush. cbn [codepoint]. change (6 - 6) with 0. rewrite Z.mul_1_r, (lor_add q3 _ 18) by lia.
    replace (q3 * 2 ^ 18 + q2 mod 64 * 2 ^ 12) with (q2 * 2 ^ 12) by lia. rewrite (lor_add q2 _ 12) by lia.
    replace (q2 * 2 ^ 12 + q1 mod 64 * 2 ^ 6) with (q1 * 2 ^ 6) by lia. rewrite lor_add by lia. lia.
Qed.

Ltac eval_bs :=
  repeat match goal with |- context [bs ?s] => let v := eval vm_compute in (bs s) in change (bs s) with v end.

Lemma lex_string_cons w c raw : 0x20 <= c -> c <> 92 -> c <> 34 ->
  lex_string w (c :: raw) = lex_string (filter_push w c) raw.
Proof.
  intros. cbn [lex_string]. destruct (Z.ltb_spec c 0x20); [lia|].
  destruct (Z.eqb_spec c 92); [done|]. by destruct (Z.eqb_spec c 34).
Qed.

Lemma lex_string_escape w e ch raw : e <> 117 -> unescape e = Some ch ->
  lex_string w (92 :: e :: raw) = lex_string (filter_push w ch) raw.
Proof.
  intros Hu He. cbn [lex_string]. change (92 <? 0x20) with false. change (92 =? 92) with true. cbv iota.
  destruct (Z.eqb_spec e 117); [done|]. by rewrite He.
Qed.

Lemma filter_push_ascii str x c : 0 <= c < 0x80 -> filter_push (open_filter str x) c = open_filter (str ++ [c]) x.
Proof. intros. unfold filter_push. cbn. by destruct (Z.ltb_spec c 0x80); [|lia]. Qed.

Lemma lex_string_u str x c raw : 0 <= c < 0x80 -> raw <> [] ->
  lex_string (open_filter str x) (92 :: 117 :: 48 :: 48 :: hexmap (Z.shiftr c 4) :: hexmap (Z.land c 15) :: raw) =
  lex_string (open_filter (str ++ [c]) x) raw.
Proof.
  intros Hc Hr. destruct (HexDigit_hexmap c) as (E1 & E2 & _ & H1 & H2); [unfold byte_ok; lia|].
  cbn [lex_string]. change (92 <? 0x20) with false. change (92 =? 92) with true. change (117 =? 117) with true. cbv iota.
  destruct raw as [|r raw]; [done|].
  assert (hatoui 48 48 (hexmap (Z.shiftr c 4)) (hexmap (Z.land c 15)) = Some c) as ->.
  { unfold hatoui. cbn [existsb]. change (HexDigit 48) with 0. rewrite E1, E2.
    destruct (Z.ltb_spec (Z.shiftr c 4) 0); [lia|]. destruct (Z.ltb_spec (Z.land c 15) 0); [lia|]. cbn [orb Z.ltb Z.compare].
    f_equal. rewrite Z.shiftr_div_pow2, (land_low_mask _ 4) by (done || lia). pose proof (Z.div_mod c (2 ^ 4)). lia. }
  f_equal. unfold push_back_u. cbn [is_valid uf_state surpair uf_str codepoint]. change (0 =? 0) with true. cbn [negb andb].
  destruct (Z.leb_spec 0xd800 c); [lia|]. destruct (Z.leb_spec 0xdc00 c); [lia|]. cbn [andb].
  unfold append_codepoint. by destruct (Z.leb_spec c 0x7f); [|lia].
Qed.

(** One ASCII character. *)
Lemma lex_string_ascii str x c raw : 0 <= c < 0x80 -> raw <> [] ->
  lex_string (open_filter str x) (escape_char c ++ raw) = lex_string (open_filter (str ++ [c]) x) raw.
Proof.
  intros Hc Hr. unfold escape_char. eval_bs.
  do 5 (match goal with |- context [if ?a =? ?b then _ else _] => destruct (Z.eqb_spec a b) as [->|] end;
        [cbn [app]; by erewrite lex_string_escape, filter_push_ascii by (done || lia)|]).
  destruct ((c <? 32) || (c =? 127)) eqn:E1; [by apply lex_string_u|].
  apply orb_false_iff in E1 as [E1 _]. apply Z.ltb_ge in E1.
  destruct (Z.eqb_spec c 34) as [->|]; [cbn [orb app]; by erewrite lex_string_escape, filter_push_ascii by (done || lia)|].
  destruct (Z.eqb_spec c 92) as [->|]; [cbn [orb app]; by erewrite lex_string_escape, filter_push_ascii by (done || lia)|].
  cbn [orb app]. by rewrite lex_string_cons, filter_push_ascii by lia.
Qed.

Lemma escape_high b : 0x80 <= b -> escape_char b = [b].
Proof.
  intros Hb. unfold escape_char.
  repeat match goal with |- context [?a =? ?b] => destruct (Z.eqb_spec a b); [lia|] end.
  by destruct (Z.ltb_spec b 32); [lia|].
Qed.

Lemma lex_string_high l : forall w raw, Forall (fun b => 0x80 <= b < 256) l ->
  lex_string w (json_escape l ++ raw) = lex_string (fold_left filter_push l w) raw.
Proof.
  induction l as [|b l IH]; intros w raw Hl; [done|]. inv Hl. unfold json_escape in *. cbn [map concat].
  rewrite escape_high by lia. cbn [app fold_left]. by rewrite lex_string_cons, IH by (done || lia).
Qed.

(** One code point, and a whole string. *)
Lemma lex_string_cp str x cp raw : cp_ok cp -> raw <> [] ->
  exists y, lex_string (open_filter str x) (json_escape (append_codepoint cp) ++ raw) =
            lex_string (open_filter (str ++ append_codepoint cp) y) raw.
Proof.
  intros Hcp Hr. destruct (Z.lt_ge_cases cp 0x80) as [Hlt|Hge].
  - exists x. assert (append_codepoint cp = [cp]) as ->.
    { unfold append_codepoint. by destruct (Z.leb_spec cp 0x7f); [|lia]. }
    unfold json_escape. cbn [map concat]. rewrite app_nil_r. apply lex_string_ascii; [destruct Hcp; lia|done].
  - destruct (filter_pass cp str x Hcp Hge) as (y & E & Hf). exists y. by rewrite lex_string_high, E.
Qed.

Lemma json_escape_app a b : json_escape (a ++ b) = json_escape a ++ json_escape b.
Proof. unfold json_escape. by rewrite map_app, concat_app. Qed.

Lemma lex_string_cps cps : forall str x raw, Forall cp_ok cps -> raw <> [] ->
  exists y, lex_string (open_filter str x) (json_escape (concat (map append_codepoint cps)) ++ raw) =
            lex_string (open_filter (str ++ concat (map append_codepoint cps)) y) raw.
Proof.
  induction cps as [|cp cps IH]; intros str x raw Hc Hr; cbn [map concat].
  - exists x. by rewrite app_nil_r.
  - inv Hc. rewrite json_escape_app, <-app_assoc.
    destruct (lex_string_cp str x cp (json_escape (concat (map append_codepoint cps)) ++ raw)) as (y & ->);
      [done|by intros [_ ?]%app_nil|].
    destruct (IH (str ++ append_codepoint cp) y raw) as (z & ->); [done..|]. exists z. by rewrite app_assoc.
Qed.

Lemma lex_quoted s rest : str_ok s -> lex_string filter_init (json_escape s ++ 34 :: rest) = Lex (JTOK_STRING s) rest.
Proof.
  intros (cps & Hc & ->). unfold filter_init.
  by destruct (lex_string_cps cps [] 0 (34 :: rest) Hc) as (y & ->); [done|].
Qed.

(** ** Numbers *)
Definition delim (rest : bytes) : Prop :=
  match rest with
  | [] => True
  | c :: _ => isdigit c = false /\ c <> 46 /\ c <> 101 /\ c <> 69
  end.

Lemma span_digits_app ds : forall r, forallb isdigit ds = true -> starts_digit r = false -> span_digits (ds ++ r) = (ds, r).
Proof.
  induction ds as [|d ds IH]; intros r Hd Hr; cbn [app span_digits].
  - destruct r as [|c r]; [done|]. cbn in Hr |- *. by rewrite Hr.
  - cbn in Hd. apply andb_true_iff in Hd as [Hd Hds]. by rewrite Hd, IH.
Qed.

Lemma delim_starts rest : delim rest -> starts_digit rest = false.
Proof. destruct rest; [done|]. by intros (? & _). Qed.

Lemma starts_digit_app ds r : digs ds -> starts_digit (ds ++ r) = true.
Proof. intros [Hne Hd]. destruct ds as [|d ds]; [done|]. cbn in *. by apply andb_true_iff in Hd as [? _]. Qed.

Lemma lex_exp_ok num ex rest : delim rest ->
  (ex = [] \/ exists e sg ds, ex = e :: sg ++ ds /\ (e = 101 \/ e = 69) /\ (sg = [] \/ sg = [45] \/ sg = [43]) /\ digs ds) ->
  lex_exp num (ex ++ rest) = Lex (JTOK_NUMBER (num ++ ex)) rest.
Proof.
  intros Hd [->|(e & sg & ds & -> & He & Hs & Hds)].
  - rewrite app_nil_r. destruct rest as [|c rest]; [done|]. destruct Hd as (_ & _ & H1 & H2). cbn [app lex_exp].
    destruct (Z.eqb_spec c 101); [done|]. by destruct (Z.eqb_spec c 69).
  - unfold lex_exp. cbn [app]. assert ((e =? 101) || (e =? 69) = true) as -> by (by destruct He as [-> | ->]).
    assert ((match (sg ++ ds) ++ rest with
             | s :: r'' => if (s =? 45) || (s =? 43) then ([s], r'') else ([], (sg ++ ds) ++ rest)
             | [] => ([], (sg ++ ds) ++ rest)
             end) = (sg, ds ++ rest)) as ->.
    { destruct Hs as [->|[->| ->]]; [|done|done]. destruct Hds as [Hne Hdd]. destruct ds as [|d ds]; [done|]. cbn in *.
      apply andb_true_iff in Hdd as [Hdd _]. unfold isdigit in Hdd. destruct (Z.eqb_spec d 45); [by subst|].
      by destruct (Z.eqb_spec d 43); [subst|]. }
    rewrite starts_digit_app, span_digits_app by (apply Hds || done || by apply delim_starts). done.
Qed.

Lemma lex_frac_ok num fr ex rest : delim rest ->
  (fr = [] \/ exists ds, fr = 46 :: ds /\ digs ds) ->
  (ex = [] \/ exists e sg ds, ex = e :: sg ++ ds /\ (e = 101 \/ e = 69) /\ (sg = [] \/ sg = [45] \/ sg = [43]) /\ digs ds) ->
  starts_digit (fr ++ ex ++ rest) = false /\ lex_frac num (fr ++ ex ++ rest) = Lex (JTOK_NUMBER (num ++ fr ++ ex)) rest.
Proof.
  intros Hd Hf He.
  assert (starts_digit (ex ++ rest) = false) as Hs.
  { destruct He as [->|(e & sg & ds & -> & [-> | ->] & _)]; [by apply delim_starts|done..]. }
  destruct Hf as [->|(ds & -> & Hds)].
  - split; [done|]. cbn [app]. unfold lex_frac. pose proof (lex_exp_ok num ex rest Hd He) as E.
    destruct (ex ++ rest) as [|c r] eqn:Er; [done|]. destruct (Z.eqb_spec c 46) as [->|]; [exfalso|done].
    destruct He as [->|(e & sg & ds & -> & [-> | ->] & _)]; [|done..]. simpl in Er. subst rest. by destruct Hd as (_ & ? & _).
  - split; [done|]. unfold lex_frac. cbn [app]. change (46 =? 46) with true. cbv iota.
    rewrite starts_digit_app, span_digits_app by (apply Hds || done). rewrite lex_exp_ok by done.
    do 2 f_equal. by rewrite <-app_assoc.
Qed.

Lemma lex_number_ok s rest : num_ok s -> delim rest -> lex_number (s ++ rest) = Lex (JTOK_NUMBER s) rest.
Proof.
  intros (sign & ip & fr & ex & -> & Hsg & Hip & Hz & Hf & He) Hd.
  pose proof (fun num => lex_frac_ok num fr ex rest Hd Hf He) as Ht. set (T := fr ++ ex ++ rest) in Ht.
  destruct (Ht []) as [HsT _].
  assert (Hzero : match ip ++ T with d :: r' => (d =? 48) && starts_digit r' | [] => false end = false).
  { destruct Hip as [Hne _]. destruct ip as [|d ip]; [done|]. cbn [app]. destruct (Z.eqb_spec d 48) as [->|]; [|done].
    destruct Hz as [[= ->]|Hz]; [exact HsT|done]. }
  destruct Hsg as [->| ->]; rewrite <-!app_assoc; cbn [app]; fold T.
  - destruct Hip as [Hne Hds]. destruct ip as [|c ip]; [done|]. cbn in Hds. apply andb_true_iff in Hds as [Hc Hds].
    cbn [app] in *. unfold lex_number. rewrite Hc, Hzero.
    destruct (Z.eqb_spec c 45) as [->|]; [done|]. cbn [andb]. rewrite span_digits_app by done. by destruct (Ht (c :: ip)) as [_ ->].
  - unfold lex_number. change (isdigit 45) with false. cbv iota. rewrite Hzero. change (45 =? 45) with true.
    rewrite starts_digit_app by done. rewrite andb_false_r. cbv iota.
    rewrite span_digits_app by (apply Hip || done). by destruct (Ht (45 :: ip)) as [_ ->].
Qed.

(** ** Tokens and what they consume *)

Lemma skip_ws_app ws r : forallb json_isspace ws = true -> skip_ws (ws ++ r) = skip_ws r.
Proof.
  induction ws as [|c ws IH]; [done|]. cbn [forallb app skip_ws]. intros [-> Hw]%andb_true_iff. by apply IH.
Qed.

Lemma token_ws ws r : forallb json_isspace ws = true -> getJsonToken (ws ++ r) = getJsonToken r.
Proof. intros Hw. unfold getJsonToken. by rewrite skip_ws_app. Qed.

Lemma length_skip_ws raw : (length (skip_ws raw) <= length raw)%nat.
Proof. induction raw as [|c raw IH]; cbn [skip_ws]; [done|]. destruct (json_isspace c); cbn [length] in *; lia. Qed.

Lemma length_span raw : (length (span_digits raw).2 <= length raw)%nat.
Proof.
  induction raw as [|c raw IH]; cbn [span_digits]; [done|]. destruct (isdigit c); [|done].
  destruct (span_digits raw) as [ds r]. cbn [snd length] in *. lia.
Qed.

Lemma lex_exp_shrinks num r tok rest : lex_exp num r = Lex tok rest -> (length rest <= length r)%nat.
Proof.
  unfold lex_exp. destruct r as [|d r]; [by intros [= _ <-]|]. destruct (_ || _); [|by intros [= _ <-]].
  set (p := match r with [] => _ | _ => _ end). assert (length p.2 <= length r)%nat as Hp.
  { subst p. destruct r as [|s r]; [done|]. destruct (_ || _); cbn; lia. }
  destruct p as [sg r']. destruct (starts_digit r'); [|done]. pose proof (length_span r') as Hs.
  destruct (span_digits r') as [es r'']. intros [= _ <-]. cbn [snd length] in *. lia.
Qed.

Lemma lex_number_shrinks raw tok rest : lex_number raw = Lex tok rest -> (length rest < length raw)%nat.
Proof.
  unfold lex_number. destruct raw as [|c r]; [done|]. destruct (match _ with [] => _ | _ => _ end); [done|].
  destruct (_ && _); [done|]. pose proof (length_span r) as Hs. destruct (span_digits r) as [ds r']. cbn [snd] in Hs.
  unfold lex_frac. destruct r' as [|d r2].
  - intros E%lex_exp_shrinks. cbn [length] in *. lia.
  - destruct (d =? 46); [|intros E%lex_exp_shrinks; cbn [length] in *; lia]. destruct (starts_digit r2); [|done].
    pose proof (length_span r2) as Hs2. destruct (span_digits r2) as [fs r3]. intros E%lex_exp_shrinks.
    cbn [snd length] in *. lia.
Qed.

Lemma lex_string_shrinks n : forall w raw tok rest, (length raw <= n)%nat -> lex_string w raw = Lex tok rest ->
  (length rest < length raw)%nat.
Proof.
  induction n as [|n IH]; intros w raw tok rest Hn; (destruct raw as [|c raw1]; [done|]); [cbn in Hn; lia|].
  cbn [lex_string length] in *. destruct (c <? 0x20); [done|]. destruct (c =? 92).
  - destruct raw1 as [|e raw2]; [done|]. cbn [length] in *. destruct (e =? 117).
    + destruct raw2 as [|h1 [|h2 [|h3 [|h4 raw3]]]]; try done. destruct raw3 as [|x raw3]; [done|].
      destruct (hatoui _ _ _ _); [|done]. intros E. apply IH in E; cbn [length] in *; lia.
    + destruct (unescape e); [|done]. intros E. apply IH in E; lia.
  - destruct (c =? 34); [|intros E; apply IH in E; lia]. destruct (filter_finalize w); [|done]. intros [= _ <-]. lia.
Qed.

Lemma strip_prefix_length p : forall s r, strip_prefix p s = Some r -> length s = (length p + length r)%nat.
Proof.
  induction p as [|x p IH]; intros s r; cbn [strip_prefix]; [by intros [= ->]|].
  destruct s as [|y s]; [done|]. destruct (x =? y); [|done]. intros E%IH. cbn [length]. lia.
Qed.

Lemma token_shrinks raw tok rest : getJsonToken raw = Lex tok rest -> (length rest < length raw)%nat.
Proof.
  intros E. pose proof (length_skip_ws raw) as Hw. unfold getJsonToken in E. destruct (skip_ws raw) as [|c r]; [done|].
  cbn [length] in Hw. revert E.
  do 6 (match goal with |- context [if ?b then Lex _ _ else _] => destruct b end; [intros [= _ <-]; lia|]).
  destruct (_ || _ || _).
  - repeat match goal with
           | |- context [match strip_prefix (bs ?s) _ with _ => _ end] =>
               let E := fresh in destruct (strip_prefix (bs s) (c :: r)) eqn:E;
                 [apply strip_prefix_length in E; intros [= _ <-]; cbn [length] in E;
                  change (length (bs s)) with ltac:(let n := eval vm_compute in (length (bs s)) in exact n) in E; lia|]
           end. done.
  - destruct (_ || _); [intros E%lex_number_shrinks; cbn [length] in E; lia|]. destruct (c =? 34); [|done].
    intros E%(lex_string_shrinks (length r)); lia.
Qed.

Lemma read_step_shrinks st st' : read_step st = Some st' -> (length (j_raw st') < length (j_raw st))%nat.
Proof.
  unfold read_step. destruct (getJsonToken (j_raw st)) as [| |tok rest] eqn:E; [done..|]. apply token_shrinks in E.
  destruct (check_expect _ _) as [e|]; [|done].
  destruct tok; repeat case_match; intros; simplify_eq; unfold put_scalar, close_frame; repeat case_match; done.
Qed.

(** Turns of the loop inside a container. *)
Inductive jsteps : jstate -> jstate -> Prop :=
  | jsteps_refl st : jsteps st st
  | jsteps_step st st1 st2 : read_step st = Some st1 -> j_stack st1 <> [] -> jsteps st1 st2 -> jsteps st st2.

Lemma jsteps_trans a b c : jsteps a b -> jsteps b c -> jsteps a c.
Proof. induction 1; [done|]. intros. by econstructor; eauto. Qed.

Lemma jsteps_one a b : read_step a = Some b -> j_stack b <> [] -> jsteps a b.
Proof. intros. econstructor; [done..|constructor]. Qed.

Lemma read_loop_jsteps a b : jsteps a b -> forall fuel, (length (j_raw a) < fuel)%nat ->
  exists fuel', (length (j_raw b) < fuel')%nat /\ read_loop fuel a = read_loop fuel' b.
Proof.
  induction 1 as [st|st st1 st2 Hs Hne _ IH]; intros fuel Hf; [eauto|].
  destruct fuel as [|fuel]; [lia|]. pose proof (read_step_shrinks _ _ Hs).
  destruct (IH fuel) as (fuel' & ? & E); [lia|]. exists fuel'. split; [done|]. cbn [read_loop]. rewrite Hs.
  by destruct (j_stack st1).
Qed.

(** ** Reading what was written *)
Definition exp_val : expects := mkExp false false false true false.
Definition exp_arr : expects := mkExp false false true false false.
Definition exp_obj : expects := mkExp true false false false false.
Definition exp_done : expects := mkExp false false false false true.

(** After a value or a closing bracket. *)
Definition settled (last : option jtoken) : Prop := last <> Some JTOK_COMMA /\ last <> Some JTOK_ARR_OPEN.
Definition value_exp (e : expects) : Prop := e = exp_val \/ e = exp_arr.
Abbreviation blank ws := (forallb json_isspace ws = true).

Definition tok_value (tok : jtoken) : option UniValue :=
  match tok with
  | JTOK_KW_NULL => Some VNULL
  | JTOK_KW_TRUE => Some (VBOOL true)
  | JTOK_KW_FALSE => Some (VBOOL false)
  | JTOK_NUMBER s => Some (VNUM s)
  | JTOK_STRING s => Some (VSTR s)
  | _ => None
  end.

Definition is_scalar (v : UniValue) : bool := match v with VARR _ | VOBJ _ _ => false | _ => true end.

Lemma read_step_blank ws r e stk last this : blank ws ->
  read_step (mkJ (ws ++ r) e stk last this) = read_step (mkJ r e stk last this).
Proof. intros Hw. unfold read_step. cbn [j_raw]. by rewrite token_ws. Qed.

Lemma token_quoted s rest : str_ok s -> getJsonToken (quoted s ++ rest) = Lex (JTOK_STRING s) rest.
Proof.
  intros Hs. unfold quoted. rewrite <-!app_assoc. cbn [app].
  change (getJsonToken (34 :: ?x)) with (lex_string filter_init x). by apply lex_quoted.
Qed.

Lemma token_number s rest : num_ok s -> delim rest -> getJsonToken (s ++ rest) = Lex (JTOK_NUMBER s) rest.
Proof.
  intros Hn Hd. rewrite <-(lex_number_ok s rest) by done.
  destruct Hn as (sign & ip & fr & ex & -> & Hsg & [Hne Hip] & _). rewrite <-!app_assoc.
  set (T := fr ++ ex ++ rest). destruct Hsg as [->| ->]; [|done].
  destruct ip as [|c ip]; [done|]. cbn in Hip. apply andb_true_iff in Hip as [Hc _]. cbn [app].
  assert (48 <= c <= 57) as Hr by (unfold isdigit in Hc; apply andb_true_iff in Hc as [?%Z.leb_le ?%Z.leb_le]; lia).
  assert (json_isspace c = false) as Hsp.
  { unfold json_isspace. by repeat match goal with |- context [c =? ?k] => destruct (Z.eqb_spec c k); [lia|] end. }
  unfold getJsonToken. cbn [skip_ws]. rewrite Hsp, Hc, orb_true_r.
  by repeat match goal with |- context [c =? ?k] => destruct (Z.eqb_spec c k); [lia|] end.
Qed.

Lemma token_scalar p level v rest : uv_ok v -> is_scalar v = true -> delim rest ->
  exists tok, getJsonToken (uv_write p level v ++ rest) = Lex tok rest /\ tok_value tok = Some v.
Proof.
  intros Hv Hs Hd. destruct v as [|[]|s|s|vs|ks vs]; cbn [uv_write]; try done.
  - by exists JTOK_KW_NULL.
  - by exists JTOK_KW_TRUE.
  - by exists JTOK_KW_FALSE.
  - exists (JTOK_NUMBER s). split; [by apply token_number|done].
  - exists (JTOK_STRING s). split; [by apply token_quoted|done].
Qed.

Lemma read_step_scalar raw e e' stk last this tok rest v :
  getJsonToken raw = Lex tok rest -> tok_value tok = Some v -> check_expect e tok = Some e' -> x_obj_name e' = false ->
  read_step (mkJ raw e stk last this) = Some (put_scalar (mkJ raw e stk last this) e' rest tok v).
Proof.
  intros Ht Hv He Hn. unfold read_step. cbn [j_raw j_exp]. rewrite Ht, He.
  destruct tok; try discriminate Hv; injection Hv as <-; try done. by rewrite Hn.
Qed.

Lemma tok_value_open tok v : tok_value tok = Some v -> isValueOpen tok = true /\ settled (Some tok).
Proof. by destruct tok. Qed.

(** The value goes into the innermost container. *)
Definition reads_value (v : UniValue) : Prop :=
  forall p level ws rest e f fs last this, blank ws -> delim rest -> value_exp e ->
    exists tok, jsteps (mkJ (ws ++ uv_write p level v ++ rest) e (f :: fs) last this)
                  (mkJ rest exp_done (frame_push f v :: fs) (Some tok) this) /\ settled (Some tok).

Lemma reads_scalar v : uv_ok v -> is_scalar v = true -> reads_value v.
Proof.
  intros Hv Hs p level ws rest e f fs last this Hw Hd He.
  destruct (token_scalar p level v rest Hv Hs Hd) as (tok & Ht & Hval).
  destruct (tok_value_open tok v Hval) as [Ho Hset]. exists tok. split; [|done]. apply jsteps_one; [|done].
  rewrite read_step_blank by done.
  erewrite (read_step_scalar _ _ exp_none _ _ _ _ _ _ Ht Hval); [done| |done].
  by destruct He as [->| ->]; unfold check_expect; cbn; rewrite Ho.
Qed.

Lemma write_elems_cons p m e l :
  write_elems p m (e :: l) =
  when_pretty p (indentStr p m) ++ e ++ (match l with [] => [] | _ => [44] end) ++ when_pretty p [10] ++ write_elems p m l.
Proof. done. Qed.

Lemma blank_indent p m : blank (when_pretty p (indentStr p m)).
Proof. destruct p; [done|]. unfold when_pretty, indentStr. induction (S p * m)%nat; [done|]. done. Qed.
Lemma blank_newline p : blank (when_pretty p [10]).
Proof. by destruct p. Qed.
Lemma blank_space p : blank (when_pretty p [32]).
Proof. by destruct p. Qed.
Lemma blank_app a b : blank a -> blank b -> blank (a ++ b).
Proof. intros Ha Hb. by rewrite forallb_app, Ha, Hb. Qed.

Create HintDb blank.
#[export] Hint Resolve blank_indent blank_newline blank_space blank_app : blank.

(** A blank or a closing bracket ends a number. *)
Lemma delim_blank ws c rest : blank ws -> c = 93 \/ c = 125 -> delim (ws ++ c :: rest).
Proof.
  destruct ws as [|w ws]; intros Hw Hc; [by destruct Hc as [->| ->]|]. cbn in Hw |- *.
  apply andb_true_iff in Hw as [Hw _]. unfold json_isspace in Hw. rewrite !orb_true_iff, !Z.eqb_eq in Hw.
  by destruct Hw as [[[->| ->]| ->]| ->].
Qed.

(** A comma after an element. *)
Lemma comma_step rest f fs tok this : settled (Some tok) ->
  jsteps (mkJ (44 :: rest) exp_done (f :: fs) (Some tok) this)
    (mkJ rest (match f with FArr _ => exp_arr | FObj _ _ => exp_obj end) (f :: fs) (Some JTOK_COMMA) this).
Proof.
  intros [H1 H2]. apply jsteps_one; [|done]. unfold read_step. cbn [j_raw].
  change (getJsonToken (44 :: rest)) with (Lex JTOK_COMMA rest). cbn. unfold after_comma, after_arr_open. cbn.
  destruct tok; try done; by destruct f.
Qed.

(** The elements of an array, up to the line break after the last one. *)
Lemma arr_elems p m l vs : forall ws acc fs last this tl,
  Forall reads_value vs -> vs <> [] -> blank ws -> delim (when_pretty p [10] ++ tl) ->
  exists tok, jsteps (mkJ (ws ++ write_elems p m (map (uv_write p l) vs) ++ tl) exp_arr (FArr acc :: fs) last this)
                (mkJ (when_pretty p [10] ++ tl) exp_done (FArr (acc ++ vs) :: fs) (Some tok) this) /\ settled (Some tok).
Proof.
  induction vs as [|v vs IH]; intros ws acc fs last this tl Hvs Hne Hw Hd; [done|]. inv Hvs.
  cbn [map]. rewrite write_elems_cons, <-!app_assoc, (app_assoc ws). destruct vs as [|v' vs].
  - cbn [map app]. change (write_elems p m []) with (@nil Z). cbn [app].
    apply (H1 p l (ws ++ _) (when_pretty p [10] ++ tl) exp_arr (FArr acc)); [auto with blank|done|by right].
  - set (tl' := write_elems p m (map (uv_write p l) (v' :: vs)) ++ tl) in *. cbn [map app].
    destruct (H1 p l (ws ++ when_pretty p (indentStr p m)) (44 :: when_pretty p [10] ++ tl') exp_arr (FArr acc) fs last this)
      as (tok & Hst & Hset); [auto with blank|done|by right|].
    destruct (IH (when_pretty p [10]) (acc ++ [v]) fs (Some JTOK_COMMA) this tl) as (tok' & Hst' & Hset');
      [done|done|auto with blank|done|].
    exists tok'. split; [|done]. eapply jsteps_trans; [exact Hst|]. eapply jsteps_trans; [by apply comma_step|].
    rewrite <-app_assoc in Hst'. exact Hst'.
Qed.

(** A key, its colon and its value. *)
Lemma member_steps p l k v ws ks vs fs last this rest :
  str_ok k -> reads_value v -> blank ws -> delim rest ->
  exists tok, jsteps (mkJ (ws ++ (quoted k ++ [58] ++ when_pretty p [32] ++ uv_write p l v) ++ rest) exp_obj
                        (FObj ks vs :: fs) last this)
                (mkJ rest exp_done (FObj (ks ++ [k]) (vs ++ [v]) :: fs) (Some tok) this) /\ settled (Some tok).
Proof.
  intros Hk Hv Hw Hd.
  destruct (Hv p l (when_pretty p [32]) rest exp_val (FObj (ks ++ [k]) vs) fs (Some JTOK_COLON) this)
    as (tok & Hst & Hset); [auto with blank|done|by left|].
  exists tok. split; [|done]. eapply jsteps_trans; [|eapply jsteps_trans; [|exact Hst]].
  - apply jsteps_one; [rewrite read_step_blank by done; unfold read_step; cbn [j_raw];
      rewrite <-!app_assoc, token_quoted by done; reflexivity|done].
  - by apply jsteps_one.
Qed.

Lemma obj_elems p m l ks : forall vs ws ks0 vs0 fs last this tl,
  Forall str_ok ks -> Forall reads_value vs -> length ks = length vs -> vs <> [] -> blank ws ->
  delim (when_pretty p [10] ++ tl) ->
  exists tok, jsteps
      (mkJ (ws ++ write_elems p m
              (zip_with (fun k s => quoted k ++ [58] ++ when_pretty p [32] ++ s) ks (map (uv_write p l) vs)) ++ tl)
         exp_obj (FObj ks0 vs0 :: fs) last this)
      (mkJ (when_pretty p [10] ++ tl) exp_done (FObj (ks0 ++ ks) (vs0 ++ vs) :: fs) (Some tok) this) /\ settled (Some tok).
Proof.
  induction ks as [|k ks IH]; intros vs ws ks0 vs0 fs last this tl Hks Hvs Hl Hne Hw Hd;
    (destruct vs as [|v vs]; [done|]); [done|]. inv Hks. inv Hvs. cbn [map zip_with].
  rewrite write_elems_cons. set (member := quoted k ++ _).
  destruct ks as [|k' ks].
  - destruct vs; [|done]. cbn [map zip_with]. change (write_elems p m []) with (@nil Z).
    pose proof (member_steps p l k v (ws ++ when_pretty p (indentStr p m)) ks0 vs0 fs last this
      (when_pretty p [10] ++ tl)) as Hm. fold member in Hm.
    replace (ws ++ (_ ++ member ++ _) ++ tl) with ((ws ++ when_pretty p (indentStr p m)) ++ member ++ when_pretty p [10] ++ tl)
      by (rewrite app_nil_r, <-!app_assoc; done). apply Hm; auto with blank.
  - destruct vs as [|v' vs]; [done|].
    destruct (IH (v' :: vs) (when_pretty p [10]) (ks0 ++ [k]) (vs0 ++ [v]) fs (Some JTOK_COMMA) this tl)
      as (tok' & Hst' & Hset'); [done|done|by injection Hl|done|auto with blank|done|].
    rewrite <-!(app_assoc ks0), <-!(app_assoc vs0) in Hst'. cbn [app] in Hst'.
    set (tl' := write_elems p m (zip_with _ (k' :: ks) (map (uv_write p l) (v' :: vs)))) in *.
    destruct (member_steps p l k v (ws ++ when_pretty p (indentStr p m)) ks0 vs0 fs last this
      (44 :: when_pretty p [10] ++ tl' ++ tl)) as (tok & Hst & Hset); [done|done|auto with blank|done|].
    fold member in Hst. exists tok'. split; [|done]. cbn [map zip_with].
    replace (ws ++ (_ ++ member ++ _) ++ tl)
      with ((ws ++ when_pretty p (indentStr p m)) ++ member ++ 44 :: when_pretty p [10] ++ tl' ++ tl)
      by (rewrite <-!app_assoc; done).
    eapply jsteps_trans; [exact Hst|]. eapply jsteps_trans; [by apply comma_step|]. exact Hst'.
Qed.

(** From the opening bracket to the closing one. *)
Lemma arr_inside p m l vs rest stk this : Forall reads_value vs ->
  exists ws e last,
    jsteps (mkJ (when_pretty p [10] ++ write_elems p m (map (uv_write p l) vs) ++
                 when_pretty p (indentStr p (m - 1)) ++ 93 :: rest) exp_arr (FArr [] :: stk) (Some JTOK_ARR_OPEN) this)
      (mkJ (ws ++ 93 :: rest) e (FArr vs :: stk) last this) /\
    blank ws /\ (e = exp_arr \/ e = exp_done) /\ last <> Some JTOK_COMMA.
Proof.
  intros Hvs. destruct vs as [|v vs].
  - cbn [map]. change (write_elems p m []) with (@nil Z). cbn [app]. rewrite app_assoc.
    eexists _, exp_arr, _. split; [constructor|]. by split_and!; [auto with blank|left|].
  - destruct (arr_elems p m l (v :: vs) (when_pretty p [10]) [] stk (Some JTOK_ARR_OPEN) this
      (when_pretty p (indentStr p (m - 1)) ++ 93 :: rest)) as (tok & Hst & [Hs1 Hs2]); [done|done|auto with blank| |].
    { rewrite app_assoc. apply delim_blank; [auto with blank|by left]. }
    rewrite (app_assoc (when_pretty p [10]) (when_pretty p _)) in Hst. eexists _, exp_done, _.
    split; [exact Hst|]. by split_and!; [auto with blank|right|].
Qed.

Lemma obj_inside p m l ks vs rest stk this : Forall str_ok ks -> Forall reads_value vs -> length ks = length vs ->
  exists ws e last,
    jsteps (mkJ (when_pretty p [10] ++
                 write_elems p m
                   (zip_with (fun k s => quoted k ++ [58] ++ when_pretty p [32] ++ s) ks (map (uv_write p l) vs)) ++
                 when_pretty p (indentStr p (m - 1)) ++ 125 :: rest) exp_obj (FObj [] [] :: stk) (Some JTOK_OBJ_OPEN) this)
      (mkJ (ws ++ 125 :: rest) e (FObj ks vs :: stk) last this) /\
    blank ws /\ (e = exp_obj \/ e = exp_done) /\ last <> Some JTOK_COMMA.
Proof.
  intros Hks Hvs Hl. destruct vs as [|v vs].
  - destruct ks; [|done]. cbn [map zip_with]. change (write_elems p m []) with (@nil Z). cbn [app]. rewrite app_assoc.
    eexists _, exp_obj, _. split; [constructor|]. by split_and!; [auto with blank|left|].
  - destruct (obj_elems p m l ks (v :: vs) (when_pretty p [10]) [] [] stk (Some JTOK_OBJ_OPEN) this
      (when_pretty p (indentStr p (m - 1)) ++ 125 :: rest)) as (tok & Hst & [Hs1 Hs2]); [done..|auto with blank| |].
    { rewrite app_assoc. apply delim_blank; [auto with blank|by right]. }
    rewrite (app_assoc (when_pretty p [10]) (when_pretty p _)) in Hst. eexists _, exp_done, _.
    split; [exact Hst|]. by split_and!; [auto with blank|right|].
Qed.

(** The state after a complete value [v] on the stack [stk]. *)
Definition completed (v : UniValue) (stk : list frame) (rest : bytes) (tok : jtoken) (this : UniValue) : jstate :=
  match stk with
  | [] => mkJ rest exp_done [] (Some tok) v
  | f :: fs => mkJ rest exp_done (frame_push f v :: fs) (Some tok) this
  end.

Lemma close_step c tok f ws rest e stk last this :
  (c, tok) = (93, JTOK_ARR_CLOSE) /\ (exists vs, f = FArr vs) /\ (e = exp_arr \/ e = exp_done) \/
  (c, tok) = (125, JTOK_OBJ_CLOSE) /\ (exists ks vs, f = FObj ks vs) /\ (e = exp_obj \/ e = exp_done) ->
  blank ws -> last <> Some JTOK_COMMA ->
  read_step (mkJ (ws ++ c :: rest) e (f :: stk) last this) = Some (completed (frame_value f) stk rest tok this).
Proof.
  intros Hc Hw Hl. rewrite read_step_blank by done.
  assert (forall s, j_last s = last -> after_comma s = false) as Hac.
  { intros s <-. unfold after_comma. destruct (j_last s) as [[]|]; done. }
  destruct Hc as [(E & (vs & ->) & He)|(E & (ks & vs & ->) & He)]; injection E as -> ->; unfold read_step; cbn [j_raw].
  - change (getJsonToken (93 :: rest)) with (Lex JTOK_ARR_CLOSE rest). cbn [j_stack]. rewrite Hac by done.
    by destruct He as [->| ->]; destruct stk.
  - change (getJsonToken (125 :: rest)) with (Lex JTOK_OBJ_CLOSE rest). cbn [j_stack]. rewrite Hac by done.
    by destruct He as [->| ->]; destruct stk.
Qed.

(** A container on any stack: an opening step, steps inside, a closing step. *)
Lemma container_steps v p level ws rest e stk last this :
  uv_ok v -> is_scalar v = false ->
  (forall vs ks, v = VARR vs \/ v = VOBJ ks vs -> Forall reads_value vs) ->
  blank ws -> value_exp e \/ e = exp_none ->
  exists st1 st2 tok, read_step (mkJ (ws ++ uv_write p level v ++ rest) e stk last this) = Some st1 /\ j_stack st1 <> [] /\
    jsteps st1 st2 /\ read_step st2 = Some (completed v stk rest tok this) /\ settled (Some tok).
Proof.
  intros Hok Hs Hall Hw He. rewrite read_step_blank by done. destruct v as [| | | |vs|ks vs]; try done; cbn [uv_write].
  - specialize (Hall vs [] ltac:(by left)). set (m := match level with O => _ | _ => _ end).
    destruct (arr_inside p m (S m) vs rest stk this Hall) as (ws' & e' & last' & Hst & Hw' & He' & Hl').
    eexists _, _, JTOK_ARR_CLOSE. split_and!; [| |exact Hst| |done]; [|done|].
    + rewrite <-!app_assoc. cbn [app]. unfold read_step. cbn [j_raw].
      change (getJsonToken (91 :: ?x)) with (Lex JTOK_ARR_OPEN x). by destruct He as [[->| ->]| ->].
    + apply (close_step 93 JTOK_ARR_CLOSE (FArr vs)); [left; eauto|done..].
  - destruct Hok as (Hks & Hlen & _). specialize (Hall vs ks ltac:(by right)).
    set (m := match level with O => _ | _ => _ end).
    destruct (obj_inside p m (S m) ks vs rest stk this Hks Hall Hlen) as (ws' & e' & last' & Hst & Hw' & He' & Hl').
    eexists _, _, JTOK_OBJ_CLOSE. split_and!; [| |exact Hst| |done]; [|done|].
    + rewrite <-!app_assoc. cbn [app]. unfold read_step. cbn [j_raw].
      change (getJsonToken (123 :: ?x)) with (Lex JTOK_OBJ_OPEN x). by destruct He as [[->| ->]| ->].
    + apply (close_step 125 JTOK_OBJ_CLOSE (FObj ks vs)); [right; eauto|done..].
Qed.

Lemma reads_all v : uv_ok v -> reads_value v.
Proof.
  induction v as [|b|s|s|vs IH|ks vs IH] using UniValue_nested; intros Hok; try (by apply reads_scalar).
  - assert (Forall reads_value vs) as Hvs.
    { apply uv_ok_all in Hok. revert Hok. clear -IH. induction IH; intros Hf; inv Hf; constructor; auto. }
    intros p level ws rest e f fs last this Hw Hd He.
    destruct (container_steps (VARR vs) p level ws rest e (f :: fs) last this) as (st1 & st2 & tok & E1 & Hne & Hst & E2 & Hset);
      [done|done|by intros ? ? [[= <-]|]|done|by left|].
    exists tok. split; [|done]. eapply jsteps_step; [done..|]. eapply jsteps_trans; [done|]. by apply jsteps_one.
  - assert (Forall reads_value vs) as Hvs.
    { destruct Hok as (_ & _ & Hok). apply uv_ok_all in Hok. revert Hok. clear -IH.
      induction IH; intros Hf; inv Hf; constructor; auto. }
    intros p level ws rest e f fs last this Hw Hd He.
    destruct (container_steps (VOBJ ks vs) p level ws rest e (f :: fs) last this)
      as (st1 & st2 & tok & E1 & Hne & Hst & E2 & Hset); [done|done|by intros ? ? [|[= _ <-]]|done|by left|].
    exists tok. split; [|done]. eapply jsteps_step; [done..|]. eapply jsteps_trans; [done|]. by apply jsteps_one.
Qed.

Lemma uv_read_write p v tail : uv_ok v -> blank tail -> uv_read (uv_write p 0 v ++ tail) = Some v.
Proof.
  intros Hok Ht. set (raw := uv_write p 0 v ++ tail).
  assert (delim tail) as Hd.
  { destruct tail as [|c tail]; [done|]. pose proof (delim_blank [c] 93 []) as Hb. cbn in Ht, Hb |- *.
    apply andb_true_iff in Ht as [Ht _]. apply Hb; [by rewrite Ht|by left]. }
  assert (getJsonToken tail = LexNone) as Htail.
  { unfold getJsonToken. rewrite <-(app_nil_r tail), skip_ws_app by done. done. }
  unfold uv_read. destruct (is_scalar v) eqn:Es.
  - destruct (token_scalar p 0 v tail Hok Es Hd) as (tok & Etok & Hval). fold raw in Etok. cbn [read_loop].
    destruct (tok_value_open tok v Hval) as [Ho _].
    erewrite (read_step_scalar raw exp_none exp_none); [|done|done|by destruct tok|done].
    unfold put_scalar. cbn [j_stack j_raw j_this]. by rewrite Htail.
  - destruct (container_steps v p 0 [] tail exp_none [] None VNULL) as (st1 & st2 & tok & E1 & Hne & Hst & E2 & _);
      [done|done| |done|by right|].
    { intros vs ks [->| ->]; [|destruct Hok as (_ & _ & Hok)]; apply uv_ok_all in Hok;
        (eapply Forall_impl; [exact Hok|apply reads_all]). }
    cbn [app] in E1. fold raw in E1. cbn [read_loop]. rewrite E1. destruct (j_stack st1) eqn:Es1; [done|].
    destruct (read_loop_jsteps st1 st2 Hst (length raw)) as (fuel & Hf & ->).
    { apply read_step_shrinks in E1. exact E1. }
    destruct fuel as [|fuel]; [lia|]. cbn [read_loop]. rewrite E2. cbn [completed j_stack j_raw j_this]. by rewrite Htail.
Qed.

(** ** Integers *)

Lemma dec_value_snoc s c : dec_value (s ++ [c]) = dec_value s * 10 + (c - 48).
Proof. unfold dec_value. by rewrite fold_left_app. Qed.

Lemma digits_spec fuel : forall n, 0 <= n < 2 ^ Z.of_nat fuel ->
  dec_value (digits fuel n) = n /\ ((0 < fuel)%nat -> digs (digits fuel n) /\ (n = 0 /\ digits fuel n = [48] \/ List.hd 0 (digits fuel n) <> 48)).
Proof.
  induction fuel as [|fuel IH]; intros n Hn.
  { change (2 ^ Z.of_nat 0) with 1 in Hn. split; [|lia]. cbn. lia. }
  rewrite Nat2Z.inj_succ, Z.pow_succ_r in Hn by lia. cbn [digits]. destruct (n <? 10) eqn:E; bsimpl.
  - split; [cbn; lia|]. intros _. split; [|destruct (decide (n = 0)) as [->|]; [by left|right; cbn; lia]].
    split; [done|]. cbn. unfold isdigit. bsimpl. lia.
  - assert (0 < n / 10 < 2 ^ Z.of_nat fuel) as Hd by (split; [apply Z.div_str_pos; lia|apply Z.div_lt_upper_bound; lia]).
    destruct (IH (n / 10)) as [IHv IHd]; [lia|]. rewrite dec_value_snoc, IHv.
    pose proof (Z.mod_pos_bound n 10 ltac:(lia)) as Hm. split; [pose proof (Z.div_mod n 10); lia|]. intros _.
    destruct fuel as [|fuel]; [change (2 ^ Z.of_nat 0) with 1 in Hd; lia|].
    destruct IHd as ([Hne Hds] & Hh); [lia|]. destruct Hh as [[E0 _]|Hh]; [lia|].
    split; [split; [by intros []%app_nil|]|right].
    + rewrite forallb_app, Hds. cbn. unfold isdigit. bsimpl. lia.
    + by destruct (digits (S fuel) (n / 10)).
Qed.

Lemma dec_spec n : 0 <= n ->
  let s := digits (S (Z.to_nat (Z.log2 n))) n in
  dec_value s = n /\ digs s /\ (n = 0 /\ s = [48] \/ List.hd 0 s <> 48).
Proof.
  intros Hn s. subst s. destruct (digits_spec (S (Z.to_nat (Z.log2 n))) n) as [Hv Hd]; [|destruct Hd; [lia|done]].
  rewrite Nat2Z.inj_succ, Z2Nat.id by apply Z.log2_nonneg. split; [done|].
  destruct (Z.eq_dec n 0) as [->|]; [done|]. apply Z.log2_spec. lia.
Qed.

(** What the code prints for an integer is a number of the grammar. *)
Lemma num_ok_dec_str z : num_ok (dec_str z).
Proof.
  unfold dec_str. destruct (z <? 0) eqn:E; bsimpl.
  - destruct (dec_spec (- z)) as (_ & Hd & Hz); [lia|]. exists [45], (digits (S (Z.to_nat (Z.log2 (- z)))) (- z)), [], [].
    split_and!; [by rewrite !app_nil_r|by right|exact Hd| |by left|by left]. destruct Hz as [[_ ->]|]; auto.
  - destruct (dec_spec z) as (_ & Hd & Hz); [lia|]. exists [], (digits (S (Z.to_nat (Z.log2 z))) z), [], [].
    split_and!; [by rewrite !app_nil_r|by left|exact Hd| |by left|by left]. destruct Hz as [[_ ->]|]; auto.
Qed.

Lemma digit_not_space c : isdigit c = true -> json_isspace c = false /\ isspace c = false /\ c <> 0 /\ c <> 45 /\ c <> 43.
Proof. unfold isdigit, json_isspace, isspace. intros H. bsimpl. split_and!; bsimpl; lia. Qed.

Lemma prechecks_digs sign s : sign = [] \/ sign = [45] -> digs s -> ParsePrechecks (sign ++ s) = true.
Proof.
  intros Hs [Hne Hd]. destruct (List.exists_last Hne) as (s' & c & ->). clear Hne. rename s' into s.
  rewrite forallb_app in Hd. apply andb_true_iff in Hd as [Hd Hc]. cbn in Hc. rewrite andb_true_r in Hc.
  destruct (digit_not_space c Hc) as (Hc1 & _ & Hc0 & _).
  assert (existsb (Z.eqb 0) (sign ++ s ++ [c]) = false) as H0.
  { apply not_true_iff_false. rewrite existsb_exists. intros (x & Hx & <-%Z.eqb_eq).
    apply List.in_app_iff in Hx as [Hx|[Hx|Hx]%List.in_app_iff].
    - destruct Hs as [->| ->]; [done|]. by destruct Hx.
    - rewrite forallb_forall in Hd. by specialize (Hd 0 Hx).
    - by destruct Hx. }
  assert (exists a l, sign ++ s ++ [c] = a :: l /\ json_isspace a = false) as (a & l & E & Ha).
  { destruct Hs as [->| ->]; [|by eexists _, _]. destruct s as [|d s]; [by eexists _, _|]. eexists _, _. split; [done|].
    cbn in Hd. apply andb_true_iff in Hd as [Hd _]. by apply digit_not_space in Hd as []. }
  assert (last (sign ++ s ++ [c]) = Some c) as Hlast by by rewrite app_assoc, last_snoc.
  rewrite E in H0, Hlast |- *. unfold ParsePrechecks. by rewrite Hlast, H0, Ha, Hc1.
Qed.

Lemma parse_dec_str z : ParsePrechecks (dec_str z) = true /\ strtoll (dec_str z) = Some z.
Proof.
  unfold dec_str. destruct (z <? 0) eqn:E; bsimpl.
  - destruct (dec_spec (- z)) as (Hv & Hd & _); [lia|]. set (s := digits _ _) in *.
    split; [by apply (prechecks_digs [45]); [right|]|]. unfold strtoll. cbn [drop_space]. change (isspace 45) with false.
    cbn iota. change (45 =? 45) with true. cbn iota. destruct Hd as [Hne Hd]. destruct s; [done|]. rewrite Hd, Hv. f_equal. lia.
  - destruct (dec_spec z) as (Hv & Hd & _); [lia|]. set (s := digits _ _) in *.
    split; [by apply (prechecks_digs []); [left|]|]. destruct Hd as [Hne Hd]. destruct s as [|c s]; [done|].
    pose proof Hd as Hd'. cbn in Hd'. apply andb_true_iff in Hd' as [Hc _].
    destruct (digit_not_space c Hc) as (_ & Hsp & _ & H45 & H43). unfold strtoll. cbn [drop_space]. rewrite Hsp.
    rewrite (proj2 (Z.eqb_neq _ _) H45), (proj2 (Z.eqb_neq _ _) H43), Hd, Hv. done.
Qed.

Lemma ParseInt_dec_str w z : - 2 ^ (w - 1) <= z < 2 ^ (w - 1) -> ParseInt w (dec_str z) = Some z.
Proof.
  intros Hz. destruct (parse_dec_str z) as [Hp Hs]. unfold ParseInt. rewrite Hp, Hs. cbn [negb].
  rewrite (proj2 (Z.leb_le _ _)), (proj2 (Z.ltb_lt _ _)) by lia. done.
Qed.

Lemma dec_str_inj a b : dec_str a = dec_str b -> a = b.
Proof. intros E. pose proof (proj2 (parse_dec_str a)) as Ha. rewrite E, (proj2 (parse_dec_str b)) in Ha. by injection Ha. Qed.

Lemma dec_str_chars z : Forall (fun c => c = 45 \/ 48 <= c <= 57) (dec_str z).
Proof.
  assert (forall s, digs s -> Forall (fun c => c = 45 \/ 48 <= c <= 57) s) as Hd.
  { intros s [_ Hd]. rewrite forallb_forall in Hd. apply List.Forall_forall. intros c Hc. specialize (Hd c Hc).
    unfold isdigit in Hd. lia. }
  unfold dec_str. destruct (z <? 0) eqn:E; bsimpl.
  - constructor; [by left|]. destruct (dec_spec (- z)) as (_ & Hs & _); [lia|]. by apply Hd.
  - destruct (dec_spec z) as (_ & Hs & _); [lia|]. by apply Hd.
Qed.

(** ASCII text is UTF-8. *)
Definition ascii (s : bytes) : Prop := Forall (fun c => 0 <= c < 128) s.
Lemma ascii_forallb s : forallb (fun c => (0 <=? c) && (c <? 128)) s = true -> ascii s.
Proof. rewrite forallb_forall. intros H. apply List.Forall_forall. intros c Hc. specialize (H c Hc). lia. Qed.
Lemma ascii_str_ok s : ascii s -> str_ok s.
Proof.
  intros Hs. exists s. split.
  - eapply Forall_impl; [exact Hs|]. intros c. unfold cp_ok. cbn. lia.
  - induction Hs as [|c s Hc _ IH]; [done|]. cbn [map concat]. rewrite <-IH. unfold append_codepoint.
    rewrite (proj2 (Z.leb_le c 0x7f)) by lia. done.
Qed.

(** ** The claims *)

(** C32. Reading back what [UniValue::write] prints, with any indentation and
    with any white space after it, gives the value: for every nesting of
    objects, arrays, UTF-8 strings with every character the escape table
    covers, numbers of the JSON grammar, booleans and null. *)
Theorem json_roundtrip (prettyIndent : nat) (v : UniValue) (tail : bytes) :
  uv_ok v -> forallb json_isspace tail = true -> uv_read (uv_write prettyIndent 0 v ++ tail) = Some v.
Proof. apply uv_read_write. Qed.

Definition sample : UniValue :=
  VOBJ [bs "enabled"; bs "a"] [VBOOL true; VARR [uv_int (-20); VSTR (bs "q" ++ [34; 10; 195; 169; 127]); VOBJ [] []; VNULL]].

Lemma json_roundtrip_witness : uv_read (uv_write 2 0 sample ++ [10]) = Some sample.
Proof.
  apply (json_roundtrip 2 sample [10]); [|reflexivity]. cbn.
  assert (forall l, Forall cp_ok l -> str_ok (concat (map append_codepoint l))) as Hs by (intros l Hl; by exists l).
  assert (forall c, (c <? 127) = true -> (0 <=? c) = true -> cp_ok c) as Hc by (intros c; unfold cp_ok; lia).
  split_and!; try done.
  - repeat constructor; [apply (Hs (bs "enabled"))|apply (Hs (bs "a"))]; repeat constructor; by apply Hc.
  - apply (num_ok_dec_str (-20)).
  - apply (Hs [113; 34; 10; 233; 127]).
    apply (Forall_impl (fun c => 0 <= c <= 233)); [repeat constructor; lia|]. intros c. unfold cp_ok. lia.
Defined.

(** Where the reader departs from the grammar it names.  The pair of
    escapes for U+20000 is read as U+10000: the first half's bits are joined
    with 0x10000 by an or where the encoding adds, and the carry is lost,
    so two different escaped strings give the same value.  A
    lone minus sign is taken for a number, which then has no integer value.
    A trailing comma, a missing value, an unpaired surrogate and text after the
    value are refused. *)
Theorem json_reader_departures :
  uv_read ([34] ++ bs "\ud840\udc00" ++ [34]) = Some (VSTR (append_codepoint 0x10000)) /\
  uv_read ([34] ++ bs "\ud840\udc00" ++ [34]) = uv_read ([34] ++ bs "\ud800\udc00" ++ [34]) /\
  uv_read (bs "-") = Some (VNUM (bs "-")) /\ get_int (VNUM (bs "-")) = None /\
  Forall (fun raw => uv_read raw = None)
    [bs "[1,]"; bs "[,1]"; bs "{1:2}"; bs "[1 2]"; bs "01"; bs "1 2"; bs "[1"; [34] ++ bs "\ud800" ++ [34]; []].
Proof.
  split_and!; [vm_compute; reflexivity..|].
  repeat (apply Forall_cons; split; [vm_compute; reflexivity|]). apply Forall_nil_2.
Qed.
