(* ===== verification/Session.v ===== *)
(** * Sign in with X

    src/src/xsession.{h,cpp}: the answer of users/me, the session file with its
    keyed proof, and what the rest of the program asks about the session. The
    two files of the data directory and the claim bearer are the state; what a
    write to disk did is an argument of the operation that writes. *)

From S2P Require Import Prelude Sha256 Hmac Handle Hex Json.

Local Open Scope Z_scope.

Record XFiles := mkXFiles { xsession_key : option bytes; xsession_json : option bytes; g_claimBearer : bytes }.
Definition no_files : XFiles := mkXFiles None None [].

Record Session := mkSession {
  ss_userId : bytes;
  ss_username : bytes;
  ss_expiresAt : Z;
  ss_proofHex : bytes;
  ss_verified : bool;
  ss_verifiedType : bytes;
}.

Record UsersMe := mkUsersMe { me_userId : bytes; me_username : bytes; me_verified : bool; me_verifiedType : bytes }.

Inductive session_error :=
  | ErrHandle (e : handle_error)
  | ErrNoUserId | ErrSecret | ErrProof | ErrWrite
  | ErrNoSession | ErrJson | ErrFields | ErrBadProof
  | ErrThrow (** an exception of [get_int64] *)
  | ErrMeObject | ErrMeData | ErrMeFields
  | ErrMockEmpty | ErrMockId | ErrMockSuffix | ErrNotRegtest
  | ErrSignIn | ErrNotVerified | ErrImpersonation.

Definition AsciiLower (s : bytes) : bytes := map to_lower s.

Definition IsOfficialXVerified (verified : bool) (verifiedType : bytes) : bool :=
  if verified then true else
  let t := AsciiLower verifiedType in
  bytes_eqb t (bs "blue") || bytes_eqb t (bs "business") || bytes_eqb t (bs "government").

Definition IsXVerified (s : Session) : bool := IsOfficialXVerified (ss_verified s) (ss_verifiedType s).

(** ** Files *)

(** What the operating system does with a write. [None]: the file cannot be opened.
    [Some (n, k)]: [fwrite] takes the first [n] bytes, and of these the first [k] are
    in the file after [fclose], whose result the code does not look at. *)
Definition disk := option (nat * nat).
Definition WriteFileBytes (d : disk) (data : bytes) (old : option bytes) : bool * option bytes :=
  match d with
  | None => (false, old)
  | Some (n, k) => (zlen (take n data) =? zlen data, Some (take k (take n data)))
  end.

Definition EnsureSecret (d : disk) (rand : bytes) (x : XFiles) : option session_error * XFiles :=
  match xsession_key x with
  | Some _ => (None, x)
  | None =>
      let '(ok, f) := WriteFileBytes d rand None in
      (if ok then None else Some ErrSecret, mkXFiles f (xsession_json x) (g_claimBearer x))
  end.

(** ** The proof *)

Definition proof_msg (userId username : bytes) (expiresAt : Z) (verified : bool) (verifiedType : bytes) : bytes :=
  bs "xcoin-xsession|" ++ userId ++ bs "|" ++ username ++ bs "|" ++ dec_str expiresAt ++ bs "|" ++
  (if verified then bs "1" else bs "0") ++ bs "|" ++ AsciiLower verifiedType.

Definition ComputeProof (x : XFiles) (userId username : bytes) (expiresAt : Z) (verified : bool) (verifiedType : bytes) : bytes :=
  match xsession_key x with
  | Some key =>
      if negb (zlen key =? 32) then [] else
      HexStr (CHMAC_SHA256_Finalize
                (CHMAC_SHA256_Write (CHMAC_SHA256 key) (proof_msg userId username expiresAt verified verifiedType)))
  | None => []
  end.

Definition clear_none (t : bytes) : bytes := if bytes_eqb t (bs "none") then [] else t.

(** The object of xsession.json. *)
Definition session_object (userId username : bytes) (expiresAt : Z) (xVerified : bool) (verifiedType proof : bytes) : UniValue :=
  fold_left (fun obj kv => pushKV obj kv.1 kv.2)
    [(bs "v", uv_int 2); (bs "id", VSTR userId); (bs "username", VSTR username); (bs "exp", uv_int expiresAt);
     (bs "verified", VBOOL xVerified); (bs "verified_type", VSTR verifiedType); (bs "proof", VSTR proof)] (VOBJ [] []).

Definition SaveSession (dkey dfile : disk) (rand : bytes) (x : XFiles) (userId usernameIn : bytes) (expiresAt : Z)
    (verified : bool) (verifiedTypeIn : bytes) : option session_error * XFiles :=
  match NormalizeXHandle usernameIn with
  | Err e => (Some (ErrHandle e), x)
  | Ok username =>
      if zlen userId =? 0 then (Some ErrNoUserId, x) else
      let verifiedType := clear_none (AsciiLower (TrimCopy verifiedTypeIn)) in
      let xVerified := IsOfficialXVerified verified verifiedType in
      match EnsureSecret dkey rand x with
      | (Some e, x) => (Some e, x)
      | (None, x) =>
          let proof := ComputeProof x userId username expiresAt xVerified verifiedType in
          if zlen proof =? 0 then (Some ErrProof, x) else
          let obj := session_object userId username expiresAt xVerified verifiedType proof in
          let '(ok, f) := WriteFileBytes dfile (uv_write 0 0 obj ++ [10]) (xsession_json x) in
          (if ok then None else Some ErrWrite, mkXFiles (xsession_key x) f (g_claimBearer x))
      end
  end.

(** The fields [verified] and [verified_type] of a session file. *)
Definition file_verified (obj : UniValue) : bool :=
  let v := uv_at obj (bs "verified") in
  if uv_exists obj (bs "verified")
  then if isBool v then isTrue v
       else if isTrue v then true
       else bytes_eqb (getValStr v) (bs "true") || bytes_eqb (getValStr v) (bs "1")
  else false.
Definition file_verified_type (obj : UniValue) : bytes :=
  clear_none (if uv_exists obj (bs "verified_type") then AsciiLower (getValStr (uv_at obj (bs "verified_type"))) else []).

(** [exp]: a number by [get_int64], which may throw, anything else by
    [atoi64]. *)
Definition file_exp (obj : UniValue) : option Z :=
  let v := uv_at obj (bs "exp") in if isNum v then get_int64 v else Some (atoi64 (getValStr v)).

Definition check_session (x : XFiles) (s : Session) : result Session session_error :=
  if (zlen (ss_userId s) =? 0) || (zlen (ss_username s) =? 0) || (zlen (ss_proofHex s) =? 0) then Err ErrFields else
  let want := ComputeProof x (ss_userId s) (ss_username s) (ss_expiresAt s) (ss_verified s) (ss_verifiedType s) in
  if (zlen want =? 0) || negb (bytes_eqb want (ss_proofHex s)) then Err ErrBadProof else Ok s.

Definition LoadSession (x : XFiles) : result Session session_error :=
  match xsession_json x with
  | None => Err ErrNoSession
  | Some raw =>
      if zlen raw =? 0 then Err ErrNoSession else
      match uv_read raw with
      | None => Err ErrJson
      | Some obj =>
          if negb (isObject obj) then Err ErrJson else
          match file_exp obj with
          | None => Err ErrThrow
          | Some expiresAt =>
              let verifiedType := file_verified_type obj in
              check_session x
                (mkSession (getValStr (uv_at obj (bs "id"))) (getValStr (uv_at obj (bs "username"))) expiresAt
                   (getValStr (uv_at obj (bs "proof"))) (IsOfficialXVerified (file_verified obj) verifiedType) verifiedType)
          end
      end
  end.

Definition HasValidSession (x : XFiles) : bool := match LoadSession x with Ok _ => true | Err _ => false end.

Definition ClearSession (x : XFiles) : XFiles := mkXFiles (xsession_key x) None [].
Definition SetClaimBearer (token : bytes) (x : XFiles) : XFiles := mkXFiles (xsession_key x) (xsession_json x) token.

(** ** users/me *)

Definition ParseVerifiedField (data : UniValue) : bool * bytes :=
  let vt := clear_none (if uv_exists data (bs "verified_type")
                        then AsciiLower (getValStr (uv_at data (bs "verified_type"))) else []) in
  let v := uv_at data (bs "verified") in
  let verified :=
    if uv_exists data (bs "verified")
    then if isBool v then isTrue v
         else if isTrue v then true
         else let t := AsciiLower (getValStr v) in
              bytes_eqb t (bs "true") || bytes_eqb t (bs "1") || bytes_eqb t (bs "yes")
    else false in
  (IsOfficialXVerified verified vt, vt).

Definition ParseUsersMe (json : bytes) : result UsersMe session_error :=
  match uv_read json with
  | None => Err ErrMeObject
  | Some u =>
      if negb (isObject u) then Err ErrMeObject else
      let data := uv_at u (bs "data") in
      if negb (isObject data) then Err ErrMeData else
      let userId := getValStr (uv_at data (bs "id")) in
      let rawName := getValStr (uv_at data (bs "username")) in
      if (zlen userId =? 0) || (zlen rawName =? 0) then Err ErrMeFields else
      match NormalizeXHandle rawName with
      | Err e => Err (ErrHandle e)
      | Ok username =>
          let '(verified, verifiedType) := ParseVerifiedField data in Ok (mkUsersMe userId username verified verifiedType)
      end
  end.

(** Seven bytes of the hash of the handle, as a number that is not zero. *)
Definition SyntheticId (handle : bytes) : bytes :=
  let v := fold_left (fun v b => Z.lor (Z.shiftl v 8) b) (take 7 (sha256.SHA256 [handle])) 0 in
  dec_str (if v =? 0 then 1 else v).

Definition AllDigits (s : bytes) : bool := negb (zlen s =? 0) && forallb isdigit s.

Fixpoint split_colon (cur s : bytes) : list bytes :=
  match s with
  | [] => [cur]
  | c :: s => if c =? 58 then cur :: split_colon [] s else split_colon (cur ++ [c]) s
  end.
Definition SplitColon (s : bytes) : list bytes := split_colon [] s.

(** The loop over the suffixes: the flags seen so far, the number, the flag
    [sawFlag]. *)
Record mock := mkMock { mk_verified : bool; mk_type : bytes; mk_userId : Z; mk_saw : bool }.
Definition mock_suffix (m : mock) (part : bytes) : result mock session_error :=
  let p := AsciiLower (TrimCopy part) in
  if zlen p =? 0 then Ok m
  else if bytes_eqb p (bs "verified")
  then Ok (mkMock true (if zlen (mk_type m) =? 0 then bs "blue" else mk_type m) (mk_userId m) true)
  else if bytes_eqb p (bs "unverified") then Ok (mkMock false [] (mk_userId m) true)
  else if bytes_eqb p (bs "blue") || bytes_eqb p (bs "business") || bytes_eqb p (bs "government")
  then Ok (mkMock true p (mk_userId m) true)
  else if AllDigits p
  then if 2 ^ 64 <=? dec_value p then Err ErrMockId else Ok (mkMock (mk_verified m) (mk_type m) (dec_value p) (mk_saw m))
  else Err ErrMockSuffix.
Fixpoint mock_suffixes (m : mock) (parts : list bytes) : result mock session_error :=
  match parts with
  | [] => Ok m
  | p :: parts => match mock_suffix m p with Ok m => mock_suffixes m parts | Err e => Err e end
  end.

Definition ParseMockCompact (payload : bytes) : result UsersMe session_error :=
  let s := TrimCopy payload in
  if zlen s =? 0 then Err ErrMockEmpty else
  match SplitColon s with
  | [] => Err ErrMockEmpty
  | p0 :: parts =>
      match NormalizeXHandle p0 with
      | Err e => Err (ErrHandle e)
      | Ok username =>
          match mock_suffixes (mkMock false [] 0 false) parts with
          | Err e => Err e
          | Ok m =>
              let m := if mk_saw m then m else mkMock true (bs "blue") (mk_userId m) false in
              Ok (mkUsersMe (if negb (mk_userId m =? 0) then dec_str (mk_userId m) else SyntheticId username) username
                    (IsOfficialXVerified (mk_verified m) (mk_type m)) (mk_type m))
          end
      end
  end.

(** [ApplyUsersMePayload] up to the binding of the lottery. *)
Definition starts_brace (s : bytes) : bool := match s with c :: _ => c =? 123 | [] => false end.
Definition parse_payload (payload : bytes) : result UsersMe session_error :=
  if negb (starts_brace (TrimCopy payload)) then ParseMockCompact payload else ParseUsersMe payload.
Definition apply_payload (regtest : bool) (now : Z) (dkey dfile : disk) (rand : bytes) (x : XFiles) (payload : bytes)
    : option session_error * XFiles :=
  if negb regtest then (Some ErrNotRegtest, x) else
  match parse_payload payload with
  | Err e => (Some e, x)
  | Ok me =>
      SaveSession dkey dfile rand x (me_userId me) (me_username me) (now + 86400 * 365) (me_verified me) (me_verifiedType me)
  end.

(** ** Questions about the session *)

Definition RequireSession (x : XFiles) : option session_error :=
  match LoadSession x with Ok _ => None | Err _ => Some ErrSignIn end.
Definition session_x_verified (x : XFiles) : bool :=
  match LoadSession x with Ok s => IsXVerified s | Err _ => false end.
Definition RequireXVerified (x : XFiles) : option session_error :=
  match LoadSession x with
  | Err _ => Some ErrSignIn
  | Ok s => if negb (IsXVerified s) then Some ErrNotVerified else None
  end.
Definition RequireHandle (x : XFiles) (handleIn : bytes) : option session_error :=
  match NormalizeXHandle handleIn with
  | Err e => Some (ErrHandle e)
  | Ok handle =>
      match LoadSession x with
      | Err _ => Some ErrSignIn
      | Ok s => if negb (bytes_eqb (ss_username s) handle) then Some ErrImpersonation else None
      end
  end.
Definition SignedInHandle (x : XFiles) : bytes := match LoadSession x with Ok s => ss_username s | Err _ => [] end.
Definition SignedInUserId (x : XFiles) : bytes := match LoadSession x with Ok s => ss_userId s | Err _ => [] end.
Definition SignedInVerifiedType (x : XFiles) : bytes :=
  match LoadSession x with Ok s => ss_verifiedType s | Err _ => [] end.

(** ** The operations that write, one at a time *)
Inductive session_event :=
  | EvSave (dkey dfile : disk) (rand : bytes) (userId username : bytes) (exp : Z) (verified : bool) (verifiedType : bytes)
  | EvApply (regtest : bool) (now : Z) (dkey dfile : disk) (rand payload : bytes)
  | EvClear
  | EvBearer (token : bytes).
Definition session_step (x : XFiles) (e : session_event) : XFiles :=
  match e with
  | EvSave dkey dfile rand userId username exp verified verifiedType =>
      (SaveSession dkey dfile rand x userId username exp verified verifiedType).2
  | EvApply regtest now dkey dfile rand payload => (apply_payload regtest now dkey dfile rand x payload).2
  | EvClear => ClearSession x
  | EvBearer token => SetClaimBearer token x
  end.
Definition session_run (es : list session_event) (x : XFiles) : XFiles := fold_left session_step es x.

(** ** Text *)

Lemma to_lower_idem c : to_lower (to_lower c) = to_lower c.
Proof. unfold to_lower. case_ifs; bsimpl; lia. Qed.
Lemma AsciiLower_idem s : AsciiLower (AsciiLower s) = AsciiLower s.
Proof. unfold AsciiLower. rewrite map_map. apply map_ext, to_lower_idem. Qed.

Lemma ascii_lower s : ascii s -> ascii (AsciiLower s).
Proof. intros Hs. apply Forall_map. eapply Forall_impl; [exact Hs|]. intros c. unfold to_lower. cbn. case_ifs; bsimpl; lia. Qed.
Lemma ascii_drop s : ascii s -> ascii (drop_space s).
Proof. induction 1 as [|c s Hc Hs IH]; [constructor|]. cbn [drop_space]. destruct (isspace c); [done|]. by constructor. Qed.
Lemma ascii_trim s : ascii s -> ascii (TrimCopy s).
Proof. intros Hs. unfold TrimCopy. by apply Forall_rev, ascii_drop, Forall_rev, ascii_drop. Qed.
Lemma clear_none_ascii s : ascii s -> ascii (clear_none s).
Proof. intros. unfold clear_none. case_ifs; [constructor|done]. Qed.
Lemma clear_none_lower s : AsciiLower (clear_none (AsciiLower s)) = clear_none (AsciiLower s).
Proof. unfold clear_none. case_ifs; [done|]. apply AsciiLower_idem. Qed.
Lemma clear_none_idem s : clear_none (clear_none s) = clear_none s.
Proof. unfold clear_none. destruct (bytes_eqb s (bs "none")) eqn:E; [done|]. by rewrite E. Qed.

Lemma ascii_handle h : valid_handle h -> ascii h.
Proof.
  intros (_ & Hh). revert Hh. intros Hh. eapply Forall_impl; [apply Hh|]. intros c Hc. apply handle_char_range in Hc. cbn. lia.
Qed.
Lemma ascii_HexStr v : bytes_ok v -> ascii (HexStr v).
Proof.
  intros Hv. unfold HexStr. induction Hv as [|b v Hb _ IH]; [constructor|]. cbn [map concat].
  assert (forall d, 0 <= d < 16 -> 0 <= hexmap d < 128) as Hd by (intros d ?; unfold hexmap; case_ifs; bsimpl; lia).
  unfold byte_ok in Hb. apply Forall_app. split; [|exact IH]. constructor; [|constructor; [|constructor]]; apply Hd.
  - rewrite Z.shiftr_div_pow2 by done. split; [apply Z.div_pos|apply Z.div_lt_upper_bound]; lia.
  - pose proof (Z.land_ones b 4 ltac:(done)) as E. change (Z.ones 4) with 15 in E. rewrite E. apply Z.mod_pos_bound. lia.
Qed.
Lemma HexStr_inj v w : bytes_ok v -> bytes_ok w -> HexStr v = HexStr w -> v = w.
Proof. intros Hv Hw E. by rewrite <-(ParseHex_HexStr v Hv), E, ParseHex_HexStr. Qed.

(** ** Saving and loading *)

Lemma verified_idem v t : IsOfficialXVerified (IsOfficialXVerified v t) t = IsOfficialXVerified v t.
Proof. destruct v; [done|]. destruct (IsOfficialXVerified false t) eqn:E; [done|exact E]. Qed.

Lemma ComputeProof_eq x key userId username exp v t : xsession_key x = Some key -> zlen key = 32 ->
  ComputeProof x userId username exp v t = HexStr (hmac_spec key (proof_msg userId username exp v t)).
Proof. intros E Hl. unfold ComputeProof. rewrite E, Hl. change (negb (32 =? 32)) with false. by rewrite hmac_one. Qed.

Lemma length_proof key m : zlen (HexStr (hmac_spec key m)) = 64.
Proof. unfold zlen. rewrite length_HexStr, hmac_spec_length. done. Qed.

Lemma session_object_ok userId username exp v t proof : str_ok userId -> str_ok username -> str_ok t -> str_ok proof ->
  uv_ok (session_object userId username exp v t proof).
Proof.
  intros. change (session_object _ _ _ _ _ _) with
    (VOBJ [bs "v"; bs "id"; bs "username"; bs "exp"; bs "verified"; bs "verified_type"; bs "proof"]
       [uv_int 2; VSTR userId; VSTR username; uv_int exp; VBOOL v; VSTR t; VSTR proof]).
  split; [|split; [done|]].
  - assert (forall s, ascii s -> str_ok s) as Hs by apply ascii_str_ok.
    repeat (apply Forall_cons; split; [by apply Hs, ascii_forallb|]). constructor.
  - cbn [uv_ok uv_int]. split_and!; try done; apply num_ok_dec_str.
Qed.

Lemma load_saved x userId username exp v t proof :
  str_ok userId -> str_ok username -> str_ok t -> str_ok proof -> - 2 ^ 63 <= exp < 2 ^ 63 ->
  xsession_json x = Some (uv_write 0 0 (session_object userId username exp v t proof) ++ [10]) ->
  LoadSession x = check_session x (mkSession userId username exp proof
                    (IsOfficialXVerified v (clear_none (AsciiLower t))) (clear_none (AsciiLower t))).
Proof.
  intros Hu Hn Ht Hp Hexp E. unfold LoadSession. rewrite E.
  set (obj := session_object userId username exp v t proof).
  rewrite uv_read_write; [|by apply session_object_ok|done].
  assert ((zlen (uv_write 0 0 obj ++ [10]) =? 0) = false) as ->.
  { unfold zlen. rewrite length_app. apply Z.eqb_neq. cbn [length]. lia. }
  change (isObject obj) with true. cbn [negb].
  assert (file_exp obj = Some exp) as ->. { change (file_exp obj) with (ParseInt 64 (dec_str exp)). by apply ParseInt_dec_str. }
  done.
Qed.

(** What a session that loads satisfies. *)
Lemma LoadSession_Ok x s : LoadSession x = Ok s ->
  exists key, xsession_key x = Some key /\ zlen key = 32 /\ AsciiLower (ss_verifiedType s) = ss_verifiedType s /\
    ss_proofHex s = HexStr (hmac_spec key (proof_msg (ss_userId s) (ss_username s) (ss_expiresAt s) (ss_verified s) (ss_verifiedType s))).
Proof.
  unfold LoadSession. destruct (xsession_json x) as [raw|]; [|done]. destruct (zlen raw =? 0); [done|].
  destruct (uv_read raw) as [obj|]; [|done]. destruct (isObject obj); [|done]. cbn [negb].
  destruct (file_exp obj) as [exp|]; [|done].
  set (s0 := mkSession _ _ _ _ _ _). assert (AsciiLower (ss_verifiedType s0) = ss_verifiedType s0) as Ht.
  { cbn. unfold file_verified_type. destruct (uv_exists obj _); [apply clear_none_lower|done]. }
  clearbody s0. unfold check_session. destruct (_ || _ || _); [done|].
  destruct (xsession_key x) as [key|] eqn:Ek; [|by unfold ComputeProof; rewrite Ek].
  destruct (zlen key =? 32) eqn:El; [|by unfold ComputeProof; rewrite Ek, El]. apply Z.eqb_eq in El.
  rewrite (ComputeProof_eq _ key) by (try rewrite Ek; done). set (want := HexStr _). destruct (zlen want =? 0); [done|]. cbn [orb].
  destruct (bytes_eqb want (ss_proofHex s0)) eqn:E; [|done]. intros [= <-]. apply bytes_eqb_eq in E. eauto.
Qed.

(** [fwrite] takes [size] bytes; and they reach the disk. *)
Definition disk_takes (d : disk) (size : nat) : bool := match d with Some (n, _) => (size <=? n)%nat | None => false end.
Definition disk_keeps (d : disk) (size : nat) : bool := match d with Some (n, k) => (size <=? n)%nat && (size <=? k)%nat | None => false end.

Lemma disk_keeps_takes d size : disk_keeps d size = true -> disk_takes d size = true.
Proof. destruct d as [[n k]|]; [|done]. cbn. by intros [? _]%andb_true_iff. Qed.
Lemma WriteFileBytes_reports d data old : (WriteFileBytes d data old).1 = disk_takes d (length data).
Proof.
  destruct d as [[n k]|]; [|done]. cbn. unfold zlen. rewrite length_take.
  destruct (Nat.leb_spec (length data) n); [apply Z.eqb_eq|apply Z.eqb_neq]; lia.
Qed.
Lemma WriteFileBytes_all d data old : disk_keeps d (length data) = true -> WriteFileBytes d data old = (true, Some data).
Proof.
  destruct d as [[n k]|]; [|done]. cbn. intros [Hn%Nat.leb_le Hk%Nat.leb_le]%andb_true_iff. rewrite !take_ge by (rewrite ?take_ge; lia). by rewrite Z.eqb_refl.
Qed.

(** The key the proof is made with: the one on disk, or a new one. *)
Definition secret_ready (dkey : disk) (rand : bytes) (x : XFiles) (key : bytes) : Prop :=
  zlen key = 32 /\
  match xsession_key x with
  | Some k => k = key
  | None => rand = key /\ disk_keeps dkey 32 = true
  end.

Lemma EnsureSecret_ready dkey rand x key : secret_ready dkey rand x key ->
  EnsureSecret dkey rand x = (None, mkXFiles (Some key) (xsession_json x) (g_claimBearer x)).
Proof.
  intros [Hl Hk]. unfold EnsureSecret. destruct x as [[k|] j b]; cbn in *; [by subst|]. destruct Hk as [-> Hd].
  rewrite WriteFileBytes_all; [done|]. unfold zlen in Hl. by replace (length key) with 32%nat by lia.
Qed.

(** C23. Signing in and loading the session back. Take a handle that normalizes to
    [username], a user id of UTF-8 text, a type of check mark in ASCII, any 64-bit
    expiry, and a key of 32 bytes in xsession.key, or a new one that reaches the disk
    whole. [SaveSession] then reports success exactly when [fwrite] takes the whole
    file. If the file also reaches the disk whole, [LoadSession] accepts it and returns
    the same id, the normalized handle, the expiry, the proof, the type in lower case
    without the word none, and X Verified exactly when users/me said verified or the
    type is blue, business or government; the session vouches for this handle. If
    nothing of it reaches the disk, which [fclose] would say, success was reported all
    the same and there is no session. *)
Theorem session_roundtrip (dkey dfile : disk) (rand : bytes) (x : XFiles) (key userId usernameIn username : bytes) (exp : Z)
    (verified : bool) (verifiedTypeIn : bytes) :
  secret_ready dkey rand x key -> NormalizeXHandle usernameIn = Ok username ->
  userId <> [] -> str_ok userId -> ascii verifiedTypeIn -> - 2 ^ 63 <= exp < 2 ^ 63 ->
  let t := clear_none (AsciiLower (TrimCopy verifiedTypeIn)) in
  let v := IsOfficialXVerified verified t in
  let proof := HexStr (hmac_spec key (proof_msg userId username exp v t)) in
  let size := length (uv_write 0 0 (session_object userId username exp v t proof) ++ [10]) in
  let '(err, x') := SaveSession dkey dfile rand x userId usernameIn exp verified verifiedTypeIn in
  err = (if disk_takes dfile size then None else Some ErrWrite) /\
  (disk_keeps dfile size = true ->
    LoadSession x' = Ok (mkSession userId username exp proof v t) /\
    session_x_verified x' = v /\ RequireHandle x' usernameIn = None) /\
  (disk_keeps dfile 1 = false -> disk_takes dfile size = true -> LoadSession x' = Err ErrNoSession).
Proof.
  intros Hkey Hn Hu Hus Ht Hexp t v proof size. unfold SaveSession. rewrite Hn.
  rewrite (proj2 (Z.eqb_neq (zlen userId) 0)) by (by destruct userId). fold t. fold v.
  rewrite (EnsureSecret_ready _ _ _ key Hkey). destruct Hkey as [Hl _].
  rewrite (ComputeProof_eq _ key) by done. fold proof.
  assert (zlen proof = 64) as Hp by apply length_proof. rewrite Hp. cbn iota.
  change (64 =? 0) with false. cbn iota. cbn [xsession_json xsession_key g_claimBearer].
  set (text := uv_write _ _ _ ++ _) in *. pose proof (WriteFileBytes_reports dfile text (xsession_json x)) as Er. fold size in Er.
  destruct (WriteFileBytes dfile text _) as [ok f] eqn:Ew. cbn [fst] in Er. split; [by rewrite <-Er; destruct ok|]. split.
  2:{ destruct dfile as [[n k]|]; [|done]. cbn in Ew. injection Ew as _ <-. cbn [disk_keeps disk_takes]. intros H1 H2%Nat.leb_le.
      assert (1 <= size)%nat by (subst size; unfold text; rewrite length_app; cbn; lia).
      rewrite (proj2 (Nat.leb_le 1 n)) in H1 by lia. apply Nat.leb_gt in H1. assert (k = 0)%nat as -> by lia. done. }
  intros Ed. rewrite WriteFileBytes_all in Ew by done. injection Ew as <- <-. set (x' := mkXFiles _ _ _).
  assert (ascii t) as Hat by (by apply clear_none_ascii, ascii_lower, ascii_trim).
  assert (clear_none (AsciiLower t) = t) as Et.
  { unfold t. rewrite clear_none_lower. apply clear_none_idem. }
  assert (LoadSession x' = Ok (mkSession userId username exp proof v t)) as EL.
  { rewrite (load_saved x' userId username exp v t proof); [|done|..|done|done].
    - rewrite Et. unfold v. rewrite verified_idem. fold v. unfold check_session. cbn [ss_userId ss_username ss_proofHex
        ss_expiresAt ss_verified ss_verifiedType]. rewrite (ComputeProof_eq _ key) by done. fold proof.
      apply Normalize_Ok_valid in Hn as [Hn _].
      rewrite Hp, bytes_eqb_refl, (proj2 (Z.eqb_neq (zlen userId) 0)), (proj2 (Z.eqb_neq (zlen username) 0)) by (first [lia|by destruct userId]).
      done.
    - apply ascii_str_ok, ascii_handle. by eapply Normalize_Ok_valid.
    - by apply ascii_str_ok.
    - apply ascii_str_ok, ascii_HexStr, hmac_spec_ok. }
  unfold session_x_verified, RequireHandle. rewrite EL, Hn. cbn [ss_username]. rewrite bytes_eqb_refl.
  split; [done|]. split; [|done]. unfold IsXVerified. cbn. unfold v. apply verified_idem.
Qed.

Definition good_disk (n : nat) : disk := Some (n, n).
Lemma session_roundtrip_witness :
  let '(err, x') := SaveSession (good_disk 32) (good_disk 1000) (repeat 7 32) no_files (bs "42") (bs "@Bob") 99 false (bs " Blue") in
  err = None /\ session_x_verified x' = true.
Proof.
  pose proof (session_roundtrip (good_disk 32) (good_disk 1000) (repeat 7 32) no_files (repeat 7 32) (bs "42") (bs "@Bob") (bs "bob")
    99 false (bs " Blue")) as H. cbv zeta in H.
  destruct (SaveSession _ _ _ _ _ _ _ _ _) as [err x'].
  destruct H as (E & H & _).
  - split; [reflexivity|split; reflexivity].
  - reflexivity.
  - discriminate.
  - apply ascii_str_ok, ascii_forallb. reflexivity.
  - apply ascii_forallb. reflexivity.
  - lia.
  - split; [rewrite E; vm_compute; reflexivity|]. destruct H as (_ & Hv & _); [vm_compute; reflexivity|]. rewrite Hv. vm_compute. reflexivity.
Defined.

(** ** What the proof binds *)

Definition BAR : Z := 124.
Definition bars (s : bytes) : nat := List.count_occ Z.eq_dec s BAR.
Definition no_bar (s : bytes) : Prop := ~ List.In BAR s.

Lemma bars_app a b : bars (a ++ b) = (bars a + bars b)%nat.
Proof. apply List.count_occ_app. Qed.
Lemma no_bar_bars s : no_bar s <-> bars s = 0%nat.
Proof. apply List.count_occ_not_In. Qed.
Lemma no_bar_dec_str z : no_bar (dec_str z).
Proof. pose proof (dec_str_chars z) as H. rewrite List.Forall_forall in H. intros Hin. specialize (H _ Hin). unfold BAR in H. lia. Qed.

Lemma split_bar a : forall b a' b', no_bar a -> no_bar a' -> a ++ BAR :: b = a' ++ BAR :: b' -> a = a' /\ b = b'.
Proof.
  induction a as [|c a IH]; intros b [|c' a'] b' Ha Ha' E; cbn in E.
  - by injection E.
  - injection E as <- _. exfalso. apply Ha'. by left.
  - injection E as -> _. exfalso. apply Ha. by left.
  - injection E as <- E. apply IH in E as [-> ->]; [done|intros ?; apply Ha; by right|intros ?; apply Ha'; by right].
Qed.

Definition proof_tail (userId username : bytes) (exp : Z) (v : bool) (t : bytes) : bytes :=
  userId ++ BAR :: username ++ BAR :: dec_str exp ++ BAR :: (if v then bs "1" else bs "0") ++ BAR :: AsciiLower t.
Lemma proof_msg_tail userId username exp v t :
  proof_msg userId username exp v t = bs "xcoin-xsession|" ++ proof_tail userId username exp v t.
Proof. done. Qed.

Lemma bars_tail userId username exp v t :
  bars (proof_tail userId username exp v t) = (4 + bars userId + bars username + bars (AsciiLower t))%nat.
Proof.
  assert (forall a b, bars (a ++ BAR :: b) = (bars a + S (bars b))%nat) as Hb by (intros; by rewrite bars_app).
  unfold proof_tail. rewrite !Hb, (proj1 (no_bar_bars _) (no_bar_dec_str exp)).
  assert (bars (if v then bs "1" else bs "0") = 0%nat) as -> by (by destruct v). lia.
Qed.

(** The fields can be read off the message when the first reading has no bar in
    its fields, whatever the second has. *)
Lemma proof_msg_inj id u e v t id' u' e' v' t' :
  no_bar id -> no_bar u -> no_bar (AsciiLower t) ->
  proof_msg id u e v t = proof_msg id' u' e' v' t' ->
  id = id' /\ u = u' /\ e = e' /\ v = v' /\ AsciiLower t = AsciiLower t'.
Proof.
  intros Hid Hu Ht E. rewrite !proof_msg_tail in E. apply app_inv_head in E.
  pose proof (f_equal bars E) as Hb. rewrite !bars_tail in Hb. rewrite !no_bar_bars in Hid, Hu, Ht.
  assert (bars id' = 0 /\ bars u' = 0 /\ bars (AsciiLower t') = 0)%nat as (Hid' & Hu' & Ht') by lia.
  rewrite <-!no_bar_bars in *. unfold proof_tail in E.
  apply split_bar in E as [-> E]; [|done|done]. apply split_bar in E as [-> E]; [|done|done].
  apply split_bar in E as [Ee E]; [|apply no_bar_dec_str..]. apply dec_str_inj in Ee as ->.
  assert (forall v : bool, no_bar (if v then bs "1" else bs "0")) as Hv by (intros []; by intros [?|[]]).
  apply split_bar in E as [Ev E]; [|apply Hv..]. split_and!; try done. by destruct v, v'.
Qed.

Definition with_json (x : XFiles) (raw : bytes) : XFiles := mkXFiles (xsession_key x) (Some raw) (g_claimBearer x).

(** C22. A session file cannot be edited: take a session [s] this node accepts,
    with no bar in its id, handle and type (X ids are numbers, handles have
    letters, digits and underscores).  Whatever bytes are then put in
    xsession.json, if they load with the same proof they load as the very same
    session: same id, handle, expiry, X Verified flag and type.  The other
    case is two different messages with the same keyed hash under the node's
    secret. *)
Theorem session_binding (x : XFiles) (raw : bytes) (s s' : Session) :
  LoadSession x = Ok s -> no_bar (ss_userId s) -> no_bar (ss_username s) -> no_bar (ss_verifiedType s) ->
  LoadSession (with_json x raw) = Ok s' -> ss_proofHex s' = ss_proofHex s ->
  s' = s \/
  exists key m m', xsession_key x = Some key /\ m <> m' /\ hmac_spec key m = hmac_spec key m'.
Proof.
  intros (key & Ek & _ & Ht & Hp)%LoadSession_Ok Hid Hu Hty (key' & Ek' & _ & Ht' & Hp')%LoadSession_Ok E.
  cbn in Ek'. rewrite Ek in Ek'. apply (inj Some) in Ek' as <-. rewrite Hp, Hp' in E.
  apply HexStr_inj in E; [|apply hmac_spec_ok..].
  set (m := proof_msg (ss_userId s) _ _ _ _) in *. set (m' := proof_msg (ss_userId s') _ _ _ _) in *.
  destruct (decide (m = m')) as [Em|Hne]; [left|right; by exists key, m, m'].
  apply proof_msg_inj in Em as (E1 & E2 & E3 & E4 & E5); [|done|done|by rewrite Ht].
  rewrite Ht, Ht' in E5. fold m in Hp. fold m' in Hp'. rewrite E, <-Hp in Hp'.
  destruct s, s'. cbn in *. by subst.
Qed.

Definition toy_session : XFiles :=
  (SaveSession (good_disk 32) (good_disk 1000) (repeat 7 32) no_files (bs "42") (bs "@Bob") 99 true []).2.
Definition toy_raw : bytes := [32] ++ default [] (xsession_json toy_session).

Lemma session_binding_witness :
  exists s s', LoadSession toy_session = Ok s /\ LoadSession (with_json toy_session toy_raw) = Ok s' /\
    (s' = s \/
     exists key m m', xsession_key toy_session = Some key /\ m <> m' /\ hmac_spec key m = hmac_spec key m').
Proof.
  set (s := mkSession (bs "42") (bs "bob") 99
    (ComputeProof toy_session (bs "42") (bs "bob") 99 true []) true []).
  exists s, s. assert (LoadSession toy_session = Ok s) as E1 by (vm_compute; reflexivity).
  assert (LoadSession (with_json toy_session toy_raw) = Ok s) as E2 by (vm_compute; reflexivity).
  split; [exact E1|]. split; [exact E2|]. 
  apply (session_binding toy_session toy_raw s s); [exact E1| | | |exact E2|reflexivity];
    apply no_bar_bars; vm_compute; reflexivity.
Defined.

(** ** A broken key file *)

Definition key_broken (x : XFiles) : Prop := exists k, xsession_key x = Some k /\ zlen k <> 32.

Lemma broken_proof x userId username exp v t : key_broken x -> ComputeProof x userId username exp v t = [].
Proof. intros (k & E & Hk). unfold ComputeProof. rewrite E. by rewrite (proj2 (Z.eqb_neq _ _) Hk). Qed.

Lemma SaveSession_broken dkey dfile rand x userId username exp v t : key_broken x ->
  exists e, SaveSession dkey dfile rand x userId username exp v t = (Some e, x).
Proof.
  intros Hx. unfold SaveSession. destruct (NormalizeXHandle username) as [n|e]; [|eauto].
  destruct (zlen userId =? 0); [eauto|]. assert (EnsureSecret dkey rand x = (None, x)) as ->.
  { destruct Hx as (k & E & _). unfold EnsureSecret. by rewrite E. }
  rewrite broken_proof by done. eauto.
Qed.

Lemma session_step_broken x e : key_broken x -> key_broken (session_step x e).
Proof.
  intros Hx. destruct e as [dkey dfile rand userId username exp v t|regtest now dkey dfile rand payload| |]; cbn [session_step].
  - destruct (SaveSession_broken dkey dfile rand x userId username exp v t Hx) as [e ->]. done.
  - unfold apply_payload. destruct regtest; [|done]. cbn [negb]. destruct (parse_payload payload) as [me|]; [|done].
    destruct (SaveSession_broken dkey dfile rand x (me_userId me) (me_username me) (now + 86400 * 365) (me_verified me)
      (me_verifiedType me) Hx) as [e ->]. done.
  - done.
  - done.
Qed.

(** A write of xsession.key that is cut short is final. Sign-in makes the key on its
    first use; if fewer than its 32 bytes reach the disk, whether [fwrite] said so or
    only [fclose] could have, that sign-in fails, but the file stays, and from then on
    the key is taken as present and has the wrong size: every later sign-in fails and
    no session ever loads, whatever sequence of sign-ins, sign-outs and claim tokens
    follows and however the disk recovers. *)
Theorem cut_secret_blocks_sign_in (n k : nat) (rand : bytes) (x : XFiles) (es : list session_event) :
  zlen rand = 32 -> disk_keeps (Some (n, k)) 32 = false -> xsession_key x = None ->
  let x1 := (EnsureSecret (Some (n, k)) rand x).2 in
  ((EnsureSecret (Some (n, k)) rand x).1 = None <-> disk_takes (Some (n, k)) 32 = true) /\
  (forall dkey dfile rand' userId username exp v t,
     exists e, (SaveSession dkey dfile rand' (session_run es x1) userId username exp v t).1 = Some e) /\
  forall s, LoadSession (session_run es x1) <> Ok s.
Proof.
  intros Hr Hd Hx x1. assert (Hlen : length rand = 32%nat) by (unfold zlen in Hr; lia). assert (key_broken x1) as Hb.
  { unfold x1, EnsureSecret. rewrite Hx. cbn. eexists. split; [done|]. unfold disk_keeps in Hd. apply andb_false_iff in Hd. rewrite !Nat.leb_gt in Hd.
    unfold zlen. rewrite !length_take. lia. }
  assert (key_broken (session_run es x1)) as Hrun.
  { unfold session_run. clearbody x1. clear Hx. revert x1 Hb. induction es as [|e es IH]; intros x1 Hb; [done|].
    by apply IH, session_step_broken. }
  split_and!.
  - pose proof (WriteFileBytes_reports (Some (n, k)) rand None) as E. rewrite Hlen in E. unfold EnsureSecret. rewrite Hx.
    destruct (WriteFileBytes _ _ _) as [ok f]. cbn [fst] in *. rewrite <-E. by destruct ok.
  - intros. destruct (SaveSession_broken dkey dfile rand' _ userId username exp v t Hrun) as [e ->]. by exists e.
  - intros s (key & Ek & Hl & _)%LoadSession_Ok. destruct Hrun as (k' & Ek' & Hk). congruence.
Qed.

Lemma cut_secret_blocks_sign_in_witness : forall s, LoadSession (EnsureSecret (Some (32, 5)%nat) (repeat 7 32) no_files).2 <> Ok s.
Proof. apply (cut_secret_blocks_sign_in 32 5 (repeat 7 32) no_files []); reflexivity. Defined.
