(* ===== verification/HostShare.v ===== *)
(** * Host and guest shares

    src/src/hostshare.{h,cpp}: a host's settings and guest list with their file,
    the amounts, and the pass over the wallet that sends the guest pot of mature
    lottery wins. The asset database, the address decoding and the wallet's
    [CreateTransaction] and [CommitTransaction] are arguments. *)

From S2P Require Import Prelude OrdMap Serialize Script Handle Hex Tx Json Session.

Local Open Scope Z_scope.

Definition MIN_PERCENT : Z := 1.
Definition MAX_PERCENT : Z := 100.
Definition DEFAULT_PERCENT : Z := 20.
Definition MAX_GUESTS : Z := 16.

(** The variables behind [cs_hostshare] and the file host-guests.json. *)
Record HostShare := mkHostShare {
  g_enabled : bool;
  g_percent : Z;
  g_guests : list bytes;
  g_shared : omap bytes unit;
  hs_file : option bytes;
}.

Definition hs_reset (file : option bytes) : HostShare := mkHostShare false DEFAULT_PERCENT [] [] file.
Definition ResetForTest (s : HostShare) : HostShare := hs_reset (hs_file s).
Definition with_file (s : HostShare) (f : option bytes) : HostShare :=
  mkHostShare (g_enabled s) (g_percent s) (g_guests s) (g_shared s) f.

(** ** The file *)

Definition state_object (s : HostShare) : UniValue :=
  let guests := VARR (map VSTR (g_guests s)) in
  let shared := VARR (map (fun kv => VSTR kv.1) (take 256 (g_shared s))) in
  fold_left (fun obj kv => pushKV obj kv.1 kv.2)
    [(bs "enabled", VBOOL (g_enabled s)); (bs "guest_percent", uv_int (g_percent s)); (bs "guests", guests);
     (bs "shared_coinbases", shared)] (VOBJ [] []).

Definition PersistLocked (d : disk) (s : HostShare) : HostShare :=
  with_file s (WriteFileBytes d (uv_write 2 0 (state_object s) ++ [10]) (hs_file s)).2.

(** The loop over the guests of the file. *)
Fixpoint load_guests (arr : list UniValue) (guests : list bytes) : list bytes :=
  match arr with
  | [] => guests
  | v :: arr =>
      if negb (zlen guests <? MAX_GUESTS) then guests else
      load_guests arr
        (match NormalizeXHandle (getValStr v) with
         | Ok norm => if existsb (bytes_eqb norm) guests then guests else guests ++ [norm]
         | Err _ => guests
         end)
  end.

(** The percent of the file; [None]: [get_int] throws. *)
Definition load_percent (obj : UniValue) : option Z :=
  let v := uv_at obj (bs "guest_percent") in
  if uv_exists obj (bs "guest_percent") && isNum v
  then match get_int v with
       | Some p => Some (if (MIN_PERCENT <=? p) && (p <=? MAX_PERCENT) then p else DEFAULT_PERCENT)
       | None => None
       end
  else Some DEFAULT_PERCENT.

(** The state and whether it threw, in which case the lists are empty. *)
Definition LoadLocked (file : option bytes) : bool * HostShare :=
  match file with
  | None => (false, hs_reset file)
  | Some raw =>
      match uv_read raw with
      | None => (false, hs_reset file)
      | Some obj =>
          if negb (isObject obj) then (false, hs_reset file) else
          let enabled := uv_exists obj (bs "enabled") && isTrue (uv_at obj (bs "enabled")) in
          match load_percent obj with
          | None => (true, mkHostShare enabled DEFAULT_PERCENT [] [] file)
          | Some percent =>
              let guests := if uv_exists obj (bs "guests") && isArray (uv_at obj (bs "guests"))
                            then load_guests (uv_values (uv_at obj (bs "guests"))) [] else [] in
              let shared := if uv_exists obj (bs "shared_coinbases") && isArray (uv_at obj (bs "shared_coinbases"))
                            then fold_left (fun m v => om_insert (getValStr v) tt m)
                                   (uv_values (uv_at obj (bs "shared_coinbases"))) []
                            else [] in
              (false, mkHostShare enabled percent guests shared file)
          end
      end
  end.
Definition Load (s : HostShare) : HostShare := (LoadLocked (hs_file s)).2.

(** ** What the rest of the node answers while a call runs *)

Record CWalletTx := mkWalletTx { wtx_tx : CTransaction; wtx_toMaturity : Z; wtx_depth : Z; wtx_mine : CTxOut -> bool }.
Record CRecipient := mkRecipient { r_scriptPubKey : CScript; r_nAmount : Z }.
Record CWallet := mkWallet {
  w_locked : bool;
  mapWallet : omap bytes CWalletTx;
  w_send : COutPoint -> list CRecipient -> bool; (** [CreateTransaction] and [CommitTransaction] succeed *)
}.
Record HostEnv := mkHostEnv {
  he_files : XFiles;
  LocalXAccount : XAccount;
  LocalScript : CScript;
  CheckIfXAccountAssigned : bytes -> option bytes;
  AssetIndexReady : bool;
  AssetAddressDir : bytes -> option (list (bytes * Z));
  DecodeDestination : bytes -> CTxDestination;
  IsUnspendable : CScript -> bool;
  dustRelayFee : Z;
  he_wallet : option CWallet;
}.

(** ** Settings *)

Inductive host_error :=
  | HsNotVerified | HsPercent | HsHandle (e : handle_error) | HsOwnHandle | HsNotClaimed | HsAlready | HsFull | HsNotGuest
  | HsNoIndex | HsNoHolder.

Definition SetEnabled (env : HostEnv) (d : disk) (on : bool) (s : HostShare) : option host_error * HostShare :=
  if on && negb (session_x_verified (he_files env)) then (Some HsNotVerified, s)
  else (None, PersistLocked d (mkHostShare on (g_percent s) (g_guests s) (g_shared s) (hs_file s))).

Definition SetPercent (d : disk) (percent : Z) (s : HostShare) : option host_error * HostShare :=
  if (percent <? MIN_PERCENT) || (MAX_PERCENT <? percent) then (Some HsPercent, s)
  else (None, PersistLocked d (mkHostShare (g_enabled s) percent (g_guests s) (g_shared s) (hs_file s))).

Definition AlreadyInvitedLocked (handle : bytes) (s : HostShare) : bool := existsb (bytes_eqb handle) (g_guests s).
Definition set_guests (s : HostShare) (guests : list bytes) : HostShare :=
  mkHostShare (g_enabled s) (g_percent s) guests (g_shared s) (hs_file s).

Definition is_own_handle (env : HostEnv) (handle : bytes) : bool :=
  let local := xhandle (LocalXAccount env) in
  let signedIn := SignedInHandle (he_files env) in
  (negb (zlen local =? 0) && bytes_eqb local handle) ||
  (negb (zlen signedIn =? 0) &&
   match NormalizeXHandle signedIn with Ok signedNorm => bytes_eqb signedNorm handle | Err _ => false end).

Definition InviteGuest (env : HostEnv) (d : disk) (handleIn : bytes) (s : HostShare) : option host_error * HostShare :=
  if negb (session_x_verified (he_files env)) then (Some HsNotVerified, s) else
  match NormalizeXHandle handleIn with
  | Err e => (Some (HsHandle e), s)
  | Ok handle =>
      if is_own_handle env handle then (Some HsOwnHandle, s) else
      match CheckIfXAccountAssigned env handle with
      | None => (Some HsNotClaimed, s)
      | Some _ =>
          if AlreadyInvitedLocked handle s then (Some HsAlready, s)
          else if MAX_GUESTS <=? zlen (g_guests s) then (Some HsFull, s)
          else (None, PersistLocked d (set_guests s (g_guests s ++ [handle])))
      end
  end.

Fixpoint erase_first (h : bytes) (l : list bytes) : list bytes :=
  match l with [] => [] | x :: l => if bytes_eqb x h then l else x :: erase_first h l end.
Definition RemoveGuest (d : disk) (handleIn : bytes) (s : HostShare) : option host_error * HostShare :=
  match NormalizeXHandle handleIn with
  | Err e => (Some (HsHandle e), s)
  | Ok handle =>
      if negb (existsb (bytes_eqb handle) (g_guests s)) then (Some HsNotGuest, s)
      else (None, PersistLocked d (set_guests s (erase_first handle (g_guests s))))
  end.

(** ** Amounts *)

Definition GuestPot (nValue percent : Z) : Z :=
  if (nValue <=? 0) || (percent <? MIN_PERCENT) then 0 else
  let percent := if MAX_PERCENT <? percent then MAX_PERCENT else percent in
  swrap 64 (swrap 64 (nValue / 100 * percent) + swrap 64 (nValue mod 100 * percent) / 100).

Definition GuestShare (pot nReady : Z) : Z := if (pot <=? 0) || (nReady =? 0) then 0 else pot / nReady.

(** [CFeeRate::GetFee] and [GetDustThreshold]. *)
Definition GetFee (nSatoshisPerK nBytes : Z) : Z :=
  let nFee := Z.quot (swrap 64 (nSatoshisPerK * nBytes)) 1000 in
  if (nFee =? 0) && negb (nBytes =? 0)
  then if 0 <? nSatoshisPerK then 1 else if nSatoshisPerK <? 0 then -1 else nFee
  else nFee.
Definition GetDustThreshold (env : HostEnv) (out : CTxOut) : Z :=
  if IsUnspendable env (scriptPubKey out) then 0 else
  let nSize := zlen (enc c_txout out) in
  let nSize := match IsWitnessProgram (scriptPubKey out) with
               | Some _ => nSize + (32 + 4 + 1 + 107 / 4 + 4)
               | None => nSize + (32 + 4 + 1 + 107 + 4)
               end in
  GetFee (dustRelayFee env) nSize.

(** ** Guests *)

(** The holder with the most units, the first of equals. *)
Fixpoint pick_best (rows : list (bytes * Z)) (best : option (bytes * Z)) : option (bytes * Z) :=
  match rows with
  | [] => best
  | (addr, amount) :: rows =>
      pick_best rows
        (if (amount <=? 0) || (zlen addr =? 0) then best else
         match best with
         | Some (_, b) => if b <? amount then Some (addr, amount) else best
         | None => Some (addr, amount)
         end)
  end.
Definition pick_holder (env : HostEnv) (name : bytes) : option bytes :=
  match AssetAddressDir env name with
  | None => None
  | Some rows => fst <$> pick_best rows None
  end.

Definition ResolveHolder (env : HostEnv) (handleIn : bytes) : result (bytes * bytes) host_error :=
  match NormalizeXHandle handleIn with
  | Err e => Err (HsHandle e)
  | Ok handle =>
      match CheckIfXAccountAssigned env handle with
      | None => Err HsNotClaimed
      | Some asset =>
          if negb (AssetIndexReady env) then Err HsNoIndex else
          match pick_holder env (asset ++ bs "!") with
          | Some addr => Ok (asset, addr)
          | None => match pick_holder env asset with Some addr => Ok (asset, addr) | None => Err HsNoHolder end
          end
      end
  end.

Record GuestInfo := mkGuestInfo { gi_handle : bytes; gi_asset : bytes; gi_address : bytes; gi_ready : bool }.
Definition guest_info (env : HostEnv) (h : bytes) : GuestInfo :=
  match ResolveHolder env h with
  | Ok (asset, addr) => mkGuestInfo h asset addr (negb (zlen addr =? 0))
  | Err _ => mkGuestInfo h (default [] (CheckIfXAccountAssigned env h)) [] false
  end.
Definition ListGuests (env : HostEnv) (s : HostShare) : list GuestInfo := map (guest_info env) (g_guests s).

(** ** The pass over the wallet *)

Definition GetHex (hash : bytes) : bytes := HexStr (rev hash).
Definition AlreadySharedLocked (txid : bytes) (s : HostShare) : bool := om_mem (GetHex txid) (g_shared s).
Definition MarkSharedLocked (d : disk) (txid : bytes) (s : HostShare) : HostShare :=
  PersistLocked d (mkHostShare (g_enabled s) (g_percent s) (g_guests s) (om_insert (GetHex txid) tt (g_shared s)) (hs_file s)).

Definition ready_dests (env : HostEnv) (guests : list GuestInfo) : list CTxDestination :=
  flat_map (fun g => if negb (gi_ready g) then [] else
                     match DecodeDestination env (gi_address g) with CNoDestination => [] | dest => [dest] end) guests.

Record Job := mkJob { job_txid : bytes; job_nValue : Z; job_coin : option COutPoint }.

(** The first output to the local script that the wallet can spend. *)
Fixpoint find_win (local : CScript) (mine : CTxOut -> bool) (outs : list CTxOut) (i : Z) : option (Z * Z) :=
  match outs with
  | [] => None
  | out :: outs =>
      if bytes_eqb (scriptPubKey out) local && mine out then Some (nValue out, i) else find_win local mine outs (i + 1)
  end.

Definition job_of (local : CScript) (s : HostShare) (kv : bytes * CWalletTx) : list Job :=
  let '(txid, wtx) := kv in
  if negb (IsCoinBase (wtx_tx wtx)) then []
  else if 0 <? wtx_toMaturity wtx then []
  else if wtx_depth wtx <? 1 then []
  else if AlreadySharedLocked txid s then []
  else match find_win local (wtx_mine wtx) (vout (wtx_tx wtx)) 0 with
       | Some (value, i) => [mkJob txid value (Some (mkOutPoint txid i))]
       | None => [mkJob txid 0 None]
       end.

Definition recipients (dests : list CTxDestination) (each : Z) : list CRecipient :=
  map (fun dest => mkRecipient (GetScriptForDestination dest) each) dests.

Definition payment : Type := COutPoint * list CRecipient.

(** What one job pays; [None]: nothing is due and the win is marked. *)
Definition job_payment (env : HostEnv) (percent : Z) (dests : list CTxDestination) (job : Job)
    : option payment :=
  match job_coin job, dests with
  | Some coin, dest0 :: _ =>
      if (job_nValue job <=? 0) || COutPoint_IsNull coin then None else
      let each := GuestShare (GuestPot (job_nValue job) percent) (zlen dests) in
      if each <=? 0 then None
      else if each <? GetDustThreshold env (mkTxOut each (GetScriptForDestination dest0)) then None
      else Some (coin, recipients dests each)
  | _, _ => None
  end.

(** The payments committed so far, with the disk of each persist. *)
Definition run_job (env : HostEnv) (d : disk) (w : CWallet) (percent : Z) (dests : list CTxDestination)
    (acc : HostShare * list payment) (job : Job) : HostShare * list payment :=
  let '(s, paid) := acc in
  match job_payment env percent dests job with
  | None => (MarkSharedLocked d (job_txid job) s, paid)
  | Some (coin, rs) =>
      if negb (w_send w coin rs) then (s, paid) else (MarkSharedLocked d (job_txid job) s, paid ++ [(coin, rs)])
  end.

Definition MaybeShareMatureWins (env : HostEnv) (d : disk) (s : HostShare) : HostShare * list payment :=
  if negb (g_enabled s) then (s, [])
  else if negb (session_x_verified (he_files env)) then (s, [])
  else if negb (AssetIndexReady env) then (s, []) else
  match he_wallet env with
  | None => (s, [])
  | Some w =>
      if w_locked w then (s, []) else
      let local := LocalScript env in
      if zlen local =? 0 then (s, []) else
      let percent := g_percent s in
      let dests := ready_dests env (ListGuests env s) in
      let jobs := flat_map (job_of local s) (mapWallet w) in
      fold_left (run_job env d w percent dests) jobs (s, [])
  end.

(** ** Calls over time *)

Inductive host_event :=
  | EvEnable (env : HostEnv) (d : disk) (on : bool)
  | EvPercent (d : disk) (percent : Z)
  | EvInvite (env : HostEnv) (d : disk) (handle : bytes)
  | EvRemove (d : disk) (handle : bytes)
  | EvShare (env : HostEnv) (d : disk)
  | EvRestart.
Definition host_step (acc : HostShare * list payment) (e : host_event) : HostShare * list payment :=
  let '(s, log) := acc in
  match e with
  | EvEnable env d on => ((SetEnabled env d on s).2, log)
  | EvPercent d percent => ((SetPercent d percent s).2, log)
  | EvInvite env d handle => ((InviteGuest env d handle s).2, log)
  | EvRemove d handle => ((RemoveGuest d handle s).2, log)
  | EvShare env d => let '(s, paid) := MaybeShareMatureWins env d s in (s, log ++ paid)
  | EvRestart => (Load s, log)
  end.
Definition host_run (es : list host_event) (acc : HostShare * list payment) : HostShare * list payment :=
  fold_left host_step es acc.

(** ** The settings *)

Record hs_ok (s : HostShare) : Prop := {
  hs_percent : MIN_PERCENT <= g_percent s <= MAX_PERCENT;
  hs_handles : Forall valid_handle (g_guests s);
  hs_nodup : NoDup (g_guests s);
  hs_count : zlen (g_guests s) <= MAX_GUESTS;
  hs_shared_wf : om_wf (g_shared s);
}.

Lemma hs_reset_ok f : hs_ok (hs_reset f).
Proof. split; cbn; [done|constructor|constructor|done|constructor]. Qed.

Lemma existsb_bytes h l : existsb (bytes_eqb h) l = true <-> h ∈ l.
Proof.
  rewrite existsb_exists. setoid_rewrite bytes_eqb_eq. split; [intros (x & Hx & ->)|intros Hh; exists h];
    rewrite ?list_elem_of_In in *; eauto.
Qed.
Lemma existsb_bytes_false h l : existsb (bytes_eqb h) l = false -> h ∉ l.
Proof. intros E Hin. apply existsb_bytes in Hin. congruence. Qed.

Lemma guests_snoc_ok l h : Forall valid_handle l /\ NoDup l -> valid_handle h -> h ∉ l ->
  Forall valid_handle (l ++ [h]) /\ NoDup (l ++ [h]).
Proof.
  intros [Hf Hn] Hh Hin. split; [by apply Forall_app; auto|]. apply NoDup_app. split_and!; [done| |apply NoDup_singleton].
  intros x Hx ->%list_elem_of_singleton. done.
Qed.

Lemma load_guests_ok arr : forall l, Forall valid_handle l /\ NoDup l -> zlen l <= MAX_GUESTS ->
  (Forall valid_handle (load_guests arr l) /\ NoDup (load_guests arr l)) /\ zlen (load_guests arr l) <= MAX_GUESTS.
Proof.
  induction arr as [|v arr IH]; intros l Hl Hc; [done|]. cbn [load_guests]. destruct (zlen l <? MAX_GUESTS) eqn:E; [|done].
  apply Z.ltb_lt in E. cbn [negb]. apply IH.
  - destruct (NormalizeXHandle _) as [norm|] eqn:En; [|done]. destruct (existsb _ _) eqn:Ex; [done|].
    apply guests_snoc_ok; [done|by eapply Normalize_Ok_valid|by apply existsb_bytes_false].
  - destruct (NormalizeXHandle _); [|done]. case_ifs; [done|]. rewrite zlen_app. change (zlen [_]) with 1. lia.
Qed.

Lemma fold_insert_wf (vs : list UniValue) : forall m : omap bytes unit, om_wf m ->
  om_wf (fold_left (fun m v => om_insert (getValStr v) tt m) vs m).
Proof. induction vs as [|v vs IH]; intros m Hm; [done|]. by apply IH, om_wf_insert. Qed.

Lemma Load_ok f : hs_ok (LoadLocked f).2.
Proof.
  unfold LoadLocked. destruct f as [raw|]; [|apply hs_reset_ok]. destruct (uv_read raw) as [obj|]; [|apply hs_reset_ok].
  destruct (isObject obj); [|apply hs_reset_ok]. cbn [negb].
  destruct (load_percent obj) as [p|] eqn:Ep; [|split; cbn; [done|constructor|constructor|done|constructor]].
  assert (MIN_PERCENT <= p <= MAX_PERCENT) as Hp.
  { revert Ep. unfold load_percent. destruct (_ && isNum _); [|intros [= <-]; done]. destruct (get_int _) as [q|]; [|done].
    destruct (_ && _) eqn:E; intros [= <-]; [|done]. unfold MIN_PERCENT, MAX_PERCENT in *. lia. }
  set (guests := if uv_exists obj (bs "guests") && _ then load_guests _ _ else []).
  assert ((Forall valid_handle guests /\ NoDup guests) /\ zlen guests <= MAX_GUESTS) as ([? ?] & ?).
  { unfold guests. destruct (_ && isArray _); [apply load_guests_ok|]; by repeat constructor. }
  clearbody guests. split; cbn [g_percent g_guests g_shared]; try done.
  destruct (_ && isArray _); [apply fold_insert_wf|]; constructor.
Qed.

Lemma Persist_ok d s : hs_ok s -> hs_ok (PersistLocked d s).
Proof. by intros []. Qed.

Lemma erase_first_sub h l : erase_first h l ⊆+ l.
Proof.
  induction l as [|x l IH]; [done|]. cbn [erase_first]. destruct (bytes_eqb x h); [by apply submseteq_cons|]. by apply submseteq_skip.
Qed.

Lemma sub_guests_ok (l k : list bytes) : l ⊆+ k -> Forall valid_handle k -> NoDup k -> zlen k <= MAX_GUESTS ->
  Forall valid_handle l /\ NoDup l /\ zlen l <= MAX_GUESTS.
Proof.
  intros Hs Hf Hn Hc. split_and!.
  - apply Forall_forall. intros x Hx. rewrite Forall_forall in Hf. by eapply Hf, elem_of_submseteq.
  - destruct (submseteq_Permutation l k Hs) as [k' Hk]. rewrite Hk in Hn. by apply NoDup_app in Hn as [? _].
  - apply submseteq_length in Hs. unfold zlen in *. lia.
Qed.

Lemma MarkShared_ok d txid s : hs_ok s -> hs_ok (MarkSharedLocked d txid s).
Proof. intros []. apply Persist_ok. split; cbn [g_percent g_guests g_shared]; try done. by apply om_wf_insert. Qed.

Lemma run_jobs_ok env d w percent dests jobs : forall s paid, hs_ok s ->
  hs_ok (fold_left (run_job env d w percent dests) jobs (s, paid)).1.
Proof.
  induction jobs as [|job jobs IH]; intros s paid Hs; [done|]. cbn [fold_left run_job].
  destruct (job_payment _ _ _ _) as [[coin rs]|]; [|by apply IH, MarkShared_ok].
  destruct (w_send w coin rs); cbn [negb]; by apply IH; try apply MarkShared_ok.
Qed.

Lemma share_cases env d s :
  MaybeShareMatureWins env d s = (s, []) \/
  exists w, he_wallet env = Some w /\
    MaybeShareMatureWins env d s =
    fold_left (run_job env d w (g_percent s) (ready_dests env (ListGuests env s)))
      (flat_map (job_of (LocalScript env) s) (mapWallet w)) (s, []).
Proof.
  unfold MaybeShareMatureWins. destruct (negb _); [by left|]. destruct (negb _); [by left|]. destruct (negb _); [by left|].
  destruct (he_wallet env) as [w|]; [|by left]. destruct (w_locked w); [by left|].
  destruct (zlen (LocalScript env) =? 0); [by left|]. right. by exists w.
Qed.

Lemma host_step_ok s log e : hs_ok s -> hs_ok (host_step (s, log) e).1.
Proof.
  intros Hs. destruct e as [env d on|d percent|env d handle|d handle|env d|]; cbn [host_step fst].
  - unfold SetEnabled. case_ifs; [done|]. apply Persist_ok. by destruct Hs.
  - unfold SetPercent. destruct (_ || _) eqn:E; [done|]. apply Persist_ok. destruct Hs. split; cbn [g_percent g_guests g_shared]; try done.
    unfold MIN_PERCENT, MAX_PERCENT in *. lia.
  - unfold InviteGuest. destruct (negb _); [done|]. destruct (NormalizeXHandle handle) as [h|] eqn:En; [|done].
    destruct (is_own_handle _ _); [done|]. destruct (CheckIfXAccountAssigned _ _); [|done].
    destruct (AlreadyInvitedLocked h s) eqn:Ea; [done|]. destruct (MAX_GUESTS <=? _) eqn:Ec; [done|].
    apply Z.leb_gt in Ec. apply Persist_ok. destruct Hs as [Hp Hf Hn Hc Hw].
    destruct (guests_snoc_ok (g_guests s) h) as [? ?]; [done|by eapply Normalize_Ok_valid|by apply existsb_bytes_false|].
    split; cbn [g_percent g_guests g_shared set_guests]; try done. rewrite zlen_app. change (zlen [_]) with 1. lia.
  - unfold RemoveGuest. destruct (NormalizeXHandle handle) as [h|]; [|done]. case_ifs; [done|]. apply Persist_ok.
    destruct Hs as [Hp Hf Hn Hc Hw].
    destruct (sub_guests_ok (erase_first h (g_guests s)) (g_guests s)) as (? & ? & ?); [apply erase_first_sub|done..|].
    by split.
  - pose proof (share_cases env d s) as Hc. destruct (MaybeShareMatureWins env d s) as [s' paid]. cbn [fst].
    destruct Hc as [[= -> _]|(w & _ & E)]; [done|]. apply (f_equal fst) in E. cbn [fst] in E. rewrite E. by apply run_jobs_ok.
  - apply Load_ok.
Qed.

(** ** Amounts *)

Lemma GuestPot_exact nValue percent : 0 < nValue < 2 ^ 63 -> MIN_PERCENT <= percent <= MAX_PERCENT ->
  GuestPot nValue percent = nValue * percent / 100 /\ 0 <= GuestPot nValue percent <= nValue.
Proof.
  unfold MIN_PERCENT, MAX_PERCENT. intros Hv Hp. unfold GuestPot, MIN_PERCENT, MAX_PERCENT.
  rewrite (proj2 (Z.leb_gt _ _)), (proj2 (Z.ltb_ge percent 1)), (proj2 (Z.ltb_ge 100 percent)) by lia. cbn [orb].
  pose proof (Z.div_mod nValue 100 ltac:(lia)) as Hdm. pose proof (Z.mod_pos_bound nValue 100 ltac:(lia)) as Hm.
  assert (0 <= nValue / 100) as Hq0 by (apply Z.div_pos; lia).
  set (q := nValue / 100) in *. set (r := nValue mod 100) in *. clearbody q r.
  assert (0 <= q * percent <= q * 100) as Hq by nia. assert (0 <= r * percent < 100 * 100) as Hr by nia.
  assert (0 <= r * percent / 100 <= r) as Hd.
  { split; [apply Z.div_pos; lia|]. apply Z.div_le_upper_bound; nia. }
  rewrite (swrap_small 64 (q * percent)), (swrap_small 64 (r * percent)) by lia. rewrite swrap_small by lia.
  replace (nValue * percent) with (r * percent + q * percent * 100) by (rewrite Hdm; ring).
  rewrite Z.div_add by lia. lia.
Qed.

Lemma GuestShare_total pot n : 0 <= pot -> 0 < n -> 0 <= n * GuestShare pot n <= pot.
Proof.
  intros Hp Hn. unfold GuestShare. destruct (_ || _); [lia|]. pose proof (Z.mul_div_le pot n Hn). pose proof (Z.div_pos pot n Hp Hn). nia.
Qed.

(** ** The pass over the wallet *)

Definition wallet_ok (env : HostEnv) : Prop :=
  forall w, he_wallet env = Some w -> om_wf (mapWallet w) /\
    Forall (fun kv => bytes_ok kv.1 /\ Forall (fun out => nValue out < 2 ^ 63) (vout (wtx_tx kv.2))) (mapWallet w).

Lemma GetHex_inj a b : bytes_ok a -> bytes_ok b -> GetHex a = GetHex b -> a = b.
Proof. intros Ha Hb E. apply HexStr_inj in E; [by apply rev_inj|by apply Forall_rev..]. Qed.

Lemma AlreadyShared_Mark d txid txid' s :
  AlreadySharedLocked txid' (MarkSharedLocked d txid s) =
  if decide (GetHex txid = GetHex txid') then true else AlreadySharedLocked txid' s.
Proof. unfold AlreadySharedLocked, om_mem. cbn. rewrite om_find_insert. by destruct (decide _). Qed.

Lemma find_win_spec local mine outs : forall i value j, find_win local mine outs i = Some (value, j) ->
  i <= j /\ exists out, outs !! Z.to_nat (j - i) = Some out /\ nValue out = value /\ scriptPubKey out = local /\ mine out = true.
Proof.
  induction outs as [|out outs IH]; intros i value j; [done|]. cbn [find_win]. destruct (_ && _) eqn:E.
  - intros [= <- <-]. apply andb_true_iff in E as [E1 E2]. apply bytes_eqb_eq in E1. rewrite Z.sub_diag. split; [lia|]. by exists out.
  - intros (Hij & out' & Ho & Hr)%IH. split; [lia|]. exists out'. split; [|done].
    by replace (Z.to_nat (j - i)) with (S (Z.to_nat (j - (i + 1)))) by lia.
Qed.

(** Where a job comes from. *)
Definition job_from (local : CScript) (s : HostShare) (m : omap bytes CWalletTx) (job : Job) : Prop :=
  exists wtx, (job_txid job, wtx) ∈ m /\ IsCoinBase (wtx_tx wtx) = true /\ wtx_toMaturity wtx <= 0 /\ 1 <= wtx_depth wtx /\
    AlreadySharedLocked (job_txid job) s = false /\
    forall coin, job_coin job = Some coin -> out_hash coin = job_txid job /\
      exists out, vout (wtx_tx wtx) !! Z.to_nat (out_n coin) = Some out /\ nValue out = job_nValue job /\
        scriptPubKey out = local /\ wtx_mine wtx out = true.

Lemma job_of_spec local s m kv job : kv ∈ m -> job ∈ job_of local s kv -> job_txid job = kv.1 /\ job_from local s m job.
Proof.
  intros Hkv. destruct kv as [txid wtx]. unfold job_of. destruct (IsCoinBase (wtx_tx wtx)) eqn:Ec; [|by intros ?%not_elem_of_nil].
  cbn [negb]. destruct (0 <? wtx_toMaturity wtx) eqn:Em; [by intros ?%not_elem_of_nil|].
  destruct (wtx_depth wtx <? 1) eqn:Ed; [by intros ?%not_elem_of_nil|].
  destruct (AlreadySharedLocked txid s) eqn:Ea; [by intros ?%not_elem_of_nil|]. apply Z.ltb_ge in Em, Ed.
  destruct (find_win _ _ _ _) as [[value i]|] eqn:Ew; intros ->%list_elem_of_singleton; (split; [done|]); exists wtx; split_and!; try done.
  intros coin [= <-]. split; [done|]. cbn [out_n job_nValue]. destruct (find_win_spec _ _ _ _ _ _ Ew) as (Hi & out & Ho & Hr).
  rewrite Z.sub_0_r in Ho. by exists out.
Qed.

Lemma jobs_from local s m : Forall (job_from local s m) (flat_map (job_of local s) m).
Proof.
  apply Forall_forall. intros job (kv & Hkv & Hj)%list_elem_of_In%in_flat_map.
  by eapply job_of_spec; rewrite list_elem_of_In.
Qed.

Lemma jobs_sub local s (m : omap bytes CWalletTx) : map job_txid (flat_map (job_of local s) m) ⊆+ om_keys m.
Proof.
  induction m as [|kv m IH]; [done|]. cbn [flat_map om_keys map]. rewrite map_app.
  assert (map job_txid (job_of local s kv) ⊆+ [kv.1]) as Hj.
  { destruct kv as [txid wtx]. unfold job_of. repeat (case_match; try apply submseteq_nil_l); done. }
  exact (submseteq_app _ _ _ _ Hj IH).
Qed.

(** What a payment of a pass in state [s] is. *)
Definition pay_ok (env : HostEnv) (s : HostShare) (p : payment) : Prop :=
  exists w wtx out each,
    he_wallet env = Some w /\ (out_hash p.1, wtx) ∈ mapWallet w /\
    IsCoinBase (wtx_tx wtx) = true /\ wtx_toMaturity wtx <= 0 /\ 1 <= wtx_depth wtx /\
    AlreadySharedLocked (out_hash p.1) s = false /\
    vout (wtx_tx wtx) !! Z.to_nat (out_n p.1) = Some out /\ scriptPubKey out = LocalScript env /\ wtx_mine wtx out = true /\
    p.2 = recipients (ready_dests env (ListGuests env s)) each /\ 0 < each /\
    sumZ (map r_nAmount p.2) <= nValue out * g_percent s / 100.

Lemma sum_recipients dests each : sumZ (map r_nAmount (recipients dests each)) = zlen dests * each.
Proof.
  unfold recipients. rewrite map_map. cbn [r_nAmount].
  induction dests as [|dest dests IH]; [done|]. cbn [map]. unfold sumZ in *. cbn [foldr]. rewrite IH.
  change (dest :: dests) with ([dest] ++ dests). rewrite zlen_app. change (zlen [dest]) with 1. lia.
Qed.

Lemma job_payment_ok env s w job p : hs_ok s -> wallet_ok env -> he_wallet env = Some w ->
  job_from (LocalScript env) s (mapWallet w) job ->
  job_payment env (g_percent s) (ready_dests env (ListGuests env s)) job = Some p ->
  pay_ok env s p /\ out_hash p.1 = job_txid job.
Proof.
  intros Hs Hw Ew (wtx & Hin & Hcb & Hm & Hd & Ha & Hcoin). unfold job_payment.
  remember (ready_dests env (ListGuests env s)) as dests eqn:Edd.
  destruct (job_coin job) as [coin|]; [|done]. destruct dests as [|dest0 dests']; [done|].
  set (dests := dest0 :: dests') in *.
  destruct (_ || _) eqn:Ev; [done|]. set (each := GuestShare _ _). destruct (each <=? 0) eqn:Ee; [done|].
  destruct (each <? _); [done|]. intros [= <-]. cbn [fst snd]. destruct (Hcoin coin eq_refl) as (Eh & out & Ho & Hv & Hsp & Hmine).
  split; [|done]. rewrite <-Eh in Hin, Ha. destruct (Hw w Ew) as [_ Hall]. rewrite Forall_forall in Hall.
  destruct (Hall _ Hin) as [_ Hout]. rewrite Forall_forall in Hout.
  pose proof (Hout out (list_elem_of_lookup_2 _ _ _ Ho)) as Hmax. apply orb_false_iff in Ev as [Ev _].
  destruct (GuestPot_exact (job_nValue job) (g_percent s)) as [Ep Hp]; [lia|apply Hs|].
  exists w, wtx, out, each. split_and!; try done; [by rewrite <-Edd|lia|].
  change (_ :: recipients _ _) with (recipients dests each). cbn [snd]. rewrite sum_recipients, Hv, <-Ep. apply GuestShare_total; [lia|]. unfold zlen, dests. cbn [length]. lia.
Qed.

(** Paid wins are marked, and no win is paid twice. *)
Definition paid_hash (p : payment) : bytes := out_hash p.1.
Definition logged (s : HostShare) (log : list payment) : Prop :=
  NoDup (map paid_hash log) /\ Forall (fun p => AlreadySharedLocked (paid_hash p) s = true) log.

Lemma logged_Mark d txid s log : logged s log -> logged (MarkSharedLocked d txid s) log.
Proof.
  intros [Hn Hf]. split; [done|]. eapply Forall_impl; [exact Hf|]. intros p Hp. cbn in *. rewrite AlreadyShared_Mark.
  by destruct (decide _).
Qed.

Lemma logged_paid d s log p : logged s log -> AlreadySharedLocked (paid_hash p) s = false ->
  logged (MarkSharedLocked d (paid_hash p) s) (log ++ [p]).
Proof.
  intros Hl Hp. destruct (logged_Mark d (paid_hash p) s log Hl) as [Hn Hf]. split.
  - rewrite map_app. apply NoDup_app. split_and!; [done| |apply NoDup_singleton]. intros h Hh ->%list_elem_of_singleton.
    apply list_elem_of_In, in_map_iff in Hh as (q & Eq & Hq). destruct Hl as [_ Hl]. rewrite Forall_forall in Hl.
    specialize (Hl q). rewrite list_elem_of_In, Eq, Hp in Hl. by specialize (Hl Hq).
  - apply Forall_app. split; [done|]. constructor; [|constructor]. rewrite AlreadyShared_Mark. by destruct (decide _).
Qed.

Definition job_fresh (env : HostEnv) (percent : Z) (dests : list CTxDestination) (s : HostShare) (job : Job) : Prop :=
  bytes_ok (job_txid job) /\ AlreadySharedLocked (job_txid job) s = false /\
  forall p, job_payment env percent dests job = Some p -> paid_hash p = job_txid job.

Lemma run_jobs_logged env d w percent dests jobs : forall s log,
  NoDup (map job_txid jobs) -> Forall (job_fresh env percent dests s) jobs -> logged s log ->
  let '(s', log') := fold_left (run_job env d w percent dests) jobs (s, log) in logged s' log'.
Proof.
  induction jobs as [|job jobs IH]; intros s log Hn Hf Hl; [done|]. cbn [map] in Hn. inv Hn.
  apply Forall_cons in Hf as [(Hb & Ha & Hp) Hf].
  assert (Forall (job_fresh env percent dests (MarkSharedLocked d (job_txid job) s)) jobs) as Hmark.
  { rewrite Forall_forall in Hf |- *. intros j Hj. destruct (Hf j Hj) as (Hbj & Haj & Hpj). split_and!; [done| |done].
    rewrite AlreadyShared_Mark. destruct (decide _) as [E|]; [|done]. apply GetHex_inj in E; [|done|done].
    exfalso. apply H1. rewrite E. by apply list_elem_of_In, in_map, list_elem_of_In. }
  cbn [fold_left run_job]. destruct (job_payment _ _ _ job) as [[coin rs]|] eqn:Ep.
  - destruct (w_send w coin rs); cbn [negb]; [|by apply IH]. apply IH; [done..|]. rewrite <-(Hp _ eq_refl) in Ha |- *. by apply logged_paid.
  - apply IH; [done..|]. by apply logged_Mark.
Qed.

(** The log only grows by payments that are in order. *)
Lemma run_jobs_paid env d w percent dests (P : payment -> Prop) jobs : forall s log,
  Forall (fun job => forall p, job_payment env percent dests job = Some p -> P p) jobs -> Forall P log ->
  Forall P (fold_left (run_job env d w percent dests) jobs (s, log)).2.
Proof.
  induction jobs as [|job jobs IH]; intros s log Hf Hl; [done|]. apply Forall_cons in Hf as [Hp Hf]. cbn [fold_left run_job].
  destruct (job_payment _ _ _ job) as [[coin rs]|] eqn:Ep; [|by apply IH]. destruct (w_send w coin rs); cbn [negb]; apply IH; try done.
  apply Forall_app. split; [done|]. constructor; [|constructor]. by apply Hp.
Qed.

Lemma run_jobs_app env d w percent dests jobs log : forall s l,
  fold_left (run_job env d w percent dests) jobs (s, log ++ l) =
  let '(s', l') := fold_left (run_job env d w percent dests) jobs (s, l) in (s', log ++ l').
Proof.
  induction jobs as [|job jobs IH]; intros s l; [done|]. cbn [fold_left run_job].
  destruct (job_payment _ _ _ job) as [[coin rs]|]; [|apply IH]. destruct (w_send w coin rs); cbn [negb]; [|apply IH].
  rewrite <-app_assoc. apply IH.
Qed.

Lemma share_pays env d s : hs_ok s -> wallet_ok env -> Forall (pay_ok env s) (MaybeShareMatureWins env d s).2.
Proof.
  intros Hs Hw. destruct (share_cases env d s) as [->|(w & Ew & ->)]; [constructor|].
  apply run_jobs_paid; [|constructor]. eapply Forall_impl; [apply jobs_from|]. intros job Hj p Hp.
  by eapply job_payment_ok.
Qed.

Lemma share_logged env d s log : hs_ok s -> wallet_ok env -> logged s log ->
  let '(s', paid) := MaybeShareMatureWins env d s in logged s' (log ++ paid).
Proof.
  intros Hs Hw Hl. destruct (share_cases env d s) as [->|(w & Ew & ->)]; [by rewrite app_nil_r|].
  set (jobs := flat_map _ _). pose proof (run_jobs_app env d w (g_percent s) (ready_dests env (ListGuests env s)) jobs log s []) as Ea.
  rewrite app_nil_r in Ea. destruct (Hw w Ew) as [Hwf Hall].
  assert (let '(s', log') := fold_left (run_job env d w (g_percent s) (ready_dests env (ListGuests env s))) jobs (s, log) in
          logged s' log') as H.
  { apply run_jobs_logged; [| |done].
    - pose proof (jobs_sub (LocalScript env) s (mapWallet w)) as Hsub. fold jobs in Hsub.
      destruct (submseteq_Permutation _ _ Hsub) as [k Hk]. pose proof (om_keys_NoDup _ Hwf) as Hn. rewrite Hk in Hn.
      by apply NoDup_app in Hn as [? _].
    - eapply Forall_impl; [apply jobs_from|]. intros job Hj. pose proof Hj as (wtx & Hin & _ & _ & _ & Ha & _).
      rewrite Forall_forall in Hall. split_and!; [by apply (Hall _ Hin)|done|].
      intros p Hp. by eapply job_payment_ok. }
  rewrite Ea in H. by destruct (fold_left _ jobs (s, [])) as [s' paid].
Qed.

Definition event_ok (e : host_event) : Prop := match e with EvShare env _ => wallet_ok env | _ => True end.
Definition is_restart (e : host_event) : bool := match e with EvRestart => true | _ => false end.

Lemma same_shared_logged s s' log : g_shared s' = g_shared s -> logged s log -> logged s' log.
Proof. intros E [Hn Hf]. split; [done|]. unfold AlreadySharedLocked in *. by rewrite E. Qed.

Lemma host_step_logged s log e : event_ok e -> is_restart e = false -> hs_ok s -> logged s log ->
  logged (host_step (s, log) e).1 (host_step (s, log) e).2.
Proof.
  intros He Hr Hs Hl. destruct e as [env d on|d percent|env d handle|d handle|env d|]; cbn [host_step fst snd].
  - apply (same_shared_logged s); [|done]. unfold SetEnabled. by repeat case_match.
  - apply (same_shared_logged s); [|done]. unfold SetPercent. by repeat case_match.
  - apply (same_shared_logged s); [|done]. unfold InviteGuest. by repeat case_match.
  - apply (same_shared_logged s); [|done]. unfold RemoveGuest. by repeat case_match.
  - pose proof (share_logged env d s log Hs He Hl) as H. by destruct (MaybeShareMatureWins env d s).
  - done.
Qed.

(** C30. What a host's node does with its wins.  After any sequence of changes
    to the settings, invitations, removals, passes over the wallet and
    restarts, whatever the disk did with the file: the percent is between 1 and
    100 and the guests are at most 16 different valid handles.  Every payment
    of the next pass spends an output of a mature coinbase in the wallet that
    pays the local script and was not marked, goes to all guests that are
    ready, in equal positive parts, and is in all at most the percent of that
    output.  And as long as the node does not restart no win is paid twice. *)
Theorem host_pays_once (es : list host_event) (env : HostEnv) (d : disk) :
  Forall event_ok es -> wallet_ok env ->
  let '(s, log) := host_run es (hs_reset None, []) in
  hs_ok s /\
  Forall (pay_ok env s) (MaybeShareMatureWins env d s).2 /\
  (forallb (fun e => negb (is_restart e)) es = true ->
   NoDup (map paid_hash (log ++ (MaybeShareMatureWins env d s).2))).
Proof.
  intros Hes Hw.
  assert (hs_ok (host_run es (hs_reset None, [])).1 /\
    (forallb (fun e => negb (is_restart e)) es = true ->
     logged (host_run es (hs_reset None, [])).1 (host_run es (hs_reset None, [])).2)) as [Hok Hlog].
  { induction es as [|e es IH] using rev_ind; [by split; [apply hs_reset_ok|intros _; repeat constructor]|].
    apply Forall_app in Hes as [Hes He]. apply Forall_cons in He as [He _]. destruct (IH Hes) as [Hok Hlog].
    unfold host_run. rewrite fold_left_app. cbn [fold_left]. change (fold_left host_step es) with (host_run es).
    destruct (host_run es (hs_reset None, [])) as [s log]. cbn [fst snd] in *. split; [by apply host_step_ok|].
    rewrite forallb_app. intros [Hn Hr]%andb_true_iff. cbn in Hr. rewrite andb_true_r in Hr. apply negb_true_iff in Hr.
    apply host_step_logged; auto. }
  destruct (host_run es (hs_reset None, [])) as [s log]. cbn [fst snd] in *. split_and!; [done|by apply share_pays|].
  intros Hn. pose proof (share_logged env d s log Hok Hw (Hlog Hn)) as H. by destruct (MaybeShareMatureWins env d s) as [s' paid], H.
Qed.

(** A host with one guest and one mature win of 5000 units. *)
Definition toy_coinbase_win : CWalletTx :=
  mkWalletTx (mkTx 1 [mkTxIn (mkOutPoint (repeat 0 32) 0xffffffff) [1; 1] 0xffffffff []] [mkTxOut 5000 [81]] 0) 0 101 (fun _ => true).
Definition toy_host : HostEnv :=
  mkHostEnv toy_session XAccount_empty [81] (fun _ => Some (bs "ALICE")) true (fun _ => Some [(bs "addr", 1)])
    (fun _ => CKeyID (repeat 5 20)) (fun _ => false) 3000
    (Some (mkWallet false [(repeat 7 32, toy_coinbase_win)] (fun _ _ => true))).
Definition toy_host_events : list host_event := [EvEnable toy_host None true; EvPercent None 50; EvInvite toy_host None (bs "Alice")].

Lemma toy_wallet_ok : wallet_ok toy_host.
Proof.
  intros w [= <-]. split; [repeat constructor|]. constructor; [|constructor]. split; [|by repeat constructor].
  cbn [fst]. repeat (apply Forall_cons; split; [done|]). constructor.
Qed.

Lemma host_pays_once_witness :
  let '(s, log) := host_run toy_host_events (hs_reset None, []) in
  NoDup (map paid_hash (log ++ (MaybeShareMatureWins toy_host None s).2)) /\
  (MaybeShareMatureWins toy_host None s).2 =
    [(mkOutPoint (repeat 7 32) 0, [mkRecipient (GetScriptForDestination (CKeyID (repeat 5 20))) 2500])].
Proof.
  pose proof (host_pays_once toy_host_events toy_host None) as H.
  assert ((MaybeShareMatureWins toy_host None (host_run toy_host_events (hs_reset None, [])).1).2 =
    [(mkOutPoint (repeat 7 32) 0, [mkRecipient (GetScriptForDestination (CKeyID (repeat 5 20))) 2500])]) as E
    by (vm_compute; reflexivity).
  destruct (host_run toy_host_events (hs_reset None, [])) as [s log]. cbn [fst] in E. split; [|exact E].
  apply H; [|apply toy_wallet_ok|reflexivity]. repeat constructor.
Defined.

(** ** The file *)

Lemma load_guests_written l : forall acc, Forall valid_handle l -> NoDup (acc ++ l) -> zlen (acc ++ l) <= MAX_GUESTS ->
  load_guests (map VSTR l) acc = acc ++ l.
Proof.
  induction l as [|h l IH]; intros acc Hl Hn Hc; cbn [map load_guests]; [by rewrite app_nil_r|].
  apply Forall_cons in Hl as [Hh Hl]. rewrite zlen_app in Hc. change (h :: l) with ([h] ++ l) in Hc. rewrite zlen_app in Hc.
  change (zlen [h]) with 1 in Hc. pose proof (zlen_nonneg l). rewrite (proj2 (Z.ltb_lt _ _)) by lia. cbn [negb getValStr].
  rewrite Normalize_valid by done. destruct (existsb _ acc) eqn:E.
  - apply existsb_bytes in E. apply NoDup_app in Hn as (_ & Hn & _). destruct (Hn h E). by left.
  - replace (acc ++ h :: l) with ((acc ++ [h]) ++ l) in * by (by rewrite <-app_assoc). apply IH; [done..|].
    rewrite !zlen_app. change (zlen [h]) with 1. lia.
Qed.

Lemma fold_insert_written (l : list bytes) : forall m : omap bytes unit, om_wf (m ++ map (fun k => (k, tt)) l) ->
  fold_left (fun m v => om_insert (getValStr v) tt m) (map VSTR l) m = m ++ map (fun k => (k, tt)) l.
Proof.
  induction l as [|k l IH]; intros m Hm; cbn [map fold_left]; [by rewrite app_nil_r|].
  cbn [map] in Hm. replace (m ++ (k, tt) :: map _ l) with ((m ++ [(k, tt)]) ++ map (fun k => (k, tt)) l) in Hm |- *
    by (by rewrite <-app_assoc).
  rewrite om_insert_last by (by eapply om_wf_app_l). by apply IH.
Qed.

Lemma unit_map_keys (m : omap bytes unit) : map (fun k => (k, tt)) (map fst m) = m.
Proof. induction m as [|[k []] m IH]; [done|]. cbn. by rewrite IH. Qed.

Lemma state_object_ok s : hs_ok s -> Forall (fun kv => ascii kv.1) (g_shared s) -> uv_ok (state_object s).
Proof.
  intros Hs Ha. change (state_object s) with
    (VOBJ [bs "enabled"; bs "guest_percent"; bs "guests"; bs "shared_coinbases"]
       [VBOOL (g_enabled s); uv_int (g_percent s); VARR (map VSTR (g_guests s));
        VARR (map (fun kv => VSTR kv.1) (take 256 (g_shared s)))]).
  apply uv_ok_obj; [|done|].
  - repeat (apply Forall_cons; split; [by apply ascii_str_ok, ascii_forallb|]). constructor.
  - repeat (apply Forall_cons; split); [done|apply num_ok_dec_str| | |constructor]; apply uv_ok_arr, Forall_map.
    + eapply Forall_impl; [apply Hs|]. intros h Hh. by apply ascii_str_ok, ascii_handle.
    + eapply Forall_take, Forall_impl; [exact Ha|]. intros kv Hk. by apply ascii_str_ok.
Qed.

Lemma Load_Persist s d : hs_ok s -> Forall (fun kv => ascii kv.1) (g_shared s) ->
  disk_keeps d (length (uv_write 2 0 (state_object s) ++ [10])) = true ->
  Load (PersistLocked d s) = mkHostShare (g_enabled s) (g_percent s) (g_guests s) (take 256 (g_shared s))
    (Some (uv_write 2 0 (state_object s) ++ [10])).
Proof.
  intros Hs Ha Hd. unfold Load, PersistLocked. rewrite WriteFileBytes_all by done. cbn [hs_file with_file snd]. unfold LoadLocked.
  rewrite uv_read_write by (done || by apply state_object_ok). set (obj := state_object s).
  change (isObject obj) with true. cbn [negb]. assert (load_percent obj = Some (g_percent s)) as ->.
  { change (load_percent obj) with
      (match ParseInt 32 (dec_str (g_percent s)) with
       | Some p => Some (if (MIN_PERCENT <=? p) && (p <=? MAX_PERCENT) then p else DEFAULT_PERCENT) | None => None end).
    destruct (hs_percent s Hs) as [Hp1 Hp2]. rewrite ParseInt_dec_str by (unfold MIN_PERCENT, MAX_PERCENT in *; lia).
    by rewrite (proj2 (Z.leb_le _ _) Hp1), (proj2 (Z.leb_le _ _) Hp2). }
  cbv zeta. cbn [snd]. f_equal.
  - change (load_guests (map VSTR (g_guests s)) [] = g_guests s). by rewrite load_guests_written by apply Hs.
  - change (fold_left (fun m v => om_insert (getValStr v) tt m) (map (fun kv => VSTR kv.1) (take 256 (g_shared s))) []
            = take 256 (g_shared s)). set (m := take 256 (g_shared s)).
    assert (om_wf m) as Hm by (apply (om_wf_app_l _ (drop 256 (g_shared s))); unfold m; rewrite take_drop; apply Hs).
    rewrite <-(map_map fst VSTR), fold_insert_written; cbn [app]; by rewrite unit_map_keys.
Qed.

(** A restart keeps the settings, up to 256 marked wins.  When the
    last write of host-guests.json reached the disk, loading it gives back the switch, the
    percent and the guests in order, and the first 256 marked transaction ids in
    the order of their hexadecimal text.  So with at most 256 wins nothing is
    lost; the wins beyond are no longer marked, and the next pass takes them for
    new. *)
Theorem host_restart (s : HostShare) (d : disk) :
  hs_ok s -> Forall (fun kv => ascii kv.1) (g_shared s) ->
  disk_keeps d (length (uv_write 2 0 (state_object s) ++ [10])) = true ->
  let s' := Load (PersistLocked d s) in
  g_enabled s' = g_enabled s /\ g_percent s' = g_percent s /\ g_guests s' = g_guests s /\
  g_shared s' = take 256 (g_shared s) /\
  forall txid, (GetHex txid, tt) ∈ drop 256 (g_shared s) ->
    AlreadySharedLocked txid s = true /\ AlreadySharedLocked txid s' = false.
Proof.
  intros Hs Ha Hd s'. pose proof (Load_Persist s d Hs Ha Hd) as Es. fold s' in Es.
  rewrite Es. split_and!; try done. intros txid Hin. unfold AlreadySharedLocked, om_mem. cbn [g_shared].
  assert ((GetHex txid, tt) ∈ g_shared s) as Hin' by (rewrite <-(take_drop 256 (g_shared s)); apply elem_of_app; by right).
  rewrite (om_in_find _ tt) by (done || apply Hs). split; [done|].
  destruct (om_find _ (take 256 _)) as [u|] eqn:E; [|done]. apply om_find_Some_in in E.
  pose proof (om_keys_NoDup _ (hs_shared_wf s Hs)) as Hn. rewrite <-(take_drop 256 (g_shared s)) in Hn. unfold om_keys in Hn.
  rewrite fmap_app in Hn. apply NoDup_app in Hn as (_ & Hn & _). exfalso.
  apply (Hn (GetHex txid)); apply list_elem_of_fmap; [by exists (GetHex txid, u)|by exists (GetHex txid, tt)].
Qed.

(** A host that marked 257 wins. *)
Definition toy_txid (i : nat) : bytes := [Z.of_nat i mod 256; Z.of_nat i / 256].
Definition toy_shared : omap bytes unit :=
  fold_left (fun m v => om_insert (getValStr v) tt m) (map (fun i => VSTR (GetHex (toy_txid i))) (seq 0 257)) [].
Definition toy_marked : HostShare := mkHostShare true 20 [bs "alice"] toy_shared None.

Lemma host_restart_witness :
  let s' := Load (PersistLocked (good_disk (Z.to_nat 9000)) toy_marked) in
  g_guests s' = [bs "alice"] /\ AlreadySharedLocked (toy_txid 255) s' = true /\ AlreadySharedLocked (toy_txid 256) s' = false.
Proof.
  destruct (host_restart toy_marked (good_disk (Z.to_nat 9000))) as (_ & _ & Hg & Hs & Hd).
  - split; [done| |apply NoDup_singleton|done|apply fold_insert_wf; constructor].
    apply Forall_cons. split; [by apply (Normalize_Ok_valid (bs "alice"))|constructor].
  - assert (forallb (fun kv => forallb (fun c => (0 <=? c) && (c <? 128)) kv.1) toy_shared = true) as Ha by (vm_compute; reflexivity).
    rewrite forallb_forall in Ha. apply Forall_forall. intros kv Hk. apply ascii_forallb, Ha. by apply list_elem_of_In.
  - vm_compute. reflexivity.
  - split; [exact Hg|]. split.
    + unfold AlreadySharedLocked, om_mem. rewrite Hs. vm_compute. reflexivity.
    + apply Hd. vm_compute. left.
Defined.
