(* ===== verification/Draw.v ===== *)
(** The draw of src/src/lottery.cpp: the seed, the deterministic stream, the
    partial Fisher-Yates shuffle that picks the winners of a slot, and the
    split of the subsidy among them. *)

From S2P Require Import Prelude Sha256 Slots.

Local Open Scope Z_scope.

(** ** The stream *)
Definition Seed (prevBlockHash : bytes) (slot : Z) : bytes :=
  sha256.SHA256 [prevBlockHash; le_bytes 8 slot].

Definition StreamU64 (seed : bytes) (counter : Z) : Z :=
  let h := sha256.SHA256 [seed; le_bytes 4 counter] in
  le_decode (take 8 h).

(** ** Winners *)

(** [std::swap(pool[i], pool[j])]; both indices are in range where it is called. *)
Definition swap_at {A} (i j : nat) (pool : list A) : list A :=
  match pool !! i, pool !! j with
  | Some a, Some b => <[j := a]> (<[i := b]> pool)
  | _, _ => pool
  end.

(** The loop of [SelectWinners] from its counter [i] on, [k] rounds to go. *)
Fixpoint select_loop {A} (stream : Z -> Z) (pool : list A) (i k : nat) : list A :=
  match k with
  | O => []
  | S k' =>
      let r := stream (uwrap 32 (Z.of_nat i)) in
      let remaining := zlen pool - Z.of_nat i in
      let idx := (Z.to_nat (r mod remaining) + i)%nat in
      let pool := swap_at i idx pool in
      match pool !! i with
      | Some w => w :: select_loop stream pool (S i) k'
      | None => []
      end
  end.

Definition SelectWinners (sortedActive : list bytes) (seed : bytes) (k : Z) : list bytes :=
  if (zlen sortedActive =? 0) || (k <=? 0) then [] else
  if swrap 32 (zlen sortedActive) <=? k then sortedActive else
  select_loop (StreamU64 seed) sortedActive 0 (Z.to_nat k).

Definition IsWinner (id : bytes) (winners : list bytes) : bool :=
  existsb (bytes_eqb id) winners.

(** ** Rewards *)
Definition SplitReward (total winners : Z) : list Z :=
  if (winners <=? 0) || (total <=? 0) then [] else
  let parts := replicate (Z.to_nat winners) (Z.quot total winners) in
  let rem := Z.rem total winners in
  fold_left (fun parts i => alter (Z.add 1) i parts) (seq 0 (Z.to_nat rem)) parts.

(** ** The shuffle, seen from its suffix

    Round [i] only touches positions from [i] on, so the loop is a recursion on
    the part of the pool that has not been drawn: take the element at the drawn
    offset, put the front element in its place. *)
Definition draw_one {A} (d : nat) (s : list A) : list A := tail (swap_at 0 d s).

Fixpoint sample {A} (s : list A) (ds : list nat) : list A :=
  match ds with
  | [] => []
  | d :: ds' =>
      match s !! d with
      | Some w => w :: sample (draw_one d s) ds'
      | None => []
      end
  end.

(** The offsets round [i], [i+1], ... draw from a pool of [n]. *)
Fixpoint offsets (stream : Z -> Z) (n i k : nat) : list nat :=
  match k with
  | O => []
  | S k' =>
      Z.to_nat (stream (uwrap 32 (Z.of_nat i)) mod (Z.of_nat n - Z.of_nat i))
        :: offsets stream n (S i) k'
  end.

(** An offset vector is admissible when round [j] draws below [n - j]. *)
Fixpoint admissible (n : nat) (ds : list nat) : Prop :=
  match ds with
  | [] => True
  | d :: ds' => (d < n)%nat /\ admissible (n - 1) ds'
  end.

Lemma swap_at_suffix {A} (p s : list A) d :
  swap_at (length p) (d + length p) (p ++ s) = p ++ swap_at 0 d s.
Proof.
  unfold swap_at. rewrite lookup_app_r, Nat.sub_diag by lia.
  rewrite (lookup_app_r p s (d + length p)) by lia.
  replace (d + length p - length p)%nat with d by lia.
  destruct (s !! 0%nat), (s !! d); try done.
  rewrite insert_app_r_alt, Nat.sub_diag by lia.
  rewrite insert_app_r_alt by lia. by replace (d + length p - length p)%nat with d by lia.
Qed.

Lemma swap_at_0 {A} (s : list A) d w :
  s !! d = Some w -> swap_at 0 d s = w :: draw_one d s.
Proof.
  intros Hd. unfold draw_one, swap_at. rewrite Hd.
  destruct s as [|x s]; [done|]. by destruct d; simplify_eq/=.
Qed.

Lemma draw_one_perm {A} (s : list A) d w :
  s !! d = Some w -> w :: draw_one d s ≡ₚ s.
Proof.
  intros Hd. rewrite <-(swap_at_0 s d w) by done. unfold swap_at. rewrite Hd.
  destruct s as [|x s]; [done|]. simpl. destruct d as [|d]; simpl in *; [done|].
  rewrite insert_take_drop by (by eapply lookup_lt_Some).
  rewrite <-(take_drop_middle s d w) at 3 by done. by solve_Permutation.
Qed.

Lemma length_draw_one {A} (s : list A) d w :
  s !! d = Some w -> length (draw_one d s) = (length s - 1)%nat.
Proof. intros Hd. apply draw_one_perm, Permutation_length in Hd. simpl in Hd. lia. Qed.

Lemma select_loop_sample {A} stream k : forall (p s : list A),
  (k <= length s)%nat ->
  select_loop stream (p ++ s) (length p) k
  = sample s (offsets stream (length p + length s) (length p) k).
Proof.
  induction k as [|k IH]; intros p s Hk; [done|]. simpl.
  assert (zlen (p ++ s) = Z.of_nat (length p + length s)) as -> by (unfold zlen; rewrite length_app; lia).
  set (r := stream _). set (m := Z.of_nat (length p + length s) - Z.of_nat (length p)).
  assert (Z.to_nat (r mod m) < length s)%nat as Hd.
  { pose proof (Z.mod_pos_bound r m). lia. }
  rewrite swap_at_suffix. destruct (s !! Z.to_nat (r mod m)) as [w|] eqn:E.
  2: { apply lookup_ge_None in E. lia. }
  rewrite (swap_at_0 _ _ w) by done. rewrite list_lookup_middle by done. f_equal.
  pose proof (length_draw_one s _ w E).
  rewrite (cons_middle w). rewrite app_assoc.
  replace (S (length p)) with (length (p ++ [w])) by (rewrite length_app; simpl; lia).
  rewrite IH by lia. do 2 f_equal. rewrite length_app. simpl. lia.
Qed.

Lemma offsets_admissible stream k : forall n i,
  (i + k <= n)%nat -> admissible (n - i) (offsets stream n i k).
Proof.
  induction k as [|k IH]; intros n i Hk; simpl; [done|]. split.
  - pose proof (Z.mod_pos_bound (stream (uwrap 32 (Z.of_nat i))) (Z.of_nat n - Z.of_nat i)). lia.
  - replace (n - i - 1)%nat with (n - S i)%nat by lia. apply IH. lia.
Qed.

Lemma length_offsets stream n i k : length (offsets stream n i k) = k.
Proof. revert i. induction k; intros i; simpl; auto. Qed.

(** Drawing along an admissible vector consumes exactly as many elements, and
    what is left makes up the pool again. *)
Lemma sample_perm {A} (ds : list nat) : forall s : list A,
  admissible (length s) ds ->
  length (sample s ds) = length ds /\ exists rest, sample s ds ++ rest ≡ₚ s.
Proof.
  induction ds as [|d ds IH]; intros s Ha; [by split; [|exists s]|]. destruct Ha as [Hd Ha]. simpl.
  destruct (s !! d) as [w|] eqn:E; [|apply lookup_ge_None in E; lia].
  rewrite <-(length_draw_one s d w E) in Ha. destruct (IH _ Ha) as (Hl & rest & Hp).
  split; [simpl; lia|]. exists rest. simpl. rewrite Hp. by apply draw_one_perm.
Qed.

Lemma sample_inj {A} (ds1 ds2 : list nat) (s : list A) :
  NoDup s -> admissible (length s) ds1 -> admissible (length s) ds2 ->
  length ds1 = length ds2 -> sample s ds1 = sample s ds2 -> ds1 = ds2.
Proof.
  revert ds2 s. induction ds1 as [|d1 ds1 IH]; intros [|d2 ds2] s Hn; try done.
  intros [H1 A1] [H2 A2] Hl. simpl.
  destruct (s !! d1) as [w1|] eqn:E1; [|apply lookup_ge_None in E1; lia].
  destruct (s !! d2) as [w2|] eqn:E2; [|apply lookup_ge_None in E2; lia].
  intros [= -> Hs]. assert (d1 = d2) as -> by (eapply NoDup_lookup; eauto). f_equal.
  pose proof (length_draw_one s d2 w2 E2) as Hd. rewrite <-Hd in A1, A2.
  eapply (IH ds2 (draw_one d2 s)); auto.
  pose proof (draw_one_perm s d2 w2 E2) as Hp. rewrite <-Hp in Hn. by apply NoDup_cons in Hn as [_ ?].
Qed.

Lemma sample_surj {A} (ws : list A) : forall s : list A,
  NoDup s -> NoDup ws -> ws ⊆ s ->
  exists ds, length ds = length ws /\ admissible (length s) ds /\ sample s ds = ws.
Proof.
  induction ws as [|w ws IH]; intros s Hs Hw Hsub; [by exists []|].
  apply NoDup_cons in Hw as [Hnin Hw].
  assert (w ∈ s) as Hin by (apply Hsub; left).
  apply list_elem_of_lookup in Hin as [d Hd].
  pose proof (draw_one_perm s d w Hd) as Hp.
  destruct (IH (draw_one d s)) as (ds & Hl & Ha & He); [|done| |].
  - rewrite <-Hp in Hs. by apply NoDup_cons in Hs as [_ ?].
  - intros x Hx. assert (x ∈ w :: draw_one d s) as Hx'.
    { rewrite Hp. apply Hsub. by right. }
    apply elem_of_cons in Hx' as [->|]; done.
  - exists (d :: ds). simpl. rewrite Hl, Hd, He. split_and!; [done|..|done].
    + by eapply lookup_lt_Some.
    + by rewrite <-(length_draw_one s d w).
Qed.

(** The winners, spelled as a sample, in every branch of [SelectWinners]. *)
Lemma SelectWinners_eq active seed k :
  zlen active < 2 ^ 31 ->
  SelectWinners active seed k =
  if k <=? 0 then [] else
  if zlen active <=? k then active else
  sample active (offsets (StreamU64 seed) (length active) 0 (Z.to_nat k)).
Proof.
  intros Hn. unfold SelectWinners. pose proof (zlen_nonneg active) as H0.
  rewrite swrap_small by lia.
  destruct (Z.eqb_spec (zlen active) 0) as [E|E]; simpl.
  - apply zlen_0_nil in E as ->. destruct (Z.leb_spec k 0); [done|].
    destruct (Z.leb_spec (zlen (@nil bytes)) k); [done|]. unfold zlen in *. simpl in *. lia.
  - destruct (Z.leb_spec k 0); [done|]. destruct (Z.leb_spec (zlen active) k); [done|].
    apply (select_loop_sample (StreamU64 seed) (Z.to_nat k) [] active). unfold zlen in *. lia.
Qed.

Lemma SelectWinners_perm active seed k :
  zlen active < 2 ^ 31 ->
  zlen (SelectWinners active seed k) = Z.max 0 (Z.min k (zlen active)) /\
  exists losers, SelectWinners active seed k ++ losers ≡ₚ active.
Proof.
  intros Hn. rewrite SelectWinners_eq by done. pose proof (zlen_nonneg active) as H0.
  destruct (Z.leb_spec k 0).
  { split; [unfold zlen; simpl; lia|]. by exists active. }
  destruct (Z.leb_spec (zlen active) k).
  { split; [lia|]. exists []. by rewrite app_nil_r. }
  pose proof (offsets_admissible (StreamU64 seed) (Z.to_nat k) (length active) 0) as Ha.
  rewrite Nat.sub_0_r in Ha. destruct (sample_perm _ _ (Ha ltac:(unfold zlen in *; lia))) as [Hl Hp].
  split; [|done]. unfold zlen at 1. rewrite Hl, length_offsets. lia.
Qed.

Lemma SelectWinners_subset active seed k w :
  zlen active < 2 ^ 31 -> w ∈ SelectWinners active seed k -> w ∈ active.
Proof.
  intros Hn Hw. destruct (SelectWinners_perm active seed k Hn) as (_ & l & Hp).
  rewrite <-Hp. apply elem_of_app. by left.
Qed.

Lemma IsWinner_elem id winners : IsWinner id winners = true <-> id ∈ winners.
Proof.
  unfold IsWinner. rewrite existsb_exists. setoid_rewrite bytes_eqb_eq.
  setoid_rewrite <-list_elem_of_In. split; [by intros (x & ? & ->)|by exists id].
Qed.

(** ** The split *)
Lemma bump_prefix (f : Z -> Z) n : forall (m : nat) q,
  (n <= m)%nat ->
  fold_left (fun parts i => alter f i parts) (seq 0 n) (replicate m q)
  = replicate n (f q) ++ replicate (m - n) q.
Proof.
  induction n as [|n IH]; intros m q Hn; [by rewrite Nat.sub_0_r|].
  rewrite seq_S, fold_left_app, IH, replicate_S_end, <-app_assoc by lia. simpl.
  replace (m - n)%nat with (S (m - S n)) by lia.
  rewrite alter_app_r_alt by (rewrite length_replicate; lia).
  by rewrite length_replicate, Nat.sub_diag.
Qed.

Lemma SplitReward_eq total winners :
  0 < winners -> 0 < total ->
  SplitReward total winners
  = replicate (Z.to_nat (total mod winners)) (1 + total / winners)
    ++ replicate (Z.to_nat winners - Z.to_nat (total mod winners)) (total / winners).
Proof.
  intros Hw Ht. unfold SplitReward.
  destruct (Z.leb_spec winners 0); [lia|]. destruct (Z.leb_spec total 0); [lia|]. simpl.
  rewrite Z.quot_div_nonneg, Z.rem_mod_nonneg by lia.
  pose proof (Z.mod_pos_bound total winners). apply (bump_prefix (Z.add 1)). lia.
Qed.

Lemma length_SplitReward total winners :
  0 < winners -> 0 < total -> zlen (SplitReward total winners) = winners.
Proof.
  intros Hw Ht. rewrite SplitReward_eq by done. pose proof (Z.mod_pos_bound total winners).
  unfold zlen. rewrite length_app, !length_replicate. lia.
Qed.

Lemma sumZ_replicate n x : sumZ (replicate n x) = Z.of_nat n * x.
Proof. induction n; simpl; lia. Qed.

Lemma sum_SplitReward total winners :
  0 < winners -> 0 < total -> sumZ (SplitReward total winners) = total.
Proof.
  intros Hw Ht. rewrite SplitReward_eq, sumZ_app, !sumZ_replicate by done.
  pose proof (Z.mod_pos_bound total winners). pose proof (Z.div_mod total winners). nia.
Qed.

(** Each slot's winners are a duplicate-free selection of exactly
    [min(k, n)] of the [n] committed nodes: whoever is drawn is a committed
    node, nobody is drawn twice, and the nodes not drawn are the rest. *)
Theorem select_winners_sample (active : list bytes) (seed : bytes) (k : Z) :
  zlen active < 2 ^ 31 -> NoDup active -> 0 <= k ->
  zlen (SelectWinners active seed k) = Z.min k (zlen active) /\
  NoDup (SelectWinners active seed k) /\
  (forall id, IsWinner id (SelectWinners active seed k) = true -> id ∈ active) /\
  exists losers, SelectWinners active seed k ++ losers ≡ₚ active /\
    (forall id, id ∈ losers -> IsWinner id (SelectWinners active seed k) = false).
Proof.
  intros Hn Hd Hk. destruct (SelectWinners_perm active seed k Hn) as (Hl & losers & Hp).
  pose proof (zlen_nonneg active). rewrite <-Hp in Hd.
  apply NoDup_app in Hd as (Hd1 & Hd2 & _). split_and!; [lia|done|..].
  - intros id Hid. apply IsWinner_elem in Hid. by eapply SelectWinners_subset.
  - exists losers. split; [done|]. intros id Hid. apply not_true_iff_false.
    rewrite IsWinner_elem. intros Hin. by apply (Hd2 id).
Qed.

Lemma select_winners_sample_witness :
  zlen (SelectWinners [[1]; [2]; [3]; [4]] (Seed [7] 5) 2) = 2.
Proof.
  apply (select_winners_sample [[1]; [2]; [3]; [4]] (Seed [7] 5) 2);
    [vm_compute; reflexivity|by apply (bool_decide_unpack _)|lia].
Defined.

(** C33. The shuffle is fair in its offsets: drawing below [n], [n-1], ..., each
    ordered selection of [k] of the [n] nodes comes from exactly one vector of
    offsets, and the loop of [SelectWinners] draws along such a vector, round
    [i] taking [StreamU64(seed, i) % (n - i)]. So with uniform offsets every
    ordered outcome has the same probability. *)
Theorem shuffle_bijective (active : list bytes) (seed : bytes) (k : nat) :
  NoDup active -> zlen active < 2 ^ 31 -> (0 < k < length active)%nat ->
  (let ds := offsets (StreamU64 seed) (length active) 0 k in
   SelectWinners active seed (Z.of_nat k) = sample active ds /\
   admissible (length active) ds /\ length ds = k) /\
  (forall ws, NoDup ws -> ws ⊆ active -> length ws = k ->
     exists ds, (admissible (length active) ds /\ length ds = k /\ sample active ds = ws) /\
       forall ds', admissible (length active) ds' -> length ds' = k -> sample active ds' = ws ->
         ds' = ds).
Proof.
  intros Hd Hn Hk. cbv zeta. split.
  - rewrite SelectWinners_eq by done.
    destruct (Z.leb_spec (Z.of_nat k) 0); [lia|].
    destruct (Z.leb_spec (zlen active) (Z.of_nat k)); [unfold zlen in *; lia|].
    rewrite Nat2Z.id, length_offsets. split_and!; [done| |done].
    pose proof (offsets_admissible (StreamU64 seed) k (length active) 0) as Ha.
    rewrite Nat.sub_0_r in Ha. apply Ha. lia.
  - intros ws Hw Hsub Hl. destruct (sample_surj ws active Hd Hw Hsub) as (ds & Hds & Ha & Hs).
    exists ds. split; [split_and!; [done|lia|done]|].
    intros ds' Ha' Hl' Hs'. apply (sample_inj ds' ds active Hd Ha' Ha); congruence.
Qed.

Lemma shuffle_bijective_witness :
  exists ds, sample [[1]; [2]; [3]] ds = [[3]; [1]] /\ length ds = 2%nat.
Proof.
  destruct (shuffle_bijective [[1]; [2]; [3]] (Seed [7] 5) 2) as [_ H];
    [by apply (bool_decide_unpack _)|by vm_compute|simpl; lia|].
  destruct (H [[3]; [1]]) as (ds & (_ & Hl & Hs) & _);
    [by apply (bool_decide_unpack _)| |done|by exists ds].
  intros x Hx. apply elem_of_cons in Hx as [->|Hx]; [by apply (bool_decide_unpack _)|].
  apply elem_of_cons in Hx as [->|Hx]; [by apply (bool_decide_unpack _)|]. by apply elem_of_nil in Hx.
Defined.

(** The split of a slot's subsidy gives every winner a part, the parts add
    up to exactly the subsidy, no two parts differ by more than one xferon, and
    the larger ones come first. *)
Lemma split_reward_exact (total winners : Z) :
  0 < winners -> 0 < total ->
  zlen (SplitReward total winners) = winners /\
  sumZ (SplitReward total winners) = total /\
  Forall (fun p => p = total / winners \/ p = total / winners + 1) (SplitReward total winners) /\
  StronglySorted Z.ge (SplitReward total winners).
Proof.
  intros Hw Ht. split_and!;
    [by apply length_SplitReward|by apply sum_SplitReward|..]; rewrite SplitReward_eq by done.
  - apply Forall_app. split; apply Forall_replicate; lia.
  - apply StronglySorted_app_intro; try (apply StronglySorted_replicate; lia).
    intros x y Hx Hy. apply elem_of_replicate in Hx as [-> _], Hy as [-> _]. lia.
Qed.
