(* ===== verification/Key.v ===== *)
(** Keys and compact signatures: [CKey] of src/src/key.h and key.cpp and the
    recovery half of [CPubKey] of src/src/pubkey.cpp, over the libsecp256k1
    calls they make. The elliptic curve itself enters as the class [Secp256k1]:
    what the library's headers promise of those calls. *)

From S2P Require Import Prelude Sha256 Ripemd160 Script.

Local Open Scope Z_scope.

(** The libsecp256k1 calls. [ecdsa_sign_recoverable] gives the serialized
    64-byte signature with its recovery id, [ecdsa_recover] parses such a
    signature and recovers the key. *)
Class Secp256k1 := {
  secp_pubkey : Type;
  ec_seckey_verify : bytes -> bool;
  ec_pubkey_create : bytes -> option secp_pubkey;
  ec_pubkey_serialize : secp_pubkey -> bool -> bytes;
  ec_pubkey_parse : bytes -> option secp_pubkey;
  ecdsa_sign_recoverable : bytes -> bytes -> option (bytes * Z);
  ecdsa_recover : bytes -> Z -> bytes -> option secp_pubkey;
}.

(** Their documented behaviour. *)
Class Secp256k1Laws `(Secp256k1) : Prop := {
  pubkey_create_ok k : ec_seckey_verify k = true -> is_Some (ec_pubkey_create k);
  pubkey_serialize_compressed P :
    zlen (ec_pubkey_serialize P true) = 33 /\
    exists b t, ec_pubkey_serialize P true = b :: t /\ (b = 2 \/ b = 3);
  pubkey_serialize_uncompressed P :
    zlen (ec_pubkey_serialize P false) = 65 /\
    exists t, ec_pubkey_serialize P false = 4 :: t;
  pubkey_parse_serialize P c : ec_pubkey_parse (ec_pubkey_serialize P c) = Some P;
  sign_recover k h :
    ec_seckey_verify k = true -> zlen h = 32 ->
    exists sig rec, ecdsa_sign_recoverable h k = Some (sig, rec) /\
      zlen sig = 64 /\ bytes_ok sig /\ 0 <= rec <= 3 /\
      ecdsa_recover sig rec h = ec_pubkey_create k;
}.

(** ** CKey *)
Record CKey := mkKey { fValid : bool; fCompressed : bool; keydata : bytes }.

Section Key.
Context `{Secp256k1}.

Definition CKey_empty : CKey := mkKey false false (repeat 0 32).

Definition CKey_Set (k : CKey) (v : bytes) (fCompressedIn : bool) : CKey :=
  if negb (zlen v =? zlen (keydata k)) then mkKey false (fCompressed k) (keydata k)
  else if ec_seckey_verify v then mkKey true fCompressedIn v
  else mkKey false (fCompressed k) (keydata k).

Definition CKey_IsValid (k : CKey) : bool := fValid k.

(** [GetPubKey], behind its assertions: [None] is a failed one. *)
Definition GetPubKey (k : CKey) : option CPubKey :=
  if negb (fValid k) then None else
  match ec_pubkey_create (keydata k) with
  | None => None
  | Some P =>
      let result := CPubKey_Set (ec_pubkey_serialize P (fCompressed k)) in
      if negb (zlen result =? zlen (ec_pubkey_serialize P (fCompressed k))) then None else
      if negb (CPubKey_IsValid result) then None else Some result
  end.

(** [None]: the call returns false, or its assertion on the library fails. *)
Definition SignCompact (k : CKey) (hash : bytes) : option bytes :=
  if negb (fValid k) then None else
  match ecdsa_sign_recoverable hash (keydata k) with
  | None => None
  | Some (sig, rec) =>
      if rec =? -1 then None else
      Some (uwrap 8 (27 + rec + (if fCompressed k then 4 else 0)) :: sig)
  end.

(** ** CPubKey *)
Definition RecoverCompact (hash vchSig : bytes) : option CPubKey :=
  if negb (zlen vchSig =? 65) then None else
  let b0 := List.hd 0 vchSig in
  let recid := Z.land (b0 - 27) 3 in
  let fComp := negb (Z.land (b0 - 27) 4 =? 0) in
  match ecdsa_recover (tail vchSig) recid hash with
  | None => None
  | Some P => Some (CPubKey_Set (ec_pubkey_serialize P fComp))
  end.

Definition IsFullyValid (pub : CPubKey) : bool :=
  if negb (CPubKey_IsValid pub) then false
  else match ec_pubkey_parse pub with Some _ => true | None => false end.

(** What every [CKey] of the program satisfies: [fValid] records that the key
    data passed [Check]. *)
Definition key_ok (k : CKey) : Prop :=
  zlen (keydata k) = 32 /\ (fValid k = true -> ec_seckey_verify (keydata k) = true).

Lemma CKey_empty_ok : key_ok CKey_empty.
Proof. done. Qed.

Lemma CKey_Set_ok k v c : key_ok k -> key_ok (CKey_Set k v c).
Proof.
  intros [Hl Hv]. unfold CKey_Set.
  destruct (Z.eqb_spec (zlen v) (zlen (keydata k))); simpl; [|done].
  destruct (ec_seckey_verify v) eqn:E; [|done]. split; simpl; [lia|done].
Qed.

Context `{!Secp256k1Laws _}.

Lemma CPubKey_Set_serialize P c :
  CPubKey_Set (ec_pubkey_serialize P c) = ec_pubkey_serialize P c.
Proof.
  unfold CPubKey_Set. destruct c.
  - destruct (pubkey_serialize_compressed P) as (Hl & b & t & E & Hb). rewrite E in *.
    destruct Hb as [-> | ->]; by rewrite Hl.
  - destruct (pubkey_serialize_uncompressed P) as (Hl & t & E). rewrite E in *.
    by rewrite Hl.
Qed.

Lemma serialize_valid P c : CPubKey_IsValid (ec_pubkey_serialize P c) = true.
Proof.
  unfold CPubKey_IsValid. apply Z.ltb_lt. destruct c;
    [destruct (pubkey_serialize_compressed P)|destruct (pubkey_serialize_uncompressed P)]; lia.
Qed.

Lemma GetPubKey_eq k P :
  fValid k = true -> ec_pubkey_create (keydata k) = Some P ->
  GetPubKey k = Some (ec_pubkey_serialize P (fCompressed k)).
Proof.
  intros Hv HP. unfold GetPubKey.
  by rewrite Hv, HP, CPubKey_Set_serialize, Z.eqb_refl, serialize_valid.
Qed.

(** The assertions of [GetPubKey] never fail on a valid key. *)
Lemma GetPubKey_total k :
  key_ok k -> fValid k = true ->
  exists pub, GetPubKey k = Some pub /\ IsFullyValid pub = true.
Proof.
  intros [Hl Hk] Hv. destruct (pubkey_create_ok _ (Hk Hv)) as [P HP].
  eexists. split; [by apply GetPubKey_eq|]. unfold IsFullyValid.
  by rewrite serialize_valid, pubkey_parse_serialize.
Qed.

Lemma header_bits rec c :
  0 <= rec <= 3 ->
  let b := uwrap 8 (27 + rec + (if c : bool then 4 else 0)) in
  Z.land (b - 27) 3 = rec /\ negb (Z.land (b - 27) 4 =? 0) = c.
Proof.
  intros Hr. assert (rec = 0 \/ rec = 1 \/ rec = 2 \/ rec = 3) as Hc by lia.
  destruct Hc as [-> | [-> | [-> | ->]]]; destruct c; vm_compute; done.
Qed.

(** Signing with a valid key succeeds with 65 bytes, from which [RecoverCompact]
    returns the key's public key. *)
Lemma SignCompact_recover k hash :
  key_ok k -> fValid k = true -> zlen hash = 32 ->
  exists sig pub, SignCompact k hash = Some sig /\ zlen sig = 65 /\ bytes_ok sig /\
    GetPubKey k = Some pub /\ RecoverCompact hash sig = Some pub.
Proof.
  intros [Hl Hk] Hv Hh. specialize (Hk Hv).
  destruct (sign_recover _ _ Hk Hh) as (sig & rec & Hs & Hsl & Hso & Hr & Hrec).
  destruct (pubkey_create_ok _ Hk) as [P HP]. rewrite HP in Hrec.
  destruct (header_bits rec (fCompressed k) Hr) as [H3 H4].
  set (b := uwrap 8 _) in *. exists (b :: sig), (ec_pubkey_serialize P (fCompressed k)).
  split_and!; [| |constructor; [|done]|by apply GetPubKey_eq|].
  - unfold SignCompact. rewrite Hv, Hs. simpl. destruct (Z.eqb_spec rec (-1)); [lia|done].
  - rewrite zlen_cons. lia.
  - apply Z.mod_pos_bound. lia.
  - unfold RecoverCompact. rewrite zlen_cons, Hsl. simpl.
    by rewrite H3, H4, Hrec, CPubKey_Set_serialize.
Qed.

End Key.

(** ** An instance

    A signature scheme on 32-byte keys that satisfies the laws, for evaluating
    the model on concrete keys: a key is its own public key and a signature is
    the key followed by the digest. *)
Definition toy_verify (k : bytes) : bool := (zlen k =? 32) && forallb (fun b => (0 <=? b) && (b <? 256)) k.

Definition toy_secp256k1 : Secp256k1 := {|
  secp_pubkey := { k : bytes | toy_verify k = true };
  ec_seckey_verify := toy_verify;
  ec_pubkey_create k :=
    match bool_dec (toy_verify k) true with left e => Some (exist _ k e) | right _ => None end;
  ec_pubkey_serialize P c := if c then 2 :: proj1_sig P else 4 :: proj1_sig P ++ proj1_sig P;
  ec_pubkey_parse v :=
    let k := take 32 (drop 1 v) in
    match bool_dec (toy_verify k) true with left e => Some (exist _ k e) | right _ => None end;
  ecdsa_sign_recoverable h k := Some (k ++ ((fun b => b mod 256) <$> h), 0);
  ecdsa_recover sig rec h :=
    let k := take 32 sig in
    if bytes_eqb (drop 32 sig) ((fun b => b mod 256) <$> h)
    then match bool_dec (toy_verify k) true with left e => Some (exist _ k e) | right _ => None end
    else None;
|}.

Lemma toy_verify_ok k : toy_verify k = true -> length k = 32%nat /\ bytes_ok k.
Proof.
  unfold toy_verify, bytes_ok. rewrite andb_true_iff, forallb_forall, Z.eqb_eq.
  intros [Hl Hf]. split; [unfold zlen in Hl; lia|]. apply Forall_forall. intros b Hb.
  apply list_elem_of_In in Hb. specialize (Hf b Hb). unfold byte_ok. bool_prop. lia.
Qed.

Lemma toy_exist (k : bytes) (P : { k | toy_verify k = true }) :
  k = proj1_sig P ->
  match bool_dec (toy_verify k) true with left e => Some (exist _ k e) | right _ => None end = Some P.
Proof.
  destruct P as [k' e]. simpl. intros ->. destruct (bool_dec (toy_verify k') true) as [e'|]; [|done].
  do 2 f_equal. apply Eqdep_dec.UIP_dec. apply bool_dec.
Qed.

Lemma toy_secp256k1_laws : Secp256k1Laws toy_secp256k1.
Proof.
  split; simpl.
  - intros k Hk. destruct (bool_dec (toy_verify k) true); [done|congruence].
  - intros [k e]. destruct (toy_verify_ok k e). simpl. rewrite zlen_cons. unfold zlen.
    split; [lia|]. exists 2, k. auto.
  - intros [k e]. destruct (toy_verify_ok k e). simpl. rewrite zlen_cons, zlen_app. unfold zlen.
    split; [lia|]. by eexists.
  - intros [k e] c. destruct (toy_verify_ok k e) as [Hl _]. apply toy_exist.
    destruct c; simpl; rewrite drop_0; [by apply take_ge; lia|]. by rewrite take_app_length'.
  - intros k h Hk Hh. destruct (toy_verify_ok k Hk) as [Hl Hb].
    eexists _, 0. split; [done|]. rewrite zlen_app. split_and!; [| |lia..|].
    + unfold zlen in *. rewrite length_fmap. lia.
    + apply Forall_app. split; [done|]. apply Forall_fmap, Forall_true. intros b.
      apply Z.mod_pos_bound. lia.
    + by rewrite drop_app_length', take_app_length', bytes_eqb_refl.
Qed.

(** A concrete key of the instance: thirty-two times the byte [b]. *)
Definition toy_key (b : Z) : CKey := mkKey true true (repeat b 32).
