(* ===== verification/Base58.v ===== *)
(** * Base 58 and addresses

    src/src/base58.cpp: the conversion between bytes and the 58 characters, with
    its buffers of fixed size, the four bytes of checksum, and the addresses of
    a destination. An [std::vector] the code walks from its end is a list of
    digits with the least one first; a failed [assert] is [None]. *)

From S2P Require Import Prelude Sha256 Script Handle Key.

Local Open Scope Z_scope.

(** ** The conversion *)

Definition pszBase58 : bytes := bs "123456789ABCDEFGHJKLMNPQRSTUVWXYZabcdefghijkmnopqrstuvwxyz".

(** [digits = digits * mul + carry] in place: the loop stops at the end of the
    buffer, or behind the used length once nothing is carried. The result has
    the new length and what is left to carry. *)
Fixpoint mul_add (mul base : Z) (length i : nat) (carry : Z) (digits : list Z) : list Z * nat * Z :=
  match digits with
  | [] => ([], i, carry)
  | d :: ds =>
      if (carry =? 0) && (length <=? i)%nat then (digits, i, carry) else
      let carry := carry + mul * d in
      let '(ds, i, rest) := mul_add mul base length (S i) (carry / base) ds in
      (carry mod base :: ds, i, rest)
  end.

(** All the characters of the input, one after the other: [None] for a failed
    assertion, [Some None] for a character that is no digit. *)
Fixpoint convert (digit : Z -> option Z) (mul base : Z) (input : bytes) (digits : list Z) (length : nat)
  : option (option (list Z * nat)) :=
  match input with
  | [] => Some (Some (digits, length))
  | c :: input =>
      match digit c with
      | None => Some None
      | Some d =>
          let '(digits, length, carry) := mul_add mul base length 0 d digits in
          if carry =? 0 then convert digit mul base input digits length else None
      end
  end.

Fixpoint skip_zeroes (l : list Z) : list Z :=
  match l with c :: l' => if c =? 0 then skip_zeroes l' else l | [] => [] end.
Fixpoint count_front (x : Z) (l : list Z) : nat :=
  match l with c :: l => if c =? x then S (count_front x l) else 0 | [] => 0%nat end.

Definition EncodeBase58 (vch : bytes) : option bytes :=
  let zeroes := count_front 0 vch in
  let input := drop zeroes vch in
  let size := Z.to_nat (zlen input * 138 / 100 + 1) in
  match convert Some 256 58 input (repeat 0 size) 0 with
  | Some (Some (b58, length)) =>
      Some (repeat 49 zeroes ++ map (fun d => nth (Z.to_nat d) pszBase58 0) (skip_zeroes (rev (take length b58))))
  | _ => None
  end.

(** The position of a character: [strchr]. *)
Fixpoint strchr (c : Z) (s : bytes) : option Z :=
  match s with [] => None | d :: s => if c =? d then Some 0 else option_map Z.succ (strchr c s) end.
Fixpoint take_token (s : bytes) : bytes * bytes :=
  match s with
  | c :: s' => if isspace c then ([], s) else let '(t, r) := take_token s' in (c :: t, r)
  | [] => ([], [])
  end.
(** The C string behind a [std::string] ends at the first NUL. *)
Fixpoint c_str (s : bytes) : bytes := match s with c :: s => if c =? 0 then [] else c :: c_str s | [] => [] end.

(** [Some None] is a refusal. *)
Definition DecodeBase58 (str : bytes) : option (option bytes) :=
  let psz := drop_space (c_str str) in
  let zeroes := count_front 49 psz in
  let psz := drop zeroes psz in
  let size := Z.to_nat (zlen psz * 733 / 1000 + 1) in
  let '(token, rest) := take_token psz in
  match convert (fun c => strchr c pszBase58) 58 256 token (repeat 0 size) 0 with
  | None => None
  | Some None => Some None
  | Some (Some (b256, length)) =>
      match drop_space rest with
      | [] => Some (Some (repeat 0 zeroes ++ skip_zeroes (rev (take length b256))))
      | _ => Some None
      end
  end.

Definition EncodeBase58Check (vchIn : bytes) : option bytes := EncodeBase58 (vchIn ++ take 4 (sha256.Hash [vchIn])).
Definition DecodeBase58Check (str : bytes) : option (option bytes) :=
  match DecodeBase58 str with
  | None => None
  | Some None => Some None
  | Some (Some vch) =>
      if zlen vch <? 4 then Some None else
      let body := take (length vch - 4) vch in
      if bytes_eqb (take 4 (sha256.Hash [body])) (drop (length vch - 4) vch) then Some (Some body) else Some None
  end.

(** ** Addresses *)

(** The prefixes of a network. *)
Record AddressParams := mkAddressParams { PUBKEY_ADDRESS : bytes; SCRIPT_ADDRESS : bytes; SECRET_KEY : bytes }.
Definition main_prefixes : AddressParams := mkAddressParams [76] [139] [204].
Definition test_prefixes : AddressParams := mkAddressParams [140] [200] [247].

Record CBase58Data := mkBase58Data { vchVersion : bytes; vchData : bytes }.
Definition ToString (d : CBase58Data) : option bytes := EncodeBase58Check (vchVersion d ++ vchData d).
(** [SetString] with one byte of version, the default. *)
Definition SetString (str : bytes) : option (option CBase58Data) :=
  match DecodeBase58Check str with
  | None => None
  | Some (Some (v :: data)) => Some (Some (mkBase58Data [v] data))
  | Some _ => Some None
  end.

Section Addresses.
Variable prefixes : AddressParams.

Definition address_IsValid (d : CBase58Data) : bool :=
  (zlen (vchData d) =? 20) &&
  (bytes_eqb (vchVersion d) (PUBKEY_ADDRESS prefixes) || bytes_eqb (vchVersion d) (SCRIPT_ADDRESS prefixes)).
Definition address_Set (dest : CTxDestination) : CBase58Data :=
  match dest with
  | CKeyID id => mkBase58Data (PUBKEY_ADDRESS prefixes) id
  | CScriptID id => mkBase58Data (SCRIPT_ADDRESS prefixes) id
  | CNoDestination => mkBase58Data [] []
  end.
Definition address_Get (d : CBase58Data) : CTxDestination :=
  if negb (address_IsValid d) then CNoDestination
  else if bytes_eqb (vchVersion d) (PUBKEY_ADDRESS prefixes) then CKeyID (vchData d)
  else if bytes_eqb (vchVersion d) (SCRIPT_ADDRESS prefixes) then CScriptID (vchData d)
  else CNoDestination.

(** Without an assertion failure, which [EncodeBase58_total] excludes, the text
    of the address; an invalid address has no text. *)
Definition EncodeDestination (dest : CTxDestination) : bytes :=
  let addr := address_Set dest in
  if negb (address_IsValid addr) then [] else default [] (ToString addr).
Definition DecodeDestination (str : bytes) : CTxDestination :=
  match SetString str with
  | Some (Some d) => address_Get d
  | _ => address_Get (mkBase58Data [] [])
  end.
Definition IsValidDestinationString (str : bytes) : bool :=
  match SetString str with Some (Some d) => address_IsValid d | _ => address_IsValid (mkBase58Data [] []) end.

(** Private keys. *)
Definition secret_SetKey (vchSecret : CKey) : CBase58Data :=
  mkBase58Data (SECRET_KEY prefixes) (keydata vchSecret ++ if fCompressed vchSecret then [1] else []).
Definition secret_IsValid (d : CBase58Data) : bool :=
  ((zlen (vchData d) =? 32) || ((zlen (vchData d) =? 33) && (nth 32 (vchData d) 0 =? 1))) &&
  bytes_eqb (vchVersion d) (SECRET_KEY prefixes).
Definition secret_SetString (str : bytes) : option CBase58Data :=
  match SetString str with Some (Some d) => if secret_IsValid d then Some d else None | _ => None end.

End Addresses.

Section Secrets.
Context `{Secp256k1}.
Definition secret_GetKey (d : CBase58Data) : CKey :=
  CKey_Set CKey_empty (take 32 (vchData d)) ((32 <? zlen (vchData d)) && (nth 32 (vchData d) 0 =? 1)).
End Secrets.

(** ** Digits and their value *)

Fixpoint val (base : Z) (ds : list Z) : Z := match ds with [] => 0 | d :: ds => d + base * val base ds end.
Definition digit_in (base d : Z) : Prop := 0 <= d < base.

Lemma digits_app base a b : val base (a ++ b) = val base a + base ^ zlen a * val base b.
Proof.
  induction a as [|d a IH]; cbn [app val]; [change (zlen []) with 0; lia|].
  rewrite IH, zlen_cons, Z.pow_add_r by (pose proof (zlen_nonneg a); lia). lia.
Qed.

Lemma val_zeroes base n : val base (repeat 0 n) = 0.
Proof. induction n as [|n IH]; cbn; [done|]. rewrite IH. lia. Qed.

Lemma digits_bound base ds : 1 < base -> Forall (digit_in base) ds -> 0 <= val base ds < base ^ zlen ds.
Proof.
  intros Hb. induction 1 as [|d ds Hd _ IH]; [done|]. cbn [val]. rewrite zlen_cons, Z.pow_add_r by (pose proof (zlen_nonneg ds); lia).
  unfold digit_in in Hd. nia.
Qed.

(** Least digit first, no zero at the top: one list per value. *)
Definition top_nonzero (ds : list Z) : Prop := List.last ds 1 <> 0.

Lemma top_nonzero_cons d ds : ds <> [] -> top_nonzero (d :: ds) <-> top_nonzero ds.
Proof. intros H. unfold top_nonzero. destruct ds; [done|]. done. Qed.

Lemma val_nonzero base ds : 1 < base -> Forall (digit_in base) ds -> ds <> [] -> top_nonzero ds -> 0 < val base ds.
Proof.
  intros Hb. induction 1 as [|d ds Hd Hds IH]; [done|]. intros _ Ht. cbn [val]. unfold digit_in in Hd.
  destruct ds as [|e ds]; [unfold top_nonzero in Ht; cbn in *; lia|].
  rewrite top_nonzero_cons in Ht by done. specialize (IH ltac:(done) Ht). nia.
Qed.

Lemma digits_inj base a : forall b, 1 < base -> Forall (digit_in base) a -> Forall (digit_in base) b ->
  top_nonzero a -> top_nonzero b -> val base a = val base b -> a = b.
Proof.
  induction a as [|d a IH]; intros b Hb Ha Hb' Hta Htb E.
  - destruct b as [|e b]; [done|]. pose proof (val_nonzero base (e :: b) Hb Hb' ltac:(done) Htb) as H. rewrite <-E in H. cbn in H. lia.
  - destruct b as [|e b].
    { pose proof (val_nonzero base (d :: a) Hb Ha ltac:(done) Hta) as H. rewrite E in H. cbn in H. lia. }
    apply Forall_cons in Ha as [Hd Ha]. apply Forall_cons in Hb' as [He Hb']. cbn [val] in E. unfold digit_in in Hd, He.
    assert (d = e) as -> by (pose proof (Z.mod_unique_pos (d + base * val base a) base (val base a) d);
      pose proof (Z.mod_unique_pos (e + base * val base b) base (val base b) e); rewrite E in *; lia).
    f_equal. destruct a as [|x a], b as [|y b]; try done.
    + pose proof (val_nonzero base (y :: b) Hb Hb' ltac:(done) Htb) as H. cbn [val] in *. nia.
    + pose proof (val_nonzero base (x :: a) Hb Ha ltac:(done) Hta) as H. cbn [val] in *. nia.
    + apply IH; try done. nia.
Qed.

(** The digits above the used length are zero. *)
Definition zero_from (n : nat) (ds : list Z) : Prop := drop n ds = repeat 0 (length ds - n).

Lemma val_take base n ds : zero_from n ds -> val base (take n ds) = val base ds.
Proof. intros H. rewrite <-(take_drop n ds) at 2. rewrite digits_app, H, val_zeroes. lia. Qed.

Lemma skip_zeroes_spec l : exists n, l = repeat 0 n ++ skip_zeroes l /\ (forall c r, skip_zeroes l = c :: r -> c <> 0).
Proof.
  induction l as [|c l (n & E & H)]; [by exists 0%nat|]. cbn [skip_zeroes]. destruct (Z.eqb_spec c 0) as [->|Hc].
  - exists (S n). cbn. by rewrite <-E.
  - exists 0%nat. split; [done|]. by intros ? ? [= <- _].
Qed.

Lemma top_nonzero_rev c r : c <> 0 -> top_nonzero (rev (c :: r)).
Proof. intros H. unfold top_nonzero. cbn. by rewrite List.last_last. Qed.

(** What is printed: the digits of the value, the highest first, without zeroes. *)
Lemma stripped base ds (n : nat) : 1 < base -> Forall (digit_in base) ds -> zero_from n ds ->
  let out := rev (skip_zeroes (rev (take n ds))) in
  val base out = val base ds /\ Forall (digit_in base) out /\ top_nonzero out.
Proof.
  intros Hb Hd Hz out. destruct (skip_zeroes_spec (rev (take n ds))) as (k & E & Hk).
  assert (E' : take n ds = out ++ repeat 0 k).
  { apply (f_equal (@rev Z)) in E. rewrite rev_involutive, rev_app_distr, rev_repeat in E. done. }
  split_and!.
  - rewrite <-(val_take base n ds Hz), E', digits_app, val_zeroes. lia.
  - apply (Forall_take _ n) in Hd. rewrite E' in Hd. by apply Forall_app in Hd as [? _].
  - subst out. destruct (skip_zeroes (rev (take n ds))) as [|c r] eqn:E''; [done|]. apply top_nonzero_rev. by apply (Hk c r).
Qed.

Lemma zero_from_cons n d ds : zero_from (S n) (d :: ds) <-> zero_from n ds.
Proof. done. Qed.
Lemma zero_from_0 ds : zero_from 0 ds <-> ds = repeat 0 (length ds).
Proof. unfold zero_from. cbn [drop]. by rewrite Nat.sub_0_r. Qed.
Lemma zero_from_tail n d ds : zero_from n (d :: ds) -> zero_from (n - 1) ds.
Proof.
  destruct n as [|n]; [|rewrite zero_from_cons; by replace (S n - 1)%nat with n by lia].
  rewrite !zero_from_0. cbn. intros H. by injection H.
Qed.

(** ** The loops *)

Section Convert.
Variables (mul base : Z) (Hmul : 1 < mul) (Hbase : 1 < base).

Lemma mul_add_spec len ds : Forall (digit_in base) ds -> forall i carry, 0 <= carry -> zero_from (len - i) ds ->
  let '(r, j, rest) := mul_add mul base len i carry ds in
  val base r + rest * base ^ zlen ds = mul * val base ds + carry /\ Forall (digit_in base) r /\ length r = length ds /\
  0 <= rest /\ (i <= j)%nat /\ zero_from (j - i) r.
Proof.
  induction 1 as [|d ds Hd Hds IH]; intros i carry Hc Hz; cbn [mul_add].
  - split_and!; [change (zlen (@nil Z)) with 0; rewrite Z.pow_0_r; cbn [val]; lia|constructor|done|lia|lia|].
    unfold zero_from. by rewrite drop_nil.
  - destruct ((carry =? 0) && (len <=? i)%nat) eqn:E.
    { apply andb_true_iff in E as [->%Z.eqb_eq Hi%Nat.leb_le]. replace (len - i)%nat with 0%nat in Hz by lia.
      replace (i - i)%nat with 0%nat by lia. split_and!; try done; try lia; [|by constructor].
      apply zero_from_0 in Hz. rewrite Hz, val_zeroes. lia. }
    apply zero_from_tail in Hz. replace (len - i - 1)%nat with (len - S i)%nat in Hz by lia. unfold digit_in in Hd.
    specialize (IH (S i) ((carry + mul * d) / base) ltac:(apply Z.div_pos; nia) Hz).
    destruct (mul_add _ _ _ _ _ ds) as [[r j] rest]. destruct IH as (Hv & Hr & Hl & H0 & Hj & Hz').
    pose proof (Z.div_mod (carry + mul * d) base ltac:(lia)). pose proof (Z.mod_pos_bound (carry + mul * d) base ltac:(lia)).
    split_and!; try lia.
    + cbn [val]. rewrite zlen_cons, Z.pow_add_r by (pose proof (zlen_nonneg ds); lia). rewrite Z.pow_1_r. nia.
    + constructor; [|done]. done.
    + cbn. by rewrite Hl.
    + replace (j - i)%nat with (S (j - S i)) by lia. by apply zero_from_cons.
Qed.

Definition horner (acc : Z) (l : list Z) : Z := fold_left (fun a c => a * mul + c) l acc.

Lemma horner_val l : forall acc, horner acc l = acc * mul ^ zlen l + val mul (rev l).
Proof.
  induction l as [|c l IH]; intros acc; [change (zlen (@nil Z)) with 0; rewrite Z.pow_0_r; cbn [rev val horner fold_left]; unfold horner; cbn; lia|].
  unfold horner in *. cbn [fold_left rev]. rewrite IH, digits_app, zlen_cons.
  unfold zlen at 3. rewrite length_rev. fold (zlen l). cbn [val]. rewrite Z.pow_add_r by (pose proof (zlen_nonneg l); lia). lia.
Qed.

Lemma horner_mono l : forall acc, 0 <= acc -> Forall (fun c => 0 <= c) l -> acc <= horner acc l.
Proof.
  induction l as [|c l IH]; intros acc Ha; [cbn; lia|]. intros [Hc Hl]%Forall_cons. unfold horner in *. cbn [fold_left].
  specialize (IH (acc * mul + c) ltac:(nia) Hl). nia.
Qed.

(** The buffer keeps the value of what was read, and nothing is carried out of
    it as long as the value fits. *)
Lemma convert_spec digit input cs : forall ds len, map digit input = map Some cs -> Forall (digit_in mul) cs ->
  Forall (digit_in base) ds -> zero_from len ds -> horner (val base ds) cs < base ^ zlen ds ->
  exists ds' len', convert digit mul base input ds len = Some (Some (ds', len')) /\ val base ds' = horner (val base ds) cs /\
    Forall (digit_in base) ds' /\ zero_from len' ds'.
Proof.
  revert cs. induction input as [|c input IH]; intros [|d cs] ds len Hm Hcs Hds Hz Hlt; try done; [by exists ds, len|].
  cbn [map] in Hm. injection Hm as Hd Hm. apply Forall_cons in Hcs as [Hd' Hcs]. cbn [convert]. rewrite Hd.
  unfold digit_in in Hd'. pose proof (mul_add_spec len ds Hds 0 d ltac:(lia)) as H. rewrite Nat.sub_0_r in H. specialize (H Hz).
  destruct (mul_add _ _ _ _ _ ds) as [[r j] rest]. destruct H as (Hv & Hr & Hl & H0 & _ & Hz'). rewrite Nat.sub_0_r in Hz'.
  pose proof (digits_bound base ds Hbase Hds) as Hb1. pose proof (digits_bound base r Hbase Hr) as Hb2.
  assert (Hstep : val base ds * mul + d <= horner (val base ds) (d :: cs)).
  { unfold horner. cbn [fold_left]. apply horner_mono; [nia|]. eapply Forall_impl; [exact Hcs|]. unfold digit_in. lia. }
  assert (rest = 0) as -> by nia. cbn [Z.eqb]. assert (Hvr : val base r = val base ds * mul + d) by nia.
  destruct (IH cs r j Hm Hcs Hr Hz') as (ds' & len' & E & Hv' & Hd'' & Hz''); [|exists ds', len'].
  - rewrite Hvr. unfold zlen. by rewrite Hl.
  - split_and!; [done| |done..]. rewrite Hv', Hvr. done.
Qed.

End Convert.

(** The buffers are large enough: 100 bytes need at most 138 characters, and
    1000 characters at most 733 bytes. *)
Lemma size_enough mul base a b n : 0 < mul -> 1 < base -> 0 < a -> 0 < b -> mul ^ b <= base ^ a -> 0 <= n ->
  mul ^ n < base ^ (n * a / b + 1).
Proof.
  intros Hm Hb Ha Hb' Hpow Hn. pose proof (Z.div_mod (n * a) b ltac:(lia)). pose proof (Z.mod_pos_bound (n * a) b ltac:(lia)).
  set (k := n * a / b + 1) in *. assert (0 <= n * a / b) by (apply Z.div_pos; nia).
  apply (Z.pow_lt_mono_l_iff _ _ b); [apply Z.pow_nonneg; lia|apply Z.pow_nonneg; lia|done|].
  rewrite <-!Z.pow_mul_r by lia. apply Z.le_lt_trans with (base ^ (a * n)).
  - rewrite (Z.mul_comm n b), !Z.pow_mul_r by lia. apply Z.pow_le_mono_l. split; [apply Z.pow_nonneg; lia|done].
  - apply Z.pow_lt_mono_r; subst k; nia.
Qed.

Lemma encode_size n : 0 <= n -> 256 ^ n < 58 ^ (n * 138 / 100 + 1).
Proof. apply size_enough; lia. Qed.
Lemma decode_size n : 0 <= n -> 58 ^ n < 256 ^ (n * 733 / 1000 + 1).
Proof. apply size_enough; lia. Qed.

(** ** Round trips *)

Definition alpha (d : Z) : Z := nth (Z.to_nat d) pszBase58 0.

Lemma alpha_ok d : digit_in 58 d ->
  strchr (alpha d) pszBase58 = Some d /\ isspace (alpha d) = false /\ alpha d <> 0 /\ (alpha d =? 49) = (d =? 0).
Proof.
  intros Hd. assert (H : forallb (fun i => let d := Z.of_nat i in
    bool_decide (strchr (alpha d) pszBase58 = Some d) && negb (isspace (alpha d)) && negb (alpha d =? 0) &&
    eqb (alpha d =? 49) (d =? 0)) (seq 0 58) = true) by (by vm_compute).
  rewrite forallb_forall in H. specialize (H (Z.to_nat d) ltac:(apply in_seq; unfold digit_in in Hd; lia)).
  rewrite Z2Nat.id in H by (unfold digit_in in Hd; lia). cbv zeta in H. rewrite !andb_true_iff in H.
  destruct H as [[[H1 H2] H3] H4]. apply bool_decide_eq_true in H1. apply negb_true_iff in H2. apply eqb_prop in H4.
  split_and!; try done. intros H0. by rewrite H0 in H3.
Qed.

Lemma count_front_split x l : l = repeat x (count_front x l) ++ drop (count_front x l) l /\
  (forall c r, drop (count_front x l) l = c :: r -> c <> x).
Proof.
  induction l as [|c l [E H]]; [done|]. cbn [count_front]. destruct (Z.eqb_spec c x) as [->|Hc].
  - cbn. by rewrite <-E.
  - cbn. split; [done|]. by intros ? ? [= <- _].
Qed.
Lemma count_front_app x n l : (forall c r, l = c :: r -> c <> x) -> count_front x (repeat x n ++ l) = n.
Proof.
  intros H. induction n as [|n IH]; cbn; [|by rewrite Z.eqb_refl, IH]. destruct l as [|c l]; [done|]. cbn.
  destruct (Z.eqb_spec c x); [|done]. by destruct (H c l eq_refl).
Qed.

Lemma EncodeBase58_spec v : bytes_ok v -> exists out,
  EncodeBase58 v = Some (repeat 49 (count_front 0 v) ++ map alpha (rev out)) /\
  val 58 out = val 256 (rev (drop (count_front 0 v) v)) /\ Forall (digit_in 58) out /\ top_nonzero out.
Proof.
  intros Hv. unfold EncodeBase58. set (input := drop (count_front 0 v) v). pose proof (zlen_nonneg input).
  assert (Hi : Forall (digit_in 256) input) by (by apply bytes_ok_drop).
  set (size := Z.to_nat (zlen input * 138 / 100 + 1)).
  assert (Hsize : horner 256 (val 58 (repeat 0 size)) input < 58 ^ zlen (repeat 0 size)).
  { rewrite val_zeroes, horner_val. pose proof (digits_bound 256 (rev input) ltac:(lia) ltac:(by apply Forall_rev)) as Hb.
    unfold zlen in Hb at 1. rewrite length_rev in Hb. fold (zlen input) in Hb. pose proof (encode_size (zlen input) ltac:(lia)).
    unfold zlen at 2. rewrite repeat_length. subst size. rewrite Z2Nat.id by (pose proof (Z.div_pos (zlen input * 138) 100); lia). lia. }
  destruct (convert_spec 256 58 ltac:(lia) ltac:(lia) Some input input (repeat 0 size) 0) as (ds & len & E & Hval & Hd & Hz); try done.
  { apply Forall_forall. intros d Hd. apply list_elem_of_In, repeat_spec in Hd as ->. unfold digit_in. lia. }
  { unfold zero_from. cbn. rewrite repeat_length. by rewrite Nat.sub_0_r. }
  rewrite E. destruct (stripped 58 ds len ltac:(lia) Hd Hz) as (Hv' & Hd' & Ht).
  exists (rev (skip_zeroes (rev (take len ds)))). rewrite rev_involutive. split; [done|].
  rewrite Hv', Hval, val_zeroes, horner_val. split; [lia|done].
Qed.

Lemma c_str_id s : Forall (fun c => c <> 0) s -> c_str s = s.
Proof. induction 1 as [|c s Hc _ IH]; cbn; [done|]. destruct (Z.eqb_spec c 0); [done|]. by rewrite IH. Qed.
Lemma take_token_all s : Forall (fun c => isspace c = false) s -> take_token s = (s, []).
Proof. induction 1 as [|c s Hc _ IH]; cbn; [done|]. by rewrite Hc, IH. Qed.
Lemma drop_space_58 s : Forall (fun c => isspace c = false) s -> drop_space s = s.
Proof. destruct 1 as [|c s Hc _]; cbn; [done|]. by rewrite Hc. Qed.

Lemma repeat_Forall {A} (P : A -> Prop) x n : P x -> Forall P (repeat x n).
Proof. intros HP. by apply List.Forall_forall; intros c ->%repeat_spec. Qed.

Lemma DecodeBase58_spec z out : Forall (digit_in 58) out -> top_nonzero out -> exists body,
  DecodeBase58 (repeat 49 z ++ map alpha (rev out)) = Some (Some (repeat 0 z ++ rev body)) /\
  val 256 body = val 58 out /\ Forall (digit_in 256) body /\ top_nonzero body.
Proof.
  intros Ho Ht. set (txt := map alpha (rev out)). assert (Hro : Forall (digit_in 58) (rev out)) by (by apply Forall_rev).
  assert (Hsp : Forall (fun c => isspace c = false) txt).
  { apply Forall_map. eapply Forall_impl; [exact Hro|]. intros d Hd. apply (alpha_ok d Hd). }
  assert (Hnz : Forall (fun c => c <> 0) txt).
  { apply Forall_map. eapply Forall_impl; [exact Hro|]. intros d Hd. apply (alpha_ok d Hd). }
  assert (Hfront : forall c r, txt = c :: r -> c <> 49).
  { intros c r E. subst txt. destruct (rev out) as [|d ds] eqn:Er; [done|]. cbn [map] in E. injection E as <- _.
    apply Forall_cons in Hro as [Hd _]. destruct (alpha_ok d Hd) as (_ & _ & _ & H49). apply (f_equal (@rev Z)) in Er.
    rewrite rev_involutive in Er. subst out. unfold top_nonzero in Ht. cbn [rev] in Ht. rewrite List.last_last in Ht.
    intros E. rewrite E in H49. symmetry in H49. by apply Z.eqb_eq in H49. }
  unfold DecodeBase58. rewrite c_str_id, drop_space_58 by (apply Forall_app; split; [by apply repeat_Forall|done]).
  rewrite count_front_app by done. rewrite drop_app_length' by (by rewrite repeat_length).
  rewrite take_token_all by done. set (size := Z.to_nat (zlen txt * 733 / 1000 + 1)). pose proof (zlen_nonneg txt).
  assert (Hlen : zlen txt = zlen out) by (unfold zlen; subst txt; by rewrite length_map, length_rev).
  assert (Hsize : horner 58 (val 256 (repeat 0 size)) (rev out) < 256 ^ zlen (repeat 0 size)).
  { rewrite val_zeroes, horner_val, rev_involutive. pose proof (digits_bound 58 out ltac:(lia) Ho) as Hb.
    pose proof (decode_size (zlen out) ltac:(lia)). unfold zlen at 2. rewrite repeat_length. subst size.
    rewrite Hlen, Z2Nat.id by (pose proof (Z.div_pos (zlen out * 733) 1000); lia). lia. }
  destruct (convert_spec 58 256 ltac:(lia) ltac:(lia) (fun c => strchr c pszBase58) txt (rev out) (repeat 0 size) 0)
    as (ds & len & E & Hval & Hd & Hz); try done.
  { subst txt. rewrite map_map. apply map_ext_in. intros d Hd. rewrite List.Forall_forall in Hro. apply (alpha_ok d (Hro d Hd)). }
  { by apply repeat_Forall. }
  { unfold zero_from. cbn. rewrite repeat_length. by rewrite Nat.sub_0_r. }
  rewrite E. cbn [drop_space]. destruct (stripped 256 ds len ltac:(lia) Hd Hz) as (Hv' & Hd' & Htop).
  exists (rev (skip_zeroes (rev (take len ds)))). rewrite rev_involutive. split; [done|].
  rewrite Hv', Hval, val_zeroes, horner_val, rev_involutive. split; [lia|done].
Qed.

(** No assertion of the two conversions fails, and decoding inverts encoding. *)
Lemma base58_roundtrip v : bytes_ok v -> exists s, EncodeBase58 v = Some s /\ DecodeBase58 s = Some (Some v).
Proof.
  intros Hv. destruct (EncodeBase58_spec v Hv) as (out & E & Hval & Ho & Ht). eexists. split; [exact E|].
  destruct (DecodeBase58_spec (count_front 0 v) out Ho Ht) as (body & -> & Hval' & Hb & Htb).
  destruct (count_front_split 0 v) as [Hs Hne]. set (input := drop (count_front 0 v) v) in *.
  assert (body = rev input) as ->.
  { apply (digits_inj 256); [lia|done|apply Forall_rev; by apply bytes_ok_drop|done| |congruence].
    destruct input as [|c r]; [done|]. apply top_nonzero_rev. by apply (Hne c r). }
  by rewrite rev_involutive, <-Hs.
Qed.

Lemma Hash_ok parts : bytes_ok (sha256.Hash parts).
Proof. unfold sha256.Hash, sha256.CHash256_Finalize. apply sha256.out_bytes_ok. Qed.
Lemma length_Hash_take parts : length (take 4 (sha256.Hash parts)) = 4%nat.
Proof. rewrite length_take. unfold sha256.Hash, sha256.CHash256_Finalize, sha256.CSHA256_Finalize. rewrite sha256.length_out_bytes. done. Qed.

Lemma base58check_roundtrip v : bytes_ok v -> exists s, EncodeBase58Check v = Some s /\ DecodeBase58Check s = Some (Some v).
Proof.
  intros Hv. unfold EncodeBase58Check, DecodeBase58Check. pose proof (length_Hash_take [v]) as Hl.
  destruct (base58_roundtrip (v ++ take 4 (sha256.Hash [v]))) as (s & Hs & Hd).
  { apply bytes_ok_app. split; [done|]. apply bytes_ok_take, Hash_ok. }
  exists s. split; [done|]. rewrite Hd. unfold zlen. rewrite length_app, Hl.
  destruct (Z.ltb_spec (Z.of_nat (length v + 4)) 4); [lia|]. replace (length v + 4 - 4)%nat with (length v) by lia.
  rewrite take_app_length, drop_app_length. by rewrite bytes_eqb_refl.
Qed.

(** ** Destinations *)

Definition prefixes_ok (p : AddressParams) : Prop :=
  exists a b c, PUBKEY_ADDRESS p = [a] /\ SCRIPT_ADDRESS p = [b] /\ SECRET_KEY p = [c] /\ a <> b /\ byte_ok a /\ byte_ok b /\ byte_ok c.
Lemma main_prefixes_ok : prefixes_ok main_prefixes.
Proof. exists 76, 139, 204. unfold byte_ok. split_and!; (done || lia). Qed.
Lemma test_prefixes_ok : prefixes_ok test_prefixes.
Proof. exists 140, 200, 247. unfold byte_ok. split_and!; (done || lia). Qed.

Definition wf_destination (d : CTxDestination) : Prop :=
  match d with CNoDestination => True | CKeyID id | CScriptID id => length id = 20%nat /\ bytes_ok id end.

Lemma SetString_ToString v data : bytes_ok (v :: data) ->
  exists s, ToString (mkBase58Data [v] data) = Some s /\ SetString s = Some (Some (mkBase58Data [v] data)).
Proof.
  intros H. unfold ToString, SetString. cbn [vchVersion vchData app]. destruct (base58check_roundtrip (v :: data) H) as (s & -> & Hd).
  exists s. by rewrite Hd.
Qed.

Lemma destination_roundtrip p d : prefixes_ok p -> wf_destination d -> DecodeDestination p (EncodeDestination p d) = d.
Proof.
  intros (a & b & c & Ha & Hb & _ & Hab & Hoa & Hob & _) Hd.
  assert (Hne : bytes_eqb [b] [a] = false) by (apply bytes_eqb_neq; intros [= ->]; done).
  destruct d as [|id|id]; unfold EncodeDestination, DecodeDestination, address_Set, address_IsValid, address_Get, address_IsValid; cbn [vchVersion vchData].
  - change (zlen []  =? 20) with false. cbn [andb negb]. by vm_compute.
  - destruct Hd as [Hl Ho]. unfold zlen. rewrite Hl, bytes_eqb_refl. cbn [andb orb negb]. rewrite Ha.
    destruct (SetString_ToString a id) as (s & -> & Hs); [by constructor|]. change (Z.of_nat 20 =? 20) with true. cbn [andb negb]. change (default [] (Some s)) with s. rewrite Hs. cbn [vchVersion vchData]. rewrite Hl, bytes_eqb_refl. done.
  - destruct Hd as [Hl Ho]. unfold zlen. rewrite Hl, bytes_eqb_refl, orb_true_r. cbn [andb orb negb]. rewrite Hb.
    destruct (SetString_ToString b id) as (s & -> & Hs); [by constructor|]. change (Z.of_nat 20 =? 20) with true. cbn [andb negb]. change (default [] (Some s)) with s. rewrite Hs. cbn [vchVersion vchData]. rewrite Ha, Hl, Hne, bytes_eqb_refl. done.
Qed.

Lemma EncodeDestination_inj p d e : prefixes_ok p -> wf_destination d -> wf_destination e ->
  EncodeDestination p d = EncodeDestination p e -> d = e.
Proof. intros Hp Hd He E. by rewrite <-(destination_roundtrip p d Hp Hd), E, (destination_roundtrip p e Hp He). Qed.

Section SecretRoundtrip.
Context `{Secp256k1}.

(** A valid key comes back from its text, with its kind. *)
Lemma secret_roundtrip p k : prefixes_ok p -> fValid k = true -> ec_seckey_verify (keydata k) = true ->
  length (keydata k) = 32%nat -> bytes_ok (keydata k) ->
  exists s d, ToString (secret_SetKey p k) = Some s /\ secret_SetString p s = Some d /\ secret_GetKey d = k.
Proof.
  intros (a & b & c & _ & _ & Hc & _ & _ & _ & Hoc) Hv Hk Hl Ho. unfold secret_SetKey. rewrite Hc.
  destruct (SetString_ToString c (keydata k ++ if fCompressed k then [1] else [])) as (s & Hs & Hd).
  { constructor; [done|]. apply bytes_ok_app. split; [done|]. destruct (fCompressed k); repeat constructor; unfold byte_ok; lia. }
  exists s, (mkBase58Data [c] (keydata k ++ if fCompressed k then [1] else [])). split; [exact Hs|]. unfold secret_SetString. rewrite Hd. unfold secret_IsValid, zlen. cbn [vchVersion vchData].
  rewrite length_app, Hl, Hc, bytes_eqb_refl, app_nth2, Hl, Nat.sub_diag by lia.
  destruct k as [kv kc kd]; cbn [fValid fCompressed keydata] in *. subst kv. destruct kc.
  - split; [reflexivity|]. unfold secret_GetKey, CKey_Set, zlen. cbn [vchData]. rewrite take_app_length' by done.
    rewrite length_app, Hl, app_nth2, Hl, Nat.sub_diag by lia. cbn. by rewrite Hk.
  - split; [reflexivity|]. unfold secret_GetKey, CKey_Set, zlen. cbn [vchData]. rewrite take_app_length' by done.
    rewrite app_nil_r, Hl. cbn. by rewrite Hk.
Qed.

End SecretRoundtrip.
