(* ===== verification/Regex.v ===== *)
(** * Regular expressions

    [std::regex_match] for the expressions the program writes: character
    classes, sequences, alternatives and repetitions, always against the whole
    string. The matcher takes derivatives; [matches] is its meaning. *)

From S2P Require Import Prelude.

Local Open Scope Z_scope.

Inductive regex :=
  | RNone
  | REps
  | RClass (p : Z -> bool)
  | RSeq (a b : regex)
  | RAlt (a b : regex)
  | RStar (a : regex).

Fixpoint nullable (r : regex) : bool :=
  match r with
  | RNone | RClass _ => false
  | REps | RStar _ => true
  | RSeq a b => nullable a && nullable b
  | RAlt a b => nullable a || nullable b
  end.

Fixpoint deriv (c : Z) (r : regex) : regex :=
  match r with
  | RNone | REps => RNone
  | RClass p => if p c then REps else RNone
  | RSeq a b => if nullable a then RAlt (RSeq (deriv c a) b) (deriv c b) else RSeq (deriv c a) b
  | RAlt a b => RAlt (deriv c a) (deriv c b)
  | RStar a => RSeq (deriv c a) (RStar a)
  end.

Fixpoint regex_match (s : bytes) (r : regex) : bool :=
  match s with
  | [] => nullable r
  | c :: s => regex_match s (deriv c r)
  end.

(** Classes and repetitions as the patterns write them. *)
Definition chars (l : bytes) (c : Z) : bool := existsb (Z.eqb c) l.
Definition range (a b c : Z) : bool := (a <=? c) && (c <=? b).
Definition rany : regex := RClass (fun c => negb ((c =? 10) || (c =? 13))).
Definition rplus (r : regex) : regex := RSeq r (RStar r).
Fixpoint rmin (n : nat) (r : regex) : regex := match n with O => RStar r | S n => RSeq r (rmin n r) end.
Fixpoint rword (s : bytes) : regex := match s with [] => REps | c :: s => RSeq (RClass (Z.eqb c)) (rword s) end.

(** ** Meaning *)

Inductive matches : regex -> bytes -> Prop :=
  | m_eps : matches REps []
  | m_class p c : p c = true -> matches (RClass p) [c]
  | m_seq a b s t : matches a s -> matches b t -> matches (RSeq a b) (s ++ t)
  | m_alt_l a b s : matches a s -> matches (RAlt a b) s
  | m_alt_r a b s : matches b s -> matches (RAlt a b) s
  | m_star_nil a : matches (RStar a) []
  | m_star_app a s t : matches a s -> matches (RStar a) t -> matches (RStar a) (s ++ t).

Lemma matches_seq a b w : matches (RSeq a b) w <-> exists s t, w = s ++ t /\ matches a s /\ matches b t.
Proof.
  split; [|intros (s & t & -> & Ha & Hb); by constructor].
  remember (RSeq a b) as r eqn:Er. intros H. destruct H; try done. injection Er as -> ->. eauto.
Qed.

Lemma nullable_matches r : nullable r = true <-> matches r [].
Proof.
  induction r as [| |p|a IHa b IHb|a IHa b IHb|a IHa]; cbn [nullable]; (split; intros H).
  - done.
  - inv H.
  - constructor.
  - done.
  - done.
  - inv H.
  - apply andb_true_iff in H as [Ha Hb]. apply (m_seq a b [] []); [by apply IHa|by apply IHb].
  - apply matches_seq in H as (s & t & E & Ha & Hb). symmetry in E. apply app_nil in E as [-> ->]. by rewrite (proj2 IHa), (proj2 IHb).
  - apply orb_true_iff in H as [Ha|Hb]; [apply m_alt_l; by apply IHa|apply m_alt_r; by apply IHb].
  - apply orb_true_iff. inv H; [left; by apply IHa|right; by apply IHb].
  - constructor.
  - done.
Qed.

(** A word of a star that starts with [c] starts with a nonempty part. *)
Lemma star_cons a c s : matches (RStar a) (c :: s) ->
  exists s1 s2, s = s1 ++ s2 /\ matches a (c :: s1) /\ matches (RStar a) s2.
Proof.
  remember (RStar a) as r eqn:Er. remember (c :: s) as w eqn:Ew. intros H. revert c s Ew.
  induction H as [|p0 c0 Hp|a0 b0 s0 t0 H1 IH1 H2 IH2|a0 b0 s0 H1 IH1|a0 b0 s0 H1 IH1|a0|a0 s0 t0 Ha _ Hs IH];
    intros c s Ew; try done. injection Er as ->.
  destruct s0 as [|c0 s0]; [by apply IH|]. cbn in Ew. injection Ew as -> <-. by exists s0, t0.
Qed.

Lemma deriv_matches r : forall c s, matches (deriv c r) s <-> matches r (c :: s).
Proof.
  induction r as [| |p|a IHa b IHb|a IHa b IHb|a IHa]; intros c s; cbn [deriv].
  - split; intros H; inv H.
  - split; intros H; inv H.
  - destruct (p c) eqn:E; split; intros H; inv H; [by constructor|constructor|congruence].
  - assert (matches (RSeq (deriv c a) b) s <-> exists s1 s2, s = s1 ++ s2 /\ matches a (c :: s1) /\ matches b s2) as Hl.
    { rewrite matches_seq. by setoid_rewrite IHa. }
    assert (matches (RSeq a b) (c :: s) <->
      (exists s1 s2, s = s1 ++ s2 /\ matches a (c :: s1) /\ matches b s2) \/ (matches a [] /\ matches b (c :: s))) as Hr.
    { split.
      - intros (s0 & t & E & Ha & Hb)%matches_seq. destruct s0 as [|c0 s0]; cbn in E; [subst; by right|].
        injection E as <- ->. left. eauto.
      - intros [(s1 & s2 & -> & Ha & Hb)|[Ha Hb]]; [exact (m_seq a b (c :: s1) s2 Ha Hb)|exact (m_seq a b [] (c :: s) Ha Hb)]. }
    rewrite Hr. destruct (nullable a) eqn:En.
    + apply nullable_matches in En. rewrite <-Hl, <-IHb. split.
      * intros H. inv H; [by left|by right].
      * intros [H|[_ H]]; [by apply m_alt_l|by apply m_alt_r].
    + rewrite Hl. split; [by left|]. intros [H|[H _]]; [done|]. apply nullable_matches in H. congruence.
  - split; intros H; inv H.
    + apply m_alt_l. by apply IHa.
    + apply m_alt_r. by apply IHb.
    + apply m_alt_l. by apply IHa.
    + apply m_alt_r. by apply IHb.
  - split.
    + intros (s0 & t & -> & Ha & Hs)%matches_seq. rewrite IHa in Ha. exact (m_star_app a (c :: s0) t Ha Hs).
    + intros (s1 & s2 & -> & Ha & Hs)%star_cons. constructor; [by apply IHa|done].
Qed.

(** The matcher decides the meaning. *)
Lemma regex_match_spec s : forall r, regex_match s r = true <-> matches r s.
Proof.
  induction s as [|c s IH]; intros r; [apply nullable_matches|]. cbn [regex_match]. by rewrite IH, deriv_matches.
Qed.
