(* ===== verification/AssetNames.v ===== *)
(** * Asset names

    The grammar of asset names of src/src/assets/assets.cpp: the regular
    expressions as they are written there, [IsAssetNameValid] with the type it
    assigns, and [GetParentName] with [TopLevelRootName] of
    src/src/assets/xaccount.cpp. *)

From S2P Require Import Prelude Regex.

Local Open Scope Z_scope.

Definition MIN_ASSET_LENGTH : Z := 3.
Definition MAX_ROOT_NAME_LENGTH : Z := 32.
Definition MAX_NAME_LENGTH : Z := 33.
Definition MAX_CHANNEL_NAME_LENGTH : Z := 12.

Inductive AssetType :=
  | ROOT | SUB | UNIQUE | MSGCHANNEL | QUALIFIER | SUB_QUALIFIER | RESTRICTED | VOTE | REISSUE | OWNER
  | NULL_ADD_QUALIFIER | INVALID.
#[global] Instance AssetType_eq_dec : EqDecision AssetType.
Proof. solve_decision. Defined.

(** ** The expressions *)

(** [[A-Z0-9._]] and [[._]] *)
Definition name_char (c : Z) : bool := range 65 90 c || range 48 57 c || chars [46; 95] c.
Definition punct (c : Z) : bool := chars [46; 95] c.
Definition tag_char (c : Z) : bool :=
  range 65 90 c || range 97 122 c || range 48 57 c || chars (bs "-@$%&*()[]{}_.?:") c.

Definition ROOT_NAME_CHARACTERS : regex := rmin 3 (RClass name_char).
Definition SUB_NAME_CHARACTERS : regex := rplus (RClass name_char).
Definition UNIQUE_TAG_CHARACTERS : regex := rplus (RClass tag_char).
Definition MSG_CHANNEL_TAG_CHARACTERS : regex :=
  rplus (RClass (fun c => range 65 90 c || range 97 122 c || range 48 57 c || (c =? 95))).
Definition VOTE_TAG_CHARACTERS : regex := rplus (RClass name_char).
Definition QUALIFIER_NAME_CHARACTERS : regex := RSeq (rword [35]) (rmin 3 (RClass name_char)).
Definition SUB_QUALIFIER_NAME_CHARACTERS : regex := RSeq (rword [35]) (rplus (RClass name_char)).
Definition RESTRICTED_NAME_CHARACTERS : regex := RSeq (rword [36]) (rmin 3 (RClass name_char)).

Definition DOUBLE_PUNCTUATION : regex := RSeq (RStar rany) (RSeq (rmin 2 (RClass punct)) (RStar rany)).
Definition LEADING_PUNCTUATION : regex := RSeq (RClass punct) (RStar rany).
Definition TRAILING_PUNCTUATION : regex := RSeq (RStar rany) (RClass punct).
Definition QUALIFIER_LEADING_PUNCTUATION : regex :=
  RSeq (RClass (chars [35; 36])) (RSeq (RClass punct) (RStar rany)).

(** [[^^~#!]] and [[^~#!\/]] *)
Definition before_tag (c : Z) : bool := negb (chars (bs "^~#!") c).
Definition in_tag (c : Z) : bool := negb (chars (bs "~#!/") c).
Definition tagged (d : Z) : regex := RSeq (rplus (RClass before_tag)) (RSeq (RClass (Z.eqb d)) (rplus (RClass in_tag))).
Definition UNIQUE_INDICATOR : regex := tagged 35.
Definition MSG_CHANNEL_INDICATOR : regex := tagged 126.
Definition OWNER_INDICATOR : regex := RSeq (rplus (RClass before_tag)) (rword [33]).
Definition VOTE_INDICATOR : regex := tagged 94.
Definition QUALIFIER_INDICATOR : regex := RSeq (rword [35]) (rmin 3 (RClass name_char)).
Definition SUB_QUALIFIER_INDICATOR : regex :=
  RSeq (rword [35]) (RSeq (rplus (RClass name_char)) (RSeq (rword (bs "/#")) (rplus (RClass name_char)))).
Definition RESTRICTED_INDICATOR : regex := RSeq (rword [36]) (rmin 3 (RClass name_char)).

Definition reserved_names : list bytes :=
  map bs ["RVN"; "RAVEN"; "RAVENCOIN"; "XFER"; "XCOIN"; "#RVN"; "#RAVEN"; "#RAVENCOIN"; "#XFER"; "#XCOIN"]%string.
Definition RAVEN_NAMES : regex := foldr (fun w r => RAlt (rword w) r) RNone reserved_names.

(** ** The parts of a name *)

Definition IsRootNameValid (name : bytes) : bool :=
  regex_match name ROOT_NAME_CHARACTERS && negb (regex_match name DOUBLE_PUNCTUATION) &&
  negb (regex_match name LEADING_PUNCTUATION) && negb (regex_match name TRAILING_PUNCTUATION) &&
  negb (regex_match name RAVEN_NAMES).
Definition IsQualifierNameValid (name : bytes) : bool :=
  regex_match name QUALIFIER_NAME_CHARACTERS && negb (regex_match name DOUBLE_PUNCTUATION) &&
  negb (regex_match name QUALIFIER_LEADING_PUNCTUATION) && negb (regex_match name TRAILING_PUNCTUATION) &&
  negb (regex_match name RAVEN_NAMES).
Definition IsRestrictedNameValid (name : bytes) : bool :=
  regex_match name RESTRICTED_NAME_CHARACTERS && negb (regex_match name DOUBLE_PUNCTUATION) &&
  negb (regex_match name LEADING_PUNCTUATION) && negb (regex_match name TRAILING_PUNCTUATION) &&
  negb (regex_match name RAVEN_NAMES).
Definition IsSubQualifierNameValid (name : bytes) : bool :=
  regex_match name SUB_QUALIFIER_NAME_CHARACTERS && negb (regex_match name DOUBLE_PUNCTUATION) &&
  negb (regex_match name LEADING_PUNCTUATION) && negb (regex_match name TRAILING_PUNCTUATION).
Definition IsSubNameValid (name : bytes) : bool :=
  regex_match name SUB_NAME_CHARACTERS && negb (regex_match name DOUBLE_PUNCTUATION) &&
  negb (regex_match name LEADING_PUNCTUATION) && negb (regex_match name TRAILING_PUNCTUATION).
Definition IsUniqueTagValid (tag : bytes) : bool := regex_match tag UNIQUE_TAG_CHARACTERS.
Definition IsVoteTagValid (tag : bytes) : bool := regex_match tag VOTE_TAG_CHARACTERS.
Definition IsMsgChannelTagValid (tag : bytes) : bool :=
  regex_match tag MSG_CHANNEL_TAG_CHARACTERS && negb (regex_match tag DOUBLE_PUNCTUATION) &&
  negb (regex_match tag LEADING_PUNCTUATION) && negb (regex_match tag TRAILING_PUNCTUATION).

(** [boost::split] at every [d]: the first part and the others. *)
Fixpoint split_at (d : Z) (s : bytes) : bytes * list bytes :=
  match s with
  | [] => ([], [])
  | c :: s => let '(p, ps) := split_at d s in if c =? d then ([], p :: ps) else (c :: p, ps)
  end.
Definition last_part (d : Z) (s : bytes) : bytes := let '(p, ps) := split_at d s in List.last ps p.

Definition IsNameValidBeforeTag (name : bytes) : bool :=
  let '(root, subs) := split_at 47 name in IsRootNameValid root && forallb IsSubNameValid subs.
Definition IsQualifierNameValidBeforeTag (name : bytes) : bool :=
  let '(front, subs) := split_at 47 name in
  IsQualifierNameValid front && (zlen subs <? 2) && forallb IsSubQualifierNameValid subs.
Definition IsAssetNameASubasset (name : bytes) : bool :=
  let '(root, subs) := split_at 47 name in IsRootNameValid root && (0 <? zlen subs).
Definition IsAssetNameASubQualifier (name : bytes) : bool :=
  let '(front, subs) := split_at 47 name in IsQualifierNameValid front && (0 <? zlen subs).

(** ** Whole names *)

Definition IsTypeCheckNameValid (type : AssetType) (name : bytes) : bool :=
  match type with
  | UNIQUE =>
      if MAX_NAME_LENGTH <? zlen name then false else
      IsNameValidBeforeTag (split_at 35 name).1 && IsUniqueTagValid (last_part 35 name)
  | MSGCHANNEL =>
      if MAX_NAME_LENGTH <? zlen name then false else
      if MAX_CHANNEL_NAME_LENGTH <? zlen (last_part 126 name) then false else
      IsNameValidBeforeTag (split_at 126 name).1 && IsMsgChannelTagValid (last_part 126 name)
  | OWNER =>
      if MAX_NAME_LENGTH <? zlen name then false else IsNameValidBeforeTag (take (length name - 1) name)
  | VOTE =>
      if MAX_NAME_LENGTH <? zlen name then false else
      IsNameValidBeforeTag (split_at 94 name).1 && IsVoteTagValid (last_part 94 name)
  | QUALIFIER | SUB_QUALIFIER =>
      if MAX_NAME_LENGTH <? zlen name then false else IsQualifierNameValidBeforeTag name
  | RESTRICTED => if MAX_NAME_LENGTH <? zlen name then false else IsRestrictedNameValid name
  | _ =>
      if MAX_ROOT_NAME_LENGTH <? zlen name then false else
      if negb (IsAssetNameASubasset name) && (zlen name <? MIN_ASSET_LENGTH) then false else
      IsNameValidBeforeTag name
  end.

(** The verdict and the type; an invalid name has the type [INVALID]. *)
Definition typed (type : AssetType) (name : bytes) : bool * AssetType :=
  if IsTypeCheckNameValid type name then (true, type) else (false, INVALID).
Definition IsAssetNameValid (name : bytes) : bool * AssetType :=
  if 48 <? zlen name then (false, INVALID)
  else if regex_match name UNIQUE_INDICATOR then typed UNIQUE name
  else if regex_match name MSG_CHANNEL_INDICATOR then typed MSGCHANNEL name
  else if regex_match name OWNER_INDICATOR then typed OWNER name
  else if regex_match name VOTE_INDICATOR then typed VOTE name
  else if regex_match name QUALIFIER_INDICATOR
  then if IsTypeCheckNameValid QUALIFIER name
       then (true, if IsAssetNameASubQualifier name then SUB_QUALIFIER else QUALIFIER) else (false, INVALID)
  else if regex_match name SUB_QUALIFIER_INDICATOR
  then if IsTypeCheckNameValid SUB_QUALIFIER name
       then (true, if IsAssetNameASubQualifier name then SUB_QUALIFIER else INVALID) else (false, INVALID)
  else if regex_match name RESTRICTED_INDICATOR then typed RESTRICTED name
  else typed (if IsAssetNameASubasset name then SUB else ROOT) name.

Definition IsAssetNameARoot (name : bytes) : bool :=
  let '(ok, type) := IsAssetNameValid name in ok && bool_decide (type = ROOT).

(** The part before the last [d]; the whole without one. *)
Fixpoint before_last (d : Z) (s : bytes) : option bytes :=
  match s with
  | [] => None
  | c :: s => match before_last d s with
              | Some p => Some (c :: p)
              | None => if c =? d then Some [] else None
              end
  end.
Definition GetParentName (name : bytes) : bytes :=
  match IsAssetNameValid name with
  | (false, _) => []
  | (true, SUB) | (true, SUB_QUALIFIER) => default name (before_last 47 name)
  | (true, UNIQUE) => default name (before_last 35 name)
  | (true, MSGCHANNEL) => default name (before_last 126 name)
  | (true, VOTE) => default name (before_last 94 name)
  | (true, _) => name
  end.

(** At most 32 steps up. *)
Fixpoint up_to_root (n : nat) (root : bytes) : bytes :=
  match n with
  | O => root
  | S n =>
      let parent := GetParentName root in
      if (zlen parent =? 0) || bytes_eqb parent root then root else up_to_root n parent
  end.
Definition TopLevelRootName (assetName : bytes) : bytes := up_to_root 32 assetName.

(** ** The expressions in words *)

Lemma matches_class p s : matches (RClass p) s <-> exists c, s = [c] /\ p c = true.
Proof. split; [intros H; inv H; eauto|]. intros (c & -> & H). by constructor. Qed.

Lemma matches_star p s : matches (RStar (RClass p)) s <-> forallb p s = true.
Proof.
  split.
  - remember (RStar (RClass p)) as r eqn:Er. intros H.
    induction H as [|p0 c0 Hp|a0 b0 s0 t0 H1 IH1 H2 IH2|a0 b0 s0 H1 IH1|a0 b0 s0 H1 IH1|a0|a0 s0 t0 Ha _ Hs IH]; try done.
    injection Er as ->. apply matches_class in Ha as (c & -> & Hc). cbn. by rewrite Hc, IH.
  - induction s as [|c s IH]; cbn; [constructor|]. intros [Hc Hs]%andb_true_iff.
    apply (m_star_app (RClass p) [c] s); [by constructor|by apply IH].
Qed.

Lemma matches_class_seq p r s : matches (RSeq (RClass p) r) s <-> exists c t, s = c :: t /\ p c = true /\ matches r t.
Proof.
  rewrite matches_seq. split.
  - intros (s1 & t & -> & (c & -> & Hc)%matches_class & Hr). by exists c, t.
  - intros (c & t & -> & Hc & Hr). exists [c], t. split; [done|]. split; [by constructor|done].
Qed.

Lemma matches_rmin p n : forall s, matches (rmin n (RClass p)) s <-> (n <= length s)%nat /\ forallb p s = true.
Proof.
  induction n as [|n IH]; intros s; cbn [rmin]; [rewrite matches_star; split; [by intros; split; [lia|]|by intros []]|].
  rewrite matches_class_seq. setoid_rewrite IH. split.
  - intros (c & t & -> & Hc & Hn & Ht). cbn. rewrite Hc, Ht. split; [lia|done].
  - intros [Hn Hs]. destruct s as [|c s]; [cbn in Hn; lia|]. cbn in Hn, Hs. apply andb_true_iff in Hs as [Hc Hs].
    exists c, s. split_and!; [done|done|lia|done].
Qed.

Lemma matches_rplus p s : matches (rplus (RClass p)) s <-> s <> [] /\ forallb p s = true.
Proof.
  change (rplus (RClass p)) with (rmin 1 (RClass p)). rewrite matches_rmin. destruct s; cbn [length]; split; intros [? ?]; split; (done || lia).
Qed.

Lemma matches_rword w : forall s, matches (rword w) s <-> s = w.
Proof.
  induction w as [|c w IH]; intros s; cbn [rword].
  - split; [intros H; by inv H|]. intros ->. constructor.
  - rewrite matches_class_seq. split.
    + intros (c' & t & -> & <-%Z.eqb_eq & ->%IH). done.
    + intros ->. exists c, w. split_and!; [done|by apply Z.eqb_eq|by apply IH].
Qed.

(** ** Names in words *)

Definition no_newline (s : bytes) : Prop := Forall (fun c => c <> 10 /\ c <> 13) s.

Lemma matches_any s : no_newline s -> matches (RStar rany) s.
Proof.
  intros Hs. apply matches_star, forallb_forall. intros c Hc. unfold no_newline in Hs. rewrite List.Forall_forall in Hs.
  specialize (Hs c Hc). lia.
Qed.

(** Two punctuation characters in a row; one at the start; one at the end. *)
Definition double_punct (s : bytes) : Prop := exists a x y b, s = a ++ x :: y :: b /\ punct x = true /\ punct y = true.
Definition leading_punct (s : bytes) : Prop := exists x b, s = x :: b /\ punct x = true.
Definition trailing_punct (s : bytes) : Prop := exists a x, s = a ++ [x] /\ punct x = true.
Definition clean (s : bytes) : Prop := ~ double_punct s /\ ~ leading_punct s /\ ~ trailing_punct s.

Lemma punct_newline x : punct x = true -> x <> 10 /\ x <> 13.
Proof. unfold punct, chars. cbn. lia. Qed.

Lemma match_double s : no_newline s -> regex_match s DOUBLE_PUNCTUATION = true <-> double_punct s.
Proof.
  intros Hs. rewrite regex_match_spec. unfold DOUBLE_PUNCTUATION. rewrite matches_seq. split.
  - intros (a & t & -> & _ & (m & b & -> & [Hl Hp]%matches_rmin & _)%matches_seq).
    destruct m as [|x [|y m]]; cbn [length] in Hl; try lia. cbn in Hp. apply andb_true_iff in Hp as [Hx Hp].
    apply andb_true_iff in Hp as [Hy _]. by exists a, x, y, (m ++ b).
  - intros (a & x & y & b & -> & Hx & Hy). unfold no_newline in Hs. apply Forall_app in Hs as [Ha Hb].
    apply Forall_cons in Hb as [_ Hb]. apply Forall_cons in Hb as [_ Hb].
    exists a, (x :: y :: b). split; [done|]. split; [by apply matches_any|]. apply matches_seq. exists [x; y], b.
    split; [done|]. split; [|by apply matches_any]. apply matches_rmin. split; [cbn; lia|]. cbn [forallb]. by rewrite Hx, Hy.
Qed.

Lemma match_leading s : no_newline s -> regex_match s LEADING_PUNCTUATION = true <-> leading_punct s.
Proof.
  intros Hs. rewrite regex_match_spec. unfold LEADING_PUNCTUATION. rewrite matches_class_seq. split.
  - intros (c & t & -> & Hc & _). by exists c, t.
  - intros (x & b & -> & Hx). apply Forall_cons in Hs as [_ Hs]. exists x, b. split_and!; [done..|by apply matches_any].
Qed.

Lemma match_trailing s : no_newline s -> regex_match s TRAILING_PUNCTUATION = true <-> trailing_punct s.
Proof.
  intros Hs. rewrite regex_match_spec. unfold TRAILING_PUNCTUATION. rewrite matches_seq. split.
  - intros (a & t & -> & _ & (x & -> & Hx)%matches_class). by exists a, x.
  - intros (a & x & -> & Hx). unfold no_newline in Hs. apply Forall_app in Hs as [Ha _]. exists a, [x].
    split_and!; [done|by apply matches_any|by constructor].
Qed.

Lemma name_char_range c : name_char c = true -> 46 <= c <= 95 /\ c <> 47 /\ c <> 94.
Proof. unfold name_char, range, chars. cbn. lia. Qed.

Lemma name_chars_newline s : forallb name_char s = true -> no_newline s.
Proof.
  intros H. rewrite forallb_forall in H. apply List.Forall_forall. intros c Hc. specialize (H c Hc). apply name_char_range in H. lia.
Qed.

Lemma match_reserved s : regex_match s RAVEN_NAMES = true <-> s ∈ reserved_names.
Proof.
  rewrite regex_match_spec. unfold RAVEN_NAMES. induction reserved_names as [|w l IH]; cbn [foldr].
  - split; [intros H; inv H|by intros ?%not_elem_of_nil].
  - rewrite elem_of_cons, <-IH, <-matches_rword. split; [intros H; inv H; auto|]. intros [H|H]; [by apply m_alt_l|by apply m_alt_r].
Qed.

Lemma negb_iff (b : bool) P : (b = true <-> P) -> negb b = true <-> ~ P.
Proof. intros <-. destruct b; cbn; split; (done || tauto). Qed.

(** A root name and a sub name, in words. *)
Lemma IsRootNameValid_iff s : IsRootNameValid s = true <->
  3 <= zlen s /\ forallb name_char s = true /\ clean s /\ s ∉ reserved_names.
Proof.
  unfold IsRootNameValid, ROOT_NAME_CHARACTERS, clean. rewrite !andb_true_iff, regex_match_spec, matches_rmin.
  rewrite (negb_iff _ _ (match_reserved s)). unfold zlen. split.
  - intros (((([Hl Hc] & Hd) & Hh) & Ht) & Hr). pose proof (name_chars_newline s Hc) as Hn.
    rewrite (negb_iff _ _ (match_double s Hn)) in Hd. rewrite (negb_iff _ _ (match_leading s Hn)) in Hh.
    rewrite (negb_iff _ _ (match_trailing s Hn)) in Ht. split_and!; (done || lia).
  - intros (Hl & Hc & (Hd & Hh & Ht) & Hr). pose proof (name_chars_newline s Hc) as Hn.
    rewrite (negb_iff _ _ (match_double s Hn)), (negb_iff _ _ (match_leading s Hn)), (negb_iff _ _ (match_trailing s Hn)).
    split_and!; (done || lia).
Qed.

Lemma IsSubNameValid_chars s : IsSubNameValid s = true -> s <> [] /\ forallb name_char s = true.
Proof.
  unfold IsSubNameValid, SUB_NAME_CHARACTERS. rewrite !andb_true_iff, regex_match_spec, matches_rplus. by intros [[[? _] _] _].
Qed.

(** ** Splitting and joining *)

Definition join (d : Z) (p : bytes) (ps : list bytes) : bytes := p ++ concat (map (cons d) ps).

Lemma join_snoc d p ps q : join d p (ps ++ [q]) = join d p ps ++ d :: q.
Proof. unfold join. rewrite map_app, concat_app. cbn. by rewrite app_nil_r, app_assoc. Qed.

Lemma split_at_join d s p ps : split_at d s = (p, ps) -> s = join d p ps.
Proof.
  revert p ps. induction s as [|c s IH]; intros p ps; cbn; [by intros [= <- <-]|].
  destruct (split_at d s) as [q qs]. destruct (Z.eqb_spec c d) as [->|_]; intros [= <- <-];
    unfold join; cbn; f_equal; by apply IH.
Qed.

Lemma split_at_free d s : d ∉ s -> split_at d s = (s, []).
Proof.
  induction s as [|c s IH]; [done|]. rewrite not_elem_of_cons. intros [Hc Hs]. cbn. rewrite (IH Hs).
  destruct (Z.eqb_spec c d); [by subst|done].
Qed.

Lemma split_at_app d s t : d ∉ s -> split_at d (s ++ d :: t) = let '(p, ps) := split_at d t in (s, p :: ps).
Proof.
  induction s as [|c s IH]; cbn; [intros _; destruct (split_at d t); by rewrite Z.eqb_refl|].
  rewrite not_elem_of_cons. intros [Hc Hs]. rewrite (IH Hs). destruct (split_at d t).
  destruct (Z.eqb_spec c d); [by subst|done].
Qed.

Lemma split_join d p ps : d ∉ p -> Forall (fun q => d ∉ q) ps -> split_at d (join d p ps) = (p, ps).
Proof.
  intros Hp Hps. revert p Hp. induction Hps as [|q ps Hq _ IH]; intros p Hp; unfold join; cbn.
  - rewrite app_nil_r. by apply split_at_free.
  - rewrite split_at_app by done. fold (join d q ps). by rewrite IH.
Qed.

Lemma before_last_free d s : d ∉ s -> before_last d s = None.
Proof.
  induction s as [|c s IH]; [done|]. rewrite not_elem_of_cons. intros [Hc Hs]. cbn. rewrite (IH Hs).
  destruct (Z.eqb_spec c d); [by subst|done].
Qed.
Lemma before_last_app d s t : d ∉ t -> before_last d (s ++ d :: t) = Some s.
Proof.
  intros Ht. induction s as [|c s IH]; cbn; [by rewrite before_last_free, Z.eqb_refl|by rewrite IH].
Qed.

(** ** Names before a tag *)

Lemma forallb_not_in (p : Z -> bool) (s : bytes) d : forallb p s = true -> p d = false -> d ∉ s.
Proof. intros H Hd Hin. rewrite forallb_forall in H. apply list_elem_of_In in Hin. specialize (H d Hin). congruence. Qed.

Lemma path_split r ps : IsRootNameValid r = true -> forallb IsSubNameValid ps = true -> split_at 47 (join 47 r ps) = (r, ps).
Proof.
  intros Hr Hps. apply split_join.
  - apply IsRootNameValid_iff in Hr as (_ & Hc & _). by apply (forallb_not_in name_char).
  - rewrite forallb_forall in Hps. apply List.Forall_forall. intros q Hq.
    apply (forallb_not_in name_char); [|done]. by apply IsSubNameValid_chars, Hps.
Qed.

Lemma before_tag_join s : IsNameValidBeforeTag s = true <-> exists r ps, s = join 47 r ps /\
  IsRootNameValid r = true /\ forallb IsSubNameValid ps = true.
Proof.
  unfold IsNameValidBeforeTag. split.
  - destruct (split_at 47 s) as [r ps] eqn:E. intros [Hr Hps]%andb_true_iff. exists r, ps.
    by rewrite <-(split_at_join _ _ _ _ E).
  - intros (r & ps & -> & Hr & Hps). by rewrite path_split, Hr, Hps.
Qed.

Definition path_char (c : Z) : bool := name_char c || (c =? 47).

Lemma path_chars r ps : IsRootNameValid r = true -> forallb IsSubNameValid ps = true -> forallb path_char (join 47 r ps) = true.
Proof.
  intros Hr Hps. unfold join. rewrite forallb_app. apply andb_true_iff. split.
  - apply IsRootNameValid_iff in Hr as (_ & Hc & _). rewrite forallb_forall in *. intros c Hin. unfold path_char. by rewrite Hc.
  - induction ps as [|q ps IH]; [done|]. cbn [forallb] in Hps. apply andb_true_iff in Hps as [Hq Hps].
    cbn [map concat]. rewrite forallb_app, (IH Hps), andb_true_r. apply IsSubNameValid_chars in Hq as [_ Hc].
    cbn [forallb]. apply andb_true_iff. split; [done|]. rewrite forallb_forall in *. intros c Hin. unfold path_char. by rewrite Hc.
Qed.

Lemma join_length r ps : forallb IsSubNameValid ps = true -> (length r + 2 * length ps <= length (join 47 r ps))%nat.
Proof.
  unfold join. rewrite length_app. induction ps as [|q ps IH]; cbn; [lia|]. intros [Hq Hps]%andb_true_iff.
  specialize (IH Hps). apply IsSubNameValid_chars in Hq as [Hq _]. rewrite length_app. destruct q; [done|]. cbn. lia.
Qed.

(** ** Which expression a name matches *)

Lemma matches_tagged d s : matches (tagged d) s <->
  exists a b, s = a ++ d :: b /\ a <> [] /\ forallb before_tag a = true /\ b <> [] /\ forallb in_tag b = true.
Proof.
  unfold tagged. rewrite matches_seq. setoid_rewrite matches_rplus. setoid_rewrite matches_class_seq.
  setoid_rewrite matches_rplus. split.
  - intros (a & t & -> & [Ha Ha'] & c & b & -> & <-%Z.eqb_eq & Hb & Hb'). exists a, b. by split_and!.
  - intros (a & b & -> & Ha & Ha' & Hb & Hb'). exists a, (d :: b). split; [done|]. split; [done|].
    exists d, b. split_and!; [done|apply Z.eqb_refl|done..].
Qed.

Lemma no_match_tagged d s : d ∉ s -> regex_match s (tagged d) = false.
Proof.
  intros Hd. apply not_true_is_false. rewrite regex_match_spec, matches_tagged. intros (a & b & -> & _).
  apply Hd, elem_of_app. right. apply list_elem_of_here.
Qed.

Lemma no_match_owner s : 33 ∉ s -> regex_match s OWNER_INDICATOR = false.
Proof.
  intros Hd. apply not_true_is_false. rewrite regex_match_spec. unfold OWNER_INDICATOR.
  intros (a & b & -> & _ & ->%matches_rword)%matches_seq. apply Hd, elem_of_app. right. apply list_elem_of_here.
Qed.

Lemma no_match_head c r s : c ∉ s -> regex_match s (RSeq (rword [c]) r) = false.
Proof.
  intros Hd. apply not_true_is_false. rewrite regex_match_spec. intros (a & b & -> & ->%matches_rword & _)%matches_seq.
  apply Hd, list_elem_of_here.
Qed.

Lemma IsAssetNameValid_path r ps : IsRootNameValid r = true -> forallb IsSubNameValid ps = true ->
  zlen (join 47 r ps) <= 32 ->
  IsAssetNameValid (join 47 r ps) = (true, match ps with [] => ROOT | _ => SUB end).
Proof.
  intros Hr Hps Hl. pose proof (path_chars r ps Hr Hps) as Hc.
  assert (Hb : IsNameValidBeforeTag (join 47 r ps) = true) by (apply before_tag_join; by exists r, ps).
  pose proof (path_split r ps Hr Hps) as Hs. pose proof (join_length r ps Hps) as Hj.
  apply IsRootNameValid_iff in Hr as Hr'. destruct Hr' as (H3 & _).
  assert (Hsub : IsAssetNameASubasset (join 47 r ps) = match ps with [] => false | _ => true end).
  { unfold IsAssetNameASubasset. rewrite Hs, Hr. by destruct ps. }
  unfold zlen in Hl, H3. unfold IsAssetNameValid. unfold zlen at 1. replace (48 <? _) with false by lia.
  pose proof (fun d => forallb_not_in path_char _ d Hc) as Hno.
  unfold UNIQUE_INDICATOR, MSG_CHANNEL_INDICATOR, VOTE_INDICATOR, QUALIFIER_INDICATOR, SUB_QUALIFIER_INDICATOR, RESTRICTED_INDICATOR.
  rewrite !no_match_tagged, no_match_owner, !no_match_head by (by apply Hno).
  rewrite Hsub. unfold typed, IsTypeCheckNameValid, zlen, MAX_ROOT_NAME_LENGTH, MIN_ASSET_LENGTH.
  replace (32 <? _) with false by lia. replace (_ <? 3) with false by lia. rewrite andb_false_r, Hb. by destruct ps.
Qed.

(** ** The root of a path *)

Lemma root_step n s p : GetParentName s = p -> p <> [] -> p <> s -> up_to_root (S n) s = up_to_root n p.
Proof.
  intros E Hp Hs. cbn [up_to_root]. rewrite E. replace (zlen p =? 0) with false by (destruct p; done).
  by rewrite (proj2 (bytes_eqb_neq p s)).
Qed.

Lemma up_to_root_path r : IsRootNameValid r = true -> forall ps n, forallb IsSubNameValid ps = true ->
  zlen (join 47 r ps) <= 32 -> (length ps <= n)%nat -> up_to_root n (join 47 r ps) = r.
Proof.
  intros Hr. induction ps as [|q ps IH] using rev_ind; intros n Hps Hl Hn.
  - pose proof (IsAssetNameValid_path r [] Hr Hps Hl) as E. unfold join in *. cbn [map concat] in *. rewrite app_nil_r in *.
    destruct n; [done|]. cbn [up_to_root]. unfold GetParentName. rewrite E. by rewrite bytes_eqb_refl, orb_true_r.
  - rewrite length_app in Hn. cbn in Hn. destruct n as [|n]; [lia|].
    pose proof (IsAssetNameValid_path r _ Hr Hps Hl) as E. rewrite forallb_app in Hps. apply andb_true_iff in Hps as [Hps Hq].
    cbn [forallb] in Hq. rewrite andb_true_r in Hq. apply IsSubNameValid_chars in Hq as [_ Hq].
    rewrite join_snoc in *. unfold zlen in Hl. rewrite length_app in Hl. cbn [length] in Hl.
    rewrite (root_step n _ (join 47 r ps)); [apply IH; unfold zlen; (done || lia)| | |].
    + unfold GetParentName. rewrite E. destruct ps; cbn [app]; rewrite before_last_app; try done; by apply (forallb_not_in name_char).
    + intros H. apply IsRootNameValid_iff in Hr as (H3 & _). pose proof (join_length r ps Hps) as Hj. rewrite H in Hj.
      unfold zlen in H3. cbn in Hj. lia.
    + intros H%(f_equal length). rewrite length_app in H. cbn in H. lia.
Qed.

(** What a verdict says of the name, for the types that hang under a root. *)
Lemma IsAssetNameValid_inv name type : IsAssetNameValid name = (true, type) ->
  match type with
  | UNIQUE => matches (tagged 35) name /\ IsTypeCheckNameValid UNIQUE name = true
  | MSGCHANNEL => matches (tagged 126) name /\ IsTypeCheckNameValid MSGCHANNEL name = true
  | ROOT => IsAssetNameASubasset name = false /\ IsTypeCheckNameValid ROOT name = true
  | SUB => IsTypeCheckNameValid SUB name = true
  | _ => True
  end.
Proof.
  unfold IsAssetNameValid. destruct (48 <? zlen name); [done|].
  destruct (regex_match name UNIQUE_INDICATOR) eqn:E1.
  { unfold typed. destruct (IsTypeCheckNameValid UNIQUE name) eqn:E; intros [= <-]. split; [by apply regex_match_spec|done]. }
  destruct (regex_match name MSG_CHANNEL_INDICATOR) eqn:E2.
  { unfold typed. destruct (IsTypeCheckNameValid MSGCHANNEL name) eqn:E; intros [= <-]. split; [by apply regex_match_spec|done]. }
  destruct (regex_match name OWNER_INDICATOR); [unfold typed; destruct (IsTypeCheckNameValid _ _); by intros [= <-]|].
  destruct (regex_match name VOTE_INDICATOR); [unfold typed; destruct (IsTypeCheckNameValid _ _); by intros [= <-]|].
  destruct (regex_match name QUALIFIER_INDICATOR).
  { destruct (IsTypeCheckNameValid _ _), (IsAssetNameASubQualifier name); by intros [= <-]. }
  destruct (regex_match name SUB_QUALIFIER_INDICATOR).
  { destruct (IsTypeCheckNameValid _ _), (IsAssetNameASubQualifier name); by intros [= <-]. }
  destruct (regex_match name RESTRICTED_INDICATOR); [unfold typed; destruct (IsTypeCheckNameValid _ _); by intros [= <-]|].
  unfold typed. destruct (IsAssetNameASubasset name), (IsTypeCheckNameValid _ _) eqn:E; by intros [= <-].
Qed.

Lemma IsTypeCheckNameValid_path type name : type = ROOT \/ type = SUB -> IsTypeCheckNameValid type name = true ->
  zlen name <= 32 /\ exists r ps, name = join 47 r ps /\ IsRootNameValid r = true /\ forallb IsSubNameValid ps = true.
Proof.
  unfold MAX_ROOT_NAME_LENGTH, IsTypeCheckNameValid, MAX_ROOT_NAME_LENGTH. intros Ht H.
  assert (H' : (if 32 <? zlen name then false else IsNameValidBeforeTag name) = true).
  { destruct Ht as [->| ->]; destruct (32 <? zlen name); try done; by destruct (_ && _) in H. }
  destruct (Z.ltb_spec 32 (zlen name)); [done|]. split; [lia|by apply before_tag_join].
Qed.

Lemma IsAssetNameARoot_iff name : IsAssetNameARoot name = true <-> IsRootNameValid name = true /\ zlen name <= 32.
Proof.
  unfold IsAssetNameARoot. split.
  - destruct (IsAssetNameValid name) as [ok type] eqn:E. intros [-> Ht]%andb_true_iff. apply bool_decide_eq_true in Ht as ->.
    apply IsAssetNameValid_inv in E as [Hn [Hl (r & ps & -> & Hr & Hps)]%IsTypeCheckNameValid_path]; [|by left].
    unfold IsAssetNameASubasset in Hn. rewrite path_split, Hr in Hn by done. destruct ps; [|done].
    unfold join in *. cbn [map concat] in *. by rewrite app_nil_r in *.
  - intros [Hr Hl]. pose proof (IsAssetNameValid_path name [] Hr eq_refl) as E. unfold join in E. cbn [map concat] in E.
    rewrite app_nil_r in E. by rewrite (E Hl).
Qed.

(** The name up to the first delimiter. *)
Fixpoint root_part (s : bytes) : bytes :=
  match s with [] => [] | c :: s => if chars [47; 35; 126] c then [] else c :: root_part s end.

Lemma root_part_app r t : forallb name_char r = true -> root_part (r ++ t) = r ++ root_part t.
Proof.
  induction r as [|c r IH]; [done|]. cbn [forallb app root_part]. intros [Hc Hr]%andb_true_iff. rewrite (IH Hr).
  replace (chars _ c) with false; [done|]. symmetry. apply name_char_range in Hc. unfold chars. cbn. lia.
Qed.

Lemma root_part_path r ps t : IsRootNameValid r = true -> root_part t = [] -> root_part (join 47 r ps ++ t) = r.
Proof.
  intros (_ & Hc & _)%IsRootNameValid_iff Ht. unfold join. rewrite <-app_assoc, root_part_app by done.
  destruct ps; cbn [map concat app]; [rewrite Ht|]; apply app_nil_r.
Qed.

(** A tagged name hangs one step below the path before its tag. *)
Lemma tag_step d a b r ps : (d =? 35) || (d =? 126) = true -> a = join 47 r ps -> IsRootNameValid r = true ->
  forallb IsSubNameValid ps = true -> zlen a <= 31 -> GetParentName (a ++ d :: b) = a ->
  TopLevelRootName (a ++ d :: b) = root_part (a ++ d :: b) /\ IsAssetNameARoot (root_part (a ++ d :: b)) = true.
Proof.
  intros Hd -> Hr Hps Hl Hp. pose proof (join_length r ps Hps) as Hj. apply IsRootNameValid_iff in Hr as Hr'.
  destruct Hr' as (H3 & _). unfold zlen in *. rewrite root_part_path; [|done|cbn; destruct (d =? 35), (d =? 126); cbn in *; try done; by rewrite ?orb_true_r].
  split; [|apply IsAssetNameARoot_iff; split; [done|]; unfold zlen; lia].
  unfold TopLevelRootName. rewrite (root_step 31 _ (join 47 r ps) Hp).
  - apply up_to_root_path; try done; unfold zlen; lia.
  - intros H. rewrite H in Hj. cbn in Hj. lia.
  - intros H%(f_equal length). rewrite length_app in H. cbn in H. lia.
Qed.

Lemma tagged_parts d a b : (d =? 35) || (d =? 126) = true -> forallb before_tag a = true -> forallb in_tag b = true ->
  split_at d (a ++ d :: b) = (a, [b]) /\ before_last d (a ++ d :: b) = Some a.
Proof.
  intros Hd Ha Hb.
  assert (Hda : d ∉ a) by (apply (forallb_not_in before_tag); [done|]; apply orb_true_iff in Hd as [->%Z.eqb_eq| ->%Z.eqb_eq]; done).
  assert (Hdb : d ∉ b) by (apply (forallb_not_in in_tag); [done|]; apply orb_true_iff in Hd as [->%Z.eqb_eq| ->%Z.eqb_eq]; done).
  rewrite split_at_app, (split_at_free d b), before_last_app by done. done.
Qed.

(** The walk ends at a valid root, which is the text before the first delimiter. *)
Definition reaches_root (name : bytes) : Prop :=
  TopLevelRootName name = root_part name /\ IsAssetNameARoot (root_part name) = true.

Lemma path_root type name : type = ROOT \/ type = SUB -> IsTypeCheckNameValid type name = true -> reaches_root name.
Proof.
  intros Ht [Hl (r & ps & -> & Hr & Hps)]%IsTypeCheckNameValid_path; [|done]. pose proof (join_length r ps Hps).
  unfold reaches_root. rewrite <-(app_nil_r (join 47 r ps)) at 2 3. rewrite root_part_path by done. unfold zlen in Hl.
  split; [apply up_to_root_path|apply IsAssetNameARoot_iff; split]; (done || unfold zlen; lia).
Qed.

Lemma tag_root d name : (d =? 35) || (d =? 126) = true -> matches (tagged d) name -> zlen name <= 33 ->
  IsNameValidBeforeTag (split_at d name).1 = true -> GetParentName name = default name (before_last d name) -> reaches_root name.
Proof.
  intros Hd (a & b & -> & _ & Ha & Hne & Hb)%matches_tagged Hl Hv Hp.
  destruct (tagged_parts d a b Hd Ha Hb) as [Hs Hbl]. rewrite Hbl in Hp. rewrite Hs in Hv.
  apply before_tag_join in Hv as (r & ps & Hj & Hr & Hps). unfold zlen in Hl. rewrite length_app in Hl.
  destruct b; [done|]. cbn [length] in Hl. apply (tag_step d a _ r ps); try done. unfold zlen. lia.
Qed.

(** For every valid root, sub-asset, unique or channel name the walk of
    [TopLevelRootName] ends at the text before the first [/], [#] or [~],
    which is itself a valid root name: its 32 steps are always enough, and
    the guard of [RequireIssueUnderOwnMain] compares the right root. *)
Theorem top_level_root name type : IsAssetNameValid name = (true, type) -> type ∈ [ROOT; SUB; UNIQUE; MSGCHANNEL] ->
  TopLevelRootName name = root_part name /\ IsAssetNameARoot (root_part name) = true.
Proof.
  intros E Ht. pose proof (IsAssetNameValid_inv name type E) as H.
  rewrite !elem_of_cons, elem_of_nil in Ht. destruct Ht as [->|[->|[->|[->|[]]]]].
  - apply (path_root ROOT); [by left|apply H].
  - apply (path_root SUB); [by right|apply H].
  - destruct H as [Hm H]. unfold IsTypeCheckNameValid, MAX_NAME_LENGTH in H. destruct (Z.ltb_spec 33 (zlen name)); [done|].
    apply andb_true_iff in H as [H _]. apply (tag_root 35); try done. unfold GetParentName. by rewrite E.
  - destruct H as [Hm H]. unfold IsTypeCheckNameValid, MAX_NAME_LENGTH in H. destruct (Z.ltb_spec 33 (zlen name)); [done|].
    destruct (_ <? zlen (last_part _ _)); [done|]. apply andb_true_iff in H as [H _].
    apply (tag_root 126); try done. unfold GetParentName. by rewrite E.
Qed.

Lemma top_level_root_witness : TopLevelRootName (bs "XCORE/LAB.1/A#nft-7") = bs "XCORE".
Proof. apply (top_level_root (bs "XCORE/LAB.1/A#nft-7") UNIQUE); [by vm_compute|rewrite !elem_of_cons; auto]. Defined.

(** Where the rules depart from their comments: a restricted name may
    start with punctuation after its dollar sign; only the ends of a vote name are
    checked, so that a space and lower case pass between two carets, and
    the walk of such a name does not reach its root; the walk of an invalid
    name returns the name and not the empty string. *)
Theorem name_rule_departures :
  IsAssetNameValid (bs "$_ABC") = (true, RESTRICTED) /\ IsAssetNameValid (bs "#_ABC") = (false, INVALID) /\
  IsAssetNameValid (bs "ABC^not a tag^Y") = (true, VOTE) /\ TopLevelRootName (bs "ABC^not a tag^Y") = bs "ABC^not a tag" /\
  forall name, (IsAssetNameValid name).1 = false -> TopLevelRootName name = name.
Proof.
  split_and!; [vm_compute; reflexivity..|]. intros name H. unfold TopLevelRootName. cbn [up_to_root]. unfold GetParentName at 1 2 3.
  destruct (IsAssetNameValid name) as [ok type]. cbn in H. by subst.
Qed.
