(* ===== verification/AssetScripts.v ===== *)
(** * Asset data in scripts

    src/src/assets/assettypes.h and the first part of src/src/assets/assets.cpp:
    the records an output carries behind OP_RVN_ASSET, their serialization, the
    scripts built from them, the functions that read them back, and the burn
    outputs. *)

From S2P Require Import Prelude Serialize Script Tx Base58 Slots AssetNames.

Local Open Scope Z_scope.
Local Open Scope reader_scope.

(** ** The parameters of a network *)

Record AssetParams := mkAssetParams {
  ap_prefixes : AddressParams;
  GetBurnAmount : AssetType -> Z;
  GetBurnAddress : AssetType -> bytes;
}.

Definition burn_amounts (type : AssetType) : Z :=
  match type with
  | ROOT => 500 * COIN
  | SUB => 100 * COIN
  | MSGCHANNEL => 100 * COIN
  | UNIQUE => 5 * COIN
  | REISSUE => 100 * COIN
  | QUALIFIER => 1000 * COIN
  | SUB_QUALIFIER => 100 * COIN
  | RESTRICTED => 1500 * COIN
  | NULL_ADD_QUALIFIER => 10000000
  | OWNER | VOTE | INVALID => 0
  end.
Definition main_burn_addresses (type : AssetType) : bytes :=
  match type with
  | ROOT => bs "XissueAssetXXXXXXXXXXXXXXXXXXwTyxt"
  | REISSUE => bs "XreissueAssetXXXXXXXXXXXXXXXZNfDqa"
  | SUB => bs "XissueSubAssetXXXXXXXXXXXXXXcHkFpF"
  | UNIQUE => bs "XissueUniqueAssetXXXXXXXXXXXagKZDZ"
  | MSGCHANNEL => bs "XissueMsgChanneLAssetXXXXXXXcZDf2U"
  | QUALIFIER => bs "XissueQuaLifierXXXXXXXXXXXXXXAQP3h"
  | SUB_QUALIFIER => bs "XissueSubQuaLifierXXXXXXXXXXb8QkLq"
  | RESTRICTED => bs "XissueRestrictedXXXXXXXXXXXXU7kfQh"
  | NULL_ADD_QUALIFIER => bs "XnuLLTagBurnXXXXXXXXXXXXXXXXdbJo3F"
  | OWNER | VOTE | INVALID => []
  end.
Definition test_burn_addresses (type : AssetType) : bytes :=
  match type with
  | ROOT => bs "yissueAssetXXXXXXXXXXXXXXXXXa53BzP"
  | REISSUE => bs "yReissueAssetXXXXXXXXXXXXXXXcgSAHx"
  | SUB => bs "yissueSubAssetXXXXXXXXXXXXXXXLKrKM"
  | UNIQUE => bs "yissueUniqueAssetXXXXXXXXXXXXYCYqw"
  | MSGCHANNEL => bs "yissueMsgChanneLAssetXXXXXXXcMfYPL"
  | QUALIFIER => bs "yissueQuaLifierXXXXXXXXXXXXXXszhtz"
  | SUB_QUALIFIER => bs "yissueSubQuaLifierXXXXXXXXXXaJd6nj"
  | RESTRICTED => bs "yissueRestrictedXXXXXXXXXXXXWy4AP5"
  | NULL_ADD_QUALIFIER => bs "yaddTagBurnXXXXXXXXXXXXXXXXXVtnNZw"
  | OWNER | VOTE | INVALID => []
  end.
Definition main_assets : AssetParams := mkAssetParams main_prefixes burn_amounts main_burn_addresses.
Definition test_assets : AssetParams := mkAssetParams test_prefixes burn_amounts test_burn_addresses.

(** ** The records *)

Definition IPFS_SHA2_256 : Z := 0x12.
Definition TXID_NOTIFIER : Z := 0x54.
Definition IPFS_SHA2_256_LEN : Z := 0x20.

Record CNewAsset := mkNewAsset {
  strName : bytes; na_nAmount : Z; na_units : Z; na_nReissuable : Z; na_nHasIPFS : Z; na_strIPFSHash : bytes }.
Record CAssetTransfer := mkTransfer { tr_strName : bytes; tr_nAmount : Z; tr_message : bytes; tr_nExpireTime : Z }.
Record CReissueAsset := mkReissue { re_strName : bytes; re_nAmount : Z; re_nUnits : Z; re_nReissuable : Z; re_strIPFSHash : bytes }.
Record CNullAssetTxData := mkNullData { nd_asset_name : bytes; nd_flag : Z }.

(** ** Serialization *)

(** [ReadWriteAssetHash]: whether a hash was written, and the bytes. *)
Definition write_asset_hash (strIPFSHash : bytes) : bool * bytes :=
  if zlen strIPFSHash =? 34 then (true, IPFS_SHA2_256 :: enc c_bytes (drop 2 strIPFSHash))
  else if zlen strIPFSHash =? 32 then (true, TXID_NOTIFIER :: enc c_bytes strIPFSHash)
  else (false, []).
Definition read_asset_hash : reader (bool * bytes) := fun s =>
  if zlen s <? 33 then Some ((false, []), s) else
  (kind <-- dec (c_int 1);;
   hash <-- dec c_bytes;;
   rret (true, (if kind =? IPFS_SHA2_256 then [IPFS_SHA2_256; IPFS_SHA2_256_LEN] else []) ++ take 32 hash)) s.

Definition enc_new_asset (a : CNewAsset) : bytes :=
  enc c_bytes (strName a) ++ enc (c_int 8) (na_nAmount a) ++ enc (c_int 1) (na_units a) ++
  enc (c_int 1) (na_nReissuable a) ++ enc (c_int 1) (na_nHasIPFS a) ++
  (if na_nHasIPFS a =? 1 then (write_asset_hash (na_strIPFSHash a)).2 else []).
Definition dec_new_asset : reader CNewAsset :=
  name <-- dec c_bytes;;
  amount <-- dec (c_int 8);;
  units <-- dec (c_int 1);;
  reissuable <-- dec (c_int 1);;
  hasIPFS <-- dec (c_int 1);;
  hash <-- (if hasIPFS =? 1 then read_asset_hash else rret (false, []));;
  rret (mkNewAsset name amount units reissuable hasIPFS hash.2).

Definition enc_transfer (t : CAssetTransfer) : bytes :=
  let '(valid, hash) := write_asset_hash (tr_message t) in
  enc c_bytes (tr_strName t) ++ enc (c_int 8) (tr_nAmount t) ++ hash ++
  (if valid && negb (tr_nExpireTime t =? 0) then enc (c_int 8) (tr_nExpireTime t) else []).
Definition dec_transfer : reader CAssetTransfer :=
  name <-- dec c_bytes;;
  amount <-- dec (c_int 8);;
  hash <-- read_asset_hash;;
  (fun s => (expire <-- (if hash.1 && (8 <=? zlen s) then dec (c_int 8) else rret 0);;
             rret (mkTransfer name amount hash.2 expire)) s).

Definition enc_reissue (r : CReissueAsset) : bytes :=
  enc c_bytes (re_strName r) ++ enc (c_int 8) (re_nAmount r) ++ enc (c_int 1) (re_nUnits r) ++
  enc (c_int 1) (re_nReissuable r) ++ (write_asset_hash (re_strIPFSHash r)).2.
Definition dec_reissue : reader CReissueAsset :=
  name <-- dec c_bytes;;
  amount <-- dec (c_int 8);;
  units <-- dec (c_int 1);;
  reissuable <-- dec (c_int 1);;
  hash <-- read_asset_hash;;
  rret (mkReissue name amount units reissuable hash.2).

Definition c_null_data : codec CNullAssetTxData :=
  mkCodec (fun d => enc c_bytes (nd_asset_name d) ++ enc (c_int 1) (nd_flag d))
    (name <-- dec c_bytes;; flag <-- dec (c_int 1);; rret (mkNullData name flag)).

(** ** Building scripts *)

Definition OWNER_TAG : bytes := bs "!".

(** The part every [ConstructTransaction] appends: the letters rvn, the kind, the record. *)
Definition asset_tail (kind : Z) (data : bytes) : CScript :=
  OP_RVN_ASSET :: push (RVN_R :: RVN_V :: RVN_N :: kind :: data) ++ [OP_DROP].
Definition ConstructTransaction (a : CNewAsset) (script : CScript) : CScript := script ++ asset_tail RVN_Q (enc_new_asset a).
Definition ConstructOwnerTransaction (a : CNewAsset) (script : CScript) : CScript :=
  script ++ asset_tail RVN_O (enc c_bytes (strName a ++ OWNER_TAG)).
Definition transfer_ConstructTransaction (t : CAssetTransfer) (script : CScript) : CScript := script ++ asset_tail RVN_T (enc_transfer t).
Definition reissue_ConstructTransaction (r : CReissueAsset) (script : CScript) : CScript := script ++ asset_tail RVN_R (enc_reissue r).

(** ** Reading scripts *)

(** The first byte of the record, by kind of script. *)
Definition IsScriptNewAsset (s : CScript) : option Z :=
  match IsAssetScript s with Some (TX_NEW_ASSET, false, n) => Some n | _ => None end.
Definition IsScriptOwnerAsset (s : CScript) : option Z :=
  match IsAssetScript s with Some (TX_NEW_ASSET, true, n) => Some n | _ => None end.
Definition IsScriptReissueAsset (s : CScript) : option Z :=
  match IsAssetScript s with Some (TX_REISSUE_ASSET, _, n) => Some n | _ => None end.
Definition IsScriptTransferAsset (s : CScript) : option Z :=
  match IsAssetScript s with Some (TX_TRANSFER_ASSET, _, n) => Some n | _ => None end.

Section Params.
Variable ap : AssetParams.

Definition script_address (s : CScript) : bytes :=
  EncodeDestination (ap_prefixes ap) (default CNoDestination (ExtractDestination s)).

(** The record of a script and the address it is for. *)
Definition from_script {A} (start : option Z) (d : reader A) (s : CScript) : option (A * bytes) :=
  match start with
  | None => None
  | Some n => match d (drop (Z.to_nat n) s) with
              | Some (a, _) => Some (a, script_address s)
              | None => None
              end
  end.
Definition AssetFromScript (s : CScript) : option (CNewAsset * bytes) := from_script (IsScriptNewAsset s) dec_new_asset s.
Definition OwnerAssetFromScript (s : CScript) : option (bytes * bytes) := from_script (IsScriptOwnerAsset s) (dec c_bytes) s.
Definition ReissueAssetFromScript (s : CScript) : option (CReissueAsset * bytes) :=
  from_script (IsScriptReissueAsset s) dec_reissue s.
(** The transfer scripts of any size are active from the genesis block on. *)
Definition TransferAssetFromScript (s : CScript) : option (CAssetTransfer * bytes) :=
  from_script (IsScriptTransferAsset s) dec_transfer s.

(** A new asset whose name is of the wanted type. *)
Definition script_new_type (wanted : AssetType -> bool) (s : CScript) : bool :=
  match AssetFromScript s with
  | Some (a, _) => let '(ok, type) := IsAssetNameValid (strName a) in ok && wanted type
  | None => false
  end.
Definition IsScriptNewUniqueAsset : CScript -> bool := script_new_type (fun t => bool_decide (t = UNIQUE)).
Definition IsScriptNewMsgChannelAsset : CScript -> bool := script_new_type (fun t => bool_decide (t = MSGCHANNEL)).
Definition IsScriptNewQualifierAsset : CScript -> bool :=
  script_new_type (fun t => bool_decide (t = QUALIFIER) || bool_decide (t = SUB_QUALIFIER)).
Definition IsScriptNewRestrictedAsset : CScript -> bool := script_new_type (fun t => bool_decide (t = RESTRICTED)).
Definition MsgChannelAssetFromScript (s : CScript) : option (CNewAsset * bytes) :=
  if IsScriptNewMsgChannelAsset s then AssetFromScript s else None.
Definition QualifierAssetFromScript (s : CScript) : option (CNewAsset * bytes) :=
  if IsScriptNewQualifierAsset s then AssetFromScript s else None.
Definition RestrictedAssetFromScript (s : CScript) : option (CNewAsset * bytes) :=
  if IsScriptNewRestrictedAsset s then AssetFromScript s else None.

Definition AssetNullDataFromScript (s : CScript) : option (CNullAssetTxData * bytes) :=
  from_script (if IsNullAssetTxDataScript s then Some 23 else None) (dec c_null_data) s.
Definition GlobalAssetNullDataFromScript (s : CScript) : option CNullAssetTxData :=
  option_map fst (from_script (if IsNullGlobalRestrictionAssetTxDataScript s then Some 4 else None) (dec c_null_data) s).
Definition AssetNullVerifierDataFromScript (s : CScript) : option bytes :=
  option_map fst (from_script (if IsNullAssetVerifierTxDataScript s then Some 3 else None) (dec c_bytes) s).

(** ** Burns *)

(** [burnAmount *= numberIssued] on 64 bits. *)
Definition CheckIssueBurnTx (out : CTxOut) (type : AssetType) (numberIssued : Z) : bool :=
  match type with
  | REISSUE | VOTE | OWNER | INVALID => false
  | _ =>
      if negb (nValue out =? swrap 64 (GetBurnAmount ap type * numberIssued)) then false else
      match ExtractDestination (scriptPubKey out) with
      | Some CNoDestination | None => false
      | Some dest => bytes_eqb (EncodeDestination (ap_prefixes ap) dest) (GetBurnAddress ap type)
      end
  end.
Definition CheckReissueBurnTx (out : CTxOut) : bool :=
  if negb (nValue out =? GetBurnAmount ap REISSUE) then false else
  match ExtractDestination (scriptPubKey out) with
  | Some CNoDestination | None => false
  | Some dest => bytes_eqb (EncodeDestination (ap_prefixes ap) dest) (GetBurnAddress ap REISSUE)
  end.

End Params.

Definition CheckIssueDataTx (out : CTxOut) : bool := bool_decide (is_Some (IsScriptNewAsset (scriptPubKey out))).
Definition CheckReissueDataTx (out : CTxOut) : bool := bool_decide (is_Some (IsScriptReissueAsset (scriptPubKey out))).
Definition CheckOwnerDataTx (out : CTxOut) : bool := bool_decide (is_Some (IsScriptOwnerAsset (scriptPubKey out))).

(** [GetTxOutAssetTypes]: issues, reissues, transfers, owners. *)
Record asset_counts := mkCounts { nIssues : Z; nReissues : Z; nTransfers : Z; nOwners : Z }.
Definition count_out (c : asset_counts) (o : CTxOut) : asset_counts :=
  match IsAssetScript (scriptPubKey o) with
  | Some (TX_NEW_ASSET, false, _) => mkCounts (nIssues c + 1) (nReissues c) (nTransfers c) (nOwners c)
  | Some (TX_NEW_ASSET, true, _) => mkCounts (nIssues c) (nReissues c) (nTransfers c) (nOwners c + 1)
  | Some (TX_TRANSFER_ASSET, _, _) => mkCounts (nIssues c) (nReissues c) (nTransfers c + 1) (nOwners c)
  | Some (TX_REISSUE_ASSET, _, _) => mkCounts (nIssues c) (nReissues c + 1) (nTransfers c) (nOwners c)
  | _ => c
  end.
Definition GetTxOutAssetTypes (vout : list CTxOut) : asset_counts := fold_left count_out vout (mkCounts 0 0 0 0).

(** ** What is built reads back *)

Definition kind_type (kind : Z) : option (txnouttype * bool) :=
  if kind =? RVN_T then Some (TX_TRANSFER_ASSET, false)
  else if kind =? RVN_Q then Some (TX_NEW_ASSET, false)
  else if kind =? RVN_O then Some (TX_NEW_ASSET, true)
  else if kind =? RVN_R then Some (TX_REISSUE_ASSET, false) else None.

Lemma sat_app p t i : (length p <= i)%nat -> sat (p ++ t) i = nth (i - length p) t 0.
Proof. intros H. unfold sat. by rewrite app_nth2. Qed.

Lemma kind_branch kind own ty (n : Z) (b : bool) : kind_type kind = Some (ty, own) -> (kind = RVN_Q -> b = true) ->
  (if kind =? RVN_T then Some (TX_TRANSFER_ASSET, false, n)
   else if (kind =? RVN_Q) && b then Some (TX_NEW_ASSET, false, n)
   else if kind =? RVN_O then Some (TX_NEW_ASSET, true, n)
   else if kind =? RVN_R then Some (TX_REISSUE_ASSET, false, n) else None) = Some (ty, own, n).
Proof.
  intros H Hb. unfold kind_type in H. destruct (kind =? RVN_T); [by injection H as <- <-|].
  destruct (Z.eqb_spec kind RVN_Q) as [E|_]; [rewrite (Hb E); by injection H as <- <-|]. cbn [andb].
  destruct (kind =? RVN_O); [by injection H as <- <-|]. destruct (kind =? RVN_R); [by injection H as <- <-|done].
Qed.

Lemma asset_script_short p x kind rest ty own : length p = 25%nat -> 1 <= zlen rest -> (kind = RVN_Q -> 9 <= zlen rest) -> kind_type kind = Some (ty, own) ->
  IsAssetScript (p ++ OP_RVN_ASSET :: x :: RVN_R :: RVN_V :: RVN_N :: kind :: rest) = Some (ty, own, 31).
Proof.
  intros Hp Hr Hq Hk. assert (Hz : zlen p = 25) by (unfold zlen; by rewrite Hp).
  unfold IsAssetScript. rewrite zlen_app, !zlen_cons, !sat_app, Hz, Hp by lia. replace (31 <? _) with true by lia. cbn [negb Nat.sub nth]. change (OP_RVN_ASSET =? OP_RVN_ASSET) with true. cbn [negb].
  rewrite !Z.eqb_refl. cbn [andb]. change (0 <? 30) with true. cbn [negb]. rewrite sat_app, Hp by lia.
  change (Z.to_nat 30 - 25)%nat with 5%nat. cbn [nth]. apply kind_branch; [done|]. intros E. specialize (Hq E). lia.
Qed.

Lemma asset_script_long p y x kind rest ty own : length p = 25%nat -> 1 <= zlen rest -> (kind = RVN_Q -> 9 <= zlen rest) -> x <> RVN_R -> kind_type kind = Some (ty, own) ->
  IsAssetScript (p ++ OP_RVN_ASSET :: y :: x :: RVN_R :: RVN_V :: RVN_N :: kind :: rest) = Some (ty, own, 32).
Proof.
  intros Hp Hr Hq Hx Hk. assert (Hz : zlen p = 25) by (unfold zlen; by rewrite Hp).
  unfold IsAssetScript. rewrite zlen_app, !zlen_cons, !sat_app, Hz, Hp by lia. replace (31 <? _) with true by lia. cbn [negb Nat.sub nth]. change (OP_RVN_ASSET =? OP_RVN_ASSET) with true. cbn [negb].
  destruct (Z.eqb_spec x RVN_R); [done|].
  rewrite !Z.eqb_refl. cbn [andb]. change (0 <? 31) with true. cbn [negb]. rewrite sat_app, Hp by lia.
  change (Z.to_nat 31 - 25)%nat with 6%nat. cbn [nth]. apply kind_branch; [done|]. intros E. specialize (Hq E). lia.
Qed.

(** A record of less than 110 bytes behind a script of 25: the length byte of
    110 bytes and the letters would be taken for the first letter. *)
Lemma asset_tail_script p kind data ty own : length p = 25%nat -> zlen data < 110 -> (kind = RVN_Q -> 8 <= zlen data) -> kind_type kind = Some (ty, own) ->
  exists n, IsAssetScript (p ++ asset_tail kind data) = Some (ty, own, n) /\
    drop (Z.to_nat n) (p ++ asset_tail kind data) = data ++ [OP_DROP].
Proof.
  intros Hp Hd Hq Hk. unfold asset_tail, push. pose proof (zlen_nonneg data). set (m := RVN_R :: RVN_V :: RVN_N :: kind :: data).
  assert (Hm : zlen m = 4 + zlen data) by (subst m; rewrite !zlen_cons; lia). rewrite Hm. unfold OP_PUSHDATA1.
  destruct (Z.ltb_spec (4 + zlen data) 76); [|destruct (Z.leb_spec (4 + zlen data) 0xff); [|lia]].
  - exists 31. subst m. cbn [le_bytes app]. split.
    + apply asset_script_short; rewrite ?zlen_app; change (zlen [OP_DROP]) with 1; try done; [lia|intros E; specialize (Hq E); lia].
    + rewrite drop_app_ge by lia. rewrite Hp. done.
  - exists 32. subst m. cbn [le_bytes app]. split.
    + apply asset_script_long; rewrite ?zlen_app; change (zlen [OP_DROP]) with 1; try done; [lia|intros E; specialize (Hq E); lia|].
      rewrite land_255, Z.mod_small by lia. unfold RVN_R. lia.
    + rewrite drop_app_ge by lia. rewrite Hp. done.
Qed.

(** *** The records *)

Definition wf_hash (h : bytes) : Prop :=
  h = [] \/ (length h = 32%nat /\ bytes_ok h) \/ (exists t, h = IPFS_SHA2_256 :: IPFS_SHA2_256_LEN :: t /\ length t = 32%nat /\ bytes_ok t).
Definition wf_new_asset (a : CNewAsset) : Prop :=
  wf_bytes (strName a) /\ zlen (strName a) <= 40 /\ wf_int 8 (na_nAmount a) /\ wf_int 1 (na_units a) /\ wf_int 1 (na_nReissuable a) /\
  wf_int 1 (na_nHasIPFS a) /\ wf_hash (na_strIPFSHash a) /\ (na_nHasIPFS a <> 1 -> na_strIPFSHash a = []).
Definition wf_transfer (t : CAssetTransfer) : Prop :=
  wf_bytes (tr_strName t) /\ zlen (tr_strName t) <= 40 /\ wf_int 8 (tr_nAmount t) /\ wf_hash (tr_message t) /\ wf_int 8 (tr_nExpireTime t) /\
  (tr_message t = [] -> tr_nExpireTime t = 0).
Definition wf_reissue (r : CReissueAsset) : Prop :=
  wf_bytes (re_strName r) /\ zlen (re_strName r) <= 40 /\ wf_int 8 (re_nAmount r) /\ wf_int 1 (re_nUnits r) /\ wf_int 1 (re_nReissuable r) /\
  wf_hash (re_strIPFSHash r).

#[local] Instance c_int8_rt : Roundtrips (c_int 8) (wf_int 8).
Proof. apply c_int_roundtrips. lia. Qed.
#[local] Instance c_int1_rt : Roundtrips (c_int 1) (wf_int 1).
Proof. apply c_int_roundtrips. lia. Qed.

Lemma zlen_enc_hash t : length t = 32%nat -> zlen (enc c_bytes t) = 33.
Proof. intros Hl. cbn [enc c_bytes]. unfold zlen. by rewrite length_app, Hl. Qed.

Lemma read_hash_some kind t rest : length t = 32%nat -> bytes_ok t -> wf_int 1 kind ->
  read_asset_hash (enc (c_int 1) kind ++ enc c_bytes t ++ rest) =
  Some ((true, (if kind =? IPFS_SHA2_256 then [IPFS_SHA2_256; IPFS_SHA2_256_LEN] else []) ++ t), rest).
Proof.
  intros Hl Ho Hk. unfold read_asset_hash. rewrite !zlen_app.
  rewrite zlen_enc_hash by done. pose proof (zlen_nonneg (enc (c_int 1) kind)). pose proof (zlen_nonneg rest).
  destruct (Z.ltb_spec (zlen (enc (c_int 1) kind) + (33 + zlen rest)) 33); [lia|].
  dec_step (c_int 1). erewrite rbind_step; last (apply (dec_enc (c := c_bytes)); split; [done|unfold zlen, MAX_SIZE; rewrite Hl; lia]).
  unfold rret. by rewrite take_ge by lia.
Qed.

(** The hash that is written and read; behind a missing one less than 33
    bytes may follow. *)
Lemma read_write_hash h rest : wf_hash h -> (h = [] -> zlen rest < 33) ->
  read_asset_hash ((write_asset_hash h).2 ++ rest) = Some (((write_asset_hash h).1, h), rest) /\
  ((write_asset_hash h).1 = false <-> h = []) /\ zlen (write_asset_hash h).2 <= 34.
Proof.
  intros [->|[[Hl Ho]|(t & -> & Hl & Ho)]] Hr.
  - specialize (Hr eq_refl). change (write_asset_hash []) with (false, @nil Z). cbn [fst snd app].
    split; [|split; [done|by vm_compute]]. unfold read_asset_hash.
    destruct (Z.ltb_spec (zlen rest) 33); [done|lia].
  - assert (write_asset_hash h = (true, TXID_NOTIFIER :: enc c_bytes h)) as -> by (unfold write_asset_hash, zlen; by rewrite Hl).
    cbn [fst snd]. split; [|split; [by destruct h|rewrite zlen_cons, zlen_enc_hash by done; lia]].
    apply (read_hash_some TXID_NOTIFIER h rest Hl Ho). unfold wf_int, TXID_NOTIFIER. lia.
  - assert (write_asset_hash (IPFS_SHA2_256 :: IPFS_SHA2_256_LEN :: t) = (true, IPFS_SHA2_256 :: enc c_bytes t)) as ->
      by (unfold write_asset_hash, zlen; cbn [length]; by rewrite Hl).
    cbn [fst snd]. split; [|split; [done|rewrite zlen_cons, zlen_enc_hash by done; lia]].
    apply (read_hash_some IPFS_SHA2_256 t rest Hl Ho). unfold wf_int, IPFS_SHA2_256. lia.
Qed.

Lemma zlen_enc_name n : zlen n <= 41 -> zlen (enc c_bytes n) = 1 + zlen n.
Proof. intros H. cbn [enc c_bytes]. rewrite zlen_app. unfold WriteCompactSize. destruct (Z.ltb_spec (zlen n) 253); [done|lia]. Qed.
Lemma zlen_enc_int k n : zlen (enc (c_int k) n) = Z.of_nat k.
Proof. unfold zlen. cbn [enc c_int]. by rewrite length_le_bytes. Qed.

Lemma new_asset_roundtrip a : wf_new_asset a -> dec_new_asset (enc_new_asset a ++ [OP_DROP]) = Some (a, [OP_DROP]) /\
  8 <= zlen (enc_new_asset a) < 110.
Proof.
  intros (Hn & Hl & Ha & Hu & Hr & Hi & Hh & Hno). unfold dec_new_asset, enc_new_asset.
  destruct (read_write_hash (na_strIPFSHash a) [OP_DROP] Hh ltac:(done)) as (Hd & _ & Hz). split.
  - rewrite <-!app_assoc. dec_step c_bytes. dec_step (c_int 8). dec_step (c_int 1). dec_step (c_int 1). dec_step (c_int 1).
    destruct (Z.eqb_spec (na_nHasIPFS a) 1) as [E|E].
    + erewrite rbind_step by exact Hd. by destruct a.
    + cbn [app]. unfold rbind, rret. cbn [snd]. destruct a; cbn in *. by rewrite (Hno E).
  - rewrite !zlen_app, zlen_enc_name, !zlen_enc_int by lia. pose proof (zlen_nonneg (strName a)).
    pose proof (zlen_nonneg (write_asset_hash (na_strIPFSHash a)).2).
    destruct (na_nHasIPFS a =? 1); [|change (zlen (@nil Z)) with 0]; lia.
Qed.

Lemma transfer_roundtrip t : wf_transfer t -> dec_transfer (enc_transfer t ++ [OP_DROP]) = Some (t, [OP_DROP]) /\ zlen (enc_transfer t) < 110.
Proof.
  intros (Hn & Hl & Ha & Hm & He & Hno). unfold dec_transfer, enc_transfer.
  set (tail := (if (write_asset_hash (tr_message t)).1 && negb (tr_nExpireTime t =? 0) then enc (c_int 8) (tr_nExpireTime t) else []) ++ [OP_DROP]).
  destruct (read_write_hash (tr_message t) tail Hm) as (Hd & Hnone & Hz).
  { intros E. subst tail. rewrite E. by vm_compute. }
  destruct (write_asset_hash (tr_message t)) as [valid hash]. cbn [fst snd] in *. split.
  - rewrite <-!app_assoc. fold tail. dec_step c_bytes. dec_step (c_int 8). erewrite rbind_step by exact Hd. cbn [fst snd]. subst tail.
    destruct valid; cbn [andb].
    + destruct (Z.eqb_spec (tr_nExpireTime t) 0) as [E|E]; cbn [negb].
      * unfold rbind, rret. cbn. destruct t; cbn in *. by rewrite E.
      * rewrite zlen_app, zlen_enc_int. destruct (Z.leb_spec 8 (Z.of_nat 8 + zlen [OP_DROP])); [|done]. dec_step (c_int 8). by destruct t.
    + unfold rbind, rret. cbn. destruct t; cbn in *. by rewrite (Hno (proj1 Hnone eq_refl)).
  - rewrite !zlen_app, zlen_enc_name, !zlen_enc_int by lia.
    destruct (valid && _); [rewrite zlen_enc_int|change (zlen (@nil Z)) with 0]; lia.
Qed.

Lemma reissue_roundtrip r : wf_reissue r -> dec_reissue (enc_reissue r ++ [OP_DROP]) = Some (r, [OP_DROP]) /\ zlen (enc_reissue r) < 110.
Proof.
  intros (Hn & Hl & Ha & Hu & Hr & Hh). unfold dec_reissue, enc_reissue.
  destruct (read_write_hash (re_strIPFSHash r) [OP_DROP] Hh ltac:(done)) as (Hd & _ & Hz). split.
  - rewrite <-!app_assoc. dec_step c_bytes. dec_step (c_int 8). dec_step (c_int 1). dec_step (c_int 1).
    erewrite rbind_step by exact Hd. by destruct r.
  - rewrite !zlen_app, zlen_enc_name, !zlen_enc_int by lia. lia.
Qed.

(** *** The scripts *)

Definition P2PKH (id : bytes) : CScript := GetScriptForDestination (CKeyID id).

Lemma P2PKH_eq id : length id = 20%nat -> P2PKH id = [OP_DUP; OP_HASH160; 20] ++ id ++ [OP_EQUALVERIFY; OP_CHECKSIG].
Proof. intros H. unfold P2PKH, GetScriptForDestination, push, zlen. by rewrite H. Qed.

Lemma IsAssetScript_long s x : IsAssetScript s = Some x -> 32 <= zlen s.
Proof. unfold IsAssetScript. destruct (Z.ltb_spec 31 (zlen s)); [lia|done]. Qed.

(** The destination of an asset script are its bytes 3 to 22, whatever is around them. *)
Lemma asset_destination_bytes s x : IsAssetScript s = Some x -> ExtractDestination s = Some (CKeyID (take 20 (drop 3 s))).
Proof.
  intros Hs. pose proof (IsAssetScript_long _ _ Hs) as Hlong. unfold ExtractDestination, Solver.
  replace (IsPayToScriptHash s) with false by (unfold IsPayToScriptHash; destruct (Z.eqb_spec (zlen s) 23); [lia|done]). destruct x as [[ty own] n]. rewrite Hs.
  assert (Hty : ty = TX_NEW_ASSET \/ ty = TX_TRANSFER_ASSET \/ ty = TX_REISSUE_ASSET).
  { unfold IsAssetScript in Hs. case_ifs_in Hs; injection Hs as <- _ _; auto. }
  destruct Hty as [->|[->| ->]]; done.
Qed.
Lemma asset_destination id t x : length id = 20%nat -> IsAssetScript (P2PKH id ++ t) = Some x ->
  ExtractDestination (P2PKH id ++ t) = Some (CKeyID id).
Proof.
  intros Hl Hs. rewrite (asset_destination_bytes _ _ Hs), P2PKH_eq by done. rewrite <-!app_assoc. cbn [app drop]. by rewrite drop_0, take_app_length' by done.
Qed.

Section ReadBack.
Variable ap : AssetParams.

Lemma from_script_tail {A} (sel : CScript -> option Z) (d : reader A) p kind data ty own (a : A) :
  length p = 25%nat -> zlen data < 110 -> (kind = RVN_Q -> 8 <= zlen data) -> kind_type kind = Some (ty, own) ->
  (forall s n, IsAssetScript s = Some (ty, own, n) -> sel s = Some n) -> d (data ++ [OP_DROP]) = Some (a, [OP_DROP]) ->
  let s := p ++ asset_tail kind data in
  from_script ap (sel s) d s = Some (a, EncodeDestination (ap_prefixes ap) (CKeyID (take 20 (drop 3 p)))).
Proof.
  intros Hp Hd Hq Hk Hsel Hr s. destruct (asset_tail_script p kind data ty own Hp Hd Hq Hk) as (n & Hs & Hdrop). fold s in Hs, Hdrop.
  unfold from_script. rewrite (Hsel s n Hs), Hdrop, Hr. unfold script_address. rewrite (asset_destination_bytes _ _ Hs). subst s.
  rewrite drop_app_le by lia. by rewrite take_app_le by (rewrite length_drop; lia).
Qed.
Lemma from_script_built {A} (sel : CScript -> option Z) (d : reader A) id kind data ty own (a : A) :
  length id = 20%nat -> zlen data < 110 -> (kind = RVN_Q -> 8 <= zlen data) -> kind_type kind = Some (ty, own) ->
  (forall s n, IsAssetScript s = Some (ty, own, n) -> sel s = Some n) -> d (data ++ [OP_DROP]) = Some (a, [OP_DROP]) ->
  let s := P2PKH id ++ asset_tail kind data in
  from_script ap (sel s) d s = Some (a, EncodeDestination (ap_prefixes ap) (CKeyID id)).
Proof.
  intros Hl Hd Hq Hk Hsel Hr s. assert (Hp : length (P2PKH id) = 25%nat) by (pose proof (length_P2PKH id Hl) as H; unfold zlen in H; unfold P2PKH; lia).
  subst s. rewrite (from_script_tail sel d (P2PKH id) kind data ty own a) by done. rewrite P2PKH_eq by done. cbn [app drop]. by rewrite drop_0, take_app_length' by done.
Qed.

Lemma AssetFromScript_built id a : length id = 20%nat -> wf_new_asset a ->
  AssetFromScript ap (ConstructTransaction a (P2PKH id)) = Some (a, EncodeDestination (ap_prefixes ap) (CKeyID id)).
Proof.
  intros Hl Ha. destruct (new_asset_roundtrip a Ha) as [Hr Hz].
  refine (from_script_built IsScriptNewAsset dec_new_asset id RVN_Q (enc_new_asset a) TX_NEW_ASSET false a Hl _ _ eq_refl _ Hr); [lia..|].
  intros s n H. unfold IsScriptNewAsset. by rewrite H.
Qed.

Lemma OwnerAssetFromScript_built id a : length id = 20%nat -> wf_new_asset a ->
  OwnerAssetFromScript ap (ConstructOwnerTransaction a (P2PKH id)) = Some (strName a ++ OWNER_TAG, EncodeDestination (ap_prefixes ap) (CKeyID id)).
Proof.
  intros Hl (Hn & Hz & _). assert (Hzo : zlen (strName a ++ OWNER_TAG) = zlen (strName a) + 1) by (rewrite zlen_app; done).
  refine (from_script_built IsScriptOwnerAsset (dec c_bytes) id RVN_O (enc c_bytes _) TX_NEW_ASSET true _ Hl _ _ eq_refl _ _).
  - rewrite zlen_enc_name; lia.
  - done.
  - intros s n H. unfold IsScriptOwnerAsset. by rewrite H.
  - apply (dec_enc (c := c_bytes)). destruct Hn as [Ho _]. split; [|unfold MAX_SIZE; lia].
    apply bytes_ok_app. split; [done|]. repeat constructor; unfold byte_ok; lia.
Qed.

Lemma TransferAssetFromScript_built id t : length id = 20%nat -> wf_transfer t ->
  TransferAssetFromScript ap (transfer_ConstructTransaction t (P2PKH id)) = Some (t, EncodeDestination (ap_prefixes ap) (CKeyID id)).
Proof.
  intros Hl Ht. destruct (transfer_roundtrip t Ht) as [Hr Hz].
  refine (from_script_built IsScriptTransferAsset dec_transfer id RVN_T (enc_transfer t) TX_TRANSFER_ASSET false t Hl Hz _ eq_refl _ Hr); [done|].
  intros s n H. unfold IsScriptTransferAsset. by rewrite H.
Qed.

Lemma ReissueAssetFromScript_built id r : length id = 20%nat -> wf_reissue r ->
  ReissueAssetFromScript ap (reissue_ConstructTransaction r (P2PKH id)) = Some (r, EncodeDestination (ap_prefixes ap) (CKeyID id)).
Proof.
  intros Hl Ht. destruct (reissue_roundtrip r Ht) as [Hr Hz].
  refine (from_script_built IsScriptReissueAsset dec_reissue id RVN_R (enc_reissue r) TX_REISSUE_ASSET false r Hl Hz _ eq_refl _ Hr); [done|].
  intros s n H. unfold IsScriptReissueAsset. by rewrite H.
Qed.

End ReadBack.
