(* ===== verification/BoolExpr.v ===== *)
(** * Verifier strings

    src/src/LibBoolEE.cpp: the evaluator of propositional formulas behind the
    verifier string of a restricted asset. An exception is [None]; the recursion
    takes fuel, and [resolve_total] shows that the length of the text is enough. *)

From S2P Require Import Prelude Handle.

Local Open Scope Z_scope.

Definition belongsToName (c : Z) : bool := isalnum c || (c =? 95) || (c =? 35) || (c =? 46).
Definition removeWhitespaces (source : bytes) : bytes := List.filter (fun c => negb (isspace c)) source.
Definition removeCharacter (source : bytes) (ch : Z) : bytes := List.filter (fun c => negb (ch =? c)) source.

(** The characters [!], [&], [|] and the parentheses. *)
Definition NOT : Z := 33.
Definition AND : Z := 38.
Definition OR : Z := 124.
Definition LPAR : Z := 40.
Definition RPAR : Z := 41.

Record parse_state := mkParse { start_pos : option nat; parity_count : Z; subexpressions : list bytes }.
Definition substr (s : bytes) (pos len : nat) : bytes := take len (drop pos s).

Definition parse_char (formula : bytes) (op : Z) (i : nat) (c : Z) (st : parse_state) : option parse_state :=
  if c =? RPAR then Some (mkParse (start_pos st) (parity_count st - 1) (subexpressions st))
  else if c =? LPAR
  then Some (mkParse (Some (default i (start_pos st))) (parity_count st + 1) (subexpressions st))
  else if parity_count st =? 0
  then match start_pos st with
       | None => Some (if belongsToName c || (c =? NOT) then mkParse (Some i) (parity_count st) (subexpressions st) else st)
       | Some p =>
           if belongsToName c || (c =? NOT) then Some st
           else if op =? c
           then Some (mkParse (Some (S i)) (parity_count st) (subexpressions st ++ [substr formula p (i - p)]))
           else if (c =? AND) || (c =? OR) then Some st else None
       end
  else Some st.
Fixpoint parse_loop (formula : bytes) (op : Z) (i : nat) (rest : bytes) (st : parse_state) : option parse_state :=
  match rest with
  | [] => Some st
  | c :: rest => match parse_char formula op i c st with
                 | Some st => parse_loop formula op (S i) rest st
                 | None => None
                 end
  end.
Definition singleParse (formula : bytes) (op : Z) : option (list bytes) :=
  match parse_loop formula op 0 formula (mkParse None 0 []) with
  | None => None
  | Some st =>
      let subs := match start_pos st with
                  | Some p => subexpressions st ++ [substr formula p (length formula - p)]
                  | None => subexpressions st
                  end in
      if parity_count st =? 0 then Some subs else None
  end.

(** One valuation of the variables. *)
Definition Vals := bytes -> option bool.

(** All the values, or [None] once one throws; the outer [None] is the fuel. *)
Fixpoint all_values (vs : list (option (option bool))) : option (option (list bool)) :=
  match vs with
  | [] => Some (Some [])
  | None :: _ => None
  | Some None :: _ => Some None
  | Some (Some b) :: vs =>
      match all_values vs with Some (Some bs) => Some (Some (b :: bs)) | o => o end
  end.

Fixpoint resolve_fuel (fuel : nat) (valuation : Vals) (text : bytes) : option (option bool) :=
  match fuel with
  | O => None
  | S fuel =>
      let source := removeWhitespaces text in
      match source with
      | [] => Some None
      | first :: tail =>
          match singleParse source OR with
          | None => Some None
          | Some ors =>
              match (if (length ors =? 1)%nat then singleParse source AND else Some ors) with
              | None => Some None
              | Some [] => Some None
              | Some [_] =>
                  if first =? NOT then
                    match resolve_fuel fuel valuation tail with Some (Some b) => Some (Some (negb b)) | o => o end
                  else if first =? LPAR then resolve_fuel fuel valuation (substr source 1 (length source - 2))
                  else if bytes_eqb source (bs "1") then Some (Some true)
                  else if bytes_eqb source (bs "0") then Some (Some false)
                  else Some (valuation source)
              | Some subs =>
                  match all_values (map (resolve_fuel fuel valuation) subs) with
                  | None => None
                  | Some None => Some None
                  | Some (Some values) =>
                      Some (Some (if (length ors =? 1)%nat then forallb id values else existsb id values))
                  end
              end
          end
      end
  end.
Definition resolve (source : bytes) (valuation : Vals) : option bool :=
  default None (resolve_fuel (S (length source)) valuation source).

(** ** Termination *)

Lemma removeWhitespaces_length s : (length (removeWhitespaces s) <= length s)%nat.
Proof. unfold removeWhitespaces. induction s as [|c s IH]; cbn; [lia|]. destruct (negb (isspace c)); cbn; lia. Qed.

(** Once a part has been cut off, every part is shorter than the text. *)
Definition parts_short (formula : bytes) (i : nat) (st : parse_state) : Prop :=
  Forall (fun s => length s < length formula)%nat (subexpressions st) /\
  (subexpressions st <> [] -> exists p, start_pos st = Some p /\ (1 <= p)%nat) /\
  (forall p, start_pos st = Some p -> p <= i)%nat.

Lemma parse_char_short formula op i c st st' : (i < length formula)%nat -> parts_short formula i st ->
  parse_char formula op i c st = Some st' -> parts_short formula (S i) st'.
Proof.
  intros Hi (Hs & Hp & Hle) H. unfold parse_char in H. destruct st as [start parity subs]; cbn [start_pos parity_count subexpressions] in *.
  assert (Hsame : forall k, parts_short formula (S i) (mkParse start k subs)).
  { intros k. split_and!; cbn; [done|done|]. intros p Hp'. specialize (Hle p Hp'). lia. }
  destruct (c =? RPAR); [by injection H as <-|]. destruct (c =? LPAR).
  { injection H as <-. split_and!; cbn; [done| |].
    - intros Hn. destruct (Hp Hn) as (p & -> & Hp'). by exists p.
    - intros p [= <-]. destruct start as [q|]; cbn; [specialize (Hle q eq_refl)|]; lia. }
  destruct (parity =? 0); [|by injection H as <-]. destruct start as [p|].
  - destruct (belongsToName c || (c =? NOT)); [by injection H as <-|]. destruct (op =? c).
    + injection H as <-. split_and!; cbn.
      * apply Forall_app. split; [done|]. constructor; [|done]. unfold substr. rewrite length_take, length_drop. lia.
      * intros _. exists (S i). split; [done|lia].
      * intros q [= <-]. lia.
    + destruct ((c =? AND) || (c =? OR)); [by injection H as <-|done].
  - injection H as <-. destruct (belongsToName c || (c =? NOT)); [|apply Hsame].
    split_and!; cbn; [done| |intros q [= <-]; lia]. intros Hn. by destruct (Hp Hn) as (p & ? & _).
Qed.

Lemma parse_loop_short formula op rest : forall i st st', (i + length rest = length formula)%nat -> parts_short formula i st ->
  parse_loop formula op i rest st = Some st' -> parts_short formula (length formula) st'.
Proof.
  induction rest as [|c rest IH]; intros i st st' Hi Hs H; cbn in *; [injection H as <-; by replace (length formula) with i by lia|].
  destruct (parse_char formula op i c st) as [st1|] eqn:E; [|done]. apply (IH (S i) st1); [lia| |done].
  eapply parse_char_short; [|exact Hs|exact E]. lia.
Qed.

Lemma singleParse_short formula op subs : singleParse formula op = Some subs -> (2 <= length subs)%nat ->
  Forall (fun s => length s < length formula)%nat subs.
Proof.
  unfold singleParse. intros H Hl. destruct (parse_loop _ _ _ _ _) as [st|] eqn:E; [|done].
  apply parse_loop_short in E as (Hs & Hp & Hle); [|lia|split_and!; cbn; (done || constructor)].
  destruct (parity_count st =? 0); [|done]. injection H as <-. destruct (start_pos st) as [p|] eqn:Ep; [|done].
  apply Forall_app. split; [done|]. constructor; [|done]. rewrite length_app in Hl. cbn in Hl.
  destruct (Hp ltac:(intros Hn; rewrite Hn in Hl; cbn in Hl; lia)) as (q & [= <-] & Hq).
  specialize (Hle p eq_refl). unfold substr. rewrite length_take, length_drop. lia.
Qed.

Lemma all_values_total vs : Forall (fun v => v <> None) vs -> all_values vs <> None.
Proof.
  induction 1 as [|[[b|]|] vs Hv _ IH]; cbn; try done. by destruct (all_values vs) as [[|]|].
Qed.

Lemma resolve_fuel_total valuation n : forall s, (length s < n)%nat -> resolve_fuel n valuation s <> None.
Proof.
  induction n as [|n IH]; intros s Hn; [lia|]. cbn [resolve_fuel]. pose proof (removeWhitespaces_length s) as Hw.
  destruct (removeWhitespaces s) as [|first tail] eqn:E; [done|]. destruct (singleParse _ OR) as [ors|] eqn:Eo; [|done].
  destruct (if (length ors =? 1)%nat then _ else _) as [[|x [|y subs]]|] eqn:Ea; try done; cbn [length] in Hw.
  - destruct (first =? NOT).
    { specialize (IH tail ltac:(lia)). by destruct (resolve_fuel n valuation tail) as [[|]|]. }
    destruct (first =? LPAR); [|by case_ifs]. apply IH.
    unfold substr. rewrite length_take, length_drop. cbn [length]. lia.
  - assert (Hshort : Forall (fun t => length t < length (first :: tail))%nat (x :: y :: subs)).
    { destruct (length ors =? 1)%nat; [|injection Ea as ->]; eapply singleParse_short; try done; cbn; lia. }
    pose proof (all_values_total (map (resolve_fuel n valuation) (x :: y :: subs))) as Ht.
    destruct (all_values _) as [[values|]|]; [done|done|]. intros _. apply Ht; [|done]. apply Forall_map.
    eapply Forall_impl; [exact Hshort|]. intros t Htl. apply IH. cbn [length] in Htl. lia.
Qed.

(** ** The formulas of the documentation *)

Inductive formula :=
  | FTrue | FFalse | FVar (name : bytes) | FNot (f : formula) | FAnd (f g : formula) | FOr (f g : formula).

(** Binary formulas are in parentheses. *)
Fixpoint print (f : formula) : bytes :=
  match f with
  | FTrue => bs "1"
  | FFalse => bs "0"
  | FVar name => name
  | FNot f => NOT :: print f
  | FAnd f g => LPAR :: print f ++ AND :: print g ++ [RPAR]
  | FOr f g => LPAR :: print f ++ OR :: print g ++ [RPAR]
  end.
Fixpoint eval (valuation : Vals) (f : formula) : option bool :=
  match f with
  | FTrue => Some true
  | FFalse => Some false
  | FVar name => valuation name
  | FNot f => option_map negb (eval valuation f)
  | FAnd f g => match eval valuation f, eval valuation g with Some a, Some b => Some (a && b) | _, _ => None end
  | FOr f g => match eval valuation f, eval valuation g with Some a, Some b => Some (a || b) | _, _ => None end
  end.
Definition wf_name (name : bytes) : Prop :=
  name <> [] /\ forallb belongsToName name = true /\ name <> bs "1" /\ name <> bs "0".
Fixpoint wf_formula (f : formula) : Prop :=
  match f with
  | FTrue | FFalse => True
  | FVar name => wf_name name
  | FNot f => wf_formula f
  | FAnd f g | FOr f g => wf_formula f /\ wf_formula g
  end.

Lemma name_char_cases c : belongsToName c = true ->
  isspace c = false /\ (c =? RPAR) = false /\ (c =? LPAR) = false /\ (c =? NOT) = false.
Proof. unfold belongsToName, isalnum, isdigit, isspace, RPAR, LPAR, NOT. lia. Qed.

Lemma parse_loop_app formula op a : forall i b st st', parse_loop formula op i a st = Some st' ->
  parse_loop formula op i (a ++ b) st = parse_loop formula op (i + length a) b st'.
Proof.
  induction a as [|c a IH]; intros i b st st' H; cbn in *; [injection H as <-; by rewrite Nat.add_0_r|].
  destruct (parse_char formula op i c st) as [st1|]; [|done]. rewrite (IH (S i) b st1 st' H). f_equal. lia.
Qed.

(** A name passes at any depth once a part has begun. *)
Lemma scan_name txt op name p k subs : forallb belongsToName name = true -> forall i,
  parse_loop txt op i name (mkParse (Some p) k subs) = Some (mkParse (Some p) k subs).
Proof.
  induction name as [|c name IH]; intros H i; cbn [parse_loop]; [done|]. cbn [forallb] in H. apply andb_true_iff in H as [Hc Hn].
  destruct (name_char_cases c Hc) as (_ & Hr & Hl & _). unfold parse_char. cbn [start_pos parity_count subexpressions].
  rewrite Hr, Hl, Hc. cbn [orb]. destruct (k =? 0); by apply IH.
Qed.

(** Scanning a printed formula changes nothing but the position, once a part has begun. *)
Lemma scan_formula txt op p subs f : wf_formula f -> forall i k, 0 <= k ->
  parse_loop txt op i (print f) (mkParse (Some p) k subs) = Some (mkParse (Some p) k subs).
Proof.
  assert (Hbin : forall a b o i k, (o = AND \/ o = OR) -> 0 <= k ->
    (forall i k, 0 <= k -> parse_loop txt op i a (mkParse (Some p) k subs) = Some (mkParse (Some p) k subs)) ->
    (forall i k, 0 <= k -> parse_loop txt op i b (mkParse (Some p) k subs) = Some (mkParse (Some p) k subs)) ->
    parse_loop txt op i (LPAR :: a ++ o :: b ++ [RPAR]) (mkParse (Some p) k subs) = Some (mkParse (Some p) k subs)).
  { intros a b o i k Ho Hk Ha Hb. cbn [parse_loop]. change (parse_char txt op i LPAR (mkParse (Some p) k subs)) with (Some (mkParse (Some p) (k + 1) subs)).
    cbv beta iota. rewrite (parse_loop_app _ _ _ _ _ _ _ (Ha (S i) (k + 1) ltac:(lia))). cbn [parse_loop].
    assert (Hop : forall j, parse_char txt op j o (mkParse (Some p) (k + 1) subs) = Some (mkParse (Some p) (k + 1) subs)).
    { intros j. unfold parse_char. cbn [start_pos parity_count subexpressions]. destruct (Z.eqb_spec (k + 1) 0); [lia|]. by destruct Ho as [->| ->]. }
    rewrite Hop, (parse_loop_app _ _ _ _ _ _ _ (Hb _ (k + 1) ltac:(lia))). cbn [parse_loop].
    unfold parse_char. cbn. do 2 f_equal. lia. }
  induction f as [| |name|f IH|f IHf g IHg|f IHf g IHg]; intros Hw i k Hk; cbn [print].
  - by apply scan_name.
  - by apply scan_name.
  - apply scan_name. by destruct Hw as (_ & H & _).
  - cbn [parse_loop]. unfold parse_char. cbn. destruct (k =? 0); by apply IH.
  - destruct Hw as [Hf Hg]. apply Hbin; auto.
  - destruct Hw as [Hf Hg]. apply Hbin; auto.
Qed.

Lemma print_head f : wf_formula f -> exists c r, print f = c :: r /\ (belongsToName c = true \/ c = NOT \/ c = LPAR).
Proof.
  destruct f as [| |name|f|f g|f g]; intros Hw; cbn [print]; try (eexists _, _; split; [reflexivity|]; auto; by left).
  destruct Hw as (Hn & H & _). destruct name as [|c name]; [done|]. cbn [forallb] in H. apply andb_true_iff in H as [Hc _]. eauto.
Qed.

(** The first character of a formula begins a part. *)
Lemma scan_start txt op f i subs : wf_formula f ->
  parse_loop txt op i (print f) (mkParse None 0 subs) = Some (mkParse (Some i) 0 subs).
Proof.
  intros Hw. rewrite <-(scan_formula txt op i subs f Hw i 0) by lia.
  destruct (print_head f Hw) as (c & r & -> & Hc). cbn [parse_loop].
  assert (parse_char txt op i c (mkParse None 0 subs) = parse_char txt op i c (mkParse (Some i) 0 subs)) as ->; [|done].
  unfold parse_char. cbn [start_pos parity_count subexpressions default]. destruct Hc as [Hc|[->| ->]]; [|done..].
  destruct (name_char_cases c Hc) as (_ & -> & -> & _). by rewrite Hc.
Qed.

Lemma substr_all s : substr s 0 (length s - 0) = s.
Proof. unfold substr. rewrite drop_0, Nat.sub_0_r. apply take_ge. lia. Qed.

Lemma singleParse_formula f op : wf_formula f -> singleParse (print f) op = Some [print f].
Proof. intros Hw. unfold singleParse. rewrite scan_start by done. cbn [start_pos parity_count subexpressions app]. by rewrite substr_all. Qed.

Lemma not_name_op o : o = AND \/ o = OR -> (o =? RPAR) = false /\ (o =? LPAR) = false /\ belongsToName o || (o =? NOT) = false /\
  (o =? AND) || (o =? OR) = true.
Proof. by intros [->| ->]. Qed.

Lemma singleParse_binary f g o op : wf_formula f -> wf_formula g -> o = AND \/ o = OR ->
  singleParse (print f ++ o :: print g) op =
  Some (if op =? o then [print f; print g] else [print f ++ o :: print g]).
Proof.
  intros Hf Hg Ho. set (txt := print f ++ o :: print g). unfold singleParse, txt at 2.
  rewrite (parse_loop_app _ _ _ _ _ _ _ (scan_start txt op f 0 [] Hf)). cbn [parse_loop Nat.add].
  destruct (not_name_op o Ho) as (H1 & H2 & H3 & H4). unfold parse_char. cbn [start_pos parity_count subexpressions app].
  rewrite H1, H2, H3, H4. cbn [Z.eqb]. destruct (op =? o).
  - rewrite scan_formula by (done || lia). cbn [start_pos parity_count subexpressions Z.eqb app]. do 2 f_equal.
    + unfold substr, txt. rewrite drop_0, Nat.sub_0_r. apply take_app_length.
    + f_equal. unfold substr, txt. rewrite length_app. cbn [length].
      replace (length (print f) + S (length (print g)) - S (length (print f)))%nat with (length (print g)) by lia.
      rewrite drop_app_ge by lia. replace (S (length (print f)) - length (print f))%nat with 1%nat by lia. cbn [drop]. rewrite drop_0. apply take_ge. lia.
  - rewrite scan_formula by (done || lia). cbn [start_pos parity_count subexpressions Z.eqb app]. by rewrite substr_all.
Qed.

Lemma removeWhitespaces_id s : Forall (fun c => isspace c = false) s -> removeWhitespaces s = s.
Proof. unfold removeWhitespaces. induction 1 as [|c s Hc _ IH]; cbn; [done|]. by rewrite Hc, IH. Qed.

Lemma print_no_space f : wf_formula f -> Forall (fun c => isspace c = false) (print f).
Proof.
  induction f as [| |name|f IH|f IHf g IHg|f IHf g IHg]; cbn [print wf_formula]; intros Hw.
  - by repeat constructor.
  - by repeat constructor.
  - destruct Hw as (_ & H & _). rewrite forallb_forall in H. apply List.Forall_forall. intros c Hc. by apply name_char_cases, H.
  - constructor; [done|auto].
  - destruct Hw. constructor; [done|]. apply Forall_app; split; [auto|]. constructor; [done|]. apply Forall_app; split; [auto|by repeat constructor].
  - destruct Hw. constructor; [done|]. apply Forall_app; split; [auto|]. constructor; [done|]. apply Forall_app; split; [auto|by repeat constructor].
Qed.

(** One round on a text without white space and with at least one character. *)
Lemma resolve_step n v s : Forall (fun c => isspace c = false) s -> s <> [] -> resolve_fuel (S n) v s =
  match singleParse s OR with
  | None => Some None
  | Some ors =>
      match (if (length ors =? 1)%nat then singleParse s AND else Some ors) with
      | None | Some [] => Some None
      | Some [_] =>
          if List.hd 0 s =? NOT then match resolve_fuel n v (List.tl s) with Some (Some b) => Some (Some (negb b)) | o => o end
          else if List.hd 0 s =? LPAR then resolve_fuel n v (substr s 1 (length s - 2))
          else if bytes_eqb s (bs "1") then Some (Some true)
          else if bytes_eqb s (bs "0") then Some (Some false) else Some (v s)
      | Some subs =>
          match all_values (map (resolve_fuel n v) subs) with
          | None => None
          | Some None => Some None
          | Some (Some values) => Some (Some (if (length ors =? 1)%nat then forallb id values else existsb id values))
          end
      end
  end.
Proof. intros Hs Hn. cbn [resolve_fuel]. rewrite removeWhitespaces_id by done. destruct s; [done|]. done. Qed.

Lemma resolve_binary n v f g o : wf_formula f -> wf_formula g -> o = AND \/ o = OR ->
  resolve_fuel (S n) v (print f ++ o :: print g) =
  match all_values (map (resolve_fuel n v) [print f; print g]) with
  | None => None
  | Some None => Some None
  | Some (Some values) => Some (Some (if o =? AND then forallb id values else existsb id values))
  end.
Proof.
  intros Hf Hg Ho. rewrite resolve_step; [|apply Forall_app; split; [by apply print_no_space|]; constructor; [by destruct Ho as [->| ->]|by apply print_no_space]
    |by destruct (print f)].
  rewrite !singleParse_binary by done. by destruct Ho as [->| ->].
Qed.

Lemma resolve_formula v f : wf_formula f -> forall n, (length (print f) < n)%nat -> resolve_fuel n v (print f) = Some (eval v f).
Proof.
  assert (Hbin : forall f g o, wf_formula f -> wf_formula g -> o = AND \/ o = OR ->
    (forall n, (length (print f) < n)%nat -> resolve_fuel n v (print f) = Some (eval v f)) ->
    (forall n, (length (print g) < n)%nat -> resolve_fuel n v (print g) = Some (eval v g)) -> forall n h,
    print h = LPAR :: print f ++ o :: print g ++ [RPAR] -> wf_formula h -> (length (print h) < n)%nat ->
    resolve_fuel n v (print h) = Some (match eval v f, eval v g with
      Some a, Some b => Some (if o =? AND then a && b else a || b) | _, _ => None end)).
  { intros f0 g0 o Hf Hg Ho IHf IHg n h Eh Hh Hn. destruct n as [|[|n]]; [lia|rewrite Eh in Hn; cbn in Hn; lia|].
    rewrite resolve_step by (by apply print_no_space || by rewrite Eh). rewrite !singleParse_formula by done. cbn [length Nat.eqb].
    rewrite Eh. cbn [List.hd Z.eqb]. change (LPAR =? NOT) with false. change (LPAR =? LPAR) with true. cbv iota.
    replace (substr (LPAR :: print f0 ++ o :: print g0 ++ [RPAR]) 1 _) with (print f0 ++ o :: print g0).
    2:{ unfold substr. cbn [drop]. rewrite drop_0. change (print f0 ++ o :: print g0 ++ [RPAR]) with (print f0 ++ (o :: print g0) ++ [RPAR]).
        rewrite app_assoc. symmetry. apply take_app_length'. cbn [length]. rewrite !length_app. cbn [length]. lia. }
    rewrite Eh in Hn. cbn [length] in Hn. rewrite length_app in Hn. cbn [length] in Hn. rewrite length_app in Hn. cbn [length] in Hn.
    rewrite resolve_binary by done. cbn [map]. rewrite IHf, IHg by lia. cbn [all_values].
    destruct (eval v f0) as [a|], (eval v g0) as [b|]; try done. destruct (o =? AND), a, b; done. }
  induction f as [| |name|f IH|f IHf g IHg|f IHf g IHg]; intros Hw n Hn.
  - destruct n; [lia|]. by rewrite resolve_step, !singleParse_formula by (done || by repeat constructor).
  - destruct n; [lia|]. by rewrite resolve_step, !singleParse_formula by (done || by repeat constructor).
  - destruct n; [lia|]. pose proof Hw as (Hne & Hc & H1 & H0).
    rewrite resolve_step by (by apply (print_no_space (FVar name)) || done). rewrite !(singleParse_formula (FVar name)) by done. cbn [length Nat.eqb print].
    destruct name as [|c name]; [done|]. cbn [forallb] in Hc. apply andb_true_iff in Hc as [Hc _].
    destruct (name_char_cases c Hc) as (_ & _ & Hl & Hx). cbn [List.hd]. rewrite Hx, Hl. cbn [eval]. by rewrite !(proj2 (bytes_eqb_neq _ _)) by done.
  - destruct n; [lia|]. rewrite resolve_step by (by apply print_no_space || done). rewrite !singleParse_formula by done. cbn [length Nat.eqb print List.hd List.tl].
    change (NOT =? NOT) with true. cbv iota. rewrite IH by (done || cbn in Hn; lia). cbn [eval]. by destruct (eval v f) as [[]|].
  - destruct Hw as [Hf Hg]. rewrite (Hbin f g AND Hf Hg (or_introl eq_refl) (IHf Hf) (IHg Hg) n (FAnd f g)) by done. done.
  - destruct Hw as [Hf Hg]. rewrite (Hbin f g OR Hf Hg (or_intror eq_refl) (IHf Hf) (IHg Hg) n (FOr f g)) by done. done.
Qed.

(** C18. The evaluator of verifier strings never runs out of recursion, whatever
    the text, and on the text of any formula of the documented grammar it
    gives the truth value of the formula; it throws exactly when a variable has
    no value. *)
Theorem verifier_string_evaluated (valuation : Vals) :
  (forall text, resolve_fuel (S (length text)) valuation text <> None) /\
  (forall f, wf_formula f -> resolve (print f) valuation = eval valuation f).
Proof.
  split; [intros text; apply resolve_fuel_total; lia|]. intros f Hw. unfold resolve. by rewrite resolve_formula by (done || lia).
Qed.
