(* ===== verification/AssetTx.v ===== *)
(** * Asset transactions

    The questions of src/src/assets/assets.cpp about a whole transaction: which
    kind of issue it is, and the asset, owner token or verifier string it
    carries. The code reads the last output without a test; its callers have
    refused a transaction without outputs before, and here there is none then. *)

From S2P Require Import Prelude Serialize Script Tx Base58 AssetNames AssetScripts.

Local Open Scope Z_scope.

Definition last_out (tx : CTransaction) : option CTxOut := vout tx !! (length (vout tx) - 1)%nat.
Definition owner_out (tx : CTransaction) : option CTxOut := vout tx !! (length (vout tx) - 2)%nat.
Definition on_out {A} (d : A) (o : option CTxOut) (f : CTxOut -> A) : A := match o with Some o => f o | None => d end.

Section Params.
Variable ap : AssetParams.

(** [CTransaction::IsNewAsset] *)
Definition tx_IsNewAsset (tx : CTransaction) : bool :=
  if zlen (vout tx) <? 3 then false else
  on_out false (last_out tx) (fun o =>
    if negb (CheckIssueDataTx o) then false else
    if negb (on_out false (owner_out tx) CheckOwnerDataTx) then false else
    negb (IsScriptNewUniqueAsset ap (scriptPubKey o) || IsScriptNewRestrictedAsset ap (scriptPubKey o))).
Definition tx_new_of (is_kind : CScript -> bool) (tx : CTransaction) : bool :=
  on_out false (last_out tx) (fun o => if negb (CheckIssueDataTx o) then false else is_kind (scriptPubKey o)).
Definition tx_IsNewUniqueAsset : CTransaction -> bool := tx_new_of (IsScriptNewUniqueAsset ap).
Definition tx_IsNewMsgChannelAsset : CTransaction -> bool := tx_new_of (IsScriptNewMsgChannelAsset ap).
Definition tx_IsNewQualifierAsset : CTransaction -> bool := tx_new_of (IsScriptNewQualifierAsset ap).
Definition tx_IsNewRestrictedAsset : CTransaction -> bool := tx_new_of (IsScriptNewRestrictedAsset ap).
Definition tx_IsReissueAsset (tx : CTransaction) : bool := on_out false (last_out tx) CheckReissueDataTx.

Definition AssetFromTransaction (tx : CTransaction) : option (CNewAsset * bytes) :=
  if negb (tx_IsNewAsset tx) then None else on_out None (last_out tx) (fun o => AssetFromScript ap (scriptPubKey o)).
Definition MsgChannelAssetFromTransaction (tx : CTransaction) : option (CNewAsset * bytes) :=
  if negb (tx_IsNewMsgChannelAsset tx) then None else on_out None (last_out tx) (fun o => MsgChannelAssetFromScript ap (scriptPubKey o)).
Definition QualifierAssetFromTransaction (tx : CTransaction) : option (CNewAsset * bytes) :=
  if negb (tx_IsNewQualifierAsset tx) then None else on_out None (last_out tx) (fun o => QualifierAssetFromScript ap (scriptPubKey o)).
Definition RestrictedAssetFromTransaction (tx : CTransaction) : option (CNewAsset * bytes) :=
  if negb (tx_IsNewRestrictedAsset tx) then None else on_out None (last_out tx) (fun o => RestrictedAssetFromScript ap (scriptPubKey o)).
Definition ReissueAssetFromTransaction (tx : CTransaction) : option (CReissueAsset * bytes) :=
  if negb (tx_IsReissueAsset tx) then None else on_out None (last_out tx) (fun o => ReissueAssetFromScript ap (scriptPubKey o)).
Definition OwnerFromTransaction (tx : CTransaction) : option (bytes * bytes) :=
  if negb (tx_IsNewAsset tx) then None else on_out None (owner_out tx) (fun o => OwnerAssetFromScript ap (scriptPubKey o)).

(** Whether some output transfers the asset [name]. *)
Definition transfers_of (vouts : list CTxOut) (name : bytes) : bool :=
  existsb (fun o => match TransferAssetFromScript ap (scriptPubKey o) with
                    | Some (t, _) => bytes_eqb name (tr_strName t)
                    | None => false
                    end) vouts.

(** [GetVerifierStringFromTx]: the string, or whether none was found. *)
Fixpoint verifier_from (outs : list CTxOut) (found : option bytes) : result (option bytes) string :=
  match outs with
  | [] => Ok found
  | o :: outs =>
      if IsNullAssetVerifierTxDataScript (scriptPubKey o) then
        match found with
        | Some _ => Err "Multiple verifier strings found in transaction"%string
        | None =>
            match AssetNullVerifierDataFromScript ap (scriptPubKey o) with
            | None => Err "Failed to get verifier string from output"%string
            | Some v => verifier_from outs (Some v)
            end
        end
      else verifier_from outs found
  end.
Definition GetVerifierStringFromTx (tx : CTransaction) : result (option bytes) string := verifier_from (vout tx) None.

End Params.
