(* ===== verification/XNames.v ===== *)
(** * The root name of an X account

    The first part of src/src/assets/xaccount.cpp: how an X handle becomes the
    name of its main asset. A handle is written in capitals, runs of underscores
    are shortened, an underscore at an edge becomes an X and short names are
    padded; when the name is in use, a user id or a number is appended. *)

From stdpp Require Import sets.
From S2P Require Import Prelude Handle Json Regex AssetNames.

Local Open Scope Z_scope.

Inductive name_error := NmSpec (e : spec_error) | NmChar | NmTooLong | NmNotRoot | NmNoFreeName.

Definition NormalizeXAccountId (input : bytes) : result (bytes * Z) spec_error :=
  match ParseXAccountSpec input with
  | Err e => Err e
  | Ok acc => Ok (xhandle acc, xuserId acc)
  end.

(** [CollapseUnderscores] from the previous character on. *)
Fixpoint collapse_from (prev : Z) (s : bytes) : bytes :=
  match s with
  | [] => []
  | c :: t => if (c =? 95) && (prev =? 95) then collapse_from prev t else c :: collapse_from c t
  end.
Definition CollapseUnderscores (s : bytes) : bytes := collapse_from 0 s.

Fixpoint upper_chars (s : bytes) : option bytes :=
  match s with
  | [] => Some []
  | c :: t =>
      match (if (97 <=? c) && (c <=? 122) then Some (c - 97 + 65)
             else if ((65 <=? c) && (c <=? 90)) || isdigit c || (c =? 95) then Some c else None) with
      | None => None
      | Some d => option_map (cons d) (upper_chars t)
      end
  end.
Definition edge_front (s : bytes) : bytes :=
  match s with c :: t => (if c =? 95 then 88 else c) :: t | [] => [] end.
Definition edge_back (s : bytes) : bytes := rev (edge_front (rev s)).
Definition pad_X (s : bytes) : bytes := repeat 88 (Z.to_nat (MIN_ASSET_LENGTH - zlen s)) ++ s.

Definition MapXHandleToRootName (handle : bytes) : result bytes name_error :=
  match upper_chars handle with
  | None => Err NmChar
  | Some up =>
      let out := pad_X (CollapseUnderscores (edge_back (edge_front (CollapseUnderscores up)))) in
      if MAX_ROOT_NAME_LENGTH <? zlen out then Err NmTooLong else
      if negb (IsAssetNameARoot out) then Err NmNotRoot else Ok out
  end.

(** [NameTaken]: the caches asked and the names waiting in the memory pool. *)
Section Taken.
Variable taken : bytes -> bool.

Definition tryName (n : bytes) : bool :=
  if (zlen n <? MIN_ASSET_LENGTH) || (MAX_ROOT_NAME_LENGTH <? zlen n) then false else
  if negb (IsAssetNameARoot n) then false else negb (taken n).
Definition suffixes (userId : Z) : list bytes :=
  (if userId =? 0 then [] else [dec_str userId]) ++ map dec_str (seqZ 2 9998).
Fixpoint try_suffixes (base : bytes) (sufs : list bytes) : option bytes :=
  match sufs with
  | [] => None
  | suf :: sufs =>
      if MAX_ROOT_NAME_LENGTH <? zlen base + 1 + zlen suf then try_suffixes base sufs else
      let n := base ++ [95] ++ suf in
      if tryName n then Some n else try_suffixes base sufs
  end.
Definition DeriveMainAssetName (xHandleOrId : bytes) : result bytes name_error :=
  match NormalizeXAccountId xHandleOrId with
  | Err e => Err (NmSpec e)
  | Ok (handle, userId) =>
      match MapXHandleToRootName handle with
      | Err e => Err e
      | Ok base =>
          if tryName base then Ok base else
          match try_suffixes base (suffixes userId) with Some n => Ok n | None => Err NmNoFreeName end
      end
  end.
End Taken.

(** ** The mapped name is a root name *)

Definition root_char (c : Z) : bool := ((65 <=? c) && (c <=? 90)) || isdigit c || (c =? 95).
Definition spaced (x y : Z) : bool := negb ((x =? 95) && (y =? 95)).

Lemma upper_chars_ok s : Forall (fun c => handle_char c = true) s ->
  exists up, upper_chars s = Some up /\ length up = length s /\ forallb root_char up = true.
Proof.
  induction 1 as [|c t Hc _ (up & IH & Hl & Hr)]; [by exists []|]. cbn [upper_chars].
  unfold handle_char in Hc. destruct ((97 <=? c) && (c <=? 122)) eqn:E.
  - rewrite IH. eexists. split; [done|]. cbn [length forallb]. split; [lia|]. rewrite Hr. unfold root_char. lia.
  - replace (_ || _ || _) with true by (symmetry; unfold isdigit in *; lia). rewrite IH. eexists. split; [done|].
    cbn [length forallb]. split; [lia|]. rewrite Hr. unfold root_char, isdigit in *. lia.
Qed.

Lemma collapse_spaced s : forall prev, adjacent spaced (prev :: collapse_from prev s) = true.
Proof.
  induction s as [|c t IH]; intros prev; [done|]. cbn [collapse_from]. destruct (_ && _) eqn:E; [apply IH|].
  rewrite adjacent_cons, IH, andb_true_r. unfold spaced. lia.
Qed.
Lemma collapse_id s : forall prev, adjacent spaced (prev :: s) = true -> collapse_from prev s = s.
Proof.
  induction s as [|c t IH]; intros prev; [done|]. rewrite adjacent_cons. intros [Hs Ht]%andb_true_iff. cbn [collapse_from].
  replace ((c =? 95) && (prev =? 95)) with false by (unfold spaced in Hs; lia). by rewrite IH.
Qed.
Lemma collapse_chars P s : forall prev, forallb P s = true ->
  forallb P (collapse_from prev s) = true /\ (length (collapse_from prev s) <= length s)%nat.
Proof.
  induction s as [|c t IH]; intros prev; [done|]. cbn [collapse_from forallb]. intros [Hc Ht]%andb_true_iff.
  destruct (_ && _); [destruct (IH prev Ht); split; [done|cbn; lia]|]. cbn [forallb length]. rewrite Hc. destruct (IH c Ht).
  split; [done|lia].
Qed.
Lemma adjacent_tail {A} (R : A -> A -> bool) x l : adjacent R (x :: l) = true -> adjacent R l = true.
Proof. destruct l; [done|]. rewrite adjacent_cons. by intros [_ ?]%andb_true_iff. Qed.

Lemma adjacent_app {A} (R : A -> A -> bool) l k : adjacent R (l ++ k) = true <->
  adjacent R l = true /\ adjacent R k = true /\ (forall a x y b, l = a ++ [x] -> k = y :: b -> R x y = true).
Proof.
  induction l as [|x l IH]; cbn [app].
  - split; [intros H; split_and!; [done..|]; intros a y z b E; by destruct a|by intros (_ & H & _)].
  - destruct l as [|y l]; cbn [app] in *.
    + destruct k as [|y k]; [split; [intros _; split_and!; [done..|]; by intros|done]|]. rewrite adjacent_cons, andb_true_iff. split.
      * intros [H1 H2]. split_and!; [done..|]. intros [|? [|? a]] z w b E F; cbn in E; [|discriminate E..]. by simplify_eq.
      * intros (_ & H2 & H). split; [by apply (H [] x y k)|done].
    + rewrite !adjacent_cons, !andb_true_iff, IH. split.
      * intros (H1 & H2 & H3 & H4). split_and!; [done..|]. intros [|z a] w v b E F; [discriminate E|].
        injection E as <- E. by apply (H4 a w v b).
      * intros ((H1 & H2) & H3 & H4). split_and!; [done..|]. intros a w v b E F. apply (H4 (x :: a) w v b); [by rewrite E|done].
Qed.

Lemma adjacent_rev {A} (R : A -> A -> bool) l : (forall x y, R x y = R y x) -> adjacent R l = true -> adjacent R (rev l) = true.
Proof.
  intros Hs. induction l as [|x l IH]; [done|]. intros H. cbn [rev]. apply adjacent_app. split_and!; [by apply IH, (adjacent_tail R x)|done|].
  intros a y z b E F. simplify_eq. destruct l as [|w l]; [by destruct a|]. cbn [rev] in E. apply app_inj_tail in E as [_ ->].
  rewrite adjacent_cons in H. apply andb_true_iff in H as [H _]. by rewrite Hs.
Qed.

Lemma edge_front_ok s : s <> [] -> forallb root_char s = true -> adjacent spaced s = true ->
  edge_front s <> [] /\ length (edge_front s) = length s /\ forallb root_char (edge_front s) = true /\
  adjacent spaced (edge_front s) = true /\ head (edge_front s) <> Some 95.
Proof.
  destruct s as [|c t]; [done|]. cbn [edge_front forallb length head]. intros _ [Hc Ht]%andb_true_iff Ha.
  destruct (Z.eqb_spec c 95) as [->|Hne]; cbn [forallb head length]; split_and!; try done.
  - destruct t as [|d t]; [done|]. rewrite adjacent_cons in *. apply andb_true_iff in Ha as [_ ->]. done.
  - by rewrite Hc.
  - by intros [=].
Qed.

Lemma forallb_rev {A} (p : A -> bool) l : forallb p (rev l) = forallb p l.
Proof. induction l as [|x l IH]; [done|]. cbn [rev forallb]. rewrite forallb_app, IH. cbn. by rewrite andb_true_r, andb_comm. Qed.

Lemma spaced_sym x y : spaced x y = spaced y x.
Proof. unfold spaced. lia. Qed.

Lemma edge_back_ok s : s <> [] -> forallb root_char s = true -> adjacent spaced s = true -> head s <> Some 95 ->
  edge_back s <> [] /\ length (edge_back s) = length s /\ forallb root_char (edge_back s) = true /\
  adjacent spaced (edge_back s) = true /\ head (edge_back s) <> Some 95 /\ List.last (edge_back s) 0 <> 95.
Proof.
  intros Hn Hc Ha Hh. destruct (edge_front_ok (rev s)) as (Hn' & Hl & Hc' & Ha' & Hh').
  { destruct s; [done|]. cbn. by destruct (rev s). }
  { by rewrite forallb_rev. }
  { by apply adjacent_rev; [apply spaced_sym|]. }
  unfold edge_back. destruct (rev s) as [|c t] eqn:E; [done|]. cbn [edge_front] in *.
  set (d := if c =? 95 then 88 else c) in *. assert (Hs : s = rev t ++ [c]) by (rewrite <-(rev_involutive s), E; done).
  split_and!.
  - cbn. by destruct (rev t).
  - rewrite length_rev, Hl, <-E. by rewrite length_rev.
  - by rewrite forallb_rev.
  - by apply adjacent_rev; [apply spaced_sym|].
  - cbn [rev]. rewrite Hs in Hh. destruct (rev t) as [|x l]; [|done]. cbn. intros [= Hd]. by apply Hh'; cbn; rewrite Hd.
  - cbn [rev]. rewrite List.last_last. intros Hd. apply Hh'. cbn. by rewrite Hd.
Qed.

Lemma spaced_clean s : forallb root_char s = true -> adjacent spaced s = true -> head s <> Some 95 -> List.last s 0 <> 95 -> clean s.
Proof.
  intros Hc Ha Hh Hl. assert (Hp : forall x, root_char x = true -> punct x = true -> x = 95).
  { intros x. unfold root_char, punct, chars, isdigit. cbn. lia. }
  assert (Hin : forall x, x ∈ s -> root_char x = true) by (intros x Hx; rewrite forallb_forall in Hc; by apply Hc, list_elem_of_In).
  split_and!.
  - intros (a & x & y & b & E & Hx & Hy). rewrite E in Hin. apply Hp in Hx; [|apply Hin; set_solver]. apply Hp in Hy; [|apply Hin; set_solver].
    subst x y. rewrite E in Ha. apply adjacent_app in Ha as (_ & Ha & _). done.
  - intros (x & b & -> & Hx). apply Hp in Hx; [|apply Hin; set_solver]. by subst.
  - intros (a & x & -> & Hx). apply Hp in Hx; [|apply Hin; set_solver]. subst. by rewrite List.last_last in Hl.
Qed.

Lemma root_char_name c : root_char c = true -> name_char c = true.
Proof. unfold root_char, name_char, range, chars, isdigit. cbn. lia. Qed.

(** The name [MapXHandleToRootName] makes of a handle, before the tests. *)
Definition mapped_name (handle : bytes) : bytes :=
  pad_X (CollapseUnderscores (edge_back (edge_front (CollapseUnderscores (default [] (upper_chars handle)))))).

Record root_shape (n : bytes) : Prop := {
  rs_size : 3 <= zlen n <= 32;
  rs_chars : forallb root_char n = true;
  rs_spaced : adjacent spaced n = true;
  rs_front : head n <> Some 95;
  rs_back : List.last n 0 <> 95;
}.

Lemma root_shape_root n : root_shape n -> n ∉ reserved_names -> IsAssetNameARoot n = true.
Proof.
  intros [Hs Hc Ha Hf Hb] Hr. apply IsAssetNameARoot_iff. split; [|lia]. apply IsRootNameValid_iff. split_and!; [lia| |by apply spaced_clean|done].
  apply forallb_forall. intros x Hx. rewrite forallb_forall in Hc. by apply root_char_name, Hc.
Qed.

Lemma pad_shape s : s <> [] -> zlen s <= 32 -> forallb root_char s = true -> adjacent spaced s = true -> head s <> Some 95 ->
  List.last s 0 <> 95 -> root_shape (pad_X s).
Proof.
  intros Hn Hl Hc Ha Hh Hb. unfold pad_X. unfold MIN_ASSET_LENGTH. set (k := Z.to_nat (3 - zlen s)). split.
  - rewrite zlen_app. unfold zlen in *. rewrite repeat_length. lia.
  - rewrite forallb_app, Hc, andb_true_r. clearbody k. by induction k.
  - apply adjacent_app. split_and!; [|done|].
    + clearbody k. induction k as [|[|k] IH]; [done..|]. cbn [repeat] in *. by rewrite adjacent_cons, IH.
    + intros a x y b E _. assert (x = 88) as ->; [|done]. apply (repeat_spec k 88 x). rewrite E. apply in_or_app. right. by left.
  - destruct k; [done|]. by intros [=].
  - destruct (exists_last Hn) as (a & x & ->). rewrite app_assoc. by rewrite List.last_last in *.
Qed.

Lemma mapped_shape h : valid_handle h -> root_shape (mapped_name h) /\
  MapXHandleToRootName h = if IsAssetNameARoot (mapped_name h) then Ok (mapped_name h) else Err NmNotRoot.
Proof.
  intros [Hl Hf]. destruct (upper_chars_ok h Hf) as (up & Hu & Hlu & Hcu).
  assert (Hne : CollapseUnderscores up <> []).
  { unfold CollapseUnderscores. destruct up as [|c t]; [destruct h; [unfold zlen in Hl; cbn in Hl; lia|done]|]. cbn. by rewrite andb_false_r. }
  destruct (collapse_chars root_char up 0 Hcu) as [Hc1 Hl1]. pose proof (adjacent_tail _ _ _ (collapse_spaced up 0)) as Ha1. fold (CollapseUnderscores up) in *.
  destruct (edge_front_ok _ Hne Hc1 Ha1) as (Hn2 & Hl2 & Hc2 & Ha2 & Hh2). destruct (edge_back_ok _ Hn2 Hc2 Ha2 Hh2) as (Hn3 & Hl3 & Hc3 & Ha3 & Hh3 & Hb3).
  assert (Hid : CollapseUnderscores (edge_back (edge_front (CollapseUnderscores up))) = edge_back (edge_front (CollapseUnderscores up))).
  { apply collapse_id. destruct (edge_back (edge_front (CollapseUnderscores up))) as [|x l]; [done|]. rewrite adjacent_cons, Ha3, andb_true_r. unfold spaced. lia. }
  assert (Hmn : mapped_name h = pad_X (CollapseUnderscores (edge_back (edge_front (CollapseUnderscores up))))) by (unfold mapped_name; by rewrite Hu).
  assert (Hs : root_shape (mapped_name h)) by (rewrite Hmn, Hid; apply pad_shape; try done; unfold zlen, MAX_X_HANDLE in *; lia).
  split; [done|]. unfold MapXHandleToRootName. rewrite Hu. cbv zeta. rewrite <-Hmn. destruct (Z.ltb_spec MAX_ROOT_NAME_LENGTH (zlen (mapped_name h))) as [H|_].
  { destruct (rs_size _ Hs). unfold MAX_ROOT_NAME_LENGTH in H. lia. }
  by destruct IsAssetNameARoot.
Qed.

(** ** The derived name *)

Lemma dec_value_nonneg s : forallb isdigit s = true -> 0 <= dec_value s.
Proof.
  unfold dec_value. assert (H : forall n, 0 <= n -> forallb isdigit s = true -> 0 <= fold_left (fun n c => n * 10 + (c - 48)) s n).
  { induction s as [|c t IH]; intros n Hn; [done|]. cbn. intros [Hc Ht]%andb_true_iff. apply IH; [|done]. unfold isdigit in Hc. lia. }
  by apply H.
Qed.

Lemma NormalizeXAccountId_ok x h uid : NormalizeXAccountId x = Ok (h, uid) -> valid_handle h /\ 0 <= uid < 2 ^ 64.
Proof.
  unfold NormalizeXAccountId, ParseXAccountSpec. destruct (TrimCopy x) as [|c s]; [done|]. destruct (split_sep (c :: s)) as [hp tl].
  destruct (NormalizeXHandle hp) as [h'|e] eqn:E; [|done]. apply Normalize_Ok_valid in E. set (idp := match tl with Some t => TrimCopy t | None => [] end).
  destruct idp as [|d ds] eqn:Ei; [by intros [= <- <-]|]. destruct (forallb isdigit (d :: ds)) eqn:Ed; cbn [negb]; [|done].
  destruct (Z.leb_spec (2 ^ 64) (dec_value (d :: ds))); [done|]. intros [= <- <-]. split; [done|]. split; [by apply dec_value_nonneg|done].
Qed.

(** An accepted account text is ASCII. *)
Lemma drop_space_small s : Forall (fun c => c < 128) (drop_space s) -> Forall (fun c => c < 128) s.
Proof.
  induction s as [|c t IH]; [done|]. cbn [drop_space]. destruct (isspace c) eqn:E; [|done]. intros H. constructor; [|by apply IH].
  unfold isspace in E. lia.
Qed.
Lemma TrimCopy_small s : Forall (fun c => c < 128) (TrimCopy s) -> Forall (fun c => c < 128) s.
Proof. unfold TrimCopy. intros H%Forall_rev. rewrite rev_involutive in H. apply drop_space_small, Forall_rev in H. rewrite rev_involutive in H. by apply drop_space_small. Qed.
Lemma normalize_chars_small s o : normalize_chars s = Some o -> Forall (fun c => c < 128) s.
Proof.
  revert o. induction s as [|c t IH]; [done|]. intros o. cbn. destruct (handle_char (to_lower c)) eqn:E; [|done]. destruct (normalize_chars t) as [o'|]; [|done].
  intros _. constructor; [|by eapply IH]. apply handle_char_range in E. unfold to_lower in E. destruct (_ && _) eqn:Ec; lia.
Qed.
Lemma NormalizeXHandle_small s h : NormalizeXHandle s = Ok h -> Forall (fun c => c < 128) s.
Proof.
  unfold NormalizeXHandle. intros H. apply TrimCopy_small.
  assert (Hs : Forall (fun c => c < 128) (strip_at (TrimCopy s))).
  { apply TrimCopy_small. destruct (TrimCopy (strip_at _)) as [|c t]; [done|]. destruct (_ <? _); [done|]. destruct (normalize_chars (c :: t)) eqn:E; [|done]. by eapply normalize_chars_small. }
  unfold strip_at in Hs. destruct (TrimCopy s) as [|c t]; [done|]. destruct (decide (c = 64)) as [->|]; [by constructor|].
  assert (Hc : (match c with 64 => t | _ => c :: t end) = c :: t) by (repeat case_match; congruence). by rewrite Hc in Hs.
Qed.
Lemma split_sep_small s : Forall (fun c => c < 128) (split_sep s).1 -> Forall (fun c => c < 128) (default [] (split_sep s).2) -> Forall (fun c => c < 128) s.
Proof.
  induction s as [|c t IH]; [done|]. cbn [split_sep]. destruct (_ || _) eqn:E; [intros _ H; constructor; [lia|done]|].
  destruct (split_sep t) as [a b]. cbn [fst snd] in *. intros [??]%Forall_cons ?. constructor; auto.
Qed.
Lemma NormalizeXAccountId_small x r : NormalizeXAccountId x = Ok r -> Forall (fun c => c < 128) x.
Proof.
  unfold NormalizeXAccountId, ParseXAccountSpec. intros H. apply TrimCopy_small. destruct (TrimCopy x) as [|c s]; [done|]. apply split_sep_small; revert H; destruct (split_sep (c :: s)) as [hp tl]; cbn [fst snd].
  - destruct (NormalizeXHandle hp) as [h'|e] eqn:E; [|done]. intros _. by eapply NormalizeXHandle_small.
  - destruct (NormalizeXHandle hp); [|done]. destruct tl as [t|]; [|constructor]. change (default [] (Some t)) with t. intros H. apply TrimCopy_small. revert H. destruct (TrimCopy t) as [|d ds]; [constructor|].
    destruct (forallb isdigit (d :: ds)) eqn:Ed; [|done]. intros _. rewrite forallb_forall in Ed. apply Forall_forall. intros y Hy%list_elem_of_In. specialize (Ed y Hy). unfold isdigit in Ed. lia.
Qed.

Lemma suffix_digits uid suf : 0 <= uid -> suf ∈ suffixes uid -> digs suf.
Proof.
  intros Hu Hs. assert (exists n, 0 <= n /\ suf = dec_str n) as (n & Hn & ->).
  { unfold suffixes in Hs. apply elem_of_app in Hs as [Hs|Hs].
    - destruct (uid =? 0); [by apply elem_of_nil in Hs|]. apply list_elem_of_singleton in Hs. eauto.
    - apply list_elem_of_fmap in Hs as (n & -> & Hn%elem_of_seqZ). exists n. split; [lia|done]. }
  unfold dec_str. destruct (Z.ltb_spec n 0); [lia|]. by destruct (dec_spec n Hn) as (_ & ? & _).
Qed.

Lemma reserved_no_underscore n : 95 ∈ n -> n ∉ reserved_names.
Proof.
  intros Hn Hr. assert (H : forallb (fun n => negb (existsb (Z.eqb 95) n)) reserved_names = true) by (vm_compute; reflexivity).
  rewrite forallb_forall in H. specialize (H n (proj1 (list_elem_of_In _ _) Hr)). apply negb_true_iff, not_true_iff_false in H.
  apply H, existsb_exists. exists 95. split; [by apply list_elem_of_In|done].
Qed.

Lemma suffixed_root base suf : root_shape base -> digs suf -> zlen base + 1 + zlen suf <= 32 -> IsAssetNameARoot (base ++ [95] ++ suf) = true.
Proof.
  intros [Hs Hc Ha Hf Hb] [Hne Hd] Hl. pose proof (zlen_nonneg suf) as H0. apply root_shape_root; [|apply reserved_no_underscore; set_solver].
  assert (Hdc : forall c, c ∈ suf -> isdigit c = true) by (intros c Hx; rewrite forallb_forall in Hd; by apply Hd, list_elem_of_In).
  split.
  - rewrite !zlen_app. change (zlen [95]) with 1. lia.
  - rewrite !forallb_app, Hc. cbn [forallb andb]. apply forallb_forall. intros c Hx%list_elem_of_In%Hdc. unfold root_char. by rewrite Hx, orb_true_r.
  - apply adjacent_app. split_and!; [done| |].
    + destruct suf as [|c t]; [done|]. cbn [app]. rewrite adjacent_cons. apply andb_true_iff. split.
      { specialize (Hdc c ltac:(set_solver)). unfold isdigit, spaced in *. lia. }
      clear Hl Hne Hd H0. revert c Hdc. induction t as [|d t IH]; intros c Hdc; [done|]. rewrite adjacent_cons. apply andb_true_iff.
      split; [|apply IH; set_solver]. specialize (Hdc c ltac:(set_solver)). unfold isdigit, spaced in *. lia.
    + intros a x y b -> [= <- _]. rewrite List.last_last in Hb. unfold spaced. lia.
  - destruct base; [unfold zlen in Hs; cbn in Hs; lia|done].
  - destruct (exists_last Hne) as (a & x & ->). rewrite !app_assoc, List.last_last. specialize (Hdc x ltac:(set_solver)). unfold isdigit in Hdc. lia.
Qed.

Lemma tryName_iff taken n : tryName taken n = true <-> IsAssetNameARoot n = true /\ taken n = false.
Proof.
  unfold tryName, MIN_ASSET_LENGTH, MAX_ROOT_NAME_LENGTH. split.
  - destruct (_ || _); [done|]. destruct (IsAssetNameARoot n); [|done]. cbn. by intros ?%negb_true_iff.
  - intros [Hr Ht]. pose proof Hr as [(Hl & _)%IsRootNameValid_iff Hm]%IsAssetNameARoot_iff. rewrite Hr, Ht.
    by replace (_ || _) with false by (symmetry; lia).
Qed.

Lemma try_suffixes_spec taken base sufs : root_shape base -> Forall digs sufs ->
  match try_suffixes taken base sufs with
  | Some n => IsAssetNameARoot n = true /\ taken n = false /\ exists suf, suf ∈ sufs /\ n = base ++ [95] ++ suf
  | None => forall suf, suf ∈ sufs -> zlen base + 1 + zlen suf <= 32 -> taken (base ++ [95] ++ suf) = true
  end.
Proof.
  intros Hb. induction 1 as [|suf sufs Hs _ IH]; [by intros ? ?%elem_of_nil|]. cbn [try_suffixes]. unfold MAX_ROOT_NAME_LENGTH.
  destruct (Z.ltb_spec 32 (zlen base + 1 + zlen suf)); [|destruct (tryName taken (base ++ [95] ++ suf)) eqn:Et].
  - destruct (try_suffixes taken base sufs); [destruct IH as (? & ? & s & ? & ?); split_and!; [done..|]; exists s; set_solver|].
    intros s [->|Hin]%elem_of_cons Hl; [lia|by apply IH].
  - apply tryName_iff in Et as [? ?]. split_and!; [done..|]. exists suf. set_solver.
  - destruct (try_suffixes taken base sufs); [destruct IH as (? & ? & s & ? & ?); split_and!; [done..|]; exists s; set_solver|].
    intros s [->|Hin]%elem_of_cons Hl; [|by apply IH]. destruct (taken (base ++ [95] ++ suf)) eqn:E; [done|].
    rewrite (proj2 (tryName_iff _ _)) in Et; [done|]. split; [by apply suffixed_root|done].
Qed.

(** C16. The main asset of an X account: for an accepted handle whose mapped name
    is not one of the reserved names, [DeriveMainAssetName] gives the mapped name
    itself when no asset has it, always gives a valid root name that no asset
    has, which is the mapped name or the mapped name, an underscore and a suffix,
    and fails only when the mapped name and every suffixed name that fits into 32
    characters are in use. *)
Theorem derived_name_free (taken : bytes -> bool) (x h : bytes) (uid : Z) :
  NormalizeXAccountId x = Ok (h, uid) -> mapped_name h ∉ reserved_names ->
  (taken (mapped_name h) = false -> DeriveMainAssetName taken x = Ok (mapped_name h)) /\
  match DeriveMainAssetName taken x with
  | Ok n => IsAssetNameARoot n = true /\ taken n = false /\
            (n = mapped_name h \/ exists suf, suf ∈ suffixes uid /\ n = mapped_name h ++ [95] ++ suf)
  | Err e => e = NmNoFreeName /\ taken (mapped_name h) = true /\
             forall suf, suf ∈ suffixes uid -> zlen (mapped_name h) + 1 + zlen suf <= 32 ->
                         taken (mapped_name h ++ [95] ++ suf) = true
  end.
Proof.
  intros Hx Hr. destruct (NormalizeXAccountId_ok x h uid Hx) as [Hv Hu]. destruct (mapped_shape h Hv) as [Hs Hm].
  pose proof (root_shape_root _ Hs Hr) as Hroot. rewrite Hroot in Hm. unfold DeriveMainAssetName. rewrite Hx, Hm.
  set (base := mapped_name h) in *. assert (Ht : tryName taken base = negb (taken base)).
  { destruct (taken base) eqn:E; [|by apply tryName_iff]. apply not_true_iff_false. intros [_ ?]%tryName_iff. congruence. }
  rewrite Ht. destruct (taken base) eqn:E; cbn [negb]; [|split; [done|]; split_and!; [done..|by left]].
  split; [done|]. assert (Hd : Forall digs (suffixes uid)) by (apply Forall_forall; intros suf; apply suffix_digits; lia).
  pose proof (try_suffixes_spec taken base (suffixes uid) Hs Hd) as Hspec. destruct (try_suffixes taken base (suffixes uid)) as [n|].
  - destruct Hspec as (? & ? & ?). split_and!; [done..|by right].
  - by split_and!.
Qed.

Lemma derived_name_free_witness :
  DeriveMainAssetName (fun n => bytes_eqb n (bs "X_ALICE") || bytes_eqb n (bs "XALICE")) (bs "@_alice:77") = Ok (bs "XALICE_77") /\
  (mapped_name (bs "_alice") ∉ reserved_names) /\
  match DeriveMainAssetName (fun n => bytes_eqb n (bs "XALICE")) (bs "@_alice:77") with
  | Ok n => IsAssetNameARoot n = true
  | Err _ => False
  end.
Proof.
  split; [vm_compute; reflexivity|]. assert (Hr : mapped_name (bs "_alice") ∉ reserved_names) by (apply (bool_decide_unpack _); vm_compute; exact I).
  split; [exact Hr|]. destruct (derived_name_free (fun n => bytes_eqb n (bs "XALICE")) (bs "@_alice:77") (bs "_alice") 77 ltac:(vm_compute; reflexivity) Hr) as [_ H].
  destruct (DeriveMainAssetName _ _) eqn:E; [exact (proj1 H)|]. revert E. vm_compute. discriminate.
Defined.
