(* ===== verification/XClaim.v ===== *)
(** * X-account claims

    The middle of src/src/assets/xaccount.cpp and the builder of
    src/src/assets/assets.cpp: the output that names an X account, the dummy
    input of a free identity claim, what makes a transaction such a claim, the
    signed proof of the site on it, and the claim the wallet builds. *)

From S2P Require Import Prelude OrdMap Sha256 Script Serialize Slots Tx Handle Hex Json Key Base58 AssetNames AssetScripts AssetTx XNames.

Local Open Scope Z_scope.

(** ** The assignment output *)

Definition XACCOUNT_ASSIGN_MAGIC : bytes := bs "XID1".
Definition XACCOUNT_DUMMY_N : Z := 0x58494431.
Definition XCLAIM_PROOF_VERSION : Z := 1.
Definition XCLAIM_PROOF_PAYLOAD_SIZE : Z := 4 + 1 + 1 + 8 + 4 + 65.
Definition XCLAIM_PROOF_MAX_FUTURE : Z := 3600.
Definition MAX_XCLAIM_DATACARRIER_BYTES : Z := 160.

Definition MakeXAccountAssignmentScript (xId : bytes) : CScript := OP_RETURN :: push (XACCOUNT_ASSIGN_MAGIC ++ xId).
Definition MakeXAccountAssignmentScriptWithProof (xId proofPayload : bytes) : CScript :=
  OP_RETURN :: push (XACCOUNT_ASSIGN_MAGIC ++ xId) ++ push proofPayload.

Definition ParseXAccountAssignmentScript (script : CScript) : option bytes :=
  match script with
  | [] => None
  | c :: pc =>
      if negb (c =? OP_RETURN) then None else
      match GetOp2 pc with
      | None => None
      | Some r =>
          let data := op_data r in
          if zlen data <? 5 then None else
          if negb (bytes_eqb (take 4 data) XACCOUNT_ASSIGN_MAGIC) then None else
          let xId := drop 4 data in
          if (zlen xId =? 0) || (MAX_X_HANDLE <? zlen xId) then None else Some xId
      end
  end.
Fixpoint first_assignment (outs : list CTxOut) : option bytes :=
  match outs with
  | [] => None
  | o :: outs => match ParseXAccountAssignmentScript (scriptPubKey o) with Some x => Some x | None => first_assignment outs end
  end.
Definition ParseXAccountAssignment (tx : CTransaction) : option bytes := first_assignment (vout tx).

(** ** The dummy input *)

Definition MakeXAccountDummyPrevout (normalizedHandle : bytes) : COutPoint :=
  mkOutPoint (sha256.Hash [bs "xcoin-xid-vin-v1"; normalizedHandle]) XACCOUNT_DUMMY_N.
Definition IsXAccountDummyPrevout (o : COutPoint) : bool :=
  (out_n o =? XACCOUNT_DUMMY_N) && negb (bytes_eqb (out_hash o) uint256_null).

Section Params.
Variable ap : AssetParams.

(** [IsXAccountIdentityClaim]: the handle of the claim. *)
Definition IsXAccountIdentityClaim (tx : CTransaction) : option bytes :=
  if IsCoinBase tx || HasWitness tx then None else
  match vin tx with
  | [i] =>
      if COutPoint_IsNull (prevout i) || negb (IsXAccountDummyPrevout (prevout i)) then None else
      if negb (zlen (scriptSig i) =? 0) || negb (zlen (scriptWitness i) =? 0) then None else
      if negb (nSequence i =? SEQUENCE_FINAL) then None else
      if existsb (fun o => negb (nValue o =? 0)) (vout tx) then None else
      match ParseXAccountAssignment tx with
      | None => None
      | Some xid =>
          match NormalizeXAccountId xid with
          | Err _ => None
          | Ok (handle, _) =>
              if negb (outpoint_eqb (prevout i) (MakeXAccountDummyPrevout handle)) then None else
              if negb (tx_IsNewAsset ap tx) then None else Some handle
          end
      end
  | _ => None
  end.
Definition is_claim (tx : CTransaction) : bool := match IsXAccountIdentityClaim tx with Some _ => true | None => false end.

Definition IsXAccountDummyInput (tx : CTransaction) (nIn : nat) : bool :=
  match vin tx !! nIn with
  | None => false
  | Some i => if negb (IsXAccountDummyPrevout (prevout i)) then false else is_claim tx
  end.

Definition CheckXAccountDummyInputs (tx : CTransaction) : option string :=
  let dummyCount := zlen (filter (fun i => IsXAccountDummyPrevout (prevout i) = true) (vin tx)) in
  if dummyCount =? 0 then None else
  if IsCoinBase tx then Some "bad-txns-coinbase-xid-dummy"%string else
  if negb (is_claim tx) then Some "bad-txns-xid-dummy-not-identity"%string else
  if negb (dummyCount =? 1) then Some "bad-txns-xid-dummy-count"%string else None.

End Params.

(** ** The proof of the site *)

Record XClaimProof := mkProof { pf_keyId : Z; pf_userId : Z; pf_expiry : Z; pf_sig : bytes }.

Definition XPF1 : bytes := bs "XPF1".
Definition BuildXClaimProofPayload (keyId userId expiry : Z) (sig : bytes) : option bytes :=
  if negb (zlen sig =? 65) then None else
  Some (XPF1 ++ [XCLAIM_PROOF_VERSION; keyId] ++ le_bytes 8 userId ++ le_bytes 4 expiry ++ sig).
Definition ParseXClaimProofPayload (data : bytes) : option XClaimProof :=
  if negb (zlen data =? XCLAIM_PROOF_PAYLOAD_SIZE) then None else
  if negb (bytes_eqb (take 4 data) XPF1) then None else
  if negb (nth 4 data 0 =? XCLAIM_PROOF_VERSION) then None else
  Some (mkProof (nth 5 data 0) (le_decode (take 8 (drop 6 data))) (le_decode (take 4 (drop 14 data))) (drop 18 data)).

(** The proof of one assignment script: exactly two pushes after OP_RETURN. *)
Definition script_proof (script : CScript) : option XClaimProof :=
  match GetOp2 script with
  | None => None
  | Some r0 =>
      if negb (op_code r0 =? OP_RETURN) then None else
      match GetOp2 (op_rest r0) with
      | None => None
      | Some r1 =>
          match GetOp2 (op_rest r1) with
          | None => None
          | Some r2 => if negb (zlen (op_rest r2) =? 0) then None else ParseXClaimProofPayload (op_data r2)
          end
      end
  end.
Fixpoint first_proof (outs : list CTxOut) : option XClaimProof :=
  match outs with
  | [] => None
  | o :: outs =>
      match ParseXAccountAssignmentScript (scriptPubKey o) with
      | None => first_proof outs
      | Some _ => script_proof (scriptPubKey o)
      end
  end.
Definition ParseXClaimProof (tx : CTransaction) : option XClaimProof := first_proof (vout tx).

(** A text with its length, cut at 255 bytes. *)
Definition short_text (s : bytes) : list bytes := [[Z.min (zlen s) 255]; take 255 s].
Definition XClaimProofDigest (handle : bytes) (userId : Z) (addrHash root : bytes) (expiry keyId : Z) : bytes :=
  sha256.Hash ([bs "xcoin-xpf-v1"] ++ short_text handle ++ [le_bytes 8 userId; addrHash] ++ short_text root ++
               [le_bytes 4 expiry; [keyId]]).

Section Bind.
Variable ap : AssetParams.

(** The outputs of new assets: the root and its key, the owner's key. *)
Fixpoint bind_outs (outs : list CTxOut) (root : option (bytes * bytes)) (owner : option bytes)
    : option (option (bytes * bytes) * option bytes) :=
  match outs with
  | [] => Some (root, owner)
  | o :: outs =>
      match IsAssetScript (scriptPubKey o) with
      | Some (TX_NEW_ASSET, fOwner, _) =>
          match ExtractDestination (scriptPubKey o) with
          | Some (CKeyID id) =>
              if fOwner then match owner with Some _ => None | None => bind_outs outs root (Some id) end else
              match root with
              | Some _ => None
              | None =>
                  match AssetFromScript ap (scriptPubKey o) with
                  | None => None
                  | Some (asset, _) =>
                      if (zlen (strName asset) =? 0) || (255 <? zlen (strName asset)) then None else
                      bind_outs outs (Some (strName asset, id)) owner
                  end
              end
          | _ => None
          end
      | _ => bind_outs outs root owner
      end
  end.
Definition XClaimBindFields (tx : CTransaction) : option (bytes * bytes * bytes) :=
  match IsXAccountIdentityClaim ap tx with
  | None => None
  | Some handle =>
      if (zlen handle =? 0) || (255 <? zlen handle) then None else
      match bind_outs (vout tx) None None with
      | Some (Some (root, rootId), Some ownerId) => if bytes_eqb rootId ownerId then Some (handle, rootId, root) else None
      | _ => None
      end
  end.

Context `{Secp256k1}.
Definition signers := omap Z CPubKey.

Definition CheckXClaimProof (g_xclaimProofPubs : signers) (tx : CTransaction) (now : Z) : option string :=
  match ParseXClaimProof tx with
  | None => Some "xclaim-proof-missing"%string
  | Some proof =>
      let exp := pf_expiry proof in
      if (now <? 0) || (exp <=? now) || (XCLAIM_PROOF_MAX_FUTURE <? exp - now) then Some "xclaim-proof-expired"%string else
      match XClaimBindFields tx with
      | None => Some "xclaim-proof-mismatch"%string
      | Some (handle, addr, root) =>
          match om_find (pf_keyId proof) g_xclaimProofPubs with
          | None => Some "xclaim-proof-bad-sig"%string
          | Some pub =>
              if negb (IsFullyValid pub) || negb (zlen (pf_sig proof) =? 65) then Some "xclaim-proof-bad-sig"%string else
              match RecoverCompact (XClaimProofDigest handle (pf_userId proof) addr root exp (pf_keyId proof)) (pf_sig proof) with
              | None => Some "xclaim-proof-bad-sig"%string
              | Some rec => if bytes_eqb rec pub then None else Some "xclaim-proof-bad-sig"%string
              end
          end
      end
  end.

Definition XClaimProofEnforced (pubs : signers) : bool := negb (zlen pubs =? 0) && forallb (fun kv => IsFullyValid kv.2) pubs.
Definition XClaimProofBlocksInclusion (pubs : signers) (now : Z) (tx : CTransaction) : bool :=
  if negb (XClaimProofEnforced pubs) || negb (is_claim ap tx) then false else
  match CheckXClaimProof pubs tx now with None => false | Some _ => true end.
Definition XClaimDatacarrierExempt (fAcceptDatacarrier : bool) (nMaxDatacarrierBytes : Z) (tx : CTransaction) (script : CScript) : bool :=
  if negb fAcceptDatacarrier then false else
  if zlen script <=? nMaxDatacarrierBytes then false else
  if MAX_XCLAIM_DATACARRIER_BYTES <? zlen script then false else
  if negb (List.hd 0 script =? OP_RETURN) then false else
  if negb (is_claim ap tx) then false else
  match ParseXClaimProof tx with Some _ => true | None => false end.

(** ** Signer keys *)

Inductive pub_error := PubEmpty | PubShape | PubId | PubHex | PubFormat | PubDuplicate.
Definition no_space (s : bytes) : bytes := filter (fun c => isspace c = false) s.
Fixpoint at_colon (s : bytes) : option (bytes * bytes) :=
  match s with
  | [] => None
  | c :: t => if c =? 58 then Some ([], t) else match at_colon t with Some (a, b) => Some (c :: a, b) | None => None end
  end.
Definition CPubKey_IsCompressed (k : CPubKey) : bool := zlen k =? 33.
Definition ParseOneXClaimPub (specIn : bytes) : result (Z * CPubKey) pub_error :=
  let spec := no_space specIn in
  if zlen spec =? 0 then Err PubEmpty else
  match at_colon spec with
  | None => Err PubShape
  | Some (idStr, hex) =>
      if (zlen idStr =? 0) || (zlen hex =? 0) then Err PubShape else
      if 3 <? zlen idStr then Err PubId else
      if negb (forallb isdigit idStr) then Err PubId else
      if 255 <? dec_value idStr then Err PubId else
      if negb (zlen hex =? 66) || negb (IsHex hex) then Err PubHex else
      let data := ParseHex hex in
      if negb (zlen data =? 33) then Err PubHex else
      let pub := CPubKey_Set data in
      if negb (CPubKey_IsValid pub) || negb (CPubKey_IsCompressed pub) then Err PubFormat else
      Ok (dec_value idStr, pub)
  end.
Fixpoint add_pubs (pieces : list bytes) (next : signers) : result signers pub_error :=
  match pieces with
  | [] => Ok next
  | piece :: pieces =>
      let piece := no_space piece in
      if zlen piece =? 0 then add_pubs pieces next else
      match ParseOneXClaimPub piece with
      | Err e => Err e
      | Ok (id, pub) =>
          if om_mem id next then Err PubDuplicate else add_pubs pieces (om_insert id pub next)
      end
  end.
Definition commas (raw : bytes) : list bytes := let '(p, ps) := split_at 44 raw in p :: ps.
Definition SetXClaimProofPubkeys (specs : list bytes) : result signers pub_error := add_pubs (concat (map commas specs)) [].
(** The keys kept, and whether they are ready. *)
Definition XClaimProofPubReady (pubs : signers) : bool * signers :=
  if forallb (fun kv => IsFullyValid kv.2) pubs then (true, pubs) else (false, []).

End Bind.

(** ** The claim the wallet builds *)

Section Build.
Variable ap : AssetParams.

Inductive build_error := BeHandle (e : spec_error) | BeAddress | BeClaim (e : option string).

Definition CURRENT_VERSION : Z := 2.
Definition IsValidDestination (d : CTxDestination) : bool := match d with CNoDestination => false | _ => true end.
Definition CreateZeroFeeIdentityRootTransaction (asset : CNewAsset) (address xHandle : bytes) (xclaimProof : option bytes)
    : result CTransaction build_error :=
  match NormalizeXAccountId xHandle with
  | Err e => Err (BeHandle e)
  | Ok (handle, _) =>
      let dest := DecodeDestination (ap_prefixes ap) address in
      if negb (IsValidDestination dest) then Err BeAddress else
      let xid := match xclaimProof with
                 | Some ((_ :: _) as p) => MakeXAccountAssignmentScriptWithProof handle p
                 | _ => MakeXAccountAssignmentScript handle
                 end in
      let tx := mkTx CURRENT_VERSION [mkTxIn (MakeXAccountDummyPrevout handle) [] SEQUENCE_FINAL []]
                  [mkTxOut 0 xid;
                   mkTxOut 0 (ConstructOwnerTransaction asset (GetScriptForDestination dest));
                   mkTxOut 0 (ConstructTransaction asset (GetScriptForDestination dest))] 0 in
      match CheckXAccountDummyInputs ap tx with
      | Some e => Err (BeClaim (Some e))
      | None => if negb (is_claim ap tx) then Err (BeClaim None) else Ok tx
      end
  end.

Definition MAIN_ASSET_CIRCULATING_AMOUNT : Z := COIN.
Definition main_asset (name : bytes) : CNewAsset := mkNewAsset name MAIN_ASSET_CIRCULATING_AMOUNT 0 0 0 [].

End Build.

(** ** What is built reads back *)

Lemma assignment_parsed h rest : 1 <= zlen h <= MAX_X_HANDLE ->
  ParseXAccountAssignmentScript (OP_RETURN :: push (XACCOUNT_ASSIGN_MAGIC ++ h) ++ rest) = Some h.
Proof.
  unfold MAX_X_HANDLE. intros Hl. unfold ParseXAccountAssignmentScript. rewrite Z.eqb_refl. cbn [negb].
  assert (Hz : zlen (XACCOUNT_ASSIGN_MAGIC ++ h) = 4 + zlen h) by (by rewrite zlen_app).
  destruct (GetOp2_push (XACCOUNT_ASSIGN_MAGIC ++ h) rest) as (op & _ & ->); [lia|]. cbn [op_data]. rewrite Hz.
  destruct (Z.ltb_spec (4 + zlen h) 5); [lia|]. change (take 4 (XACCOUNT_ASSIGN_MAGIC ++ h)) with XACCOUNT_ASSIGN_MAGIC.
  rewrite bytes_eqb_refl. cbn [negb]. change (drop 4 (XACCOUNT_ASSIGN_MAGIC ++ h)) with (drop 0 h). rewrite drop_0. unfold MAX_X_HANDLE.
  by replace (_ || _) with false by (symmetry; lia).
Qed.

Lemma payload_parsed keyId userId expiry sig payload : byte_ok keyId -> 0 <= userId < 2 ^ 64 -> 0 <= expiry < 2 ^ 32 ->
  BuildXClaimProofPayload keyId userId expiry sig = Some payload ->
  zlen payload = 83 /\ ParseXClaimProofPayload payload = Some (mkProof keyId userId expiry sig).
Proof.
  intros Hk Hu He. unfold BuildXClaimProofPayload. destruct (Z.eqb_spec (zlen sig) 65) as [Hs|]; [|done]. cbn [negb]. intros E. apply (inj Some) in E as <-.
  set (u := le_bytes 8 userId). set (e := le_bytes 4 expiry). assert (Hlu : length u = 8%nat) by apply length_le_bytes. assert (Hle : length e = 4%nat) by apply length_le_bytes.
  assert (Hz : zlen (XPF1 ++ [XCLAIM_PROOF_VERSION; keyId] ++ u ++ e ++ sig) = 83).
  { rewrite !zlen_app, Hs. unfold zlen. rewrite Hlu, Hle. done. }
  split; [done|]. unfold ParseXClaimProofPayload, XCLAIM_PROOF_PAYLOAD_SIZE. rewrite Hz. change (83 =? 4 + 1 + 1 + 8 + 4 + 65) with true. cbn [negb].
  change (take 4 (XPF1 ++ ?x)) with XPF1. rewrite bytes_eqb_refl. cbn [negb].
  change (nth 4 (XPF1 ++ [XCLAIM_PROOF_VERSION; keyId] ++ u ++ e ++ sig) 0) with XCLAIM_PROOF_VERSION. rewrite Z.eqb_refl. cbn [negb].
  change (nth 5 (XPF1 ++ [XCLAIM_PROOF_VERSION; keyId] ++ u ++ e ++ sig) 0) with keyId.
  change (drop 6 (XPF1 ++ [XCLAIM_PROOF_VERSION; keyId] ++ u ++ e ++ sig)) with (drop 0 (u ++ e ++ sig)).
  change (drop 14 (XPF1 ++ [XCLAIM_PROOF_VERSION; keyId] ++ u ++ e ++ sig)) with (drop 8 (u ++ e ++ sig)).
  change (drop 18 (XPF1 ++ [XCLAIM_PROOF_VERSION; keyId] ++ u ++ e ++ sig)) with (drop 12 (u ++ e ++ sig)).
  rewrite drop_0, take_app_length' by done. rewrite drop_app_length' by done. rewrite take_app_length' by done.
  rewrite (drop_app_ge u) by lia. rewrite Hlu, drop_app_length' by (rewrite Hle; done).
  unfold u, e. rewrite !le_decode_le_bytes, !Z.mod_small by (cbn; lia). done.
Qed.

Lemma proof_parsed h payload : 1 <= zlen h <= MAX_X_HANDLE -> zlen payload = 83 ->
  script_proof (MakeXAccountAssignmentScriptWithProof h payload) = ParseXClaimProofPayload payload.
Proof.
  unfold MAX_X_HANDLE. intros Hl Hp. unfold script_proof, MakeXAccountAssignmentScriptWithProof. cbn [GetOp2].
  change (OP_RETURN <=? OP_PUSHDATA4) with false. change (OP_RETURN =? OP_RVN_ASSET) with false. cbn [op_code op_rest].
  rewrite Z.eqb_refl. cbn [negb]. assert (Hz : zlen (XACCOUNT_ASSIGN_MAGIC ++ h) = 4 + zlen h) by (by rewrite zlen_app).
  destruct (GetOp2_push (XACCOUNT_ASSIGN_MAGIC ++ h) (push payload)) as (op & _ & ->); [lia|]. cbn [op_rest].
  destruct (GetOp2_push payload []) as (op2 & _ & Hop2); [lia|]. rewrite app_nil_r in Hop2. rewrite Hop2. done.
Qed.

Lemma main_asset_wf name : IsAssetNameARoot name = true -> wf_new_asset (main_asset name) /\ IsAssetNameValid name = (true, ROOT).
Proof.
  intros H. split.
  - apply IsAssetNameARoot_iff in H as [(Hl & Hc & _)%IsRootNameValid_iff Hm]. unfold wf_new_asset. cbn [strName na_nAmount na_units na_nReissuable na_nHasIPFS na_strIPFSHash main_asset].
    assert (Ho : bytes_ok name).
    { apply List.Forall_forall. intros c Hx. rewrite forallb_forall in Hc. apply Hc, name_char_range in Hx. unfold byte_ok. lia. }
    split_and!; try (unfold wf_int, MAIN_ASSET_CIRCULATING_AMOUNT, COIN; cbn; lia); [|by left|done].
    split; [done|unfold MAX_SIZE; lia].
  - unfold IsAssetNameARoot in H. destruct (IsAssetNameValid name) as [ok type]. apply andb_true_iff in H as [-> ->%bool_decide_eq_true]. done.
Qed.

Section BuiltClaim.
Variable ap : AssetParams.

Lemma new_asset_script id a : length id = 20%nat -> wf_new_asset a ->
  exists n, IsAssetScript (ConstructTransaction a (P2PKH id)) = Some (TX_NEW_ASSET, false, n).
Proof.
  intros Hl Ha. destruct (new_asset_roundtrip a Ha) as [_ Hz]. assert (Hp : length (P2PKH id) = 25%nat) by (pose proof (length_P2PKH id Hl) as H; unfold zlen in H; unfold P2PKH; lia).
  destruct (asset_tail_script (P2PKH id) RVN_Q (enc_new_asset a) TX_NEW_ASSET false Hp ltac:(lia) ltac:(lia) eq_refl) as (n & Hn & _). by exists n.
Qed.
Lemma owner_script id a : length id = 20%nat -> wf_new_asset a ->
  exists n, IsAssetScript (ConstructOwnerTransaction a (P2PKH id)) = Some (TX_NEW_ASSET, true, n).
Proof.
  intros Hl (_ & Hz & _). assert (Hp : length (P2PKH id) = 25%nat) by (pose proof (length_P2PKH id Hl) as H; unfold zlen in H; unfold P2PKH; lia).
  assert (Hzo : zlen (strName a ++ OWNER_TAG) = zlen (strName a) + 1) by (rewrite zlen_app; done).
  destruct (asset_tail_script (P2PKH id) RVN_O (enc c_bytes (strName a ++ OWNER_TAG)) TX_NEW_ASSET true Hp ltac:(rewrite zlen_enc_name; lia) ltac:(done) eq_refl) as (n & Hn & _).
  by exists n.
Qed.

(** The claim of a handle, its assignment script, key and name. *)
Definition claim_tx (h : bytes) (xid : CScript) (id name : bytes) : CTransaction :=
  mkTx CURRENT_VERSION [mkTxIn (MakeXAccountDummyPrevout h) [] SEQUENCE_FINAL []]
    [mkTxOut 0 xid; mkTxOut 0 (ConstructOwnerTransaction (main_asset name) (P2PKH id));
     mkTxOut 0 (ConstructTransaction (main_asset name) (P2PKH id))] 0.

Lemma claim_is_new_asset h xid id name : length id = 20%nat -> IsAssetNameARoot name = true -> tx_IsNewAsset ap (claim_tx h xid id name) = true.
Proof.
  intros Hl Hn. destruct (main_asset_wf name Hn) as [Hw Ht]. destruct (new_asset_script id _ Hl Hw) as (n & Hs). destruct (owner_script id _ Hl Hw) as (m & Ho).
  pose proof (AssetFromScript_built ap id _ Hl Hw) as Hf. unfold tx_IsNewAsset, claim_tx, last_out, owner_out, CheckIssueDataTx, CheckOwnerDataTx, IsScriptNewAsset, IsScriptOwnerAsset. cbn [vout length Nat.sub lookup list_lookup on_out scriptPubKey].
  change (zlen [_; _; _] <? 3) with false. cbn iota. rewrite Hs, Ho. cbn [on_out].
  rewrite !bool_decide_eq_true_2 by eauto. cbn [negb].
  unfold IsScriptNewUniqueAsset, IsScriptNewRestrictedAsset, script_new_type. rewrite Hf. cbn [strName main_asset]. rewrite Ht. done.
Qed.

Definition hash_not_null (h : bytes) : Prop := out_hash (MakeXAccountDummyPrevout h) <> uint256_null.

Lemma normalize_own h : valid_handle h -> NormalizeXAccountId h = Ok (h, 0).
Proof.
  intros [Hl Hf]. unfold NormalizeXAccountId, ParseXAccountSpec. rewrite TrimCopy_id by done. destruct h as [|c t]; [unfold zlen in Hl; cbn in Hl; lia|].
  assert (Hsp : split_sep (c :: t) = (c :: t, None)).
  { clear -Hf. induction Hf as [|d l Hd _ IH]; [done|]. cbn [split_sep]. unfold handle_char, isdigit in Hd. replace ((d =? 58) || (d =? 44)) with false by (symmetry; lia). by rewrite IH. }
  rewrite Hsp, Normalize_valid by (by split). done.
Qed.

(** The text [raw] of the claim may be any spelling of the handle. *)
Lemma claim_recognised h raw uid xid id name : NormalizeXAccountId raw = Ok (h, uid) -> hash_not_null h -> length id = 20%nat -> IsAssetNameARoot name = true ->
  ParseXAccountAssignmentScript xid = Some raw ->
  IsXAccountIdentityClaim ap (claim_tx h xid id name) = Some h /\ CheckXAccountDummyInputs ap (claim_tx h xid id name) = None.
Proof.
  intros Hv Hnn Hl Hn Hx. assert (Hdummy : IsXAccountDummyPrevout (MakeXAccountDummyPrevout h) = true).
  { unfold IsXAccountDummyPrevout, hash_not_null in *. apply bytes_eqb_neq in Hnn. by rewrite Hnn. }
  assert (Hnull : COutPoint_IsNull (MakeXAccountDummyPrevout h) = false) by (unfold COutPoint_IsNull, MakeXAccountDummyPrevout; cbn [out_n]; by rewrite andb_false_r).
  assert (Hclaim : IsXAccountIdentityClaim ap (claim_tx h xid id name) = Some h).
  { unfold IsXAccountIdentityClaim. rewrite (claim_is_new_asset h xid id name Hl Hn). unfold IsCoinBase, HasWitness, ParseXAccountAssignment, claim_tx. cbn [vin vout prevout scriptSig scriptWitness nSequence existsb first_assignment scriptPubKey nValue].
    rewrite Hnull, Hdummy, Hx. change (zlen (@nil (list Z)) =? 0) with true. change (zlen (@nil Z) =? 0) with true. change (0 =? 0) with true. rewrite Z.eqb_refl. cbn [negb orb existsb].
    rewrite Hv. unfold outpoint_eqb. rewrite bytes_eqb_refl, Z.eqb_refl. done. }
  split; [done|]. unfold CheckXAccountDummyInputs, is_claim. rewrite Hclaim. unfold claim_tx, IsCoinBase. cbn [vin]. cbn [prevout]. rewrite Hnull, filter_cons_True by done. done.
Qed.
End BuiltClaim.

Section Proofs.
Variable ap : AssetParams.
Context `{Secp256k1, !Secp256k1Laws _}.

Lemma bind_claim h xid id name : valid_handle h -> hash_not_null h -> length id = 20%nat -> IsAssetNameARoot name = true ->
  ParseXAccountAssignmentScript xid = Some h -> IsAssetScript xid = None ->
  XClaimBindFields ap (claim_tx h xid id name) = Some (h, id, name).
Proof.
  intros Hv Hnn Hl Hn Hx Ha. destruct (claim_recognised ap h h 0 xid id name (normalize_own h Hv) Hnn Hl Hn Hx) as [Hc _]. destruct (main_asset_wf name Hn) as [Hw _].
  destruct (new_asset_script id _ Hl Hw) as (n & Hs). destruct (owner_script id _ Hl Hw) as (m & Ho). pose proof (AssetFromScript_built ap id _ Hl Hw) as Hf.
  unfold XClaimBindFields. rewrite Hc. destruct Hv as [Hh _]. unfold MAX_X_HANDLE in Hh. replace ((zlen h =? 0) || (255 <? zlen h)) with false by (symmetry; lia).
  assert (Hdo : ExtractDestination (ConstructOwnerTransaction (main_asset name) (P2PKH id)) = Some (CKeyID id)) by exact (asset_destination id _ _ Hl Ho).
  assert (Hds : ExtractDestination (ConstructTransaction (main_asset name) (P2PKH id)) = Some (CKeyID id)) by exact (asset_destination id _ _ Hl Hs).
  unfold claim_tx. cbn [vout bind_outs scriptPubKey]. rewrite Ha, Ho, Hs, Hdo, Hds, Hf. cbn [strName main_asset].
  apply IsAssetNameARoot_iff in Hn as [(H3 & _)%IsRootNameValid_iff H32]. replace ((zlen name =? 0) || (255 <? zlen name)) with false by (symmetry; lia).
  by rewrite bytes_eqb_refl.
Qed.

Lemma length_digest h uid addr root exp keyId : zlen (XClaimProofDigest h uid addr root exp keyId) = 32.
Proof. unfold XClaimProofDigest, sha256.Hash, sha256.CHash256_Finalize, sha256.CSHA256_Finalize, zlen. by rewrite sha256.length_out_bytes. Qed.

(** C13. A free claim from end to end: for a handle, the address of a key, a root
    name and the site's signature on them, the wallet builds a transaction that
    is an identity claim of exactly that handle, passes the rules on dummy
    inputs, and passes [CheckXClaimProof] on a node that knows the signing key,
    at every time from one hour before the expiry until the expiry. The claim's
    own output must not read as an asset script, which depends on the bytes of
    the user id and the signature, and the dummy hash must not be zero. *)
Theorem signed_claim_accepted (signer : CKey) (pub : CPubKey) (pubs : signers) (h id name : bytes) (keyId uid exp now : Z) :
  prefixes_ok (ap_prefixes ap) -> key_ok signer -> fValid signer = true -> GetPubKey signer = Some pub -> om_find keyId pubs = Some pub ->
  byte_ok keyId -> 0 <= uid < 2 ^ 64 -> 0 <= exp < 2 ^ 32 -> valid_handle h -> hash_not_null h ->
  wf_destination (CKeyID id) -> IsAssetNameARoot name = true -> 0 <= now < exp -> exp <= now + XCLAIM_PROOF_MAX_FUTURE ->
  exists sig payload,
    SignCompact signer (XClaimProofDigest h uid id name exp keyId) = Some sig /\
    BuildXClaimProofPayload keyId uid exp sig = Some payload /\
    (IsAssetScript (MakeXAccountAssignmentScriptWithProof h payload) = None ->
     exists tx, CreateZeroFeeIdentityRootTransaction ap (main_asset name) (EncodeDestination (ap_prefixes ap) (CKeyID id)) h (Some payload) = Ok tx /\
       IsXAccountIdentityClaim ap tx = Some h /\ CheckXAccountDummyInputs ap tx = None /\
       CheckXClaimProof ap pubs tx now = None).
Proof.
  intros Hp Hk Hv Hpub Hfind Hkey Hu He Hh Hnn Hd Hn Hnow Hexp. pose proof Hd as [Hl Hid]. pose proof Hh as [Hlen _].
  destruct (SignCompact_recover signer _ Hk Hv (length_digest h uid id name exp keyId)) as (sig & pub' & Hsig & Hsl & _ & Hpub' & Hrec).
  rewrite Hpub in Hpub'. apply (inj Some) in Hpub' as <-.
  destruct (BuildXClaimProofPayload keyId uid exp sig) as [payload|] eqn:Eb; [|unfold BuildXClaimProofPayload in Eb; rewrite Hsl in Eb; discriminate Eb].
  exists sig, payload. split; [done|]. split; [done|]. intros Hasset. destruct (payload_parsed _ _ _ _ _ Hkey Hu He Eb) as [Hz Hparse].
  destruct payload as [|b payload]; [discriminate Hz|]. set (xid := MakeXAccountAssignmentScriptWithProof h (b :: payload)) in *. assert (Hx : ParseXAccountAssignmentScript xid = Some h) by (by apply assignment_parsed).
  destruct (claim_recognised ap h h 0 xid id name (normalize_own h Hh) Hnn Hl Hn Hx) as [Hclaim Hdummy]. exists (claim_tx h xid id name).
  split_and!; [|done|done|].
  - unfold CreateZeroFeeIdentityRootTransaction. rewrite (normalize_own h Hh), destination_roundtrip by done. cbn [IsValidDestination negb].
    transitivity (match CheckXAccountDummyInputs ap (claim_tx h xid id name) with
                  | Some e => Err (BeClaim (Some e))
                  | None => if negb (is_claim ap (claim_tx h xid id name)) then Err (BeClaim None) else Ok (claim_tx h xid id name)
                  end); [reflexivity|].
    unfold is_claim. by rewrite Hdummy, Hclaim.
  - unfold CheckXClaimProof, ParseXClaimProof, claim_tx. cbn [vout first_proof scriptPubKey]. rewrite Hx. unfold xid. rewrite proof_parsed, Hparse by done. cbn [pf_expiry pf_keyId pf_sig pf_userId].
    replace ((now <? 0) || (exp <=? now) || (XCLAIM_PROOF_MAX_FUTURE <? exp - now)) with false by (symmetry; lia).
    fold xid. fold (claim_tx h xid id name). rewrite (bind_claim h xid id name Hh Hnn Hl Hn Hx Hasset), Hfind, Hrec, Hsl, bytes_eqb_refl.
    destruct (GetPubKey_total signer Hk Hv) as (pub2 & Hpub2 & Hfull). rewrite Hpub in Hpub2. apply (inj Some) in Hpub2 as <-. by rewrite Hfull.
Qed.

End Proofs.

(** ** What the hashes of a claim commit to *)

Definition claim_preimage (handle : bytes) (userId : Z) (addrHash root : bytes) (expiry keyId : Z) : bytes :=
  concat ([bs "xcoin-xpf-v1"] ++ short_text handle ++ [le_bytes 8 userId; addrHash] ++ short_text root ++ [le_bytes 4 expiry; [keyId]]).
Definition dummy_preimage (handle : bytes) : bytes := bs "xcoin-xid-vin-v1" ++ handle.

Lemma short_text_app s t r r' : zlen s <= 255 -> zlen t <= 255 ->
  concat (short_text s) ++ r = concat (short_text t) ++ r' -> s = t /\ r = r'.
Proof.
  unfold short_text, zlen. intros Hs Ht. cbn [concat]. rewrite !app_nil_r, !take_ge by lia. cbn [app]. intros [= El E].
  apply app_inj_1 in E; [done|]. lia.
Qed.

Lemma XClaimProofDigest_preimage h u a r e k :
  XClaimProofDigest h u a r e k = sha256.sha256_spec (sha256.sha256_spec (claim_preimage h u a r e k)).
Proof. unfold XClaimProofDigest, claim_preimage. apply sha256.Hash_correct. Qed.
Lemma dummy_hash h : out_hash (MakeXAccountDummyPrevout h) = sha256.sha256_spec (sha256.sha256_spec (dummy_preimage h)).
Proof.
  assert (E : concat [bs "xcoin-xid-vin-v1"; h] = dummy_preimage h) by (unfold dummy_preimage; cbn [concat]; by rewrite app_nil_r).
  rewrite <-E. unfold MakeXAccountDummyPrevout, out_hash. apply sha256.Hash_correct.
Qed.

Lemma claim_preimage_inj h1 h2 u1 u2 a1 a2 r1 r2 e1 e2 k1 k2 :
  zlen h1 <= 255 -> zlen h2 <= 255 -> zlen r1 <= 255 -> zlen r2 <= 255 -> length a1 = 20%nat -> length a2 = 20%nat ->
  0 <= u1 < 2 ^ 64 -> 0 <= u2 < 2 ^ 64 -> 0 <= e1 < 2 ^ 32 -> 0 <= e2 < 2 ^ 32 ->
  claim_preimage h1 u1 a1 r1 e1 k1 = claim_preimage h2 u2 a2 r2 e2 k2 ->
  h1 = h2 /\ u1 = u2 /\ a1 = a2 /\ r1 = r2 /\ e1 = e2 /\ k1 = k2.
Proof.
  intros Hh1 Hh2 Hr1 Hr2 Ha1 Ha2 Hu1 Hu2 He1 He2. unfold claim_preimage. rewrite !concat_app. intros E.
  apply app_inv_head in E. apply short_text_app in E as [-> E]; [|done..]. cbn [concat] in E. rewrite !app_nil_r, <-!app_assoc in E.
  apply app_inj_1 in E as [Eu E]; [|by rewrite !length_le_bytes]. apply app_inj_1 in E as [-> E]; [|congruence].
  apply short_text_app in E as [-> E]; [|done..]. apply app_inj_1 in E as [Ee E]; [|by rewrite !length_le_bytes].
  apply le_bytes_inj in Eu; [|done..]. apply le_bytes_inj in Ee; [|done..]. injection E as ->. by split_and!.
Qed.

Lemma IsXAccountIdentityClaim_vin ap tx h : IsXAccountIdentityClaim ap tx = Some h ->
  exists i, vin tx = [i] /\ prevout i = MakeXAccountDummyPrevout h /\ Forall (fun o => nValue o = 0) (vout tx).
Proof.
  unfold IsXAccountIdentityClaim. destruct (_ || _); [done|]. destruct (vin tx) as [|i [|]]; [done| |done]. intros E.
  destruct (_ || _); [done|]. destruct (_ || _); [done|]. destruct (negb (nSequence i =? SEQUENCE_FINAL)); [done|]. destruct (existsb _ (vout tx)) eqn:Ev; [done|].
  destruct (ParseXAccountAssignment tx) as [xid|]; [|done]. destruct (NormalizeXAccountId xid) as [[hd u]|]; [|done].
  destruct (outpoint_eqb (prevout i) (MakeXAccountDummyPrevout hd)) eqn:Eo; [|done]. cbn [negb] in E. destruct (negb (tx_IsNewAsset ap tx)); [done|].
  injection E as ->. exists i. split; [done|]. split.
  - unfold outpoint_eqb in Eo. apply andb_true_iff in Eo as [E1 E2]. apply bytes_eqb_eq in E1. apply Z.eqb_eq in E2. destruct (prevout i), (MakeXAccountDummyPrevout h); cbn in *; congruence.
  - apply List.Forall_forall. intros o Ho. apply not_true_iff_false in Ev. destruct (Z.eqb_spec (nValue o) 0) as [|Hne]; [done|]. exfalso. apply Ev, existsb_exists.
    exists o. split; [done|]. by apply negb_true_iff, Z.eqb_neq.
Qed.

(** C14. What a claim's hashes commit to. The site's signature is over double
    SHA-256 of a string that determines the handle, user id, address, root name,
    expiry and key id; and two claims spend the same dummy outpoint, so that they
    conflict in the memory pool, whenever they are for one handle, and only then
    unless two different strings have the same double SHA-256. *)
Theorem claim_hashes_bind (ap : AssetParams) :
  (forall h u a r e k, XClaimProofDigest h u a r e k = sha256.sha256_spec (sha256.sha256_spec (claim_preimage h u a r e k))) /\
  (forall h1 h2 u1 u2 a1 a2 r1 r2 e1 e2 k1 k2,
     zlen h1 <= 255 -> zlen h2 <= 255 -> zlen r1 <= 255 -> zlen r2 <= 255 -> length a1 = 20%nat -> length a2 = 20%nat ->
     0 <= u1 < 2 ^ 64 -> 0 <= u2 < 2 ^ 64 -> 0 <= e1 < 2 ^ 32 -> 0 <= e2 < 2 ^ 32 ->
     claim_preimage h1 u1 a1 r1 e1 k1 = claim_preimage h2 u2 a2 r2 e2 k2 ->
     h1 = h2 /\ u1 = u2 /\ a1 = a2 /\ r1 = r2 /\ e1 = e2 /\ k1 = k2) /\
  (forall tx1 tx2 h1 h2, IsXAccountIdentityClaim ap tx1 = Some h1 -> IsXAccountIdentityClaim ap tx2 = Some h2 ->
     (h1 = h2 -> prevout <$> vin tx1 = prevout <$> vin tx2) /\
     ((exists o, o ∈ prevout <$> vin tx1 /\ o ∈ prevout <$> vin tx2) ->
      h1 = h2 \/ dummy_preimage h1 <> dummy_preimage h2 /\
        sha256.sha256_spec (sha256.sha256_spec (dummy_preimage h1)) = sha256.sha256_spec (sha256.sha256_spec (dummy_preimage h2)))).
Proof.
  split_and!; [exact XClaimProofDigest_preimage|exact claim_preimage_inj|].
  intros tx1 tx2 h1 h2 H1 H2. apply IsXAccountIdentityClaim_vin in H1 as (i1 & Hv1 & Ho1 & _). apply IsXAccountIdentityClaim_vin in H2 as (i2 & Hv2 & Ho2 & _).
  rewrite Hv1, Hv2. cbn [fmap list_fmap]. rewrite Ho1, Ho2. split; [by intros ->|]. intros (o & ->%list_elem_of_singleton & E%list_elem_of_singleton).
  destruct (decide (h1 = h2)) as [|Hne]; [by left|right]. split; [intros Ep; apply app_inv_head in Ep; done|].
  apply (f_equal out_hash) in E. by rewrite !dummy_hash in E.
Qed.

(** ** A claim with its proof, computed *)

Lemma toy_hash_not_null : hash_not_null (bs "alice").
Proof. intros E. apply (f_equal (fun l => List.hd 0 l)) in E. revert E. vm_compute. discriminate. Qed.

Lemma signed_claim_accepted_witness : exists sig payload tx,
  SignCompact (H := toy_secp256k1) (toy_key 5) (XClaimProofDigest (bs "alice") 44196397 (repeat 7 20) (bs "ALICE") 1800000000 1) = Some sig /\
  CreateZeroFeeIdentityRootTransaction main_assets (main_asset (bs "ALICE")) (EncodeDestination main_prefixes (CKeyID (repeat 7 20))) (bs "alice") (Some payload) = Ok tx /\
  CheckXClaimProof (H := toy_secp256k1) main_assets [(1, 2 :: repeat 5 32)] tx 1799999000 = None.
Proof.
  destruct (signed_claim_accepted (Secp256k1Laws0 := toy_secp256k1_laws) main_assets (toy_key 5) (2 :: repeat 5 32) [(1, 2 :: repeat 5 32)]
    (bs "alice") (repeat 7 20) (bs "ALICE") 1 44196397 1800000000 1799999000) as (sig & payload & Hs & Hb & H).
  - exact main_prefixes_ok.
  - split; vm_compute; reflexivity.
  - reflexivity.
  - vm_compute. reflexivity.
  - reflexivity.
  - unfold byte_ok. lia.
  - lia.
  - lia.
  - apply (Normalize_Ok_valid (bs "alice")). vm_compute. reflexivity.
  - exact toy_hash_not_null.
  - split; [reflexivity|]. apply repeat_Forall. unfold byte_ok. lia.
  - vm_compute. reflexivity.
  - lia.
  - unfold XCLAIM_PROOF_MAX_FUTURE. lia.
  - destruct H as (tx & Hc & _ & _ & Hp); [|exact (ex_intro _ sig (ex_intro _ payload (ex_intro _ tx (conj Hs (conj Hc Hp)))))].
    assert (Hsig : SignCompact (H := toy_secp256k1) (toy_key 5) (XClaimProofDigest (bs "alice") 44196397 (repeat 7 20) (bs "ALICE") 1800000000 1) = Some (31 :: repeat 5 32 ++ (XClaimProofDigest (bs "alice") 44196397 (repeat 7 20) (bs "ALICE") 1800000000 1))) by (vm_compute; reflexivity).
    rewrite Hs in Hsig. apply (inj Some) in Hsig as ->.
    assert (Ha : match BuildXClaimProofPayload 1 44196397 1800000000 (31 :: repeat 5 32 ++ (XClaimProofDigest (bs "alice") 44196397 (repeat 7 20) (bs "ALICE") 1800000000 1)) with
                 | Some p => IsAssetScript (MakeXAccountAssignmentScriptWithProof (bs "alice") p)
                 | None => None
                 end = None) by (vm_compute; reflexivity).
    rewrite Hb in Ha. exact Ha.
Defined.
