(* ===== verification/XAssign.v ===== *)
(** * X-account assignments

    The end of src/src/assets/xaccount.cpp with the places that change its state:
    the two maps from X accounts to root assets and back, their rows in the assets
    database (src/src/assets/assetdb.cpp), the maps of the memory pool
    (src/src/txmempool.cpp, src/src/validation.cpp), and what connecting and
    disconnecting a transaction do to them (src/src/coins.cpp,
    src/src/validation.cpp). *)

From S2P Require Import Prelude OrdMap Script Tx Handle Session AssetNames AssetScripts AssetTx XNames XClaim.

Local Open Scope Z_scope.

(** ** State *)

Record XState := mkXState {
  mapXAccountToAsset : omap bytes bytes;
  mapAssetToXAccount : omap bytes bytes;
  xaccount_db : option (omap bytes bytes);   (** the rows, when the database is open *)
}.
Record XPool := mkXPool {
  mapXAccountToHash : omap bytes bytes;
  mapHashToXAccount : omap bytes bytes;
  mapAssetToHash : omap bytes bytes;
  mapHashToAsset : omap bytes bytes;
}.
Definition empty_pool : XPool := mkXPool [] [] [] [].
Definition empty_xstate : XState := mkXState [] [] (Some []).

(** [CheckIfXAccountAssigned]: the asset name it writes, which stays empty when
    the pool has no asset for the transaction. *)
Definition CheckIfXAccountAssigned (st : XState) (pool : XPool) (xId : bytes) : option bytes :=
  match om_find xId (mapXAccountToAsset st) with
  | Some asset => Some asset
  | None =>
      match om_find xId (mapXAccountToHash pool) with
      | Some hash => Some (default [] (om_find hash (mapHashToAsset pool)))
      | None => None
      end
  end.

(** A database write that fails leaves the row as it was; the code goes on. *)
Definition db_write (ok : bool) (f : omap bytes bytes -> omap bytes bytes) (db : option (omap bytes bytes)) : option (omap bytes bytes) :=
  if ok then option_map f db else db.

Definition AddXAccountAssignment (ok : bool) (xId assetName : bytes) (st : XState) : bool * XState :=
  match om_find xId (mapXAccountToAsset st) with
  | Some asset => if bytes_eqb asset assetName then
      (true, mkXState (om_insert xId assetName (mapXAccountToAsset st)) (om_insert assetName xId (mapAssetToXAccount st))
               (db_write ok (om_insert xId assetName) (xaccount_db st)))
      else (false, st)
  | None =>
      (true, mkXState (om_insert xId assetName (mapXAccountToAsset st)) (om_insert assetName xId (mapAssetToXAccount st))
               (db_write ok (om_insert xId assetName) (xaccount_db st)))
  end.
Definition RemoveXAccountAssignment (ok : bool) (xId : bytes) (st : XState) : XState :=
  match om_find xId (mapXAccountToAsset st) with
  | None => st
  | Some asset =>
      mkXState (om_erase xId (mapXAccountToAsset st)) (om_erase asset (mapAssetToXAccount st))
        (db_write ok (om_erase xId) (xaccount_db st))
  end.
(** The maps a node has after a restart. *)
Definition reverse_map (m : omap bytes bytes) : omap bytes bytes := fold_left (fun r kv => om_insert kv.2 kv.1 r) m [].
Definition LoadXAccountAssignments (st : XState) : XState :=
  match xaccount_db st with
  | None => st
  | Some loaded => mkXState loaded (reverse_map loaded) (Some loaded)
  end.
Definition restart (st : XState) : XState := LoadXAccountAssignments (mkXState [] [] (xaccount_db st)).

(** ** The memory pool *)

Section Params.
Variable ap : AssetParams.

(** The last step of [AcceptToMemoryPool] for X accounts: [None] when it refuses. *)
Definition pool_note_xaccount (tx : CTransaction) (pool : XPool) : option XPool :=
  match ParseXAccountAssignment tx with
  | None => Some pool
  | Some xid =>
      let hash := GetHash tx in
      let noted := mkXPool (om_insert xid hash (mapXAccountToHash pool)) (om_insert hash xid (mapHashToXAccount pool))
                     (mapAssetToHash pool) (mapHashToAsset pool) in
      match om_find xid (mapXAccountToHash pool) with
      | Some other => if bytes_eqb other hash then Some noted else None
      | None => Some noted
      end
  end.
(** The part of [removeUnchecked]. *)
Definition pool_remove (hash : bytes) (pool : XPool) : XPool :=
  let pool := match om_find hash (mapHashToAsset pool) with
              | Some name => mkXPool (mapXAccountToHash pool) (mapHashToXAccount pool)
                               (om_erase name (mapAssetToHash pool)) (om_erase hash (mapHashToAsset pool))
              | None => pool
              end in
  match om_find hash (mapHashToXAccount pool) with
  | Some xid => mkXPool (om_erase xid (mapXAccountToHash pool)) (om_erase hash (mapHashToXAccount pool))
                  (mapAssetToHash pool) (mapHashToAsset pool)
  | None => pool
  end.

(** ** Blocks *)

(** What [AddCoins] records of a transaction that issues an asset. A checked
    transaction of that kind carries a readable asset. *)
Definition connect_assignment (ok : bool) (tx : CTransaction) (st : XState) : XState :=
  if negb (tx_IsNewAsset ap tx) then st else
  match AssetFromTransaction ap tx, ParseXAccountAssignment tx with
  | Some (asset, _), Some xid => (AddXAccountAssignment ok xid (strName asset) st).2
  | _, _ => st
  end.
(** What [DisconnectBlock] forgets of it, unless it is a dry run. *)
Definition disconnect_assignment (fJustCheck ok : bool) (tx : CTransaction) (st : XState) : XState :=
  if negb (tx_IsNewAsset ap tx) then st else
  match ParseXAccountAssignment tx with
  | Some xid => if fJustCheck then st else RemoveXAccountAssignment ok xid st
  | None => st
  end.

(** ** Issuing under one's own root *)

Inductive issue_error := IeSession (e : session_error) | IeNoRoot | IeOther (ownRoot : bytes).
Definition RequireIssueUnderOwnMain (x : XFiles) (st : XState) (pool : XPool) (assetName : bytes) : option issue_error :=
  match RequireSession x with
  | Some e => Some (IeSession e)
  | None =>
      match CheckIfXAccountAssigned st pool (SignedInHandle x) with
      | None => Some IeNoRoot
      | Some ownRoot =>
          if zlen ownRoot =? 0 then Some IeNoRoot else
          let root := TopLevelRootName assetName in
          if (zlen root =? 0) || negb (bytes_eqb root ownRoot) then Some (IeOther ownRoot) else None
      end
  end.
End Params.

(** ** The state machine *)

Inductive xevent := XConnect (ap : AssetParams) (tx : CTransaction) | XDisconnect (ap : AssetParams) (tx : CTransaction) | XRestart.
Definition xstep (st : XState) (e : xevent) : XState :=
  match e with
  | XConnect ap tx => connect_assignment ap true tx st
  | XDisconnect ap tx => disconnect_assignment ap false true tx st
  | XRestart => restart st
  end.
Definition xrun (es : list xevent) (st : XState) : XState := fold_left xstep es st.

(** The database has the rows of the map. *)
Definition xstate_ok (st : XState) : Prop := om_wf (mapXAccountToAsset st) /\ xaccount_db st = Some (mapXAccountToAsset st).

Lemma Add_ok xId name st : xstate_ok st -> xstate_ok (AddXAccountAssignment true xId name st).2.
Proof.
  intros [Hw Hd]. unfold AddXAccountAssignment.
  assert (H : xstate_ok (mkXState (om_insert xId name (mapXAccountToAsset st)) (om_insert name xId (mapAssetToXAccount st))
    (db_write true (om_insert xId name) (xaccount_db st)))).
  { split; cbn; [by apply om_wf_insert|]. by rewrite Hd. }
  destruct (om_find xId (mapXAccountToAsset st)); [|done]. by destruct bytes_eqb.
Qed.
Lemma Remove_ok xId st : xstate_ok st -> xstate_ok (RemoveXAccountAssignment true xId st).
Proof.
  intros [Hw Hd]. unfold RemoveXAccountAssignment. destruct (om_find xId (mapXAccountToAsset st)); [|done].
  split; cbn; [by apply om_wf_erase|]. by rewrite Hd.
Qed.

Lemma xstep_ok e st : xstate_ok st -> xstate_ok (xstep st e).
Proof.
  intros H. destruct e as [ap tx|ap tx|]; cbn [xstep].
  - unfold connect_assignment. destruct (negb _); [done|]. destruct (AssetFromTransaction ap tx) as [[a ?]|]; [|done].
    destruct (ParseXAccountAssignment tx); [by apply Add_ok|done].
  - unfold disconnect_assignment. destruct (negb _); [done|]. destruct (ParseXAccountAssignment tx); [by apply Remove_ok|done].
  - destruct H as [Hw Hd]. unfold restart, LoadXAccountAssignments. cbn [xaccount_db]. rewrite Hd. by split.
Qed.

Lemma xrun_ok es st : xstate_ok st -> xstate_ok (xrun es st).
Proof. revert st. induction es as [|e es IH]; intros st H; [done|]. apply IH. by apply xstep_ok. Qed.

(** C17. Assignments survive a restart: after any run of connected and
    disconnected transactions and restarts from an empty database, with every
    database write succeeding, a restart gives back exactly the map from X
    accounts to root assets. *)
Theorem assignments_survive_restart (es : list xevent) :
  mapXAccountToAsset (restart (xrun es empty_xstate)) = mapXAccountToAsset (xrun es empty_xstate).
Proof.
  destruct (xrun_ok es empty_xstate) as [_ Hd]; [split; [constructor|done]|]. unfold restart, LoadXAccountAssignments. cbn [xaccount_db]. by rewrite Hd.
Qed.

Lemma Add_find xId name st k : om_find k (mapXAccountToAsset (AddXAccountAssignment true xId name st).2) =
  match om_find k (mapXAccountToAsset st) with
  | Some a => Some a
  | None => if decide (k = xId) then Some name else None
  end.
Proof.
  unfold AddXAccountAssignment. destruct (om_find xId (mapXAccountToAsset st)) as [a|] eqn:E.
  - destruct (bytes_eqb a name) eqn:Eb; cbn.
    + apply bytes_eqb_eq in Eb as ->. rewrite om_find_insert. destruct (decide (xId = k)) as [->|]; [by rewrite E|].
      destruct (om_find k _); [done|]. by rewrite decide_False by congruence.
    + destruct (om_find k _) eqn:Ek; [done|]. destruct (decide (k = xId)) as [->|]; [congruence|done].
  - cbn. rewrite om_find_insert. destruct (decide (xId = k)) as [->|].
    + by rewrite E, decide_True.
    + destruct (om_find k _); [done|]. by rewrite decide_False by congruence.
Qed.

(** An assignment, once made, is not replaced by another connected transaction. *)
Lemma connect_keeps ap tx st k a : om_find k (mapXAccountToAsset st) = Some a ->
  om_find k (mapXAccountToAsset (connect_assignment ap true tx st)) = Some a.
Proof.
  intros H. unfold connect_assignment. destruct (negb _); [done|]. destruct (AssetFromTransaction ap tx) as [[n ?]|]; [|done].
  destruct (ParseXAccountAssignment tx); [|done]. by rewrite Add_find, H.
Qed.
