(* ===== verification/VerifyAssets.v ===== *)
(** * Rules on asset transactions

    The rules of src/src/assets/assets.cpp that CheckTransaction calls: the
    [Verify] functions on the shape of an issue or reissue, the checks of one
    asset, and the verifier strings. [None] means that a check passes, [Some] is
    the reason it sets. *)

From S2P Require Import Prelude OrdMap Script Serialize Slots Tx Handle Hex Base58 Regex AssetNames AssetScripts AssetTx BoolExpr.
From S2P Require Import XNames XClaim XAssign.

Local Open Scope string_scope.
Local Open Scope list_scope.
Local Open Scope Z_scope.

(** The first reason of a list of checks, in order. *)
Fixpoint first_error {A} (l : list (option A)) : option A :=
  match l with
  | [] => None
  | None :: l => first_error l
  | Some e :: _ => Some e
  end.
Definition need (ok : bool) (e : string) : option string := if ok then None else Some e.

Definition OWNER_LENGTH : Z := 1.
Definition OWNER_ASSET_AMOUNT : Z := COIN.
Definition UNIQUE_ASSET_AMOUNT : Z := COIN.
Definition UNIQUE_ASSET_UNITS : Z := 0.
Definition QUALIFIER_ASSET_MIN_AMOUNT : Z := COIN.
Definition QUALIFIER_ASSET_MAX_AMOUNT : Z := 10 * COIN.
Definition QUALIFIER_ASSET_UNITS : Z := 0.
Definition MAX_UNIT : Z := 8.

(** ** Kinds of names *)

Definition name_valid (name : bytes) : bool := (IsAssetNameValid name).1.
Definition name_type (name : bytes) : AssetType := (IsAssetNameValid name).2.
Definition IsAssetNameAnOwner (name : bytes) : bool := name_valid name && regex_match name OWNER_INDICATOR.
Definition IsAssetNameAnRestricted (name : bytes) : bool := name_valid name && regex_match name RESTRICTED_INDICATOR.
Definition IsAssetNameAQualifier (name : bytes) (fOnlyQualifiers : bool) : bool :=
  if fOnlyQualifiers then name_valid name && regex_match name QUALIFIER_INDICATOR
  else name_valid name && (regex_match name QUALIFIER_INDICATOR || regex_match name SUB_QUALIFIER_INDICATOR).
Definition IsAssetNameAnMsgChannel (name : bytes) : bool := name_valid name && regex_match name MSG_CHANNEL_INDICATOR.

(** ** Hashes carried by an asset *)

Definition EncodeIPFS (decoded : bytes) : bytes := default [] (EncodeBase58 decoded).
Definition EncodeAssetData (decoded : bytes) : bytes :=
  if zlen decoded =? 34 then EncodeIPFS decoded else if zlen decoded =? 32 then HexStr decoded else [].
Definition CheckEncoded (hash : bytes) : option string :=
  let encodedStr := EncodeAssetData hash in
  if bytes_eqb (take 2 encodedStr) (bs "Qm") && (zlen encodedStr =? 46) then None else
  if IsHex encodedStr && (zlen encodedStr =? 64) then None else
  Some "Invalid parameter: ipfs_hash is not valid, or txid hash is not the right length".
Definition CheckAmountWithUnits (nAmount nUnits : Z) : bool := Z.rem nAmount (10 ^ (MAX_UNIT - nUnits)) =? 0.

(** ** One asset *)

Definition is_type (t : AssetType) (ts : list AssetType) : bool := existsb (fun u => bool_decide (u = t)) ts.

Definition CheckNewAsset (asset : CNewAsset) : option string :=
  let assetType := name_type (strName asset) in
  first_error
    [ need (name_valid (strName asset)) "Invalid parameter: asset_name must only consist of valid characters";
      need (negb (is_type assetType [RESTRICTED; QUALIFIER; SUB_QUALIFIER])) "Restricted assets were removed";
      (if is_type assetType [UNIQUE; MSGCHANNEL] then
         first_error [ need (na_units asset =? UNIQUE_ASSET_UNITS) "Invalid parameter: units must be 0";
                       need (na_nAmount asset =? UNIQUE_ASSET_AMOUNT) "Invalid parameter: amount must be 100000000";
                       need (na_nReissuable asset =? 0) "Invalid parameter: reissuable must be 0" ]
       else None);
      (if is_type assetType [QUALIFIER; SUB_QUALIFIER] then
         first_error [ need (na_units asset =? QUALIFIER_ASSET_UNITS) "Invalid parameter: units must be 0";
                       need ((QUALIFIER_ASSET_MIN_AMOUNT <=? na_nAmount asset) && (na_nAmount asset <=? QUALIFIER_ASSET_MAX_AMOUNT))
                         "Invalid parameter: amount must be between";
                       need (na_nReissuable asset =? 0) "Invalid parameter: reissuable must be 0" ]
       else None);
      need (negb (IsAssetNameAnOwner (strName asset))) "Invalid parameters: asset_name can't have a '!' at the end of it";
      need (0 <? na_nAmount asset) "Invalid parameter: asset amount can't be equal to or less than zero.";
      need (na_nAmount asset <=? MAX_MONEY) "Invalid parameter: asset amount greater than max money";
      need ((0 <=? na_units asset) && (na_units asset <=? 8)) "Invalid parameter: units must be between 0-8.";
      need (CheckAmountWithUnits (na_nAmount asset) (na_units asset)) "Invalid parameter: amount must be divisible by the smaller unit assigned to the asset";
      need ((na_nReissuable asset =? 0) || (na_nReissuable asset =? 1)) "Invalid parameter: reissuable must be 0 or 1";
      need ((na_nHasIPFS asset =? 0) || (na_nHasIPFS asset =? 1)) "Invalid parameter: has_ipfs must be 0 or 1." ].

(** The two values the public test network is excused for. *)
Definition testnet_skip (testnet : bool) (r : CReissueAsset) : bool :=
  testnet && ((bytes_eqb (re_strName r) (bs "GAMINGWEB") && (re_nReissuable r =? 109)) ||
              (bytes_eqb (re_strName r) (bs "UINT8") && (re_nReissuable r =? -47))).
Definition CheckReissueAsset (testnet : bool) (r : CReissueAsset) : option string :=
  first_error
    [ need ((0 <=? re_nAmount r) && (re_nAmount r <? MAX_MONEY)) "Unable to reissue asset: amount must be 0 or larger";
      need ((re_nUnits r <=? MAX_UNIT) && (-1 <=? re_nUnits r)) "Unable to reissue asset: unit must be between 8 and -1";
      need (testnet_skip testnet r || (re_nReissuable r =? 0) || (re_nReissuable r =? 1)) "Unable to reissue asset: reissuable must be 0 or 1" ].

(** ** Verifier strings *)

Definition QUALIFIER_CHAR : Z := 35.
Definition RESTRICTED_CHAR : Z := 36.

(** The longest runs of name characters, as [regex_search] finds them; [run] is
    the current one, reversed. *)
Fixpoint name_runs (s run : bytes) : list bytes :=
  match s with
  | [] => if zlen run =? 0 then [] else [rev run]
  | c :: s => if name_char c then name_runs s (c :: run)
              else (if zlen run =? 0 then [] else [rev run]) ++ name_runs s []
  end.
Definition ExtractVerifierStringQualifiers (verifier : bytes) : omap bytes unit :=
  fold_left (fun m q => om_insert q tt m) (name_runs verifier []) [].
Definition GetStrippedVerifierString (verifier : bytes) : bytes := removeCharacter (removeWhitespaces verifier) QUALIFIER_CHAR.

(** The qualifiers found, or the reason. *)
Definition CheckVerifierString (verifier : bytes) : result (omap bytes unit) string :=
  if bytes_eqb verifier (bs "true") then Ok [] else
  if zlen verifier =? 0 then Err "Verifier string can not be empty" else
  let strippedVerifier := GetStrippedVerifierString verifier in
  if 80 <? zlen strippedVerifier then Err "Verifier string has length greater than 80 after whitespaces and '#' are removed" else
  let setFoundQualifiers := ExtractVerifierStringQualifiers strippedVerifier in
  if negb (forallb (fun q => IsQualifierNameValid (QUALIFIER_CHAR :: q)) (om_keys setFoundQualifiers)) then
    Err "bad-txns-null-verifier-invalid-asset-name-" else
  match resolve verifier (fun q => if om_mem q setFoundQualifiers then Some true else None) with
  | Some _ => Ok setFoundQualifiers
  | None => Err "bad-txns-null-verifier-failed-syntax-check"
  end.

Definition VerifyNullAssetDataFlag (flag : Z) : option string :=
  need ((flag =? 0) || (flag =? 1)) "bad-txns-null-data-flag-must-be-0-or-1".

Section Params.
Variable ap : AssetParams.

Definition CheckVerifierAssetTxOut (txout : CTxOut) : option string :=
  match AssetNullVerifierDataFromScript ap (scriptPubKey txout) with
  | None => Some "bad-txns-null-verifier-data-serialization"
  | Some verifier =>
      if existsb (Z.eqb 32) verifier then Some "bad-txns-null-verifier-data-contained-whitespaces" else
      if existsb (Z.eqb 35) verifier then Some "bad-txns-null-verifier-data-contained-qualifier-character-#" else
      match CheckVerifierString verifier with Ok _ => None | Err e => Some e end
  end.

(** ** The shape of a transaction *)

Definition burns (tx : CTransaction) (type : AssetType) (n : Z) : bool := existsb (fun o => CheckIssueBurnTx ap o type n) (vout tx).
Definition CheckAddingTagBurnFee (tx : CTransaction) (count : Z) : bool := burns tx NULL_ADD_QUALIFIER count.

(** The numbers of issues, owner tokens and reissues among the outputs. *)
Definition counts (tx : CTransaction) (ok : asset_counts -> bool) (e : string) : option string := need (ok (GetTxOutAssetTypes (vout tx))) e.

Definition VerifyNewAsset (st : XState) (pool : XPool) (tx : CTransaction) : option string :=
  if zlen (vout tx) <? 3 then Some "bad-txns-issue-vout-size-to-small" else
  match last_out tx, owner_out tx with
  | Some data, Some own =>
      if negb (CheckIssueDataTx data) then Some "bad-txns-issue-data-not-found" else
      if negb (CheckOwnerDataTx own) then Some "bad-txns-issue-owner-data-not-found" else
      match AssetFromScript ap (scriptPubKey data) with
      | None => Some "bad-txns-issue-serialzation-failed"
      | Some (asset, _) =>
          let assetType := name_type (strName asset) in
          match OwnerAssetFromScript ap (scriptPubKey own) with
          | None => Some "bad-txns-issue-owner-serialzation-failed"
          | Some (strOwnerName, _) =>
              first_error
                [ need (bytes_eqb strOwnerName (strName asset ++ OWNER_TAG)) "bad-txns-issue-owner-name-doesn't-match";
                  (if is_type assetType [ROOT] then
                     if burns tx assetType 1 then Some "bad-txns-issue-root-must-be-protocol-assignment" else
                     match ParseXAccountAssignment tx with
                     | None => Some "bad-txns-issue-root-missing-xaccount"
                     | Some xid =>
                         match CheckIfXAccountAssigned st pool xid with
                         | Some existing => need (bytes_eqb existing (strName asset)) "bad-txns-xaccount-already-assigned"
                         | None => None
                         end
                     end
                   else need (burns tx assetType 1) "bad-txns-issue-burn-not-found");
                  (if is_type assetType [SUB] then
                     need (transfers_of ap (vout tx) (GetParentName (strName asset) ++ OWNER_TAG)) "bad-txns-issue-new-asset-missing-owner-asset"
                   else None);
                  counts tx (fun c => (nOwners c =? 1) && (nIssues c =? 1) && (nReissues c <=? 0)) "bad-txns-failed-issue-asset-formatting-check" ]
          end
      end
  | _, _ => Some "bad-txns-issue-data-not-found"
  end.

(** The unique assets of a transaction: their common parent, their names, their number. *)
Fixpoint unique_outs (outs : list CTxOut) (assetRoot : bytes) (names : list bytes) (n : Z) : result (bytes * Z) string :=
  match outs with
  | [] => Ok (assetRoot, n)
  | o :: outs =>
      if negb (IsScriptNewUniqueAsset ap (scriptPubKey o)) then unique_outs outs assetRoot names n else
      match AssetFromScript ap (scriptPubKey o) with
      | None => Err "bad-txns-issue-unique-asset-from-script"
      | Some (asset, _) =>
          let root := GetParentName (strName asset) in
          let assetRoot := if zlen assetRoot =? 0 then root else assetRoot in
          if negb (bytes_eqb assetRoot root) then Err "bad-txns-issue-unique-asset-compare-failed" else
          if existsb (bytes_eqb (strName asset)) names then Err "bad-txns-issue-unique-duplicate-name-in-same-tx" else
          unique_outs outs assetRoot (strName asset :: names) (n + 1)
      end
  end.
Definition VerifyNewUniqueAsset (tx : CTransaction) : option string :=
  if zlen (vout tx) <? 3 then Some "bad-txns-unique-vout-size-to-small" else
  match unique_outs (vout tx) [] [] 0 with
  | Err e => Some e
  | Ok (assetRoot, n) =>
      first_error
        [ need (negb (n =? 0)) "bad-txns-issue-unique-asset-bad-outpoint-count";
          need (burns tx UNIQUE n) "bad-txns-issue-unique-asset-burn-outpoints-not-found";
          need (transfers_of ap (vout tx) (assetRoot ++ OWNER_TAG)) "bad-txns-issue-unique-asset-missing-owner-asset";
          counts tx (fun c => (nOwners c <=? 0) && (nReissues c <=? 0) && (nIssues c =? n)) "bad-txns-failed-unique-asset-formatting-check" ]
  end.

Definition no_owner_one_issue (c : asset_counts) : bool := (nOwners c =? 0) && (nIssues c =? 1) && (nReissues c <=? 0).

Definition VerifyNewMsgChannelAsset (tx : CTransaction) : option string :=
  if zlen (vout tx) <? 3 then Some "bad-txns-issue-msgchannel-vout-size-to-small" else
  match last_out tx with
  | None => Some "bad-txns-issue-data-not-found"
  | Some data =>
      if negb (CheckIssueDataTx data) then Some "bad-txns-issue-data-not-found" else
      match MsgChannelAssetFromScript ap (scriptPubKey data) with
      | None => Some "bad-txns-issue-msgchannel-serialzation-failed"
      | Some (asset, _) =>
          first_error
            [ need (burns tx MSGCHANNEL 1) "bad-txns-issue-msgchannel-burn-not-found";
              need (transfers_of ap (vout tx) (GetParentName (strName asset) ++ OWNER_TAG)) "bad-txns-issue-msg-channel-asset-bad-owner-asset";
              counts tx no_owner_one_issue "bad-txns-failed-issue-msgchannel-asset-formatting-check" ]
      end
  end.
Definition VerifyNewQualfierAsset (tx : CTransaction) : option string :=
  if zlen (vout tx) <? 2 then Some "bad-txns-issue-qualifier-vout-size-to-small" else
  match last_out tx with
  | None => Some "bad-txns-issue-qualifider-data-not-found"
  | Some data =>
      if negb (CheckIssueDataTx data) then Some "bad-txns-issue-qualifider-data-not-found" else
      match QualifierAssetFromScript ap (scriptPubKey data) with
      | None => Some "bad-txns-issue-qualifier-serialzation-failed"
      | Some (asset, _) =>
          let assetType := name_type (strName asset) in
          first_error
            [ need (burns tx assetType 1) "bad-txns-issue-qualifier-burn-not-found";
              (if is_type assetType [SUB_QUALIFIER] then
                 need (transfers_of ap (vout tx) (GetParentName (strName asset))) "bad-txns-issue-sub-qualifier-parent-outpoint-not-found"
               else None);
              counts tx no_owner_one_issue "bad-txns-failed-issue-asset-formatting-check" ]
      end
  end.
Definition VerifyNewRestrictedAsset (tx : CTransaction) : option string :=
  if zlen (vout tx) <? 4 then Some "bad-txns-issue-restricted-vout-size-to-small" else
  match last_out tx with
  | None => Some "bad-txns-issue-restricted-data-not-found"
  | Some data =>
      if negb (CheckIssueDataTx data) then Some "bad-txns-issue-restricted-data-not-found" else
      match RestrictedAssetFromScript ap (scriptPubKey data) with
      | None => Some "bad-txns-issue-restricted-serialization-failed"
      | Some (asset, _) =>
          let root := GetParentName (strName asset) in
          first_error
            [ need (burns tx (name_type (strName asset)) 1) "bad-txns-issue-restricted-burn-not-found";
              need (transfers_of ap (vout tx) (drop 1 root ++ OWNER_TAG)) "bad-txns-issue-restricted-root-owner-token-outpoint-not-found";
              match GetVerifierStringFromTx ap tx with
              | Ok (Some _) => None
              | Ok None => Some "Verifier string not found"
              | Err e => Some e
              end;
              counts tx no_owner_one_issue "bad-txns-failed-issue-asset-formatting-check" ]
      end
  end.
Definition VerifyReissueAsset (tx : CTransaction) : option string :=
  if zlen (vout tx) <? 3 then Some "bad-txns-vout-size-to-small" else
  match last_out tx with
  | None => Some "bad-txns-reissue-data-not-found"
  | Some data =>
      if negb (CheckReissueDataTx data) then Some "bad-txns-reissue-data-not-found" else
      match ReissueAssetFromScript ap (scriptPubKey data) with
      | None => Some "bad-txns-reissue-serialization-failed"
      | Some (reissue, _) =>
          let name := if is_type (name_type (re_strName reissue)) [RESTRICTED] then drop 1 (re_strName reissue) else re_strName reissue in
          first_error
            [ need (transfers_of ap (vout tx) (name ++ OWNER_TAG)) "bad-txns-reissue-owner-outpoint-not-found";
              need (existsb (CheckReissueBurnTx ap) (vout tx)) "bad-txns-reissue-burn-outpoint-not-found";
              counts tx (fun c => (nOwners c <=? 0) && (nReissues c =? 1) && (nIssues c <=? 0)) "bad-txns-failed-reissue-asset-formatting-check" ]
      end
  end.

Definition IsNewOwnerTxValid (tx : CTransaction) (assetName address : bytes) : option string :=
  match OwnerFromTransaction ap tx with
  | None => Some "bad-txns-bad-owner"
  | Some (ownerName, ownerAddress) =>
      first_error
        [ need (bytes_eqb ownerAddress address) "bad-txns-owner-address-mismatch";
          need (OWNER_LENGTH + MIN_ASSET_LENGTH <=? zlen ownerName) "bad-txns-owner-asset-length";
          need (bytes_eqb ownerName (assetName ++ OWNER_TAG)) "bad-txns-owner-name-mismatch" ]
  end.

End Params.
