(* ===== verification/Attest.v ===== *)
(** Stamps and coinbase commitments of src/src/lottery.cpp: the attestor's
    signatures over (node id, X handle), the table of stamps a node keeps, the
    [XHB1] active set, its [XVA1] stamps and the seed's [XSD1] signature, and
    the signed heartbeat. *)

From S2P Require Import Prelude OrdMap Sha256 Ripemd160 Script Handle Key.

Local Open Scope Z_scope.

(** What the lottery reads of [CChainParams]. *)
Record CChainParams := mkParams {
  MineBlocksOnDemand : bool;
  XAttestorPub : bytes;
  genesis_nTime : Z;
  nSubsidyHalvingInterval : Z;
  NetworkIsMain : bool;
}.

Definition MAX_ACTIVE_NODES : Z := 4096.
Definition MAX_HEARTBEAT_SCRIPT : Z := 520.
Definition MAX_HEARTBEAT_SIG : Z := 65.
Definition COMMIT_MAGIC : bytes := bs "XHB1".
Definition ATTEST_MAGIC : bytes := bs "XVA1".
Definition SEED_BLOCK_MAGIC : bytes := bs "XSD1".
Definition HEARTBEAT_MAGIC : bytes := bs "xcoin-xhb-v2".
Definition ATTEST_DIGEST_MAGIC : bytes := bs "xcoin-xva-v1".
Definition SEED_DIGEST_MAGIC : bytes := bs "xcoin-xsd-v1".

Definition IdFromScript (script : CScript) : bytes := ripemd160.Hash160 script.

#[global] Arguments IdFromScript : simpl never.

(** ** The table of stamps *)
Record AttestRow := mkRow { row_handle : bytes; row_sig : bytes }.

(** The file-level variables behind [cs_attest] and the attestor key. *)
Record AttestState := mkAttest {
  g_attestorKey : CKey;
  g_forceBakedSeedForTest : bool;
  g_attest : omap bytes AttestRow;
}.

Definition set_attest (st : AttestState) (m : omap bytes AttestRow) : AttestState :=
  mkAttest (g_attestorKey st) (g_forceBakedSeedForTest st) m.

(** [xlookup::Status] *)
Inductive lookup_status := VERIFIED | NOT_VERIFIED | LOOKUP_FAILED.

(** What [xlookup] answers while a call runs. *)
Record XLookup := mkLookup { LookupEnabled : bool; LookupHandle : bytes -> lookup_status }.

(** [std::vector<uint160>] loops that copy [n] ids out of a buffer. *)
Fixpoint read_ids (n : nat) (data : bytes) : list bytes :=
  match n with
  | O => []
  | S n' => take 20 data :: read_ids n' (drop 20 data)
  end.

(** The single push that follows [OP_RETURN]. *)
Definition op_return_data (script : CScript) : option bytes :=
  match script with
  | [] => None
  | op :: pc =>
      if negb (op =? OP_RETURN) then None
      else match GetOp2 pc with Some r => Some (op_data r) | None => None end
  end.

(** [data[4] | data[5] << 8 | data[6] << 16 | data[7] << 24] *)
Definition read_count (data : bytes) : Z := le_decode (take 4 (drop 4 data)).

(** One row of an [XVA1] payload at the current offset, with the rest:
    handle length, handle, id, signature. *)
Definition xva_row (data : bytes) : option (bytes * bytes * bytes * bytes) :=
  match data with
  | [] => None
  | hlen :: r =>
      if (hlen <? 1) || (MAX_X_HANDLE <? hlen) || (zlen r <? hlen + 20 + 65) then None
      else
        let n := Z.to_nat hlen in
        Some (take n r, take 20 (drop n r), take 65 (drop 20 (drop n r)),
              drop 65 (drop 20 (drop n r)))
  end.

Section Attest.
Context `{Secp256k1} (params : CChainParams).

Definition RequireXAttestation : bool :=
  if MineBlocksOnDemand params then false else negb (zlen (XAttestorPub params) =? 0).

Definition AttestorPub : CPubKey :=
  if zlen (XAttestorPub params) =? 0 then [] else CPubKey_Set (XAttestorPub params).

Definition AttestDigest (id handle : bytes) : bytes :=
  let norm := match NormalizeXHandle handle with Ok n => n | Err _ => [] end in
  sha256.SHA256 [ATTEST_DIGEST_MAGIC; id; norm].

Definition SignAttestation (st : AttestState) (id handle : bytes) : option bytes :=
  if negb (CKey_IsValid (g_attestorKey st)) then None
  else SignCompact (g_attestorKey st) (AttestDigest id handle).

Definition VerifyAttestationPub (want : CPubKey) (id handle sig : bytes) : bool :=
  if negb (zlen sig =? 65) || negb (IsFullyValid want) then false else
  match RecoverCompact (AttestDigest id handle) sig with
  | None => false
  | Some rec => bytes_eqb rec want
  end.

Definition VerifyAttestation (id handle sig : bytes) : bool :=
  VerifyAttestationPub AttestorPub id handle sig.

Definition StoreAttestation (st : AttestState) (id handle sig : bytes) : AttestState :=
  match NormalizeXHandle handle with
  | Err _ => st
  | Ok norm =>
      if negb (VerifyAttestation id norm sig) then st
      else set_attest st (om_insert id (mkRow norm sig) (g_attest st))
  end.

Definition HasAttestation (st : AttestState) (id : bytes) : bool := om_mem id (g_attest st).

Definition GetAttestation (st : AttestState) (id : bytes) : option AttestRow :=
  om_find id (g_attest st).

Definition ResetAttestations (st : AttestState) : AttestState := set_attest st [].

Definition IsXLookupNode (xl : XLookup) (st : AttestState) : bool :=
  LookupEnabled xl && CKey_IsValid (g_attestorKey st).

Definition IsBakedSeed (st : AttestState) : bool :=
  if g_forceBakedSeedForTest st then true else
  CKey_IsValid (g_attestorKey st) && IsFullyValid AttestorPub &&
  match GetPubKey (g_attestorKey st) with
  | Some pub => bytes_eqb pub AttestorPub
  | None => false
  end.

(** [LookupAndAttest]: the verdict, [sigOut] and the table it leaves. *)
Definition LookupAndAttest (xl : XLookup) (st : AttestState) (script : CScript) (handle : bytes)
    : bool * bytes * AttestState :=
  match NormalizeXHandle handle with
  | Err _ => (false, [], st)
  | Ok norm =>
      let id := IdFromScript script in
      if HasAttestation st id then
        match GetAttestation st id with
        | Some row => (bytes_eqb (row_handle row) norm, row_sig row, st)
        | None => (false, [], st)
        end
      else if negb (IsXLookupNode xl st) then (false, [], st) else
      match LookupHandle xl norm with
      | NOT_VERIFIED | LOOKUP_FAILED => (false, [], st)
      | VERIFIED =>
          match SignAttestation st id norm with
          | None => (false, [], st)
          | Some sigOut => (true, sigOut, StoreAttestation st id norm sigOut)
          end
      end
  end.

(** ** XSD1: the seed's signature on a block *)
Definition SeedBlockDigest (nHeight : Z) (prevBlockHash : bytes) (ids : list bytes) : bytes :=
  sha256.SHA256 ([SEED_DIGEST_MAGIC; prevBlockHash; le_bytes 4 (uwrap 32 nHeight)] ++ ids).

Definition MakeSeedBlockCommitment (st : AttestState) (nHeight : Z) (prevBlockHash : bytes)
    (ids : list bytes) : CScript :=
  let digest := SeedBlockDigest nHeight prevBlockHash ids in
  if negb (CKey_IsValid (g_attestorKey st)) then [] else
  match SignCompact (g_attestorKey st) digest with
  | None => []
  | Some sig =>
      if negb (zlen sig =? 65) then [] else OP_RETURN :: push (SEED_BLOCK_MAGIC ++ sig)
  end.

Definition VerifySeedBlockSig (pub : CPubKey) (nHeight : Z) (prevBlockHash : bytes)
    (ids : list bytes) (sig : bytes) : bool :=
  if negb (zlen sig =? 65) || negb (IsFullyValid pub) then false else
  match RecoverCompact (SeedBlockDigest nHeight prevBlockHash ids) sig with
  | None => false
  | Some rec => bytes_eqb rec pub
  end.

Definition CheckSeedBlockCommitment (nHeight : Z) (prevBlockHash : bytes) (ids : list bytes)
    (script : CScript) : bool :=
  match op_return_data script with
  | None => false
  | Some data =>
      if negb (zlen data =? 4 + 65) then false else
      if negb (bytes_eqb (take 4 data) SEED_BLOCK_MAGIC) then false else
      VerifySeedBlockSig AttestorPub nHeight prevBlockHash ids (drop 4 data)
  end.

(** ** XVA1: the stamps of the active set *)
Definition xva_body (st : AttestState) (id : bytes) : option bytes :=
  match GetAttestation st id with
  | None => None
  | Some row =>
      if negb (zlen (row_sig row) =? 65) then None else
      if (zlen (row_handle row) =? 0) || (MAX_X_HANDLE <? zlen (row_handle row)) then None else
      Some (uwrap 8 (zlen (row_handle row)) :: row_handle row ++ id ++ row_sig row)
  end.

(** The rows of the ids that have a stamp, in order; the others are skipped. *)
Fixpoint xva_rows (st : AttestState) (ids : list bytes) : list bytes :=
  match ids with
  | [] => []
  | id :: ids' =>
      match xva_body st id with
      | Some b => b :: xva_rows st ids'
      | None => xva_rows st ids'
      end
  end.

Definition MakeXvaCommitment (st : AttestState) (sortedIds : list bytes) : CScript :=
  let rows := xva_rows st sortedIds in
  let n := uwrap 32 (zlen rows) in
  OP_RETURN :: push (ATTEST_MAGIC ++ le_bytes 4 n ++ concat rows).

Fixpoint parse_rows (n : nat) (data : bytes) : option (list bytes * list bytes) :=
  match n with
  | O => if zlen data =? 0 then Some ([], []) else None
  | S n' =>
      match xva_row data with
      | None => None
      | Some (_, id, sig, rest) =>
          match parse_rows n' rest with
          | None => None
          | Some (ids, sigs) => Some (id :: ids, sig :: sigs)
          end
      end
  end.

Definition ParseXvaCommitment (script : CScript) : option (list bytes * list bytes) :=
  match op_return_data script with
  | None => None
  | Some data =>
      if zlen data <? 8 then None else
      if negb (bytes_eqb (take 4 data) ATTEST_MAGIC) then None else
      if 1024 <? read_count data then None else
      parse_rows (Z.to_nat (read_count data)) (drop 8 data)
  end.

Fixpoint check_rows (ids : list bytes) (data : bytes) : bool :=
  match ids with
  | [] => zlen data =? 0
  | want :: ids' =>
      match xva_row data with
      | None => false
      | Some (handle, id, sig, rest) =>
          if negb (bytes_eqb id want) then false else
          if negb (VerifyAttestation id handle sig) then false else
          check_rows ids' rest
      end
  end.

Definition CheckXvaForIds (ids : list bytes) (script : CScript) : bool :=
  match op_return_data script with
  | None => false
  | Some data =>
      if zlen data <? 8 then false else
      if negb (bytes_eqb (take 4 data) ATTEST_MAGIC) then false else
      if negb (read_count data =? zlen ids) || (1024 <? read_count data) then false else
      check_rows ids (drop 8 data)
  end.

Fixpoint cache_rows (st : AttestState) (n : nat) (data : bytes) : AttestState :=
  match n with
  | O => st
  | S n' =>
      match xva_row data with
      | None => st
      | Some (handle, id, sig, rest) => cache_rows (StoreAttestation st id handle sig) n' rest
      end
  end.

Definition CacheStampsFromXva (st : AttestState) (script : CScript) : AttestState :=
  match op_return_data script with
  | None => st
  | Some data =>
      if zlen data <? 8 then st else
      if negb (bytes_eqb (take 4 data) ATTEST_MAGIC) then st else
      if 1024 <? read_count data then st else
      cache_rows st (Z.to_nat (read_count data)) (drop 8 data)
  end.

(** ** XHB1: the active set *)
Definition MakeActiveSetCommitment (sortedIds : list bytes) : CScript :=
  let n := uwrap 32 (zlen sortedIds) in
  OP_RETURN :: push (COMMIT_MAGIC ++ le_bytes 4 n ++ concat sortedIds).

Definition ParseActiveSetCommitment (script : CScript) : option (list bytes) :=
  match op_return_data script with
  | None => None
  | Some data =>
      if zlen data <? 8 then None else
      if negb (bytes_eqb (take 4 data) COMMIT_MAGIC) then None else
      let n := read_count data in
      if 1024 <? n then None else
      if negb (zlen data =? 8 + n * 20) then None else
      let ids := read_ids (Z.to_nat n) (drop 8 data) in
      if adjacent bytes_ltb ids then Some ids else None
  end.

(** ** Heartbeats *)
Definition HeartbeatDigest (timestamp : Z) (script : CScript) (handle : bytes) (userId : Z)
    (xVerified : bool) : bytes :=
  sha256.SHA256 [HEARTBEAT_MAGIC; le_bytes 8 timestamp; script; handle; le_bytes 8 userId;
                 [if xVerified then 1 else 0]].

Definition SignHeartbeat (key : CKey) (timestamp : Z) (script : CScript) (handle : bytes)
    (userId : Z) (xVerified : bool) : option bytes :=
  if negb (CKey_IsValid key) then None
  else SignCompact key (HeartbeatDigest timestamp script handle userId xVerified).

Definition VerifyHeartbeatSig (script : CScript) (timestamp : Z) (handle : bytes) (userId : Z)
    (sig : bytes) (xVerified : bool) : bool :=
  if (zlen sig =? 0) || (MAX_HEARTBEAT_SIG <? zlen sig) then false else
  if (zlen script =? 0) || (MAX_HEARTBEAT_SCRIPT <? zlen script) then false else
  match NormalizeXHandle handle with
  | Err _ => false
  | Ok norm =>
      match ExtractDestination script with
      | Some (CKeyID keyID) =>
          match RecoverCompact (HeartbeatDigest timestamp script norm userId xVerified) sig with
          | None => false
          | Some pub => bytes_eqb (CPubKey_GetID pub) keyID
          end
      | _ => false
      end
  end.

End Attest.

(** ** Lemmas on the encodings *)

(** A list of node ids as the registry hands it over: twenty bytes each, in
    strictly increasing order. *)
Definition id_ok (id : bytes) : Prop := length id = 20%nat.
Definition sorted_ids (ids : list bytes) : Prop :=
  Forall id_ok ids /\ StronglySorted (fun a b => bytes_ltb a b = true) ids.

Lemma sorted_ids_NoDup ids : sorted_ids ids -> NoDup ids.
Proof.
  intros [_ Hs]. induction Hs as [|x l _ IH Hx]; [constructor|]. constructor; [|done].
  intros Hin. rewrite Forall_forall in Hx. specialize (Hx x Hin). by rewrite bytes_ltb_irrefl in Hx.
Qed.

Lemma op_return_data_push data :
  zlen data < 2 ^ 32 -> op_return_data (OP_RETURN :: push data) = Some data.
Proof.
  intros Hd. destruct (GetOp2_push data [] Hd) as (op & _ & E).
  rewrite app_nil_r in E. unfold op_return_data. by rewrite E.
Qed.

Lemma framed magic n body :
  length magic = 4%nat -> 0 <= n < 2 ^ 32 ->
  take 4 (magic ++ le_bytes 4 n ++ body) = magic /\
  read_count (magic ++ le_bytes 4 n ++ body) = n /\
  drop 8 (magic ++ le_bytes 4 n ++ body) = body.
Proof.
  intros Hm Hn. split_and!.
  - by rewrite take_app_length'.
  - unfold read_count. rewrite (drop_app_length' magic) by done.
    rewrite take_app_length' by (by rewrite length_le_bytes).
    rewrite le_decode_le_bytes. by apply Z.mod_small.
  - change 8%nat with (4 + 4)%nat. rewrite <-drop_drop, (drop_app_length' magic) by done.
    by rewrite drop_app_length' by (by rewrite length_le_bytes).
Qed.

Lemma zlen_framed magic n body :
  length magic = 4%nat -> zlen (magic ++ le_bytes 4 n ++ body) = 8 + zlen body.
Proof. intros Hm. rewrite !zlen_app. unfold zlen. rewrite length_le_bytes, Hm. lia. Qed.

Lemma zlen_concat_ids ids : Forall id_ok ids -> zlen (concat ids) = 20 * zlen ids.
Proof.
  induction 1 as [|id ids Hid _ IH]; [done|]. simpl. rewrite zlen_app, zlen_cons, IH.
  unfold zlen at 1. rewrite Hid. lia.
Qed.

Lemma read_ids_concat ids : Forall id_ok ids -> read_ids (length ids) (concat ids) = ids.
Proof.
  induction 1 as [|id ids Hid _ IH]; [done|]. simpl.
  rewrite take_app_length', drop_app_length' by done. by rewrite IH.
Qed.

Lemma read_ids_ok n data : (20 * n <= length data)%nat -> Forall id_ok (read_ids n data).
Proof.
  revert data. induction n as [|n IH]; intros data Hd; simpl; [constructor|].
  constructor; [unfold id_ok; rewrite length_take; lia|]. apply IH. rewrite length_drop. lia.
Qed.

Lemma length_read_ids n data : length (read_ids n data) = n.
Proof. revert data. induction n; intros; simpl; auto. Qed.

Lemma adjacent_sorted ids :
  adjacent bytes_ltb ids = true <-> StronglySorted (fun a b => bytes_ltb a b = true) ids.
Proof. apply adjacent_StronglySorted. intros a b c. apply bytes_ltb_trans. Qed.

Lemma Parse_Make_active ids :
  Forall id_ok ids -> zlen ids < 2 ^ 27 ->
  ParseActiveSetCommitment (MakeActiveSetCommitment ids)
  = if (zlen ids <=? 1024) && adjacent bytes_ltb ids then Some ids else None.
Proof.
  intros Hi Hn. pose proof (zlen_nonneg ids) as H0. pose proof (zlen_concat_ids ids Hi) as Hc.
  unfold MakeActiveSetCommitment, ParseActiveSetCommitment. rewrite uwrap_small by lia.
  destruct (framed COMMIT_MAGIC (zlen ids) (concat ids)) as (E1 & E2 & E3); [done|lia|].
  rewrite op_return_data_push by (rewrite zlen_framed; [lia|done]).
  rewrite E1, E2, E3, zlen_framed, Hc, bytes_eqb_refl by done. cbv zeta. simpl negb.
  destruct (Z.ltb_spec (8 + 20 * zlen ids) 8); [lia|].
  destruct (Z.ltb_spec 1024 (zlen ids)), (Z.leb_spec (zlen ids) 1024); try lia; [done|].
  destruct (Z.eqb_spec (8 + 20 * zlen ids) (8 + zlen ids * 20)); [|lia].
  unfold zlen. rewrite Nat2Z.id, read_ids_concat by done. done.
Qed.

Lemma ParseActiveSet_sorted script ids :
  ParseActiveSetCommitment script = Some ids -> sorted_ids ids /\ zlen ids <= 1024.
Proof.
  unfold ParseActiveSetCommitment. destruct (op_return_data script) as [data|]; [|done].
  destruct (Z.ltb_spec (zlen data) 8); [done|]. destruct (negb (bytes_eqb _ _)); [done|].
  destruct (Z.ltb_spec 1024 (read_count data)); [done|].
  destruct (Z.eqb_spec (zlen data) (8 + read_count data * 20)) as [E|]; [|done]. simpl.
  destruct (adjacent _ _) eqn:Ea; [|done]. intros [= <-]. split; [split|].
  - apply read_ids_ok. rewrite length_drop. unfold zlen in *. lia.
  - by apply adjacent_sorted.
  - unfold zlen. rewrite length_read_ids. lia.
Qed.

(** ** Stamps *)
Section StampFacts.
Context `{Secp256k1} `{!Secp256k1Laws _} (params : CChainParams).

(** The node holds the attestor's key: what makes it the baked seed. *)
Definition holds_seed_key (st : AttestState) : Prop :=
  key_ok (g_attestorKey st) /\ fValid (g_attestorKey st) = true /\
  GetPubKey (g_attestorKey st) = Some (AttestorPub params).

(** The table holds only verified stamps under the handle they name. *)
Definition attest_ok (st : AttestState) : Prop :=
  om_wf (g_attest st) /\
  forall id row, om_find id (g_attest st) = Some row ->
    valid_handle (row_handle row) /\ VerifyAttestation params id (row_handle row) (row_sig row) = true.

Lemma holds_seed_key_valid st : holds_seed_key st -> IsFullyValid (AttestorPub params) = true.
Proof.
  intros (Hk & Hv & Hp). destruct (GetPubKey_total _ Hk Hv) as (pub & Hp' & Hf). congruence.
Qed.

Lemma holds_seed_key_baked st : holds_seed_key st -> IsBakedSeed params st = true.
Proof.
  intros Hs. pose proof (holds_seed_key_valid st Hs) as Hf. destruct Hs as (Hk & Hv & Hp).
  unfold IsBakedSeed, CKey_IsValid. case_ifs; [done|]. by rewrite Hv, Hf, Hp, bytes_eqb_refl.
Qed.

(** The seed's compact signature over any digest recovers its public key. *)
Lemma seed_signs st digest :
  holds_seed_key st -> zlen digest = 32 ->
  exists sig, SignCompact (g_attestorKey st) digest = Some sig /\ zlen sig = 65 /\
    bytes_ok sig /\ RecoverCompact digest sig = Some (AttestorPub params).
Proof.
  intros (Hk & Hv & Hp) Hd.
  destruct (SignCompact_recover _ _ Hk Hv Hd) as (sig & pub & Hs & Hl & Hb & Hp' & Hr).
  exists sig. split_and!; [done..|]. congruence.
Qed.

Lemma zlen_SHA256 parts : zlen (sha256.SHA256 parts) = 32.
Proof. unfold zlen. by rewrite sha256.length_SHA256. Qed.

Lemma SignAttestation_verifies st id handle :
  holds_seed_key st ->
  exists sig, SignAttestation st id handle = Some sig /\ zlen sig = 65 /\
    VerifyAttestation params id handle sig = true.
Proof.
  intros Hs. destruct (seed_signs st (AttestDigest id handle) Hs) as (sig & Hsig & Hl & _ & Hr);
    [apply zlen_SHA256|].
  exists sig. unfold SignAttestation, CKey_IsValid. destruct Hs as (Hk & Hv & Hp) eqn:E.
  rewrite Hv. split_and!; [done..|]. unfold VerifyAttestation, VerifyAttestationPub.
  by rewrite Hl, Hr, (holds_seed_key_valid st), bytes_eqb_refl by done.
Qed.

Lemma VerifyAttestation_len id handle sig :
  VerifyAttestation params id handle sig = true -> zlen sig = 65.
Proof.
  unfold VerifyAttestation, VerifyAttestationPub.
  destruct (Z.eqb_spec (zlen sig) 65); [done|]. by simpl.
Qed.

Lemma StoreAttestation_ok st id handle sig :
  attest_ok st -> attest_ok (StoreAttestation params st id handle sig).
Proof.
  intros [Hw Ha]. unfold StoreAttestation.
  destruct (NormalizeXHandle handle) as [norm|] eqn:En; [|done].
  destruct (VerifyAttestation params id norm sig) eqn:Ev; [|done]. split; simpl.
  - by apply om_wf_insert.
  - intros id' row. rewrite om_find_insert. case_decide; [|apply Ha].
    intros [= <-]. subst. split; [by eapply Normalize_Ok_valid|done].
Qed.

Lemma StoreAttestation_get st id handle sig :
  valid_handle handle -> VerifyAttestation params id handle sig = true ->
  GetAttestation (StoreAttestation params st id handle sig) id = Some (mkRow handle sig).
Proof.
  intros Hh Hv. unfold StoreAttestation, GetAttestation. rewrite Normalize_valid, Hv by done.
  apply om_find_insert_eq.
Qed.

Lemma StoreAttestation_other st id id' handle sig :
  id <> id' ->
  GetAttestation (StoreAttestation params st id handle sig) id' = GetAttestation st id'.
Proof.
  intros Hne. unfold StoreAttestation, GetAttestation.
  destruct (NormalizeXHandle handle) as [norm|]; [|done].
  destruct (negb _); [done|]. simpl. by rewrite om_find_insert_ne.
Qed.

Lemma LookupAndAttest_ok xl st script handle :
  attest_ok st -> attest_ok (LookupAndAttest params xl st script handle).2.
Proof.
  intros Ha. unfold LookupAndAttest. destruct (NormalizeXHandle handle) as [norm|]; [|done].
  destruct (HasAttestation _ _); [by destruct (GetAttestation _ _)|].
  destruct (negb _); [done|]. destruct (LookupHandle xl norm); [|done..].
  destruct (SignAttestation _ _ _); [|done]. by apply StoreAttestation_ok.
Qed.

Lemma cache_rows_ok n : forall st data, attest_ok st -> attest_ok (cache_rows params st n data).
Proof.
  induction n as [|n IH]; intros st data Ha; simpl; [done|].
  destruct (xva_row data) as [[[[h i] s] rest]|]; [|done]. by apply IH, StoreAttestation_ok.
Qed.

Lemma CacheStampsFromXva_ok st script :
  attest_ok st -> attest_ok (CacheStampsFromXva params st script).
Proof.
  intros Ha. unfold CacheStampsFromXva. destruct (op_return_data script); [|done].
  case_ifs; try done. by apply cache_rows_ok.
Qed.

(** ** XVA1 rows *)

Lemma xva_row_make handle id sig rest :
  valid_handle handle -> id_ok id -> zlen sig = 65 ->
  xva_row (uwrap 8 (zlen handle) :: (handle ++ id ++ sig) ++ rest) = Some (handle, id, sig, rest).
Proof.
  intros [Hh _] Hi Hs. unfold MAX_X_HANDLE in Hh. unfold xva_row.
  rewrite uwrap_small by lia. rewrite !zlen_app, Hs.
  assert (zlen id = 20) as -> by (unfold zlen; by rewrite Hi).
  pose proof (zlen_nonneg rest). unfold MAX_X_HANDLE.
  destruct (Z.ltb_spec (zlen handle) 1); [lia|]. destruct (Z.ltb_spec 32 (zlen handle)); [lia|].
  destruct (Z.ltb_spec (zlen handle + (20 + 65) + zlen rest) (zlen handle + 20 + 65)); [lia|].
  simpl. unfold zlen at 1 2 3 4. rewrite Nat2Z.id, <-!app_assoc.
  rewrite take_app_length, drop_app_length, take_app_length', drop_app_length' by done.
  rewrite take_app_length', drop_app_length' by (unfold zlen in Hs; lia). done.
Qed.

Lemma xva_body_make st id row :
  attest_ok st -> GetAttestation st id = Some row ->
  xva_body st id = Some (uwrap 8 (zlen (row_handle row)) :: row_handle row ++ id ++ row_sig row) /\
  valid_handle (row_handle row) /\ zlen (row_sig row) = 65 /\
  VerifyAttestation params id (row_handle row) (row_sig row) = true.
Proof.
  intros [_ Ha] Hg. destruct (Ha _ _ Hg) as [Hh Hv]. pose proof (VerifyAttestation_len _ _ _ Hv) as Hl.
  split_and!; [|done..]. unfold xva_body. rewrite Hg, Hl. simpl.
  destruct Hh as [Hh _]. destruct (Z.eqb_spec (zlen (row_handle row)) 0); [lia|].
  by destruct (Z.ltb_spec MAX_X_HANDLE (zlen (row_handle row))); [lia|].
Qed.

(** All of [ids] carry a stamp. *)
Definition all_stamped (st : AttestState) (ids : list bytes) : Prop :=
  Forall (fun id => HasAttestation st id = true) ids.

Lemma HasAttestation_get st id :
  HasAttestation st id = true -> exists row, GetAttestation st id = Some row.
Proof. unfold HasAttestation, om_mem, GetAttestation. destruct (om_find _ _); [eauto|done]. Qed.

Definition stamp_handles (st : AttestState) (ids : list bytes) : list bytes :=
  (fun id => default [] (row_handle <$> GetAttestation st id)) <$> ids.
Definition stamp_sigs (st : AttestState) (ids : list bytes) : list bytes :=
  (fun id => default [] (row_sig <$> GetAttestation st id)) <$> ids.

(** Reading the payload written for stamped ids: the parser returns them, the
    checker accepts them, and a node that caches them has the same stamps. *)
Lemma xva_rows_spec st ids :
  attest_ok st -> Forall id_ok ids -> all_stamped st ids ->
  length (xva_rows st ids) = length ids /\
  parse_rows (length ids) (concat (xva_rows st ids)) = Some (ids, stamp_sigs st ids) /\
  check_rows params ids (concat (xva_rows st ids)) = true /\
  zlen (concat (xva_rows st ids)) <= 118 * zlen ids.
Proof.
  intros Ha Hi Hs. induction Hi as [|id ids Hid Hi IH]; [done|].
  inv Hs. destruct IH as (IH1 & IH2 & IH3 & IH4); [done|].
  destruct (HasAttestation_get st id) as [row Hrow]; [done|].
  destruct (xva_body_make st id row Ha Hrow) as (Hb & Hh & Hl & Hv). simpl.
  rewrite Hb. cbn [concat]. rewrite <-app_comm_cons, xva_row_make by done.
  rewrite IH2, bytes_eqb_refl, Hv, IH3, Hrow. simpl. split_and!; [lia|done..|].
  rewrite !zlen_cons, !zlen_app, Hl. destruct Hh as [Hh _]. unfold MAX_X_HANDLE in Hh.
  assert (zlen id = 20) as -> by (unfold zlen; by rewrite Hid). lia.
Qed.

Lemma cache_rows_get st ids :
  attest_ok st -> Forall id_ok ids -> all_stamped st ids ->
  forall st' id, (GetAttestation st' id = GetAttestation st id \/ id ∈ ids) ->
  GetAttestation (cache_rows params st' (length ids) (concat (xva_rows st ids))) id
  = GetAttestation st id.
Proof.
  intros Ha Hi Hs. induction Hi as [|i ids Hid Hi IH]; intros st' id Hor.
  { destruct Hor as [|Hin]; [done|]. by apply elem_of_nil in Hin. }
  inv Hs. destruct (HasAttestation_get st i) as [row Hrow]; [done|].
  destruct (xva_body_make st i row Ha Hrow) as (Hb & Hh & Hl & Hv). simpl.
  rewrite Hb. cbn [concat]. rewrite <-app_comm_cons, xva_row_make by done.
  apply IH; [done|]. destruct (decide (i = id)) as [->|Hne].
  - left. rewrite StoreAttestation_get, Hrow by done. by destruct row.
  - rewrite StoreAttestation_other by done. rewrite elem_of_cons in Hor.
    destruct Hor as [|[->|]]; [by left|done|by right].
Qed.

(** The payload of [MakeXvaCommitment] for stamped ids, seen by its readers. *)
Lemma MakeXva_data st ids :
  attest_ok st -> Forall id_ok ids -> all_stamped st ids -> zlen ids <= 1024 ->
  exists data, op_return_data (MakeXvaCommitment st ids) = Some data /\
    (zlen data <? 8) = false /\ bytes_eqb (take 4 data) ATTEST_MAGIC = true /\
    read_count data = zlen ids /\ drop 8 data = concat (xva_rows st ids).
Proof.
  intros Ha Hi Hs Hn. destruct (xva_rows_spec st ids Ha Hi Hs) as (Hl & _ & _ & Hz).
  pose proof (zlen_nonneg ids) as H0.
  assert (zlen (xva_rows st ids) = zlen ids) as Hl' by (unfold zlen; by rewrite Hl).
  unfold MakeXvaCommitment. rewrite Hl', uwrap_small by lia. eexists. split.
  { apply op_return_data_push. rewrite zlen_framed; [lia|done]. }
  destruct (framed ATTEST_MAGIC (zlen ids) (concat (xva_rows st ids))) as (E1 & E2 & E3); [done|lia|].
  rewrite E1, bytes_eqb_refl. split_and!; [|done..].
  rewrite zlen_framed by done. apply Z.ltb_ge. pose proof (zlen_nonneg (concat (xva_rows st ids))). lia.
Qed.

Lemma MakeXva_parse st ids :
  attest_ok st -> Forall id_ok ids -> all_stamped st ids -> zlen ids <= 1024 ->
  ParseXvaCommitment (MakeXvaCommitment st ids) = Some (ids, stamp_sigs st ids).
Proof.
  intros Ha Hi Hs Hn. destruct (MakeXva_data st ids Ha Hi Hs Hn) as (data & E1 & E2 & E3 & E4 & E5).
  unfold ParseXvaCommitment. rewrite E1, E2, E3, E4, E5. simpl.
  destruct (Z.ltb_spec 1024 (zlen ids)); [lia|]. unfold zlen. rewrite Nat2Z.id.
  by apply xva_rows_spec.
Qed.

Lemma MakeXva_check st ids :
  attest_ok st -> Forall id_ok ids -> all_stamped st ids -> zlen ids <= 1024 ->
  CheckXvaForIds params ids (MakeXvaCommitment st ids) = true.
Proof.
  intros Ha Hi Hs Hn. destruct (MakeXva_data st ids Ha Hi Hs Hn) as (data & E1 & E2 & E3 & E4 & E5).
  unfold CheckXvaForIds. rewrite E1, E2, E3, E4, E5, Z.eqb_refl. simpl.
  destruct (Z.ltb_spec 1024 (zlen ids)); [lia|]. by apply xva_rows_spec.
Qed.

Lemma MakeXva_cache st st' ids id :
  attest_ok st -> Forall id_ok ids -> all_stamped st ids -> zlen ids <= 1024 -> id ∈ ids ->
  GetAttestation (CacheStampsFromXva params st' (MakeXvaCommitment st ids)) id = GetAttestation st id.
Proof.
  intros Ha Hi Hs Hn Hin. destruct (MakeXva_data st ids Ha Hi Hs Hn) as (data & E1 & E2 & E3 & E4 & E5).
  unfold CacheStampsFromXva. rewrite E1, E2, E3, E4, E5. simpl.
  destruct (Z.ltb_spec 1024 (zlen ids)); [lia|]. unfold zlen. rewrite Nat2Z.id.
  apply cache_rows_get; auto.
Qed.

(** What acceptance of an [XVA1] payload means. *)
Lemma check_rows_sound ids : forall data,
  check_rows params ids data = true ->
  Forall (fun id => exists handle sig, VerifyAttestation params id handle sig = true) ids.
Proof.
  induction ids as [|want ids IH]; intros data; [constructor|]. simpl.
  destruct (xva_row data) as [[[[h i] s] rest]|]; [|done].
  destruct (bytes_eqb i want) eqn:E; [|done]. apply bytes_eqb_eq in E as ->.
  destruct (VerifyAttestation params want h s) eqn:Ev; [|done]. simpl. intros Hc.
  constructor; [eauto|]. by eapply IH.
Qed.

Lemma CheckXvaForIds_sound ids script :
  CheckXvaForIds params ids script = true ->
  Forall (fun id => exists handle sig, VerifyAttestation params id handle sig = true) ids.
Proof.
  unfold CheckXvaForIds. destruct (op_return_data script); [|done].
  case_ifs; try done. apply check_rows_sound.
Qed.

(** ** XSD1 *)
Lemma MakeSeedBlock_check st nHeight prev ids :
  holds_seed_key st ->
  CheckSeedBlockCommitment params nHeight prev ids (MakeSeedBlockCommitment st nHeight prev ids) = true.
Proof.
  intros Hs. destruct (seed_signs st (SeedBlockDigest nHeight prev ids) Hs) as (sig & E & Hl & _ & Hr);
    [apply zlen_SHA256|].
  pose proof (holds_seed_key_valid st Hs) as Hf. destruct Hs as (Hk & Hv & Hp).
  unfold MakeSeedBlockCommitment, CKey_IsValid. rewrite Hv, E, Hl. simpl negb. cbv iota.
  unfold CheckSeedBlockCommitment.
  rewrite op_return_data_push by (rewrite zlen_app, Hl; done).
  rewrite zlen_app, Hl, take_app_length', drop_app_length' by done.
  simpl. unfold VerifySeedBlockSig. by rewrite Hl, Hf, Hr, bytes_eqb_refl.
Qed.

Lemma MakeSeedBlock_nonempty st nHeight prev ids :
  holds_seed_key st ->
  exists sig, zlen sig = 65 /\
    MakeSeedBlockCommitment st nHeight prev ids = OP_RETURN :: push (SEED_BLOCK_MAGIC ++ sig).
Proof.
  intros Hs. destruct (seed_signs st (SeedBlockDigest nHeight prev ids) Hs) as (sig & E & Hl & _ & _);
    [apply zlen_SHA256|].
  destruct Hs as (Hk & Hv & Hp). exists sig. split; [done|].
  unfold MakeSeedBlockCommitment, CKey_IsValid. by rewrite Hv, E, Hl.
Qed.

(** ** Heartbeats *)
Lemma SignHeartbeat_verifies key pub timestamp handle userId xVerified :
  key_ok key -> GetPubKey key = Some pub -> valid_handle handle ->
  let script := GetScriptForDestination (CKeyID (CPubKey_GetID pub)) in
  exists sig, SignHeartbeat key timestamp script handle userId xVerified = Some sig /\
    VerifyHeartbeatSig script timestamp handle userId sig xVerified = true.
Proof.
  intros Hk Hp Hh. cbv zeta.
  assert (length (CPubKey_GetID pub) = 20%nat) as Hlen by apply ripemd160.length_Hash160.
  pose proof (ExtractDestination_P2PKH _ Hlen) as Hx. pose proof (length_P2PKH _ Hlen) as Hsz.
  set (script := GetScriptForDestination _) in *.
  assert (fValid key = true) as Hv.
  { unfold GetPubKey in Hp. by destruct (fValid key). }
  destruct (SignCompact_recover key (HeartbeatDigest timestamp script handle userId xVerified) Hk Hv)
    as (sig & pub' & Hs & Hl & _ & Hp' & Hr); [apply zlen_SHA256|].
  rewrite Hp in Hp'. injection Hp' as <-. exists sig.
  unfold SignHeartbeat, CKey_IsValid. rewrite Hv. split; [done|].
  unfold VerifyHeartbeatSig. rewrite Hl, Hsz, Normalize_valid, Hx, Hr by done. apply bytes_eqb_refl.
Qed.

(** ** Claims *)

(** The stamps of a block survive the trip through its coinbase: when every
    id of the set has a stamp in the producer's table, the [XVA1] output lists
    exactly these ids, passes [CheckXvaForIds] against them, and a node that
    caches it ends with the producer's stamp for every one of them, whatever
    its table held before. *)
Theorem xva1_roundtrip (st st' : AttestState) (ids : list bytes) :
  attest_ok st -> Forall id_ok ids -> all_stamped st ids -> zlen ids <= 1024 ->
  ParseXvaCommitment (MakeXvaCommitment st ids) = Some (ids, stamp_sigs st ids) /\
  CheckXvaForIds params ids (MakeXvaCommitment st ids) = true /\
  forall id, id ∈ ids ->
    GetAttestation (CacheStampsFromXva params st' (MakeXvaCommitment st ids)) id
    = GetAttestation st id.
Proof.
  intros Ha Hi Hs Hn. split_and!;
    [by apply MakeXva_parse|by apply MakeXva_check|]. intros id Hin. by apply MakeXva_cache.
Qed.

(** The baked seed's signatures verify: a node whose attestor key matches
    the consensus key is recognised as the seed, its stamp for any id and handle
    verifies and is stored under that id, and its [XSD1] output passes
    [CheckSeedBlockCommitment] for the height, parent and active set it signed. *)
Lemma seed_signatures_verify (st : AttestState) (id handle : bytes) (nHeight : Z)
    (prev : bytes) (ids : list bytes) :
  holds_seed_key st -> valid_handle handle ->
  IsBakedSeed params st = true /\
  (exists sig, SignAttestation st id handle = Some sig /\
     VerifyAttestation params id handle sig = true /\
     GetAttestation (StoreAttestation params st id handle sig) id = Some (mkRow handle sig)) /\
  CheckSeedBlockCommitment params nHeight prev ids (MakeSeedBlockCommitment st nHeight prev ids) = true.
Proof.
  intros Hs Hh. split_and!; [by apply holds_seed_key_baked| |by apply MakeSeedBlock_check].
  destruct (SignAttestation_verifies st id handle Hs) as (sig & E & _ & Hv).
  exists sig. split_and!; [done..|]. by apply StoreAttestation_get.
Qed.

End StampFacts.

(** ** What the signatures cover *)
Definition heartbeat_preimage (timestamp : Z) (script : CScript) (handle : bytes) (userId : Z)
    (xVerified : bool) : bytes :=
  HEARTBEAT_MAGIC ++ le_bytes 8 timestamp ++ script ++ handle ++ le_bytes 8 userId
    ++ [if xVerified then 1 else 0].
Definition attest_preimage (id handle : bytes) : bytes := ATTEST_DIGEST_MAGIC ++ id ++ handle.
Definition seed_preimage (nHeight : Z) (prevBlockHash : bytes) (ids : list bytes) : bytes :=
  SEED_DIGEST_MAGIC ++ prevBlockHash ++ le_bytes 4 (uwrap 32 nHeight) ++ concat ids.

Lemma tags_differ tag1 tag2 (a b : bytes) :
  bytes_eqb tag1 tag2 = false -> length tag1 = length tag2 -> tag1 ++ a <> tag2 ++ b.
Proof.
  intros Hne Hl E. apply app_inj_1 in E as [E _]; [|done]. apply bytes_eqb_neq in Hne. done.
Qed.

Lemma HeartbeatDigest_preimage t s h u v :
  HeartbeatDigest t s h u v = sha256.sha256_spec (heartbeat_preimage t s h u v).
Proof. unfold HeartbeatDigest. by rewrite sha256.SHA256_correct. Qed.

Lemma AttestDigest_preimage id h :
  valid_handle h -> AttestDigest id h = sha256.sha256_spec (attest_preimage id h).
Proof.
  intros Hh. unfold AttestDigest. rewrite Normalize_valid by done.
  rewrite sha256.SHA256_correct. simpl. by rewrite app_nil_r.
Qed.

Lemma SeedBlockDigest_preimage h p ids :
  SeedBlockDigest h p ids = sha256.sha256_spec (seed_preimage h p ids).
Proof. unfold SeedBlockDigest. by rewrite sha256.SHA256_correct. Qed.

Lemma concat_ids_inj ids1 ids2 :
  Forall id_ok ids1 -> Forall id_ok ids2 -> concat ids1 = concat ids2 -> ids1 = ids2.
Proof.
  intros H1 H2 E. pose proof (zlen_concat_ids _ H1) as L1. pose proof (zlen_concat_ids _ H2) as L2.
  rewrite <-(read_ids_concat ids1), <-(read_ids_concat ids2), E by done.
  f_equal. rewrite E in L1. unfold zlen in *. lia.
Qed.

(** Cuts equal concatenations at parts of equal length. *)
Ltac split_eq E :=
  let E1 := fresh E in
  apply app_inj_1 in E as [E1 E]; [|by rewrite ?length_le_bytes; congruence].

Lemma seed_preimage_inj h1 h2 p1 p2 ids1 ids2 :
  0 <= h1 < 2 ^ 31 -> 0 <= h2 < 2 ^ 31 -> length p1 = 32%nat -> length p2 = 32%nat ->
  Forall id_ok ids1 -> Forall id_ok ids2 ->
  seed_preimage h1 p1 ids1 = seed_preimage h2 p2 ids2 -> h1 = h2 /\ p1 = p2 /\ ids1 = ids2.
Proof.
  intros Hh1 Hh2 Hp1 Hp2 Hi1 Hi2 E. unfold seed_preimage in E.
  apply app_inv_head in E. split_eq E. split_eq E. rewrite !uwrap_small in * by lia.
  split_and!; [|done|by apply concat_ids_inj]. eapply (le_bytes_inj 4); [..|done]; simpl; lia.
Qed.

Lemma attest_preimage_inj id1 id2 h1 h2 :
  id_ok id1 -> id_ok id2 -> attest_preimage id1 h1 = attest_preimage id2 h2 -> id1 = id2 /\ h1 = h2.
Proof.
  unfold id_ok, attest_preimage. intros H1 H2 E. apply app_inv_head in E. by split_eq E.
Qed.

Lemma heartbeat_preimage_inj t1 t2 s1 s2 h1 h2 u1 u2 v1 v2 :
  0 <= t1 < 2 ^ 63 -> 0 <= t2 < 2 ^ 63 -> 0 <= u1 < 2 ^ 64 -> 0 <= u2 < 2 ^ 64 ->
  length s1 = length s2 ->
  heartbeat_preimage t1 s1 h1 u1 v1 = heartbeat_preimage t2 s2 h2 u2 v2 ->
  t1 = t2 /\ s1 = s2 /\ h1 = h2 /\ u1 = u2 /\ v1 = v2.
Proof.
  intros Ht1 Ht2 Hu1 Hu2 Hs E. unfold heartbeat_preimage in E.
  apply app_inv_head in E. split_eq E. split_eq E.
  rewrite !app_assoc in E. apply app_inj_2 in E as [E Ev]; [|done].
  apply app_inj_2 in E as [-> Eu]; [|by rewrite !length_le_bytes].
  split_and!; [eapply (le_bytes_inj 8); [..|done]; simpl; lia|done..
              |eapply (le_bytes_inj 8); [..|done]; simpl; lia|]. by destruct v1, v2.
Qed.

(** Signatures cannot be moved: the heartbeat, stamp and block signatures
    sign SHA-256 of strings that start with different tags, and each string
    determines what was signed: the height, parent and full active set; the id
    and handle; and, between payout scripts of one length such as any two
    pay-to-pubkey-hash scripts, the time, script, handle, user id and flag. *)
Theorem signed_strings_unambiguous :
  (forall t s h u v id h' n p ids,
     heartbeat_preimage t s h u v <> attest_preimage id h' /\
     attest_preimage id h' <> seed_preimage n p ids /\
     heartbeat_preimage t s h u v <> seed_preimage n p ids) /\
  (forall t s h u v, HeartbeatDigest t s h u v = sha256.sha256_spec (heartbeat_preimage t s h u v)) /\
  (forall id h, valid_handle h -> AttestDigest id h = sha256.sha256_spec (attest_preimage id h)) /\
  (forall n p ids, SeedBlockDigest n p ids = sha256.sha256_spec (seed_preimage n p ids)) /\
  (forall h1 h2 p1 p2 ids1 ids2,
     0 <= h1 < 2 ^ 31 -> 0 <= h2 < 2 ^ 31 -> length p1 = 32%nat -> length p2 = 32%nat ->
     Forall id_ok ids1 -> Forall id_ok ids2 ->
     seed_preimage h1 p1 ids1 = seed_preimage h2 p2 ids2 -> h1 = h2 /\ p1 = p2 /\ ids1 = ids2) /\
  (forall id1 id2 h1 h2, id_ok id1 -> id_ok id2 ->
     attest_preimage id1 h1 = attest_preimage id2 h2 -> id1 = id2 /\ h1 = h2) /\
  (forall t1 t2 s1 s2 h1 h2 u1 u2 v1 v2,
     0 <= t1 < 2 ^ 63 -> 0 <= t2 < 2 ^ 63 -> 0 <= u1 < 2 ^ 64 -> 0 <= u2 < 2 ^ 64 ->
     length s1 = length s2 ->
     heartbeat_preimage t1 s1 h1 u1 v1 = heartbeat_preimage t2 s2 h2 u2 v2 ->
     t1 = t2 /\ s1 = s2 /\ h1 = h2 /\ u1 = u2 /\ v1 = v2).
Proof.
  split; [intros; split_and!; by apply tags_differ|]. split_and!.
  - exact HeartbeatDigest_preimage.
  - exact AttestDigest_preimage.
  - exact SeedBlockDigest_preimage.
  - exact seed_preimage_inj.
  - exact attest_preimage_inj.
  - exact heartbeat_preimage_inj.
Qed.

(** The active-set commitment: for an increasing list of ids within the
    registry's limit of 4096, parsing the [XHB1] output gives the list back
    exactly when it has at most 1024 ids, and fails beyond; and whatever script
    parses yields an increasing list of at most 1024 ids. *)
Theorem xhb1_roundtrip (ids : list bytes) :
  sorted_ids ids -> zlen ids <= MAX_ACTIVE_NODES ->
  ParseActiveSetCommitment (MakeActiveSetCommitment ids)
    = (if zlen ids <=? 1024 then Some ids else None) /\
  forall script ids', ParseActiveSetCommitment script = Some ids' ->
    sorted_ids ids' /\ zlen ids' <= 1024.
Proof.
  unfold MAX_ACTIVE_NODES. intros [Hi Hs] Hn. split.
  - rewrite Parse_Make_active by (done || lia). apply adjacent_sorted in Hs as ->.
    by rewrite andb_true_r.
  - apply ParseActiveSet_sorted.
Qed.

(** ** A concrete seed, for the witnesses *)
Definition toy_params : CChainParams := mkParams false (2 :: repeat 7 32) 1789197360 2100000 true.
Definition toy_seed : AttestState := mkAttest (toy_key 7) false [].
Definition toy_script (b : Z) : CScript := GetScriptForDestination (CKeyID (repeat b 20)).
Definition toy_id (b : Z) : bytes := IdFromScript (toy_script b).
Definition toy_stamp (st : AttestState) (b : Z) (handle : bytes) : AttestState :=
  (LookupAndAttest (H := toy_secp256k1) toy_params (mkLookup true (fun _ => VERIFIED)) st
     (toy_script b) handle).2.
Definition toy_stamped : AttestState := toy_stamp (toy_stamp toy_seed 1 (bs "alice")) 2 (bs "bob").

Lemma toy_seed_holds : holds_seed_key (H := toy_secp256k1) toy_params toy_seed.
Proof. split_and!; [split|..]; vm_compute; reflexivity. Qed.

Lemma toy_stamped_ok : attest_ok (H := toy_secp256k1) toy_params toy_stamped.
Proof.
  apply LookupAndAttest_ok, LookupAndAttest_ok. split; [constructor|]. intros id row E. discriminate E.
Qed.

Lemma valid_alice : valid_handle (bs "alice").
Proof. apply (Normalize_Ok_valid (bs "alice")). vm_compute. reflexivity. Qed.

Lemma xva1_roundtrip_witness :
  CheckXvaForIds (H := toy_secp256k1) toy_params [toy_id 1; toy_id 2]
    (MakeXvaCommitment toy_stamped [toy_id 1; toy_id 2]) = true.
Proof.
  apply (xva1_roundtrip (H := toy_secp256k1) toy_params toy_stamped toy_seed [toy_id 1; toy_id 2]);
    [apply toy_stamped_ok| | |vm_compute; congruence].
  - repeat constructor; apply ripemd160.length_Hash160.
  - repeat constructor; vm_compute; reflexivity.
Defined.

Lemma xhb1_roundtrip_witness :
  ParseActiveSetCommitment (MakeActiveSetCommitment [repeat 1 20; repeat 2 20])
  = Some [repeat 1 20; repeat 2 20].
Proof.
  apply (xhb1_roundtrip [repeat 1 20; repeat 2 20]); [|vm_compute; congruence].
  split; [by repeat constructor|]. by apply adjacent_sorted.
Defined.
