(* ===== verification/Lookup.v ===== *)
(** * The X lookup

    src/src/xlookup.{h,cpp}: the seed's question to X whether a handle is
    verified. The TLS exchange is an argument (the bytes X sent, or nothing);
    the parsing of the HTTP response, the chunked transfer coding, the cache with
    its two lifetimes and the mocks are the model. A decoder that does not
    return is [None] for every fuel. *)

From S2P Require Import Prelude OrdMap Script Handle Hex Json Session Key Attest.

Local Open Scope Z_scope.

Record CacheRow := mkCacheRow { cr_status : lookup_status; cr_expiresAt : Z }.
Record LookupState := mkLookupState { g_cache : omap bytes CacheRow; g_mock : omap bytes lookup_status }.
Definition lookup_init : LookupState := mkLookupState [] [].

Definition HandleUrlSafe (h : bytes) : bool :=
  if (zlen h =? 0) || (32 <? zlen h) then false else forallb (fun c => isalnum c || (c =? 95)) h.

Definition BearerToken (arg : bytes) (env : option bytes) : bytes :=
  if negb (zlen arg =? 0) then arg else default [] env.
Definition lookup_enabled (arg : bytes) (env : option bytes) : bool := negb (zlen (BearerToken arg env) =? 0).

Definition SetLookupMock (handle : bytes) (status : lookup_status) (st : LookupState) : LookupState :=
  let norm := AsciiLower handle in mkLookupState (om_erase norm (g_cache st)) (om_insert norm status (g_mock st)).
Definition ClearLookupMocks (st : LookupState) : LookupState := mkLookupState [] [].

(** ** The response *)

(** [std::string::find] of a string, from the start of [s]. *)
Fixpoint find_sub (p s : bytes) : option nat :=
  match strip_prefix p s with
  | Some _ => Some 0%nat
  | None => match s with [] => None | _ :: s => S <$> find_sub p s end
  end.

Definition CRLF : bytes := [13; 10].

Fixpoint take_hex (s : bytes) : bytes :=
  match s with c :: s => if 0 <=? HexDigit c then c :: take_hex s else [] | [] => [] end.
Definition hex_value (s : bytes) : Z := fold_left (fun n c => n * 16 + HexDigit c) s 0.

(** [strtoul] in base sixteen; [None]: no digits, the end pointer stays at the
    start. *)
Definition strip_0x (s : bytes) : bytes :=
  match s with
  | c0 :: c1 :: c2 :: s' =>
      if (c0 =? 48) && ((c1 =? 120) || (c1 =? 88)) && (0 <=? HexDigit c2) then c2 :: s' else s
  | _ => s
  end.
Definition strtoul16 (str : bytes) : option Z :=
  let s := drop_space str in
  let '(neg, s) := match s with
                   | c :: s' => if c =? 45 then (true, s') else if c =? 43 then (false, s') else (false, s)
                   | [] => (false, s)
                   end in
  match take_hex (strip_0x s) with
  | [] => None
  | ds => let n := hex_value ds in
          Some (if 2 ^ 64 <=? n then 2 ^ 64 - 1 else if (neg : bool) then uwrap 64 (- n) else n)
  end.

(** The loop of [DecodeChunkedBody], with its [size_t] index. *)
Definition byte_at (s : bytes) (i : Z) : Z := nth (Z.to_nat i) s 0.
Definition skip_crlf (inp : bytes) (i : Z) : Z :=
  if (uwrap 64 (i + 1) <? zlen inp) && (byte_at inp i =? 13) && (byte_at inp (uwrap 64 (i + 1)) =? 10)
  then uwrap 64 (i + 2) else i.
Fixpoint dechunk (fuel : nat) (inp : bytes) (i : Z) (out : bytes) : option (bool * bytes) :=
  match fuel with
  | O => None
  | S fuel =>
      if negb (i <? zlen inp) then Some (negb (zlen out =? 0), out) else
      let s := drop (Z.to_nat i) inp in
      match find_sub CRLF s with
      | None => Some (false, out)
      | Some k =>
          match strtoul16 s with
          | None => Some (false, out)
          | Some sz =>
              let i := i + Z.of_nat k + 2 in
              if sz =? 0 then Some (true, out) else
              if zlen inp <? uwrap 64 (i + sz) then Some (false, out) else
              let out := out ++ take (Z.to_nat (Z.min sz (zlen inp))) (drop (Z.to_nat i) inp) in
              dechunk fuel inp (skip_crlf inp (uwrap 64 (i + sz))) out
          end
      end
  end.
Definition DecodeChunkedBody (fuel : nat) (inp : bytes) : option (bool * bytes) := dechunk fuel inp 0 [].

(** From the first opening brace to the last closing one. *)
Definition ExtractJsonObject (body : bytes) : bytes :=
  match find_sub [123] body, find_sub [125] (rev body) with
  | Some start, Some back =>
      let end_ := (length body - 1 - back)%nat in
      if (end_ <? start)%nat then body else take (end_ - start + 1) (drop start body)
  | _, _ => body
  end.

Definition HeaderHas (headers keyNeedle : bytes) : bool :=
  match find_sub keyNeedle (AsciiLower headers) with Some _ => true | None => false end.

(** The part of [HttpsGetTwitter] after the exchange: the status and the
    body. [Some None]: it fails. *)
Definition http_status (headers : bytes) : Z :=
  match strip_prefix (bs "HTTP/") headers, find_sub [32] headers with
  | Some _, Some sp => swrap 32 (atoi64 (drop (sp + 1) headers))
  | _, _ => 0
  end.
Definition HttpsGetTwitter (fuel : nat) (answer : option bytes) : option (option (Z * bytes)) :=
  match answer with
  | None => Some None
  | Some raw =>
      if zlen raw =? 0 then Some None else
      match find_sub (CRLF ++ CRLF) raw with
      | None => Some None
      | Some hdrEnd =>
          let headers := take hdrEnd raw in
          let body := drop (hdrEnd + 4) raw in
          let decoded := if HeaderHas headers (bs "transfer-encoding: chunked")
                         then DecodeChunkedBody fuel body else Some (false, []) in
          match decoded with
          | None => None
          | Some (ok, out) => Some (Some (http_status headers, ExtractJsonObject (if (ok : bool) then out else body)))
          end
      end
  end.

(** ** The question *)

(** What the answer says; [LOOKUP_FAILED] is not remembered. *)
Definition http_verdict (httpStatus : Z) (body : bytes) : lookup_status :=
  if httpStatus =? 404 then NOT_VERIFIED
  else if (httpStatus =? 429) || (500 <=? httpStatus) || (httpStatus =? 401) || (httpStatus =? 403) then LOOKUP_FAILED
  else if negb (httpStatus =? 200) then NOT_VERIFIED
  else match ParseUsersMe body with
       | Err _ => LOOKUP_FAILED
       | Ok me => if IsOfficialXVerified (me_verified me) (me_verifiedType me) then VERIFIED else NOT_VERIFIED
       end.

Definition remember (norm : bytes) (status : lookup_status) (now : Z) (st : LookupState) : LookupState :=
  match status with
  | LOOKUP_FAILED => st
  | VERIFIED => mkLookupState (om_insert norm (mkCacheRow VERIFIED (now + 3600)) (g_cache st)) (g_mock st)
  | NOT_VERIFIED => mkLookupState (om_insert norm (mkCacheRow NOT_VERIFIED (now + 600)) (g_cache st)) (g_mock st)
  end.

(** The mocks, then the cache. *)
Definition cached (norm : bytes) (now : Z) (st : LookupState) : option lookup_status :=
  match om_find norm (g_mock st) with
  | Some s => Some s
  | None =>
      match om_find norm (g_cache st) with
      | Some row => if now <? cr_expiresAt row then Some (cr_status row) else None
      | None => None
      end
  end.

(** [LookupHandle], from the bearer on and whole. *)
Definition ask_x (fuel : nat) (bearer : bytes) (answer : bytes -> option bytes) (now : Z) (norm : bytes)
    (st : LookupState) : option (lookup_status * LookupState) :=
  if zlen bearer =? 0 then Some (LOOKUP_FAILED, st) else
  let path := bs "/2/users/by/username/" ++ norm ++ bs "?user.fields=verified,verified_type" in
  match HttpsGetTwitter fuel (answer path) with
  | None => None
  | Some None => Some (LOOKUP_FAILED, st)
  | Some (Some (httpStatus, body)) => let s := http_verdict httpStatus body in Some (s, remember norm s now st)
  end.

Definition lookup_handle (fuel : nat) (bearer : bytes) (answer : bytes -> option bytes) (now : Z) (handle : bytes)
    (st : LookupState) : option (lookup_status * LookupState) :=
  let norm := AsciiLower handle in
  if negb (HandleUrlSafe norm) then Some (NOT_VERIFIED, st) else
  match cached norm now st with
  | Some s => Some (s, st)
  | None => ask_x fuel bearer answer now norm st
  end.

(** ** Calls over time *)
Inductive lookup_event :=
  | EvLookup (fuel : nat) (bearer : bytes) (answer : bytes -> option bytes) (now : Z) (handle : bytes)
  | EvMock (handle : bytes) (status : lookup_status)
  | EvClearMocks.
Definition lookup_step (st : LookupState) (e : lookup_event) : LookupState :=
  match e with
  | EvLookup fuel bearer answer now handle =>
      match lookup_handle fuel bearer answer now handle st with Some (_, st) => st | None => st end
  | EvMock handle status => SetLookupMock handle status st
  | EvClearMocks => ClearLookupMocks st
  end.
Definition lookup_run (es : list lookup_event) (st : LookupState) : LookupState := fold_left lookup_step es st.

(** ** The chunked coding *)

Definition hex_line (h : bytes) : Prop := h <> [] /\ Forall (fun c => 0 <= HexDigit c) h.

Lemma hex_char c : 0 <= HexDigit c -> 48 <= c <= 102 /\ c <> 88 /\ c <> 120 /\ isspace c = false.
Proof. unfold HexDigit, isspace. intros H.
  destruct (_ && _) eqn:E1 in H; [|destruct (_ && _) eqn:E2 in H; [|destruct (_ && _) eqn:E3 in H]]; split_and!; lia. Qed.

Lemma find_crlf h r : Forall (fun c => 0 <= HexDigit c) h -> find_sub CRLF (h ++ CRLF ++ r) = Some (length h).
Proof.
  induction 1 as [|c h Hc _ IH]; [done|]. destruct (hex_char c Hc) as (Hr & _). cbn [app length find_sub].
  change (strip_prefix CRLF (c :: h ++ CRLF ++ r)) with (if 13 =? c then strip_prefix [10] (h ++ CRLF ++ r) else None).
  rewrite (proj2 (Z.eqb_neq 13 c)) by lia. by rewrite IH.
Qed.

Lemma take_hex_line h r : Forall (fun c => 0 <= HexDigit c) h -> take_hex (h ++ CRLF ++ r) = h.
Proof.
  induction 1 as [|c h Hc _ IH]; [done|]. cbn [app take_hex]. rewrite (proj2 (Z.leb_le _ _) Hc). by rewrite IH.
Qed.

Lemma strtoul16_line h r : hex_line h -> hex_value h < 2 ^ 64 -> strtoul16 (h ++ CRLF ++ r) = Some (hex_value h).
Proof.
  intros [Hne Hh] Hv. pose proof (take_hex_line h r Hh) as Ht. destruct h as [|c h]; [done|].
  assert (strip_0x ((c :: h) ++ CRLF ++ r) = (c :: h) ++ CRLF ++ r) as Hx.
  { inv Hh. destruct h as [|c1 h]; cbn [app strip_0x CRLF].
    - by rewrite andb_false_r.
    - inv H2. destruct (hex_char c1) as (_ & H88 & H120 & _); [done|]. destruct (h ++ 13 :: 10 :: r); [done|].
      by rewrite (proj2 (Z.eqb_neq _ _) H88), (proj2 (Z.eqb_neq _ _) H120), andb_false_r. }
  inv Hh. destruct (hex_char c) as (Hc & _ & _ & Hs); [done|].
  unfold strtoul16. cbn [app drop_space]. rewrite Hs. cbn [app] in Hx, Ht.
  rewrite (proj2 (Z.eqb_neq c 45)), (proj2 (Z.eqb_neq c 43)) by lia. rewrite Hx, Ht.
  by rewrite (proj2 (Z.leb_gt _ _)) by lia.
Qed.

(** A sender's chunks: the size line and the data. *)
Definition chunk_ok (c : bytes * bytes) : Prop := hex_line c.1 /\ hex_value c.1 = zlen c.2 /\ c.2 <> [].
Definition encode_chunk (c : bytes * bytes) : bytes := c.1 ++ CRLF ++ c.2 ++ CRLF.
Definition encode_chunks (cs : list (bytes * bytes)) : bytes := concat (map encode_chunk cs) ++ [48] ++ CRLF ++ CRLF.

Lemma drop_zlen (a b : bytes) : drop (Z.to_nat (zlen a)) (a ++ b) = b.
Proof. unfold zlen. by rewrite Nat2Z.id, drop_app_length. Qed.

Lemma skip_crlf_at a r : zlen a + 2 + zlen r < 2 ^ 63 -> skip_crlf (a ++ CRLF ++ r) (zlen a) = zlen a + 2.
Proof.
  intros Hl. pose proof (zlen_nonneg a). pose proof (zlen_nonneg r). unfold skip_crlf.
  rewrite !uwrap_small by lia. rewrite !zlen_app, (proj2 (Z.ltb_lt _ _)) by (change (zlen CRLF) with 2; lia).
  assert (byte_at (a ++ CRLF ++ r) (zlen a) = 13 /\ byte_at (a ++ CRLF ++ r) (zlen a + 1) = 10) as [-> ->]; [|done].
  unfold byte_at. split; rewrite List.app_nth2 by (unfold zlen; lia).
  - by replace (Z.to_nat (zlen a) - length a)%nat with 0%nat by (unfold zlen; lia).
  - by replace (Z.to_nat (zlen a + 1) - length a)%nat with 1%nat by (unfold zlen; lia).
Qed.

Lemma encode_chunks_long cs : 0 < zlen (encode_chunks cs).
Proof.
  unfold encode_chunks. rewrite zlen_app. change (zlen ([48] ++ CRLF ++ CRLF)) with 5.
  pose proof (zlen_nonneg (concat (map encode_chunk cs))). lia.
Qed.

Lemma dechunk_encoded cs : forall pre out, Forall chunk_ok cs -> zlen (pre ++ encode_chunks cs) < 2 ^ 63 ->
  dechunk (S (length cs)) (pre ++ encode_chunks cs) (zlen pre) out = Some (true, out ++ concat (map snd cs)).
Proof.
  induction cs as [|[h d] cs IH]; intros pre out Hcs Hlen;
    match goal with |- dechunk (S ?n) _ _ _ = _ => remember n as fuel eqn:Ef end; cbn [dechunk];
    match goal with |- context [encode_chunks ?l] => pose proof (encode_chunks_long l) end;
    (rewrite (proj2 (Z.ltb_lt _ _)) by (rewrite zlen_app; lia)); cbn [negb];
    rewrite drop_zlen.
  { change (encode_chunks []) with ([48] ++ CRLF ++ CRLF). rewrite find_crlf by (by repeat constructor).
    rewrite strtoul16_line by (by repeat constructor). cbn [map concat]. by rewrite app_nil_r. }
  apply Forall_cons in Hcs as [(Hh & Hv & Hd) Hcs]. cbn [fst snd] in *.
  set (rest := encode_chunks cs) in *.
  assert (encode_chunks ((h, d) :: cs) = h ++ CRLF ++ d ++ CRLF ++ rest) as E.
  { unfold rest, encode_chunks, encode_chunk. cbn [map concat fst snd]. by rewrite <-!app_assoc. }
  rewrite E in *. rewrite find_crlf by apply Hh. rewrite !zlen_app in Hlen.
  pose proof (zlen_nonneg pre); pose proof (zlen_nonneg h); pose proof (zlen_nonneg rest); pose proof (zlen_nonneg d).
  change (zlen CRLF) with 2 in Hlen. rewrite strtoul16_line by (done || lia). rewrite Hv.
  assert (zlen d <> 0) as Hd0 by (by destruct d). rewrite (proj2 (Z.eqb_neq _ _) Hd0).
  change (Z.of_nat (length h)) with (zlen h).
  assert (uwrap 64 (zlen pre + zlen h + 2 + zlen d) = zlen pre + zlen h + 2 + zlen d) as Ew by (apply uwrap_small; lia).
  rewrite Ew, (proj2 (Z.ltb_ge _ _)) by (rewrite !zlen_app; change (zlen CRLF) with 2; lia).
  set (pre' := pre ++ h ++ CRLF ++ d ++ CRLF).
  assert (pre ++ h ++ CRLF ++ d ++ CRLF ++ rest = pre' ++ rest) as Ep by (unfold pre'; by rewrite <-!app_assoc).
  assert (drop (Z.to_nat (zlen pre + zlen h + 2)) (pre ++ h ++ CRLF ++ d ++ CRLF ++ rest) = d ++ CRLF ++ rest) as ->.
  { rewrite (app_assoc h), (app_assoc pre). apply drop_app_length'. rewrite !length_app. unfold zlen. cbn. lia. }
  assert (take (Z.to_nat (Z.min (zlen d) (zlen (pre ++ h ++ CRLF ++ d ++ CRLF ++ rest)))) (d ++ CRLF ++ rest) = d) as ->.
  { apply take_app_length'. rewrite Z.min_l by (rewrite !zlen_app; change (zlen CRLF) with 2; lia). unfold zlen. lia. }
  assert (skip_crlf (pre ++ h ++ CRLF ++ d ++ CRLF ++ rest) (zlen pre + zlen h + 2 + zlen d) = zlen pre') as ->.
  { pose proof (skip_crlf_at (pre ++ h ++ CRLF ++ d) rest) as Es. rewrite <-!app_assoc in Es.
    rewrite !zlen_app in Es. change (zlen CRLF) with 2 in Es. unfold pre'. rewrite !zlen_app. change (zlen CRLF) with 2.
    rewrite !Z.add_assoc in *. apply Es; lia. }
  rewrite Ef, Ep. change (length ((h, d) :: cs)) with (S (length cs)). rewrite IH; [|done|]. 2:{ rewrite <-Ep, !zlen_app. change (zlen CRLF) with 2. lia. }
  cbn [map concat snd]. by rewrite app_assoc.
Qed.

(** A chunked body decodes to what was sent: for any list of nonempty chunks
    with their sizes in hexadecimal, of either case and with leading zeros or
    not, and the empty last chunk, [DecodeChunkedBody] returns after one turn per
    chunk and gives the data in order. *)
Lemma chunked_roundtrip (cs : list (bytes * bytes)) :
  Forall chunk_ok cs -> zlen (encode_chunks cs) < 2 ^ 63 ->
  DecodeChunkedBody (S (length cs)) (encode_chunks cs) = Some (true, concat (map snd cs)).
Proof. intros Hcs Hl. exact (dechunk_encoded cs [] [] Hcs Hl). Qed.

(** ** A size that wraps *)

Definition wrapping_size : bytes := bs "ffffffffffffffee".

Lemma wrapping_turn fuel rest out : zlen rest < 2 ^ 63 ->
  dechunk (S fuel) (wrapping_size ++ CRLF ++ rest) 0 out = dechunk fuel (wrapping_size ++ CRLF ++ rest) 0 (out ++ rest).
Proof.
  intros Hl. set (inp := wrapping_size ++ CRLF ++ rest).
  assert (zlen inp = 18 + zlen rest) as El by (unfold inp; rewrite !zlen_app; change (zlen wrapping_size) with 16;
    change (zlen CRLF) with 2; lia).
  pose proof (zlen_nonneg rest). cbn [dechunk]. rewrite (proj2 (Z.ltb_lt 0 _)) by lia. cbn [negb].
  change (drop (Z.to_nat 0) inp) with inp. change (find_sub CRLF inp) with (Some 16%nat).
  assert (strtoul16 inp = Some 0xffffffffffffffee) as ->.
  { apply (strtoul16_line wrapping_size rest); [|done]. split; [done|]. by repeat constructor. }
  change (0xffffffffffffffee =? 0) with false. cbv zeta. change (0 + Z.of_nat 16 + 2) with 18.
  change (uwrap 64 (18 + 0xffffffffffffffee)) with 0. rewrite (proj2 (Z.ltb_ge _ _)) by lia. cbn iota.
  change (drop (Z.to_nat 18) inp) with rest. rewrite Z.min_r by lia. rewrite take_ge by (rewrite El; unfold zlen; lia).
  assert (skip_crlf inp 0 = 0) as ->; [|done]. unfold skip_crlf. change (byte_at inp 0) with 102. by rewrite andb_false_r.
Qed.

Lemma wrapping_never_returns rest fuel : zlen rest < 2 ^ 63 -> forall out,
  dechunk fuel (wrapping_size ++ CRLF ++ rest) 0 out = None.
Proof. intros Hl. induction fuel as [|fuel IH]; intros out; [done|]. by rewrite wrapping_turn. Qed.

Definition chunked_head : bytes := bs "HTTP/1.1 200 OK" ++ CRLF ++ bs "Transfer-Encoding: chunked".

(** C40. One chunk size makes the lookup run for ever.  [i + sz] is computed in
    [size_t] and wraps: the size 0xffffffffffffffee on the first line leads back
    to index 0, past the test against the length, and each turn appends the
    whole rest of the body once more.  So for a response that starts this way,
    whatever follows, the decoder has not returned after any number of turns,
    and neither has [LookupHandle] for a handle that is neither mocked nor
    cached. *)
Theorem chunked_lookup_loops (rest : bytes) (fuel : nat) (bearer : bytes) (answer : bytes -> option bytes) (now : Z)
    (handle : bytes) (st : LookupState) :
  zlen rest < 2 ^ 63 -> bearer <> [] -> HandleUrlSafe (AsciiLower handle) = true ->
  cached (AsciiLower handle) now st = None ->
  (forall path, answer path = Some (chunked_head ++ CRLF ++ CRLF ++ wrapping_size ++ CRLF ++ rest)) ->
  (forall out, dechunk (S fuel) (wrapping_size ++ CRLF ++ rest) 0 out =
               dechunk fuel (wrapping_size ++ CRLF ++ rest) 0 (out ++ rest)) /\
  lookup_handle fuel bearer answer now handle st = None.
Proof.
  intros Hl Hb Hs Hc Ha. split; [intros; by apply wrapping_turn|]. unfold lookup_handle, ask_x. rewrite Hs, Hc. cbn [negb].
  rewrite (proj2 (Z.eqb_neq _ _)) by (by destruct bearer). unfold HttpsGetTwitter. rewrite Ha.
  set (raw := chunked_head ++ _). change (find_sub (CRLF ++ CRLF) raw) with (Some 43%nat).
  rewrite (proj2 (Z.eqb_neq _ _)) by done. cbv zeta. change (take 43 raw) with chunked_head.
  change (HeaderHas chunked_head (bs "transfer-encoding: chunked")) with true.
  change (drop (43 + 4) raw) with (wrapping_size ++ CRLF ++ rest). unfold DecodeChunkedBody.
  by rewrite wrapping_never_returns.
Qed.

Lemma chunked_lookup_loops_witness :
  lookup_handle 1000 (bs "t") (fun _ => Some (chunked_head ++ CRLF ++ CRLF ++ wrapping_size ++ CRLF ++ bs "{}")) 0 (bs "Bob") lookup_init
  = None.
Proof. apply (chunked_lookup_loops (bs "{}")); try reflexivity. discriminate. Defined.

(** ** The cache *)

(** X answered the question for [norm] with status 200 and an account that is
    verified. *)
Definition x_says_verified (fuel : nat) (answer : bytes -> option bytes) (norm : bytes) : Prop :=
  exists body me,
    HttpsGetTwitter fuel (answer (bs "/2/users/by/username/" ++ norm ++ bs "?user.fields=verified,verified_type"))
      = Some (Some (200, body)) /\
    ParseUsersMe body = Ok me /\ IsOfficialXVerified (me_verified me) (me_verifiedType me) = true.

Lemma http_verdict_verified httpStatus body : http_verdict httpStatus body = VERIFIED ->
  httpStatus = 200 /\ exists me, ParseUsersMe body = Ok me /\ IsOfficialXVerified (me_verified me) (me_verifiedType me) = true.
Proof.
  unfold http_verdict. destruct (httpStatus =? 404); [done|]. destruct (_ || _); [done|].
  destruct (httpStatus =? 200) eqn:E; [|done]. cbn [negb]. apply Z.eqb_eq in E. destruct (ParseUsersMe body) as [me|]; [|done].
  destruct (IsOfficialXVerified _ _) eqn:Ev; [|done]. eauto.
Qed.

(** Where a verified row comes from, and where a mock comes from. *)
Record cache_ok (es : list lookup_event) (st : LookupState) : Prop := {
  cache_rows : forall norm row, om_find norm (g_cache st) = Some row -> cr_status row = VERIFIED ->
    exists fuel bearer answer t handle, EvLookup fuel bearer answer t handle ∈ es /\ AsciiLower handle = norm /\
      cr_expiresAt row = t + 3600 /\ x_says_verified fuel answer norm;
  cache_kept : forall norm row, om_find norm (g_cache st) = Some row -> cr_status row <> LOOKUP_FAILED;
  cache_mocks : forall norm s, om_find norm (g_mock st) = Some s ->
    exists handle, EvMock handle s ∈ es /\ AsciiLower handle = norm;
}.

Lemma cache_ok_weaken es es' st : es ⊆ es' -> cache_ok es st -> cache_ok es' st.
Proof.
  intros Hsub [Hr Hk Hm]. split; [|done|].
  - intros norm row E Hv. destruct (Hr norm row E Hv) as (fuel & b & ans & t & h & Hin & ?). eauto 10.
  - intros norm s E. destruct (Hm norm s E) as (h & Hin & ?). eauto.
Qed.

Lemma ask_x_result fuel bearer answer now norm st s st' : ask_x fuel bearer answer now norm st = Some (s, st') ->
  (s = VERIFIED -> x_says_verified fuel answer norm) /\ (st' = st \/ st' = remember norm s now st).
Proof.
  unfold ask_x. destruct (zlen bearer =? 0); [intros [= <- <-]; by split; [|left]|].
  destruct (HttpsGetTwitter _ _) as [[[httpStatus body]|]|] eqn:E; [|intros [= <- <-]; by split; [|left]|done].
  intros [= <- <-]. split; [|by right]. intros (-> & me & Hme)%http_verdict_verified. by exists body, me.
Qed.

Lemma lookup_handle_cache fuel bearer answer now handle st s st' : lookup_handle fuel bearer answer now handle st = Some (s, st') ->
  st' = st \/ st' = remember (AsciiLower handle) s now st /\ (s = VERIFIED -> x_says_verified fuel answer (AsciiLower handle)).
Proof.
  unfold lookup_handle. destruct (negb (HandleUrlSafe _)); [intros [= <- <-]; by left|].
  destruct (cached _ _ _); [intros [= <- <-]; by left|]. intros [Hv [->|Hs]]%ask_x_result; [by left|by right].
Qed.

Lemma lookup_step_cache es e st : cache_ok es st -> cache_ok (es ++ [e]) (lookup_step st e).
Proof.
  intros Hst. assert (cache_ok (es ++ [e]) st) as Hw by (apply (cache_ok_weaken es); [apply list_subseteq_app_l|]; done).
  assert (e ∈ es ++ [e]) as He by (apply elem_of_app; right; by apply list_elem_of_singleton).
  destruct e as [fuel bearer answer now handle|handle status|]; cbn [lookup_step].
  - destruct (lookup_handle _ _ _ _ _ _) as [[s st']|] eqn:E; [|done].
    destruct (lookup_handle_cache _ _ _ _ _ _ _ _ E) as [->|[-> Hv]]; [done|]. destruct Hw as [Hr Hk Hm].
    destruct s; unfold remember; [| |by split]; (split; cbn [g_cache g_mock]; [| |done]); intros norm row; rewrite om_find_insert;
      destruct (decide _) as [<-|]; try (by apply Hr || by apply Hk); intros [= <-]; [|done..]. intros _. eauto 12.
  - destruct Hw as [Hr Hk Hm]. split; cbn [SetLookupMock g_cache g_mock].
    + intros norm row. rewrite om_find_erase. destruct (decide _); [done|]. apply Hr.
    + intros norm row. rewrite om_find_erase. destruct (decide _); [done|]. apply Hk.
    + intros norm s. rewrite om_find_insert. destruct (decide _) as [<-|]; [|apply Hm]. intros [= <-]. eauto.
  - by split.
Qed.

Lemma lookup_run_cache es : cache_ok es (lookup_run es lookup_init).
Proof.
  induction es as [|e es IH] using rev_ind; [by split|]. unfold lookup_run. rewrite fold_left_app. by apply lookup_step_cache.
Qed.

(** The lookup as the attestation code sees it while a call runs; one that does
    not return gives no answer. *)
Definition x_lookup (fuel : nat) (arg : bytes) (env : option bytes) (answer : bytes -> option bytes) (now : Z)
    (st : LookupState) : XLookup :=
  mkLookup (lookup_enabled arg env)
    (fun handle => match lookup_handle fuel (BearerToken arg env) answer now handle st with
                   | Some (s, _) => s
                   | None => LOOKUP_FAILED
                   end).

(** [norm] is verified at [now] by the calls [es] and the answer of the call
    that runs. *)
Definition verified_source (es : list lookup_event) (fuel : nat) (answer : bytes -> option bytes) (now : Z) (norm : bytes) : Prop :=
  (exists h, EvMock h VERIFIED ∈ es /\ AsciiLower h = norm) \/
  x_says_verified fuel answer norm \/
  exists fuel' bearer' answer' t h, EvLookup fuel' bearer' answer' t h ∈ es /\ AsciiLower h = norm /\
    now < t + 3600 /\ x_says_verified fuel' answer' norm.

Lemma verified_answer_fresh es fuel bearer answer now handle st' :
  lookup_handle fuel bearer answer now handle (lookup_run es lookup_init) = Some (VERIFIED, st') ->
  verified_source es fuel answer now (AsciiLower handle).
Proof.
  destruct (lookup_run_cache es) as [Hr _ Hm]. set (st := lookup_run es lookup_init) in *. unfold lookup_handle.
  destruct (negb (HandleUrlSafe _)); [done|]. unfold cached. destruct (om_find _ (g_mock st)) as [s|] eqn:Em.
  { intros [= -> _]. left. by apply Hm. }
  assert (ask_x fuel bearer answer now (AsciiLower handle) st = Some (VERIFIED, st') ->
    verified_source es fuel answer now (AsciiLower handle)) as Hnet.
  { intros [Hv _]%ask_x_result. right. left. by apply Hv. }
  destruct (om_find _ (g_cache st)) as [row|] eqn:Ec; [|apply Hnet].
  destruct (now <? cr_expiresAt row) eqn:En; [|apply Hnet]. intros [= Hv _]. right. right.
  destruct (Hr _ _ Ec Hv) as (f' & b' & a' & t & h & Hin & Hh & He & Hs). rewrite He in En. apply Z.ltb_lt in En. eauto 12.
Qed.

Lemma AsciiLower_valid h : valid_handle h -> AsciiLower h = h.
Proof.
  intros [_ Hh]. unfold AsciiLower. induction Hh as [|c h Hc _ IH]; [done|]. cbn [map]. by rewrite IH, handle_char_lower.
Qed.

(** C21. A seed's stamp goes back to X: in a node whose lookup was used for any
    sequence [es] of questions, mocks and resets, when [LookupAndAttest] gives or
    stores a stamp for a script that had none, then X itself answered the
    question for exactly this handle with a verified account: now, or in an
    earlier question less than an hour ago (or a test pinned the handle).  A
    failed exchange, an error status, an answer that does not parse and an
    account without a check mark never lead to a stamp. *)
Theorem stamps_follow_x `{Secp256k1} (params : CChainParams) (es : list lookup_event) (fuel : nat) (arg : bytes)
    (env : option bytes) (answer : bytes -> option bytes) (now : Z) (att : AttestState) (script : CScript)
    (handle norm : bytes) :
  let res := LookupAndAttest params (x_lookup fuel arg env answer now (lookup_run es lookup_init)) att script handle in
  NormalizeXHandle handle = Ok norm -> HasAttestation att (IdFromScript script) = false ->
  res.1.1 = true \/ res.2 <> att ->
  lookup_enabled arg env = true /\ verified_source es fuel answer now norm.
Proof.
  intros res Hn Ha. unfold res, LookupAndAttest. rewrite Hn, Ha. unfold IsXLookupNode.
  destruct (LookupEnabled _ && _) eqn:Ee; cbn [negb]; [|by intros [?|?]].
  apply andb_true_iff in Ee as [Ee _]. destruct (LookupHandle _ norm) eqn:El; [|by intros [?|?]..].
  intros _. split; [exact Ee|]. cbn [x_lookup LookupHandle] in El.
  destruct (lookup_handle _ _ _ _ _ _) as [[s st']|] eqn:E; [|done]. subst s. apply verified_answer_fresh in E.
  by rewrite AsciiLower_valid in E by (by eapply Normalize_Ok_valid).
Qed.

(** A question for bob at 1000, answered with a blue check, then a heartbeat of
    bob half an hour later. *)
Definition toy_answer : bytes :=
  bs "HTTP/1.1 200 OK" ++ CRLF ++ CRLF ++
  uv_write 0 0 (VOBJ [bs "data"] [VOBJ [bs "id"; bs "username"; bs "verified"; bs "verified_type"]
                                    [VSTR (bs "7"); VSTR (bs "Bob"); VBOOL false; VSTR (bs "blue")]]).
Definition toy_questions : list lookup_event := [EvLookup 5 (bs "t") (fun _ => Some toy_answer) 1000 (bs "bob")].

Lemma stamps_follow_x_witness :
  verified_source toy_questions 5 (fun _ => None) 2800 (bs "bob").
Proof.
  apply (stamps_follow_x (H := toy_secp256k1) toy_params toy_questions 5 (bs "t") None (fun _ => None) 2800 toy_seed
    [118; 169] (bs "@Bob") (bs "bob")).
  - reflexivity.
  - reflexivity.
  - left. vm_compute. reflexivity.
Defined.
