(* ===== verification/Registry.v ===== *)
(** The registry of active nodes of src/src/lottery.cpp: heartbeats, the
    binding of an X handle to one node, eviction, and the sets of ids the draw
    and the wallet read. *)

From S2P Require Import Prelude OrdMap Sha256 Ripemd160 Script Handle Slots Key Attest.

Local Open Scope Z_scope.

Definition HEARTBEAT_TTL_SECONDS : Z := 180.

Record ActiveNode := mkNode {
  an_id : bytes;
  an_script : CScript;
  lastSeen : Z;
  joined : Z;
  an_x : XAccount;
}.

Record Registry := mkRegistry {
  nodes : omap bytes ActiveNode;
  byHandle : omap bytes bytes;
  localScript : CScript;
  localId : bytes;
  localX : XAccount;
}.

Definition uint160_null : bytes := repeat 0 20.
Definition IsNull (id : bytes) : bool := bytes_eqb id uint160_null.

#[global] Arguments IsNull : simpl never.

Definition Registry_empty : Registry := mkRegistry [] [] [] uint160_null XAccount_empty.

Definition set_nodes (r : Registry) (ns : omap bytes ActiveNode) (bh : omap bytes bytes) : Registry :=
  mkRegistry ns bh (localScript r) (localId r) (localX r).

(** The answers of the rest of the program while a call runs: the consensus
    parameters, X lookups, whether the Sign-in session is X Verified, whether
    the wallet is unlocked, and the clock. *)
Record Env := mkEnv {
  env_params : CChainParams;
  env_lookup : XLookup;
  SessionIsXVerified : bool;
  WalletAllowsHeartbeat : bool;
  GetTime : Z;
}.

(** ** Operations *)

Definition SetLocalScript (r : Registry) (script : CScript) : Registry :=
  if zlen script =? 0 then r else
  let id := IdFromScript script in
  let ns := if negb (bytes_eqb (localId r) id) && negb (IsNull (localId r))
            then om_erase (localId r) (nodes r) else nodes r in
  mkRegistry ns (byHandle r) script id (localX r).

Definition SetLocalXAccount (r : Registry) (account : XAccount) : Registry :=
  mkRegistry (nodes r) (byHandle r) (localScript r) (localId r) account.

Definition Registry_Reset (r : Registry) : Registry := set_nodes r [] [].

(** A node is live while its last heartbeat is at most the TTL old. *)
Definition live (now : Z) (n : ActiveNode) : bool := now - lastSeen n <=? HEARTBEAT_TTL_SECONDS.

(** The scan for the node to evict: the first one with the least [lastSeen]. *)
Fixpoint oldest_from (oldest : bytes * ActiveNode) (ns : omap bytes ActiveNode) : bytes * ActiveNode :=
  match ns with
  | [] => oldest
  | kv :: rest =>
      oldest_from (if lastSeen kv.2 <? lastSeen oldest.2 then kv else oldest) rest
  end.

Definition evict (localId : bytes) (ns : omap bytes ActiveNode) (bh : omap bytes bytes)
    : omap bytes ActiveNode * omap bytes bytes :=
  if zlen ns <=? MAX_ACTIVE_NODES then (ns, bh) else
  match ns with
  | [] => (ns, bh)
  | first :: _ =>
      let oldest := oldest_from first ns in
      if negb (bytes_eqb oldest.1 localId)
      then (om_erase oldest.1 ns, om_erase (xhandle (an_x oldest.2)) bh)
      else (ns, bh)
  end.

(** The rebinding of a handle held by another id: [None] when that node is
    live, otherwise the maps with the stale binding removed. *)
Definition release_handle (now : Z) (norm id : bytes) (ns : omap bytes ActiveNode)
    (bh : omap bytes bytes) : option (omap bytes ActiveNode * omap bytes bytes) :=
  match om_find norm bh with
  | None => Some (ns, bh)
  | Some hit =>
      if bytes_eqb hit id then Some (ns, bh) else
      match om_find hit ns with
      | Some existing =>
          if live now existing then None
          else Some (om_erase hit ns, om_erase norm bh)
      | None => Some (ns, om_erase norm bh)
      end
  end.

(** The writes of an accepted heartbeat, with the eviction that follows them. *)
Definition record_node (r : Registry) (id : bytes) (script : CScript) (now joined : Z)
    (norm : bytes) (xUserId : Z) (ns : omap bytes ActiveNode) (bh : omap bytes bytes) : Registry :=
  let x := {| xhandle := norm; xuserId := xUserId |} in
  let ns := om_insert id (mkNode id script now joined x) ns in
  let bh := om_insert norm id bh in
  let '(ns, bh) := evict (localId r) ns bh in
  set_nodes r ns bh.

Section Ops.
Context `{Secp256k1}.

(** The checks [Heartbeat] makes before it takes the lock: the normalized
    handle when they all pass. *)
Definition heartbeat_admit (env : Env) (al : Allowlist) (att : AttestState) (r : Registry)
    (script : CScript) (xHandle : bytes) (xVerified : bool) : option bytes :=
  if IsBakedSeed (env_params env) att && bytes_eqb (IdFromScript script) (localId r) &&
     negb (IsNull (localId r)) then None else
  if negb xVerified then None else
  if (zlen script =? 0) || (MAX_HEARTBEAT_SCRIPT <? zlen script) then None else
  if IsNull (IdFromScript script) then None else
  match NormalizeXHandle xHandle with
  | Err _ => None
  | Ok norm =>
      let pin := Allowlist_PinnedScript al norm in
      if negb (zlen pin =? 0) && negb (bytes_eqb pin script) then None else Some norm
  end.

(** [Heartbeat]: the verdict and the registry it leaves. *)
Definition Heartbeat (env : Env) (al : Allowlist) (att : AttestState) (r : Registry)
    (script : CScript) (now : Z) (xHandle : bytes) (xUserId : Z) (xVerified : bool)
    : bool * Registry :=
  match heartbeat_admit env al att r script xHandle xVerified with
  | None => (false, r)
  | Some norm =>
      let id := IdFromScript script in
      match release_handle now norm id (nodes r) (byHandle r) with
      | None => (false, r)
      | Some (ns, bh) =>
          match om_find id ns with
          | Some nit =>
              if negb (bytes_eqb (xhandle (an_x nit)) norm) then
                if live now nit then (false, set_nodes r ns bh)
                else (true, record_node r id script now now norm xUserId ns
                              (om_erase (xhandle (an_x nit)) bh))
              else (true, record_node r id script now (joined nit) norm xUserId ns bh)
          | None => (true, record_node r id script now now norm xUserId ns bh)
          end
      end
  end.

Definition HeartbeatLocal (env : Env) (al : Allowlist) (att : AttestState) (r : Registry)
    (now : Z) : bool * AttestState * Registry :=
  if IsBakedSeed (env_params env) att then (false, att, r) else
  let s := localScript r in
  let x := localX r in
  if (zlen s =? 0) || (zlen (xhandle x) =? 0) then (false, att, r) else
  if negb (SessionIsXVerified env) then (false, att, r) else
  if negb (WalletAllowsHeartbeat env) then (false, att, r) else
  let beat att := let '(ok, r') := Heartbeat env al att r s now (xhandle x) (xuserId x) true in
                  (ok, att, r') in
  if RequireXAttestation (env_params env) then
    if negb (HasAttestation att (IdFromScript s)) then
      let '(ok, _, att') := LookupAndAttest (env_params env) (env_lookup env) att s (xhandle x) in
      if negb ok then (false, att', r) else beat att'
    else beat att
  else beat att.

Definition LocalEligible (env : Env) (r : Registry) : bool :=
  if (zlen (localScript r) =? 0) || (zlen (xhandle (localX r)) =? 0) then false else
  if negb (SessionIsXVerified env) then false else
  if negb (WalletAllowsHeartbeat env) then false else true.

Definition MayProduceBlock (env : Env) (att : AttestState) (r : Registry) : bool :=
  if IsBakedSeed (env_params env) att then true else
  if RequireXAttestation (env_params env) then false else
  LocalEligible env r.

End Ops.

(** ** Queries *)
Definition ActiveIds (r : Registry) (now : Z) : list bytes :=
  om_keys (filter (fun kv => live now kv.2 = true) (nodes r)).

(** In the set when the slot opened: joined before, and not dead by then. *)
Definition frozen (slotStart : Z) (n : ActiveNode) : bool :=
  if slotStart <=? joined n then false
  else if lastSeen n <? slotStart
       then negb (HEARTBEAT_TTL_SECONDS <? slotStart - lastSeen n)
       else true.

Definition ActiveIdsForSlot (r : Registry) (now slot : Z) : list bytes :=
  let slotStart := slot * SLOT_SECONDS in
  let ids := om_keys (filter (fun kv => frozen slotStart kv.2 = true) (nodes r)) in
  if zlen ids =? 0 then ActiveIds r now else ids.

Definition ActiveNodes (r : Registry) (now : Z) : list ActiveNode :=
  snd <$> filter (fun kv => live now kv.2 = true) (nodes r).

Definition ScriptFor (r : Registry) (id : bytes) : CScript :=
  match om_find id (nodes r) with Some n => an_script n | None => [] end.

Definition Registry_Count (r : Registry) (now : Z) : Z := zlen (ActiveIds r now).

Definition CountAttestedActive (env : Env) (att : AttestState) (r : Registry) (now : Z) : Z :=
  let ns := ActiveNodes r now in
  if negb (RequireXAttestation (env_params env)) then zlen ns
  else zlen (filter (fun n => HasAttestation att (an_id n) = true) ns).

(** ** The invariant

    Every node sits under the id of its script, with a payable script and a
    normalized handle, and holds that handle in [byHandle]. *)
Definition node_ok (bh : omap bytes bytes) (id : bytes) (n : ActiveNode) : Prop :=
  an_id n = id /\ id = IdFromScript (an_script n) /\
  1 <= zlen (an_script n) <= MAX_HEARTBEAT_SCRIPT /\
  valid_handle (xhandle (an_x n)) /\ om_find (xhandle (an_x n)) bh = Some id.

Definition maps_ok (ns : omap bytes ActiveNode) (bh : omap bytes bytes) : Prop :=
  om_wf ns /\ om_wf bh /\ forall id n, om_find id ns = Some n -> node_ok bh id n.

Definition reg_ok (r : Registry) : Prop := maps_ok (nodes r) (byHandle r).

Lemma node_ok_bh bh bh' id n :
  node_ok bh id n -> om_find (xhandle (an_x n)) bh' = Some id -> node_ok bh' id n.
Proof. unfold node_ok. tauto. Qed.

Lemma maps_ok_binding ns bh id n :
  maps_ok ns bh -> om_find id ns = Some n -> om_find (xhandle (an_x n)) bh = Some id.
Proof. intros (_ & _ & Hok) Hf. by destruct (Hok _ _ Hf) as (_ & _ & _ & _ & B). Qed.

(** A handle belongs to one node. *)
Lemma maps_ok_handle_inj ns bh id1 id2 n1 n2 :
  maps_ok ns bh -> om_find id1 ns = Some n1 -> om_find id2 ns = Some n2 ->
  xhandle (an_x n1) = xhandle (an_x n2) -> id1 = id2.
Proof.
  intros Hok H1 H2 E. pose proof (maps_ok_binding _ _ _ _ Hok H1).
  pose proof (maps_ok_binding _ _ _ _ Hok H2). congruence.
Qed.

(** Dropping a node, with or without its binding. *)
Lemma maps_ok_erase_node ns bh id : maps_ok ns bh -> maps_ok (om_erase id ns) bh.
Proof.
  intros (Hn & Hb & Hok). split_and!; [by apply om_wf_erase|done|].
  intros id' n. rewrite om_find_erase. case_decide; [done|]. apply Hok.
Qed.

Lemma maps_ok_erase_handle ns bh h :
  maps_ok ns bh -> (forall id n, om_find id ns = Some n -> xhandle (an_x n) <> h) ->
  maps_ok ns (om_erase h bh).
Proof.
  intros (Hn & Hb & Hok) Hfree. split_and!; [done|by apply om_wf_erase|].
  intros id n Hf. eapply node_ok_bh; [by apply Hok|].
  rewrite om_find_erase_ne; [by eapply (maps_ok_binding ns bh)|]. intros ->. by apply (Hfree _ _ Hf).
Qed.

Lemma maps_ok_erase_both ns bh id n :
  maps_ok ns bh -> om_find id ns = Some n ->
  maps_ok (om_erase id ns) (om_erase (xhandle (an_x n)) bh).
Proof.
  intros Hok Hf. apply maps_ok_erase_handle; [by apply maps_ok_erase_node|].
  intros id' n'. rewrite om_find_erase. case_decide as Hne; [done|]. intros Hf' E.
  apply Hne. by eapply (maps_ok_handle_inj ns bh).
Qed.

(** Everything but the node about to be written. *)
Definition others_ok (ns : omap bytes ActiveNode) (bh : omap bytes bytes) (id h : bytes) : Prop :=
  om_wf ns /\ om_wf bh /\
  forall id' n, om_find id' ns = Some n -> id' <> id -> node_ok bh id' n /\ xhandle (an_x n) <> h.

Lemma maps_ok_insert ns bh script now j h uid :
  others_ok ns bh (IdFromScript script) h ->
  1 <= zlen script <= MAX_HEARTBEAT_SCRIPT -> valid_handle h ->
  maps_ok (om_insert (IdFromScript script)
             (mkNode (IdFromScript script) script now j {| xhandle := h; xuserId := uid |}) ns)
          (om_insert h (IdFromScript script) bh).
Proof.
  intros (Hn & Hb & Hok) Hs Hh. split_and!; [by apply om_wf_insert..|].
  intros id n. rewrite om_find_insert. case_decide as Hid.
  - intros [= <-]. subst. do 4 (split; [done|]). apply om_find_insert_eq.
  - intros Hf. destruct (Hok _ _ Hf) as [Hn' Hne]; [done|].
    eapply node_ok_bh; [done|]. rewrite om_find_insert_ne; [apply Hn'|done].
Qed.

Lemma oldest_from_in ns o : oldest_from o ns = o \/ oldest_from o ns ∈ ns.
Proof.
  revert o. induction ns as [|kv ns IH]; intros o; simpl; [by left|].
  destruct (IH (if lastSeen kv.2 <? lastSeen o.2 then kv else o)) as [->|Hin].
  - case_ifs; [right; by left|by left].
  - right. by right.
Qed.

Lemma oldest_from_found first rest :
  om_wf (first :: rest) ->
  om_find (oldest_from first (first :: rest)).1 (first :: rest)
  = Some (oldest_from first (first :: rest)).2.
Proof.
  intros Hw. apply om_in_find; [done|]. rewrite <-surjective_pairing.
  destruct (oldest_from_in (first :: rest) first) as [->|]; [by left|done].
Qed.

Lemma evict_ok lid ns bh :
  maps_ok ns bh -> maps_ok (evict lid ns bh).1 (evict lid ns bh).2.
Proof.
  intros Hok. unfold evict. case_ifs; [done|]. destruct ns as [|first rest]; [done|].
  case_ifs; [|done]. apply maps_ok_erase_both; [done|]. apply oldest_from_found. by destruct Hok.
Qed.

Lemma release_handle_ok now h id ns bh ns' bh' :
  maps_ok ns bh -> release_handle now h id ns bh = Some (ns', bh') ->
  maps_ok ns' bh' /\ others_ok ns' bh' id h.
Proof.
  intros Hok Hr. cut (maps_ok ns' bh' /\
    forall id' n, om_find id' ns' = Some n -> id' <> id -> xhandle (an_x n) <> h).
  { intros [(A & B & C) D]. split; [done|]. split_and!; [done..|]. by eauto. }
  revert Hr. pose proof (maps_ok_binding ns bh) as Hbind. unfold release_handle.
  destruct (om_find h bh) as [hit|] eqn:Eh.
  2: { intros [= <- <-]. split; [done|]. intros id' n Hf _ <-. specialize (Hbind _ _ Hok Hf). congruence. }
  destruct (bytes_eqb hit id) eqn:Ei.
  { apply bytes_eqb_eq in Ei as ->. intros [= <- <-]. split; [done|].
    intros id' n Hf Hne <-. specialize (Hbind _ _ Hok Hf). congruence. }
  assert (forall id' n, om_find id' (om_erase hit ns) = Some n -> xhandle (an_x n) <> h) as Hfree.
  { intros id' n. rewrite om_find_erase. case_decide as Hne; [done|]. intros Hf <-.
    specialize (Hbind _ _ Hok Hf). congruence. }
  destruct (om_find hit ns) as [e|] eqn:Ee.
  - destruct (live now e); [done|]. intros [= <- <-]. split; [|by eauto].
    apply maps_ok_erase_handle; [by apply maps_ok_erase_node|done].
  - intros [= <- <-]. rewrite om_erase_notin in Hfree by done. split; [|by eauto].
    by apply maps_ok_erase_handle.
Qed.

Lemma record_node_ok r script now j h uid ns bh :
  others_ok ns bh (IdFromScript script) h ->
  1 <= zlen script <= MAX_HEARTBEAT_SCRIPT -> valid_handle h ->
  reg_ok (record_node r (IdFromScript script) script now j h uid ns bh).
Proof.
  intros Hok Hs Hh. unfold record_node.
  pose proof (evict_ok (localId r) _ _ (maps_ok_insert ns bh script now j h uid Hok Hs Hh)) as He.
  by destruct (evict _ _ _).
Qed.

(** A stale node that changes handle: its old binding goes, nobody else's does. *)
Lemma others_ok_rename ns bh id h nit :
  maps_ok ns bh -> others_ok ns bh id h -> om_find id ns = Some nit ->
  others_ok ns (om_erase (xhandle (an_x nit)) bh) id h.
Proof.
  intros Hok (A & B & C) Hf. split_and!; [done|by apply om_wf_erase|]. intros id' n Hf' Hne.
  destruct (C _ _ Hf' Hne) as [Hn Hh]. split; [|done].
  eapply node_ok_bh; [done|]. rewrite om_find_erase_ne; [by eapply (maps_ok_binding ns)|].
  intros E. apply Hne. by eapply (maps_ok_handle_inj ns bh).
Qed.

Section RegistryFacts.
Context `{Secp256k1}.

Lemma heartbeat_admit_inv env al att r script xHandle xVerified norm :
  heartbeat_admit env al att r script xHandle xVerified = Some norm ->
  xVerified = true /\ 1 <= zlen script <= MAX_HEARTBEAT_SCRIPT /\
  NormalizeXHandle xHandle = Ok norm /\ valid_handle norm /\
  (Allowlist_PinnedScript al norm = [] \/ Allowlist_PinnedScript al norm = script) /\
  ~ (IsBakedSeed (env_params env) att = true /\ IdFromScript script = localId r /\
     IsNull (localId r) = false).
Proof.
  unfold heartbeat_admit. pose proof (zlen_nonneg script).
  destruct (_ && _ && _) eqn:Eg; [done|]. destruct xVerified; [|done]. bsimpl.
  destruct (Z.eqb_spec (zlen script) 0); [done|]. bsimpl.
  destruct (Z.ltb_spec MAX_HEARTBEAT_SCRIPT (zlen script)); [done|]. bsimpl.
  destruct (IsNull (IdFromScript script)); [done|].
  destruct (NormalizeXHandle xHandle) as [norm'|] eqn:En; [|done].
  destruct (negb (zlen _ =? 0) && _) eqn:Ep; [done|]. intros [= <-].
  split_and!; [done|lia|lia|done|by eapply Normalize_Ok_valid|..].
  - apply andb_false_iff in Ep as [Ep|Ep]; apply negb_false_iff in Ep.
    + left. apply zlen_0_nil. by apply Z.eqb_eq.
    + right. by apply bytes_eqb_eq.
  - intros (Hb & Hi & Hn). apply bytes_eqb_eq in Hi. by rewrite Hb, Hi, Hn in Eg.
Qed.

(** How an accepted heartbeat was recorded. *)
Lemma Heartbeat_accept env al att r script now xHandle uid v r' :
  Heartbeat env al att r script now xHandle uid v = (true, r') ->
  exists norm ns bh j bh',
    heartbeat_admit env al att r script xHandle v = Some norm /\
    release_handle now norm (IdFromScript script) (nodes r) (byHandle r) = Some (ns, bh) /\
    r' = record_node r (IdFromScript script) script now j norm uid ns bh' /\
    match om_find (IdFromScript script) ns with
    | None => j = now /\ bh' = bh
    | Some nit =>
        (xhandle (an_x nit) = norm /\ j = joined nit /\ bh' = bh) \/
        (xhandle (an_x nit) <> norm /\ live now nit = false /\ j = now /\
         bh' = om_erase (xhandle (an_x nit)) bh)
    end.
Proof.
  unfold Heartbeat. destruct (heartbeat_admit _ _ _ _ _ _ _) as [norm|]; [|done].
  destruct (release_handle _ _ _ _ _) as [[ns bh]|] eqn:Er; [|done].
  destruct (om_find (IdFromScript script) ns) as [nit|] eqn:Ef.
  - destruct (bytes_eqb (xhandle (an_x nit)) norm) eqn:Eh; simpl.
    + apply bytes_eqb_eq in Eh. intros [= <-]. eexists _, _, _, _, _. rewrite Ef. eauto 10.
    + apply bytes_eqb_neq in Eh. destruct (live now nit) eqn:El; [done|].
      intros [= <-]. eexists _, _, _, _, _. rewrite Ef. split_and!; [done..|]. by right.
  - intros [= <-]. eexists _, _, _, _, _. by rewrite Ef.
Qed.

Lemma Heartbeat_ok env al att r script now xHandle uid v :
  reg_ok r -> reg_ok (Heartbeat env al att r script now xHandle uid v).2.
Proof.
  intros Hr. unfold Heartbeat.
  destruct (heartbeat_admit _ _ _ _ _ _ _) as [norm|] eqn:Ea; [|done].
  destruct (heartbeat_admit_inv _ _ _ _ _ _ _ _ Ea) as (_ & Hs & _ & Hh & _).
  destruct (release_handle _ _ _ _ _) as [[ns bh]|] eqn:Er; [|done].
  destruct (release_handle_ok _ _ _ _ _ _ _ Hr Er) as [Hm Ho].
  destruct (om_find (IdFromScript script) ns) as [nit|] eqn:Ef; [|by apply record_node_ok].
  case_ifs; simpl; [done| |by apply record_node_ok].
  apply record_node_ok; [by apply others_ok_rename|done..].
Qed.

Lemma HeartbeatLocal_ok params_laws env al att r now :
  reg_ok r -> params_laws = env_params env -> attest_ok params_laws att ->
  attest_ok params_laws (HeartbeatLocal env al att r now).1.2 /\
  reg_ok (HeartbeatLocal env al att r now).2.
Proof.
  intros Hr -> Ha. unfold HeartbeatLocal. destruct (IsBakedSeed _ _); [done|].
  do 3 (match goal with |- context [if ?b then (false, att, r) else _] => destruct b end; [done|]).
  assert (forall att', attest_ok (env_params env) att' ->
    let beat := (let '(ok, r') := Heartbeat env al att' r (localScript r) now
                   (xhandle (localX r)) (xuserId (localX r)) true in (ok, att', r')) in
    attest_ok (env_params env) beat.1.2 /\ reg_ok beat.2) as Hbeat.
  { intros att' Ha'. cbv zeta.
    pose proof (Heartbeat_ok env al att' r (localScript r) now (xhandle (localX r))
                  (xuserId (localX r)) true Hr) as Hb. by destruct (Heartbeat _ _ _ _ _ _ _ _ _). }
  destruct (RequireXAttestation _); [|by apply Hbeat].
  destruct (HasAttestation _ _); [by apply Hbeat|]. simpl.
  pose proof (LookupAndAttest_ok (env_params env) (env_lookup env) att (localScript r)
                (xhandle (localX r)) Ha) as Hl.
  destruct (LookupAndAttest _ _ _ _ _) as [[ok sig] att']. destruct ok; [by apply Hbeat|done].
Qed.

(** ** The sets of ids *)
Lemma om_keys_filter_sorted (ns : omap bytes ActiveNode) (P : bytes * ActiveNode -> Prop)
    `{forall x, Decision (P x)} :
  om_wf ns -> StronglySorted (fun a b => bytes_ltb a b = true) (om_keys (filter P ns)).
Proof. exact (om_wf_filter P ns). Qed.

Lemma reg_key_found r (P : bytes * ActiveNode -> Prop) `{forall x, Decision (P x)} id :
  reg_ok r -> id ∈ om_keys (filter P (nodes r)) ->
  exists n, om_find id (nodes r) = Some n /\ P (id, n).
Proof.
  intros (Hw & _ & _) Hin. apply om_keys_in in Hin as [n Hn].
  apply list_elem_of_filter in Hn as [HP Hn]. exists n. split; [by apply om_in_find|done].
Qed.

Lemma reg_keys_sorted r (P : bytes * ActiveNode -> Prop) `{forall x, Decision (P x)} :
  reg_ok r -> sorted_ids (om_keys (filter P (nodes r))).
Proof.
  intros Hr. split; [|apply om_keys_filter_sorted, Hr].
  apply Forall_forall. intros id Hin. destruct (reg_key_found r P id Hr Hin) as (n & Hf & _).
  destruct Hr as (_ & _ & Hok). destruct (Hok _ _ Hf) as (_ & -> & _). apply ripemd160.length_Hash160.
Qed.

Lemma ActiveIdsForSlot_cases r now slot :
  (exists P : bytes * ActiveNode -> bool,
     ActiveIdsForSlot r now slot = om_keys (filter (fun kv => P kv = true) (nodes r))).
Proof.
  unfold ActiveIdsForSlot, ActiveIds. case_ifs; [by exists (fun kv => live now kv.2)|].
  by exists (fun kv => frozen (slot * SLOT_SECONDS) kv.2).
Qed.

Lemma ActiveIdsForSlot_sorted r now slot : reg_ok r -> sorted_ids (ActiveIdsForSlot r now slot).
Proof. intros Hr. destruct (ActiveIdsForSlot_cases r now slot) as [P ->]. by apply reg_keys_sorted. Qed.

(** The script the registry keeps for a node hashes to its id. *)
Lemma ScriptFor_id r id :
  reg_ok r -> is_Some (om_find id (nodes r)) ->
  IdFromScript (ScriptFor r id) = id /\ 1 <= zlen (ScriptFor r id) <= MAX_HEARTBEAT_SCRIPT.
Proof.
  intros (_ & _ & Hok) [n Hn]. unfold ScriptFor. rewrite Hn.
  by destruct (Hok _ _ Hn) as (_ & -> & Hs & _).
Qed.

Lemma ActiveIdsForSlot_found r now slot id :
  reg_ok r -> id ∈ ActiveIdsForSlot r now slot -> is_Some (om_find id (nodes r)).
Proof.
  intros Hr. destruct (ActiveIdsForSlot_cases r now slot) as [P ->]. intros Hin.
  destruct (reg_key_found r _ id Hr Hin) as (n & Hf & _). by eexists.
Qed.

(** ** Eviction *)
Lemma evict_none lid ns bh : zlen ns <= MAX_ACTIVE_NODES -> evict lid ns bh = (ns, bh).
Proof. intros Hl. unfold evict. by destruct (Z.leb_spec (zlen ns) MAX_ACTIVE_NODES); [|lia]. Qed.

(** The registry does not evict at all while the local node is the oldest. *)
Lemma evict_local_oldest lid first rest bh :
  (oldest_from first (first :: rest)).1 = lid ->
  evict lid (first :: rest) bh = (first :: rest, bh).
Proof. intros <-. unfold evict. rewrite bytes_eqb_refl. by case_ifs. Qed.

Lemma evict_length lid ns bh :
  om_wf ns -> om_find lid ns = None ->
  zlen (evict lid ns bh).1 <= Z.max MAX_ACTIVE_NODES (zlen ns - 1).
Proof.
  intros Hw Hl. unfold evict. destruct (Z.leb_spec (zlen ns) MAX_ACTIVE_NODES); [simpl; lia|].
  destruct ns as [|first rest]; [unfold MAX_ACTIVE_NODES, zlen; simpl; lia|].
  pose proof (oldest_from_found first rest Hw) as Hf.
  destruct (bytes_eqb _ lid) eqn:E; [apply bytes_eqb_eq in E; congruence|]. bsimpl.
  pose proof (om_erase_length_lt (oldest_from first (first :: rest)).1 (first :: rest)) as Hlt.
  rewrite Hf in Hlt. specialize (Hlt ltac:(by eexists)). unfold zlen. lia.
Qed.

(** ** Claims *)

Lemma release_handle_keeps now h id ns bh ns' bh' i n :
  release_handle now h id ns bh = Some (ns', bh') ->
  om_find i ns = Some n -> live now n = true -> om_find i ns' = Some n.
Proof.
  unfold release_handle. intros Hr Hf Hl. destruct (om_find h bh) as [hit|]; [|by simplify_eq].
  destruct (bytes_eqb hit id); [by simplify_eq|]. destruct (om_find hit ns) as [e|] eqn:Ee.
  - destruct (live now e) eqn:Ele; [done|]. simplify_eq. rewrite om_find_erase_ne; [done|]. congruence.
  - by simplify_eq.
Qed.

Lemma release_handle_none now h id ns bh ns' bh' i :
  release_handle now h id ns bh = Some (ns', bh') -> om_find i ns = None -> om_find i ns' = None.
Proof.
  unfold release_handle. intros Hr Hf. destruct (om_find h bh) as [hit|]; [|by simplify_eq].
  destruct (bytes_eqb hit id); [by simplify_eq|]. destruct (om_find hit ns) as [e|] eqn:Ee.
  - destruct (live now e); [done|]. simplify_eq. rewrite om_find_erase. by case_decide.
  - by simplify_eq.
Qed.

Lemma release_handle_length now h id ns bh ns' bh' :
  release_handle now h id ns bh = Some (ns', bh') -> zlen ns' <= zlen ns.
Proof.
  unfold release_handle, zlen. intros Hr.
  destruct (om_find h bh) as [hit|]; [|simplify_eq; lia].
  destruct (bytes_eqb hit id); [simplify_eq; lia|].
  destruct (om_find hit ns) as [e|]; [|simplify_eq; lia].
  destruct (live now e); [done|]. simplify_eq. pose proof (om_erase_length_le hit ns). lia.
Qed.

(** Recording below the size limit is a plain insertion. *)
Lemma record_node_small r id script now j h uid ns bh :
  zlen ns < MAX_ACTIVE_NODES ->
  nodes (record_node r id script now j h uid ns bh)
  = om_insert id (mkNode id script now j {| xhandle := h; xuserId := uid |}) ns.
Proof.
  intros Hl. unfold record_node. rewrite evict_none; [done|].
  pose proof (om_insert_length_le id (mkNode id script now j {| xhandle := h; xuserId := uid |}) ns).
  unfold zlen in *. lia.
Qed.

(** C34. A live node keeps what it holds: as long as the registry is below its
    size limit, no heartbeat, whoever sends it and with whatever script and
    handle, takes away a node that is live at that moment, changes its handle
    or the time it joined, or puts another script id in its place. *)
Theorem live_node_protected env al att r script now xHandle uid v id n :
  zlen (nodes r) < MAX_ACTIVE_NODES ->
  om_find id (nodes r) = Some n -> live now n = true ->
  exists n', om_find id (nodes (Heartbeat env al att r script now xHandle uid v).2) = Some n' /\
    xhandle (an_x n') = xhandle (an_x n) /\ joined n' = joined n /\
    (n' = n \/ (an_script n' = script /\ IdFromScript script = id /\ lastSeen n' = now)).
Proof.
  intros Hsz Hf Hl. unfold Heartbeat. destruct (heartbeat_admit _ _ _ _ _ _ _) as [norm|]; [|exists n; by auto].
  destruct (release_handle _ _ _ _ _) as [[ns bh]|] eqn:Er; [|exists n; by auto].
  pose proof (release_handle_keeps _ _ _ _ _ _ _ _ _ Er Hf Hl) as Hf'.
  pose proof (release_handle_length _ _ _ _ _ _ _ Er) as Hlen.
  assert (forall j bh', IdFromScript script <> id ->
    om_find id (nodes (record_node r (IdFromScript script) script now j norm uid ns bh')) = Some n) as Hother.
  { intros j bh' Hne. rewrite record_node_small by lia. by rewrite om_find_insert_ne. }
  destruct (decide (IdFromScript script = id)) as [<-|Hne].
  - rewrite Hf'. destruct (bytes_eqb (xhandle (an_x n)) norm) eqn:Eh; bsimpl.
    + apply bytes_eqb_eq in Eh. rewrite record_node_small, om_find_insert_eq by lia.
      eexists. split; [done|]. simpl. split_and!; [done..|by right].
    + rewrite Hl. exists n. auto.
  - exists n. split; [|by auto].
    destruct (om_find (IdFromScript script) ns); [|by apply Hother]. case_ifs; [done|by apply Hother..].
Qed.

(** Late joiners wait: a node unknown to the registry that sends its first
    heartbeat after slot [slot] opened is not in the set drawn for that slot,
    provided some node was in the set when the slot opened. *)
Theorem late_joiner_excluded env al att r script now xHandle uid v r' slot t id0 n0 :
  reg_ok r -> zlen (nodes r) < MAX_ACTIVE_NODES ->
  om_find (IdFromScript script) (nodes r) = None ->
  Heartbeat env al att r script now xHandle uid v = (true, r') ->
  slot * SLOT_SECONDS <= now ->
  om_find id0 (nodes r') = Some n0 -> frozen (slot * SLOT_SECONDS) n0 = true ->
  IdFromScript script ∉ ActiveIdsForSlot r' t slot.
Proof.
  intros Hr Hsz Hnew Hb Hnow Hf0 Hfz0.
  pose proof (Heartbeat_ok env al att r script now xHandle uid v Hr) as Hr'. rewrite Hb in Hr'.
  destruct (Heartbeat_accept _ _ _ _ _ _ _ _ _ _ Hb) as (h & ns & bh & j & bh' & _ & Er & E & Hj).
  pose proof (release_handle_length _ _ _ _ _ _ _ Er) as Hlen.
  assert (om_find (IdFromScript script) ns = None) as Hns.
  { by eapply release_handle_none. }
  rewrite Hns in Hj. destruct Hj as [-> ->]. unfold ActiveIdsForSlot.
  set (ids := om_keys _). assert (id0 ∈ ids) as Hin.
  { apply om_keys_in. exists n0. apply list_elem_of_filter. split; [done|]. by apply om_find_Some_in. }
  destruct (Z.eqb_spec (zlen ids) 0) as [E0|_].
  { apply zlen_0_nil in E0. rewrite E0 in Hin. by apply elem_of_nil in Hin. }
  intros Hid. destruct (reg_key_found r' _ _ Hr' Hid) as (m & Hf & Hfz). subst r'.
  rewrite record_node_small, om_find_insert_eq in Hf by lia. injection Hf as <-.
  revert Hfz. unfold frozen. simpl. by destruct (Z.leb_spec (slot * SLOT_SECONDS) now); [|lia].
Qed.

End RegistryFacts.

(** ** A concrete registry, for the witnesses *)
Definition toy_env (now : Z) : Env :=
  mkEnv toy_params (mkLookup true (fun _ => VERIFIED)) true true now.
Definition toy_beat (r : Registry) (b now : Z) (handle : bytes) : Registry :=
  (Heartbeat (H := toy_secp256k1) (toy_env now) Allowlist_empty toy_seed r (toy_script b) now handle 0 true).2.

(** A node that was dead before the slot opened and comes back after it
    opened does enter that slot's draw: the registry never drops it and keeps
    the time it first joined. Bob is silent from second 1000 on; at second 6000
    (slot 100) only alice is in the set, and bob's heartbeat at second 6010
    puts bob into the draw of slot 100. *)
Theorem revived_node_enters_draw :
  let r0 := toy_beat (toy_beat Registry_empty 2 1000 (bs "bob")) 1 5990 (bs "alice") in
  let r1 := toy_beat r0 2 6010 (bs "bob") in
  ActiveIdsForSlot r0 6000 100 = [toy_id 1] /\
  (forall n, om_find (toy_id 2) (nodes r0) = Some n -> 100 * SLOT_SECONDS - lastSeen n > HEARTBEAT_TTL_SECONDS) /\
  toy_id 2 ∈ ActiveIdsForSlot r1 6010 100.
Proof.
  cbv zeta. split_and!; [vm_compute; reflexivity| |].
  - intros n Hn. vm_compute in Hn. injection Hn as <-. vm_compute. reflexivity.
  - refine (proj1 (bool_decide_eq_true _) _). vm_compute. reflexivity.
Qed.

Lemma toy_beat_ok r b now handle : reg_ok r -> reg_ok (toy_beat r b now handle).
Proof. apply Heartbeat_ok. Qed.

Lemma Registry_empty_ok : reg_ok Registry_empty.
Proof. split_and!; [constructor..|]. done. Qed.

Lemma live_node_protected_witness :
  let r := toy_beat Registry_empty 1 5990 (bs "alice") in
  exists n', om_find (toy_id 1) (nodes (Heartbeat (H := toy_secp256k1) (toy_env 6000) Allowlist_empty
      toy_seed r (toy_script 2) 6000 (bs "alice") 0 true).2) = Some n' /\
    xhandle (an_x n') = bs "alice".
Proof.
  cbv zeta.
  destruct (live_node_protected (H := toy_secp256k1) (toy_env 6000) Allowlist_empty toy_seed
    (toy_beat Registry_empty 1 5990 (bs "alice")) (toy_script 2) 6000 (bs "alice") 0 true (toy_id 1)
    (mkNode (toy_id 1) (toy_script 1) 5990 5990 {| xhandle := bs "alice"; xuserId := 0 |}))
    as (n' & Hf & Hh & _); [vm_compute; reflexivity..|]. exact (ex_intro _ n' (conj Hf Hh)).
Defined.

Lemma late_joiner_excluded_witness :
  let r := toy_beat Registry_empty 1 5990 (bs "alice") in
  let r' := toy_beat r 2 6010 (bs "bob") in
  IdFromScript (toy_script 2) ∉ ActiveIdsForSlot r' 6020 100.
Proof.
  cbv zeta.
  refine (late_joiner_excluded (H := toy_secp256k1) (toy_env 6010) Allowlist_empty toy_seed
    (toy_beat Registry_empty 1 5990 (bs "alice")) (toy_script 2) 6010 (bs "bob") 0 true
    (toy_beat (toy_beat Registry_empty 1 5990 (bs "alice")) 2 6010 (bs "bob")) 100 6020 (toy_id 1)
    (mkNode (toy_id 1) (toy_script 1) 5990 5990 {| xhandle := bs "alice"; xuserId := 0 |})
    _ _ _ _ _ _ _);
    [apply toy_beat_ok, Registry_empty_ok|vm_compute; reflexivity..| | |];
    vm_compute; congruence.
Defined.
