(* ===== verification/Coinbase.v ===== *)
(** The lottery coinbase of src/src/lottery.cpp: the draw for a height, the
    payouts and commitments the producer writes, and the check every node makes
    of them. *)

From S2P Require Import Prelude OrdMap Sha256 Ripemd160 Script Handle Slots Tx Draw Key Attest Registry.

Local Open Scope Z_scope.

Record Draw := mkDraw {
  d_nHeight : Z;
  d_slot : Z;
  d_winnerCount : Z;
  d_seed : bytes;
  d_active : list bytes;
  d_winners : list bytes;
  d_rewards : list Z;
}.

(** The verdict of the check, or a read past the end of the parts vector. *)
Inductive outcome := Judged (v : verdict) | OutOfRange.

(** What the scan over the outputs has found so far. *)
Record scan := mkScan {
  committed : option (list bytes);
  xvaScript : option CScript;
  xsdScript : option CScript;
}.

Definition is_xsd (script : CScript) : bool :=
  (5 <? zlen script) &&
  match op_return_data script with
  | Some data => (4 <=? zlen data) && bytes_eqb (take 4 data) SEED_BLOCK_MAGIC
  | None => false
  end.

Definition scan_out (sc : scan) (out : CTxOut) : scan :=
  let script := scriptPubKey out in
  let rest :=
    let xsd :=
      match xsdScript sc with
      | None => if is_xsd script then mkScan (committed sc) (xvaScript sc) (Some script) else sc
      | Some _ => sc
      end in
    match xvaScript sc with
    | None =>
        match ParseXvaCommitment script with
        | Some _ => mkScan (committed sc) (Some script) (xsdScript sc)
        | None => xsd
        end
    | Some _ => xsd
    end in
  match committed sc with
  | None =>
      match ParseActiveSetCommitment script with
      | Some ids => mkScan (Some ids) (xvaScript sc) (xsdScript sc)
      | None => rest
      end
  | Some _ => rest
  end.

(** The outputs that are not data carriers; [None]: one has an empty script. *)
Fixpoint payouts (outs : list CTxOut) : option (list CTxOut) :=
  match outs with
  | [] => Some []
  | o :: outs' =>
      match scriptPubKey o with
      | [] => None
      | b :: _ =>
          if b =? OP_RETURN then payouts outs'
          else match payouts outs' with Some l => Some (o :: l) | None => None end
      end
  end.

(** The running total of the payouts, with its two failures. *)
Fixpoint sum_payouts (pays : list CTxOut) (paid : Z) : result Z string :=
  match pays with
  | [] => Ok paid
  | p :: pays' =>
      if (nValue p <? 0) || negb (MoneyRange (nValue p)) then Err "bad-cb-lottery-range"%string else
      if MAX_MONEY - nValue p <? paid then Err "bad-cb-lottery-overflow"%string else
      sum_payouts pays' (paid + nValue p)
  end.

(** Payout [i] against winner [i] and its part, from index [i] on. *)
Fixpoint match_winners (i : nat) (nFees : Z) (parts : list Z) (winners : list bytes)
    (pays : list CTxOut) : outcome :=
  match winners, pays with
  | w :: winners', p :: pays' =>
      if negb (bytes_eqb (IdFromScript (scriptPubKey p)) w)
      then Judged (Reject 100 "bad-cb-lottery-winner") else
      match at_ parts i with
      | None => OutOfRange
      | Some part =>
          let expect := if (i =? 0)%nat then part + nFees else part in
          if negb (nValue p =? expect) then Judged (Reject 100 "bad-cb-lottery-split")
          else match_winners (S i) nFees parts winners' pays'
      end
  | _, _ => Judged Accept
  end.

Section Coinbase.
Context `{Secp256k1}.

Definition ComputeDraw (env : Env) (att : AttestState) (r : Registry) (nNextHeight : Z)
    (prevBlockHash : bytes) (genesisTime nSubsidyHalvingInterval subsidy : Z) : Draw :=
  let slot := SlotFromHeight nNextHeight genesisTime in
  let winnerCount := WinnerCount nNextHeight nSubsidyHalvingInterval in
  let seed := Seed prevBlockHash slot in
  let active := ActiveIdsForSlot r (GetTime env) slot in
  let active := if RequireXAttestation (env_params env)
                then filter (fun id => HasAttestation att id = true) active else active in
  let winners := SelectWinners active seed winnerCount in
  mkDraw nNextHeight slot winnerCount seed active winners
    (SplitReward subsidy (swrap 32 (zlen winners))).

(** The winners' outputs, from index [i] on. *)
Fixpoint winner_outs (r : Registry) (producerScript : CScript) (parts : list Z) (nFees : Z)
    (i : nat) (winners : list bytes) : list CTxOut :=
  match winners with
  | [] => []
  | w :: winners' =>
      let dest := ScriptFor r w in
      let dest := if zlen dest =? 0 then producerScript else dest in
      let value := if zlen parts =? 0 then 0 else nth i parts 0 in
      let value := if (i =? 0)%nat then value + nFees else value in
      mkTxOut value dest :: winner_outs r producerScript parts nFees (S i) winners'
  end.

Definition coinbase_outs (env : Env) (att : AttestState) (r : Registry) (draw : Draw)
    (nHeight : Z) (prevBlockHash : bytes) (subsidy nFees : Z) (producerScript : CScript)
    : list CTxOut :=
  let parts := SplitReward subsidy (swrap 32 (zlen (d_winners draw))) in
  winner_outs r producerScript parts nFees 0 (d_winners draw)
  ++ [mkTxOut 0 (MakeActiveSetCommitment (d_active draw))]
  ++ (if RequireXAttestation (env_params env) then
        mkTxOut 0 (MakeXvaCommitment att (d_active draw))
        :: (let seedSig := MakeSeedBlockCommitment att nHeight prevBlockHash (d_active draw) in
            if negb (zlen seedSig =? 0) then [mkTxOut 0 seedSig] else [])
      else []).

(** [ApplyCoinbasePayouts]: the transactions of the block, the stamps and the
    registry it leaves. *)
Definition ApplyCoinbasePayouts (env : Env) (al : Allowlist) (att : AttestState) (r : Registry)
    (txs : list CTransaction) (nHeight : Z) (prevBlockHash : bytes)
    (genesisTime nSubsidyHalvingInterval subsidy nFees : Z) (producerScript : CScript)
    : list CTransaction * AttestState * Registry :=
  match txs with
  | [] => (txs, att, r)
  | cb :: txs' =>
      if nHeight <? 1 then (txs, att, r) else
      let r := if negb (zlen producerScript =? 0) then SetLocalScript r producerScript else r in
      let '(_, att, r) := HeartbeatLocal env al att r (GetTime env) in
      let draw := ComputeDraw env att r nHeight prevBlockHash genesisTime
                    nSubsidyHalvingInterval subsidy in
      if zlen (d_winners draw) =? 0 then (txs, att, r) else
      let outs := coinbase_outs env att r draw nHeight prevBlockHash subsidy nFees producerScript in
      (mkTx (tx_nVersion cb) (vin cb) outs (nLockTime cb) :: txs', att, r)
  end.

(** The stamp and seed signature checks of an attested network: the reason to
    reject, if any. *)
Definition check_stamps (params : CChainParams) (sc : scan) (ids : list bytes) (nHeight : Z)
    (prevBlockHash : bytes) : option string :=
  if RequireXAttestation params then
    match xvaScript sc with
    | None => Some "bad-cb-lottery-xva"%string
    | Some xva =>
        if negb (CheckXvaForIds params ids xva) then Some "bad-cb-lottery-xva"%string else
        match xsdScript sc with
        | None => Some "bad-cb-lottery-xsd"%string
        | Some xsd =>
            if negb (CheckSeedBlockCommitment params nHeight prevBlockHash ids xsd)
            then Some "bad-cb-lottery-xsd"%string else None
        end
    end
  else None.

(** [CheckLotteryCoinbase]: the verdict and the stamps it leaves. *)
Definition CheckLotteryCoinbase (params : CChainParams) (att : AttestState)
    (txs : list CTransaction) (nHeight : Z) (prevBlockHash : bytes)
    (genesisTime nSubsidyHalvingInterval subsidy : Z) : outcome * AttestState :=
  let reject reason := (Judged (Reject 100 reason), att) in
  if nHeight <? 1 then (Judged Accept, att) else
  match txs with
  | [] => reject "bad-cb-lottery"%string
  | cb :: _ =>
      if negb (IsCoinBase cb) then reject "bad-cb-lottery"%string else
      let sc := fold_left scan_out (vout cb) (mkScan None None None) in
      match committed sc with
      | None => reject "bad-cb-lottery-commit"%string
      | Some ids =>
          let stamps := check_stamps params sc ids nHeight prevBlockHash in
          match stamps with
          | Some reason => reject reason
          | None =>
              let slot := SlotFromHeight nHeight genesisTime in
              let seed := Seed prevBlockHash slot in
              let k := WinnerCount nHeight nSubsidyHalvingInterval in
              let winners := SelectWinners ids seed k in
              if zlen winners =? 0 then reject "bad-cb-lottery-empty"%string else
              match payouts (vout cb) with
              | None => reject "bad-cb-lottery-script"%string
              | Some pays =>
                  match sum_payouts pays 0 with
                  | Err reason => reject reason
                  | Ok paid =>
                      if negb (MoneyRange paid) || (paid <? subsidy)
                      then reject "bad-cb-lottery-amount"%string else
                      let nFees := paid - subsidy in
                      let parts := SplitReward subsidy (swrap 32 (zlen winners)) in
                      if negb (zlen pays =? zlen winners) then reject "bad-cb-lottery-count"%string else
                      match match_winners 0 nFees parts winners pays with
                      | Judged Accept =>
                          (Judged Accept,
                           match xvaScript sc with
                           | Some xva => CacheStampsFromXva params att xva
                           | None => att
                           end)
                      | other => (other, att)
                      end
                  end
              end
          end
      end
  end.

End Coinbase.

(** ** The scan *)

Lemma scan_out_committed sc o ids :
  committed (scan_out sc o) = Some ids ->
  committed sc = Some ids \/ committed sc = None /\ ParseActiveSetCommitment (scriptPubKey o) = Some ids.
Proof.
  unfold scan_out. destruct (committed sc) eqn:E; [|destruct (ParseActiveSetCommitment _)];
    repeat case_match; simpl; intros; simplify_eq; auto; congruence.
Qed.

Lemma scan_committed_in outs : forall sc ids,
  committed (fold_left scan_out outs sc) = Some ids ->
  committed sc = Some ids \/
  exists o, o ∈ outs /\ ParseActiveSetCommitment (scriptPubKey o) = Some ids.
Proof.
  induction outs as [|o outs IH]; intros sc ids Hc; [by left|]. simpl in Hc.
  destruct (IH _ _ Hc) as [H'|(o' & Hin & Hp)].
  - destruct (scan_out_committed _ _ _ H') as [|[_ Hp]]; [by left|]. right. exists o. split; [left|done].
  - right. exists o'. split; [by right|done].
Qed.

(** An output whose script does not start with [OP_RETURN] is passed over. *)
Definition is_data (o : CTxOut) : bool :=
  match scriptPubKey o with [] => false | b :: _ => b =? OP_RETURN end.

Lemma op_return_data_None o : is_data o = false -> op_return_data (scriptPubKey o) = None.
Proof. unfold is_data, op_return_data. destruct (scriptPubKey o) as [|b s]; [done|]. by intros ->. Qed.

Lemma scan_out_skip sc o : is_data o = false -> scan_out sc o = sc.
Proof.
  intros Hd. apply op_return_data_None in Hd.
  unfold scan_out, ParseActiveSetCommitment, ParseXvaCommitment, is_xsd. rewrite Hd, andb_false_r.
  by repeat case_match.
Qed.

Lemma scan_skip outs sc : Forall (fun o => is_data o = false) outs -> fold_left scan_out outs sc = sc.
Proof.
  intros Hf. revert sc. induction Hf as [|o outs Ho _ IH]; intros sc; [done|]. simpl.
  by rewrite scan_out_skip.
Qed.

(** ** The payouts *)
Lemma payouts_spec outs pays :
  payouts outs = Some pays -> pays = List.filter (fun o => negb (is_data o)) outs.
Proof.
  revert pays. induction outs as [|o outs IH]; intros pays; simpl; [by intros [= <-]|].
  unfold is_data at 1. destruct (scriptPubKey o) as [|b s]; [done|].
  destruct (b =? OP_RETURN); simpl; [apply IH|].
  destruct (payouts outs) as [l|]; [|done]. intros [= <-]. f_equal. by apply IH.
Qed.

Lemma payouts_ok outs :
  Forall (fun o => scriptPubKey o <> []) outs ->
  payouts outs = Some (List.filter (fun o => negb (is_data o)) outs).
Proof.
  induction 1 as [|o outs Ho _ IH]; [done|]. simpl. unfold is_data at 1.
  destruct (scriptPubKey o) as [|b s]; [done|]. rewrite IH. by destruct (b =? OP_RETURN).
Qed.

Lemma sum_payouts_spec pays : forall acc paid,
  sum_payouts pays acc = Ok paid -> paid = acc + sumZ (map nValue pays) /\ Forall (fun p => 0 <= nValue p) pays.
Proof.
  induction pays as [|p pays IH]; intros acc paid; simpl.
  { intros [= <-]. unfold sumZ. simpl. split; [lia|constructor]. }
  destruct (Z.ltb_spec (nValue p) 0); [done|]. cbn [orb]. destruct (negb _); [done|].
  destruct (MAX_MONEY - nValue p <? acc); [done|]. intros Hs.
  apply IH in Hs as [-> Hf]. split; [unfold sumZ; simpl; lia|by constructor].
Qed.

Lemma sum_payouts_ok pays : forall acc,
  0 <= acc -> Forall (fun p => 0 <= nValue p) pays -> acc + sumZ (map nValue pays) <= MAX_MONEY ->
  sum_payouts pays acc = Ok (acc + sumZ (map nValue pays)).
Proof.
  induction pays as [|p pays IH]; intros acc Ha Hf Hs; simpl.
  { unfold sumZ. simpl. f_equal. lia. }
  inv Hf. change (sumZ (map nValue (p :: pays))) with (nValue p + sumZ (map nValue pays)) in *.
  assert (0 <= sumZ (map nValue pays)) as H0 by (apply sumZ_nonneg, Forall_map; done).
  destruct (Z.ltb_spec (nValue p) 0); [lia|]. cbn [orb].
  assert (MoneyRange (nValue p) = true) as -> by (apply MoneyRange_iff; lia). cbn [negb].
  destruct (Z.ltb_spec (MAX_MONEY - nValue p) acc); [lia|]. rewrite IH by (done || lia). f_equal. lia.
Qed.

(** What the comparison with the draw establishes, index by index. *)
Definition pays_draw (i : nat) (nFees : Z) (parts : list Z) (winners : list bytes)
    (pays : list CTxOut) : Prop :=
  forall j w p, winners !! j = Some w -> pays !! j = Some p ->
    IdFromScript (scriptPubKey p) = w /\
    exists part, parts !! (i + j)%nat = Some part /\
      nValue p = (if (i + j =? 0)%nat then part + nFees else part).

Lemma match_winners_iff winners : forall i nFees parts pays,
  length pays = length winners ->
  match_winners i nFees parts winners pays = Judged Accept <-> pays_draw i nFees parts winners pays.
Proof.
  unfold pays_draw, at_. induction winners as [|w winners IH]; intros i nFees parts pays Hl.
  { destruct pays; [|done]. by split. }
  destruct pays as [|p pays]; [done|]. injection Hl as Hl. cbn [match_winners]. split.
  - destruct (bytes_eqb (IdFromScript (scriptPubKey p)) w) eqn:Ew; [|done]. bsimpl.
    apply bytes_eqb_eq in Ew. unfold at_. destruct (parts !! i) as [part|] eqn:Ep; [|done].
    destruct (Z.eqb_spec (nValue p) (if (i =? 0)%nat then part + nFees else part)) as [Ev|]; [|done].
    bsimpl. rewrite IH by done. intros Hd [|j] w' p' Hw Hp; simpl in Hw, Hp; simplify_eq.
    + split; [done|]. exists part. by rewrite Nat.add_0_r.
    + rewrite <-Nat.add_succ_comm. by apply Hd.
  - intros Hd. destruct (Hd 0%nat w p) as [Hw (part & Hp & Hv)]; [done..|].
    rewrite Nat.add_0_r in Hp, Hv. apply bytes_eqb_eq in Hw as ->. bsimpl. unfold at_. rewrite Hp, Hv, Z.eqb_refl.
    bsimpl. apply IH; [done|]. intros j w' p' Hw' Hp'.
    destruct (Hd (S j) w' p') as [HA HB]; [done..|]. split; [done|]. by rewrite Nat.add_succ_comm.
Qed.

(** ** Acceptance *)
Section CheckFacts.
Context `{Secp256k1} (params : CChainParams).

(** The stamp and seed checks of an attested network. *)
Definition stamps_ok (sc : scan) (ids : list bytes) (nHeight : Z) (prev : bytes) : Prop :=
  RequireXAttestation params = true ->
  exists xva xsd, xvaScript sc = Some xva /\ xsdScript sc = Some xsd /\
    CheckXvaForIds params ids xva = true /\ CheckSeedBlockCommitment params nHeight prev ids xsd = true.

Lemma check_stamps_iff sc ids nHeight prev :
  check_stamps params sc ids nHeight prev = None <-> stamps_ok sc ids nHeight prev.
Proof.
  unfold stamps_ok, check_stamps. destruct (RequireXAttestation params); [|by split; [|]].
  destruct (xvaScript sc) as [xva|]; [|split; [done|intros Hx; destruct (Hx eq_refl) as (?&?&?&_); done]].
  destruct (CheckXvaForIds params ids xva) eqn:Ex; bsimpl;
    [|split; [done|intros Hx; destruct (Hx eq_refl) as (?&?&?&?&?&_); congruence]].
  destruct (xsdScript sc) as [xsd|]; [|split; [done|intros Hx; destruct (Hx eq_refl) as (?&?&?&?&_); done]].
  destruct (CheckSeedBlockCommitment params nHeight prev ids xsd) eqn:Es; bsimpl;
    [|split; [done|intros Hx; destruct (Hx eq_refl) as (?&?&?&?&?&?); congruence]].
  split; [|done]. intros _ _. by exists xva, xsd.
Qed.

(** [CheckLotteryCoinbase] accepts exactly when all its steps do. *)
Lemma CheckLotteryCoinbase_accept att cb txs nHeight prev g interval subsidy :
  1 <= nHeight ->
  let sc := fold_left scan_out (vout cb) (mkScan None None None) in
  (CheckLotteryCoinbase params att (cb :: txs) nHeight prev g interval subsidy).1 = Judged Accept <->
  IsCoinBase cb = true /\
  exists ids pays paid,
    let winners := SelectWinners ids (Seed prev (SlotFromHeight nHeight g)) (WinnerCount nHeight interval) in
    committed sc = Some ids /\ stamps_ok sc ids nHeight prev /\ zlen winners <> 0 /\
    payouts (vout cb) = Some pays /\ sum_payouts pays 0 = Ok paid /\
    MoneyRange paid = true /\ subsidy <= paid /\ zlen pays = zlen winners /\
    match_winners 0 (paid - subsidy) (SplitReward subsidy (swrap 32 (zlen winners))) winners pays
      = Judged Accept.
Proof.
  intros Hh. cbv zeta. unfold CheckLotteryCoinbase, stamps_ok.
  destruct (Z.ltb_spec nHeight 1); [lia|]. destruct (IsCoinBase cb); bsimpl; [|by split; [|intros []]].
  set (sc := fold_left _ _ _). destruct (committed sc) as [ids|]; [|by split; [|intros (_&?&?&?&?&_)]].
  set (ws := SelectWinners _ _ _).
  pose proof (check_stamps_iff sc ids nHeight prev) as Hst.
  unfold stamps_ok in Hst. destruct (check_stamps params sc ids nHeight prev) as [reason|].
  { split; [done|]. intros (_ & ids' & ? & ? & [= <-] & Hs & _). by apply Hst in Hs. }
  destruct (Z.eqb_spec (zlen ws) 0); [split; [done|]; intros (_&?&?&?&[= <-]&_&?&_); done|].
  destruct (payouts (vout cb)) as [pays|]; [|split; [done|]; intros (_&?&?&?&_&_&_&?&_); done].
  destruct (sum_payouts pays 0) as [paid|] eqn:Esum;
    [|split; [done|]; intros (_&?&?&?&_&_&_&[= <-]&?&_); congruence].
  destruct (MoneyRange paid) eqn:Em; bsimpl;
    [|split; [done|]; intros (_&?&?&?&_&_&_&[= <-]&Hs&?&_); congruence].
  destruct (Z.ltb_spec paid subsidy);
    [split; [done|]; intros (_&?&?&?&_&_&_&[= <-]&Hs&_&?&_); rewrite Esum in Hs; simplify_eq; lia|].
  destruct (Z.eqb_spec (zlen pays) (zlen ws)); bsimpl;
    [|split; [done|]; intros (_&?&?&?&[= <-]&_&_&[= <-]&?&?&?&?&_); done].
  split.
  - intros Ha. split; [done|]. exists ids, pays, paid. fold ws. split_and!; try done; [by apply Hst|].
    revert Ha. destruct (match_winners _ _ _ _ _) as [[]|]; done.
  - intros (_ & ids' & pays' & paid' & [= <-] & _ & _ & [= <-] & Hp & _ & _ & _ & Hm).
    rewrite Esum in Hp. injection Hp as <-. fold ws in Hm. by rewrite Hm.
Qed.

Lemma scan_committed outs ids :
  committed (fold_left scan_out outs (mkScan None None None)) = Some ids ->
  exists o, o ∈ outs /\ ParseActiveSetCommitment (scriptPubKey o) = Some ids.
Proof. intros Hc. apply scan_committed_in in Hc as [|]; [done|done]. Qed.

Lemma CheckSeedBlock_sig nHeight prev ids script :
  CheckSeedBlockCommitment params nHeight prev ids script = true ->
  exists sig, VerifySeedBlockSig (AttestorPub params) nHeight prev ids sig = true.
Proof.
  unfold CheckSeedBlockCommitment. destruct (op_return_data script) as [data|]; [|done].
  case_ifs; try done. by eexists.
Qed.

(** C1. An accepted coinbase pays exactly the draw. When [CheckLotteryCoinbase]
    accepts a block at height [h >= 1], one of its outputs commits to an
    increasing list of at most 1024 ids; the outputs that are not data are one
    per winner of the draw over that list, in draw order, each to a script that
    hashes to the winner's id and with the winner's part of the subsidy, the
    first one with the fees on top; together they pay the subsidy plus
    non-negative fees. On an attested network every committed id has a stamp
    signed by the attestor and the attestor signed this height, parent and
    list. *)
Theorem coinbase_check_sound att cb txs nHeight prev g interval subsidy :
  1 <= nHeight ->
  (CheckLotteryCoinbase params att (cb :: txs) nHeight prev g interval subsidy).1 = Judged Accept ->
  exists ids nFees,
    let winners := SelectWinners ids (Seed prev (SlotFromHeight nHeight g)) (WinnerCount nHeight interval) in
    let pays := List.filter (fun o => negb (is_data o)) (vout cb) in
    let parts := SplitReward subsidy (zlen winners) in
    (exists o, o ∈ vout cb /\ ParseActiveSetCommitment (scriptPubKey o) = Some ids) /\
    sorted_ids ids /\ zlen ids <= 1024 /\
    1 <= zlen winners /\ zlen pays = zlen winners /\ 0 < subsidy /\ 0 <= nFees /\
    sumZ (map nValue pays) = subsidy + nFees /\ subsidy + nFees <= MAX_MONEY /\
    pays_draw 0 nFees parts winners pays /\
    (RequireXAttestation params = true ->
       Forall (fun id => exists handle sig, VerifyAttestation params id handle sig = true) ids /\
       exists sig, VerifySeedBlockSig (AttestorPub params) nHeight prev ids sig = true).
Proof.
  intros Hh Ha. apply CheckLotteryCoinbase_accept in Ha as
    (_ & ids & pays & paid & Hc & Hst & Hw & Hp & Hs & Hm & Hle & Hl & Hmw); [|done].
  apply scan_committed in Hc as (o & Hin & Hpo). destruct (ParseActiveSet_sorted _ _ Hpo) as [Hsort Hn].
  exists ids, (paid - subsidy). cbv zeta in *. set (ws := SelectWinners _ _ _) in *.
  assert (zlen ws <= 1024) as Hws.
  { destruct (SelectWinners_perm ids (Seed prev (SlotFromHeight nHeight g)) (WinnerCount nHeight interval))
      as [E _]; [lia|]. fold ws in E. pose proof (zlen_nonneg ids). lia. }
  pose proof (zlen_nonneg ws) as H0. rewrite swrap_small in Hmw by lia.
  apply match_winners_iff in Hmw; [|unfold zlen in Hl; lia].
  apply payouts_spec in Hp as ->. apply sum_payouts_spec in Hs as [Hs _]. apply MoneyRange_iff in Hm.
  split_and!; try done; try lia; [by exists o| |].
  - destruct (Z.lt_ge_cases 0 subsidy) as [|Hneg]; [done|]. exfalso.
    destruct ws as [|w ws']; [done|]. destruct (List.filter _ _) as [|p ps]; [done|].
    destruct (Hmw 0%nat w p) as (_ & part & Hpart & _); [done..|]. revert Hpart. unfold SplitReward.
    destruct (Z.leb_spec subsidy 0); [|lia]. by rewrite orb_true_r.
  - intros Hreq. destruct (Hst Hreq) as (xva & xsd & _ & _ & Hx & Hd).
    split; [by eapply CheckXvaForIds_sound|by eapply CheckSeedBlock_sig].
Qed.

End CheckFacts.

(** ** The honest producer *)

Lemma length_winner_outs r ps parts nFees ws : forall i,
  length (winner_outs r ps parts nFees i ws) = length ws.
Proof. induction ws as [|w ws IH]; intros i; [done|]. cbn [winner_outs length]. by rewrite IH. Qed.

Lemma lookup_winner_outs r ps parts nFees ws : forall i j w,
  ws !! j = Some w ->
  let dest := if zlen (ScriptFor r w) =? 0 then ps else ScriptFor r w in
  let value := if zlen parts =? 0 then 0 else nth (i + j) parts 0 in
  winner_outs r ps parts nFees i ws !! j
  = Some (mkTxOut (if (i + j =? 0)%nat then value + nFees else value) dest).
Proof.
  induction ws as [|w' ws IH]; intros i j w Hj; [done|]. destruct j as [|j].
  - injection Hj as ->. by rewrite Nat.add_0_r.
  - cbn [winner_outs]. rewrite <-Nat.add_succ_comm. by apply IH.
Qed.

Lemma sum_winner_outs r ps parts nFees ws : forall i,
  (i + length ws <= length parts)%nat ->
  sumZ (map nValue (winner_outs r ps parts nFees i ws))
  = sumZ (take (length ws) (drop i parts)) + (if (i =? 0)%nat && negb (zlen ws =? 0) then nFees else 0).
Proof.
  induction ws as [|w ws IH]; intros i Hl; cbn [winner_outs map length].
  { unfold sumZ. simpl. by rewrite andb_false_r. }
  assert ((zlen (w :: ws) =? 0) = false) as -> by (rewrite zlen_cons; pose proof (zlen_nonneg ws); lia).
  assert ((zlen parts =? 0) = false) as ->.
  { apply Z.eqb_neq. unfold zlen. simpl in Hl. lia. }
  destruct (parts !! i) as [p|] eqn:Ep; [|apply lookup_ge_None in Ep; simpl in Hl; lia].
  rewrite (drop_S parts p i Ep). simpl in Hl. unfold sumZ in *. cbn [take foldr nValue].
  rewrite IH by lia. rewrite (nth_lookup_Some _ _ _ _ Ep). cbn [negb]. rewrite andb_true_r.
  destruct (Nat.eqb_spec i 0); cbn [Nat.eqb andb]; lia.
Qed.

Section HonestFacts.
Context `{Secp256k1} `{!Secp256k1Laws _}.

(** The payout scripts of the registered nodes can be paid by a coinbase. *)
Definition payable (r : Registry) : Prop :=
  forall id n, om_find id (nodes r) = Some n -> List.hd 0 (an_script n) <> OP_RETURN.

Lemma draw_active_ok env att r nHeight prev g interval subsidy :
  reg_ok r ->
  let d := ComputeDraw env att r nHeight prev g interval subsidy in
  sorted_ids (d_active d) /\
  (forall id, id ∈ d_active d -> is_Some (om_find id (nodes r))) /\
  (RequireXAttestation (env_params env) = true -> all_stamped att (d_active d)).
Proof.
  intros Hr. cbv zeta. unfold ComputeDraw. cbn [d_active].
  set (active := ActiveIdsForSlot _ _ _).
  pose proof (ActiveIdsForSlot_sorted r (GetTime env) (SlotFromHeight nHeight g) Hr) as Hs. fold active in Hs.
  pose proof (fun id => ActiveIdsForSlot_found r (GetTime env) (SlotFromHeight nHeight g) id Hr) as Hf.
  fold active in Hf. destruct (RequireXAttestation (env_params env)); [|done]. split_and!.
  - destruct Hs as [Hi Hs]. split; [by apply Forall_filter_keep|by apply StronglySorted_filter_keep].
  - intros id Hin. apply list_elem_of_filter in Hin as [_ Hin]. by apply Hf.
  - intros _. apply Forall_forall. intros id Hin. by apply list_elem_of_filter in Hin as [? _].
Qed.

(** The output for winner [j] of a draw over registered nodes. *)
Lemma winner_out_at r ps nFees subsidy ws j w :
  reg_ok r -> payable r -> is_Some (om_find w (nodes r)) -> 0 < subsidy -> ws !! j = Some w ->
  let parts := SplitReward subsidy (zlen ws) in
  exists part, parts !! j = Some part /\ 0 <= part /\
    winner_outs r ps parts nFees 0 ws !! j
    = Some (mkTxOut (if (j =? 0)%nat then part + nFees else part) (ScriptFor r w)) /\
    IdFromScript (ScriptFor r w) = w /\ ScriptFor r w <> [] /\ List.hd 0 (ScriptFor r w) <> OP_RETURN.
Proof.
  intros Hr Hpay Hf Hsub Hw. cbv zeta. set (parts := SplitReward subsidy (zlen ws)).
  destruct (ScriptFor_id r w Hr Hf) as [Hid Hlen']. apply lookup_lt_Some in Hw as Hlt.
  assert (zlen parts = zlen ws) as Hlen by (apply length_SplitReward; [unfold zlen; lia|done]).
  destruct (parts !! j) as [part|] eqn:Ep; [|apply lookup_ge_None in Ep; unfold zlen in Hlen; lia].
  exists part. split; [done|]. split.
  { apply list_elem_of_lookup_2 in Ep. unfold parts in Ep.
    rewrite SplitReward_eq in Ep by (unfold zlen; lia).
    pose proof (Z.div_pos subsidy (zlen ws) ltac:(lia) ltac:(unfold zlen; lia)).
    apply elem_of_app in Ep as [Ep|Ep]; apply elem_of_replicate in Ep as [-> _]; lia. }
  split_and!; [|done| |].
  - pose proof (lookup_winner_outs r ps parts nFees ws 0 j w Hw) as E. cbv zeta in E.
    rewrite Nat.add_0_l, (nth_lookup_Some _ _ _ _ Ep) in E.
    destruct (Z.eqb_spec (zlen parts) 0); [unfold zlen in *; lia|].
    destruct (Z.eqb_spec (zlen (ScriptFor r w)) 0); [lia|]. done.
  - intros E. rewrite E in Hlen'. unfold zlen in Hlen'. simpl in Hlen'. lia.
  - destruct Hf as [n Hn]. unfold ScriptFor. rewrite Hn. by eapply Hpay.
Qed.

(** All of them: spendable, not data, and adding up to subsidy and fees. *)
Lemma winner_outs_ok r ps nFees subsidy ws :
  reg_ok r -> payable r -> (forall w, w ∈ ws -> is_Some (om_find w (nodes r))) ->
  0 < subsidy -> 0 <= nFees -> 0 < zlen ws ->
  let parts := SplitReward subsidy (zlen ws) in
  let outs := winner_outs r ps parts nFees 0 ws in
  Forall (fun o => scriptPubKey o <> [] /\ is_data o = false /\ 0 <= nValue o) outs /\
  sumZ (map nValue outs) = subsidy + nFees /\ pays_draw 0 nFees parts ws outs.
Proof.
  intros Hr Hpay Hin Hsub Hfee Hws. cbv zeta. set (parts := SplitReward subsidy (zlen ws)).
  assert (zlen parts = zlen ws) as Hlen by (by apply length_SplitReward).
  assert (forall j w, ws !! j = Some w -> is_Some (om_find w (nodes r))) as Hin'.
  { intros j w Hw. apply Hin. by eapply list_elem_of_lookup_2. }
  split_and!.
  - apply Forall_lookup. intros j o Ho. apply lookup_lt_Some in Ho as Hlt. rewrite length_winner_outs in Hlt.
    apply lookup_lt_is_Some in Hlt as [w Hw].
    destruct (winner_out_at r ps nFees subsidy ws j w) as (part & _ & H0 & E & _ & Hne & Hhd); eauto.
    fold parts in E. rewrite E in Ho. injection Ho as <-. cbn [scriptPubKey nValue].
    split_and!; [done| |case_ifs; lia].
    unfold is_data. cbn [scriptPubKey]. destruct (ScriptFor r w) as [|b s]; [done|]. by apply Z.eqb_neq.
  - rewrite sum_winner_outs by (unfold zlen in Hlen; lia). rewrite drop_0, take_ge by (unfold zlen in Hlen; lia).
    unfold parts. rewrite sum_SplitReward by lia. by destruct (Z.eqb_spec (zlen ws) 0); [lia|].
  - intros j w o Hw Ho.
    destruct (winner_out_at r ps nFees subsidy ws j w) as (part & Hpart & _ & E & Hid & _); eauto.
    fold parts in E. rewrite E in Ho. injection Ho as <-. split; [done|]. by exists part.
Qed.

Lemma scan_committed_out ids :
  sorted_ids ids -> zlen ids <= 1024 ->
  scan_out (mkScan None None None) (mkTxOut 0 (MakeActiveSetCommitment ids)) = mkScan (Some ids) None None.
Proof.
  intros [Hi Hs] Hn. unfold scan_out. cbn [committed scriptPubKey].
  rewrite Parse_Make_active by (done || lia). apply adjacent_sorted in Hs as ->.
  by destruct (Z.leb_spec (zlen ids) 1024); [|lia].
Qed.

Lemma scan_xva_out params att ids :
  attest_ok params att -> Forall id_ok ids -> all_stamped att ids -> zlen ids <= 1024 ->
  scan_out (mkScan (Some ids) None None) (mkTxOut 0 (MakeXvaCommitment att ids))
  = mkScan (Some ids) (Some (MakeXvaCommitment att ids)) None.
Proof.
  intros Ha Hi Hs Hn. unfold scan_out. cbn [committed scriptPubKey xvaScript xsdScript].
  by rewrite (MakeXva_parse params).
Qed.

Lemma scan_xsd_out params att ids nHeight prev xva :
  holds_seed_key params att ->
  scan_out (mkScan (Some ids) (Some xva) None) (mkTxOut 0 (MakeSeedBlockCommitment att nHeight prev ids))
  = mkScan (Some ids) (Some xva) (Some (MakeSeedBlockCommitment att nHeight prev ids)).
Proof.
  intros Hk. destruct (MakeSeedBlock_nonempty params att nHeight prev ids Hk) as (sig & Hl & E).
  unfold scan_out. cbn [committed scriptPubKey xvaScript xsdScript]. rewrite E. unfold is_xsd.
  rewrite op_return_data_push by (rewrite zlen_app, Hl; done).
  assert (69 <= zlen (push (SEED_BLOCK_MAGIC ++ sig))) as Hp.
  { unfold push. rewrite zlen_app, (zlen_app SEED_BLOCK_MAGIC), Hl.
    change (zlen SEED_BLOCK_MAGIC) with 4.
    pose proof (zlen_nonneg (if 4 + 65 <? OP_PUSHDATA1 then le_bytes 1 (4 + 65)
      else if 4 + 65 <=? 0xff then OP_PUSHDATA1 :: le_bytes 1 (4 + 65)
      else if 4 + 65 <=? 0xffff then OP_PUSHDATA2 :: le_bytes 2 (4 + 65)
      else OP_PUSHDATA4 :: le_bytes 4 (4 + 65))). lia. }
  rewrite zlen_cons, zlen_app, Hl. change (zlen SEED_BLOCK_MAGIC) with 4.
  destruct (Z.ltb_spec 5 (1 + zlen (push (SEED_BLOCK_MAGIC ++ sig)))); [|lia].
  rewrite take_app_length', bytes_eqb_refl by done. done.
Qed.

(** The data outputs that follow the winners. *)
Definition data_outs (params : CChainParams) (att : AttestState) (nHeight : Z) (prev : bytes)
    (ids : list bytes) : list CTxOut :=
  mkTxOut 0 (MakeActiveSetCommitment ids)
  :: (if RequireXAttestation params then
        mkTxOut 0 (MakeXvaCommitment att ids)
        :: (let seedSig := MakeSeedBlockCommitment att nHeight prev ids in
            if negb (zlen seedSig =? 0) then [mkTxOut 0 seedSig] else [])
      else []).

Lemma data_outs_is_data params att nHeight prev ids :
  Forall (fun o => scriptPubKey o <> [] /\ is_data o = true) (data_outs params att nHeight prev ids).
Proof.
  unfold data_outs. constructor; [done|]. destruct (RequireXAttestation params); [|constructor].
  constructor; [done|]. unfold MakeSeedBlockCommitment. cbv zeta.
  repeat (case_match; simplify_eq; try constructor; try done).
Qed.

Lemma data_outs_scan params att nHeight prev ids :
  attest_ok params att -> sorted_ids ids -> zlen ids <= 1024 ->
  (RequireXAttestation params = true -> all_stamped att ids /\ holds_seed_key params att) ->
  let sc := fold_left scan_out (data_outs params att nHeight prev ids) (mkScan None None None) in
  committed sc = Some ids /\ stamps_ok params sc ids nHeight prev.
Proof.
  intros Ha Hs Hn Hreq. cbv zeta. unfold data_outs. cbn [fold_left].
  rewrite scan_committed_out by done. unfold stamps_ok.
  destruct (RequireXAttestation params); [|done]. destruct (Hreq eq_refl) as [Hst Hk].
  destruct (MakeSeedBlock_nonempty params att nHeight prev ids Hk) as (sig & Hl & E).
  assert ((zlen (MakeSeedBlockCommitment att nHeight prev ids) =? 0) = false) as Hz.
  { rewrite E, zlen_cons. pose proof (zlen_nonneg (push (SEED_BLOCK_MAGIC ++ sig))). lia. }
  cbn [fold_left]. rewrite (scan_xva_out params) by (done || apply Hs). rewrite Hz. cbn [negb fold_left].
  rewrite (scan_xsd_out params) by done. split; [done|]. intros _. eexists _, _. split_and!; [done..| |].
  - apply MakeXva_check; [done|apply Hs|done..].
  - by apply MakeSeedBlock_check.
Qed.

Lemma payouts_split pays rest :
  Forall (fun o => scriptPubKey o <> [] /\ is_data o = false /\ 0 <= nValue o) pays ->
  Forall (fun o => scriptPubKey o <> [] /\ is_data o = true) rest ->
  payouts (pays ++ rest) = Some pays.
Proof.
  unfold is_data. intros Hp Hr. induction Hp as [|o pays (Hne & Hd & _) _ IH]; simpl.
  - induction Hr as [|o rest [Hne Hd] _ IH]; [done|]. simpl.
    destruct (scriptPubKey o); [done|]. by rewrite Hd.
  - destruct (scriptPubKey o); [done|]. by rewrite Hd, IH.
Qed.

(** The coinbase outputs of a draw over registered nodes pass the check. *)
(** The outputs to the winners of a draw. *)
Lemma draw_outs_ok env att r nHeight prev g interval subsidy nFees ps :
  let draw := ComputeDraw env att r nHeight prev g interval subsidy in
  let ws := d_winners draw in
  let outs := winner_outs r ps (SplitReward subsidy (zlen ws)) nFees 0 ws in
  reg_ok r -> payable r -> 0 < subsidy -> 0 <= nFees -> ws <> [] -> zlen (d_active draw) <= 1024 ->
  0 < zlen ws <= 1024 /\
  Forall (fun o => scriptPubKey o <> [] /\ is_data o = false /\ 0 <= nValue o) outs /\
  sumZ (map nValue outs) = subsidy + nFees /\ pays_draw 0 nFees (SplitReward subsidy (zlen ws)) ws outs /\
  coinbase_outs env att r draw nHeight prev subsidy nFees ps
  = outs ++ data_outs (env_params env) att nHeight prev (d_active draw).
Proof.
  cbv zeta. intros Hr Hpay Hsub Hfee Hne Hn.
  set (draw := ComputeDraw env att r nHeight prev g interval subsidy) in *.
  destruct (draw_active_ok env att r nHeight prev g interval subsidy Hr) as (Hs & Hf & Hst).
  fold draw in Hs, Hf, Hst. set (ids := d_active draw) in *.
  assert (d_winners draw = SelectWinners ids (Seed prev (SlotFromHeight nHeight g)) (WinnerCount nHeight interval))
    as Ew by done.
  set (ws := d_winners draw) in *.
  assert (0 < zlen ws <= 1024) as Hws.
  { destruct (SelectWinners_perm ids (Seed prev (SlotFromHeight nHeight g)) (WinnerCount nHeight interval))
      as [E _]; [lia|]. rewrite <-Ew in E. pose proof (zlen_nonneg ids).
    assert (zlen ws <> 0) by (intros E0; by apply zlen_0_nil in E0). lia. }
  destruct (winner_outs_ok r ps nFees subsidy ws) as (Hwo & Hsum & Hpd); [done..| |lia|lia|lia|].
  { intros w Hw. apply Hf. rewrite Ew in Hw. eapply SelectWinners_subset; [|done]. lia. }
  split; [done|]. split; [done|]. split; [done|]. split; [done|].
  unfold coinbase_outs. fold ws ids. by rewrite swrap_small by lia.
Qed.

Lemma coinbase_outs_accepted env att att_v r cb txs nHeight prev g interval subsidy nFees ps :
  let params := env_params env in
  let draw := ComputeDraw env att r nHeight prev g interval subsidy in
  let outs := coinbase_outs env att r draw nHeight prev subsidy nFees ps in
  reg_ok r -> attest_ok params att -> payable r -> 1 <= nHeight -> IsCoinBase cb = true ->
  0 < subsidy -> 0 <= nFees -> subsidy + nFees <= MAX_MONEY ->
  d_winners draw <> [] -> zlen (d_active draw) <= 1024 ->
  (RequireXAttestation params = true -> holds_seed_key params att) ->
  (CheckLotteryCoinbase params att_v (mkTx (tx_nVersion cb) (vin cb) outs (nLockTime cb) :: txs)
     nHeight prev g interval subsidy).1 = Judged Accept.
Proof.
  cbv zeta. intros Hr Ha Hpay Hh Hcb Hsub Hfee Hmax Hne Hn Hk.
  set (draw := ComputeDraw env att r nHeight prev g interval subsidy) in *.
  destruct (draw_active_ok env att r nHeight prev g interval subsidy Hr) as (Hs & Hf & Hst).
  fold draw in Hs, Hf, Hst. set (ids := d_active draw) in *.
  assert (d_winners draw = SelectWinners ids (Seed prev (SlotFromHeight nHeight g)) (WinnerCount nHeight interval))
    as Ew by done.
  set (ws := d_winners draw) in *.
  destruct (draw_outs_ok env att r nHeight prev g interval subsidy nFees ps) as (Hws & Hwo & Hsum & Hpd & Eouts); [done..|].
  fold draw in Hws, Hwo, Hsum, Hpd, Eouts. fold ws ids in Hws, Hwo, Hsum, Hpd, Eouts.
  destruct (data_outs_scan (env_params env) att nHeight prev ids) as [Hc Hso]; [done..| |]; [by auto|].
  apply CheckLotteryCoinbase_accept; [done|]. cbn [vout vin IsCoinBase]. split; [exact Hcb|].
  rewrite Eouts.
  assert (forall sc, fold_left scan_out (winner_outs r ps (SplitReward subsidy (zlen ws)) nFees 0 ws
            ++ data_outs (env_params env) att nHeight prev ids) sc
          = fold_left scan_out (data_outs (env_params env) att nHeight prev ids) sc) as Hscan.
  { intros sc. rewrite fold_left_app, (scan_skip (winner_outs _ _ _ _ _ _)); [done|]. eapply Forall_impl; [exact Hwo|]. by intros o (_ & ? & _). }
  eexists ids, _, (subsidy + nFees). cbv zeta. rewrite <-Ew. cbn [app].
  rewrite Hscan. split_and!; [done|done|lia|..].
  - apply payouts_split; [done|apply data_outs_is_data].
  - rewrite sum_payouts_ok; [by rewrite Hsum|lia| |lia]. eapply Forall_impl; [exact Hwo|]. by intros o (_ & _ & ?).
  - apply MoneyRange_iff. lia.
  - lia.
  - unfold zlen. by rewrite length_winner_outs.
  - rewrite swrap_small by lia. replace (subsidy + nFees - subsidy) with nFees by lia.
    apply match_winners_iff; [by rewrite length_winner_outs|done].
Qed.

Lemma SetLocalScript_ok r script : reg_ok r -> reg_ok (SetLocalScript r script).
Proof.
  intros Hr. unfold SetLocalScript. destruct (zlen script =? 0); [done|].
  unfold reg_ok. cbn [nodes byHandle]. destruct (_ && _); [by apply maps_ok_erase_node|done].
Qed.

Lemma apply_payouts_accepted env al att att_v r cb txs nHeight prev g interval subsidy nFees ps :
  let params := env_params env in
  reg_ok r -> attest_ok params att -> 1 <= nHeight -> IsCoinBase cb = true ->
  0 < subsidy -> 0 <= nFees -> subsidy + nFees <= MAX_MONEY ->
  (RequireXAttestation params = true -> holds_seed_key params att) ->
  let '(blk, att', r') :=
    ApplyCoinbasePayouts env al att r (cb :: txs) nHeight prev g interval subsidy nFees ps in
  let draw := ComputeDraw env att' r' nHeight prev g interval subsidy in
  payable r' -> d_winners draw <> [] -> zlen (d_active draw) <= 1024 ->
  (CheckLotteryCoinbase params att_v blk nHeight prev g interval subsidy).1 = Judged Accept.
Proof.
  cbv zeta. intros Hr Ha Hh Hcb Hsub Hfee Hmax Hk. unfold ApplyCoinbasePayouts.
  destruct (Z.ltb_spec nHeight 1); [lia|].
  set (r1 := if negb (zlen ps =? 0) then SetLocalScript r ps else r).
  assert (reg_ok r1) as Hr1 by (subst r1; destruct (negb _); [by apply SetLocalScript_ok|done]).
  pose proof (HeartbeatLocal_ok (env_params env) env al att r1 (GetTime env) Hr1 eq_refl Ha) as [Ha' Hr'].
  assert (RequireXAttestation (env_params env) = true ->
    holds_seed_key (env_params env) (HeartbeatLocal env al att r1 (GetTime env)).1.2) as Hk'.
  { intros Hq. specialize (Hk Hq). unfold HeartbeatLocal. by rewrite (holds_seed_key_baked _ _ Hk). }
  destruct (HeartbeatLocal env al att r1 (GetTime env)) as [[ok att'] r'].
  cbn [fst snd] in Ha', Hr', Hk'.
  destruct (Z.eqb_spec (zlen (d_winners (ComputeDraw env att' r' nHeight prev g interval subsidy))) 0) as [E|E].
  - intros _ Hne. by apply zlen_0_nil in E.
  - intros Hpay Hne Hn. by apply coinbase_outs_accepted.
Qed.

(** The coinbase it leaves. *)
Lemma apply_payouts_outs env al att r cb txs nHeight prev g interval subsidy nFees ps blk att' r' :
  1 <= nHeight ->
  ApplyCoinbasePayouts env al att r (cb :: txs) nHeight prev g interval subsidy nFees ps = (blk, att', r') ->
  let draw := ComputeDraw env att' r' nHeight prev g interval subsidy in
  d_winners draw <> [] ->
  blk = mkTx (tx_nVersion cb) (vin cb) (coinbase_outs env att' r' draw nHeight prev subsidy nFees ps) (nLockTime cb) :: txs.
Proof.
  intros Hh. unfold ApplyCoinbasePayouts. destruct (Z.ltb_spec nHeight 1); [lia|].
  destruct (HeartbeatLocal _ _ _ _ _) as [[ok a1] r1]. destruct (Z.eqb_spec (zlen (d_winners (ComputeDraw env a1 r1 nHeight prev g interval subsidy))) 0) as [E|E].
  - intros E2. injection E2 as _ <- <-. cbv zeta. intros Hne. by apply zlen_0_nil in E.
  - intros E2. injection E2 as <- <- <-. reflexivity.
Qed.

(** C2. What an honest producer emits is valid: starting from a consistent
    registry and table of stamps, with a positive subsidy, fees within the money
    range, at least one winner, at most 1024 active ids and payout scripts a
    coinbase can pay, the block [ApplyCoinbasePayouts] fills in passes
    [CheckLotteryCoinbase] on every node, whatever stamps that node has; on an
    attested network the producer must hold the attestor's key. *)
Theorem honest_block_accepted env al att att_v r cb txs nHeight prev g interval subsidy nFees ps :
  let params := env_params env in
  reg_ok r -> attest_ok params att -> 1 <= nHeight -> IsCoinBase cb = true ->
  0 < subsidy -> 0 <= nFees -> subsidy + nFees <= MAX_MONEY ->
  (RequireXAttestation params = true -> holds_seed_key params att) ->
  let '(blk, att', r') :=
    ApplyCoinbasePayouts env al att r (cb :: txs) nHeight prev g interval subsidy nFees ps in
  let draw := ComputeDraw env att' r' nHeight prev g interval subsidy in
  payable r' -> d_winners draw <> [] -> zlen (d_active draw) <= 1024 ->
  (CheckLotteryCoinbase params att_v blk nHeight prev g interval subsidy).1 = Judged Accept.
Proof. apply apply_payouts_accepted. Qed.

End HonestFacts.

(** ** Concrete blocks *)
Definition toy_coinbase (outs : list CTxOut) : CTransaction :=
  mkTx 1 [mkTxIn (mkOutPoint uint256_null 0xffffffff) [0; 0] SEQUENCE_FINAL []] outs 0.

Definition toy_prev : bytes := repeat 0 32.

(** The seed's node with two stamped users in its registry. *)
Definition toy_users : Registry :=
  toy_beat (toy_beat Registry_empty 1 1789197400 (bs "alice")) 2 1789197401 (bs "bob").

Lemma toy_users_payable :
  payable (SetLocalScript toy_users (toy_script 3)).
Proof.
  intros id n Hf. apply om_find_Some_in in Hf.
  assert (forallb (fun kv => negb (List.hd 0 (an_script kv.2) =? OP_RETURN))
            (nodes (SetLocalScript toy_users (toy_script 3))) = true) as Hb by (vm_compute; reflexivity).
  rewrite forallb_forall in Hb. apply list_elem_of_In in Hf. specialize (Hb _ Hf). simpl in Hb.
  apply negb_true_iff, Z.eqb_neq in Hb. exact Hb.
Qed.

Definition toy_apply : list CTransaction * AttestState * Registry :=
  ApplyCoinbasePayouts (H := toy_secp256k1) (toy_env 1789197500) Allowlist_empty toy_stamped toy_users
    [toy_coinbase []] 1 toy_prev main_genesis_nTime main_nSubsidyHalvingInterval (5000 * COIN) 77
    (toy_script 3).

Lemma honest_block_accepted_witness :
  exists blk att' r', toy_apply = (blk, att', r') /\
    (CheckLotteryCoinbase (H := toy_secp256k1) toy_params toy_seed blk 1 toy_prev main_genesis_nTime
       main_nSubsidyHalvingInterval (5000 * COIN)).1 = Judged Accept.
Proof.
  pose proof toy_secp256k1_laws as L.
  pose proof (honest_block_accepted (H := toy_secp256k1) (toy_env 1789197500) Allowlist_empty toy_stamped
    toy_seed toy_users (toy_coinbase []) [] 1 toy_prev main_genesis_nTime main_nSubsidyHalvingInterval
    (5000 * COIN) 77 (toy_script 3)
    (toy_beat_ok _ _ _ _ (toy_beat_ok _ _ _ _ Registry_empty_ok)) toy_stamped_ok) as Hx.
  fold toy_apply in Hx. cbv zeta in Hx.
  assert (toy_apply.2 = SetLocalScript toy_users (toy_script 3)) as E2 by (vm_compute; reflexivity).
  assert (toy_apply.1.2 = toy_stamped) as E12 by (vm_compute; reflexivity).
  destruct toy_apply as [[blk att'] r']. cbn [fst snd] in E2, E12. subst r' att'.
  exists blk, toy_stamped, (SetLocalScript toy_users (toy_script 3)). split; [reflexivity|].
  apply Hx; [lia|vm_compute; reflexivity|vm_compute; reflexivity|lia|vm_compute; congruence| | | |].
  - intros _. split_and!; [split|..]; vm_compute; reflexivity.
  - apply toy_users_payable.
  - vm_compute. congruence.
  - vm_compute. congruence.
Defined.

Lemma coinbase_check_sound_witness :
  exists ids nFees, sorted_ids ids /\ zlen ids <= 1024 /\ 0 <= nFees.
Proof.
  destruct (coinbase_check_sound (H := toy_secp256k1) toy_params toy_seed
    (List.hd (toy_coinbase []) toy_apply.1.1) (tail toy_apply.1.1) 1 toy_prev main_genesis_nTime
    main_nSubsidyHalvingInterval (5000 * COIN)) as (ids & nFees & _ & Hs & Hn & _ & _ & _ & Hf & _);
    [lia|vm_compute; reflexivity|]. exists ids, nFees. exact (conj Hs (conj Hn Hf)).
Defined.

(** After the last halving the check reads past its parts: at a height
    whose subsidy is zero, the block the producer fills in for a registered
    winner makes [CheckLotteryCoinbase] index an empty vector of parts. *)
Lemma zero_subsidy_out_of_range :
  let params := mkParams true [] main_genesis_nTime main_nSubsidyHalvingInterval false in
  let env := mkEnv params (mkLookup false (fun _ => LOOKUP_FAILED)) true true 1789197500 in
  let r := toy_beat Registry_empty 1 1789197400 (bs "alice") in
  let subsidy := GetBlockSubsidy 81900000 main_nSubsidyHalvingInterval in
  let '(blk, _, _) := ApplyCoinbasePayouts (H := toy_secp256k1) env Allowlist_empty
    (mkAttest CKey_empty false []) r [toy_coinbase []] 81900000 toy_prev main_genesis_nTime
    main_nSubsidyHalvingInterval subsidy 10 [] in
  subsidy = 0 /\
  (CheckLotteryCoinbase (H := toy_secp256k1) params (mkAttest CKey_empty false []) blk 81900000 toy_prev
     main_genesis_nTime main_nSubsidyHalvingInterval subsidy).1 = OutOfRange.
Proof. vm_compute. split; reflexivity. Qed.

(** The script of the attack: it starts with [OP_RETURN] and is read as an asset
    transfer to the key hash of [toy_key 9]. *)
Definition unpayable_script : CScript := asset_shaped_op_return (CPubKey_GetID (2 :: repeat 9 32)).

Definition unpayable_sig : bytes :=
  default [] (SignHeartbeat (H := toy_secp256k1) (toy_key 9) 1789197400 unpayable_script (bs "alice") 0 true).

Definition unpayable_state : AttestState * Registry :=
  let env := toy_env 1789197400 in
  let att := (LookupAndAttest (H := toy_secp256k1) toy_params (env_lookup env) toy_seed unpayable_script
                (bs "alice")).2 in
  (att, (Heartbeat (H := toy_secp256k1) env Allowlist_empty att Registry_empty unpayable_script 1789197400
           (bs "alice") 0 true).2).

(** A payout script the coinbase cannot pay is accepted into the draw: a
    verified user can register a script that starts with [OP_RETURN], because
    it also matches the asset-transfer template; its heartbeat signature
    verifies, the seed stamps it and the registry takes it; when it wins, the
    seed's own block fails [CheckLotteryCoinbase], since outputs that start
    with [OP_RETURN] are not counted as payouts. *)
Theorem unpayable_winner_rejects_block :
  let '(att, r) := unpayable_state in
  VerifyHeartbeatSig (H := toy_secp256k1) unpayable_script 1789197400 (bs "alice") 0 unpayable_sig true = true /\
  HasAttestation att (IdFromScript unpayable_script) = true /\
  let '(blk, _, _) := ApplyCoinbasePayouts (H := toy_secp256k1) (toy_env 1789197500) Allowlist_empty att r
    [toy_coinbase []] 1 toy_prev main_genesis_nTime main_nSubsidyHalvingInterval (5000 * COIN) 0
    (toy_script 3) in
  (CheckLotteryCoinbase (H := toy_secp256k1) toy_params att blk 1 toy_prev main_genesis_nTime
     main_nSubsidyHalvingInterval (5000 * COIN)).1 = Judged (Reject 100 "bad-cb-lottery-amount").
Proof. vm_compute. split_and!; reflexivity. Qed.
