(* ===== verification/Blocks.v ===== *)
(** * Block checks

    [CheckBlock], [ContextualCheckBlock], the witness commitment of the coinbase
    and [TestBlockValidity] of src/src/validation.cpp, and [GetBlockWeight] of
    src/src/consensus/validation.h. *)

From S2P Require Import Prelude Sha256 Script Serialize Handle Slots Tx Merkle Draw Key Attest Registry Coinbase.
From S2P Require Import Chain Pow Headers.

Local Open Scope Z_scope.

Definition WITNESS_SCALE_FACTOR : Z := 4.
Definition MAX_BLOCK_WEIGHT_RIP2 : Z := 8000000.
Definition GetMaxBlockWeight : Z := MAX_BLOCK_WEIGHT_RIP2.
Definition MAX_BLOCK_SIGOPS_COST : Z := 80000.

(** ** The witness commitment *)

(** [OP_RETURN], a push of 36 bytes, and the commitment header. *)
Definition commitment_prefix : bytes := [OP_RETURN; 0x24; 0xaa; 0x21; 0xa9; 0xed].
Definition is_commitment (script : CScript) : bool :=
  (38 <=? zlen script) && bytes_eqb (take 6 script) commitment_prefix.

(** The index of the last output that is one, from [o] on. *)
Fixpoint commitment_index (outs : list CTxOut) (o : nat) (commitpos : option nat) : option nat :=
  match outs with
  | [] => commitpos
  | out :: outs => commitment_index outs (S o) (if is_commitment (scriptPubKey out) then Some o else commitpos)
  end.
Definition GetWitnessCommitmentIndex (vtx : list CTransaction) : option nat :=
  match vtx with [] => None | cb :: _ => commitment_index (vout cb) 0 None end.

Definition witness_nonce : bytes := repeat 0 32.

(** The coinbase gets the null nonce as its witness. *)
Definition set_nonce (cb : CTransaction) : CTransaction :=
  match vin cb with
  | i :: ins => mkTx (tx_nVersion cb) (mkTxIn (prevout i) (scriptSig i) (nSequence i) [witness_nonce] :: ins)
                     (vout cb) (nLockTime cb)
  | [] => cb
  end.

Definition UpdateUncommittedBlockStructures (nSegwitEnabled : bool) (vtx : list CTransaction) : list CTransaction :=
  match vtx, GetWitnessCommitmentIndex vtx with
  | cb :: txs, Some _ => if nSegwitEnabled && negb (HasWitness cb) then set_nonce cb :: txs else vtx
  | _, _ => vtx
  end.

(** [CHash256().Write(root).Write(nonce)] *)
Definition commit_hash (root nonce : bytes) : bytes := sha256.Hash [root; nonce].

Definition commitment_script (vtx : list CTransaction) : CScript :=
  commitment_prefix ++ commit_hash (BlockWitnessMerkleRoot vtx).1 witness_nonce.

Definition add_out (cb : CTransaction) (out : CTxOut) : CTransaction :=
  mkTx (tx_nVersion cb) (vin cb) (vout cb ++ [out]) (nLockTime cb).

Definition GenerateCoinbaseCommitment (nSegwitEnabled : bool) (vtx : list CTransaction) : list CTransaction :=
  let vtx :=
    match vtx, GetWitnessCommitmentIndex vtx with
    | cb :: txs, None => if nSegwitEnabled then add_out cb (mkTxOut 0 (commitment_script vtx)) :: txs else vtx
    | _, _ => vtx
    end in
  UpdateUncommittedBlockStructures nSegwitEnabled vtx.

Definition GetBlockWeight (kt : Z) (block : CBlock) : Z :=
  zlen (enc (c_block kt false) block) * (WITNESS_SCALE_FACTOR - 1) + zlen (enc (c_block kt true) block).

(** Sizes: witnesses come on top, and a transaction takes at least a byte. *)
Lemma zlen_enc_vector {A} (c : codec A) (l : list A) : zlen (enc (c_vector c) l) = zlen (WriteCompactSize (zlen l)) + sumZ (map (fun x => zlen (enc c x)) l).
Proof. unfold c_vector. cbn [enc]. rewrite zlen_app. f_equal. induction l as [|x l IH]; [done|]. cbn [map concat]. rewrite zlen_app, IH. done. Qed.
Lemma zlen_enc_uint k n : zlen (enc (c_uint k) n) = Z.of_nat k.
Proof. unfold zlen. cbn [enc c_uint]. by rewrite length_le_bytes. Qed.
Lemma SerializeTransaction_size tx : 1 <= zlen (SerializeTransaction false tx) <= zlen (SerializeTransaction true tx).
Proof.
  unfold SerializeTransaction. cbn [andb]. rewrite !zlen_app. change (negb (0 =? 0)) with false. change (negb (Z.land 0 1 =? 0)) with false. cbn iota. change (zlen (@nil Z)) with 0.
  assert (Hi : forall k n, zlen (enc (c_int k) n) = Z.of_nat k) by (intros; unfold zlen; cbn [enc c_int]; by rewrite length_le_bytes). rewrite Hi.
  pose proof (zlen_nonneg (enc (c_vector c_txin) (vin tx))). pose proof (zlen_nonneg (enc (c_vector c_txout) (vout tx))). pose proof (zlen_nonneg (enc (c_uint 4) (nLockTime tx))).
  split; [lia|]. repeat match goal with |- context [zlen (if ?b then ?x else [])] => pose proof (zlen_nonneg (if b then x else [])); generalize dependent (zlen (if b then x else [])); intros end. lia.
Qed.
Lemma block_weight_bounds kt block : zlen (vtx block) <= zlen (enc (c_block kt false) block) /\ zlen (enc (c_block kt false) block) * WITNESS_SCALE_FACTOR <= GetBlockWeight kt block.
Proof.
  unfold GetBlockWeight, c_block, c_map, c_pair, WITNESS_SCALE_FACTOR. cbn [enc fst snd]. rewrite !zlen_app, !zlen_enc_vector. pose proof (zlen_nonneg (enc (c_header kt) (block_header block))). pose proof (zlen_nonneg (WriteCompactSize (zlen (vtx block)))).
  assert (Hs : forall txs, zlen txs <= sumZ (map (fun x => zlen (enc (c_tx false) x)) txs) <= sumZ (map (fun x => zlen (enc (c_tx true) x)) txs)).
  { induction txs as [|tx txs IH]; [done|]. rewrite zlen_cons. unfold sumZ in *. cbn [map foldr]. pose proof (SerializeTransaction_size tx). unfold c_tx. cbn [enc]. unfold c_tx in IH. cbn [enc] in IH. lia. }
  specialize (Hs (vtx block)). lia.
Qed.

(** The flags of [Consensus::Params] the checks read. *)
Record BlockParams := mkBP {
  nCSVEnabled : bool;
  nBIP34Enabled : bool;
  nSegwitEnabled : bool;
}.

(** The first rejection of a list of checks, in order. *)
Fixpoint first_reject (l : list verdict) : verdict :=
  match l with
  | [] => Accept
  | Accept :: l => first_reject l
  | v :: _ => v
  end.
Lemma first_reject_accept l : first_reject l = Accept <-> Forall (fun v => v = Accept) l.
Proof.
  induction l as [|[|d r] l IH]; cbn; [split; [constructor|done]| |].
  - rewrite IH. split; [by constructor|]. intros H. by inv H.
  - split; [done|]. intros H. by inv H.
Qed.
Definition check (ok : bool) (dos : Z) (reason : string) : verdict := if ok then Accept else Reject dos reason.

Section Checks.
Context `{Secp256k1}.
Variable BlockHash : CBlockHeader -> bytes.
Variable BlockHashFull : CBlockHeader -> bytes * bytes.
Variable hp : HeaderParams.
Variable bp : BlockParams.
Variable params : CChainParams.
(** [CheckTransaction] of one transaction. *)
Variable CheckTransaction : CTransaction -> verdict.
(** [ConnectBlock] against the coins and assets of the tip. *)
Variable ConnectBlock : CBlock -> verdict.

Abbreviation kt := (nKAWPOWActivationTime (hp_pow hp)).

(** Whether the block was checked before, its verdict, and the flag it keeps. *)
Definition CheckBlock (a : arena) (fChecked : bool) (block : CBlock) (fCheckPOW fCheckMerkleRoot : bool)
    : verdict * bool :=
  if fChecked then (Accept, true) else
  let txs := vtx block in
  let '(hashMerkleRoot2, mutated) := BlockMerkleRoot txs in
  let v := first_reject
    [ CheckBlockHeader BlockHash BlockHashFull hp a (block_header block) fCheckPOW;
      check (negb fCheckMerkleRoot || bytes_eqb (hashMerkleRoot (block_header block)) hashMerkleRoot2)
        100 "bad-txnmrklroot";
      check (negb fCheckMerkleRoot || negb mutated) 100 "bad-txns-duplicate";
      check (negb ((zlen txs =? 0) || (GetMaxBlockWeight <? zlen txs * WITNESS_SCALE_FACTOR) ||
                   (GetMaxBlockWeight <? zlen (enc (c_block kt false) block) * WITNESS_SCALE_FACTOR)))
        100 "bad-blk-length";
      check (match txs with cb :: _ => IsCoinBase cb | [] => false end) 100 "bad-cb-missing";
      check (negb (existsb IsCoinBase (tail txs))) 100 "bad-cb-multiple";
      first_reject (map CheckTransaction txs);
      check (negb (MAX_BLOCK_SIGOPS_COST <?
                   uwrap 32 (uwrap 32 (sumZ (map GetLegacySigOpCount txs)) * WITNESS_SCALE_FACTOR)))
        100 "bad-blk-sigops" ] in
  (v, accepted v && fCheckPOW && fCheckMerkleRoot).

(** The witness rules. The first test of the stack decides whether the second
    is made. *)
Definition check_witness (txs : list CTransaction) : verdict :=
  let unexpected := check (negb (existsb HasWitness txs)) 100 "unexpected-witness" in
  if nSegwitEnabled bp then
    match txs, GetWitnessCommitmentIndex txs with
    | cb :: _, Some commitpos =>
        match vin cb with
        | i :: _ =>
            match scriptWitness i with
            | [nonce] =>
                if negb (zlen nonce =? 32) then Reject 100 "bad-witness-nonce-size" else
                let hashWitness := commit_hash (BlockWitnessMerkleRoot txs).1 nonce in
                let script := match vout cb !! commitpos with Some o => scriptPubKey o | None => [] end in
                check (bytes_eqb hashWitness (take 32 (drop 6 script))) 100 "bad-witness-merkle-match"
            | _ => Reject 100 "bad-witness-nonce-size"
            end
        | [] => Reject 100 "bad-witness-nonce-size"
        end
    | _, _ => unexpected
    end
  else unexpected.

(** [ContextualCheckBlock] on top of [pindexPrev]: the outcome, and the stamps
    that the lottery check leaves. *)
Definition ContextualCheckBlock (a : arena) (att : AttestState) (block : CBlock) (pindexPrev : option nat)
    : outcome * AttestState :=
  let txs := vtx block in
  let prev := pindexPrev ≫= (a !!.) in
  let height := match prev with Some e => nHeight e + 1 | None => 0 end in
  let nLockTimeCutoff :=
    match pindexPrev with
    | Some p => if nCSVEnabled bp then index_mtp a p else nTime (block_header block)
    | None => nTime (block_header block)
    end in
  let expect := push_int64 height in
  let coinbase_script := match txs with cb :: _ => match vin cb with i :: _ => scriptSig i | [] => [] end | [] => [] end in
  let v := first_reject
    [ check (forallb (fun tx => IsFinalTx tx height nLockTimeCutoff) txs) 10 "bad-txns-nonfinal";
      check (negb (nBIP34Enabled bp) || bytes_eqb (take (length expect) coinbase_script) expect) 100 "bad-cb-height";
      check_witness txs;
      check (GetBlockWeight kt block <=? GetMaxBlockWeight) 100 "bad-blk-weight" ] in
  match v with
  | Reject d r => (Judged (Reject d r), att)
  | Accept =>
      if 1 <=? height then
        CheckLotteryCoinbase params att txs height
          (match prev with Some e => phashBlock e | None => uint256_null end)
          (genesis_nTime params) (nSubsidyHalvingInterval params)
          (GetBlockSubsidy height (nSubsidyHalvingInterval params))
      else (Judged Accept, att)
  end.

(** [TestBlockValidity]; [None] is a failed assertion of the header checks. *)
Definition TestBlockValidity (a : arena) (hv : HeaderView) (att : AttestState) (block : CBlock) (pindexPrev : nat)
    (fCheckPOW fCheckMerkleRoot : bool) : option (outcome * AttestState) :=
  match ContextualCheckBlockHeader hp a hv (block_header block) pindexPrev with
  | None => None
  | Some (Reject d r) => Some (Judged (Reject d r), att)
  | Some Accept =>
  match (CheckBlock a false block fCheckPOW fCheckMerkleRoot).1 with
  | Reject d r => Some (Judged (Reject d r), att)
  | Accept =>
  match ContextualCheckBlock a att block (Some pindexPrev) with
  | (Judged Accept, att) => Some (Judged (ConnectBlock block), att)
  | other => Some other
  end
  end
  end.
End Checks.

(** ** The commitment *)

Lemma commitment_index_none outs : forall o pos,
  Forall (fun out => is_commitment (scriptPubKey out) = false) outs -> commitment_index outs o pos = pos.
Proof. induction outs as [|x outs IH]; intros o pos Hf; [done|]. inv Hf. cbn [commitment_index]. rewrite H1. by apply IH. Qed.

Lemma commitment_index_snoc outs c : forall o pos,
  is_commitment (scriptPubKey c) = true -> commitment_index (outs ++ [c]) o pos = Some (o + length outs)%nat.
Proof.
  induction outs as [|x outs IH]; intros o pos Hc; cbn [commitment_index app].
  - rewrite Hc. f_equal. cbn. lia.
  - rewrite IH by done. f_equal. cbn. lia.
Qed.

Lemma length_Hash parts : length (sha256.Hash parts) = 32%nat.
Proof. unfold sha256.Hash, sha256.CHash256_Finalize. apply sha256.length_out_bytes. Qed.

Lemma commitment_script_is vtx : is_commitment (commitment_script vtx) = true.
Proof.
  unfold is_commitment, commitment_script, commit_hash. rewrite zlen_app. unfold zlen at 2.
  rewrite length_Hash, take_app_length' by done. by rewrite bytes_eqb_refl.
Qed.

(** A pushed payload with another four-byte mark is no commitment. *)
Lemma push_not_commitment magic rest :
  length magic = 4%nat -> magic <> [0xaa; 0x21; 0xa9; 0xed] -> is_commitment (OP_RETURN :: push (magic ++ rest)) = false.
Proof.
  intros Hl Hm. unfold is_commitment. apply andb_false_intro2, bytes_eqb_neq. unfold push, commitment_prefix.
  destruct magic as [|m0 [|m1 [|m2 [|m3 [|]]]]]; try discriminate Hl. cbn [app].
  case_ifs; cbn [app take firstn le_bytes]; intros E; injection E as E; try discriminate E.
  - apply Hm. congruence.
Qed.

Lemma data_out_not_commitment b script : b <> OP_RETURN -> is_commitment (b :: script) = false.
Proof.
  intros Hb. unfold is_commitment. apply andb_false_intro2, bytes_eqb_neq. unfold commitment_prefix.
  intros E. by injection E as E.
Qed.

Lemma commitment_data vtx :
  op_return_data (commitment_script vtx)
  = Some ([0xaa; 0x21; 0xa9; 0xed] ++ commit_hash (BlockWitnessMerkleRoot vtx).1 witness_nonce).
Proof.
  set (h := commit_hash (BlockWitnessMerkleRoot vtx).1 witness_nonce).
  assert (zlen h = 32) as Hl by (unfold zlen, h, commit_hash; by rewrite length_Hash).
  assert (commitment_script vtx = OP_RETURN :: push ([0xaa; 0x21; 0xa9; 0xed] ++ h)) as ->.
  { unfold push. rewrite zlen_app, Hl. done. }
  apply op_return_data_push. rewrite zlen_app, Hl. done.
Qed.

(** The commitment is none of the outputs the lottery reads. *)
Lemma scan_out_commitment sc v vtx : scan_out sc (mkTxOut v (commitment_script vtx)) = sc.
Proof.
  unfold scan_out, ParseActiveSetCommitment, ParseXvaCommitment, is_xsd. cbn [scriptPubKey].
  rewrite commitment_data. set (h := commit_hash _ _).
  assert (forall m, length m = 4%nat -> m <> [0xaa; 0x21; 0xa9; 0xed] ->
    bytes_eqb (take 4 ([0xaa; 0x21; 0xa9; 0xed] ++ h)) m = false) as Hm.
  { intros m _ Hm. apply bytes_eqb_neq. rewrite take_app_length' by done. congruence. }
  rewrite !Hm by (done || (vm_compute; discriminate)). rewrite !andb_false_r. cbn [negb].
  repeat case_match; simplify_eq; done.
Qed.

Lemma payouts_snoc outs v vtx : payouts (outs ++ [mkTxOut v (commitment_script vtx)]) = payouts outs.
Proof.
  induction outs as [|o outs IH]; [done|]. cbn [payouts app]. rewrite IH. done.
Qed.

Section Facts.
Context `{Secp256k1}.

Lemma lottery_ignores_commitment params att cb cb' v vtx txs h prev g interval subsidy :
  IsCoinBase cb' = IsCoinBase cb -> vout cb' = vout cb ++ [mkTxOut v (commitment_script vtx)] ->
  CheckLotteryCoinbase params att (cb' :: txs) h prev g interval subsidy
  = CheckLotteryCoinbase params att (cb :: txs) h prev g interval subsidy.
Proof.
  intros Hc Ho. unfold CheckLotteryCoinbase. rewrite Hc, Ho, fold_left_app. cbn [fold_left].
  by rewrite scan_out_commitment, payouts_snoc.
Qed.

Lemma lottery_outputs_only params att cb cb' txs h prev g interval subsidy :
  IsCoinBase cb' = IsCoinBase cb -> vout cb' = vout cb ->
  CheckLotteryCoinbase params att (cb' :: txs) h prev g interval subsidy
  = CheckLotteryCoinbase params att (cb :: txs) h prev g interval subsidy.
Proof. intros Hc Ho. unfold CheckLotteryCoinbase. by rewrite Hc, Ho. Qed.

(** What the commitment makes of a coinbase with one input and no witness. *)
Lemma Generate_spec segwit cb i txs :
  vin cb = [i] -> scriptWitness i = [] -> Forall (fun o => is_commitment (scriptPubKey o) = false) (vout cb) ->
  GenerateCoinbaseCommitment segwit (cb :: txs) =
    if segwit then
      mkTx (tx_nVersion cb) [mkTxIn (prevout i) (scriptSig i) (nSequence i) [witness_nonce]]
        (vout cb ++ [mkTxOut 0 (commitment_script (cb :: txs))]) (nLockTime cb) :: txs
    else cb :: txs.
Proof.
  intros Hi Hw Hf. unfold GenerateCoinbaseCommitment, GetWitnessCommitmentIndex.
  rewrite commitment_index_none by done. unfold UpdateUncommittedBlockStructures, GetWitnessCommitmentIndex.
  destruct segwit; [|by rewrite commitment_index_none].
  cbn [add_out vout]. rewrite commitment_index_snoc by apply commitment_script_is.
  unfold HasWitness. cbn [add_out vin]. rewrite Hi. cbn [existsb]. rewrite Hw. cbn [negb orb zlen length andb].
  unfold set_nonce. cbn [add_out vin vout tx_nVersion nLockTime]. by rewrite Hi.
Qed.
End Facts.

(** ** An assembled block passes *)
Section Assembled.
Context `{Secp256k1} `{!Secp256k1Laws _}.
Context (hp : HeaderParams) (bp : BlockParams).

Lemma coinbase_outs_plain env att r nHeight prev g interval subsidy nFees ps :
  let draw := ComputeDraw env att r nHeight prev g interval subsidy in
  reg_ok r -> payable r -> 0 < subsidy -> 0 <= nFees -> d_winners draw <> [] -> zlen (d_active draw) <= 1024 ->
  Forall (fun o => is_commitment (scriptPubKey o) = false)
    (coinbase_outs env att r draw nHeight prev subsidy nFees ps).
Proof.
  cbv zeta. intros Hr Hpay Hsub Hfee Hne Hn.
  destruct (draw_outs_ok env att r nHeight prev g interval subsidy nFees ps) as (_ & Hwo & _ & _ & ->); [done..|].
  apply Forall_app. split.
  - eapply Forall_impl; [exact Hwo|]. intros [v script] (Hs & Hd & _). cbn [scriptPubKey] in *.
    destruct script as [|b script]; [done|]. apply data_out_not_commitment. by apply Z.eqb_neq.
  - unfold data_outs. constructor; [by apply push_not_commitment; [|vm_compute; discriminate]|].
    destruct (RequireXAttestation _); [|constructor].
    constructor; [by apply push_not_commitment; [|vm_compute; discriminate]|].
    unfold MakeSeedBlockCommitment. cbv zeta. destruct (negb (CKey_IsValid _)); [constructor|].
    destruct (SignCompact _ _) as [sig|]; [|constructor]. destruct (negb (zlen sig =? 65)); [constructor|].
    cbn [zlen length negb]. destruct (negb _); [|constructor].
    constructor; [by apply push_not_commitment; [|vm_compute; discriminate]|constructor].
Qed.

(** A block with a committed coinbase that the lottery accepts, with final
    transactions and within the weight limit, passes the contextual checks. *)
Lemma committed_block_ok params a att hdr p prev cb i txs :
  let h := nHeight prev + 1 in
  let block := mkBlock hdr (GenerateCoinbaseCommitment (nSegwitEnabled bp) (cb :: txs)) in
  a !! p = Some prev -> 1 <= h ->
  vin cb = [i] -> scriptWitness i = [] -> nLockTime cb = 0 ->
  take (length (push_int64 h)) (scriptSig i) = push_int64 h ->
  Forall (fun o => is_commitment (scriptPubKey o) = false) (vout cb) ->
  forallb (fun tx => IsFinalTx tx h (if nCSVEnabled bp then index_mtp a p else nTime hdr)) txs = true ->
  (nSegwitEnabled bp = false -> existsb HasWitness txs = false) ->
  GetBlockWeight (nKAWPOWActivationTime (hp_pow hp)) block <= GetMaxBlockWeight ->
  (ContextualCheckBlock hp bp params a att block (Some p)).1
  = (CheckLotteryCoinbase params att (cb :: txs) h (phashBlock prev) (genesis_nTime params)
       (nSubsidyHalvingInterval params) (GetBlockSubsidy h (nSubsidyHalvingInterval params))).1.
Proof.
  intros h block Hp Hh Hi Hw Hlock Hsig Hplain Hfinal Hnowit Hweight.
  assert (Hblock : vtx block = GenerateCoinbaseCommitment (nSegwitEnabled bp) (cb :: txs)) by done.
  pose proof (Generate_spec (nSegwitEnabled bp) cb i txs Hi Hw Hplain) as Hg. rewrite Hg in Hblock.
  unfold ContextualCheckBlock. cbn [mbind option_bind]. rewrite Hp. cbv zeta. fold h.
  rewrite (proj2 (Z.leb_le _ _) Hweight), Hblock. change (nTime (block_header block)) with (nTime hdr).
  destruct (Z.leb_spec 1 h); [|lia]. destruct (nSegwitEnabled bp) eqn:Eseg.
  - set (cb' := mkTx _ _ _ _).
    assert (forallb (fun tx => IsFinalTx tx h (if nCSVEnabled bp then index_mtp a p else nTime hdr)) (cb' :: txs) = true) as ->.
    { cbn [forallb]. rewrite Hfinal. unfold IsFinalTx. cbn [cb' nLockTime]. by rewrite Hlock. }
    cbn [cb' vin scriptSig]. rewrite Hsig, bytes_eqb_refl, orb_true_r. fold cb'.
    assert (check_witness bp (cb' :: txs) = Accept) as ->.
    { unfold check_witness, GetWitnessCommitmentIndex. rewrite Eseg. cbn [cb' vout vin scriptWitness].
      rewrite commitment_index_snoc by apply commitment_script_is. cbn [zlen length witness_nonce repeat negb Nat.add].
      change (BlockWitnessMerkleRoot (_ :: txs)) with (BlockWitnessMerkleRoot (cb :: txs)).
      rewrite lookup_app_r, Nat.sub_diag by lia. cbn [lookup list_lookup scriptPubKey].
      unfold commitment_script. rewrite drop_app_length' by done.
      rewrite take_ge by (unfold commit_hash; by rewrite length_Hash). by rewrite bytes_eqb_refl. }
    cbn [check first_reject].
    rewrite (lottery_ignores_commitment params att cb cb' 0 (cb :: txs)); [done| |done].
    unfold IsCoinBase. cbn [cb' vin prevout]. by rewrite Hi.
  - assert (forallb (fun tx => IsFinalTx tx h (if nCSVEnabled bp then index_mtp a p else nTime hdr)) (cb :: txs) = true) as ->.
    { cbn [forallb]. rewrite Hfinal. unfold IsFinalTx. by rewrite Hlock. }
    rewrite Hi, Hsig, bytes_eqb_refl, orb_true_r.
    assert (check_witness bp (cb :: txs) = Accept) as ->.
    { unfold check_witness. rewrite Eseg. cbn [existsb]. rewrite Hnowit by done. unfold HasWitness. rewrite Hi.
      cbn [existsb]. by rewrite Hw. }
    done.
Qed.
End Assembled.
