(* ===== verification/CheckTx.v ===== *)
(** * CheckTransaction

    [CheckTransaction] of src/src/consensus/tx_verify.cpp: the checks of one
    transaction that do not need the coins it spends. They do read the X-account
    assignments, which are global to the process, and the memory pool. The
    deployments it asks for are active from the genesis block on. *)

From S2P Require Import Prelude OrdMap Sha256 Script Serialize Slots Tx Handle Base58 Regex AssetNames AssetScripts AssetTx XNames XClaim XAssign VerifyAssets.
From S2P Require Import Chain Pow Headers Blocks.

Local Open Scope string_scope.
Local Open Scope list_scope.
Local Open Scope Z_scope.

(** [CScript::Find] *)
Fixpoint find_op (fuel : nat) (op : Z) (pc : bytes) : Z :=
  match fuel with
  | O => 0
  | S fuel =>
      match GetOp2 pc with
      | None => 0
      | Some r => (if op_code r =? op then 1 else 0) + find_op fuel op (op_rest r)
      end
  end.
Definition script_Find (op : Z) (s : CScript) : Z := find_op (length s) op s.

(** What the loop over the outputs gathers: the value, the names transferred, the
    names with their addresses of the null data, the names of global changes, a
    verifier string seen, the tags added. *)
Record out_state := mkOuts {
  os_nValueOut : Z;
  os_setAssetTransferNames : list bytes;
  os_mapNullDataTxCount : omap bytes (list bytes);
  os_setNullGlobalAssetChanges : omap bytes unit;
  os_fContainsNullAssetVerifierTx : bool;
  os_nCountAddTagOuts : Z;
}.
Definition reject {A} (dos : Z) (reason : string) : result A (Z * string) := Err (dos, reason).

Section CheckTransaction.
Variable ap : AssetParams.
(** The public test network. *)
Variable testnet : bool.
Variable st : XState.
Variable pool : XPool.

(** The null data of an output. *)
Definition null_data_out (txout : CTxOut) (s : out_state) : result out_state (Z * string) :=
  let script := scriptPubKey txout in
  if negb (IsNullAsset script) then Ok s else
  if IsNullAssetTxDataScript script then
    match AssetNullDataFromScript ap script with
    | None => reject 100 "bad-txns-null-asset-data-serialization"
    | Some (data, address) =>
        match VerifyNullAssetDataFlag (nd_flag data) with
        | Some e => reject 100 e
        | None =>
            let seen := default [] (om_find (nd_asset_name data) (os_mapNullDataTxCount s)) in
            if existsb (bytes_eqb address) seen then reject 100 "bad-txns-null-data-only-one-change-per-asset-address" else
            let tag := if IsAssetNameAQualifier (nd_asset_name data) false && (nd_flag data =? 1) then 1 else 0 in
            Ok (mkOuts (os_nValueOut s) (os_setAssetTransferNames s)
                  (om_insert (nd_asset_name data) (address :: seen) (os_mapNullDataTxCount s))
                  (os_setNullGlobalAssetChanges s) (os_fContainsNullAssetVerifierTx s) (os_nCountAddTagOuts s + tag))
        end
    end
  else if IsNullGlobalRestrictionAssetTxDataScript script then
    match GlobalAssetNullDataFromScript ap script with
    | None => reject 100 "bad-txns-null-global-asset-data-serialization"
    | Some data =>
        match VerifyNullAssetDataFlag (nd_flag data) with
        | Some e => reject 100 e
        | None =>
            if om_mem (nd_asset_name data) (os_setNullGlobalAssetChanges s)
            then reject 100 "bad-txns-null-data-only-one-global-change-per-asset-name"
            else Ok (mkOuts (os_nValueOut s) (os_setAssetTransferNames s) (os_mapNullDataTxCount s)
                       (om_insert (nd_asset_name data) tt (os_setNullGlobalAssetChanges s))
                       (os_fContainsNullAssetVerifierTx s) (os_nCountAddTagOuts s))
        end
    end
  else if IsNullAssetVerifierTxDataScript script then
    match CheckVerifierAssetTxOut ap txout with
    | Some e => reject 100 e
    | None =>
        if os_fContainsNullAssetVerifierTx s then reject 100 "bad-txns-null-data-only-one-verifier-per-tx"
        else Ok (mkOuts (os_nValueOut s) (os_setAssetTransferNames s) (os_mapNullDataTxCount s)
                   (os_setNullGlobalAssetChanges s) true (os_nCountAddTagOuts s))
    end
  else Ok s.

Variables fCheckDuplicateInputs fMempoolCheck fBlockCheck : bool.

(** The asset script of an output. *)
Definition asset_out (txout : CTxOut) (s : out_state) : result out_state (Z * string) :=
  match IsAssetScript (scriptPubKey txout) with
  | None => Ok s
  | Some (TX_TRANSFER_ASSET, _, _) =>
      match TransferAssetFromScript ap (scriptPubKey txout) with
      | None => reject 100 "bad-txns-transfer-asset-bad-deserialize"
      | Some (transfer, _) =>
          let name := tr_strName transfer in
          let s := mkOuts (os_nValueOut s) (name :: os_setAssetTransferNames s) (os_mapNullDataTxCount s)
                     (os_setNullGlobalAssetChanges s) (os_fContainsNullAssetVerifierTx s) (os_nCountAddTagOuts s) in
          let assetType := name_type name in
          if negb (name_valid name) then reject 100 "bad-txns-transfer-asset-name-invalid" else
          if IsAssetNameAnOwner name && negb (tr_nAmount transfer =? OWNER_ASSET_AMOUNT) then reject 100 "bad-txns-transfer-owner-amount-was-not-1" else
          if is_type assetType [UNIQUE] && negb (tr_nAmount transfer =? UNIQUE_ASSET_AMOUNT) then reject 100 "bad-txns-transfer-unique-amount-was-not-1" else
          if is_type assetType [QUALIFIER; SUB_QUALIFIER] &&
             ((tr_nAmount transfer <? QUALIFIER_ASSET_MIN_AMOUNT) || (QUALIFIER_ASSET_MAX_AMOUNT <? tr_nAmount transfer))
          then reject 100 "bad-txns-transfer-qualifier-amount-must be between 1 - 100" else
          if negb (nValue txout =? 0) then reject 100 "bad-txns-asset-transfer-amount-isn't-zero" else Ok s
      end
  | Some (TX_NEW_ASSET, _, _) =>
      if negb (nValue txout =? 0) then reject 100 "bad-txns-asset-issued-amount-isn't-zero" else Ok s
  | Some (TX_REISSUE_ASSET, _, _) =>
      if fBlockCheck && negb (nValue txout =? 0) then reject 0 "bad-txns-asset-reissued-amount-isn't-zero" else
      if fMempoolCheck && negb (nValue txout =? 0) then reject 0 "bad-mempool-txns-asset-reissued-amount-isn't-zero" else Ok s
  | Some _ => reject 0 "bad-asset-type-not-any-of-the-main-three"
  end.

Definition check_out (txout : CTxOut) (s : out_state) : result out_state (Z * string) :=
  if nValue txout <? 0 then reject 100 "bad-txns-vout-negative" else
  if MAX_MONEY <? nValue txout then reject 100 "bad-txns-vout-toolarge" else
  let nValueOut := os_nValueOut s + nValue txout in
  if negb (MoneyRange nValueOut) then reject 100 "bad-txns-txouttotal-toolarge" else
  let s := mkOuts nValueOut (os_setAssetTransferNames s) (os_mapNullDataTxCount s) (os_setNullGlobalAssetChanges s)
             (os_fContainsNullAssetVerifierTx s) (os_nCountAddTagOuts s) in
  match null_data_out txout s with
  | Err e => Err e
  | Ok s => asset_out txout s
  end.
Fixpoint check_outs (outs : list CTxOut) (s : out_state) : result out_state (Z * string) :=
  match outs with
  | [] => Ok s
  | o :: outs => match check_out o s with Ok s => check_outs outs s | Err e => Err e end
  end.

Definition transferred (s : out_state) (name : bytes) : bool := existsb (bytes_eqb name) (os_setAssetTransferNames s).
(** Null data only beside a transfer of the token that allows it. *)
Definition null_data_backed (s : out_state) : verdict :=
  first_reject (map (fun name =>
    if List.hd 0 name =? RESTRICTED_CHAR
    then check (transferred s (drop 1 name ++ OWNER_TAG)) 100 "bad-txns-tx-contains-restricted-asset-null-tx-without-asset-transfer"
    else check (transferred s name) 100 "bad-txns-tx-contains-qualifier-asset-null-tx-without-asset-transfer")
    (om_keys (os_mapNullDataTxCount s))).
Definition global_changes_backed (s : out_state) : verdict :=
  first_reject (map (fun name =>
    if zlen name =? 0 then Reject 100 "bad-txns-tx-contains-global-asset-null-tx-with-null-asset-name"
    else check (transferred s (drop 1 name ++ OWNER_TAG)) 100 "bad-txns-tx-contains-global-asset-null-tx-without-asset-transfer")
    (om_keys (os_setNullGlobalAssetChanges s))).

Fixpoint distinct_prevouts (seen : list COutPoint) (ins : list CTxIn) : bool :=
  match ins with
  | [] => true
  | i :: ins => negb (existsb (outpoint_eqb (prevout i)) seen) && distinct_prevouts (prevout i :: seen) ins
  end.

Definition coinbase_or_inputs (tx : CTransaction) : verdict :=
  match vin tx with
  | [i] =>
      if COutPoint_IsNull (prevout i) then
        first_reject
          [ check ((2 <=? zlen (scriptSig i)) && (zlen (scriptSig i) <=? 100)) 100 "bad-cb-length";
            check (negb (existsb (fun o => is_asset_script (scriptPubKey o) || IsNullAsset (scriptPubKey o)) (vout tx)))
              0 "bad-txns-coinbase-contains-asset-txes" ]
      else Accept
  | ins => check (negb (existsb (fun i => COutPoint_IsNull (prevout i)) ins)) 10 "bad-txns-prevout-null"
  end.

Definition reason (e : option string) : verdict := match e with None => Accept | Some e => Reject 100 e end.
Definition reason_after (p : string) (e : option string) : verdict :=
  match e with None => Accept | Some e => Reject 100 (String.append p e) end.

(** Qualifiers, restricted assets, and transactions that issue nothing. *)
Definition late_rules (tx : CTransaction) : verdict * bool * bool :=
  if tx_IsNewQualifierAsset ap tx then
    (first_reject
       [ reason (VerifyNewQualfierAsset ap tx);
         match QualifierAssetFromTransaction ap tx with
         | None => Reject 100 "bad-txns-issue-qualifier-from-transaction"
         | Some (asset, _) => reason_after "bad-txns-issue-qualfier" (CheckNewAsset asset)
         end ], false, false)
  else if tx_IsNewRestrictedAsset ap tx then
    (first_reject
       [ reason (VerifyNewRestrictedAsset ap tx);
         match RestrictedAssetFromTransaction ap tx with
         | None => Reject 100 "bad-txns-issue-restricted-from-transaction"
         | Some (asset, _) => reason_after "bad-txns-issue-restricted" (CheckNewAsset asset)
         end;
         match GetVerifierStringFromTx ap tx with
         | Ok (Some _) => Accept
         | Ok None => Reject 100 "bad-txns-issue-restricted-verifier-search-Verifier string not found"
         | Err e => Reject 100 (String.append "bad-txns-issue-restricted-verifier-search-" e)
         end ], false, true)
  else
    (first_reject (map (fun o =>
       match IsAssetScript (scriptPubKey o) with
       | Some (TX_TRANSFER_ASSET, _, _) => Accept
       | Some _ => Reject 100 "bad-txns-bad-asset-transaction"
       | None =>
           check ((script_Find OP_RVN_ASSET (scriptPubKey o) =? 0) || (List.hd 0 (scriptPubKey o) =? OP_RVN_ASSET))
             100 "bad-txns-op-rvn-asset-not-in-right-script-location"
       end) (vout tx)), false, false).

(** The rules of the kind of asset transaction it is, and the flags it sets: a
    restricted asset reissued, a restricted asset issued. *)
Definition asset_rules (tx : CTransaction) : verdict * bool * bool :=
  if tx_IsNewAsset ap tx then
    (first_reject
       [ reason (VerifyNewAsset ap st pool tx);
         match AssetFromTransaction ap tx with
         | None => Reject 100 "bad-txns-issue-asset-from-transaction"
         | Some (asset, address) =>
             first_reject [ reason (IsNewOwnerTxValid ap tx (strName asset) address); reason (CheckNewAsset asset) ]
         end ], false, false)
  else if tx_IsReissueAsset tx then
    match VerifyReissueAsset ap tx with
    | Some e => (Reject 100 e, false, false)
    | None =>
        match ReissueAssetFromTransaction ap tx with
        | None => (Reject 100 "bad-txns-reissue-asset", false, false)
        | Some (reissue, _) =>
            match CheckReissueAsset testnet reissue with
            | Some e => (Reject 100 e, false, false)
            | None =>
                if is_type (name_type (re_strName reissue)) [RESTRICTED] then
                  match GetVerifierStringFromTx ap tx with
                  | Err e => (Reject 100 (String.append "bad-txns-reissue-restricted-verifier-" e), false, false)
                  | Ok _ => (Accept, true, false)
                  end
                else (Accept, false, false)
            end
        end
    end
  else if tx_IsNewUniqueAsset ap tx then
    (first_reject
       [ reason (VerifyNewUniqueAsset ap tx);
         first_reject (map (fun o =>
           if IsScriptNewUniqueAsset ap (scriptPubKey o) then
             match AssetFromScript ap (scriptPubKey o) with
             | None => Reject 100 "bad-txns-check-transaction-issue-unique-asset-serialization"
             | Some (asset, _) => reason_after "bad-txns-issue-unique" (CheckNewAsset asset)
             end
           else Accept) (vout tx)) ], false, false)
  else if tx_IsNewMsgChannelAsset ap tx then
    (first_reject
       [ reason (VerifyNewMsgChannelAsset ap tx);
         match MsgChannelAssetFromTransaction ap tx with
         | None => Reject 100 "bad-txns-issue-msgchannel-from-transaction"
         | Some (asset, _) => reason_after "bad-txns-issue-msgchannel" (CheckNewAsset asset)
         end ], false, false)
  else late_rules tx.

Definition CheckTransaction (tx : CTransaction) : verdict :=
  if zlen (vin tx) =? 0 then Reject 10 "bad-txns-vin-empty" else
  if zlen (vout tx) =? 0 then Reject 10 "bad-txns-vout-empty" else
  if GetMaxBlockWeight <? zlen (SerializeTransaction false tx) * WITNESS_SCALE_FACTOR then Reject 100 "bad-txns-oversize" else
  match check_outs (vout tx) (mkOuts 0 [] [] [] false 0) with
  | Err (dos, e) => Reject dos e
  | Ok s =>
      let '(v, fContainsRestrictedAssetReissue, fContainsNewRestrictedAsset) := asset_rules tx in
      first_reject
        [ check ((os_nCountAddTagOuts s =? 0) || CheckAddingTagBurnFee ap tx (os_nCountAddTagOuts s))
            100 "bad-txns-tx-doesn't-contain-required-burn-fee-for-adding-tags";
          null_data_backed s;
          global_changes_backed s;
          check (negb fCheckDuplicateInputs || distinct_prevouts [] (vin tx)) 100 "bad-txns-inputs-duplicate";
          coinbase_or_inputs tx;
          v;
          check (negb (os_fContainsNullAssetVerifierTx s && negb fContainsRestrictedAssetReissue && negb fContainsNewRestrictedAsset))
            100 "bad-txns-tx-cointains-verifier-string-without-restricted-asset-issuance-or-reissuance";
          check (negb (fContainsNewRestrictedAsset && negb (os_fContainsNullAssetVerifierTx s)))
            100 "bad-txns-tx-cointains-restricted-asset-issuance-without-verifier";
          reason (CheckXAccountDummyInputs ap tx) ]
  end.

End CheckTransaction.

(** ** Lemmas *)

Lemma first_error_none {A} (l : list (option A)) : first_error l = None <-> Forall (fun e => e = None) l.
Proof.
  induction l as [|[e|] l IH]; cbn; [split; [constructor|done]| |].
  - split; [done|]. intros H. by inv H.
  - rewrite IH. split; [by constructor|]. intros H. by inv H.
Qed.
Lemma need_none ok e : need ok e = None <-> ok = true.
Proof. by destruct ok. Qed.
Lemma reason_accept e : reason e = Accept <-> e = None.
Proof. by destruct e. Qed.
Lemma reason_after_accept p e : reason_after p e = Accept <-> e = None.
Proof. by destruct e. Qed.

Ltac errors H :=
  apply first_error_none in H; repeat (apply Forall_cons in H as [? H]);
  repeat match goal with E : need _ _ = None |- _ => apply need_none in E end.

Ltac not_in H := repeat (apply elem_of_cons in H as [H|H]; [discriminate H|]); by apply elem_of_nil in H.

Ltac one_of H := repeat (apply elem_of_cons in H as [->|H]; [by repeat constructor|]); by apply elem_of_nil in H.

Lemma is_type_iff t ts : is_type t ts = true <-> t ∈ ts.
Proof.
  unfold is_type. rewrite existsb_exists. split.
  - intros (u & Hu & ->%bool_decide_eq_true). by apply list_elem_of_In.
  - intros H%list_elem_of_In. exists t. split; [done|]. by apply bool_decide_eq_true.
Qed.

(** The counts of [GetTxOutAssetTypes]. *)
Definition is_issue (o : CTxOut) : bool := CheckIssueDataTx o.

Lemma CheckIssueDataTx_iff o : CheckIssueDataTx o = true <-> exists n, IsAssetScript (scriptPubKey o) = Some (TX_NEW_ASSET, false, n).
Proof.
  unfold CheckIssueDataTx, IsScriptNewAsset. rewrite bool_decide_eq_true. destruct (IsAssetScript (scriptPubKey o)) as [[[[] []] n]|];
    (split; [intros [x H]; try discriminate H; try (by eexists)|intros [x H]; try discriminate H; try (by eexists)]).
Qed.

Lemma count_issues outs : nIssues (GetTxOutAssetTypes outs) = zlen (filter (fun o => is_issue o = true) outs).
Proof.
  unfold GetTxOutAssetTypes. assert (H : forall c, nIssues (fold_left count_out outs c) = nIssues c + zlen (filter (fun o => is_issue o = true) outs)); [|by rewrite H].
  induction outs as [|o outs IH]; intros c; [rewrite filter_nil; change (zlen (@nil CTxOut)) with 0; cbn; lia|]. cbn [fold_left]. rewrite IH, filter_cons. unfold is_issue at 3.
  destruct (decide (CheckIssueDataTx o = true)) as [Ho|Ho].
  - rewrite zlen_cons. apply CheckIssueDataTx_iff in Ho as [n Ho]. unfold count_out. rewrite Ho. cbn. lia.
  - assert (nIssues (count_out c o) = nIssues c) as ->; [|lia]. unfold count_out.
    destruct (IsAssetScript (scriptPubKey o)) as [[[[] []] n]|] eqn:E; try done. exfalso. apply Ho, CheckIssueDataTx_iff. by exists n.
Qed.

Lemma one_issue outs o o' : nIssues (GetTxOutAssetTypes outs) = 1 -> o ∈ outs -> o' ∈ outs -> is_issue o = true -> is_issue o' = true -> o = o'.
Proof.
  rewrite count_issues. intros Hn Ho Ho' Hi Hi'. assert (o ∈ filter (fun o => is_issue o = true) outs) as H by (by apply list_elem_of_filter).
  assert (o' ∈ filter (fun o => is_issue o = true) outs) as H' by (by apply list_elem_of_filter). unfold zlen in Hn.
  destruct (filter (fun o => is_issue o = true) outs) as [|a [|]]; cbn in Hn; [lia| |lia]. apply list_elem_of_singleton in H, H'. congruence.
Qed.

Lemma last_out_in tx o : last_out tx = Some o -> o ∈ vout tx.
Proof. apply list_elem_of_lookup_2. Qed.

Section Accepted.
Variable ap : AssetParams.
Variable testnet : bool.
Variable st : XState.
Variable pool : XPool.

(** What allows an output that issues [asset]. *)
Definition issue_allowed (tx : CTransaction) (asset : CNewAsset) : Prop :=
  CheckNewAsset asset = None /\
  match name_type (strName asset) with
  | ROOT => burns ap tx ROOT 1 = false /\
            exists xid, ParseXAccountAssignment tx = Some xid /\
              (CheckIfXAccountAssigned st pool xid = None \/ CheckIfXAccountAssigned st pool xid = Some (strName asset))
  | SUB => burns ap tx SUB 1 = true /\ transfers_of ap (vout tx) (GetParentName (strName asset) ++ OWNER_TAG) = true
  | UNIQUE => (exists n, burns ap tx UNIQUE n = true) /\ transfers_of ap (vout tx) (GetParentName (strName asset) ++ OWNER_TAG) = true
  | MSGCHANNEL => burns ap tx MSGCHANNEL 1 = true /\
      (transfers_of ap (vout tx) (GetParentName (strName asset) ++ OWNER_TAG) = true \/ tx_IsNewAsset ap tx = true)
  | _ => False
  end.

Lemma CheckNewAsset_types a : CheckNewAsset a = None ->
  name_valid (strName a) = true /\ name_type (strName a) ∉ [RESTRICTED; QUALIFIER; SUB_QUALIFIER].
Proof.
  intros H. unfold CheckNewAsset in H. cbv zeta in H. apply first_error_none in H. apply Forall_cons in H as [H1 H]. apply Forall_cons in H as [H2 _].
  apply need_none in H1, H2. split; [done|]. intros Hin%is_type_iff. by rewrite Hin in H2.
Qed.

Lemma AssetFromScript_issue o a addr : AssetFromScript ap (scriptPubKey o) = Some (a, addr) -> is_issue o = true.
Proof.
  unfold AssetFromScript, from_script, is_issue, CheckIssueDataTx. destruct (IsScriptNewAsset (scriptPubKey o)); [|done]. intros _. by apply bool_decide_eq_true_2.
Qed.
Lemma script_type_iff wanted s a addr : AssetFromScript ap s = Some (a, addr) ->
  script_new_type ap wanted s = name_valid (strName a) && wanted (name_type (strName a)).
Proof. unfold script_new_type, name_valid, name_type. intros ->. by destruct (IsAssetNameValid (strName a)). Qed.

Lemma burns_none tx type n : type ∈ [REISSUE; VOTE; OWNER; INVALID] -> burns ap tx type n = false.
Proof.
  intros H. apply not_true_iff_false. unfold burns. rewrite existsb_exists. intros (o & _ & Ho). unfold CheckIssueBurnTx in Ho.
  destruct type; (discriminate Ho || not_in H).
Qed.
Lemma name_type_never n : name_type n <> NULL_ADD_QUALIFIER.
Proof.
  unfold name_type, IsAssetNameValid, typed. case_ifs; done.
Qed.

Lemma new_asset_issue tx data a addr : tx_IsNewAsset ap tx = true -> last_out tx = Some data -> AssetFromScript ap (scriptPubKey data) = Some (a, addr) ->
  VerifyNewAsset ap st pool tx = None -> CheckNewAsset a = None ->
  issue_allowed tx a /\ nIssues (GetTxOutAssetTypes (vout tx)) = 1.
Proof.
  intros Hnew Hdata Ha Hv Hc. destruct (CheckNewAsset_types a Hc) as [Hvalid Htype]. unfold VerifyNewAsset in Hv.
  destruct (zlen (vout tx) <? 3); [done|]. rewrite Hdata in Hv. destruct (owner_out tx) as [own|]; [|done].
  destruct (CheckIssueDataTx data); [|done]. destruct (CheckOwnerDataTx own); [|done]. rewrite Ha in Hv. cbn [negb] in Hv. cbv zeta in Hv.
  destruct (OwnerAssetFromScript ap (scriptPubKey own)) as [[on oa]|]; [|done]. apply first_error_none in Hv.
  apply Forall_cons in Hv as [_ Hv]. apply Forall_cons in Hv as [Hroot Hv]. apply Forall_cons in Hv as [Hsub Hv]. apply Forall_cons in Hv as [Hcount _].
  apply need_none in Hcount. rewrite !andb_true_iff in Hcount. destruct Hcount as [[_ Hi%Z.eqb_eq] _]. unfold issue_allowed.
  split; [|done]. split; [done|].
  assert (Hu : name_type (strName a) <> UNIQUE).
  { intros E. unfold tx_IsNewAsset in Hnew. destruct (zlen (vout tx) <? 3); [done|]. rewrite Hdata in Hnew. cbn [on_out] in Hnew.
    destruct (CheckIssueDataTx data); [|done]. destruct (on_out false (owner_out tx) CheckOwnerDataTx); [|done]. cbn [negb] in Hnew.
    unfold IsScriptNewUniqueAsset in Hnew. by rewrite (script_type_iff _ _ _ _ Ha), Hvalid, E in Hnew. }
  pose proof (name_type_never (strName a)) as Hnever.
  assert (Hr : is_type (name_type (strName a)) [ROOT] = bool_decide (ROOT = name_type (strName a))) by apply orb_false_r.
  assert (Hs : is_type (name_type (strName a)) [SUB] = bool_decide (SUB = name_type (strName a))) by apply orb_false_r.
  rewrite Hr in Hroot. rewrite Hs in Hsub. clear Ha Hr Hs.
  destruct (name_type (strName a)); rewrite ?bool_decide_eq_true_2, ?bool_decide_eq_false_2 in Hroot, Hsub by done;
    try (exfalso; apply Htype; by repeat constructor); try done.
  - destruct (burns ap tx ROOT 1); [discriminate Hroot|]. split; [done|]. destruct (ParseXAccountAssignment tx) as [xid|]; [|discriminate Hroot]. exists xid. split; [done|].
    destruct (CheckIfXAccountAssigned st pool xid) as [ex|]; [right|by left]. apply need_none, bytes_eqb_eq in Hroot. by subst.
  - apply need_none in Hroot, Hsub. by split.
  - apply need_none in Hroot. split; [done|by right].
  - apply need_none in Hroot. rewrite burns_none in Hroot; [done|by repeat constructor].
  - apply need_none in Hroot. rewrite burns_none in Hroot; [done|by repeat constructor].
  - apply need_none in Hroot. rewrite burns_none in Hroot; [done|by repeat constructor].
  - apply need_none in Hroot. rewrite burns_none in Hroot; [done|by repeat constructor].
Qed.

Lemma filter_all {A} (p q : A -> bool) (l : list A) : (forall x, p x = true -> q x = true) ->
  zlen (filter (fun x => q x = true) l) = zlen (filter (fun x => p x = true) l) -> forall x, x ∈ l -> q x = true -> p x = true.
Proof.
  intros Hpq. assert (Hle : forall l, zlen (filter (fun x => p x = true) l) <= zlen (filter (fun x => q x = true) l)).
  { clear l. induction l as [|x l IH]; [done|]. rewrite !filter_cons. destruct (decide (p x = true)) as [Hp|Hp]; destruct (decide (q x = true)) as [Hq|Hq]; rewrite ?zlen_cons; try lia.
    exfalso. by apply Hq, Hpq. }
  induction l as [|y l IH]; [by intros _ ? ?%elem_of_nil|]. rewrite !filter_cons. specialize (Hle l).
  destruct (decide (p y = true)) as [Hp|Hp]; destruct (decide (q y = true)) as [Hq|Hq]; rewrite ?zlen_cons; intros E x Hx Hqx.
  - apply elem_of_cons in Hx as [->|Hx]; [done|]. apply IH; [lia|done..].
  - exfalso. by apply Hq, Hpq.
  - lia.
  - apply elem_of_cons in Hx as [->|Hx]; [done|]. by apply IH.
Qed.

Lemma unique_parent name : name_valid name = true -> name_type name = UNIQUE -> GetParentName name <> [].
Proof.
  unfold name_valid, name_type. destruct (IsAssetNameValid name) as [ok ty] eqn:E. cbn [fst snd]. intros -> ->. unfold GetParentName. rewrite E.
  unfold IsAssetNameValid in E. destruct (48 <? zlen name); [done|]. destruct (regex_match name UNIQUE_INDICATOR) eqn:Em.
  - clear E. apply regex_match_spec in Em. unfold UNIQUE_INDICATOR in Em. apply matches_tagged in Em as (a & b & -> & Ha & Hpa & _ & Hpb).
    rewrite before_last_app; [by destruct a|]. by apply (forallb_not_in in_tag).
  - exfalso. unfold typed in E. revert E. clear. case_ifs; intros [=].
Qed.

Lemma unique_outs_spec outs : forall root names n r m, unique_outs ap outs root names n = Ok (r, m) ->
  m = n + zlen (filter (fun o => IsScriptNewUniqueAsset ap (scriptPubKey o) = true) outs) /\ (root <> [] -> r = root) /\
  forall o a addr, o ∈ outs -> AssetFromScript ap (scriptPubKey o) = Some (a, addr) -> name_valid (strName a) = true -> name_type (strName a) = UNIQUE ->
    GetParentName (strName a) = r.
Proof.
  induction outs as [|o outs IH]; intros root names n r m; cbn [unique_outs].
  { intros [= -> ->]. rewrite filter_nil. change (zlen (@nil CTxOut)) with 0. split; [lia|]. split; [done|]. by intros o a addr ?%elem_of_nil. }
  rewrite filter_cons. destruct (decide (IsScriptNewUniqueAsset ap (scriptPubKey o) = true)) as [Hu|Hu].
  - rewrite Hu. cbn [negb]. destruct (AssetFromScript ap (scriptPubKey o)) as [[a addr]|] eqn:Ea; [|done].
    pose proof Hu as Hu'. unfold IsScriptNewUniqueAsset in Hu'. rewrite (script_type_iff _ _ _ _ Ea) in Hu'. apply andb_true_iff in Hu' as [Hv Ht%bool_decide_eq_true].
    set (rt := if zlen root =? 0 then GetParentName (strName a) else root). destruct (bytes_eqb rt (GetParentName (strName a))) eqn:Eb; [|done]. cbn [negb].
    destruct (existsb _ names); [done|]. intros (Hm & Hr & Ho)%IH. apply bytes_eqb_eq in Eb. pose proof (unique_parent _ Hv Ht) as Hne.
    specialize (Hr ltac:(congruence)). rewrite zlen_cons. split; [lia|]. split.
    + intros Hroot. subst r rt. destruct (Z.eqb_spec (zlen root) 0) as [E0|]; [apply zlen_0_nil in E0; done|done].
    + intros o' a' addr' [->|Hin]%elem_of_cons Ha' Hv' Ht'; [|by apply (Ho o' a' addr')]. rewrite Ea in Ha'. injection Ha' as <- <-. congruence.
  - apply not_true_iff_false in Hu. rewrite Hu. cbn [negb]. intros (Hm & Hr & Ho)%IH. split_and!; [done..|].
    intros o' a' addr' [->|Hin]%elem_of_cons Ha' Hv' Ht'; [|by apply (Ho o' a' addr')]. exfalso. unfold IsScriptNewUniqueAsset in Hu.
    by rewrite (script_type_iff _ _ _ _ Ha'), Hv', Ht' in Hu.
Qed.


Lemma CheckTransaction_inv dup mem blk tx : CheckTransaction ap testnet st pool dup mem blk tx = Accept ->
  exists s, check_outs ap mem blk (vout tx) (mkOuts 0 [] [] [] false 0) = Ok s /\ (asset_rules ap testnet st pool tx).1.1 = Accept /\
    vin tx <> [] /\ vout tx <> [] /\ (dup = true -> distinct_prevouts [] (vin tx) = true) /\ coinbase_or_inputs tx = Accept /\
    CheckXAccountDummyInputs ap tx = None.
Proof.
  unfold CheckTransaction. destruct (Z.eqb_spec (zlen (vin tx)) 0); [done|]. destruct (Z.eqb_spec (zlen (vout tx)) 0); [done|].
  destruct (_ <? _); [done|]. destruct (check_outs ap mem blk (vout tx) _) as [s|[d e]]; [|done].
  destruct (asset_rules ap testnet st pool tx) as [[v f1] f2]. cbn [fst]. intros H%first_reject_accept. exists s.
  do 3 apply Forall_cons in H as [_ H]. apply Forall_cons in H as [Hd H]. apply Forall_cons in H as [Hc H]. apply Forall_cons in H as [Hv H].
  do 2 apply Forall_cons in H as [_ H]. apply Forall_cons in H as [Hx _]. apply reason_accept in Hx.
  split_and!; try done; [by intros E; rewrite E in *..|]. intros ->. unfold check in Hd. cbn [negb orb] in Hd. by destruct distinct_prevouts.
Qed.

Lemma tx_new_of_inv kind tx : tx_new_of kind tx = true -> exists data, last_out tx = Some data /\ is_issue data = true /\ kind (scriptPubKey data) = true.
Proof. unfold tx_new_of, on_out, is_issue. destruct (last_out tx) as [data|]; [|done]. destruct (CheckIssueDataTx data) eqn:E; [|done]. by exists data. Qed.

Lemma unique_issue tx o : VerifyNewUniqueAsset ap tx = None -> o ∈ vout tx -> is_issue o = true ->
  IsScriptNewUniqueAsset ap (scriptPubKey o) = true /\
  forall a addr, AssetFromScript ap (scriptPubKey o) = Some (a, addr) -> CheckNewAsset a = None -> issue_allowed tx a.
Proof.
  intros Hv Ho Hi. unfold VerifyNewUniqueAsset in Hv. destruct (_ <? _); [done|]. destruct (unique_outs ap (vout tx) [] [] 0) as [[r n]|] eqn:Eu; [|done].
  apply first_error_none in Hv. apply Forall_cons in Hv as [_ Hv]. apply Forall_cons in Hv as [Hb Hv]. apply Forall_cons in Hv as [Ht Hv]. apply Forall_cons in Hv as [Hc _].
  apply need_none in Hb, Ht, Hc. rewrite !andb_true_iff in Hc. destruct Hc as [_ Hc%Z.eqb_eq]. rewrite count_issues in Hc.
  destruct (unique_outs_spec _ _ _ _ _ _ Eu) as (Hn & _ & Hp). rewrite Z.add_0_l in Hn. subst n.
  assert (Hu : IsScriptNewUniqueAsset ap (scriptPubKey o) = true).
  { apply (filter_all (fun o => IsScriptNewUniqueAsset ap (scriptPubKey o)) is_issue (vout tx)); [|done..].
    intros x Hx. unfold IsScriptNewUniqueAsset, script_new_type in Hx. destruct (AssetFromScript ap (scriptPubKey x)) as [[a addr]|] eqn:Ea; [|done]. by apply (AssetFromScript_issue x a addr). }
  split; [done|]. intros a addr Ha Hck. destruct (CheckNewAsset_types a Hck) as [Hval _]. unfold IsScriptNewUniqueAsset in Hu.
  rewrite (script_type_iff _ _ _ _ Ha), Hval in Hu. cbn [andb] in Hu. apply bool_decide_eq_true in Hu. unfold issue_allowed. rewrite Hu.
  split; [done|]. split; [by eexists|]. by rewrite (Hp o a addr).
Qed.

Lemma msgchannel_issue tx data a addr : VerifyNewMsgChannelAsset ap tx = None -> last_out tx = Some data -> AssetFromScript ap (scriptPubKey data) = Some (a, addr) ->
  IsScriptNewMsgChannelAsset ap (scriptPubKey data) = true -> CheckNewAsset a = None -> issue_allowed tx a /\ nIssues (GetTxOutAssetTypes (vout tx)) = 1.
Proof.
  intros Hv Hl Ha Hm Hc. unfold VerifyNewMsgChannelAsset in Hv. destruct (_ <? _); [done|]. rewrite Hl in Hv. destruct (CheckIssueDataTx data); [|done]. cbn [negb] in Hv.
  unfold MsgChannelAssetFromScript in Hv. rewrite Hm, Ha in Hv. apply first_error_none in Hv. apply Forall_cons in Hv as [Hb Hv]. apply Forall_cons in Hv as [Ht Hv]. apply Forall_cons in Hv as [Hn _].
  apply need_none in Hb, Ht, Hn. unfold no_owner_one_issue in Hn. rewrite !andb_true_iff in Hn. destruct Hn as [[_ Hn%Z.eqb_eq] _]. split; [|done].
  unfold IsScriptNewMsgChannelAsset in Hm. rewrite (script_type_iff _ _ _ _ Ha) in Hm. apply andb_true_iff in Hm as [_ Hm%bool_decide_eq_true].
  unfold issue_allowed. rewrite Hm. split; [done|]. split; [done|by left].
Qed.

Lemma qualifier_refused kinds s a addr : (forall t, t ∈ kinds -> t ∈ [RESTRICTED; QUALIFIER; SUB_QUALIFIER]) -> AssetFromScript ap s = Some (a, addr) ->
  script_new_type ap (fun t => existsb (fun u => bool_decide (t = u)) kinds) s = true -> CheckNewAsset a = None -> False.
Proof.
  intros Hk Ha Hs Hc. destruct (CheckNewAsset_types a Hc) as [_ Ht]. rewrite (script_type_iff _ _ _ _ Ha) in Hs. apply andb_true_iff in Hs as [_ Hs].
  apply existsb_exists in Hs as (u & Hu & Heq%bool_decide_eq_true). apply Ht. rewrite Heq. by apply Hk, list_elem_of_In.
Qed.

Lemma reissue_no_issue tx o : VerifyReissueAsset ap tx = None -> o ∈ vout tx -> is_issue o = true -> False.
Proof.
  intros Hv Ho Hi. unfold VerifyReissueAsset in Hv. destruct (_ <? _); [done|]. destruct (last_out tx) as [data|]; [|done]. destruct (CheckReissueDataTx data); [|done]. cbn [negb] in Hv.
  destruct (ReissueAssetFromScript ap (scriptPubKey data)) as [[r addr]|]; [|done]. apply first_error_none in Hv. do 2 apply Forall_cons in Hv as [_ Hv]. apply Forall_cons in Hv as [Hn _].
  apply need_none in Hn. rewrite !andb_true_iff in Hn. destruct Hn as [_ Hn%Z.leb_le]. rewrite count_issues in Hn.
  assert (Hin : o ∈ filter (fun o => is_issue o = true) (vout tx)) by (by apply list_elem_of_filter). destruct (filter _ (vout tx)); [by apply elem_of_nil in Hin|].
  rewrite zlen_cons in Hn. pose proof (zlen_nonneg l). lia.
Qed.

(** The transactions of no accepted kind: qualifiers, restricted assets, transfers. *)
Lemma other_no_issue tx o : (late_rules ap tx).1.1 = Accept -> o ∈ vout tx -> is_issue o = true -> False.
Proof.
  unfold late_rules. destruct (tx_IsNewQualifierAsset ap tx) eqn:Hq; [|destruct (tx_IsNewRestrictedAsset ap tx) eqn:Hr]; cbn [fst]; intros H%first_reject_accept Ho Hi.
  - apply Forall_cons in H as [_ H]. apply Forall_cons in H as [H _]. unfold QualifierAssetFromTransaction in H. rewrite Hq in H. cbn [negb] in H.
    apply tx_new_of_inv in Hq as (data & Hl & _ & Hk). rewrite Hl in H. cbn [on_out] in H. unfold QualifierAssetFromScript in H. rewrite Hk in H.
    destruct (AssetFromScript ap (scriptPubKey data)) as [[a addr]|] eqn:Ha; [|done]. apply reason_after_accept in H.
    apply (qualifier_refused [QUALIFIER; SUB_QUALIFIER] (scriptPubKey data) a addr); [intros t Ht; one_of Ht|done| |done].
    unfold IsScriptNewQualifierAsset in Hk. rewrite (script_type_iff _ _ _ _ Ha) in Hk. rewrite (script_type_iff _ _ _ _ Ha). cbn [existsb]. by rewrite orb_false_r.
  - apply Forall_cons in H as [_ H]. apply Forall_cons in H as [H _]. unfold RestrictedAssetFromTransaction in H. rewrite Hr in H. cbn [negb] in H.
    apply tx_new_of_inv in Hr as (data & Hl & _ & Hk). rewrite Hl in H. cbn [on_out] in H. unfold RestrictedAssetFromScript in H. rewrite Hk in H.
    destruct (AssetFromScript ap (scriptPubKey data)) as [[a addr]|] eqn:Ha; [|done]. apply reason_after_accept in H.
    apply (qualifier_refused [RESTRICTED] (scriptPubKey data) a addr); [intros t Ht; one_of Ht|done| |done].
    unfold IsScriptNewRestrictedAsset in Hk. rewrite (script_type_iff _ _ _ _ Ha) in Hk. rewrite (script_type_iff _ _ _ _ Ha). cbn [existsb]. by rewrite orb_false_r.
  - rewrite Forall_forall in H. specialize (H _ (list_elem_of_fmap_2 _ _ _ Ho)). cbn beta in H. apply CheckIssueDataTx_iff in Hi as [n Hi]. by rewrite Hi in H.
Qed.

(** Who may issue an asset. *)
Lemma issue_is_allowed (dup mem blk : bool) (tx : CTransaction) (o : CTxOut) :
  CheckTransaction ap testnet st pool dup mem blk tx = Accept -> o ∈ vout tx -> CheckIssueDataTx o = true ->
  exists asset address, AssetFromScript ap (scriptPubKey o) = Some (asset, address) /\ issue_allowed tx asset.
Proof.
  intros (s & _ & Hr & _)%CheckTransaction_inv Ho Hi. unfold asset_rules in Hr. destruct (tx_IsNewAsset ap tx) eqn:Hnew.
  { cbn [fst] in Hr. apply first_reject_accept in Hr. apply Forall_cons in Hr as [Hv Hr]. apply Forall_cons in Hr as [Hr _]. apply reason_accept in Hv.
    unfold AssetFromTransaction in Hr. rewrite Hnew in Hr. cbn [negb] in Hr. destruct (last_out tx) as [data|] eqn:Hl; cbn [on_out] in Hr; [|done].
    destruct (AssetFromScript ap (scriptPubKey data)) as [[a addr]|] eqn:Ha; [|done]. apply first_reject_accept in Hr. apply Forall_cons in Hr as [_ Hr].
    apply Forall_cons in Hr as [Hc _]. apply reason_accept in Hc. destruct (new_asset_issue tx data a addr Hnew Hl Ha Hv Hc) as [Hok Hone].
    rewrite (one_issue _ _ _ Hone Ho (last_out_in _ _ Hl) Hi (AssetFromScript_issue _ _ _ Ha)). by exists a, addr. }
  destruct (tx_IsReissueAsset tx) eqn:Hre.
  { destruct (VerifyReissueAsset ap tx) eqn:Hv; [done|]. exfalso. apply (reissue_no_issue tx o Hv Ho Hi). }
  destruct (tx_IsNewUniqueAsset ap tx).
  { cbn [fst] in Hr. apply first_reject_accept in Hr. apply Forall_cons in Hr as [Hv Hr]. apply Forall_cons in Hr as [Hr _]. apply reason_accept in Hv.
    destruct (unique_issue tx o Hv Ho Hi) as [Hu Hall]. apply first_reject_accept in Hr. rewrite Forall_forall in Hr.
    specialize (Hr _ (list_elem_of_fmap_2 _ _ _ Ho)). cbn beta in Hr. rewrite Hu in Hr. destruct (AssetFromScript ap (scriptPubKey o)) as [[a addr]|]; [|done].
    apply reason_after_accept in Hr. exists a, addr. split; [done|by apply (Hall a addr)]. }
  destruct (tx_IsNewMsgChannelAsset ap tx) eqn:Hm.
  { cbn [fst] in Hr. apply first_reject_accept in Hr. apply Forall_cons in Hr as [Hv Hr]. apply Forall_cons in Hr as [Hr _]. apply reason_accept in Hv.
    unfold MsgChannelAssetFromTransaction in Hr. rewrite Hm in Hr. cbn [negb] in Hr. apply tx_new_of_inv in Hm as (data & Hl & Hd & Hk). rewrite Hl in Hr. cbn [on_out] in Hr.
    unfold MsgChannelAssetFromScript in Hr. rewrite Hk in Hr. destruct (AssetFromScript ap (scriptPubKey data)) as [[a addr]|] eqn:Ha; [|done].
    apply reason_after_accept in Hr. destruct (msgchannel_issue tx data a addr Hv Hl Ha Hk Hr) as [Hok Hone].
    rewrite (one_issue _ _ _ Hone Ho (last_out_in _ _ Hl) Hi Hd). by exists a, addr. }
  exfalso. by apply (other_no_issue tx o Hr).
Qed.

(** *** Values and inputs *)

Lemma null_data_out_value o s s' : null_data_out ap o s = Ok s' -> os_nValueOut s' = os_nValueOut s.
Proof.
  unfold null_data_out, reject. intros H. repeat (match type of H with context [match ?x with _ => _ end] => destruct x end; try discriminate H); by injection H as <-.
Qed.
Lemma asset_out_value mem blk o s s' : asset_out ap mem blk o s = Ok s' -> os_nValueOut s' = os_nValueOut s /\
  (mem || blk = true -> is_asset_script (scriptPubKey o) = true -> nValue o = 0).
Proof.
  unfold asset_out, reject, is_asset_script. destruct (IsAssetScript (scriptPubKey o)) as [[[ty own] n]|]; [|by intros [= <-]].
  destruct (Z.eqb_spec (nValue o) 0) as [|Hne]; cbn [negb]; intros H.
  - split; [|done]. repeat (match type of H with context [match ?x with _ => _ end] => destruct x end; try discriminate H); by injection H as <-.
  - destruct ty; try discriminate H.
    + destruct mem, blk; cbn [andb] in H; try discriminate H. injection H as <-. split; [done|]. intros E. discriminate E.
    + repeat (match type of H with context [match ?x with _ => _ end] => destruct x end; try discriminate H).
Qed.

Lemma check_outs_spec mem blk outs : forall s s', check_outs ap mem blk outs s = Ok s' -> 0 <= os_nValueOut s <= MAX_MONEY ->
  Forall (fun o => 0 <= nValue o <= MAX_MONEY /\ (mem || blk = true -> is_asset_script (scriptPubKey o) = true -> nValue o = 0)) outs /\
  0 <= os_nValueOut s + sumZ (map nValue outs) <= MAX_MONEY.
Proof.
  induction outs as [|o outs IH]; intros s s' H Hs; [split; [constructor|cbn; lia]|]. cbn [check_outs] in H.
  destruct (check_out ap mem blk o s) as [s1|] eqn:E; [|done]. unfold check_out in E. destruct (Z.ltb_spec (nValue o) 0); [done|].
  destruct (Z.ltb_spec MAX_MONEY (nValue o)); [done|]. cbv zeta in E. destruct (MoneyRange (os_nValueOut s + nValue o)) eqn:Em; [|done]. cbn [negb] in E.
  apply MoneyRange_iff in Em. destruct (null_data_out ap o _) as [s0|] eqn:En; [|done]. apply null_data_out_value in En. cbn [os_nValueOut] in En.
  apply asset_out_value in E as [Ev Ea]. rewrite En in Ev. destruct (IH s1 s' H ltac:(lia)) as [Hf Ht]. split; [constructor; [by split; [lia|]|done]|].
  cbn [map]. unfold sumZ in *. cbn [foldr]. lia.
Qed.

Lemma distinct_prevouts_NoDup ins : forall seen, distinct_prevouts seen ins = true ->
  NoDup (prevout <$> ins) /\ forall o, o ∈ prevout <$> ins -> o ∉ seen.
Proof.
  pose proof outpoint_eqb_eq as Heq.
  induction ins as [|i ins IH]; intros seen; cbn; [intros _; split; [constructor|by intros o ?%elem_of_nil]|].
  intros [Hn Hd]%andb_true_iff. apply IH in Hd as [Hnd Hseen]. apply negb_true_iff, not_true_iff_false in Hn. split.
  - constructor; [|done]. intros Hin. apply (Hseen _ Hin). by left.
  - intros o [->|Hin]%elem_of_cons Hs.
    + apply Hn, existsb_exists. exists (prevout i). split; [by apply list_elem_of_In|]. by apply Heq.
    + apply (Hseen _ Hin). by right.
Qed.

(** What an accepted transaction is: it has inputs and outputs, every output
    value and their exact sum are between 0 and MAX_MONEY, outputs that carry an
    asset carry no coins (on the block and pool paths, which is where it is
    checked for reissues), no outpoint is spent twice (where duplicates are
    checked), only a coinbase has a null outpoint, a coinbase carries no asset,
    and a dummy outpoint only occurs in an identity claim. *)
Lemma accepted_shape (dup mem blk : bool) (tx : CTransaction) :
  CheckTransaction ap testnet st pool dup mem blk tx = Accept ->
  vin tx <> [] /\ vout tx <> [] /\
  Forall (fun o => 0 <= nValue o <= MAX_MONEY) (vout tx) /\ 0 <= sumZ (map nValue (vout tx)) <= MAX_MONEY /\
  (mem || blk = true -> Forall (fun o => is_asset_script (scriptPubKey o) = true -> nValue o = 0) (vout tx)) /\
  (dup = true -> NoDup (prevout <$> vin tx)) /\
  (IsCoinBase tx = false -> Forall (fun i => COutPoint_IsNull (prevout i) = false) (vin tx)) /\
  (IsCoinBase tx = true -> Forall (fun o => is_asset_script (scriptPubKey o) = false) (vout tx)) /\
  (Exists (fun i => IsXAccountDummyPrevout (prevout i) = true) (vin tx) -> is_claim ap tx = true).
Proof.
  intros (s & Ho & _ & Hi & Hne & Hd & Hc & Hx)%CheckTransaction_inv. destruct (check_outs_spec mem blk _ _ _ Ho) as [Hf Hs]; [cbn; unfold MAX_MONEY, COIN; lia|]. cbn [os_nValueOut] in Hs.
  split_and!; try done.
  - eapply Forall_impl; [exact Hf|]. by intros o [? _].
  - lia.
  - lia.
  - intros Hmb. eapply Forall_impl; [exact Hf|]. intros o [_ H]. by apply H.
  - intros E. by apply (distinct_prevouts_NoDup (vin tx) []), Hd.
  - intros Hcb. unfold coinbase_or_inputs, IsCoinBase in *. destruct (vin tx) as [|i [|j ins]]; [done|by constructor|].
    unfold check in Hc. destruct (existsb _ _) eqn:E; [done|]. clear Hc. apply List.Forall_forall. intros k Hk. apply not_true_iff_false. intros Hnull. apply not_true_iff_false in E.
    apply E, existsb_exists. by exists k.
  - intros Hcb. unfold coinbase_or_inputs, IsCoinBase in *. destruct (vin tx) as [|i [|]]; try done. rewrite Hcb in Hc. apply first_reject_accept in Hc.
    apply Forall_cons in Hc as [_ Hc]. apply Forall_cons in Hc as [Hc _]. unfold check in Hc. destruct (existsb _ (vout tx)) eqn:E; [done|]. apply List.Forall_forall. intros o Hin.
    apply not_true_iff_false. intros Ha. apply not_true_iff_false in E. apply E, existsb_exists. exists o. by rewrite Ha.
  - intros (i & Hin & Hdm)%List.Exists_exists. unfold CheckXAccountDummyInputs in Hx. destruct (Z.eqb_spec (zlen (filter (fun i => IsXAccountDummyPrevout (prevout i) = true) (vin tx))) 0) as [E|].
    + apply zlen_0_nil in E. assert (i ∈ filter (fun i => IsXAccountDummyPrevout (prevout i) = true) (vin tx)) as Hf' by (apply list_elem_of_filter; split; [done|by apply list_elem_of_In]).
      rewrite E in Hf'. by apply elem_of_nil in Hf'.
    + destruct (IsCoinBase tx); [done|]. by destruct (is_claim ap tx).
Qed.
End Accepted.

(** ** A claim passes *)

Lemma nth_small (l : bytes) i : Forall (fun c => c < 128) l -> nth i l 0 < 128.
Proof.
  intros H. destruct (lt_dec i (length l)) as [Hi|Hi]; [|rewrite nth_overflow; lia].
  rewrite Forall_forall in H. exact (H _ (proj2 (list_elem_of_In _ _) (nth_In l 0 Hi))).
Qed.

Lemma assignment_script_eq h : 1 <= zlen h <= 32 -> MakeXAccountAssignmentScript h = OP_RETURN :: (4 + zlen h) :: XACCOUNT_ASSIGN_MAGIC ++ h.
Proof.
  intros Hl. unfold MakeXAccountAssignmentScript, push. assert (Hz : zlen (XACCOUNT_ASSIGN_MAGIC ++ h) = 4 + zlen h) by (by rewrite zlen_app).
  rewrite Hz. unfold OP_PUSHDATA1. replace (4 + zlen h <? 76) with true by lia. cbn [le_bytes]. rewrite land_255, Z.mod_small by lia. done.
Qed.

(** The text of an account: a spelling the parser accepts, of at most 32 bytes. *)
Definition spelling (raw h : bytes) : Prop := 1 <= zlen raw <= MAX_X_HANDLE /\ exists uid, NormalizeXAccountId raw = Ok (h, uid).
Lemma own_spelling h : valid_handle h -> spelling h h.
Proof. intros Hv. split; [by destruct Hv|]. exists 0. by apply normalize_own. Qed.

Lemma assignment_not_asset raw h : spelling raw h -> IsAssetScript (MakeXAccountAssignmentScript raw) = None.
Proof.
  intros [Hl [uid Hf%NormalizeXAccountId_small]]. unfold MAX_X_HANDLE in Hl. rewrite assignment_script_eq by done. unfold IsAssetScript. destruct (negb (31 <? _)); [done|].
  change (sat (OP_RETURN :: (4 + zlen raw) :: XACCOUNT_ASSIGN_MAGIC ++ raw) 25) with (nth 19 raw 0). pose proof (nth_small raw 19 Hf). unfold OP_RVN_ASSET.
  by replace (nth 19 raw 0 =? 192) with false by lia.
Qed.

Lemma not_null_asset s : sat s 0 <> OP_RVN_ASSET -> IsNullAsset s = false.
Proof.
  intros H%Z.eqb_neq. unfold IsNullAsset, IsNullAssetTxDataScript, IsNullGlobalRestrictionAssetTxDataScript, IsNullAssetVerifierTxDataScript.
  rewrite H. cbn [andb orb]. by rewrite ?andb_false_r.
Qed.

Lemma zlen_push b : 0 <= zlen (push b) <= zlen b + 5.
Proof. split; [apply zlen_nonneg|]. unfold push. case_ifs; rewrite zlen_app; unfold zlen; cbn [length]; rewrite ?length_le_bytes; lia. Qed.
Lemma zlen_asset_tail k d : zlen (asset_tail k d) <= zlen d + 11.
Proof. unfold asset_tail. rewrite zlen_cons, zlen_app. pose proof (zlen_push (RVN_R :: RVN_V :: RVN_N :: k :: d)) as H. rewrite !zlen_cons in H. change (zlen [OP_DROP]) with 1. lia. Qed.
Lemma zlen_compact n : zlen (WriteCompactSize n) <= 9.
Proof. rewrite zlen_WriteCompactSize. unfold GetSizeOfCompactSize. case_ifs; lia. Qed.

Lemma zlen_enc_txout v s : zlen (enc c_txout (mkTxOut v s)) <= 17 + zlen s.
Proof.
  unfold c_txout, c_map, c_pair, c_bytes. cbn [enc fst snd nValue scriptPubKey]. rewrite !zlen_app, zlen_enc_int. pose proof (zlen_compact (zlen s)). lia.
Qed.

Lemma claim_size h xid id name : zlen xid <= 200 -> length id = 20%nat -> wf_new_asset (main_asset name) ->
  zlen (SerializeTransaction false (claim_tx h xid id name)) <= 1000.
Proof.
  intros Hx Hl Hw. unfold SerializeTransaction, claim_tx. cbn [andb tx_nVersion vin vout nLockTime]. change (negb (0 =? 0)) with false. change (negb (Z.land 0 1 =? 0)) with false. cbn iota.
  rewrite !zlen_app, !zlen_enc_vector, zlen_enc_int, zlen_enc_uint. cbn [map]. unfold sumZ. cbn [foldr]. change (zlen (@nil Z)) with 0.
  pose proof (zlen_enc_txout 0 xid). pose proof (zlen_enc_txout 0 (ConstructOwnerTransaction (main_asset name) (P2PKH id))). pose proof (zlen_enc_txout 0 (ConstructTransaction (main_asset name) (P2PKH id))).
  assert (Hp : zlen (P2PKH id) = 25) by (by apply length_P2PKH). destruct (new_asset_roundtrip _ Hw) as [_ Hn]. destruct Hw as (_ & Hname & _).
  assert (zlen (ConstructOwnerTransaction (main_asset name) (P2PKH id)) <= 100).
  { unfold ConstructOwnerTransaction. rewrite zlen_app, Hp. pose proof (zlen_asset_tail RVN_O (enc c_bytes (strName (main_asset name) ++ OWNER_TAG))) as Ht. 
    rewrite zlen_enc_name in Ht; rewrite zlen_app in *; change (zlen OWNER_TAG) with 1 in *; lia. }
  assert (zlen (ConstructTransaction (main_asset name) (P2PKH id)) <= 150).
  { unfold ConstructTransaction. rewrite zlen_app, Hp. pose proof (zlen_asset_tail RVN_Q (enc_new_asset (main_asset name))). lia. }
  assert (zlen (enc c_txin (mkTxIn (MakeXAccountDummyPrevout h) [] SEQUENCE_FINAL [])) <= 60).
  { unfold c_txin, c_map, c_pair, c_outpoint, c_map, c_pair, c_bytes. cbn [enc fst snd prevout scriptSig nSequence c_blob]. rewrite !zlen_app, !zlen_enc_uint. change (zlen (@nil Z)) with 0.
    pose proof (zlen_compact 0). assert (zlen (out_hash (MakeXAccountDummyPrevout h)) = 32); [|lia].
    unfold MakeXAccountDummyPrevout, sha256.Hash, sha256.CHash256_Finalize, sha256.CSHA256_Finalize, zlen. cbn [out_hash]. by rewrite sha256.length_out_bytes. }
  repeat match goal with |- context [zlen (WriteCompactSize ?n)] => pose proof (zlen_compact n); generalize dependent (zlen (WriteCompactSize n)); intros end. lia.
Qed.

Lemma main_asset_checked name : IsAssetNameARoot name = true -> CheckNewAsset (main_asset name) = None.
Proof.
  intros Hr. destruct (main_asset_wf name Hr) as [_ Ht]. unfold CheckNewAsset. cbn [strName main_asset na_units na_nAmount na_nReissuable na_nHasIPFS].
  assert (Hv : name_valid name = true) by (unfold name_valid; by rewrite Ht). assert (Hty : name_type name = ROOT) by (unfold name_type; by rewrite Ht).
  assert (Ho : IsAssetNameAnOwner name = false).
  { unfold IsAssetNameAnOwner. rewrite no_match_owner, andb_false_r; [done|]. apply IsAssetNameARoot_iff in Hr as [(_ & Hc & _)%IsRootNameValid_iff _].
    by apply (forallb_not_in name_char). }
  cbv zeta. rewrite Hv, Hty, Ho. done.
Qed.

Section ClaimPasses.
Variable ap : AssetParams.
Variables st : XState.
Variable pool : XPool.

Lemma claim_counts h xid id name : IsAssetScript xid = None -> length id = 20%nat -> wf_new_asset (main_asset name) ->
  GetTxOutAssetTypes (vout (claim_tx h xid id name)) = mkCounts 1 0 0 1.
Proof.
  intros Hx Hl Hw. destruct (new_asset_script id _ Hl Hw) as (n & Hs). destruct (owner_script id _ Hl Hw) as (m & Ho).
  unfold GetTxOutAssetTypes, claim_tx. cbn [vout fold_left]. unfold count_out at 3. cbn [scriptPubKey]. rewrite Hx. unfold count_out at 2. cbn [scriptPubKey]. rewrite Ho.
  unfold count_out. cbn [scriptPubKey]. rewrite Hs. done.
Qed.

Lemma claim_burns_nothing h xid id name : swrap 64 (GetBurnAmount ap ROOT * 1) <> 0 -> burns ap (claim_tx h xid id name) ROOT 1 = false.
Proof.
  intros Hb. apply not_true_iff_false. unfold burns, claim_tx. rewrite existsb_exists. intros (o & Ho & Hc). unfold CheckIssueBurnTx in Hc.
  assert (Hz : nValue o = 0) by (repeat destruct Ho as [<-|Ho]; done). rewrite Hz in Hc. by destruct (Z.eqb_spec 0 (swrap 64 (GetBurnAmount ap ROOT * 1))).
Qed.

(** The one rule that can refuse a claim: the text is assigned to another name. *)
Definition claim_taken (raw name : bytes) : option string :=
  match CheckIfXAccountAssigned st pool raw with
  | Some existing => need (bytes_eqb existing name) "bad-txns-xaccount-already-assigned"
  | None => None
  end.

Lemma claim_verified h raw xid id name : length id = 20%nat -> IsAssetNameARoot name = true -> IsAssetScript xid = None ->
  ParseXAccountAssignmentScript xid = Some raw -> swrap 64 (GetBurnAmount ap ROOT * 1) <> 0 ->
  VerifyNewAsset ap st pool (claim_tx h xid id name) = claim_taken raw name /\
  IsNewOwnerTxValid ap (claim_tx h xid id name) name (EncodeDestination (ap_prefixes ap) (CKeyID id)) = None.
Proof.
  intros Hl Hn Ha Hx Hb. destruct (main_asset_wf name Hn) as [Hw Ht]. destruct (new_asset_script id _ Hl Hw) as (n & Hs). destruct (owner_script id _ Hl Hw) as (m & Ho).
  pose proof (AssetFromScript_built ap id _ Hl Hw) as Hf. pose proof (OwnerAssetFromScript_built ap id _ Hl Hw) as Hof. cbn [strName main_asset] in Hf, Hof.
  assert (Hty : name_type name = ROOT) by (unfold name_type; by rewrite Ht). pose proof (claim_is_new_asset ap h xid id name Hl Hn) as Hnew.
  pose proof (claim_counts h xid id name Ha Hl Hw) as Hcount. pose proof (claim_burns_nothing h xid id name Hb) as Hburn.
  assert (Hlast : last_out (claim_tx h xid id name) = Some (mkTxOut 0 (ConstructTransaction (main_asset name) (P2PKH id)))) by done.
  assert (Hown : owner_out (claim_tx h xid id name) = Some (mkTxOut 0 (ConstructOwnerTransaction (main_asset name) (P2PKH id)))) by done.
  assert (Hpa : ParseXAccountAssignment (claim_tx h xid id name) = Some raw).
  { unfold ParseXAccountAssignment, claim_tx. cbn [vout first_assignment scriptPubKey]. by rewrite Hx. }
  split.
  - unfold VerifyNewAsset. change (zlen (vout (claim_tx h xid id name)) <? 3) with false. cbn iota. rewrite Hlast, Hown. unfold CheckIssueDataTx, CheckOwnerDataTx, IsScriptNewAsset, IsScriptOwnerAsset. cbn [scriptPubKey].
    rewrite Hs, Ho. rewrite !bool_decide_eq_true_2 by eauto. cbn [negb]. rewrite Hf, Hof. cbv zeta. cbn [strName main_asset]. rewrite bytes_eqb_refl, Hty. unfold counts. rewrite Hcount, Hburn, Hpa.
    change (is_type ROOT [ROOT]) with true. change (is_type ROOT [SUB]) with false. cbn iota. fold (claim_taken raw name). by destruct (claim_taken raw name).
  - unfold IsNewOwnerTxValid, OwnerFromTransaction. rewrite Hnew, Hown. cbn [negb on_out scriptPubKey]. rewrite Hof. rewrite !bytes_eqb_refl.
    apply IsAssetNameARoot_iff in Hn as [(H3 & _)%IsRootNameValid_iff _]. rewrite zlen_app. unfold OWNER_LENGTH, MIN_ASSET_LENGTH. change (zlen OWNER_TAG) with 1.
    by replace (1 + 3 <=? zlen name + 1) with true by lia.
Qed.

Lemma claim_outs mem blk h xid id name : length id = 20%nat -> wf_new_asset (main_asset name) -> IsAssetScript xid = None -> sat xid 0 = OP_RETURN ->
  check_outs ap mem blk (vout (claim_tx h xid id name)) (mkOuts 0 [] [] [] false 0) = Ok (mkOuts 0 [] [] [] false 0).
Proof.
  intros Hl Hw Ha H0. destruct (new_asset_script id _ Hl Hw) as (n & Hs). destruct (owner_script id _ Hl Hw) as (m & Ho).
  assert (Hone : forall s r, sat s 0 <> OP_RVN_ASSET -> (IsAssetScript s = None \/ exists b n, IsAssetScript s = Some (TX_NEW_ASSET, b, n)) -> 
    os_nValueOut r = 0 -> check_out ap mem blk (mkTxOut 0 s) r = Ok r).
  { intros s r Hs0 Hk Hr. unfold check_out. cbn [nValue scriptPubKey]. change (0 <? 0) with false. change (MAX_MONEY <? 0) with false. cbn iota. cbv zeta. rewrite Hr.
    change (MoneyRange (0 + 0)) with true. cbn [negb]. unfold null_data_out. cbn [scriptPubKey]. rewrite (not_null_asset s Hs0). cbn [negb]. unfold asset_out. cbn [scriptPubKey nValue].
    destruct r; cbn in Hr |- *; subst. destruct Hk as [-> | (b & k & ->)]; done. }
  unfold claim_tx. cbn [vout check_outs].
  rewrite (Hone xid) by (rewrite ?H0; auto; done). rewrite (Hone (ConstructOwnerTransaction _ _)) by (first [by unfold ConstructOwnerTransaction; rewrite P2PKH_eq by done | by right; eauto | done]).
  by rewrite (Hone (ConstructTransaction _ _)) by (first [by unfold ConstructTransaction; rewrite P2PKH_eq by done | by right; eauto | done]).
Qed.

(** The verdict of [CheckTransaction] on a claim, in any spelling of the handle. *)
Lemma claim_verdict (testnet dup mem blk : bool) (h raw id name : bytes) :
  swrap 64 (GetBurnAmount ap ROOT * 1) <> 0 -> spelling raw h -> hash_not_null h -> length id = 20%nat ->
  IsAssetNameARoot name = true ->
  let tx := claim_tx h (MakeXAccountAssignmentScript raw) id name in
  IsXAccountIdentityClaim ap tx = Some h /\ CheckXAccountDummyInputs ap tx = None /\ CheckTransaction ap testnet st pool dup mem blk tx = reason (claim_taken raw name).
Proof.
  intros Hb Hv Hnn Hl Hn. pose proof (assignment_not_asset raw h Hv) as Ha. destruct Hv as [Hlen [uid Hv]]. unfold MAX_X_HANDLE in Hlen. set (xid := MakeXAccountAssignmentScript raw) in *. intros tx.
  assert (Hx : ParseXAccountAssignmentScript xid = Some raw).
  { pose proof (assignment_parsed raw [] Hlen) as H. by rewrite app_nil_r in H. }
  destruct (main_asset_wf name Hn) as [Hw _].
  destruct (claim_recognised ap h raw uid xid id name Hv Hnn Hl Hn Hx) as [Hclaim Hdummy]. split_and!; [done|done|]. subst tx.
  destruct (claim_verified h raw xid id name Hl Hn Ha Hx Hb) as [Hver Hown]. unfold CheckTransaction.
  change (zlen (vin (claim_tx h xid id name)) =? 0) with false. change (zlen (vout (claim_tx h xid id name)) =? 0) with false. cbn iota.
  assert (Hsize : (GetMaxBlockWeight <? zlen (SerializeTransaction false (claim_tx h xid id name)) * WITNESS_SCALE_FACTOR) = false).
  { assert (Hz : zlen xid <= 200).
    { subst xid. rewrite assignment_script_eq by done. rewrite !zlen_cons, zlen_app. change (zlen XACCOUNT_ASSIGN_MAGIC) with 4. lia. }
    pose proof (claim_size h xid id name Hz Hl Hw). unfold GetMaxBlockWeight, MAX_BLOCK_WEIGHT_RIP2, WITNESS_SCALE_FACTOR. lia. }
  rewrite Hsize, claim_outs by done. unfold asset_rules, AssetFromTransaction. rewrite (claim_is_new_asset ap h xid id name Hl Hn), Hver, Hdummy. cbn [negb reason].
  change (last_out (claim_tx h xid id name)) with (Some (mkTxOut 0 (ConstructTransaction (main_asset name) (P2PKH id)))). cbn [on_out scriptPubKey].
  rewrite (AssetFromScript_built ap id _ Hl Hw). cbn [strName main_asset]. rewrite Hown, (main_asset_checked name Hn). cbn [reason first_reject].
  assert (Hnull : COutPoint_IsNull (MakeXAccountDummyPrevout h) = false) by (unfold COutPoint_IsNull, MakeXAccountDummyPrevout; cbn [out_n]; by rewrite andb_false_r).
  unfold coinbase_or_inputs, distinct_prevouts, claim_tx. cbn [vin prevout existsb negb andb]. rewrite Hnull. destruct dup, (claim_taken raw name); done.
Qed.

(** C15. Consensus accepts the wallet's claim: for an accepted handle, a root name
    and the key hash of an address, the claim the wallet builds without a proof is
    accepted by [CheckTransaction] on the block and the pool path, in every state
    in which neither the assignments nor the memory pool have the handle, or have
    it for this name. The dummy hash must not be zero and a root must cost a burn
    when it is not claimed. *)
Theorem built_claim_accepted (testnet dup mem blk : bool) (h id name : bytes) :
  prefixes_ok (ap_prefixes ap) -> swrap 64 (GetBurnAmount ap ROOT * 1) <> 0 -> valid_handle h -> hash_not_null h -> wf_destination (CKeyID id) ->
  IsAssetNameARoot name = true -> (CheckIfXAccountAssigned st pool h = None \/ CheckIfXAccountAssigned st pool h = Some name) ->
  exists tx, CreateZeroFeeIdentityRootTransaction ap (main_asset name) (EncodeDestination (ap_prefixes ap) (CKeyID id)) h None = Ok tx /\
    CheckTransaction ap testnet st pool dup mem blk tx = Accept.
Proof.
  intros Hp Hb Hv Hnn Hd Hn Hfree. pose proof Hd as [Hl _]. destruct (claim_verdict testnet dup mem blk h h id name Hb (own_spelling h Hv) Hnn Hl Hn) as (Hclaim & Hdummy & Hc).
  set (xid := MakeXAccountAssignmentScript h) in *. exists (claim_tx h xid id name). split; [|rewrite Hc; unfold claim_taken; destruct Hfree as [-> | ->]; [done|by rewrite bytes_eqb_refl]].
  unfold CreateZeroFeeIdentityRootTransaction. rewrite (normalize_own h Hv), destination_roundtrip by done. cbn [IsValidDestination negb].
  transitivity (match CheckXAccountDummyInputs ap (claim_tx h xid id name) with
                | Some e => Err (BeClaim (Some e))
                | None => if negb (is_claim ap (claim_tx h xid id name)) then Err (BeClaim None) else Ok (claim_tx h xid id name)
                end); [reflexivity|]. unfold is_claim. by rewrite Hdummy, Hclaim.
Qed.
End ClaimPasses.

(** ** One account, several roots *)

Section NotExclusive.
Variable ap : AssetParams.
Variable pool : XPool.
Variables testnet dup mem blk ok : bool.

Definition check_in (st : XState) (tx : CTransaction) : verdict := CheckTransaction ap testnet st pool dup mem blk tx.
(** Transactions checked and connected one after the other. *)
Fixpoint accepted_in_turn (st : XState) (txs : list CTransaction) : option XState :=
  match txs with
  | [] => Some st
  | tx :: txs => match check_in st tx with Accept => accepted_in_turn (connect_assignment ap ok tx st) txs | _ => None end
  end.

(** A claim of [h] for the root [cl_name] at the key hash [cl_id], spelt [cl_raw]. *)
Record spelt := mkSpelt { cl_raw : bytes; cl_id : bytes; cl_name : bytes }.
Definition spelt_tx (h : bytes) (c : spelt) : CTransaction := claim_tx h (MakeXAccountAssignmentScript (cl_raw c)) (cl_id c) (cl_name c).
Definition spelt_ok (h : bytes) (c : spelt) : Prop := spelling (cl_raw c) h /\ length (cl_id c) = 20%nat /\ IsAssetNameARoot (cl_name c) = true.

Lemma connect_spelt h c st : spelt_ok h c -> om_find (cl_raw c) (mapXAccountToAsset st) = None ->
  mapXAccountToAsset (connect_assignment ap ok (spelt_tx h c) st) = om_insert (cl_raw c) (cl_name c) (mapXAccountToAsset st).
Proof.
  intros ([Hl _] & Hid & Hn) Hf. unfold connect_assignment, AssetFromTransaction, spelt_tx. rewrite (claim_is_new_asset ap _ _ _ _ Hid Hn). destruct (main_asset_wf _ Hn) as [Hw _]. cbn [negb].
  change (last_out _) with (Some (mkTxOut 0 (ConstructTransaction (main_asset (cl_name c)) (P2PKH (cl_id c))))). cbn [on_out scriptPubKey].
  rewrite (AssetFromScript_built ap _ _ Hid Hw). pose proof (assignment_parsed (cl_raw c) [] Hl) as Hx. rewrite app_nil_r in Hx.
  unfold ParseXAccountAssignment, claim_tx. cbn [vout first_assignment scriptPubKey]. unfold MakeXAccountAssignmentScript. rewrite Hx. unfold AddXAccountAssignment. by rewrite Hf.
Qed.

Lemma assigned_free st raw : CheckIfXAccountAssigned st pool raw = None <-> om_find raw (mapXAccountToAsset st) = None /\ om_find raw (mapXAccountToHash pool) = None.
Proof. unfold CheckIfXAccountAssigned. destruct (om_find raw (mapXAccountToAsset st)); [naive_solver|]. destruct (om_find raw _); naive_solver. Qed.

Lemma spelt_in_turn h cs st : swrap 64 (GetBurnAmount ap ROOT * 1) <> 0 -> hash_not_null h -> NoDup (map cl_raw cs) ->
  Forall (fun c => spelt_ok h c /\ CheckIfXAccountAssigned st pool (cl_raw c) = None) cs ->
  exists st', accepted_in_turn st (map (spelt_tx h) cs) = Some st' /\
    Forall (fun c => om_find (cl_raw c) (mapXAccountToAsset st') = Some (cl_name c)) cs /\
    forall k, k ∉ map cl_raw cs -> om_find k (mapXAccountToAsset st') = om_find k (mapXAccountToAsset st).
Proof.
  intros Hb Hnn. revert st. induction cs as [|c cs IH]; intros st Hnd Hall; [by exists st|]. apply NoDup_cons in Hnd as [Hnot Hnd]. apply Forall_cons in Hall as [[Hc Hfree] Hall].
  cbn [map accepted_in_turn]. destruct (claim_verdict ap st pool testnet dup mem blk h (cl_raw c) (cl_id c) (cl_name c)) as (_ & _ & Hv); [done|by destruct Hc|done|by destruct Hc as (_ & ? & _)|by destruct Hc as (_ & _ & ?)|].
  unfold check_in, spelt_tx at 1. rewrite Hv. unfold claim_taken. rewrite Hfree. cbn [reason]. apply assigned_free in Hfree as [Hfree _].
  pose proof (connect_spelt h c st Hc Hfree) as Hm. destruct (IH (connect_assignment ap ok (spelt_tx h c) st)) as (st' & Hst & Hset & Hkeep); [done| |].
  { rewrite Forall_forall in Hall |- *. intros d Hd. destruct (Hall d Hd) as [Hok [Hf Hp]%assigned_free]. split; [done|]. apply assigned_free. split; [|done].
    rewrite Hm, om_find_insert_ne; [done|]. intros E. apply Hnot. rewrite E. by apply list_elem_of_In, in_map, list_elem_of_In. }
  exists st'. split; [done|]. split.
  - constructor; [|done]. rewrite Hkeep, Hm by done. apply om_find_insert_eq.
  - intros k [Hk Hk']%not_elem_of_cons. rewrite Hkeep, Hm by done. by apply om_find_insert_ne.
Qed.

(** C27. An X account is not exclusive, because the assignments are keyed by the
    text of a claim and not by the handle it stands for, and because every new
    asset with that text counts. Take any claims of one handle in different
    spellings that the parser reads as the handle, for any root names and key
    hashes, in a state in which those texts are free: they are all identity claims
    of the handle, [CheckTransaction] accepts them one after the other, and each
    of the roots is assigned at the end. And take any transaction that issues an
    asset, a sub-asset for example, and carries the text: connected first, it
    takes the account, and the claim of the account for another name is rejected;
    connected after the claim it changes nothing, but its disconnection removes
    the assignment of the claim. The dummy hash must not be zero and a root must
    cost a burn when it is not claimed. *)
Theorem account_not_exclusive (h : bytes) (cs : list spelt) (st : XState) :
  swrap 64 (GetBurnAmount ap ROOT * 1) <> 0 -> hash_not_null h -> NoDup (map cl_raw cs) ->
  Forall (fun c => spelt_ok h c /\ CheckIfXAccountAssigned st pool (cl_raw c) = None) cs ->
  Forall (fun c => IsXAccountIdentityClaim ap (spelt_tx h c) = Some h) cs /\
  (exists st', accepted_in_turn st (map (spelt_tx h) cs) = Some st' /\
     Forall (fun c => om_find (cl_raw c) (mapXAccountToAsset st') = Some (cl_name c)) cs) /\
  (forall c tx asset address, c ∈ cs -> tx_IsNewAsset ap tx = true -> AssetFromTransaction ap tx = Some (asset, address) ->
     ParseXAccountAssignment tx = Some (cl_raw c) -> strName asset <> cl_name c ->
     check_in (connect_assignment ap ok tx st) (spelt_tx h c) = Reject 100 "bad-txns-xaccount-already-assigned" /\
     let claimed := connect_assignment ap ok (spelt_tx h c) st in
     om_find (cl_raw c) (mapXAccountToAsset (connect_assignment ap ok tx claimed)) = Some (cl_name c) /\
     om_find (cl_raw c) (mapXAccountToAsset (disconnect_assignment ap false ok tx (connect_assignment ap ok tx claimed))) = None).
Proof.
  intros Hb Hnn Hnd Hall. assert (Hverdict : forall c st', c ∈ cs -> IsXAccountIdentityClaim ap (spelt_tx h c) = Some h /\ check_in st' (spelt_tx h c) = reason (claim_taken st' pool (cl_raw c) (cl_name c))).
  { intros c st' Hc. rewrite Forall_forall in Hall. destruct (Hall c Hc) as [(Hs & Hid & Hn) _]. by destruct (claim_verdict ap st' pool testnet dup mem blk h (cl_raw c) (cl_id c) (cl_name c) Hb Hs Hnn Hid Hn) as (? & _ & ?). }
  split; [apply Forall_forall; intros c Hc; by apply (Hverdict c st)|]. split.
  { destruct (spelt_in_turn h cs st Hb Hnn Hnd Hall) as (st' & ? & ? & _). by exists st'. }
  intros c tx asset address Hc Hnew Ha Hp Hne. rewrite Forall_forall in Hall. destruct (Hall c Hc) as [Hok [Hf _]%assigned_free]. split; [|cbv zeta].
  - destruct (Hverdict c (connect_assignment ap ok tx st) Hc) as [_ ->]. unfold claim_taken, CheckIfXAccountAssigned, connect_assignment. rewrite Hnew, Ha, Hp. unfold AddXAccountAssignment. rewrite Hf. cbn [negb snd mapXAccountToAsset].
    rewrite om_find_insert_eq. unfold need. by apply bytes_eqb_neq in Hne as ->.
  - pose proof (connect_spelt h c st Hok Hf) as Hm. set (s := connect_assignment ap ok (spelt_tx h c) st) in *.
    assert (Hs : connect_assignment ap ok tx s = s).
    { unfold connect_assignment. rewrite Hnew, Ha, Hp. unfold AddXAccountAssignment. rewrite Hm, om_find_insert_eq. cbn [negb]. replace (bytes_eqb (cl_name c) (strName asset)) with false; [done|]. symmetry. apply bytes_eqb_neq. congruence. }
    rewrite !Hs. split; [by rewrite Hm, om_find_insert_eq|]. unfold disconnect_assignment. rewrite Hnew, Hp. cbn [negb]. unfold RemoveXAccountAssignment. rewrite Hm, om_find_insert_eq. cbn [mapXAccountToAsset]. apply om_find_erase_eq.
Qed.
End NotExclusive.

(** ** Concrete transactions *)

Definition block_check (st : XState) (pool : XPool) : CTransaction -> verdict := CheckTransaction main_assets false st pool true false true.
(** A claim for [h] whose output spells the account as [raw]. *)
Definition raw_claim (raw h : bytes) (b : Z) (name : bytes) : CTransaction := claim_tx h (MakeXAccountAssignmentScript raw) (repeat b 20) name.
Definition alice_claim : CTransaction := raw_claim (bs "alice") (bs "alice") 1 (bs "ALICE").
Definition connected (tx : CTransaction) (st : XState) : XState := connect_assignment main_assets true tx st.
Definition some_in : CTxIn := mkTxIn (mkOutPoint (repeat 9 32) 0) [] SEQUENCE_FINAL [].
Definition burn_out (type : AssetType) : CTxOut :=
  mkTxOut (burn_amounts type) (GetScriptForDestination (DecodeDestination main_prefixes (main_burn_addresses type))).
Definition issue_outs (name : bytes) : list CTxOut :=
  [mkTxOut 0 (ConstructOwnerTransaction (main_asset name) (P2PKH (repeat 4 20))); mkTxOut 0 (ConstructTransaction (main_asset name) (P2PKH (repeat 4 20)))].
(** A sub-asset of BOB with the text of another account among its outputs. *)
Definition sub_with_xid : CTransaction :=
  mkTx 2 [some_in] ([burn_out SUB; mkTxOut 0 (MakeXAccountAssignmentScript (bs "alice"));
    mkTxOut 0 (transfer_ConstructTransaction (mkTransfer (bs "BOB!") COIN [] 0) (P2PKH (repeat 4 20)))] ++ issue_outs (bs "BOB/X")) 0.
(** A payment with the text of an account, and a channel of BOB. *)
Definition payment_with_xid : CTransaction :=
  mkTx 2 [some_in] [mkTxOut 1000 (P2PKH (repeat 4 20)); mkTxOut 0 (MakeXAccountAssignmentScript (bs "alice"))] 0.
Definition channel_tx : CTransaction := mkTx 2 [some_in] (burn_out MSGCHANNEL :: issue_outs (bs "BOB~CHAN")) 0.

(** The block check reads the memory pool: with the same chain and the same
    assignments, a claim is valid for a node with an empty pool and invalid, with
    the penalty of a ban, for a node whose pool holds an ordinary payment that
    carries the text of the account. *)
Theorem block_check_reads_pool : exists pool,
  block_check empty_xstate empty_pool payment_with_xid = Accept /\
  pool_note_xaccount payment_with_xid empty_pool = Some pool /\
  block_check empty_xstate empty_pool alice_claim = Accept /\
  block_check empty_xstate pool alice_claim = Reject 100 "bad-txns-xaccount-already-assigned".
Proof. eexists. split; [vm_compute; reflexivity|]. split; [reflexivity|]. split; vm_compute; reflexivity. Qed.

(** A message channel without its parent's owner token: a transaction that
    issues a channel of BOB with an owner token of its own takes the rules of a
    root or sub-asset, which ask for the owner token of the parent only for a
    sub-asset, and is accepted. *)
Theorem channel_without_owner :
  block_check empty_xstate empty_pool channel_tx = Accept /\ tx_IsNewMsgChannelAsset main_assets channel_tx = true /\
  transfers_of main_assets (vout channel_tx) (GetParentName (bs "BOB~CHAN") ++ OWNER_TAG) = false.
Proof. vm_compute. repeat split; reflexivity. Qed.

Lemma built_claim_accepted_witness : exists tx,
  CreateZeroFeeIdentityRootTransaction main_assets (main_asset (bs "ALICE")) (EncodeDestination main_prefixes (CKeyID (repeat 1 20))) (bs "alice") None = Ok tx /\
  CheckTransaction main_assets false empty_xstate empty_pool true false true tx = Accept.
Proof.
  apply (built_claim_accepted main_assets empty_xstate empty_pool false true false true (bs "alice") (repeat 1 20) (bs "ALICE")).
  - exact main_prefixes_ok.
  - vm_compute. discriminate.
  - apply (Normalize_Ok_valid (bs "alice")). vm_compute. reflexivity.
  - exact toy_hash_not_null.
  - split; [reflexivity|]. apply repeat_Forall. unfold byte_ok. lia.
  - vm_compute. reflexivity.
  - left. reflexivity.
Defined.

(** Alice's account in three spellings, and the sub-asset of BOB with its text. *)
Definition alice_spelt : list spelt :=
  [mkSpelt (bs "alice") (repeat 1 20) (bs "ALICE"); mkSpelt (bs "@Alice") (repeat 2 20) (bs "ALICE_2"); mkSpelt (bs "alice:7") (repeat 3 20) (bs "ALICE_3")].
Lemma account_not_exclusive_witness :
  block_check empty_xstate empty_pool sub_with_xid = Accept /\
  (exists st', accepted_in_turn main_assets empty_pool false true false true true empty_xstate (map (spelt_tx (bs "alice")) alice_spelt) = Some st' /\
     Forall (fun c => om_find (cl_raw c) (mapXAccountToAsset st') = Some (cl_name c)) alice_spelt) /\
  block_check (connected sub_with_xid empty_xstate) empty_pool alice_claim = Reject 100 "bad-txns-xaccount-already-assigned".
Proof.
  destruct (account_not_exclusive main_assets empty_pool false true false true true (bs "alice") alice_spelt empty_xstate) as (_ & Hall & Hsub).
  - vm_compute. discriminate.
  - exact toy_hash_not_null.
  - apply (bool_decide_unpack _). vm_compute. exact I.
  - assert (H : forall raw uid, zlen raw <= 32 -> 1 <= zlen raw -> NormalizeXAccountId raw = Ok (bs "alice", uid) -> spelling raw (bs "alice")).
    { intros raw uid H1 H2 H3. split; [done|]. by exists uid. }
    repeat (constructor; [split; [split; [|split; vm_compute; reflexivity]|vm_compute; reflexivity]; cbn [cl_raw]|]); [| | |constructor].
    + apply (H _ 0); [vm_compute; discriminate..|vm_compute; reflexivity].
    + apply (H _ 0); [vm_compute; discriminate..|vm_compute; reflexivity].
    + apply (H _ 7); [vm_compute; discriminate..|vm_compute; reflexivity].
  - split; [vm_compute; reflexivity|]. split; [exact Hall|].
    edestruct (Hsub (mkSpelt (bs "alice") (repeat 1 20) (bs "ALICE")) sub_with_xid) as [Hrej _];
      [apply list_elem_of_here|vm_compute; reflexivity|vm_compute; reflexivity|vm_compute; reflexivity|vm_compute; discriminate|exact Hrej].
Defined.
