(* ===== verification/Coins.v ===== *)
(** * Coins

    src/src/coins.h and coins.cpp: the cache of unspent outputs over a parent
    view, with its dirty and fresh flags. A view is the finite map of the unspent
    coins it answers for; [view_of] is the map a cache stands for over its
    parent. The calls into the asset cache are those of TxAssets and Reorg. *)

From stdpp Require Import gmap.
From S2P Require Import Prelude Script Serialize Slots Tx AssetNames AssetScripts AssetTx XClaim VerifyAssets.

Local Open Scope Z_scope.

#[global] Instance CTxOut_eq_dec : EqDecision CTxOut.
Proof. solve_decision. Defined.
#[global] Instance COutPoint_eq_dec : EqDecision COutPoint.
Proof. solve_decision. Defined.
#[global] Instance COutPoint_countable : Countable COutPoint.
Proof. apply (inj_countable' (fun o => (out_hash o, out_n o)) (fun p => mkOutPoint p.1 p.2)). by intros []. Defined.

(** ** Coins and entries *)

Record Coin := mkCoin { coin_out : CTxOut; fCoinBase : bool; coin_nHeight : Z }.
Definition CTxOut_IsNull (o : CTxOut) : bool := nValue o =? -1.
Definition Coin_empty : Coin := mkCoin CTxOut_null false 0.
Definition IsSpent (c : Coin) : bool := CTxOut_IsNull (coin_out c).
Definition Coin_IsAsset (c : Coin) : bool := is_asset_script (scriptPubKey (coin_out c)).

Record CCoinsCacheEntry := mkEntry { ce_coin : Coin; DIRTY : bool; FRESH : bool }.
Abbreviation CCoinsMap := (gmap COutPoint CCoinsCacheEntry).
Abbreviation view := (gmap COutPoint Coin).

(** The record of a script, read from its first byte on. *)
Definition read_record {A} (start : option Z) (d : reader A) (s : CScript) : option A :=
  match start with
  | None => None
  | Some n => option_map fst (d (drop (Z.to_nat n) s))
  end.
Definition GetAssetAmountFromScript (script : CScript) : option Z :=
  match IsAssetScript script with
  | Some (TX_NEW_ASSET, false, _) => option_map na_nAmount (read_record (IsScriptNewAsset script) dec_new_asset script)
  | Some (TX_TRANSFER_ASSET, _, _) => option_map tr_nAmount (read_record (IsScriptTransferAsset script) dec_transfer script)
  | Some (TX_NEW_ASSET, true, _) => Some OWNER_ASSET_AMOUNT
  | Some (TX_REISSUE_ASSET, _, _) => option_map re_nAmount (read_record (IsScriptReissueAsset script) dec_reissue script)
  | _ => None
  end.
Definition IsUnspendable (script : CScript) : bool :=
  ((0 <? zlen script) && (sat script 0 =? OP_RETURN)) || ((0 <? zlen script) && (sat script 0 =? OP_RVN_ASSET)) ||
  (MAX_SCRIPT_SIZE <? zlen script) ||
  match GetAssetAmountFromScript script with Some 0 => true | _ => false end.

(** ** The cache *)

Section Cache.
(** The coins of the parent view. *)
Variable base : view.

(** [FetchCoin]: the cache with the entry, and the entry. *)
Definition FetchCoin (c : CCoinsMap) (o : COutPoint) : CCoinsMap * option CCoinsCacheEntry :=
  match c !! o with
  | Some e => (c, Some e)
  | None =>
      match base !! o with
      | None => (c, None)
      | Some coin => let e := mkEntry coin false (IsSpent coin) in (<[o := e]> c, Some e)
      end
  end.
Definition GetCoin (c : CCoinsMap) (o : COutPoint) : CCoinsMap * option Coin :=
  let '(c, e) := FetchCoin c o in
  (c, match e with Some e => if IsSpent (ce_coin e) then None else Some (ce_coin e) | None => None end).
Definition AccessCoin (c : CCoinsMap) (o : COutPoint) : CCoinsMap * Coin :=
  let '(c, e) := FetchCoin c o in (c, match e with Some e => ce_coin e | None => Coin_empty end).
Definition HaveCoin (c : CCoinsMap) (o : COutPoint) : CCoinsMap * bool :=
  let '(c, e) := FetchCoin c o in (c, match e with Some e => negb (IsSpent (ce_coin e)) | None => false end).
Definition HaveCoinInCache (c : CCoinsMap) (o : COutPoint) : bool :=
  match c !! o with Some e => negb (IsSpent (ce_coin e)) | None => false end.

(** [AddCoin]: [None] is the failed assertion or the exception. *)
Definition AddCoin (c : CCoinsMap) (o : COutPoint) (coin : Coin) (possible_overwrite : bool) : option CCoinsMap :=
  if IsSpent coin then None else
  if IsUnspendable (scriptPubKey (coin_out coin)) then Some c else
  let e := default (mkEntry Coin_empty false false) (c !! o) in
  if negb possible_overwrite && negb (IsSpent (ce_coin e)) then None else
  let fresh := negb possible_overwrite && negb (DIRTY e) in
  Some (<[o := mkEntry coin true (FRESH e || fresh)]> c).

(** [SpendCoin]: whether there was an entry, and the coin moved out. *)
Definition SpendCoin (c : CCoinsMap) (o : COutPoint) : CCoinsMap * option Coin :=
  let '(c, e) := FetchCoin c o in
  match e with
  | None => (c, if IsXAccountDummyPrevout o then Some Coin_empty else None)
  | Some e =>
      (if FRESH e then delete o c else <[o := mkEntry Coin_empty true (FRESH e)]> c, Some (ce_coin e))
  end.

Definition Uncache (c : CCoinsMap) (o : COutPoint) : CCoinsMap :=
  match c !! o with
  | Some e => if DIRTY e || FRESH e then c else delete o c
  | None => c
  end.

(** The coins a cache stands for. *)
Definition entry_view (e : option CCoinsCacheEntry) (b : option Coin) : option Coin :=
  match e with Some e => if IsSpent (ce_coin e) then None else Some (ce_coin e) | None => b end.
Definition view_of (c : CCoinsMap) : view := merge entry_view c base.

(** Clean entries repeat the parent; fresh ones are not in the parent. *)
Definition entry_ok (o : COutPoint) (e : CCoinsCacheEntry) : Prop :=
  (DIRTY e = false -> base !! o = if IsSpent (ce_coin e) then None else Some (ce_coin e)) /\ (FRESH e = true -> base !! o = None).
Definition cache_ok (c : CCoinsMap) : Prop := map_Forall entry_ok c.

End Cache.

(** ** Writing back *)

(** [BatchWrite] of one entry of the child; [None] is the exception. *)
Definition write_entry (o : COutPoint) (e : CCoinsCacheEntry) (parent : option CCoinsMap) : option CCoinsMap :=
  match parent with
  | None => None
  | Some p =>
      if negb (DIRTY e) then Some p else
      match p !! o with
      | None => if FRESH e && IsSpent (ce_coin e) then Some p else Some (<[o := mkEntry (ce_coin e) true (FRESH e)]> p)
      | Some us =>
          if FRESH e && negb (IsSpent (ce_coin us)) then None else
          if FRESH us && IsSpent (ce_coin e) then Some (delete o p)
          else Some (<[o := mkEntry (ce_coin e) true (FRESH us)]> p)
      end
  end.
(** The entries in the order the child's hash table gives them. *)
Definition BatchWrite (parent : CCoinsMap) (entries : list (COutPoint * CCoinsCacheEntry)) : option CCoinsMap :=
  fold_left (fun p '(o, e) => write_entry o e p) entries (Some parent).

(** ** Lemmas *)

Lemma lookup_view_of base c o : view_of base c !! o = entry_view (c !! o) (base !! o).
Proof. unfold view_of. rewrite lookup_merge. by destruct (c !! o), (base !! o). Qed.

Definition unspent_view (v : view) : Prop := map_Forall (fun _ coin => IsSpent coin = false) v.

Lemma view_of_unspent base c : unspent_view base -> unspent_view (view_of base c).
Proof.
  intros Hb o coin. rewrite lookup_view_of. unfold entry_view. destruct (c !! o) as [e|]; [|apply Hb].
  destruct (IsSpent (ce_coin e)) eqn:E; [done|]. by intros [= <-].
Qed.

Section Refine.
Variable base : view.
Hypothesis Hbase : unspent_view base.

Lemma FetchCoin_ok c o : cache_ok base c ->
  cache_ok base (FetchCoin base c o).1 /\ view_of base (FetchCoin base c o).1 = view_of base c /\
  (FetchCoin base c o).2 = (FetchCoin base c o).1 !! o /\
  view_of base c !! o = entry_view (FetchCoin base c o).2 None.
Proof.
  intros Hc. unfold FetchCoin. rewrite lookup_view_of. destruct (c !! o) as [e|] eqn:E; [by cbn [fst snd]; rewrite ?E; destruct (base !! o)|].
  destruct (base !! o) as [coin|] eqn:Eb; [|by cbn [fst snd]; rewrite ?E]. pose proof (Hbase o coin Eb) as Hs. cbn [fst snd]. split_and!.
  - apply map_Forall_insert_2; [|done]. split; cbn; rewrite Eb, Hs; done.
  - apply map_eq. intros o'. rewrite !lookup_view_of. destruct (decide (o = o')) as [<-|Hne].
    + rewrite lookup_insert_eq, E, Eb. cbn. by rewrite Hs.
    + by rewrite lookup_insert_ne.
  - by rewrite lookup_insert_eq.
  - cbn. by rewrite Hs.
Qed.

Lemma GetCoin_view c o : cache_ok base c ->
  (GetCoin base c o).2 = view_of base c !! o /\ view_of base (GetCoin base c o).1 = view_of base c /\ cache_ok base (GetCoin base c o).1.
Proof.
  intros Hc. destruct (FetchCoin_ok c o Hc) as (H1 & H2 & _ & H4). unfold GetCoin. destruct (FetchCoin base c o) as [c' e]. cbn [fst snd] in *.
  split_and!; [|done..]. by rewrite H4.
Qed.

Lemma HaveCoin_view c o : cache_ok base c ->
  (HaveCoin base c o).2 = bool_decide (is_Some (view_of base c !! o)) /\ view_of base (HaveCoin base c o).1 = view_of base c /\ cache_ok base (HaveCoin base c o).1.
Proof.
  intros Hc. destruct (FetchCoin_ok c o Hc) as (H1 & H2 & _ & H4). unfold HaveCoin. destruct (FetchCoin base c o) as [c' e]. cbn [fst snd] in *.
  split_and!; [|done..]. rewrite H4. destruct e as [e|]; [|done]. cbn. by destruct (IsSpent (ce_coin e)).
Qed.

Lemma AddCoin_view c o coin ow : cache_ok base c -> IsSpent coin = false -> (ow = false -> view_of base c !! o = None) ->
  exists c', AddCoin c o coin ow = Some c' /\ cache_ok base c' /\
    view_of base c' = if IsUnspendable (scriptPubKey (coin_out coin)) then view_of base c else <[o := coin]> (view_of base c).
Proof.
  intros Hc Hs Hnew. unfold AddCoin. rewrite Hs. destruct (IsUnspendable _); [by exists c|]. set (e := default _ (c !! o)).
  assert (Hsp : ow = false -> IsSpent (ce_coin e) = true /\ (DIRTY e = false -> base !! o = None)).
  { intros ->. specialize (Hnew eq_refl). rewrite lookup_view_of in Hnew. unfold e. destruct (c !! o) as [e'|] eqn:E; cbn in *.
    - destruct (IsSpent (ce_coin e')) eqn:Es; [|done]. split; [done|]. intros Hd. destruct (Hc o e' E) as [H _]. by rewrite Es in H; apply H.
    - split; [done|]. by rewrite Hnew. }
  assert (Hg : negb ow && negb (IsSpent (ce_coin e)) = false) by (destruct ow; [done|]; by rewrite (proj1 (Hsp eq_refl))).
  rewrite Hg. eexists. split; [done|]. split.
  - apply map_Forall_insert_2; [|done]. split; cbn; [done|]. intros [Hf|Hf]%orb_true_iff.
    + unfold e in Hf. destruct (c !! o) as [e'|] eqn:E; cbn in Hf; [|done]. by apply (Hc o e' E).
    + apply andb_true_iff in Hf as [Ho Hd]. destruct ow; [done|]. apply Hsp; [done|]. by destruct (DIRTY e).
  - apply map_eq. intros o'. rewrite !lookup_view_of. destruct (decide (o = o')) as [<-|Hne].
    + rewrite !lookup_insert_eq. cbn. by rewrite Hs.
    + rewrite !lookup_insert_ne by done. by rewrite lookup_view_of.
Qed.

Lemma SpendCoin_view c o coin : cache_ok base c -> view_of base c !! o = Some coin ->
  exists c', SpendCoin base c o = (c', Some coin) /\ cache_ok base c' /\ view_of base c' = delete o (view_of base c).
Proof.
  intros Hc Hv. destruct (FetchCoin_ok c o Hc) as (H1 & H2 & H3 & H4). unfold SpendCoin. destruct (FetchCoin base c o) as [c1 e]. cbn [fst snd] in *.
  rewrite H4 in Hv. destruct e as [e|]; [|done]. cbn in Hv. destruct (IsSpent (ce_coin e)) eqn:Es; [done|]. injection Hv as Hv. rewrite Hv. eexists. split; [done|].
  symmetry in H3. destruct (FRESH e) eqn:Ef.
  - split; [by apply map_Forall_delete|]. rewrite <-H2. apply map_eq. intros o'. rewrite lookup_view_of. destruct (decide (o = o')) as [<-|Hne].
    + rewrite !lookup_delete_eq. cbn. by apply (H1 o e H3).
    + rewrite !lookup_delete_ne, lookup_view_of by done. done.
  - split.
    + apply map_Forall_insert_2; [|done]. split; cbn; done.
    + rewrite <-H2. apply map_eq. intros o'. rewrite lookup_view_of. destruct (decide (o = o')) as [<-|Hne].
      * by rewrite lookup_insert_eq, lookup_delete_eq.
      * rewrite lookup_insert_ne, lookup_delete_ne, lookup_view_of by done. done.
Qed.

Lemma Uncache_view c o : cache_ok base c -> view_of base (Uncache c o) = view_of base c /\ cache_ok base (Uncache c o).
Proof.
  intros Hc. unfold Uncache. destruct (c !! o) as [e|] eqn:E; [|done]. destruct (DIRTY e || FRESH e) eqn:Ef; [done|].
  split; [|by apply map_Forall_delete]. apply map_eq. intros o'. rewrite !lookup_view_of. destruct (decide (o = o')) as [<-|Hne].
  - rewrite lookup_delete_eq, E. cbn. apply orb_false_iff in Ef as [Hd _]. by apply (Hc o e E).
  - by rewrite lookup_delete_ne.
Qed.
End Refine.

Lemma write_entry_view base p o e : cache_ok base p -> entry_ok (view_of base p) o e ->
  exists p', write_entry o e (Some p) = Some p' /\ cache_ok base p' /\
    view_of base p' = match entry_view (Some e) None with Some c => <[o := c]> (view_of base p) | None => delete o (view_of base p) end.
Proof.
  intros Hp [Hd Hf]. rewrite lookup_view_of in Hd, Hf. cbn [entry_view]. unfold write_entry.
  assert (Hput : forall fr, (fr = true -> base !! o = None) ->
    cache_ok base (<[o := mkEntry (ce_coin e) true fr]> p) /\
    view_of base (<[o := mkEntry (ce_coin e) true fr]> p)
    = match (if IsSpent (ce_coin e) then None else Some (ce_coin e)) with Some c => <[o := c]> (view_of base p) | None => delete o (view_of base p) end).
  { intros fr Hfr. split; [apply map_Forall_insert_2; [by split|done]|]. apply map_eq. intros o'. rewrite lookup_view_of.
    destruct (decide (o = o')) as [<-|Hne]; [rewrite lookup_insert_eq|rewrite lookup_insert_ne by done]; cbn; destruct (IsSpent (ce_coin e));
      rewrite ?lookup_insert_eq, ?lookup_delete_eq, ?lookup_insert_ne, ?lookup_delete_ne, ?lookup_view_of by done; done. }
  destruct (DIRTY e) eqn:Ed; cbn [negb].
  2: { exists p. split_and!; [done..|]. specialize (Hd eq_refl). apply map_eq. intros o'. destruct (decide (o = o')) as [<-|Hne];
       destruct (IsSpent (ce_coin e)); rewrite ?lookup_insert_eq, ?lookup_delete_eq, ?lookup_insert_ne, ?lookup_delete_ne, ?lookup_view_of by done; done. }
  destruct (p !! o) as [us|] eqn:Ep; cbn [entry_view] in Hf.
  - destruct (FRESH e && negb (IsSpent (ce_coin us))) eqn:Eg.
    { apply andb_true_iff in Eg as [E1 E2]. specialize (Hf E1). by destruct (IsSpent (ce_coin us)). }
    destruct (FRESH us && IsSpent (ce_coin e)) eqn:Eu; [|destruct (Hput (FRESH us)); [by apply (Hp o us Ep)|]; by eexists].
    apply andb_true_iff in Eu as [E1 E2]. rewrite E2. eexists. split; [done|]. split; [by apply map_Forall_delete|].
    apply map_eq. intros o'. rewrite lookup_view_of. destruct (decide (o = o')) as [<-|Hne].
    + rewrite !lookup_delete_eq. cbn. by apply (Hp o us Ep).
    + by rewrite !lookup_delete_ne, lookup_view_of by done.
  - destruct (FRESH e && IsSpent (ce_coin e)) eqn:Eg; [|destruct (Hput (FRESH e)); [done|]; by eexists].
    apply andb_true_iff in Eg as [E1 ->]. exists p. split_and!; [done..|]. symmetry. apply delete_id. rewrite lookup_view_of, Ep. by apply Hf.
Qed.

(** Written in any order. *)
Lemma write_entries_view base (l : list (COutPoint * CCoinsCacheEntry)) : forall p, NoDup l.*1 -> cache_ok base p ->
  (forall o e, (o, e) ∈ l -> entry_ok (view_of base p) o e) ->
  exists p', BatchWrite p l = Some p' /\ cache_ok base p' /\
    view_of base p' = view_of (view_of base p) (list_to_map l).
Proof.
  induction l as [|[o e] l IH]; intros p Hnd Hp Hl.
  { exists p. split_and!; [done..|]. apply map_eq. intros o. by rewrite (lookup_view_of (view_of base p)). }
  apply NoDup_cons in Hnd as [Hni Hnd]. destruct (write_entry_view base p o e Hp) as (p1 & E1 & Hp1 & Hv1); [apply Hl; by left|].
  change (BatchWrite p ((o, e) :: l)) with (fold_left (fun p '(o, e) => write_entry o e p) l (write_entry o e (Some p))). rewrite E1.
  assert (Hsame : forall o', o' <> o -> view_of base p1 !! o' = view_of base p !! o').
  { intros o' Hne. rewrite Hv1. destruct (entry_view (Some e) None); by rewrite ?lookup_insert_ne, ?lookup_delete_ne by done. }
  destruct (IH p1 Hnd Hp1) as (p' & E' & Hp' & Hv').
  { intros o' e' Hin. assert (o' <> o) by (intros ->; apply Hni; by apply (list_elem_of_fmap_2 fst _ (o, e'))). unfold entry_ok. rewrite Hsame by done. apply (Hl o' e'). by right. }
  exists p'. split_and!; [done..|]. rewrite Hv'. apply map_eq. intros o'. rewrite !(lookup_view_of (view_of _ _)). cbn [list_to_map foldr fst snd].
  destruct (decide (o' = o)) as [->|Hne].
  - assert (list_to_map l !! o = (None : option CCoinsCacheEntry)) as -> by by apply not_elem_of_list_to_map_1. rewrite lookup_insert_eq. cbn [entry_view]. rewrite Hv1. cbn [entry_view].
    destruct (IsSpent (ce_coin e)); by rewrite ?lookup_insert_eq, ?lookup_delete_eq.
  - rewrite lookup_insert_ne by done. by rewrite Hsame.
Qed.

(** ** A cache against its map *)

Inductive cop := OpGet (o : COutPoint) | OpHave (o : COutPoint) | OpAdd (o : COutPoint) (coin : Coin) (possible_overwrite : bool)
  | OpSpend (o : COutPoint) | OpUncache (o : COutPoint).
Inductive canswer := ACoin (c : option Coin) | AHave (b : bool) | AUnit.

(** One call on the cache. *)
Definition run_op (base : view) (c : CCoinsMap) (op : cop) : option (CCoinsMap * canswer) :=
  match op with
  | OpGet o => let '(c, r) := GetCoin base c o in Some (c, ACoin r)
  | OpHave o => let '(c, r) := HaveCoin base c o in Some (c, AHave r)
  | OpAdd o coin ow => option_map (fun c => (c, AUnit)) (AddCoin c o coin ow)
  | OpSpend o => let '(c, r) := SpendCoin base c o in Some (c, ACoin r)
  | OpUncache o => Some (Uncache c o, AUnit)
  end.
(** The same call on a map: defined where the cache's callers may make it. *)
Definition abs_op (v : view) (op : cop) : option (view * canswer) :=
  match op with
  | OpGet o => Some (v, ACoin (v !! o))
  | OpHave o => Some (v, AHave (bool_decide (is_Some (v !! o))))
  | OpAdd o coin ow =>
      if IsSpent coin then None else
      if negb ow && bool_decide (is_Some (v !! o)) then None else
      Some (if IsUnspendable (scriptPubKey (coin_out coin)) then v else <[o := coin]> v, AUnit)
  | OpSpend o => match v !! o with Some coin => Some (delete o v, ACoin (Some coin)) | None => None end
  | OpUncache o => Some (v, AUnit)
  end.
Fixpoint run_ops {S} (step : S -> cop -> option (S * canswer)) (s : S) (ops : list cop) : option (S * list canswer) :=
  match ops with
  | [] => Some (s, [])
  | op :: ops =>
      match step s op with
      | None => None
      | Some (s, a) => match run_ops step s ops with None => None | Some (s, l) => Some (s, a :: l) end
      end
  end.

Lemma run_op_refines base c op v a : unspent_view base -> cache_ok base c -> abs_op (view_of base c) op = Some (v, a) ->
  exists c', run_op base c op = Some (c', a) /\ cache_ok base c' /\ view_of base c' = v.
Proof.
  intros Hb Hc. destruct op as [o|o|o coin ow|o|o]; cbn [abs_op run_op].
  - intros [= <- <-]. destruct (GetCoin_view base Hb c o Hc) as (H1 & H2 & H3). destruct (GetCoin base c o) as [c' r]. cbn [fst snd] in *. rewrite H1. by eexists.
  - intros [= <- <-]. destruct (HaveCoin_view base Hb c o Hc) as (H1 & H2 & H3). destruct (HaveCoin base c o) as [c' r]. cbn [fst snd] in *. rewrite H1. by eexists.
  - destruct (IsSpent coin) eqn:Es; [done|]. destruct (negb ow && _) eqn:Eg; [done|]. intros [= <- <-].
    destruct (AddCoin_view base c o coin ow Hc Es) as (c' & E & Hc' & Hv); [|rewrite E; by eexists].
    intros ->. cbn in Eg. apply bool_decide_eq_false in Eg. by apply eq_None_not_Some.
  - destruct (view_of base c !! o) as [coin|] eqn:E; [|done]. intros [= <- <-].
    destruct (SpendCoin_view base Hb c o coin Hc E) as (c' & E' & Hc' & Hv). rewrite E'. by eexists.
  - intros [= <- <-]. destruct (Uncache_view base c o Hc). by eexists.
Qed.

Lemma run_ops_refines base : unspent_view base -> forall ops c v l, cache_ok base c -> run_ops abs_op (view_of base c) ops = Some (v, l) ->
  exists c', run_ops (run_op base) c ops = Some (c', l) /\ cache_ok base c' /\ view_of base c' = v.
Proof.
  intros Hb ops. induction ops as [|op ops IH]; intros c v l Hc; cbn [run_ops].
  { intros [= <- <-]. by eexists. }
  destruct (abs_op (view_of base c) op) as [[v1 a]|] eqn:E1; [|done]. destruct (run_op_refines base c op v1 a Hb Hc E1) as (c1 & E & Hc1 & Hv1). rewrite E, <-Hv1.
  destruct (run_ops abs_op (view_of base c1) ops) as [[v2 l2]|] eqn:E2; [|done]. intros [= <- <-].
  destruct (IH c1 v2 l2 Hc1 E2) as (c' & E' & Hc' & Hv'). rewrite E'. by eexists.
Qed.

(** C6. The coins cache is the map it stands for. Whatever calls are made on an
    empty cache over a parent cache, as long as the same calls make sense on
    the plain map of unspent coins (a spent coin was there, a coin added as
    new was not), none of them throws, each answers what the map answers, and
    the cache stands for the resulting map; flushing it into the parent, in
    whatever order its hash table lists the entries, never throws either and
    leaves the parent standing for exactly that map, its own flags still
    right towards the coins below it. *)
Theorem coins_cache_refines (base : view) (parent : CCoinsMap) (ops : list cop) (v : view) (l : list canswer) :
  unspent_view base -> cache_ok base parent -> run_ops abs_op (view_of base parent) ops = Some (v, l) ->
  exists c, run_ops (run_op (view_of base parent)) ∅ ops = Some (c, l) /\ view_of (view_of base parent) c = v /\
    forall entries, entries ≡ₚ map_to_list c ->
      exists parent', BatchWrite parent entries = Some parent' /\ view_of base parent' = v /\ cache_ok base parent'.
Proof.
  intros Hb Hp Hr. assert (He : view_of (view_of base parent) ∅ = view_of base parent) by (apply map_eq; intros o; by rewrite lookup_view_of).
  destruct (run_ops_refines (view_of base parent) (view_of_unspent _ _ Hb) ops ∅ v l) as (c & Hc & Hok & Hv); [apply map_Forall_empty|by rewrite He|].
  exists c. split_and!; [done..|]. intros entries Hperm.
  assert (Hnd : NoDup entries.*1) by (rewrite Hperm; apply NoDup_fst_map_to_list).
  destruct (write_entries_view base entries parent Hnd Hp) as (p' & Hw & Hp' & Hv').
  { intros o e Hin. apply Hok. apply elem_of_map_to_list. by rewrite <-Hperm. }
  exists p'. split_and!; [done| |done]. rewrite Hv', <-Hv. f_equal. rewrite <-(list_to_map_to_list c). by apply list_to_map_proper.
Qed.

(** Two caches over one coin: it is spent through both, another is added. *)
Lemma coins_cache_refines_witness :
  let o1 := mkOutPoint [1] 0 in let o2 := mkOutPoint [2] 0 in
  let coin := mkCoin (mkTxOut 5 [0x51]) false 1 in
  let base : view := {[ o1 := coin ]} in
  exists c, run_ops (run_op (view_of base ∅)) ∅ [OpSpend o1; OpAdd o2 coin false; OpHave o1; OpGet o2]
            = Some (c, [ACoin (Some coin); AUnit; AHave false; ACoin (Some coin)]) /\
    view_of (view_of base ∅) c = {[ o2 := coin ]} /\
    forall entries, entries ≡ₚ map_to_list c ->
      exists parent', BatchWrite ∅ entries = Some parent' /\ view_of base parent' = {[ o2 := coin ]} /\ cache_ok base parent'.
Proof.
  intros o1 o2 coin base. apply (coins_cache_refines base ∅); [|apply map_Forall_empty|by vm_compute].
  apply map_Forall_singleton. reflexivity.
Defined.
