(* ===== verification/Producer.v ===== *)
(** * The block producer

    [UpdateTime], [CreateNewBlock] and [IncrementExtraNonce] of src/src/miner.cpp,
    and [ProduceOneBlock] and the loop of [ProducerThread] of src/src/lottery.cpp,
    on top of the block checks. The choice of transactions from the mempool, the
    wallet's mining script and [ProcessNewBlock] are parameters. *)

From S2P Require Import Prelude OrdMap Sha256 Script Serialize Handle Slots Tx Merkle Draw Key Attest Registry Coinbase.
From S2P Require Import ArithUint Chain Pow Headers Blocks.

Local Open Scope Z_scope.

(** What the node holds: the header index with its statuses, the active chain,
    and the lottery's state. *)
Record Node := mkNodeState {
  nd_headers : HeaderState;
  nd_chain : CChain;
  nd_att : AttestState;
  nd_reg : Registry;
  nd_allow : Allowlist;
}.

Definition nd_arena (n : Node) : arena := entries (hs_index (nd_headers n)).
Definition set_lottery (n : Node) (att : AttestState) (r : Registry) : Node :=
  mkNodeState (nd_headers n) (nd_chain n) att r (nd_allow n).

(** The view with the node's own active chain. *)
Definition node_view (hv : HeaderView) (n : Node) : HeaderView :=
  mkHV (nd_chain n) (hv_GetTime hv) (nAdjustedTime hv) (hv_connman hv) (nMaxReorgDepth hv) (nMinReorgPeers hv)
    (nMinReorgAge hv) (fCheckpointsEnabled hv) (AreAssetsDeployed hv).

Definition set_time (h : CBlockHeader) (t : Z) : CBlockHeader :=
  mkHeader (hdr_nVersion h) (hashPrevBlock h) (hashMerkleRoot h) t (nBits h) (nNonce h) (hdr_nHeight h)
    (nNonce64 h) (mix_hash h).
Definition set_bits (h : CBlockHeader) (b : Z) : CBlockHeader :=
  mkHeader (hdr_nVersion h) (hashPrevBlock h) (hashMerkleRoot h) (nTime h) b (nNonce h) (hdr_nHeight h)
    (nNonce64 h) (mix_hash h).
Definition set_root (h : CBlockHeader) (root : bytes) : CBlockHeader :=
  mkHeader (hdr_nVersion h) (hashPrevBlock h) root (nTime h) (nBits h) (nNonce h) (hdr_nHeight h)
    (nNonce64 h) (mix_hash h).

(** The header with its time raised and its bits; [None]: a failed assertion of
    the difficulty rule. *)
Definition UpdateTime (params : PowParams) (a : arena) (adjusted : Z) (h : CBlockHeader) (pindexPrev : nat)
    : option CBlockHeader :=
  let nNewTime := Z.max (index_mtp a pindexPrev + 1) adjusted in
  let h := if nTime h <? nNewTime then set_time h (uwrap 32 nNewTime) else h in
  if fPowAllowMinDifficultyBlocks params then
    match GetNextWorkRequired a params pindexPrev h with Some b => Some (set_bits h b) | None => None end
  else Some h.

Definition coinbase_template (nHeight value : Z) (script : CScript) : CTransaction :=
  mkTx 2 [mkTxIn (mkOutPoint uint256_null 0xffffffff) (push_int64 nHeight ++ [OP_0]) SEQUENCE_FINAL []]
    [mkTxOut value script] 0.

(** The coinbase script with the extra nonce, which starts over with every
    block the producer makes, and the new Merkle root. [COINBASE_FLAGS] is
    empty. *)
Definition extra_nonce_script (nHeight : Z) : CScript := push_int64 nHeight ++ push (CScriptNum_serialize 1).
Definition set_script_sig (cb : CTransaction) (script : CScript) : CTransaction :=
  match vin cb with
  | i :: ins => mkTx (tx_nVersion cb) (mkTxIn (prevout i) script (nSequence i) (scriptWitness i) :: ins)
                     (vout cb) (nLockTime cb)
  | [] => cb
  end.
Definition IncrementExtraNonce (block : CBlock) (nHeight : Z) : CBlock :=
  let txs := match vtx block with
             | cb :: txs => set_script_sig cb (extra_nonce_script nHeight) :: txs
             | [] => []
             end in
  mkBlock (set_root (block_header block) (BlockMerkleRoot txs).1) txs.

(** Why [CreateNewBlock] gave no block: an assertion failed, or the template
    did not pass [TestBlockValidity] and it threw. *)
Inductive create_error := AssertFailed | TestFailed (o : outcome).

Section Producer.
Context `{Secp256k1}.
Variable BlockHash : CBlockHeader -> bytes.
Variable BlockHashFull : CBlockHeader -> bytes * bytes.
Variable hp : HeaderParams.
Variable bp : BlockParams.
Variable params : CChainParams.
Variable CheckTransaction : CTransaction -> verdict.
Variable ConnectBlock : CBlock -> verdict.

Abbreviation interval := (nSubsidyHalvingInterval params).

(** The header before its difficulty is set, from the adjusted time. *)
Definition fresh_header (version adjusted : Z) (prev : CBlockIndex) : CBlockHeader :=
  mkHeader version (phashBlock prev) uint256_null (uwrap 32 adjusted) 0 0 0 0 uint256_null.

(** The template on the tip [p]: the block, and the lottery's state after it.
    [selected] are the transactions taken from the mempool with their fees. *)
Definition assemble (env : Env) (n : Node) (selected : list CTransaction * Z) (version adjusted : Z)
    (script : CScript) (p : nat) (prev : CBlockIndex) : option (CBlock * AttestState * Registry) :=
  let height := nHeight prev + 1 in
  let subsidy := GetBlockSubsidy height interval in
  let nFees := selected.2 in
  let cb := coinbase_template height (nFees + subsidy) script in
  let '(txs, att, r) :=
    ApplyCoinbasePayouts env (nd_allow n) (nd_att n) (nd_reg n) (cb :: selected.1) height (phashBlock prev)
      (genesis_nTime params) interval subsidy nFees script in
  let txs := GenerateCoinbaseCommitment (nSegwitEnabled bp) txs in
  match UpdateTime (hp_pow hp) (nd_arena n) adjusted (fresh_header version adjusted prev) p with
  | None => None
  | Some h =>
      match GetNextWorkRequired (nd_arena n) (hp_pow hp) p h with
      | None => None
      | Some bits =>
          let h := mkHeader (hdr_nVersion h) (hashPrevBlock h) (hashMerkleRoot h) (nTime h) bits 0
                     (uwrap 32 height) 0 (mix_hash h) in
          Some (mkBlock h txs, att, r)
      end
  end.

Definition CreateNewBlock (env : Env) (hv : HeaderView) (n : Node) (selected : list CTransaction * Z) (version : Z)
    (script : CScript) : result CBlock create_error * Node :=
  match chain_Tip (nd_chain n) with
  | None => (Err AssertFailed, n)
  | Some p =>
  match nd_arena n !! p with
  | None => (Err AssertFailed, n)
  | Some prev =>
  match assemble env n selected version (nAdjustedTime hv) script p prev with
  | None => (Err AssertFailed, n)
  | Some (block, att, r) =>
  match TestBlockValidity BlockHash BlockHashFull hp bp params CheckTransaction ConnectBlock
          (nd_arena n) (node_view hv n) att block p false false with
  | None => (Err AssertFailed, set_lottery n att r)
  | Some (Judged Accept, att) => (Ok block, set_lottery n att r)
  | Some (o, att) => (Err (TestFailed o), set_lottery n att r)
  end
  end
  end
  end.

(** [ProcessNewBlock]: whether it accepts the block, and the node after it. *)
Variable ProcessNewBlock : Node -> CBlock -> bool * Node.

(** The block after the extra nonce and the clamped time. *)
Definition finish_block (env : Env) (n : Node) (block : CBlock) (p : nat) (prev : CBlockIndex) : CBlock :=
  let height := nHeight prev + 1 in
  let block := IncrementExtraNonce block height in
  if MineBlocksOnDemand params then block else
  mkBlock (set_time (block_header block)
             (uwrap 32 (ClampTimeToSlot height (genesis_nTime params) (GetTime env) (index_mtp (nd_arena n) p))))
    (vtx block).

(** Whether a block was produced, the block handed to [ProcessNewBlock], and the
    node. [wallet] is the wallet's mining script, if it has one. *)
Definition ProduceOneBlock (env : Env) (hv : HeaderView) (n : Node) (wallet : option CScript)
    (selected : list CTransaction * Z) (version : Z) : bool * option CBlock * Node :=
  if negb (MayProduceBlock env (nd_att n) (nd_reg n)) then (false, None, n) else
  match wallet with
  | None => (false, None, n)
  | Some script =>
      if zlen script =? 0 then (false, None, n) else
      let n := set_lottery n (nd_att n) (SetLocalScript (nd_reg n) script) in
      match CreateNewBlock env hv n selected version script with
      | (Err _, n) => (false, None, n)
      | (Ok block, n) =>
          match chain_Tip (nd_chain n) with
          | None => (false, None, n)
          | Some p =>
              match nd_arena n !! p with
              | None => (false, None, n)
              | Some prev =>
                  let block := finish_block env n block p prev in
                  let '(ok, n) := ProcessNewBlock n block in (ok, Some block, n)
              end
          end
      end
  end.

(** The locals of the thread. *)
Record ProducerState := mkProd {
  lastProducedSlot : Z;
  lastProducedWallMinute : Z;
  fAdoptedWallet : bool;
}.
Definition producer_init : ProducerState := mkProd (-1) (-1) false.

(** What one turn of the loop reads from outside: the environment with the
    clock at its start, at the latch, during production, and the clock after. *)
Record tick := mkTick {
  tk_env : Env;
  tk_latch : Z;
  tk_prod_env : Env;
  tk_hv : HeaderView;
  tk_after : Z;
  tk_wallet : option CScript;
  tk_selected : list CTransaction * Z;
  tk_version : Z;
}.

Definition SETTLE_SECONDS : Z := 5.
Definition BLOCK_HAVE_DATA : Z := 8.

(** A block with data on top of [tip]. *)
Definition has_sibling (n : Node) (tip : nat) (nextHeight : Z) : bool :=
  existsb (fun es => is_ptr (pprev es.1) tip && (nHeight es.1 =? nextHeight) &&
                     negb (Z.land es.2 BLOCK_HAVE_DATA =? 0))
    (combine (nd_arena n) (hs_status (nd_headers n))).

(** One turn of the loop: the block handed to [ProcessNewBlock] if any, whether
    it was accepted, and the new state. *)
Definition producer_turn (tk : tick) (s : ProducerState) (n : Node)
    : option CBlock * bool * ProducerState * Node :=
  let env := tk_env tk in
  let now := GetTime env in
  let '(adopted, r) :=
    if fAdoptedWallet s then (true, nd_reg n) else
    match tk_wallet tk with
    | Some script => if zlen script =? 0 then (false, nd_reg n) else (true, SetLocalScript (nd_reg n) script)
    | None => (false, nd_reg n)
    end in
  let s := mkProd (lastProducedSlot s) (lastProducedWallMinute s) adopted in
  let '(_, att, r) := HeartbeatLocal env (nd_allow n) (nd_att n) r now in
  let n := set_lottery n att r in
  let idle := (None, false, s, n) in
  if negb (MayProduceBlock env att r) then idle else
  if MineBlocksOnDemand params then idle else
  match chain_Tip (nd_chain n) with
  | None => idle
  | Some tip =>
  match nd_arena n !! tip with
  | None => idle
  | Some te =>
  let nextHeight := nHeight te + 1 in
  let slot := SlotFromHeight nextHeight (genesis_nTime params) in
  let currentSlot := SlotFromTime now in
  let wait :=
    if NetworkIsMain params then Z.quot (tk_latch tk) 60 =? lastProducedWallMinute s
    else (currentSlot <? slot) || (now <? slot * SLOT_SECONDS + SETTLE_SECONDS) in
  if wait then idle else
  if slot =? lastProducedSlot s then idle else
  if (nextHeight <=? chain_Height (nd_chain n)) || has_sibling n tip nextHeight
  then (None, false, mkProd slot (lastProducedWallMinute s) adopted, n) else
  let draw := ComputeDraw env att r nextHeight (phashBlock te) (genesis_nTime params) interval
                (GetBlockSubsidy nextHeight interval) in
  if zlen (d_winners draw) =? 0 then idle else
  if IsBakedSeed (env_params env) att || bytes_eqb (localId r) (nth 0 (d_winners draw) []) then
    let '(ok, block, n) :=
      ProduceOneBlock (tk_prod_env tk) (tk_hv tk) n (tk_wallet tk) (tk_selected tk) (tk_version tk) in
    if ok then (block, true, mkProd slot (Z.quot (tk_after tk) 60) adopted, n)
    else (block, false, s, n)
  else idle
  end
  end.
End Producer.

(** ** Times and difficulty at the tip *)

Lemma take_index_times a k : forall n p, take k (index_times a n p) = index_times a (k `min` n) p.
Proof.
  induction k as [|k IH]; intros n p; [done|]. destruct n as [|n]; [done|]. cbn [index_times Nat.min].
  destruct (a !! p) as [e|]; [|done]. cbn [take firstn]. f_equal. destruct (pprev e); [apply IH|apply take_nil].
Qed.

(** Past the genesis block there is nothing more to collect. *)
Lemma index_times_more a n p e : arena_ok a -> a !! p = Some e -> (S (Z.to_nat (nHeight e)) <= n)%nat ->
  index_times a n p = index_times a (S (Z.to_nat (nHeight e))) p.
Proof.
  intros Ha. revert p e. induction n as [|n IH]; intros p e Hp Hn; [lia|]. cbn [index_times]. rewrite Hp.
  destruct (pprev e) as [q|] eqn:Eq; [|done]. f_equal.
  destruct (parent_ok a Ha p e q Hp Eq) as (_ & eq & Hq & Hh & _). pose proof (height_nonneg a Ha q eq Hq).
  rewrite (IH q eq Hq) by lia. f_equal. lia.
Qed.

Lemma index_mtp_full a p e : arena_ok a -> a !! p = Some e ->
  index_mtp a p = GetMedianTimePast (index_times a (S (Z.to_nat (nHeight e))) p).
Proof.
  intros Ha Hp. unfold index_mtp, GetMedianTimePast. rewrite !take_index_times, Nat.min_id.
  destruct (Nat.le_ge_cases nMedianTimeSpan (S (Z.to_nat (nHeight e)))) as [Hle|Hge].
  - by rewrite Nat.min_l by done.
  - rewrite Nat.min_r by done. by rewrite (index_times_more a nMedianTimeSpan p e).
Qed.

Lemma slot_chain_nonneg g times : 0 <= g -> slot_chain g times -> Forall (fun t => 0 <= t) times.
Proof.
  intros Hg. induction times as [|t rest IH]; [constructor|]. intros Hc.
  destruct rest as [|t' rest]; [by constructor; [cbn in Hc; lia|constructor]|].
  apply slot_chain_cons in Hc as [Ht Hc]; [|done]. constructor; [|by apply IH].
  rewrite SlotStartTime_eq in Ht by (done || apply zlen_nonneg).
  pose proof (zlen_nonneg (t' :: rest)). pose proof (Z.div_pos g 60 Hg). lia.
Qed.

(** The difficulty rule reads only the time of the new header. *)
Lemma GetNextWorkRequired_time a params p b b' :
  nTime b = nTime b' -> GetNextWorkRequired a params p b = GetNextWorkRequired a params p b'.
Proof.
  intros Ht. unfold GetNextWorkRequired, DarkGravityWave, GetNextWorkRequiredBTC. by rewrite Ht.
Qed.

Lemma IncrementExtraNonce_header block h : nTime (block_header (IncrementExtraNonce block h)) = nTime (block_header block).
Proof. done. Qed.

Section Runs.
Context `{Secp256k1}.
Context (BlockHash : CBlockHeader -> bytes) (BlockHashFull : CBlockHeader -> bytes * bytes).
Context (hp : HeaderParams) (bp : BlockParams) (params : CChainParams).
Context (CheckTransaction : CTransaction -> verdict) (ConnectBlock : CBlock -> verdict).
Context (ProcessNewBlock : Node -> CBlock -> bool * Node).

(** The header of the template: time, height and bits. *)
Lemma assemble_header env n selected version adjusted script p prev block att r :
  assemble hp bp params env n selected version adjusted script p prev = Some (block, att, r) ->
  0 <= index_mtp (nd_arena n) p < 2 ^ 32 - 1 -> 0 <= adjusted < 2 ^ 32 ->
  nTime (block_header block) = Z.max (index_mtp (nd_arena n) p + 1) adjusted /\
  hdr_nVersion (block_header block) = version /\ hashPrevBlock (block_header block) = phashBlock prev /\
  hdr_nHeight (block_header block) = uwrap 32 (nHeight prev + 1) /\
  GetNextWorkRequired (nd_arena n) (hp_pow hp) p (block_header block) = Some (nBits (block_header block)).
Proof.
  intros Hasm Hmtp Hadj. unfold assemble in Hasm.
  destruct (ApplyCoinbasePayouts _ _ _ _ _ _ _ _ _ _ _ _) as [[txs att1] r1].
  destruct (UpdateTime _ _ _ _ _) as [h|] eqn:Eu; [|done].
  destruct (GetNextWorkRequired _ _ _ h) as [bits|] eqn:Eb; [|done]. injection Hasm as <- _ _. cbn [block_header].
  assert (Hh : nTime h = Z.max (index_mtp (nd_arena n) p + 1) adjusted /\ hdr_nVersion h = version /\
               hashPrevBlock h = phashBlock prev).
  { unfold UpdateTime, fresh_header in Eu. cbn [nTime] in Eu. rewrite !uwrap_small in Eu by lia.
    destruct (fPowAllowMinDifficultyBlocks _); [destruct (GetNextWorkRequired _ _ _ _) as [b|]; [|done]|];
      injection Eu as <-; cbn [set_bits nTime hdr_nVersion hashPrevBlock];
      destruct (Z.ltb_spec adjusted (Z.max (index_mtp (nd_arena n) p + 1) adjusted));
      cbn [set_time nTime hdr_nVersion hashPrevBlock]; (split; [lia|done]). }
  destruct Hh as (Ht & Hv & Hp). cbn [nTime hdr_nVersion hashPrevBlock hdr_nHeight nBits].
  split; [done|]. split; [done|]. split; [done|]. split; [done|]. rewrite <-Eb. by apply GetNextWorkRequired_time.
Qed.

(** The node after a sequence of turns, and the blocks handed on. *)
Fixpoint run (ticks : list tick) (s : ProducerState) (n : Node) : list CBlock * ProducerState * Node :=
  match ticks with
  | [] => ([], s, n)
  | tk :: ticks =>
      let '(b, _, s, n) := producer_turn BlockHash BlockHashFull hp bp params CheckTransaction ConnectBlock
                             ProcessNewBlock tk s n in
      let '(bs, s, n) := run ticks s n in
      (match b with Some b => b :: bs | None => bs end, s, n)
  end.

Lemma out_of_slot_rejected a hv block p prev :
  fMineBlocksOnDemand hp = false -> a !! p = Some prev -> 1 <= nHeight prev + 1 ->
  SlotStartTime (nHeight prev + 1) (hp_genesis_nTime hp) + SLOT_SECONDS <= nTime block ->
  ContextualCheckBlockHeader hp a hv block p <> Some Accept.
Proof.
  intros Hd Hp Hh Ht Hc. unfold ContextualCheckBlockHeader in Hc. rewrite Hp in Hc.
  destruct (reorg_too_deep _ _ _) as [[]|]; [done| |done]. destruct (GetNextWorkRequired _ _ _ _); [|done].
  injection Hc as Hc. destruct (negb _); [done|]. destruct (_ && _ && _); [done|]. destruct (_ && _); [done|].
  unfold CheckHeaderTime, CheckBlockTime in Hc. rewrite Hd in Hc. cbn [negb] in Hc.
  destruct (Z.leb_spec (nHeight prev + 1) 0); [lia|].
  unfold SlotStartTime in Ht.
  rewrite (proj2 (Z.leb_le _ _) Ht), orb_true_r in Hc. done.
Qed.

Lemma tip_mtp T n p prev :
  tree_ok hp T (nd_headers n) -> fMineBlocksOnDemand hp = false -> 0 <= hp_genesis_nTime hp ->
  nd_arena n !! p = Some prev ->
  let times := index_times (nd_arena n) (S (Z.to_nat (nHeight prev))) p in
  slot_chain (hp_genesis_nTime hp) times /\ zlen times = nHeight prev + 1 /\
  index_mtp (nd_arena n) p = GetMedianTimePast times /\
  0 <= index_mtp (nd_arena n) p < SlotStartTime (nHeight prev + 1) (hp_genesis_nTime hp).
Proof.
  intros [Hi _ _ Hall] Hd Hg Hp times. destruct Hi as [Ha _]. fold (nd_arena n) in Ha, Hall.
  destruct (Hall p prev Hp) as [_ Hs]. destruct (Hs Hd) as [Hc _]. fold times in Hc.
  assert (Hl : zlen times = nHeight prev + 1).
  { unfold times. pose proof (height_nonneg _ Ha p prev Hp).
    rewrite (index_times_length _ _ p prev) by (done || lia). lia. }
  split; [done|]. split; [done|]. split; [by apply index_mtp_full|].
  rewrite (index_mtp_full _ p prev) by done. fold times. rewrite <-Hl. split; [|by apply slot_chain_mtp].
  pose proof (slot_chain_nonneg _ times Hg Hc) as Hn. rewrite Forall_forall in Hn.
  apply Hn, GetMedianTimePast_in. intros En. by rewrite En in Hc.
Qed.

(** Once the clock has left the slot of the next height, no template passes. *)
Lemma create_past_slot T env hv n selected version script p prev :
  tree_ok hp T (nd_headers n) -> fMineBlocksOnDemand hp = false -> 0 <= hp_genesis_nTime hp ->
  chain_Tip (nd_chain n) = Some p -> nd_arena n !! p = Some prev ->
  SlotFromHeight (nHeight prev + 1) (hp_genesis_nTime hp) < SlotFromTime (nAdjustedTime hv) ->
  nAdjustedTime hv < 2 ^ 32 ->
  exists e n', CreateNewBlock BlockHash BlockHashFull hp bp params CheckTransaction ConnectBlock
                 env hv n selected version script = (Err e, n') /\
    nd_headers n' = nd_headers n /\ nd_chain n' = nd_chain n.
Proof.
  intros Hok Hd Hg Htip Hp Hslot Hadj.
  destruct (tip_mtp T n p prev Hok Hd Hg Hp) as (_ & _ & _ & Hm0 & Hmtp).
  pose proof (height_nonneg _ (proj1 (to_index _ _ _ Hok)) p prev Hp) as Hh0.
  assert (Hpos : 0 <= nAdjustedTime hv).
  { destruct (Z.lt_ge_cases (nAdjustedTime hv) 0) as [Hneg|]; [|lia]. unfold SlotFromTime at 1 in Hslot.
    destruct (Z.ltb_spec (nAdjustedTime hv) 0); [|lia]. unfold SlotFromHeight in Hslot.
    destruct (Z.leb_spec (nHeight prev + 1) 0); [lia|].
    rewrite SlotFromTime_nonneg in Hslot by done. pose proof (Z.div_pos (hp_genesis_nTime hp) 60). lia. }
  assert (Hend : SlotStartTime (nHeight prev + 1) (hp_genesis_nTime hp) + SLOT_SECONDS <= nAdjustedTime hv).
  { unfold SlotStartTime, SLOT_SECONDS. rewrite (SlotFromTime_nonneg (nAdjustedTime hv)) in Hslot by done.
    pose proof (Z.div_mod (nAdjustedTime hv) 60). pose proof (Z.mod_pos_bound (nAdjustedTime hv) 60). lia. }
  unfold CreateNewBlock. rewrite Htip, Hp.
  destruct (assemble _ _ _ _ _ _ _ _ _ _ _) as [[[block att] r]|] eqn:Ea; [|by eexists _, _].
  destruct (assemble_header _ _ _ _ _ _ _ _ _ _ _ Ea) as (Ht & _); [unfold SLOT_SECONDS in Hend; lia|lia|].
  unfold TestBlockValidity.
  pose proof (out_of_slot_rejected (nd_arena n) (node_view hv n) (block_header block) p prev Hd Hp) as Hrej.
  destruct (ContextualCheckBlockHeader _ _ _ _ _) as [[]|]; [|by eexists _, _..].
  exfalso. apply Hrej; [lia|lia|done].
Qed.

Definition same_chain (n n' : Node) : Prop := nd_headers n' = nd_headers n /\ nd_chain n' = nd_chain n.

Lemma produce_past_slot T env hv n wallet selected version p prev :
  tree_ok hp T (nd_headers n) -> fMineBlocksOnDemand hp = false -> 0 <= hp_genesis_nTime hp ->
  chain_Tip (nd_chain n) = Some p -> nd_arena n !! p = Some prev ->
  SlotFromHeight (nHeight prev + 1) (hp_genesis_nTime hp) < SlotFromTime (nAdjustedTime hv) ->
  nAdjustedTime hv < 2 ^ 32 ->
  exists n', ProduceOneBlock BlockHash BlockHashFull hp bp params CheckTransaction ConnectBlock ProcessNewBlock
               env hv n wallet selected version = (false, None, n') /\ same_chain n n'.
Proof.
  intros Hok Hd Hg Htip Hp Hslot Hadj. unfold ProduceOneBlock.
  destruct (negb _); [by exists n|]. destruct wallet as [script|]; [|by exists n].
  destruct (zlen script =? 0); [by exists n|].
  set (n1 := set_lottery n _ _).
  destruct (create_past_slot T env hv n1 selected version script p prev) as (e & n' & -> & Hh & Hc); [done..|].
  exists n'. split; [done|]. split; [by rewrite Hh|by rewrite Hc].
Qed.

Lemma turn_past_slot T tk s n p prev :
  tree_ok hp T (nd_headers n) -> fMineBlocksOnDemand hp = false -> 0 <= hp_genesis_nTime hp ->
  chain_Tip (nd_chain n) = Some p -> nd_arena n !! p = Some prev ->
  SlotFromHeight (nHeight prev + 1) (hp_genesis_nTime hp) < SlotFromTime (nAdjustedTime (tk_hv tk)) ->
  nAdjustedTime (tk_hv tk) < 2 ^ 32 ->
  exists s' n', producer_turn BlockHash BlockHashFull hp bp params CheckTransaction ConnectBlock ProcessNewBlock
                  tk s n = (None, false, s', n') /\ same_chain n n'.
Proof.
  intros Hok Hd Hg Htip Hp Hslot Hadj. unfold producer_turn.
  destruct (if fAdoptedWallet s then _ else _) as [adopted r0].
  destruct (HeartbeatLocal _ _ _ _ _) as [[ok att] r]. cbv zeta.
  assert (Hidle : same_chain n (set_lottery n att r)) by done.
  destruct (negb (MayProduceBlock _ _ _)); [by eexists _, _|]. destruct (MineBlocksOnDemand params); [by eexists _, _|].
  change (nd_chain (set_lottery n att r)) with (nd_chain n). rewrite Htip.
  change (nd_arena (set_lottery n att r)) with (nd_arena n). rewrite Hp.
  destruct (if NetworkIsMain params then _ else _); [by eexists _, _|]. destruct (_ =? lastProducedSlot _); [by eexists _, _|].
  destruct (_ || has_sibling _ _ _); [by eexists _, _|]. destruct (zlen _ =? 0); [by eexists _, _|].
  destruct (_ || bytes_eqb _ _); [|by eexists _, _].
  destruct (produce_past_slot T (tk_prod_env tk) (tk_hv tk) (set_lottery n att r) (tk_wallet tk) (tk_selected tk)
              (tk_version tk) p prev) as (n' & Hprod & Hsame); [done..|].
  rewrite Hprod. by eexists _, _.
Qed.

Lemma run_past_slot T p prev ticks : forall s n,
  tree_ok hp T (nd_headers n) -> fMineBlocksOnDemand hp = false -> 0 <= hp_genesis_nTime hp ->
  chain_Tip (nd_chain n) = Some p -> nd_arena n !! p = Some prev ->
  Forall (fun tk => SlotFromHeight (nHeight prev + 1) (hp_genesis_nTime hp) < SlotFromTime (nAdjustedTime (tk_hv tk)) /\
                    nAdjustedTime (tk_hv tk) < 2 ^ 32) ticks ->
  exists s' n', run ticks s n = ([], s', n') /\ same_chain n n'.
Proof.
  induction ticks as [|tk ticks IH]; intros s n Hok Hd Hg Htip Hp Hf; [by eexists _, _|].
  apply Forall_cons in Hf as [[Hslot Hadj] Hf]. cbn [run].
  destruct (turn_past_slot T tk s n p prev) as (s1 & n1 & -> & Hh & Hc); [done..|].
  destruct (IH s1 n1) as (s2 & n2 & -> & Hh2 & Hc2); try done.
  - by rewrite Hh.
  - by rewrite Hc.
  - unfold nd_arena. by rewrite Hh.
  - eexists _, _. split; [done|]. split; [by rewrite Hh2|by rewrite Hc2].
Qed.
End Runs.

(** C25. A missed minute stops the chain. On a network with the slot lock, take a
    node whose header tree was built by [AcceptBlockHeader] from the genesis
    block, and whose tip is a block of it. Once its adjusted clock has left the
    minute of the next height, the producer loop hands no block on, however
    many turns it takes, and the index and the active chain stay as they are:
    [CreateNewBlock] stamps the template with the clock and throws when
    [TestBlockValidity] applies the slot lock to it, before [ProduceOneBlock]
    gets to clamp the time into the slot. *)
Theorem missed_slot_stalls `{Secp256k1} BlockHash BlockHashFull (hp : HeaderParams) (bp : BlockParams)
    (params : CChainParams) CheckTransaction ConnectBlock ProcessNewBlock (T : Z) (n : Node) (p : nat)
    (prev : CBlockIndex) (ticks : list tick) (s : ProducerState) :
  fMineBlocksOnDemand hp = false -> 0 <= hp_genesis_nTime hp -> pow_wf (hp_pow hp) ->
  header_reach BlockHash BlockHashFull hp T (nd_headers n) ->
  chain_Tip (nd_chain n) = Some p -> nd_arena n !! p = Some prev ->
  Forall (fun tk => SlotFromHeight (nHeight prev + 1) (hp_genesis_nTime hp) < SlotFromTime (nAdjustedTime (tk_hv tk)) /\
                    nAdjustedTime (tk_hv tk) < 2 ^ 32) ticks ->
  exists s' n',
    run BlockHash BlockHashFull hp bp params CheckTransaction ConnectBlock ProcessNewBlock ticks s n = ([], s', n') /\
    nd_headers n' = nd_headers n /\ nd_chain n' = nd_chain n.
Proof.
  intros Hd Hg Hw Hr Htip Hp Hf. apply (run_past_slot BlockHash BlockHashFull hp bp params CheckTransaction
    ConnectBlock ProcessNewBlock T p prev ticks s n); try done.
  by apply (header_reach_ok BlockHash BlockHashFull hp T).
Qed.

(** ** The wall-minute latch *)
Section Latch.
Context `{Secp256k1}.
Context (BlockHash : CBlockHeader -> bytes) (BlockHashFull : CBlockHeader -> bytes * bytes).
Context (hp : HeaderParams) (bp : BlockParams) (params : CChainParams).
Context (CheckTransaction : CTransaction -> verdict) (ConnectBlock : CBlock -> verdict).
Context (ProcessNewBlock : Node -> CBlock -> bool * Node).

Abbreviation turn := (producer_turn BlockHash BlockHashFull hp bp params CheckTransaction ConnectBlock ProcessNewBlock).

(** The wall minutes at which a produced block was accepted. *)
Fixpoint produced_minutes (ticks : list tick) (s : ProducerState) (n : Node) : list Z :=
  match ticks with
  | [] => []
  | tk :: ticks =>
      let '(_, ok, s, n) := turn tk s n in
      let rest := produced_minutes ticks s n in
      if ok then tk_after tk / 60 :: rest else rest
  end.

(** The clock does not go back. *)
Fixpoint clock_runs (t : Z) (ticks : list tick) : Prop :=
  match ticks with
  | [] => True
  | tk :: ticks => t <= tk_latch tk <= tk_after tk /\ clock_runs (tk_after tk) ticks
  end.

Lemma turn_latch tk s n b ok s' n' :
  NetworkIsMain params = true -> 0 <= tk_latch tk -> 0 <= tk_after tk ->
  turn tk s n = (b, ok, s', n') ->
  if ok then lastProducedWallMinute s' = tk_after tk / 60 /\ tk_latch tk / 60 <> lastProducedWallMinute s
  else lastProducedWallMinute s' = lastProducedWallMinute s.
Proof.
  intros Hm Hl Ha. unfold producer_turn. destruct (if fAdoptedWallet s then _ else _) as [adopted r0].
  destruct (HeartbeatLocal _ _ _ _ _) as [[beat att] r]. cbv zeta. rewrite Hm.
  destruct (negb (MayProduceBlock _ _ _)); [by intros [= _ <- <- _]|].
  destruct (MineBlocksOnDemand params); [by intros [= _ <- <- _]|].
  destruct (chain_Tip _) as [tip|]; [|by intros [= _ <- <- _]].
  destruct (_ !! tip) as [te|]; [|by intros [= _ <- <- _]].
  cbn [lastProducedWallMinute lastProducedSlot].
  destruct (Z.eqb_spec (Z.quot (tk_latch tk) 60) (lastProducedWallMinute s)) as [|Hne]; [by intros [= _ <- <- _]|].
  destruct (_ =? lastProducedSlot s); [by intros [= _ <- <- _]|].
  destruct (_ || has_sibling _ _ _); [by intros [= _ <- <- _]|].
  destruct (zlen _ =? 0); [by intros [= _ <- <- _]|].
  destruct (_ || bytes_eqb _ _); [|by intros [= _ <- <- _]].
  destruct (ProduceOneBlock _ _ _ _ _ _ _ _ _ _ _ _ _ _) as [[ok1 b1] n1].
  rewrite Z.quot_div_nonneg in Hne by lia.
  destruct ok1; intros [= _ <- <- _]; cbn [lastProducedWallMinute]; [|done].
  rewrite Z.quot_div_nonneg by lia. done.
Qed.

Lemma produced_minutes_sorted ticks : forall s n t,
  NetworkIsMain params = true -> 0 <= t -> lastProducedWallMinute s <= t / 60 -> clock_runs t ticks ->
  StronglySorted Z.lt (produced_minutes ticks s n) /\
  Forall (fun m => lastProducedWallMinute s < m) (produced_minutes ticks s n).
Proof.
  induction ticks as [|tk ticks IH]; intros s n t Hm Ht Hs Hc; [by split; constructor|].
  destruct Hc as [[Hl Ha] Hc]. cbn [produced_minutes]. destruct (turn tk s n) as [[[b ok] s1] n1] eqn:E.
  apply turn_latch in E; [|done|lia|lia].
  assert (Hmono : t / 60 <= tk_latch tk / 60 /\ tk_latch tk / 60 <= tk_after tk / 60)
    by (split; apply Z.div_le_mono; lia).
  destruct ok.
  - destruct E as [E1 E2]. destruct (IH s1 n1 (tk_after tk)) as [IH1 IH2]; [done|lia|lia|done|].
    split; constructor; [done| |lia|].
    + eapply Forall_impl; [exact IH2|]. intros m Hm1. cbv beta in Hm1. lia.
    + eapply Forall_impl; [exact IH2|]. intros m Hm1. cbv beta in Hm1. lia.
  - destruct (IH s1 n1 (tk_after tk)) as [IH1 IH2]; [done|lia|lia|done|]. rewrite E in IH2. done.
Qed.
End Latch.

(** At most one block per wall minute on the main network. In every run of
    the producer loop, whatever the chain, the wallet and the mempool do, as
    long as the clock does not go back, the minutes in which a produced block
    is accepted strictly increase. *)
Theorem one_emit_per_minute `{Secp256k1} BlockHash BlockHashFull (hp : HeaderParams) (bp : BlockParams)
    (params : CChainParams) CheckTransaction ConnectBlock ProcessNewBlock (ticks : list tick) (n : Node) (t : Z) :
  NetworkIsMain params = true -> 0 <= t -> clock_runs t ticks ->
  StronglySorted Z.lt
    (produced_minutes BlockHash BlockHashFull hp bp params CheckTransaction ConnectBlock ProcessNewBlock
       ticks producer_init n).
Proof.
  intros Hm Ht Hc. pose proof (Z.div_pos t 60 Ht).
  apply (produced_minutes_sorted _ _ _ _ _ _ _ _ ticks producer_init n t); [done|done|cbn; lia|done].
Qed.

(** ** Production within the slot *)

(** A network with the slot lock, DarkGravityWave from the first block and no
    checkpoints, as main and test are. *)
Record live_network (hp : HeaderParams) : Prop := {
  ln_lock : fMineBlocksOnDemand hp = false;
  ln_genesis : 0 <= hp_genesis_nTime hp;
  ln_pow : pow_wf (hp_pow hp);
  ln_retarget : fPowAllowMinDifficultyBlocks (hp_pow hp) && fPowNoRetargeting (hp_pow hp) = false;
  ln_dgw : nDGWActivationBlock (hp_pow hp) <= 1;
  ln_checkpoints : mapCheckpoints hp = [];
}.

Lemma GetNextWorkRequired_clock a params p b b' :
  arena_ok a -> fPowAllowMinDifficultyBlocks params && fPowNoRetargeting params = false ->
  nDGWActivationBlock params <= 1 ->
  nTime b < nKAWPOWActivationTime params -> nTime b' < nKAWPOWActivationTime params ->
  GetNextWorkRequired a params p b = GetNextWorkRequired a params p b'.
Proof.
  intros Ha Hs Hd Hb Hb'. unfold GetNextWorkRequired. destruct (a !! p) as [e|] eqn:Hp; [|done].
  pose proof (height_nonneg a Ha p e Hp). unfold IsDGWActive.
  destruct (Z.leb_spec (nDGWActivationBlock params) (nHeight e + 1)); [|lia].
  unfold DarkGravityWave. rewrite Hp, Hs. rewrite !(proj2 (Z.leb_gt _ _)) by done. done.
Qed.

Lemma CheckHeaderTime_mtp h t g now od dgw times times' :
  GetMedianTimePast times = GetMedianTimePast times' ->
  CheckHeaderTime h t g now od dgw times = CheckHeaderTime h t g now od dgw times'.
Proof. intros E. unfold CheckHeaderTime. by rewrite E. Qed.

Section InSlot.
Context `{Secp256k1} `{!Secp256k1Laws _}.
Context (hp : HeaderParams) (Hnet : live_network hp).

(** A header on the tip, in the slot, with the required bits, passes. *)
Lemma tip_header_accepted T n hv block p prev :
  tree_ok hp T (nd_headers n) -> chain_Tip (nd_chain n) = Some p -> nd_arena n !! p = Some prev ->
  chain_Height (nd_chain n) = nHeight prev -> 0 < nMaxReorgDepth hv -> 0 <= nAdjustedTime hv ->
  SlotFromHeight (nHeight prev + 1) (hp_genesis_nTime hp) <= SlotFromTime (nAdjustedTime hv) + MAX_FUTURE_SLOTS ->
  SlotFromTime (nTime block) = SlotFromHeight (nHeight prev + 1) (hp_genesis_nTime hp) -> 0 <= nTime block ->
  nTime block < nKAWPOWActivationTime (hp_pow hp) ->
  GetNextWorkRequired (nd_arena n) (hp_pow hp) p block = Some (nBits block) ->
  (AreAssetsDeployed hv = true -> VERSIONBITS_TOP_BITS_ASSETS <= hdr_nVersion block) ->
  ContextualCheckBlockHeader hp (nd_arena n) (node_view hv n) block p = Some Accept.
Proof.
  intros Hok Htip Hp Hch Hdepth Hadj Hslot Ht Ht0 Hk Hbits Hver.
  destruct Hnet as [Hl Hg Hw _ _ Hcp]. pose proof (to_index _ _ _ Hok) as [Ha _]. fold (nd_arena n) in Ha.
  pose proof (height_nonneg _ Ha p prev Hp) as Hh0.
  destruct (tip_mtp hp T n p prev Hok Hl Hg Hp) as (Hc & Hlen & Hmtp & _).
  unfold ContextualCheckBlockHeader. rewrite Hp. cbv zeta. unfold reorg_too_deep. cbn [node_view nMaxReorgDepth hv_chainActive].
  rewrite Hch. destruct (Z.leb_spec (nMaxReorgDepth hv) (nHeight prev - (nHeight prev + 1 - 1))); [lia|].
  rewrite Hbits, Z.eqb_refl. cbn [negb]. unfold kawpow. rewrite (proj2 (Z.leb_gt _ _) Hk), andb_false_r. cbn [andb].
  rewrite Hcp. unfold checkpoint_height, GetLastCheckpoint. cbn [rev last_checkpoint]. rewrite andb_false_r.
  cbn [node_view nAdjustedTime AreAssetsDeployed]. rewrite Hl.
  rewrite (CheckHeaderTime_mtp _ _ _ _ _ _ _ (index_times (nd_arena n) (S (Z.to_nat (nHeight prev))) p)) by exact Hmtp.
  rewrite <-Hlen, CheckHeaderTime_slot_lock by (done || lia).
  assert (CheckBlockTime (nHeight prev + 1) (nTime block) (hp_genesis_nTime hp) (nAdjustedTime hv) false = Accept) as E.
  { apply CheckBlockTime_iff; [lia..|]. unfold SlotFromHeight in Ht, Hslot. unfold MAX_FUTURE_SLOTS in Hslot.
    destruct (Z.leb_spec (nHeight prev + 1) 0); [lia|]. rewrite !SlotFromTime_nonneg in * by lia.
    pose proof (Z.div_mod (nTime block) 60). pose proof (Z.mod_pos_bound (nTime block) 60). lia. }
  rewrite Hlen, E. destruct (AreAssetsDeployed hv); [|done]. specialize (Hver eq_refl).
  rewrite (proj2 (Z.ltb_ge _ _) Hver). done.
Qed.

(** The extra nonce changes the coinbase's script only. *)
Lemma extra_nonce_txs segwit hdr h cb i txs :
  vin cb = [i] -> scriptWitness i = [] -> Forall (fun o => is_commitment (scriptPubKey o) = false) (vout cb) ->
  vtx (IncrementExtraNonce (mkBlock hdr (GenerateCoinbaseCommitment segwit (cb :: txs))) h)
  = GenerateCoinbaseCommitment segwit (set_script_sig cb (extra_nonce_script h) :: txs).
Proof.
  intros Hi Hw Hf. rewrite (Generate_spec segwit cb i txs Hi Hw Hf).
  rewrite (Generate_spec segwit (set_script_sig cb (extra_nonce_script h))
             (mkTxIn (prevout i) (extra_nonce_script h) (nSequence i) (scriptWitness i))).
  - unfold set_script_sig. rewrite Hi. cbn [IncrementExtraNonce vtx vout tx_nVersion nLockTime prevout scriptSig nSequence].
    destruct segwit; cbn [IncrementExtraNonce vtx set_script_sig vin]; unfold set_script_sig; cbn [vin]; rewrite ?Hi; done.
  - unfold set_script_sig. by rewrite Hi.
  - done.
  - unfold set_script_sig. by rewrite Hi.
Qed.

(** What the template is made of. *)
Lemma assemble_spec (bp : BlockParams) (params : CChainParams) T env n selected version adjusted script p prev :
  tree_ok hp T (nd_headers n) -> nd_arena n !! p = Some prev ->
  let height := nHeight prev + 1 in
  let subsidy := GetBlockSubsidy height (nSubsidyHalvingInterval params) in
  let cb := coinbase_template height (selected.2 + subsidy) script in
  exists hdr blk att r,
    ApplyCoinbasePayouts env (nd_allow n) (nd_att n) (nd_reg n) (cb :: selected.1) height (phashBlock prev)
      (genesis_nTime params) (nSubsidyHalvingInterval params) subsidy selected.2 script = (blk, att, r) /\
    assemble hp bp params env n selected version adjusted script p prev
    = Some (mkBlock hdr (GenerateCoinbaseCommitment (nSegwitEnabled bp) blk), att, r).
Proof.
  intros Hok Hp height subsidy cb. pose proof (ln_pow _ Hnet) as Hw.
  pose proof (to_index _ _ _ Hok) as [Ha _]. fold (nd_arena n) in Ha.
  assert (Hbits : forall q e, nd_arena n !! q = Some e -> in_range (hp_pow hp) (bi_nBits e)).
  { intros q e Hq. apply (to_headers _ _ _ Hok q e Hq). }
  unfold assemble. fold height subsidy cb.
  destruct (ApplyCoinbasePayouts _ _ _ _ _ _ _ _ _ _ _ _) as [[blk att] r].
  assert (exists h, UpdateTime (hp_pow hp) (nd_arena n) adjusted (fresh_header version adjusted prev) p = Some h) as [h ->].
  { unfold UpdateTime. destruct (fPowAllowMinDifficultyBlocks _); [|by eexists].
    match goal with |- context [GetNextWorkRequired _ _ _ ?b] =>
      destruct (GetNextWorkRequired_total (nd_arena n) Ha (hp_pow hp) Hw Hbits p prev b Hp) as (x & -> & _) end.
    by eexists. }
  destruct (GetNextWorkRequired_total (nd_arena n) Ha (hp_pow hp) Hw Hbits p prev h Hp) as (bits & -> & _).
  by eexists _, blk, att, r.
Qed.

(** The finished block's header passes on every node with the same chain. *)
Lemma finished_header_accepted (bp : BlockParams) (params : CChainParams) T env hv hv' n selected version script p prev block att r :
  let h := nHeight prev + 1 in
  let g := hp_genesis_nTime hp in
  tree_ok hp T (nd_headers n) -> MineBlocksOnDemand params = false -> genesis_nTime params = g ->
  represents (nd_arena n) (nd_chain n) (Some p) -> nd_arena n !! p = Some prev ->
  0 <= nAdjustedTime hv -> SlotFromTime (nAdjustedTime hv) = SlotFromHeight h g ->
  SlotStartTime h g + 60 < 2 ^ 32 -> SlotStartTime h g + 60 <= nKAWPOWActivationTime (hp_pow hp) ->
  assemble hp bp params env n selected version (nAdjustedTime hv) script p prev = Some (block, att, r) ->
  0 < nMaxReorgDepth hv' -> 0 <= nAdjustedTime hv' ->
  SlotFromHeight h g <= SlotFromTime (nAdjustedTime hv') + MAX_FUTURE_SLOTS ->
  (AreAssetsDeployed hv' = true -> VERSIONBITS_TOP_BITS_ASSETS <= version) ->
  ContextualCheckBlockHeader hp (nd_arena n) (node_view hv' n) (block_header (finish_block params env n block p prev)) p
    = Some Accept /\
  (hv = hv' -> ContextualCheckBlockHeader hp (nd_arena n) (node_view hv n) (block_header block) p = Some Accept).
Proof.
  intros h g Hok Hdem Hgen Hrep Hp Hadj0 Hadj Hmax Hkaw Hasm Hdepth Hadj' Hslot' Hver.
  pose proof (ln_lock _ Hnet) as Hl. pose proof (ln_genesis _ Hnet) as Hg. pose proof (to_index _ _ _ Hok) as [Ha _].
  fold (nd_arena n) in Ha. pose proof (height_nonneg _ Ha p prev Hp) as Hh0.
  destruct (represents_tip _ Ha _ _ Hrep) as [Htip (e & He & Hch)]. assert (e = prev) as -> by congruence.
  destruct (tip_mtp hp T n p prev Hok Hl Hg Hp) as (_ & _ & _ & Hm0 & Hmtp). fold h g in Hmtp.
  assert (Hwin : SlotStartTime h g <= nAdjustedTime hv < SlotStartTime h g + 60).
  { unfold SlotStartTime, SLOT_SECONDS. rewrite <-Hadj, SlotFromTime_nonneg by done.
    pose proof (Z.div_mod (nAdjustedTime hv) 60). pose proof (Z.mod_pos_bound (nAdjustedTime hv) 60). lia. }
  destruct (assemble_header hp bp params _ _ _ _ _ _ _ _ _ _ _ Hasm) as (Ht & Hv & Hpv & Hhd & Hb); [lia|lia|].
  rewrite Z.max_r in Ht by lia.
  assert (Hin : forall t, SlotStartTime h g <= t < SlotStartTime h g + 60 -> SlotFromTime t = SlotFromHeight h g /\ 0 <= t).
  { intros t Htw. rewrite SlotStartTime_eq in Htw by (done || lia). pose proof (Z.div_pos g 60 Hg).
    rewrite SlotFromTime_nonneg by lia. unfold SlotFromHeight. destruct (Z.leb_spec h 0); [lia|].
    rewrite SlotFromTime_nonneg by done. split; [|lia]. symmetry.
    apply (Z.div_unique _ _ _ (t - 60 * (g / 60 + h))); lia. }
  assert (Hgeneral : forall hdr, SlotStartTime h g <= nTime hdr < SlotStartTime h g + 60 ->
            nBits hdr = nBits (block_header block) -> hdr_nVersion hdr = version ->
            ContextualCheckBlockHeader hp (nd_arena n) (node_view hv' n) hdr p = Some Accept).
  { intros hdr Htw Hbits Hvers. destruct (Hin _ Htw) as [Hs H0].
    apply (tip_header_accepted T n hv' hdr p prev); try done; [lia| |by rewrite Hvers].
    rewrite Hbits, <-Hb. apply GetNextWorkRequired_clock; [done|apply Hnet|apply Hnet|lia|lia]. }
  split.
  - apply Hgeneral; unfold finish_block; rewrite Hdem; cbn [block_header set_time nTime nBits hdr_nVersion IncrementExtraNonce set_root].
    + fold h. rewrite Hgen. destruct (ClampTimeToSlot_window h g (GetTime env) (index_mtp (nd_arena n) p) Hmtp) as [Hcw _].
      rewrite uwrap_small by lia. done.
    + done.
    + done.
  - intros <-. apply Hgeneral; [lia|done|done].
Qed.
End InSlot.

(** The coinbase of the template, before its commitment. *)
Lemma paid_coinbase_ok `{Secp256k1} `{!Secp256k1Laws _} env al att r txs h prev g interval subsidy nFees script value blk att' r' :
  let draw := ComputeDraw env att' r' h prev g interval subsidy in
  let cb := coinbase_template h value script in
  ApplyCoinbasePayouts env al att r (cb :: txs) h prev g interval subsidy nFees script = (blk, att', r') ->
  reg_ok r -> attest_ok (env_params env) att -> 1 <= h -> 0 < subsidy -> 0 <= nFees -> subsidy + nFees <= MAX_MONEY ->
  (RequireXAttestation (env_params env) = true -> holds_seed_key (env_params env) att) ->
  payable r' -> d_winners draw <> [] -> zlen (d_active draw) <= 1024 ->
  exists cb', blk = cb' :: txs /\ vin cb' = vin cb /\ nLockTime cb' = 0 /\
    Forall (fun o => is_commitment (scriptPubKey o) = false) (vout cb') /\
    forall att_v, (CheckLotteryCoinbase (env_params env) att_v (cb' :: txs) h prev g interval subsidy).1 = Judged Accept.
Proof.
  intros draw cb Happ Hr Ha Hh Hsub Hfee Hmax Hk Hpay Hne Hn.
  pose proof (apply_payouts_outs env al att r cb txs h prev g interval subsidy nFees script blk att' r' Hh Happ Hne) as ->.
  assert (reg_ok r') as Hr'.
  { unfold ApplyCoinbasePayouts in Happ. destruct (Z.ltb_spec h 1); [lia|].
    set (r1 := if negb (zlen script =? 0) then SetLocalScript r script else r) in *.
    assert (reg_ok r1) as Hr1 by (subst r1; destruct (negb _); [by apply SetLocalScript_ok|done]).
    pose proof (HeartbeatLocal_ok (env_params env) env al att r1 (GetTime env) Hr1 eq_refl Ha) as [_ Hr2].
    destruct (HeartbeatLocal env al att r1 (GetTime env)) as [[ok a2] r2]. cbn [fst snd] in Hr2.
    destruct (zlen (d_winners _) =? 0); inversion Happ; subst; done. }
  eexists. split; [reflexivity|]. split; [done|]. split; [done|]. split.
  - by apply coinbase_outs_plain.
  - intros att_v.
    pose proof (apply_payouts_accepted env al att att_v r cb txs h prev g interval subsidy nFees script) as Hacc.
    cbv zeta in Hacc. rewrite Happ in Hacc. by apply Hacc.
Qed.

(** [CheckBlock] of a template, which is made with no test of the work and of the
    Merkle root, from the checks of its transactions, its weight and its
    signature operations. *)
Lemma template_checked `{Secp256k1} BlockHash BlockHashFull (hp : HeaderParams) CheckTransaction a hdr cb i txs segwit :
  let block := mkBlock hdr (GenerateCoinbaseCommitment segwit (cb :: txs)) in
  vin cb = [i] -> COutPoint_IsNull (prevout i) = true -> scriptWitness i = [] -> Forall (fun o => is_commitment (scriptPubKey o) = false) (vout cb) ->
  Forall (fun tx => IsCoinBase tx = false) txs -> Forall (fun tx => CheckTransaction tx = Accept) (vtx block) ->
  GetBlockWeight (nKAWPOWActivationTime (hp_pow hp)) block <= GetMaxBlockWeight ->
  sumZ (map GetLegacySigOpCount (vtx block)) * WITNESS_SCALE_FACTOR <= MAX_BLOCK_SIGOPS_COST ->
  (CheckBlock BlockHash BlockHashFull hp CheckTransaction a false block false false).1 = Accept.
Proof.
  intros block Hi Hnull Hw Hf Hn Hc Hwt Hsig. destruct (block_weight_bounds (nKAWPOWActivationTime (hp_pow hp)) block) as [Hb1 Hb2].
  assert (Hv : exists cb', vtx block = cb' :: txs /\ IsCoinBase cb' = true).
  { subst block. cbn [vtx]. rewrite (Generate_spec segwit cb i txs Hi Hw Hf). unfold IsCoinBase. destruct segwit; eexists; (split; [done|]); cbn [vin prevout]; by rewrite ?Hi. }
  destruct Hv as (cb' & Ev & Hcb). assert (Hlen : 1 <= zlen (vtx block)) by (rewrite Ev, zlen_cons; pose proof (zlen_nonneg txs); lia).
  assert (Hsum : 0 <= sumZ (map GetLegacySigOpCount (vtx block))).
  { generalize (vtx block). induction l as [|tx l IH]; [done|]. unfold sumZ in *. cbn [map foldr]. assert (0 <= GetLegacySigOpCount tx) by (unfold GetLegacySigOpCount, uwrap; by apply Z.mod_pos_bound). lia. }
  unfold CheckBlock. destruct (BlockMerkleRoot (vtx block)) as [r2 mutated]. cbn [fst]. apply first_reject_accept.
  constructor. { unfold CheckBlockHeader. cbn [andb]. by case_match. }
  do 2 (constructor; [done|]). constructor.
  { unfold check. unfold WITNESS_SCALE_FACTOR in *. replace (zlen (vtx block) =? 0) with false by lia. rewrite !(proj2 (Z.ltb_ge _ _)) by lia. done. }
  constructor; [by rewrite Ev, Hcb|]. constructor.
  { rewrite Ev. cbn [tail]. unfold check. replace (existsb IsCoinBase txs) with false; [done|]. symmetry. apply not_true_iff_false. rewrite existsb_exists. intros (tx & Hin & Ht).
    by rewrite (proj1 (List.Forall_forall _ _) Hn tx Hin) in Ht. }
  constructor. { apply first_reject_accept. by apply Forall_map. }
  constructor; [|constructor]. unfold check. unfold WITNESS_SCALE_FACTOR, MAX_BLOCK_SIGOPS_COST in *. rewrite (uwrap_small 32 (sumZ _)) by lia. rewrite uwrap_small by lia. by rewrite (proj2 (Z.ltb_ge _ _)).
Qed.

(** C24. Production within the slot. Take a network with the slot lock, a header
    tree built by [AcceptBlockHeader], an active chain ending in one of its
    blocks, and a producer with a consistent registry and, on an attested network,
    the seed key, whose clock is in the minute of the next height; the selected
    transactions are final, none is a coinbase, their fees with a positive subsidy
    are within MAX_MONEY, and they have witnesses only if the network does.
    [CreateNewBlock] then always assembles a template. If the draw has a winner, at
    most 1024 active nodes and payable scripts, if [CheckTransaction] accepts each
    transaction of the template, coinbase included, its weight and signature
    operations are within the limits, and [ConnectBlock] (a parameter here) accepts
    it, then [CreateNewBlock] returns it; and the block that [ProduceOneBlock] hands
    on, with the extra nonce, the new Merkle root and the clamped time, passes
    [ContextualCheckBlockHeader] and, within the weight, [ContextualCheckBlock], on
    every node with this chain whose clock is at most a minute behind the slot. *)
Theorem in_slot_block_valid `{Secp256k1} `{!Secp256k1Laws _} BlockHash BlockHashFull (hp : HeaderParams)
    (bp : BlockParams) (params : CChainParams) CheckTransaction ConnectBlock (T : Z) (env : Env) (hv : HeaderView)
    (n : Node) (selected : list CTransaction * Z) (version : Z) (script : CScript) (p : nat) (prev : CBlockIndex) :
  let h := nHeight prev + 1 in
  let g := hp_genesis_nTime hp in
  let subsidy := GetBlockSubsidy h (nSubsidyHalvingInterval params) in
  let kt := nKAWPOWActivationTime (hp_pow hp) in
  live_network hp -> header_reach BlockHash BlockHashFull hp T (nd_headers n) ->
  MineBlocksOnDemand params = false -> genesis_nTime params = g -> env_params env = params ->
  represents (nd_arena n) (nd_chain n) (Some p) -> nd_arena n !! p = Some prev ->
  reg_ok (nd_reg n) -> attest_ok params (nd_att n) ->
  (RequireXAttestation params = true -> holds_seed_key params (nd_att n)) ->
  0 < subsidy -> 0 <= selected.2 -> subsidy + selected.2 <= MAX_MONEY ->
  0 <= nAdjustedTime hv -> SlotFromTime (nAdjustedTime hv) = SlotFromHeight h g ->
  SlotStartTime h g + 60 < 2 ^ 32 -> SlotStartTime h g + 60 <= kt ->
  0 < nMaxReorgDepth hv -> VERSIONBITS_TOP_BITS_ASSETS <= version ->
  (forall cutoff, forallb (fun tx => IsFinalTx tx h cutoff) selected.1 = true) ->
  (nSegwitEnabled bp = false -> existsb HasWitness selected.1 = false) ->
  Forall (fun tx => IsCoinBase tx = false) selected.1 ->
  exists block att r,
    assemble hp bp params env n selected version (nAdjustedTime hv) script p prev = Some (block, att, r) /\
    let draw := ComputeDraw env att r h (phashBlock prev) g (nSubsidyHalvingInterval params) subsidy in
    let finished := finish_block params env n block p prev in
    (payable r -> d_winners draw <> [] -> zlen (d_active draw) <= 1024 ->
     GetBlockWeight kt block <= GetMaxBlockWeight ->
     Forall (fun tx => CheckTransaction tx = Accept) (vtx block) ->
     sumZ (map GetLegacySigOpCount (vtx block)) * WITNESS_SCALE_FACTOR <= MAX_BLOCK_SIGOPS_COST ->
     ConnectBlock block = Accept ->
     (exists n', CreateNewBlock BlockHash BlockHashFull hp bp params CheckTransaction ConnectBlock
                   env hv n selected version script = (Ok block, n') /\ same_chain n n') /\
     hashMerkleRoot (block_header finished) = (BlockMerkleRoot (vtx finished)).1 /\
     (forall hv', 0 < nMaxReorgDepth hv' -> 0 <= nAdjustedTime hv' ->
        SlotFromHeight h g <= SlotFromTime (nAdjustedTime hv') + MAX_FUTURE_SLOTS ->
        ContextualCheckBlockHeader hp (nd_arena n) (node_view hv' n) (block_header finished) p = Some Accept) /\
     (GetBlockWeight kt finished <= GetMaxBlockWeight ->
      forall att_v, (ContextualCheckBlock hp bp params (nd_arena n) att_v finished (Some p)).1 = Judged Accept)).
Proof.
  intros h g subsidy kt Hnet Hreach Hdem Hgen Henv Hrep Hp Hr Hatt Hkey Hsub Hfee Hmax Hadj0 Hadj Hend Hkaw Hdepth Hver
    Hfinal Hnowit Hnocb.
  pose proof (header_reach_ok _ _ hp T _ (ln_genesis _ Hnet) (ln_pow _ Hnet) Hreach) as Hok.
  pose proof (to_index _ _ _ Hok) as [Ha _]. fold (nd_arena n) in Ha. pose proof (height_nonneg _ Ha p prev Hp) as Hh0.
  destruct (represents_tip _ Ha _ _ Hrep) as [Htip _].
  destruct (assemble_spec hp Hnet bp params T env n selected version (nAdjustedTime hv) script p prev Hok Hp)
    as (hdr & blk & att & r & Happ & Hasm). fold h subsidy in Happ. rewrite Hgen in Happ.
  eexists _, att, r. split; [exact Hasm|]. intros draw finished Hpay Hne Hn Hweight Htxs Hsigops Hconn.
  rewrite <-Henv in Hatt, Hkey.
  destruct (paid_coinbase_ok _ _ _ _ _ _ _ _ _ _ _ _ _ _ _ _ Happ Hr Hatt ltac:(lia) Hsub Hfee Hmax Hkey Hpay Hne Hn)
    as (cb & -> & Hvin & Hlock & Hplain & Hlot). cbn [coinbase_template vin] in Hvin.
  rewrite Henv in Hlot.
  assert (Hctx : forall att_v i cb' hdr', vin cb' = [i] -> scriptWitness i = [] -> nLockTime cb' = 0 ->
      take (length (push_int64 h)) (scriptSig i) = push_int64 h -> vout cb' = vout cb -> IsCoinBase cb' = IsCoinBase cb ->
      GetBlockWeight kt (mkBlock hdr' (GenerateCoinbaseCommitment (nSegwitEnabled bp) (cb' :: selected.1))) <= GetMaxBlockWeight ->
      (ContextualCheckBlock hp bp params (nd_arena n) att_v
         (mkBlock hdr' (GenerateCoinbaseCommitment (nSegwitEnabled bp) (cb' :: selected.1))) (Some p)).1 = Judged Accept).
  { intros att_v i cb' hdr' Hi Hwit Hl0 Hsig Hvo Hcoin Hwt.
    rewrite (committed_block_ok hp bp params (nd_arena n) att_v hdr' p prev cb' i selected.1); try done;
      [|lia|by rewrite Hvo]. fold h subsidy. rewrite Hgen, (lottery_outputs_only params att_v cb cb') by done. apply Hlot. }
  assert (Hfin : forall hv', 0 < nMaxReorgDepth hv' -> 0 <= nAdjustedTime hv' ->
      SlotFromHeight h g <= SlotFromTime (nAdjustedTime hv') + MAX_FUTURE_SLOTS ->
      ContextualCheckBlockHeader hp (nd_arena n) (node_view hv' n) (block_header finished) p = Some Accept /\
      (hv = hv' -> ContextualCheckBlockHeader hp (nd_arena n) (node_view hv n) hdr p = Some Accept)).
  { intros hv' Hd' Ha' Hs'.
    by apply (finished_header_accepted hp Hnet bp params T env hv hv' n selected version script p prev
                (mkBlock hdr (GenerateCoinbaseCommitment (nSegwitEnabled bp) (cb :: selected.1))) att r). }
  split; [|split; [|split]].
  - unfold CreateNewBlock. rewrite Htip, Hp, Hasm. unfold TestBlockValidity. cbn [block_header].
    destruct (Hfin hv Hdepth Hadj0) as [_ Hhdr]; [unfold MAX_FUTURE_SLOTS; lia|].
    rewrite (Hhdr eq_refl), (template_checked BlockHash BlockHashFull hp CheckTransaction (nd_arena n) hdr cb _ selected.1 (nSegwitEnabled bp) Hvin) by done.
    pose proof (Hctx att _ cb hdr Hvin eq_refl Hlock) as Hc.
    destruct (ContextualCheckBlock _ _ _ _ _ _ _) as [o att2] eqn:Ec. cbn [fst] in Hc.
    rewrite Hc; [|cbn [scriptSig]; by rewrite take_app_length|done..]. rewrite Hconn. by eexists.
  - unfold finished, finish_block. rewrite Hdem. done.
  - intros hv' Hd' Ha' Hs'. by apply Hfin.
  - intros Hwt att_v. unfold finished, finish_block in *. rewrite Hdem in *. cbv zeta in *. fold h in Hwt |- *.
    pose proof (extra_nonce_txs (nSegwitEnabled bp) hdr h cb _ selected.1 Hvin eq_refl Hplain) as Etxs. rewrite Etxs in *.
    eapply Hctx; [unfold set_script_sig; by rewrite Hvin|done|unfold set_script_sig; by rewrite Hvin| | | |done].
    + cbn [scriptSig]. unfold extra_nonce_script. by rewrite take_app_length.
    + unfold set_script_sig. by rewrite Hvin.
    + unfold set_script_sig, IsCoinBase. by rewrite Hvin.
Qed.

(** ** A producer right after genesis, for the witnesses *)
Definition toy_main_hp : HeaderParams := mkHP main_pow main_genesis_nTime (le_bytes 32 1) false 0 [].
Definition toy_bp : BlockParams := mkBP true true true.
Definition toy_main_headers : HeaderState :=
  mkHS (AddToBlockIndex toy_hash empty_index (toy_header_at 0 1 main_genesis_nTime)).2
    [RaiseValidity 0 BLOCK_VALID_TREE] [].
Definition toy_node : Node := mkNodeState toy_main_headers [Some 0%nat] toy_stamped toy_users Allowlist_empty.
Definition toy_tip : CBlockIndex :=
  mkIndex (le_bytes 32 1) None None 0 (of_uint64 1) main_genesis_nTime toy_bits main_genesis_nTime.

Lemma toy_main_network : live_network toy_main_hp.
Proof. split; [done|cbn; unfold main_genesis_nTime; lia|apply main_pow_wf|done|cbn; lia|done]. Qed.

Lemma toy_main_reach : header_reach toy_hash toy_full toy_main_hp 0 toy_main_headers.
Proof.
  apply (hr_genesis _ _ toy_main_hp); [vm_compute; reflexivity..| |vm_compute; discriminate].
  replace (nBits _) with (GetCompact (UintToArith256 (powLimit main_pow)) false) by (vm_compute; reflexivity).
  exact (limit_in_range main_pow main_pow_wf).
Qed.

Lemma toy_node_tip : nd_arena toy_node !! 0%nat = Some toy_tip.
Proof. vm_compute. reflexivity. Qed.

Lemma toy_node_chain : represents (nd_arena toy_node) (nd_chain toy_node) (Some 0%nat).
Proof. exists toy_tip. split; [apply toy_node_tip|]. split; [reflexivity|]. intros [|k] Hk; [reflexivity|cbn in Hk; lia]. Qed.

Definition toy_tick (now : Z) : tick :=
  mkTick (toy_env now) now (toy_env now) (toy_view now) now (Some (toy_script 3)) ([], 0) 0x30000000.

(** Two minutes after genesis the first block can no longer be made. *)
Lemma missed_slot_stalls_witness :
  exists s' n',
    run (H := toy_secp256k1) toy_hash toy_full toy_main_hp toy_bp toy_params (fun _ => Accept) (fun _ => Accept)
      (fun n _ => (true, n)) [toy_tick (main_genesis_nTime + 120); toy_tick (main_genesis_nTime + 121)]
      producer_init toy_node = ([], s', n') /\
    nd_headers n' = nd_headers toy_node /\ nd_chain n' = nd_chain toy_node.
Proof.
  apply (missed_slot_stalls (H := toy_secp256k1) toy_hash toy_full toy_main_hp toy_bp toy_params _ _ _ 0 toy_node 0 toy_tip).
  - reflexivity.
  - cbn. unfold main_genesis_nTime. lia.
  - apply main_pow_wf.
  - apply toy_main_reach.
  - reflexivity.
  - apply toy_node_tip.
  - repeat constructor; vm_compute; reflexivity.
Defined.

Lemma one_emit_per_minute_witness :
  StronglySorted Z.lt
    (produced_minutes (H := toy_secp256k1) toy_hash toy_full toy_main_hp toy_bp toy_params (fun _ => Accept)
       (fun _ => Accept) (fun n _ => (true, n))
       [toy_tick (main_genesis_nTime + 70); toy_tick (main_genesis_nTime + 71)] producer_init toy_node).
Proof.
  apply (one_emit_per_minute (H := toy_secp256k1) toy_hash toy_full toy_main_hp toy_bp toy_params _ _ _
    [toy_tick (main_genesis_nTime + 70); toy_tick (main_genesis_nTime + 71)] toy_node main_genesis_nTime).
  - reflexivity.
  - unfold main_genesis_nTime. lia.
  - cbn. lia.
Defined.

Definition toy_assembled : option (CBlock * AttestState * Registry) :=
  Eval vm_compute in
  assemble (H := toy_secp256k1) toy_main_hp toy_bp toy_params (toy_env (main_genesis_nTime + 70)) toy_node ([], 0)
    0x30000000 (main_genesis_nTime + 70) (toy_script 3) 0 toy_tip.

(** Within the minute it is made and valid. *)
Lemma in_slot_block_valid_witness :
  exists block n',
    CreateNewBlock (H := toy_secp256k1) toy_hash toy_full toy_main_hp toy_bp toy_params (fun _ => Accept) (fun _ => Accept)
      (toy_env (main_genesis_nTime + 70)) (toy_view (main_genesis_nTime + 70)) toy_node ([], 0) 0x30000000 (toy_script 3)
    = (Ok block, n') /\
    (ContextualCheckBlock (H := toy_secp256k1) toy_main_hp toy_bp toy_params (nd_arena toy_node) toy_seed
       (finish_block toy_params (toy_env (main_genesis_nTime + 70)) toy_node block 0 toy_tip) (Some 0%nat)).1
    = Judged Accept.
Proof.
  destruct (in_slot_block_valid (H := toy_secp256k1) (Secp256k1Laws0 := toy_secp256k1_laws) toy_hash toy_full toy_main_hp toy_bp toy_params (fun _ => Accept) (fun _ => Accept) 0
    (toy_env (main_genesis_nTime + 70)) (toy_view (main_genesis_nTime + 70)) toy_node ([], 0) 0x30000000 (toy_script 3)
    0 toy_tip toy_main_network toy_main_reach eq_refl eq_refl eq_refl toy_node_chain toy_node_tip
    (toy_beat_ok _ _ _ _ (toy_beat_ok _ _ _ _ Registry_empty_ok)) toy_stamped_ok)
    as (block & att & r & Hasm & Hrest);
    [intros _; split_and!; [split|..]; vm_compute; reflexivity
    |vm_compute; reflexivity|cbn; lia|vm_compute; discriminate|cbn; unfold main_genesis_nTime; lia
    |vm_compute; reflexivity|vm_compute; reflexivity|vm_compute; discriminate|cbn; lia|vm_compute; discriminate
    |intros cutoff; reflexivity|intros _; reflexivity|constructor|].
  assert (Hc : assemble (H := toy_secp256k1) toy_main_hp toy_bp toy_params (toy_env (main_genesis_nTime + 70)) toy_node ([], 0) 0x30000000
            (nAdjustedTime (toy_view (main_genesis_nTime + 70))) (toy_script 3) 0 toy_tip = toy_assembled)
    by (vm_compute; reflexivity).
  rewrite Hc in Hasm. injection Hasm as <- <- <-.
  destruct Hrest as ((n' & Hcreate & _) & _ & _ & Hctx).
  - intros id x Hf. apply om_find_Some_in, list_elem_of_In in Hf. vm_compute in Hf.
    repeat (destruct Hf as [Hf|Hf]; [injection Hf as _ <-; vm_compute; discriminate|]). destruct Hf.
  - vm_compute. discriminate.
  - vm_compute. discriminate.
  - vm_compute. discriminate.
  - apply List.Forall_forall. reflexivity.
  - vm_compute. discriminate.
  - reflexivity.
  - eexists _, n'. split; [exact Hcreate|]. apply Hctx. vm_compute. discriminate.
Defined.
