(* ===== verification/AssetCache.v ===== *)
(** * The asset cache

    [CAssetsCache] of src/src/assets/assets.h and assets.cpp: the assets a block
    issues, reissues and moves, kept in a cache of its own while the block is
    connected or disconnected, flushed into the global [passets], and from there
    dumped to the assets database behind an LRU cache. The sets of qualifiers,
    restrictions and verifier strings are left out: [AreRestrictedAssetsDeployed]
    is false on this chain and no transaction that would change them passes
    [CheckTxAssets]. *)

From stdpp Require Import gmap.
From S2P Require Import Prelude OrdMap Script Serialize Slots Tx Handle AssetNames AssetScripts AssetTx VerifyAssets Coins.

Local Open Scope Z_scope.

(** ** Keys *)

(** [std::pair] is ordered by its first component, then by its second. *)
#[export] Program Instance prod_OrdKey {A B} `{OrdKey A} `{OrdKey B} : OrdKey (A * B) :=
  {| key_ltb p q := key_ltb p.1 q.1 || (bool_decide (p.1 = q.1) && key_ltb p.2 q.2) |}.
Next Obligation. intros A B ? ? ? ? [a b]. cbn. by rewrite !key_ltb_irrefl, andb_false_r. Qed.
Next Obligation.
  intros A B ? ? ? ? [a b] [c d] [e f]. cbn. rewrite !orb_true_iff, !andb_true_iff, !bool_decide_eq_true.
  intros [H1|[-> H1]] [H2|[<- H2]]; [left; by eapply key_ltb_trans|by left|by left|right; split; [done|by eapply key_ltb_trans]].
Qed.
Next Obligation.
  intros A B ? ? ? ? [a b] [c d]. cbn. rewrite !orb_true_iff, !andb_true_iff, !bool_decide_eq_true.
  destruct (key_ltb_total a c) as [|[->|]]; [by left; left| |by right; right; left].
  destruct (key_ltb_total b d) as [|[->|]]; [left; by right|right; by left|right; right; by right].
Qed.

(** The order of [COutPoint]: the hash, then the index. *)
Definition out_key (o : COutPoint) : bytes * Z := (out_hash o, out_n o).

(** ** A pair of sets, what to add and what to remove *)

(** Inserting into a [std::set] keeps an element that is already there. *)
Definition os_insert {K V} `{OrdKey K} (k : K) (v : V) (m : omap K V) : omap K V := if om_mem k m then m else om_insert k v m.

Record dirty (K V : Type) := mkDirty { to_add : omap K V; to_remove : omap K V }.
Arguments mkDirty {K V}.
Arguments to_add {K V}.
Arguments to_remove {K V}.

Section Dirty.
Context {K V : Type} `{OrdKey K}.

Definition clean : dirty K V := mkDirty [] [].
Definition add_dirty (d : dirty K V) (kv : K * V) : dirty K V := mkDirty (os_insert kv.1 kv.2 (to_add d)) (om_erase kv.1 (to_remove d)).
Definition remove_dirty (d : dirty K V) (kv : K * V) : dirty K V := mkDirty (om_erase kv.1 (to_add d)) (os_insert kv.1 kv.2 (to_remove d)).
(** The two loops of [Flush] over a pair of sets. *)
Definition flush_dirty (t p : dirty K V) : dirty K V := fold_left remove_dirty (to_remove t) (fold_left add_dirty (to_add t) p).

End Dirty.

(** ** State *)

Record CAssetCacheNewAsset := mkCacheNew { cn_asset : CNewAsset; cn_address : bytes; cn_blockHeight : Z; cn_blockHash : bytes }.
Record CAssetCacheReissueAsset := mkCacheReissue {
  cr_reissue : CReissueAsset; cr_address : bytes; cr_out : COutPoint; cr_blockHeight : Z; cr_blockHash : bytes }.
Record CAssetCacheNewTransfer := mkCacheTransfer { ct_transfer : CAssetTransfer; ct_address : bytes; ct_out : COutPoint }.
(** A name, an address and an amount: [CAssetCacheUndoAssetAmount] and [CAssetCacheSpendAsset]. *)
Record CAssetCacheAmount := mkCacheAmount { ca_assetName : bytes; ca_address : bytes; ca_nAmount : Z }.
Record CBlockAssetUndo := mkAssetUndo { fChangedIPFS : bool; fChangedUnits : bool; undo_strIPFS : bytes; undo_nUnits : Z }.

Record CAssetsCache := mkAssetsCache {
  mapAssetsAddressAmount : omap (bytes * bytes) Z;
  mapReissuedAssetData : omap bytes CNewAsset;
  setNewAssets : dirty bytes CAssetCacheNewAsset;
  setNewReissue : dirty (bytes * Z) CAssetCacheReissueAsset;
  setNewOwnerAssets : dirty bytes bytes;
  setNewTransferAssets : dirty (bytes * Z) CAssetCacheNewTransfer;
  vUndoAssetAmount : list CAssetCacheAmount;
  vSpentAssets : list CAssetCacheAmount;
}.
Definition ClearDirtyCache : CAssetsCache := mkAssetsCache [] [] clean clean clean clean [] [].

Definition set_amounts (f : omap (bytes * bytes) Z -> omap (bytes * bytes) Z) (c : CAssetsCache) : CAssetsCache :=
  mkAssetsCache (f (mapAssetsAddressAmount c)) (mapReissuedAssetData c) (setNewAssets c) (setNewReissue c) (setNewOwnerAssets c)
    (setNewTransferAssets c) (vUndoAssetAmount c) (vSpentAssets c).
Definition set_new_assets (f : dirty bytes CAssetCacheNewAsset -> dirty bytes CAssetCacheNewAsset) (c : CAssetsCache) : CAssetsCache :=
  mkAssetsCache (mapAssetsAddressAmount c) (mapReissuedAssetData c) (f (setNewAssets c)) (setNewReissue c) (setNewOwnerAssets c)
    (setNewTransferAssets c) (vUndoAssetAmount c) (vSpentAssets c).
Definition set_reissues (f : omap bytes CNewAsset -> omap bytes CNewAsset)
    (g : dirty (bytes * Z) CAssetCacheReissueAsset -> dirty (bytes * Z) CAssetCacheReissueAsset) (c : CAssetsCache) : CAssetsCache :=
  mkAssetsCache (mapAssetsAddressAmount c) (f (mapReissuedAssetData c)) (setNewAssets c) (g (setNewReissue c)) (setNewOwnerAssets c)
    (setNewTransferAssets c) (vUndoAssetAmount c) (vSpentAssets c).
Definition set_owners (f : dirty bytes bytes -> dirty bytes bytes) (c : CAssetsCache) : CAssetsCache :=
  mkAssetsCache (mapAssetsAddressAmount c) (mapReissuedAssetData c) (setNewAssets c) (setNewReissue c) (f (setNewOwnerAssets c))
    (setNewTransferAssets c) (vUndoAssetAmount c) (vSpentAssets c).
Definition set_transfers (f : dirty (bytes * Z) CAssetCacheNewTransfer -> dirty (bytes * Z) CAssetCacheNewTransfer) (c : CAssetsCache) : CAssetsCache :=
  mkAssetsCache (mapAssetsAddressAmount c) (mapReissuedAssetData c) (setNewAssets c) (setNewReissue c) (setNewOwnerAssets c)
    (f (setNewTransferAssets c)) (vUndoAssetAmount c) (vSpentAssets c).
Definition push_amounts (undo spent : list CAssetCacheAmount) (c : CAssetsCache) : CAssetsCache :=
  mkAssetsCache (mapAssetsAddressAmount c) (mapReissuedAssetData c) (setNewAssets c) (setNewReissue c) (setNewOwnerAssets c)
    (setNewTransferAssets c) (vUndoAssetAmount c ++ undo) (vSpentAssets c ++ spent).

(** ** The LRU cache and the database *)

Record CDatabasedAssetData := mkAssetData { ad_asset : CNewAsset; ad_nHeight : Z; ad_blockHash : bytes }.

(** [CLRUCache]: the items, last used first. *)
Record CLRUCache := mkLRU { lru_items : list (bytes * CDatabasedAssetData); lru_maxSize : nat }.
Definition lru_find (k : bytes) (l : CLRUCache) : option CDatabasedAssetData := om_find k (lru_items l).
Definition lru_Exists (k : bytes) (l : CLRUCache) : bool := om_mem k (lru_items l).
Definition lru_Erase (k : bytes) (l : CLRUCache) : CLRUCache := mkLRU (om_erase k (lru_items l)) (lru_maxSize l).
Definition lru_Put (k : bytes) (v : CDatabasedAssetData) (l : CLRUCache) : CLRUCache :=
  let items := (k, v) :: om_erase k (lru_items l) in
  mkLRU (if (lru_maxSize l <? length items)%nat then removelast items else items) (lru_maxSize l).
(** [Get] of a key that exists; it moves the item to the front. *)
Definition lru_Get (k : bytes) (l : CLRUCache) : CLRUCache :=
  match lru_find k l with
  | Some v => mkLRU ((k, v) :: om_erase k (lru_items l)) (lru_maxSize l)
  | None => l
  end.

(** [CAssetsDB]: the assets and the two tables of balances, by asset and address
    and by address and asset. *)
Record CAssetsDB := mkAssetsDB {
  db_assets : gmap bytes CDatabasedAssetData;
  db_AssetAddressQuantity : gmap (bytes * bytes) Z;
  db_AddressAssetQuantity : gmap (bytes * bytes) Z;
}.
Definition WriteAssetData (asset : CNewAsset) (nHeight : Z) (blockHash : bytes) (db : CAssetsDB) : CAssetsDB :=
  mkAssetsDB (<[strName asset := mkAssetData asset nHeight blockHash]> (db_assets db)) (db_AssetAddressQuantity db) (db_AddressAssetQuantity db).
Definition EraseAssetData (name : bytes) (db : CAssetsDB) : CAssetsDB :=
  mkAssetsDB (delete name (db_assets db)) (db_AssetAddressQuantity db) (db_AddressAssetQuantity db).
(** A balance is written to, or erased from, both tables. *)
Definition WriteQuantity (pair : bytes * bytes) (q : Z) (db : CAssetsDB) : CAssetsDB :=
  mkAssetsDB (db_assets db) (<[pair := q]> (db_AssetAddressQuantity db)) (<[(pair.2, pair.1) := q]> (db_AddressAssetQuantity db)).
Definition EraseQuantity (pair : bytes * bytes) (db : CAssetsDB) : CAssetsDB :=
  mkAssetsDB (db_assets db) (delete pair (db_AssetAddressQuantity db)) (delete (pair.2, pair.1) (db_AddressAssetQuantity db)).

Abbreviation store := (CLRUCache * CAssetsDB)%type.

(** What all caches share. *)
Record assets_global := mkGlobal { passets : CAssetsCache; passetsCache : CLRUCache; passetsdb : CAssetsDB }.
Definition set_lru (f : CLRUCache -> CLRUCache) (w : assets_global) : assets_global := mkGlobal (passets w) (f (passetsCache w)) (passetsdb w).

(** ** Operations *)

Section Cache.
Variables fReindex fAssetIndex : bool.
(** The value an [int] has that was never set. *)
Variable unset : Z.

(** [CheckIfAssetExists]: the lookup may put the asset into the LRU cache. *)
Definition CheckIfAssetExists (this : CAssetsCache) (w : assets_global) (name : bytes) (fForceDuplicateCheck : bool) : assets_global * bool :=
  if fReindex then (w, true) else
  if om_mem name (to_remove (setNewAssets this)) then (w, false) else
  if om_mem name (to_remove (setNewAssets (passets w))) then (w, false) else
  if om_mem name (to_add (setNewAssets this)) && fForceDuplicateCheck then (w, true) else
  if om_mem name (to_add (setNewAssets (passets w))) && fForceDuplicateCheck then (w, true) else
  if lru_Exists name (passetsCache w) then (w, fForceDuplicateCheck) else
  match db_assets (passetsdb w) !! name with
  | Some d => (set_lru (lru_Put (strName (ad_asset d)) d) w, fForceDuplicateCheck)
  | None => (w, false)
  end.

(** [GetAssetMetaDataIfExists]: the asset, and its height and block unless it was
    found among the reissued assets, where the code sets neither. *)
Definition GetAssetMetaDataIfExists (this : CAssetsCache) (w : assets_global) (name : bytes)
    : assets_global * option (CNewAsset * option (Z * bytes)) :=
  match om_find name (mapReissuedAssetData this) with
  | Some asset => (w, Some (asset, None))
  | None =>
  match om_find name (mapReissuedAssetData (passets w)) with
  | Some asset => (w, Some (asset, None))
  | None =>
  if om_mem name (to_remove (setNewAssets this)) then (w, None) else
  if om_mem name (to_remove (setNewAssets (passets w))) then (w, None) else
  match om_find name (to_add (setNewAssets this)) with
  | Some e => (w, Some (cn_asset e, Some (cn_blockHeight e, cn_blockHash e)))
  | None =>
  match om_find name (to_add (setNewAssets (passets w))) with
  | Some e => (w, Some (cn_asset e, Some (cn_blockHeight e, cn_blockHash e)))
  | None =>
  match lru_find name (passetsCache w) with
  | Some d => (set_lru (lru_Get name) w, Some (ad_asset d, Some (ad_nHeight d, ad_blockHash d)))
  | None =>
  match db_assets (passetsdb w) !! name with
  | Some d => (set_lru (lru_Put (strName (ad_asset d)) d) w, Some (ad_asset d, Some (ad_nHeight d, ad_blockHash d)))
  | None => (w, None)
  end end end end end end.

(** The balance of an address, brought into the cache. *)
Definition GetBestAssetAddressAmount (this : CAssetsCache) (w : assets_global) (pair : bytes * bytes) : CAssetsCache * bool :=
  if negb fAssetIndex then (this, false) else
  if om_mem pair (mapAssetsAddressAmount this) then (this, true) else
  match om_find pair (mapAssetsAddressAmount (passets w)) with
  | Some q => (set_amounts (om_insert pair q) this, true)
  | None =>
      match db_AssetAddressQuantity (passetsdb w) !! pair with
      | Some q => (set_amounts (om_insert pair q) this, true)
      | None => (this, false)
      end
  end.
(** The amount at a pair, changed; a pair that is not there counts as zero. *)
Definition change_amount (pair : bytes * bytes) (f : Z -> Z) (c : CAssetsCache) : CAssetsCache :=
  set_amounts (fun m => om_insert pair (f (default 0 (om_find pair m))) m) c.
Definition change_best_amount (pair : bytes * bytes) (f : Z -> Z) (w : assets_global) (c : CAssetsCache) : CAssetsCache :=
  if fAssetIndex then change_amount pair f (GetBestAssetAddressAmount c w pair).1 else c.
Definition set_amount (pair : bytes * bytes) (q : Z) (c : CAssetsCache) : CAssetsCache :=
  if fAssetIndex then set_amounts (om_insert pair q) c else c.

Definition AddToAssetBalance (this : CAssetsCache) (w : assets_global) (strName address : bytes) (nAmount : Z) : CAssetsCache :=
  change_best_amount (strName, address) (fun q => if IsAssetNameAnOwner strName then OWNER_ASSET_AMOUNT else swrap 64 (q + nAmount)) w this.
Definition AddTransferAsset (this : CAssetsCache) (w : assets_global) (t : CAssetTransfer) (address : bytes) (out : COutPoint) : CAssetsCache :=
  set_transfers (fun d => add_dirty d (out_key out, mkCacheTransfer t address out))
    (AddToAssetBalance this w (tr_strName t) address (tr_nAmount t)).

Definition AddNewAsset (this : CAssetsCache) (w : assets_global) (asset : CNewAsset) (address : bytes) (nHeight : Z) (blockHash : bytes)
    : CAssetsCache * assets_global * bool :=
  let '(w, exists_) := CheckIfAssetExists this w (strName asset) true in
  if exists_ then (this, w, false) else
  (set_amount (strName asset, address) (na_nAmount asset)
     (set_new_assets (fun d => add_dirty d (strName asset, mkCacheNew asset address nHeight blockHash)) this), w, true).
Definition RemoveNewAsset (this : CAssetsCache) (w : assets_global) (asset : CNewAsset) (address : bytes) : CAssetsCache * assets_global * bool :=
  let '(w, exists_) := CheckIfAssetExists this w (strName asset) true in
  if negb exists_ then (this, w, false) else
  (set_amount (strName asset, address) 0
     (set_new_assets (fun d => remove_dirty d (strName asset, mkCacheNew asset address 0 uint256_null)) this), w, true).

Definition AddOwnerAsset (this : CAssetsCache) (assetsName address : bytes) : CAssetsCache :=
  set_amount (assetsName, address) OWNER_ASSET_AMOUNT (set_owners (fun d => add_dirty d (assetsName, address)) this).
Definition RemoveOwnerAsset (this : CAssetsCache) (assetsName address : bytes) : CAssetsCache :=
  set_amount (assetsName, address) 0 (set_owners (fun d => remove_dirty d (assetsName, address)) this).

(** The asset with the changes of a reissue. *)
Definition reissued (asset : CNewAsset) (r : CReissueAsset) : CNewAsset :=
  let hash := bool_decide (re_strIPFSHash r = []) in
  mkNewAsset (strName asset) (swrap 64 (na_nAmount asset + re_nAmount r)) (if re_nUnits r =? -1 then na_units asset else re_nUnits r) (re_nReissuable r)
    (if hash then na_nHasIPFS asset else 1) (if hash then na_strIPFSHash asset else re_strIPFSHash r).
Definition AddReissueAsset (this : CAssetsCache) (w : assets_global) (r : CReissueAsset) (address : bytes) (out : COutPoint)
    : CAssetsCache * assets_global * bool :=
  match GetAssetMetaDataIfExists this w (re_strName r) with
  | (w, None) => (this, w, false)
  | (w, Some (asset, at_)) =>
      let base := default asset (om_find (re_strName r) (mapReissuedAssetData this)) in
      let '(height, hash) := default (unset, uint256_null) at_ in
      (change_best_amount (re_strName r, address) (fun q => swrap 64 (q + re_nAmount r)) w
         (set_reissues (om_insert (re_strName r) (reissued base r))
            (fun d => add_dirty d (out_key out, mkCacheReissue r address out height hash)) this), w, true)
  end.

(** The asset without the changes of a reissue, by the undo data of its block. *)
Definition unreissued (asset : CNewAsset) (r : CReissueAsset) (vUndoIPFS : list (bytes * CBlockAssetUndo)) : CNewAsset :=
  let amount := swrap 64 (na_nAmount asset - re_nAmount r) in
  match list_find (fun item => item.1 = re_strName r) vUndoIPFS with
  | None => mkNewAsset (strName asset) amount (na_units asset) 1 (na_nHasIPFS asset) (na_strIPFSHash asset)
  | Some (_, (_, u)) =>
      let hash := if fChangedIPFS u then undo_strIPFS u else na_strIPFSHash asset in
      mkNewAsset (strName asset) amount (if fChangedUnits u then undo_nUnits u else na_units asset) 1
        (if bool_decide (hash = []) then 0 else na_nHasIPFS asset) hash
  end.
Definition RemoveReissueAsset (this : CAssetsCache) (w : assets_global) (r : CReissueAsset) (address : bytes) (out : COutPoint)
    (vUndoIPFS : list (bytes * CBlockAssetUndo)) : CAssetsCache * assets_global * bool :=
  match GetAssetMetaDataIfExists this w (re_strName r) with
  | (w, None) => (this, w, false)
  | (w, Some (asset, at_)) =>
      let asset := unreissued asset r vUndoIPFS in
      let '(height, hash) := default (unset, uint256_null) at_ in
      let this := set_reissues (om_insert (strName asset) asset)
                    (fun d => remove_dirty d (out_key out, mkCacheReissue r address out height hash)) this in
      if negb fAssetIndex then (this, w, true) else
      let pair := (re_strName r, address) in
      let '(this, best) := GetBestAssetAddressAmount this w pair in
      if negb best && negb (re_nAmount r =? 0) then (this, w, false) else
      let this := change_amount pair (fun q => swrap 64 (q - re_nAmount r)) this in
      (this, w, negb (default 0 (om_find pair (mapAssetsAddressAmount this)) <? 0))
  end.

Definition UndoTransfer (this : CAssetsCache) (w : assets_global) (t : CAssetTransfer) (address : bytes) : CAssetsCache * bool :=
  if negb fAssetIndex then (this, true) else
  let pair := (tr_strName t, address) in
  let '(this, best) := GetBestAssetAddressAmount this w pair in
  if negb best then (this, false) else
  if default 0 (om_find pair (mapAssetsAddressAmount this)) <? tr_nAmount t then (this, false) else
  (change_amount pair (fun q => swrap 64 (q - tr_nAmount t)) this, true).
Definition RemoveTransfer (this : CAssetsCache) (w : assets_global) (t : CAssetTransfer) (address : bytes) (out : COutPoint) : CAssetsCache * bool :=
  match UndoTransfer this w t address with
  | (this, false) => (this, false)
  | (this, true) => (set_transfers (fun d => remove_dirty d (out_key out, mkCacheTransfer t address out)) this, true)
  end.

Definition AddBackSpentAsset (this : CAssetsCache) (w : assets_global) (assetName address : bytes) (nAmount : Z) : CAssetsCache :=
  push_amounts [mkCacheAmount assetName address nAmount] []
    (change_best_amount (assetName, address) (fun q => swrap 64 (q + nAmount)) w this).

(** ** Coins *)

Variable ap : AssetParams.

(** The name, amount and address of an output, whatever it does with the asset. *)
Definition asset_of_script (script : CScript) : option (bytes * Z * bytes) :=
  match IsAssetScript script with
  | Some (TX_NEW_ASSET, false, _) => option_map (fun '(a, addr) => (strName a, na_nAmount a, addr)) (AssetFromScript ap script)
  | Some (TX_TRANSFER_ASSET, _, _) => option_map (fun '(t, addr) => (tr_strName t, tr_nAmount t, addr)) (TransferAssetFromScript ap script)
  | Some (TX_NEW_ASSET, true, _) => option_map (fun '(name, addr) => (name, OWNER_ASSET_AMOUNT, addr)) (OwnerAssetFromScript ap script)
  | Some (TX_REISSUE_ASSET, _, _) => option_map (fun '(r, addr) => (re_strName r, re_nAmount r, addr)) (ReissueAssetFromScript ap script)
  | _ => None
  end.

Definition TrySpendCoin (this : CAssetsCache) (w : assets_global) (txOut : CTxOut) : CAssetsCache * bool :=
  if negb (is_asset_script (scriptPubKey txOut)) then (this, true) else
  match asset_of_script (scriptPubKey txOut) with
  | None => (this, false)
  | Some (assetName, nAmount, address) =>
      if bool_decide (address = []) || bool_decide (assetName = []) then (this, false) else
      if negb (fAssetIndex && (0 <? nAmount)) then (this, true) else
      let pair := (assetName, address) in
      let '(this, best) := GetBestAssetAddressAmount this w pair in
      if negb best then (this, true) else
      (push_amounts [] [mkCacheAmount assetName address nAmount]
         (change_amount pair (fun q => Z.max 0 (swrap 64 (q - nAmount))) this), true)
  end.
Definition UndoAssetCoin (this : CAssetsCache) (w : assets_global) (coin : Coin) : CAssetsCache * bool :=
  match asset_of_script (scriptPubKey (coin_out coin)) with
  | None => (this, false)
  | Some (assetName, nAmount, address) =>
      if bool_decide (assetName = []) || bool_decide (address = []) || (nAmount =? 0) then (this, false)
      else (AddBackSpentAsset this w assetName address nAmount, true)
  end.

(** ** Flushing *)

(** [Flush] into [passets]. *)
Definition Flush (this : CAssetsCache) (p : CAssetsCache) : CAssetsCache :=
  mkAssetsCache
    (fold_left (fun m kv => om_insert kv.1 kv.2 m) (mapAssetsAddressAmount this) (mapAssetsAddressAmount p))
    (fold_left (fun m kv => om_insert kv.1 kv.2 m) (mapReissuedAssetData this) (mapReissuedAssetData p))
    (flush_dirty (setNewAssets this) (setNewAssets p))
    (flush_dirty (setNewReissue this) (setNewReissue p))
    (flush_dirty (setNewOwnerAssets this) (setNewOwnerAssets p))
    (flush_dirty (setNewTransferAssets this) (setNewTransferAssets p))
    (vUndoAssetAmount p ++ vUndoAssetAmount this)
    (vSpentAssets p ++ vSpentAssets this).
Definition flush_global (this : CAssetsCache) (w : assets_global) : assets_global := mkGlobal (Flush this (passets w)) (passetsCache w) (passetsdb w).

(** The steps of [DumpCacheToDatabase], each on the LRU cache and the database. *)
Definition when_index (f : CAssetsDB -> CAssetsDB) (db : CAssetsDB) : CAssetsDB := if fAssetIndex then f db else db.

Definition dump_removed (s : store) (e : bytes * CAssetCacheNewAsset) : store :=
  let name := strName (cn_asset e.2) in
  (lru_Erase name s.1, when_index (EraseQuantity (name, cn_address e.2)) (EraseAssetData name s.2)).
Definition dump_added (s : store) (e : bytes * CAssetCacheNewAsset) : store :=
  let a := cn_asset e.2 in
  (lru_Put (strName a) (mkAssetData a (cn_blockHeight e.2) (cn_blockHash e.2)) s.1,
   when_index (WriteQuantity (strName a, cn_address e.2) (na_nAmount a)) (WriteAssetData a (cn_blockHeight e.2) (cn_blockHash e.2) s.2)).

(** The balance of a pair, when the cache has it: written, or erased when zero. *)
Definition write_amount (p : CAssetsCache) (pair : bytes * bytes) (db : CAssetsDB) : CAssetsDB :=
  match om_find pair (mapAssetsAddressAmount p) with Some q => WriteQuantity pair q db | None => db end.
Definition write_positive (p : CAssetsCache) (pair : bytes * bytes) (db : CAssetsDB) : CAssetsDB :=
  match om_find pair (mapAssetsAddressAmount p) with Some q => if 0 <? q then WriteQuantity pair q db else db | None => db end.
Definition write_or_erase (p : CAssetsCache) (pair : bytes * bytes) (db : CAssetsDB) : CAssetsDB :=
  match om_find pair (mapAssetsAddressAmount p) with
  | Some q => if q =? 0 then EraseQuantity pair db else WriteQuantity pair q db
  | None => db
  end.

Definition dump_owners_and_transfers (p : CAssetsCache) (db : CAssetsDB) : CAssetsDB :=
  let db := fold_left (fun db e => EraseQuantity e db) (to_remove (setNewOwnerAssets p)) db in
  let db := fold_left (fun db e => write_positive p e db) (to_add (setNewOwnerAssets p)) db in
  let pair e := (tr_strName (ct_transfer e), ct_address e) in
  let db := fold_left (fun db e => write_or_erase p (pair e.2) db) (to_remove (setNewTransferAssets p)) db in
  fold_left (fun db e => write_amount p (pair e.2) db) (to_add (setNewTransferAssets p)) db.

(** A reissued asset is written over the asset it was. *)
Definition dump_reissue_added (p : CAssetsCache) (s : store) (e : (bytes * Z) * CAssetCacheReissueAsset) : store :=
  let name := re_strName (cr_reissue e.2) in
  match om_find name (mapReissuedAssetData p) with
  | Some a => (lru_Erase name s.1,
               when_index (write_positive p (name, cr_address e.2)) (WriteAssetData a (cr_blockHeight e.2) (cr_blockHash e.2) s.2))
  | None => s
  end.
Definition dump_reissue_removed (p : CAssetsCache) (s : store) (e : (bytes * Z) * CAssetCacheReissueAsset) : store :=
  let name := re_strName (cr_reissue e.2) in
  if om_mem name (to_remove (setNewAssets p)) then s else
  match om_find name (mapReissuedAssetData p) with
  | Some a => (lru_Erase name s.1,
               when_index (write_or_erase p (name, cr_address e.2)) (WriteAssetData a (cr_blockHeight e.2) (cr_blockHash e.2) s.2))
  | None => s
  end.
Definition dump_spends (p : CAssetsCache) (db : CAssetsDB) : CAssetsDB :=
  let db := fold_left (fun db u => write_amount p (ca_assetName u, ca_address u) db) (vUndoAssetAmount p) db in
  fold_left (fun db u => write_or_erase p (ca_assetName u, ca_address u) db) (vSpentAssets p) db.

(** [DumpCacheToDatabase] of [passets]; a write that fails stops the node. *)
Definition DumpCacheToDatabase (w : assets_global) : assets_global :=
  let p := passets w in
  let s := fold_left dump_removed (to_remove (setNewAssets p)) (passetsCache w, passetsdb w) in
  let s := fold_left dump_added (to_add (setNewAssets p)) s in
  let s := (s.1, when_index (dump_owners_and_transfers p) s.2) in
  let s := fold_left (dump_reissue_added p) (to_add (setNewReissue p)) s in
  let s := fold_left (dump_reissue_removed p) (to_remove (setNewReissue p)) s in
  mkGlobal ClearDirtyCache s.1 (when_index (dump_spends p) s.2).

End Cache.

(** ** Lemmas on the sets *)

Section DirtyLemmas.
Context {K V : Type} `{OrdKey K}.
Implicit Types (d t p : dirty K V) (l m : omap K V).

Lemma om_mem_iff k m : om_mem k m = true <-> is_Some (om_find k m).
Proof. unfold om_mem. destruct (om_find k m); split; (done || by intros []). Qed.
Lemma om_mem_false k m : om_mem k m = false <-> om_find k m = None.
Proof. unfold om_mem. by destruct (om_find k m). Qed.

Lemma os_insert_find k v m k' : om_find k' (os_insert k v m) = if decide (k = k') then Some (default v (om_find k m)) else om_find k' m.
Proof.
  unfold os_insert. destruct (om_mem k m) eqn:E.
  - apply om_mem_iff in E as [x E]. case_decide; [subst; by rewrite E|done].
  - apply om_mem_false in E. rewrite om_find_insert, E. done.
Qed.
Lemma os_insert_mem k v m k' : om_mem k' (os_insert k v m) = bool_decide (k = k') || om_mem k' m.
Proof. unfold om_mem. rewrite os_insert_find. by case_decide; [rewrite bool_decide_eq_true_2|rewrite bool_decide_eq_false_2]. Qed.
Lemma os_insert_wf k v m : om_wf m -> om_wf (os_insert k v m).
Proof. unfold os_insert. destruct (om_mem k m); [done|apply om_wf_insert]. Qed.

Definition dirty_wf d : Prop := om_wf (to_add d) /\ om_wf (to_remove d).
Lemma clean_wf : dirty_wf clean.
Proof. split; apply om_wf_nil. Qed.
Lemma add_dirty_wf d kv : dirty_wf d -> dirty_wf (add_dirty d kv).
Proof. intros []. split; [by apply os_insert_wf|by apply om_wf_erase]. Qed.
Lemma remove_dirty_wf d kv : dirty_wf d -> dirty_wf (remove_dirty d kv).
Proof. intros []. split; [by apply om_wf_erase|by apply os_insert_wf]. Qed.
Lemma flush_dirty_wf t p : dirty_wf p -> dirty_wf (flush_dirty t p).
Proof.
  unfold flush_dirty. intros Hp. assert (H1 : dirty_wf (fold_left add_dirty (to_add t) p)).
  { revert p Hp. induction (to_add t) as [|kv l IH]; intros p Hp; [done|]. by apply IH, add_dirty_wf. }
  revert H1. generalize (fold_left add_dirty (to_add t) p). induction (to_remove t) as [|kv l IH]; intros q Hq; [done|]. by apply IH, remove_dirty_wf.
Qed.

Lemma adds_to_add l p k : om_find k (to_add (fold_left add_dirty l p)) = match om_find k (to_add p) with Some v => Some v | None => om_find k l end.
Proof.
  revert p. induction l as [|[k0 v0] l IH]; intros p; cbn [fold_left]; [by destruct (om_find k (to_add p))|]. rewrite IH. cbn [to_add add_dirty fst snd om_find].
  rewrite os_insert_find. destruct (decide (k0 = k)) as [->|]; [rewrite decide_True by done; by destruct (om_find k (to_add p))|by rewrite decide_False].
Qed.
Lemma adds_to_remove l p k : om_find k (to_remove (fold_left add_dirty l p)) = if om_mem k l then None else om_find k (to_remove p).
Proof.
  revert p. induction l as [|[k0 v0] l IH]; intros p; cbn [fold_left]; [done|]. rewrite IH. cbn [to_remove add_dirty fst snd]. unfold om_mem. cbn [om_find].
  rewrite om_find_erase. destruct (decide (k0 = k)) as [->|]; [rewrite decide_True by done; by destruct (om_find k l)|by rewrite decide_False].
Qed.
Lemma removes_to_add l p k : om_find k (to_add (fold_left remove_dirty l p)) = if om_mem k l then None else om_find k (to_add p).
Proof.
  revert p. induction l as [|[k0 v0] l IH]; intros p; cbn [fold_left]; [done|]. rewrite IH. cbn [to_add remove_dirty fst snd]. unfold om_mem. cbn [om_find].
  rewrite om_find_erase. destruct (decide (k0 = k)) as [->|]; [rewrite decide_True by done; by destruct (om_find k l)|by rewrite decide_False].
Qed.
Lemma removes_to_remove l p k :
  om_find k (to_remove (fold_left remove_dirty l p)) = match om_find k (to_remove p) with Some v => Some v | None => om_find k l end.
Proof.
  revert p. induction l as [|[k0 v0] l IH]; intros p; cbn [fold_left]; [by destruct (om_find k (to_remove p))|]. rewrite IH. cbn [to_remove remove_dirty fst snd om_find].
  rewrite os_insert_find. destruct (decide (k0 = k)) as [->|]; [rewrite decide_True by done; by destruct (om_find k (to_remove p))|by rewrite decide_False].
Qed.

Lemma flush_to_add t p k : om_find k (to_add (flush_dirty t p)) =
  if om_mem k (to_remove t) then None else match om_find k (to_add p) with Some v => Some v | None => om_find k (to_add t) end.
Proof. unfold flush_dirty. by rewrite removes_to_add, adds_to_add. Qed.
Lemma flush_to_remove t p k : om_find k (to_remove (flush_dirty t p)) =
  match (if om_mem k (to_add t) then None else om_find k (to_remove p)) with Some v => Some v | None => om_find k (to_remove t) end.
Proof. unfold flush_dirty. by rewrite removes_to_remove, adds_to_remove. Qed.

Lemma flush_map_find l m k : om_wf l ->
  om_find k (fold_left (fun m kv => om_insert kv.1 kv.2 m) l m) = match om_find k l with Some v => Some v | None => om_find k m end.
Proof.
  revert m. induction l as [|[k0 v0] l IH]; intros m Hwf; [done|]. cbn [fold_left om_find]. apply om_wf_cons in Hwf as [Hwf Hf]. rewrite IH by done.
  cbn [fst snd]. rewrite om_find_insert. destruct (decide (k0 = k)) as [->|Hne].
  - rewrite decide_True by done. destruct (om_find k l) as [v|] eqn:E; [|done]. exfalso. apply om_find_Some_in in E.
    rewrite Forall_forall in Hf. specialize (Hf _ E). cbn in Hf. by rewrite key_ltb_irrefl in Hf.
  - by rewrite decide_False.
Qed.
Lemma flush_map_wf l m : om_wf m -> om_wf (fold_left (fun m kv => om_insert kv.1 kv.2 m) l m).
Proof. revert m. induction l as [|kv l IH]; intros m Hm; [done|]. by apply IH, om_wf_insert. Qed.

End DirtyLemmas.

(** ** Lemmas on the LRU cache *)

Lemma om_find_removelast {V} (l : omap bytes V) k v : om_find k (removelast l) = Some v -> om_find k l = Some v.
Proof.
  induction l as [|[k0 v0] l IH]; [done|]. destruct l as [|kv l]; [done|]. change (removelast ((k0, v0) :: kv :: l)) with ((k0, v0) :: removelast (kv :: l)).
  cbn [om_find]. case_decide; [done|]. apply IH.
Qed.

(** The items are rows of the database. *)
Definition lru_ok (l : CLRUCache) (db : CAssetsDB) : Prop := forall k d, lru_find k l = Some d -> db_assets db !! k = Some d.

Lemma lru_Erase_find k k' l : lru_find k' (lru_Erase k l) = if decide (k = k') then None else lru_find k' l.
Proof. unfold lru_find, lru_Erase. apply om_find_erase. Qed.
Lemma lru_Put_find k v l k' d : lru_find k' (lru_Put k v l) = Some d -> (k' = k /\ d = v) \/ (k' <> k /\ lru_find k' l = Some d).
Proof.
  unfold lru_find, lru_Put. cbn [lru_items]. intros Hf.
  assert (om_find k' ((k, v) :: om_erase k (lru_items l)) = Some d) as Hf' by (destruct (_ <? _)%nat; [by apply om_find_removelast|done]).
  cbn [om_find] in Hf'. case_decide; [left; by simplify_eq|]. right. split; [done|]. by rewrite om_find_erase_ne in Hf'.
Qed.
Lemma lru_Put_row k v l db : lru_ok l db -> db_assets db !! k = Some v -> lru_ok (lru_Put k v l) db.
Proof. intros Hl Hv k' d Hf. apply lru_Put_find in Hf as [[-> ->]|[_ Hf]]; [done|by apply Hl]. Qed.
Lemma lru_Get_ok k l db : lru_ok l db -> lru_ok (lru_Get k l) db.
Proof.
  intros Hl. unfold lru_Get. destruct (lru_find k l) as [v|] eqn:E; [|done]. intros k' d. unfold lru_find. cbn [lru_items om_find].
  case_decide; [subst; intros [= <-]; by apply Hl|]. rewrite om_find_erase_ne by done. apply Hl.
Qed.

(** ** The assets of a history *)

(** What blocks do to the assets; the last operation first. *)
Inductive asset_op := Issue (a : CNewAsset) | Reissue (r : CReissueAsset) (out : COutPoint).

Fixpoint assets_of (H : list asset_op) : gmap bytes CNewAsset :=
  match H with
  | [] => ∅
  | Issue a :: H => <[strName a := a]> (assets_of H)
  | Reissue r _ :: H =>
      match assets_of H !! re_strName r with
      | Some a => <[re_strName r := reissued a r]> (assets_of H)
      | None => assets_of H
      end
  end.

(** What [CheckNewAsset] and [ContextualCheckNewAsset] leave of the hash. *)
Definition hash_flag (a : CNewAsset) : Prop := na_nHasIPFS a = if bool_decide (na_strIPFSHash a = []) then 0 else 1.

Section Refine.
(** The asset that the outpoint of a reissue names: a transaction hash fixes its outputs. *)
Variable reissue_at : bytes * Z -> bytes.

(** An operation the checks let through after a history. *)
Definition valid_op (H : list asset_op) (op : asset_op) : Prop :=
  match op with
  | Issue a => assets_of H !! strName a = None /\ hash_flag a /\ 0 <= na_nAmount a <= MAX_MONEY
  | Reissue r out =>
      reissue_at (out_key out) = re_strName r /\ 0 <= re_nAmount r /\
      exists a, assets_of H !! re_strName r = Some a /\ na_nReissuable a = 1 /\ na_nAmount a + re_nAmount r <= MAX_MONEY
  end.
Fixpoint valid_history (H : list asset_op) : Prop :=
  match H with [] => True | op :: H => valid_op H op /\ valid_history H end.

(** The undo data [AddCoins] makes for a reissue; none when nothing it covers changes. *)
Definition undo_item (a : CNewAsset) (r : CReissueAsset) : CBlockAssetUndo :=
  mkAssetUndo (negb (bool_decide (re_strIPFSHash r = []))) (negb (re_nUnits r =? -1)) (na_strIPFSHash a) (na_units a).
Definition undo_fits (vUndoIPFS : list (bytes * CBlockAssetUndo)) (a : CNewAsset) (r : CReissueAsset) : Prop :=
  match list_find (fun item => item.1 = re_strName r) vUndoIPFS with
  | Some (_, (_, u)) => u = undo_item a r
  | None => re_strIPFSHash r = [] /\ re_nUnits r = -1
  end.

(** ** What the caches hold *)

Definition found (t p : CAssetsCache) (db : CAssetsDB) (n : bytes) : bool :=
  negb (om_mem n (to_remove (setNewAssets t))) && negb (om_mem n (to_remove (setNewAssets p))) &&
  (om_mem n (to_add (setNewAssets t)) || om_mem n (to_add (setNewAssets p)) || bool_decide (is_Some (db_assets db !! n))).
Definition data (t p : CAssetsCache) (db : CAssetsDB) (n : bytes) : option CNewAsset :=
  match om_find n (mapReissuedAssetData t), om_find n (mapReissuedAssetData p) with
  | Some a, _ | None, Some a => Some a
  | None, None =>
      if om_mem n (to_remove (setNewAssets t)) || om_mem n (to_remove (setNewAssets p)) then None else
      match om_find n (to_add (setNewAssets t)), om_find n (to_add (setNewAssets p)) with
      | Some e, _ | None, Some e => Some (cn_asset e)
      | None, None => ad_asset <$> db_assets db !! n
      end
  end.

Definition in_reissues (c : CAssetsCache) (k : bytes * Z) (e : CAssetCacheReissueAsset) : Prop :=
  om_find k (to_add (setNewReissue c)) = Some e \/ om_find k (to_remove (setNewReissue c)) = Some e.
Record cache_wf (c : CAssetsCache) : Prop := {
  cw_map : om_wf (mapReissuedAssetData c);
  cw_new : dirty_wf (setNewAssets c);
  cw_reissue : dirty_wf (setNewReissue c);
  cw_added n e : om_find n (to_add (setNewAssets c)) = Some e -> strName (cn_asset e) = n;
  cw_removed n e : om_find n (to_remove (setNewAssets c)) = Some e -> strName (cn_asset e) = n;
  cw_names n a : om_find n (mapReissuedAssetData c) = Some a -> strName a = n;
  cw_at k e : in_reissues c k e -> re_strName (cr_reissue e) = reissue_at k;
  cw_cover n : is_Some (om_find n (mapReissuedAssetData c)) -> exists k e, in_reissues c k e /\ reissue_at k = n;
}.
Definition live (H : list asset_op) (k : bytes * Z) : Prop := exists r out, Reissue r out ∈ H /\ out_key out = k.

(** A cache [t] over [p] and the database, after a history. *)
Record holds (t p : CAssetsCache) (db : CAssetsDB) (H : list asset_op) : Prop := {
  ho_t : cache_wf t;
  ho_p : cache_wf p;
  ho_db n d : db_assets db !! n = Some d -> strName (ad_asset d) = n;
  ho_new n : is_Some (om_find n (to_add (setNewAssets t))) -> om_find n (to_add (setNewAssets p)) = None /\ om_find n (to_remove (setNewAssets p)) = None;
  ho_disjoint n : is_Some (om_find n (to_add (setNewAssets p))) -> om_find n (to_remove (setNewAssets p)) = None;
  ho_live k e : om_find k (to_add (setNewReissue p)) = Some e \/ om_find k (to_add (setNewReissue t)) = Some e ->
    om_find k (to_remove (setNewReissue t)) = None -> live H k;
  ho_found n : found t p db n = bool_decide (is_Some (assets_of H !! n));
  ho_data n a : assets_of H !! n = Some a -> data t p db n = Some a;
  ho_map n : is_Some (om_find n (mapReissuedAssetData t)) \/ is_Some (om_find n (mapReissuedAssetData p)) ->
    is_Some (assets_of H !! n) \/ is_Some (om_find n (to_remove (setNewAssets t))) \/ is_Some (om_find n (to_remove (setNewAssets p)));
}.

(** *** Histories *)

Lemma assets_of_name H n a : valid_history H -> assets_of H !! n = Some a -> strName a = n.
Proof.
  revert n a. induction H as [|[a0|r out] H IH]; intros n a; cbn [assets_of valid_history]; [by rewrite lookup_empty| |].
  - intros [_ HH] Ha. apply lookup_insert_Some in Ha as [[<- <-]|[_ Ha]]; [done|by apply IH].
  - intros [(_ & _ & a1 & E & _) HH]. rewrite E. intros Ha. apply lookup_insert_Some in Ha as [[<- <-]|[_ Ha]]; [exact (IH _ _ HH E)|by apply IH].
Qed.
Lemma live_asset H k : valid_history H -> live H k -> is_Some (assets_of H !! reissue_at k).
Proof.
  induction H as [|op H IH]; intros HH (r & out & Hin & <-); [by apply elem_of_nil in Hin|]. cbn [valid_history] in HH. destruct HH as [Hop HH].
  apply elem_of_cons in Hin as [<-|Hin].
  - destruct Hop as (-> & _ & a & E & _). cbn [assets_of]. rewrite E, lookup_insert_eq. done.
  - assert (Hl : is_Some (assets_of H !! reissue_at (out_key out))) by (apply IH; [done|by exists r, out]).
    destruct op as [a0|r0 out0]; cbn [assets_of]; [by apply lookup_insert_is_Some'; right|]. destruct (assets_of H !! re_strName r0); [by apply lookup_insert_is_Some'; right|done].
Qed.
Lemma assets_of_hash H n a : valid_history H -> assets_of H !! n = Some a -> hash_flag a /\ 0 <= na_nAmount a <= MAX_MONEY.
Proof.
  revert n a. induction H as [|[a0|r out] H IH]; intros n a; cbn [assets_of valid_history]; [by rewrite lookup_empty| |].
  - intros [(_ & Hop) HH] Ha. apply lookup_insert_Some in Ha as [[_ <-]|[_ Ha]]; [done|by apply (IH n)].
  - intros [(_ & Hr & a1 & E & _ & Hm) HH]. rewrite E. intros Ha. apply lookup_insert_Some in Ha as [[_ <-]|[_ Ha]]; [|by apply (IH n)].
    destruct (IH _ _ HH E) as [Hf Hb]. assert (Hs : swrap 64 (na_nAmount a1 + re_nAmount r) = na_nAmount a1 + re_nAmount r).
    { apply swrap_small; [lia|]. unfold MAX_MONEY, COIN in *. lia. }
    split; [|cbn; rewrite Hs; lia]. unfold hash_flag. cbn. case_bool_decide as E1; [exact Hf|by rewrite bool_decide_eq_false_2].
Qed.

(** Undoing a reissue gives the asset back. *)
Lemma unreissued_reissued a r vUndoIPFS : hash_flag a -> 0 <= na_nAmount a -> 0 <= re_nAmount r -> na_nReissuable a = 1 ->
  na_nAmount a + re_nAmount r <= MAX_MONEY -> undo_fits vUndoIPFS a r -> unreissued (reissued a r) r vUndoIPFS = a.
Proof.
  intros Hf Ha Hr H1 Hm Hu. unfold MAX_MONEY, COIN in Hm.
  assert (Hamt : swrap 64 (swrap 64 (na_nAmount a + re_nAmount r) - re_nAmount r) = na_nAmount a).
  { rewrite (swrap_small 64 (na_nAmount a + re_nAmount r)) by lia. rewrite swrap_small by lia. lia. }
  unfold unreissued, undo_fits in *. cbn [strName na_nAmount na_units na_nHasIPFS na_strIPFSHash reissued]. rewrite Hamt. unfold hash_flag in Hf.
  destruct a as [nm am un re hf hs]. cbn in *. subst re.
  destruct (list_find _ vUndoIPFS) as [[i [s u]]|].
  - subst u. cbn [undo_item fChangedIPFS fChangedUnits undo_strIPFS undo_nUnits na_strIPFSHash na_units].
    rewrite Hf. destruct (bool_decide (re_strIPFSHash r = [])), (re_nUnits r =? -1); cbn; by destruct (bool_decide (hs = [])).
  - destruct Hu as [-> ->]. done.
Qed.

(** *** Reading *)

Definition same_world (w w' : assets_global) : Prop :=
  passets w' = passets w /\ passetsdb w' = passetsdb w /\ lru_ok (passetsCache w') (passetsdb w').
Definition db_named (db : CAssetsDB) : Prop := forall n d, db_assets db !! n = Some d -> strName (ad_asset d) = n.

Lemma CheckIfAssetExists_found t w n : lru_ok (passetsCache w) (passetsdb w) -> db_named (passetsdb w) ->
  (CheckIfAssetExists false t w n true).2 = found t (passets w) (passetsdb w) n /\ same_world w (CheckIfAssetExists false t w n true).1.
Proof.
  intros Hl Hn. unfold CheckIfAssetExists, found, same_world. rewrite !andb_true_r.
  destruct (om_mem n (to_remove (setNewAssets t))); [done|]. destruct (om_mem n (to_remove (setNewAssets (passets w)))); [done|].
  destruct (om_mem n (to_add (setNewAssets t))); [done|]. destruct (om_mem n (to_add (setNewAssets (passets w)))); [done|]. cbn [negb andb orb].
  unfold lru_Exists. destruct (om_mem n (lru_items (passetsCache w))) eqn:E.
  - apply om_mem_iff in E as [d E]. apply Hl in E. rewrite E, bool_decide_eq_true_2 by done. done.
  - destruct (db_assets (passetsdb w) !! n) as [d|] eqn:Ed; [|by rewrite bool_decide_eq_false_2 by (intros []; done)].
    rewrite bool_decide_eq_true_2 by done. split_and!; [done..|]. apply lru_Put_row; [done|]. cbn. by rewrite (Hn _ _ Ed).
Qed.

Lemma GetAssetMetaDataIfExists_data t w n : lru_ok (passetsCache w) (passetsdb w) -> db_named (passetsdb w) ->
  fst <$> (GetAssetMetaDataIfExists t w n).2 = data t (passets w) (passetsdb w) n /\ same_world w (GetAssetMetaDataIfExists t w n).1.
Proof.
  intros Hl Hn. unfold GetAssetMetaDataIfExists, data, same_world.
  destruct (om_find n (mapReissuedAssetData t)); [done|]. destruct (om_find n (mapReissuedAssetData (passets w))); [done|].
  destruct (om_mem n (to_remove (setNewAssets t))); [done|]. destruct (om_mem n (to_remove (setNewAssets (passets w)))); [done|]. cbn [orb].
  destruct (om_find n (to_add (setNewAssets t))); [done|]. destruct (om_find n (to_add (setNewAssets (passets w)))); [done|].
  destruct (lru_find n (passetsCache w)) as [d|] eqn:E.
  - rewrite (Hl _ _ E). split_and!; [done..|]. by apply lru_Get_ok.
  - destruct (db_assets (passetsdb w) !! n) as [d|] eqn:Ed; [|done].
    split_and!; [done..|]. apply lru_Put_row; [done|]. cbn. by rewrite (Hn _ _ Ed).
Qed.

(** *** Changing *)

Definition same_assets (t t' : CAssetsCache) : Prop :=
  mapReissuedAssetData t' = mapReissuedAssetData t /\ setNewAssets t' = setNewAssets t /\ setNewReissue t' = setNewReissue t.

Lemma cache_wf_same c c' : same_assets c c' -> cache_wf c -> cache_wf c'.
Proof.
  intros (E1 & E2 & E3) []. constructor; unfold in_reissues in *; rewrite ?E1, ?E2, ?E3; eauto.
Qed.
Lemma holds_same t t' p db H : same_assets t t' -> holds t p db H -> holds t' p db H.
Proof.
  intros Hs []. pose proof Hs as (E1 & E2 & E3). constructor; unfold found, data in *; rewrite ?E1, ?E2, ?E3; eauto. by apply (cache_wf_same t).
Qed.

Lemma same_assets_refl t : same_assets t t.
Proof. done. Qed.
Lemma same_assets_trans a b c : same_assets a b -> same_assets b c -> same_assets a c.
Proof. intros (E1 & E2 & E3) (F1 & F2 & F3). unfold same_assets. by rewrite F1, F2, F3. Qed.
Lemma set_amounts_same f t : same_assets t (set_amounts f t).
Proof. done. Qed.

Lemma cache_wf_empty : cache_wf ClearDirtyCache.
Proof.
  constructor; try done; try apply om_wf_nil; try apply clean_wf.
  - by intros k e [].
  - by intros n [].
Qed.

(** The sets of one operation. *)
Lemma cache_wf_add_new c a address h hash : cache_wf c ->
  cache_wf (set_new_assets (fun d => add_dirty d (strName a, mkCacheNew a address h hash)) c).
Proof.
  intros []. constructor; try done.
  - by apply add_dirty_wf.
  - intros n e. cbn [set_new_assets setNewAssets add_dirty to_add fst snd]. rewrite os_insert_find. case_decide as E; [|by apply cw_added0]. intros [= <-].
    destruct (om_find (strName a) (to_add (setNewAssets c))) as [e0|] eqn:E0; cbn; [|done]. by rewrite (cw_added0 _ _ E0).
  - intros n e. cbn [set_new_assets setNewAssets add_dirty to_remove fst snd]. rewrite om_find_erase. case_decide; [done|by apply cw_removed0].
Qed.
Lemma cache_wf_remove_new c a address : cache_wf c ->
  cache_wf (set_new_assets (fun d => remove_dirty d (strName a, mkCacheNew a address 0 uint256_null)) c).
Proof.
  intros []. constructor; try done.
  - by apply remove_dirty_wf.
  - intros n e. cbn [set_new_assets setNewAssets remove_dirty to_add fst snd]. rewrite om_find_erase. case_decide; [done|by apply cw_added0].
  - intros n e. cbn [set_new_assets setNewAssets remove_dirty to_remove fst snd]. rewrite os_insert_find. case_decide as E; [|by apply cw_removed0]. intros [= <-].
    destruct (om_find (strName a) (to_remove (setNewAssets c))) as [e0|] eqn:E0; cbn; [|done]. by rewrite (cw_removed0 _ _ E0).
Qed.

(** A pair of sets that gains the outpoint of a reissue, on either side. *)
Definition mark {K V} `{OrdKey K} (adding : bool) : dirty K V -> K * V -> dirty K V := if adding then add_dirty else remove_dirty.
Lemma cache_wf_reissue c a adding kv : cache_wf c -> re_strName (cr_reissue kv.2) = strName a -> reissue_at kv.1 = strName a ->
  cache_wf (set_reissues (om_insert (strName a) a) (fun d => mark adding d kv) c).
Proof.
  intros [] Hkv Hat. set (c' := set_reissues _ _ c).
  assert (Hin : forall k e, in_reissues c' k e -> in_reissues c k e \/ (k = kv.1 /\ e = kv.2)).
  { intros k e. unfold in_reissues. subst c'. cbn [set_reissues setNewReissue].
    destruct adding; cbn [mark add_dirty remove_dirty to_add to_remove]; rewrite os_insert_find, om_find_erase; (case_decide as E; [subst k|tauto]).
    - destruct (om_find kv.1 (to_add (setNewReissue c))) eqn:E0; cbn; intros [[= <-]|Hx]; [by left; left|done|by right|done].
    - destruct (om_find kv.1 (to_remove (setNewReissue c))) eqn:E0; cbn; intros [Hx|[= <-]]; [done|by left; right|done|by right]. }
  assert (Hback : forall k, (exists e, in_reissues c k e) \/ k = kv.1 -> exists e, in_reissues c' k e).
  { intros k Hk. destruct (decide (kv.1 = k)) as [<-|Hne].
    - subst c'. unfold in_reissues. cbn [set_reissues setNewReissue]. destruct adding; cbn [mark add_dirty remove_dirty to_add to_remove]; setoid_rewrite os_insert_find; rewrite decide_True by done; eauto.
    - destruct Hk as [[e He]|]; [|done]. exists e. subst c'. unfold in_reissues in *. cbn [set_reissues setNewReissue].
      destruct adding; cbn [mark add_dirty remove_dirty to_add to_remove]; by rewrite os_insert_find, om_find_erase, !decide_False. }
  constructor; try done.
  - by apply om_wf_insert.
  - subst c'. cbn. destruct adding; [by apply add_dirty_wf|by apply remove_dirty_wf].
  - intros n b. subst c'. cbn [set_reissues mapReissuedAssetData]. rewrite om_find_insert. case_decide; [by intros [= <-]|by apply cw_names0].
  - intros k e He. apply Hin in He as [He|[-> ->]]; [by apply cw_at0|congruence].
  - intros n. subst c'. cbn [set_reissues mapReissuedAssetData]. rewrite om_find_insert. case_decide as E.
    + intros _. destruct (Hback kv.1) as [e He]; [by right|]. exists kv.1, e. by rewrite <- E.
    + intros Hn. destruct (cw_cover0 n Hn) as (k & e & He & Hk). destruct (Hback k) as [e' He']; [left; by exists e|]. by exists k, e'.
Qed.

Lemma holds_issue t p db H a address h hash : holds t p db H -> valid_op H (Issue a) ->
  to_remove (setNewAssets t) = [] -> om_find (strName a) (to_remove (setNewAssets p)) = None ->
  holds (set_new_assets (fun d => add_dirty d (strName a, mkCacheNew a address h hash)) t) p db (Issue a :: H).
Proof.
  intros Hh (Hnone & _) Hrem Hp. destruct Hh. pose proof (ho_found0 (strName a)) as Hf.
  rewrite Hnone, bool_decide_eq_false_2 in Hf by (by intros []). unfold found in Hf. rewrite Hrem in Hf. rewrite (proj2 (om_mem_false _ _) Hp) in Hf. cbn in Hf.
  apply orb_false_iff in Hf as [[Ht%om_mem_false Hpa%om_mem_false]%orb_false_iff Hdb].
  assert (Hmap : om_find (strName a) (mapReissuedAssetData t) = None /\ om_find (strName a) (mapReissuedAssetData p) = None).
  { split; apply eq_None_not_Some; intros Hx; (destruct (ho_map0 (strName a)) as [Hy|[Hy|Hy]]; [tauto|..]);
      rewrite ?Hnone, ?Hrem, ?Hp in Hy; by destruct Hy. }
  constructor; try done.
  - by apply cache_wf_add_new.
  - intros n. cbn [set_new_assets setNewAssets add_dirty to_add fst snd]. rewrite os_insert_find. case_decide as E; [by subst|apply ho_new0].
  - intros k e He Hr. destruct (ho_live0 k e He Hr) as (r & out & Hin & E). exists r, out. split; [by right|done].
  - intros n. cbn [assets_of]. unfold found. cbn [set_new_assets setNewAssets add_dirty to_add to_remove fst snd]. rewrite Hrem.
    destruct (decide (strName a = n)) as [<-|Hne].
    + rewrite lookup_insert_eq, (bool_decide_eq_true_2 (is_Some (Some a))) by done. rewrite (proj2 (om_mem_false _ _) Hp). by rewrite os_insert_mem, bool_decide_eq_true_2.
    + rewrite lookup_insert_ne by done. rewrite <- ho_found0. unfold found. rewrite Hrem. by rewrite os_insert_mem, (bool_decide_eq_false_2 (strName a = n)).
  - intros n b. cbn [assets_of]. unfold data. cbn [set_new_assets setNewAssets add_dirty to_add to_remove fst snd mapReissuedAssetData]. rewrite Hrem.
    destruct (decide (strName a = n)) as [<-|Hne].
    + rewrite lookup_insert_eq. intros [= <-]. destruct Hmap as [-> ->]. rewrite (proj2 (om_mem_false _ _) Hp), os_insert_find, decide_True by done. by rewrite Ht.
    + rewrite lookup_insert_ne by done. intros Hb. rewrite <- (ho_data0 _ _ Hb). unfold data. rewrite Hrem. by rewrite os_insert_find, decide_False.
  - intros n Hn. cbn [assets_of]. destruct (ho_map0 n Hn) as [Hx|[Hx|Hx]]; [left; apply lookup_insert_is_Some'; by right| |by right; right].
    rewrite Hrem in Hx. by destruct Hx.
Qed.

Lemma holds_unissue t p db H a address : holds t p db (Issue a :: H) -> valid_op H (Issue a) ->
  to_add (setNewAssets t) = [] -> holds (set_new_assets (fun d => remove_dirty d (strName a, mkCacheNew a address 0 uint256_null)) t) p db H.
Proof.
  intros Hh (Hnone & _) Hadd. destruct Hh. constructor; try done.
  - by apply cache_wf_remove_new.
  - intros n. cbn [set_new_assets setNewAssets remove_dirty to_add fst snd]. by rewrite Hadd; intros [].
  - intros k e He Hr. destruct (ho_live0 k e He Hr) as (r & out & Hin & E). exists r, out. split; [|done]. by apply elem_of_cons in Hin as [|].
  - intros n. specialize (ho_found0 n). revert ho_found0. cbn [assets_of]. unfold found. cbn [set_new_assets setNewAssets remove_dirty to_add to_remove fst snd]. rewrite Hadd.
    rewrite os_insert_mem. destruct (decide (strName a = n)) as [<-|Hne].
    + intros _. by rewrite Hnone, (bool_decide_eq_true_2 (strName a = strName a)).
    + by rewrite lookup_insert_ne, (bool_decide_eq_false_2 (strName a = n)).
  - intros n b Hb. assert (Hne : strName a <> n) by congruence. specialize (ho_data0 n b). cbn [assets_of] in ho_data0. rewrite lookup_insert_ne in ho_data0 by done.
    rewrite <- (ho_data0 Hb). unfold data. cbn [set_new_assets setNewAssets remove_dirty to_add to_remove fst snd mapReissuedAssetData]. rewrite Hadd.
    by rewrite os_insert_mem, bool_decide_eq_false_2.
  - intros n Hn. cbn [set_new_assets setNewAssets remove_dirty to_remove fst snd mapReissuedAssetData] in *. rewrite os_insert_find.
    destruct (decide (strName a = n)) as [<-|Hne]; [right; left; by eexists|]. specialize (ho_map0 n Hn). cbn [assets_of] in ho_map0. by rewrite lookup_insert_ne in ho_map0.
Qed.

(** The maps and sets of a reissue, done or undone: the asset becomes [b]. *)
Lemma holds_set_reissue t p db H H' a b adding kv : holds t p db H -> valid_history H -> assets_of H !! strName b = Some a ->
  assets_of H' = <[strName b := b]> (assets_of H) ->
  re_strName (cr_reissue kv.2) = strName b -> reissue_at kv.1 = strName b ->
  (forall k, om_find k (to_remove (mark adding (setNewReissue t) kv)) = None -> (adding = true -> k = kv.1 -> live H' k) /\ (live H k -> live H' k)) ->
  (adding = true -> to_remove (setNewReissue t) = []) ->
  holds (set_reissues (om_insert (strName b) b) (fun d => mark adding d kv) t) p db H'.
Proof.
  intros Hh HH Ha HH' Hkv Hat Hlive Hrem. destruct Hh. constructor; try done.
  - by apply cache_wf_reissue.
  - intros k e. cbn [set_reissues setNewReissue]. intros He Hr. destruct (Hlive k Hr) as [H1 H2].
    destruct adding; cbn [mark add_dirty remove_dirty to_add to_remove] in *.
    + destruct (decide (k = kv.1)) as [->|Hne]; [by apply H1|]. apply H2, (ho_live0 k e); [|by rewrite Hrem]. by rewrite os_insert_find, decide_False in He by done.
    + rewrite os_insert_find in Hr. case_decide as E; [done|]. apply H2, (ho_live0 k e); [|done]. by rewrite om_find_erase, decide_False in He by done.
  - intros n. rewrite HH'. change (found _ p db n) with (found t p db n). rewrite ho_found0. destruct (decide (strName b = n)) as [<-|Hne].
    + by rewrite lookup_insert_eq, Ha.
    + by rewrite lookup_insert_ne.
  - intros n c. rewrite HH'. unfold data. cbn [set_reissues mapReissuedAssetData setNewAssets]. rewrite om_find_insert. destruct (decide (strName b = n)) as [<-|Hne].
    + by rewrite lookup_insert_eq.
    + rewrite lookup_insert_ne by done. apply ho_data0.
  - intros n. rewrite HH'. cbn [set_reissues mapReissuedAssetData setNewAssets]. rewrite om_find_insert. destruct (decide (strName b = n)) as [<-|Hne].
    + intros _. left. by rewrite lookup_insert_eq.
    + rewrite lookup_insert_ne by done. apply ho_map0.
Qed.

(** *** Flushing *)

Lemma flush_in t p k e : in_reissues (Flush t p) k e -> in_reissues t k e \/ in_reissues p k e.
Proof.
  unfold in_reissues. cbn [Flush setNewReissue]. rewrite flush_to_add, flush_to_remove. unfold om_mem.
  destruct (om_find k (to_remove (setNewReissue t))), (om_find k (to_add (setNewReissue t))), (om_find k (to_remove (setNewReissue p))), (om_find k (to_add (setNewReissue p)));
    intros []; simplify_eq; tauto.
Qed.
Lemma flush_back t p k : (exists e, in_reissues t k e \/ in_reissues p k e) -> exists e, in_reissues (Flush t p) k e.
Proof.
  unfold in_reissues. cbn [Flush setNewReissue]. setoid_rewrite flush_to_add. setoid_rewrite flush_to_remove. unfold om_mem.
  destruct (om_find k (to_remove (setNewReissue t))), (om_find k (to_add (setNewReissue t))), (om_find k (to_remove (setNewReissue p))), (om_find k (to_add (setNewReissue p)));
    intros [? [[]|[]]]; simplify_eq; eauto.
Qed.
Lemma cache_wf_flush t p : cache_wf t -> cache_wf p -> cache_wf (Flush t p).
Proof.
  intros [] []. constructor.
  - by apply flush_map_wf.
  - by apply flush_dirty_wf.
  - by apply flush_dirty_wf.
  - intros n e. cbn [Flush setNewAssets]. rewrite flush_to_add. destruct (om_mem n _); [done|]. destruct (om_find n (to_add (setNewAssets p))) eqn:E; [intros [= <-]|]; eauto.
  - intros n e. cbn [Flush setNewAssets]. rewrite flush_to_remove. destruct (om_mem n _); [eauto|]. destruct (om_find n (to_remove (setNewAssets p))) eqn:E; [intros [= <-]|]; eauto.
  - intros n a. cbn [Flush mapReissuedAssetData]. rewrite flush_map_find by done. destruct (om_find n (mapReissuedAssetData t)) eqn:E; [intros [= <-]|]; eauto.
  - intros k e He. apply flush_in in He as []; eauto.
  - intros n. cbn [Flush mapReissuedAssetData]. rewrite flush_map_find by done. intros Hn.
    assert (exists k e, (in_reissues t k e \/ in_reissues p k e) /\ reissue_at k = n) as (k & e & He & Hk).
    { destruct (om_find n (mapReissuedAssetData t)) eqn:E; [destruct (cw_cover0 n) as (k & e & ? & ?); [by rewrite E|]|destruct (cw_cover1 n Hn) as (k & e & ? & ?)]; eauto. }
    destruct (flush_back t p k) as [e' He']; eauto.
Qed.

Lemma holds_flush t p db H : holds t p db H -> holds ClearDirtyCache (Flush t p) db H.
Proof.
  intros Hh. destruct Hh. constructor; try done.
  - apply cache_wf_empty.
  - by apply cache_wf_flush.
  - by intros n [].
  - intros n. cbn [Flush setNewAssets]. rewrite flush_to_add, flush_to_remove. unfold om_mem.
    destruct (om_find n (to_remove (setNewAssets t))); [by intros []|]. destruct (om_find n (to_add (setNewAssets t))) eqn:E1; [done|].
    intros Hn. rewrite ho_disjoint0; [done|]. by destruct (om_find n (to_add (setNewAssets p))).
  - intros k e He _. destruct He as [He|He]; [|done]. revert He. cbn [Flush setNewReissue]. rewrite flush_to_add. unfold om_mem.
    destruct (om_find k (to_remove (setNewReissue t))) eqn:E; [done|]. intros He. apply (ho_live0 k e); [|done]. destruct (om_find k (to_add (setNewReissue p))); auto.
  - intros n. rewrite <- ho_found0. unfold found, om_mem. cbn [Flush setNewAssets ClearDirtyCache clean to_add to_remove om_find]. rewrite flush_to_add, flush_to_remove. unfold om_mem.
    pose proof (ho_new0 n) as Hn. destruct (om_find n (to_remove (setNewAssets t))).
    + by destruct (om_find n (to_add (setNewAssets t))); [|destruct (om_find n (to_remove (setNewAssets p)))].
    + destruct (om_find n (to_add (setNewAssets t))); [destruct Hn as [Ha Hr]; [done|]; by rewrite Ha, Hr|].
      by destruct (om_find n (to_remove (setNewAssets p))), (om_find n (to_add (setNewAssets p))).
  - intros n a Ha. rewrite <- (ho_data0 n a Ha). unfold data, om_mem. cbn [Flush setNewAssets mapReissuedAssetData ClearDirtyCache clean to_add to_remove om_find].
    rewrite flush_map_find by apply ho_t0. rewrite flush_to_add, flush_to_remove. unfold om_mem. pose proof (ho_new0 n) as Hn.
    destruct (om_find n (mapReissuedAssetData t)); [done|]. destruct (om_find n (mapReissuedAssetData p)); [done|].
    destruct (om_find n (to_remove (setNewAssets t))).
    + by destruct (om_find n (to_add (setNewAssets t))); [|destruct (om_find n (to_remove (setNewAssets p)))].
    + destruct (om_find n (to_add (setNewAssets t))); [destruct Hn as [Hx Hr]; [done|]; by rewrite Hx, Hr|].
      by destruct (om_find n (to_remove (setNewAssets p))), (om_find n (to_add (setNewAssets p))).
  - intros n Hn. assert (Hm : is_Some (om_find n (mapReissuedAssetData t)) \/ is_Some (om_find n (mapReissuedAssetData p))).
    { cbn [Flush mapReissuedAssetData ClearDirtyCache om_find] in Hn. rewrite flush_map_find in Hn by apply ho_t0. destruct (om_find n (mapReissuedAssetData t)) eqn:E; [by left|right]. by destruct Hn as [[]|]. }
    destruct (ho_map0 n Hm) as [Hx|Hx]; [by left|right; right]. cbn [Flush setNewAssets]. rewrite flush_to_remove. pose proof (ho_new0 n) as Hw.
    destruct Hx as [Hx|Hx]; [by destruct (if om_mem n _ then _ else _)|]. unfold om_mem. destruct (om_find n (to_add (setNewAssets t))); [destruct Hw as [_ Hw]; [done|]; rewrite Hw in Hx; by destruct Hx|].
    by destruct (om_find n (to_remove (setNewAssets p))); [|destruct Hx].
Qed.

(** *** Dumping *)

Section Dump.
Variable fAssetIndex : bool.

Definition rows (s : store) (n : bytes) : option CNewAsset := ad_asset <$> db_assets s.2 !! n.
Definition store_ok (s : store) : Prop := lru_ok s.1 s.2.

Lemma fold_assets {A} (f : CAssetsDB -> A -> CAssetsDB) l db : (forall db x, db_assets (f db x) = db_assets db) -> db_assets (fold_left f l db) = db_assets db.
Proof. intros Hf. revert db. induction l as [|x l IH]; intros db; [done|]. cbn. by rewrite IH, Hf. Qed.
Lemma when_index_assets f db : (forall db, db_assets (f db) = db_assets db) -> db_assets (when_index fAssetIndex f db) = db_assets db.
Proof. intros Hf. unfold when_index. by destruct fAssetIndex. Qed.
Lemma write_amount_assets p pair db : db_assets (write_amount p pair db) = db_assets db.
Proof. unfold write_amount. by destruct (om_find _ _). Qed.
Lemma write_positive_assets p pair db : db_assets (write_positive p pair db) = db_assets db.
Proof. unfold write_positive. destruct (om_find _ _); [|done]. by case_match. Qed.
Lemma write_or_erase_assets p pair db : db_assets (write_or_erase p pair db) = db_assets db.
Proof. unfold write_or_erase. destruct (om_find _ _); [|done]. by case_match. Qed.
Lemma dump_owners_assets p db : db_assets (dump_owners_and_transfers p db) = db_assets db.
Proof.
  unfold dump_owners_and_transfers. rewrite !fold_assets; [done|..]; intros db' x;
    [done|apply write_positive_assets|apply write_or_erase_assets|apply write_amount_assets].
Qed.
Lemma dump_spends_assets p db : db_assets (dump_spends p db) = db_assets db.
Proof. unfold dump_spends. rewrite !fold_assets; [done|..]; intros db' x; [apply write_amount_assets|apply write_or_erase_assets]. Qed.
Lemma lru_ok_assets l db db' : db_assets db' = db_assets db -> lru_ok l db -> lru_ok l db'.
Proof. intros E Hl k d. rewrite E. apply Hl. Qed.

Lemma dump_removed_rows (l : omap bytes CAssetCacheNewAsset) s : (forall k e, (k, e) ∈ l -> strName (cn_asset e) = k) -> store_ok s ->
  store_ok (fold_left (dump_removed fAssetIndex) l s) /\
  forall n, db_assets (fold_left (dump_removed fAssetIndex) l s).2 !! n = if om_mem n l then None else db_assets s.2 !! n.
Proof.
  revert s. induction l as [|[k e] l IH]; intros s Hn Hs; [done|]. cbn [fold_left].
  assert (Hk : strName (cn_asset e) = k) by (apply Hn; left).
  assert (Hdb : db_assets (dump_removed fAssetIndex s (k, e)).2 = delete k (db_assets s.2)).
  { unfold dump_removed. cbn [fst snd]. rewrite Hk. by rewrite when_index_assets. }
  destruct (IH (dump_removed fAssetIndex s (k, e))) as [H1 H2]; [intros k' e' Hin; apply Hn; by right| |].
  { intros k' d. rewrite Hdb. unfold dump_removed. cbn [fst snd]. rewrite Hk, lru_Erase_find. case_decide; [done|]. rewrite lookup_delete_ne by done. apply Hs. }
  split; [done|]. intros n. rewrite H2, Hdb. unfold om_mem. cbn [om_find]. destruct (decide (n = k)) as [->|Hne]; [by rewrite lookup_delete_eq; destruct (om_find k l)|].
  by rewrite lookup_delete_ne.
Qed.

Lemma dump_added_rows (l : omap bytes CAssetCacheNewAsset) s : om_wf l -> (forall k e, (k, e) ∈ l -> strName (cn_asset e) = k) -> store_ok s ->
  store_ok (fold_left (dump_added fAssetIndex) l s) /\
  forall n, rows (fold_left (dump_added fAssetIndex) l s) n = match om_find n l with Some e => Some (cn_asset e) | None => rows s n end.
Proof.
  revert s. induction l as [|[k e] l IH]; intros s Hwf Hn Hs; [done|]. cbn [fold_left]. apply om_wf_cons in Hwf as [Hwf Hlt].
  assert (Hk : strName (cn_asset e) = k) by (apply Hn; left). set (d0 := mkAssetData (cn_asset e) (cn_blockHeight e) (cn_blockHash e)).
  assert (Hdb : db_assets (dump_added fAssetIndex s (k, e)).2 = <[k := d0]> (db_assets s.2)).
  { unfold dump_added. cbn [fst snd]. rewrite when_index_assets by done. cbn. by rewrite Hk. }
  destruct (IH (dump_added fAssetIndex s (k, e))) as [H1 H2]; [done|intros k' e' Hin; apply Hn; by right| |].
  { intros k' d. rewrite Hdb. unfold dump_added. cbn [fst snd]. rewrite Hk. intros Hf. apply lru_Put_find in Hf as [[-> ->]|[Hne Hf]]; [by rewrite lookup_insert_eq|].
    rewrite lookup_insert_ne by done. by apply Hs. }
  split; [done|]. intros n. rewrite H2. unfold rows. rewrite Hdb. cbn [om_find]. destruct (decide (n = k)) as [->|Hne]; [|by rewrite lookup_insert_ne].
  rewrite lookup_insert_eq. destruct (om_find k l) eqn:E; [|done]. exfalso. apply om_find_Some_in in E. rewrite Forall_forall in Hlt. specialize (Hlt _ E). cbn [fst] in Hlt. by rewrite key_ltb_irrefl in Hlt.
Qed.

(** Both loops over the reissues write the reissued asset of each name they meet. *)
Lemma dump_reissues_rows p (f : store -> (bytes * Z) * CAssetCacheReissueAsset -> store) (skip : bytes -> bool) (l : omap (bytes * Z) CAssetCacheReissueAsset) s :
  (forall n a, om_find n (mapReissuedAssetData p) = Some a -> strName a = n) ->
  (forall s e, let name := re_strName (cr_reissue e.2) in
     match (if skip name then None else om_find name (mapReissuedAssetData p)) with
     | Some a => exists d, ad_asset d = a /\ db_assets (f s e).2 = <[strName a := d]> (db_assets s.2) /\ (f s e).1 = lru_Erase name s.1
     | None => f s e = s
     end) -> store_ok s ->
  store_ok (fold_left f l s) /\
  forall n, rows (fold_left f l s) n =
    match (if existsb (fun e => bytes_eqb (re_strName (cr_reissue e.2)) n) l && negb (skip n) then om_find n (mapReissuedAssetData p) else None) with
    | Some a => Some a
    | None => rows s n
    end.
Proof.
  intros Hn Hf. revert s. induction l as [|e l IH]; intros s Hs; [done|]. cbn [fold_left existsb]. specialize (Hf s e). cbn zeta in Hf.
  set (name := re_strName (cr_reissue e.2)) in *. destruct (if skip name then None else om_find name (mapReissuedAssetData p)) as [a|] eqn:E.
  - destruct Hf as (d & Hd & Hdb & Hl). destruct (skip name) eqn:Esk; [done|]. pose proof (Hn _ _ E) as Ha. rewrite Ha in Hdb.
    destruct (IH (f s e)) as [H1 H2]; [intros k' d'; rewrite Hdb, Hl, lru_Erase_find; case_decide; [done|rewrite lookup_insert_ne by done; apply Hs]|].
    split; [done|]. intros n. rewrite H2. unfold rows. rewrite Hdb. destruct (bytes_eqb name n) eqn:En.
    + apply bytes_eqb_eq in En as <-. rewrite Esk, E, lookup_insert_eq. cbn. rewrite Hd. by destruct (existsb _ l).
    + assert (name <> n) by (intros ->; by rewrite (proj2 (bytes_eqb_eq n n) eq_refl) in En). by rewrite lookup_insert_ne.
  - rewrite Hf. destruct (IH s Hs) as [H1 H2]. split; [done|]. intros n. rewrite H2. destruct (bytes_eqb name n) eqn:En; [|done].
    apply bytes_eqb_eq in En as <-. destruct (skip name); [by rewrite !andb_false_r|]. rewrite E. by destruct (existsb _ l).
Qed.

Lemma existsb_reissue c (l : omap (bytes * Z) CAssetCacheReissueAsset) n : cache_wf c -> om_wf l ->
  (forall k e, om_find k l = Some e -> in_reissues c k e) ->
  existsb (fun e => bytes_eqb (re_strName (cr_reissue e.2)) n) l = true <-> exists k e, om_find k l = Some e /\ reissue_at k = n.
Proof.
  intros Hc Hwf Hin. rewrite existsb_exists. split.
  - intros ([k e] & Hl & E%bytes_eqb_eq). apply list_elem_of_In, (om_in_find _ _ _ Hwf) in Hl. exists k, e. split; [done|]. by rewrite <- (cw_at c Hc k e (Hin _ _ Hl)).
  - intros (k & e & Hl & <-). exists (k, e). split; [by apply list_elem_of_In, om_find_Some_in|]. apply bytes_eqb_eq, (cw_at c Hc). by apply Hin.
Qed.

Lemma dump_cases (db : option CNewAsset) (rem : bool) (add re : option CNewAsset) (inA inR : bool) (m : option CNewAsset) :
  negb rem && (bool_decide (is_Some add) || bool_decide (is_Some db)) = bool_decide (is_Some m) ->
  (forall a, m = Some a -> match re with Some a => Some a | None => if rem then None else match add with Some e => Some e | None => db end end = Some a) ->
  (is_Some re -> is_Some m \/ rem = true) -> (inA = true -> is_Some m) -> (is_Some re -> inA = true \/ inR = true) -> (is_Some add -> rem = false) ->
  match (if inR && negb rem then re else None) with
  | Some a => Some a
  | None =>
      match (if inA && negb false then re else None) with
      | Some a => Some a
      | None => match add with Some e => Some e | None => if rem then None else db end
      end
  end = m.
Proof.
  intros Hf Hd Hm Hin Hc Hj. destruct m as [a|]; [specialize (Hd a eq_refl)|]; destruct rem, add, db, re, inA, inR; cbn in *; try done;
    try (by destruct (Hm (mk_is_Some _ _ eq_refl)) as [[]|]); try (by destruct (Hin eq_refl)); try (by destruct (Hc (mk_is_Some _ _ eq_refl)));
    by specialize (Hj (mk_is_Some _ _ eq_refl)).
Qed.

(** The database after a dump holds what the caches held. *)
Lemma dump_rows w H : valid_history H -> lru_ok (passetsCache w) (passetsdb w) -> holds ClearDirtyCache (passets w) (passetsdb w) H ->
  lru_ok (passetsCache (DumpCacheToDatabase fAssetIndex w)) (passetsdb (DumpCacheToDatabase fAssetIndex w)) /\
  forall n, rows (passetsCache (DumpCacheToDatabase fAssetIndex w), passetsdb (DumpCacheToDatabase fAssetIndex w)) n = assets_of H !! n.
Proof.
  intros HH Hl Hh. destruct Hh. unfold DumpCacheToDatabase. set (p := passets w) in *.
  destruct (dump_removed_rows (to_remove (setNewAssets p)) (passetsCache w, passetsdb w)) as [K1 R1];
    [intros k e Hin; apply (cw_removed p ho_p0), om_in_find; [apply ho_p0|done]|done|].
  set (s1 := fold_left _ (to_remove (setNewAssets p)) _) in *.
  destruct (dump_added_rows (to_add (setNewAssets p)) s1) as [K2 R2]; [apply ho_p0|intros k e Hin; apply (cw_added p ho_p0), om_in_find; [apply ho_p0|done]|done|].
  set (s2 := fold_left _ (to_add (setNewAssets p)) s1) in *. set (s3 := (s2.1, when_index fAssetIndex (dump_owners_and_transfers p) s2.2)).
  assert (Ers : db_assets s3.2 = db_assets s2.2) by (apply when_index_assets, dump_owners_assets).
  assert (K3 : store_ok s3) by (by apply (lru_ok_assets _ s2.2)).
  destruct (dump_reissues_rows p (dump_reissue_added fAssetIndex p) (fun _ => false) (to_add (setNewReissue p)) s3) as [K4 R4]; [apply ho_p0| |done|].
  { intros s e. cbn zeta. unfold dump_reissue_added. destruct (om_find _ (mapReissuedAssetData p)) as [a|]; [|done].
    exists (mkAssetData a (cr_blockHeight e.2) (cr_blockHash e.2)). split_and!; [done| |done]. cbn [snd]. by rewrite when_index_assets by (intros; apply write_positive_assets). }
  set (s4 := fold_left _ (to_add (setNewReissue p)) s3) in *.
  destruct (dump_reissues_rows p (dump_reissue_removed fAssetIndex p) (fun n => om_mem n (to_remove (setNewAssets p))) (to_remove (setNewReissue p)) s4) as [K5 R5]; [apply ho_p0| |done|].
  { intros s e. cbn zeta. unfold dump_reissue_removed. destruct (om_mem _ (to_remove (setNewAssets p))); [done|]. destruct (om_find _ (mapReissuedAssetData p)) as [a|]; [|done].
    exists (mkAssetData a (cr_blockHeight e.2) (cr_blockHash e.2)). split_and!; [done| |done]. cbn [snd]. by rewrite when_index_assets by (intros; apply write_or_erase_assets). }
  set (s5 := fold_left _ (to_remove (setNewReissue p)) s4) in *. cbn [passetsCache passetsdb].
  assert (E5 : db_assets (when_index fAssetIndex (dump_spends p) s5.2) = db_assets s5.2) by (apply when_index_assets, dump_spends_assets).
  split; [by apply (lru_ok_assets _ s5.2)|]. intros n. unfold rows at 1. cbn [snd]. rewrite E5. change (ad_asset <$> db_assets s5.2 !! n) with (rows s5 n).
  rewrite R5, R4. assert (rows s3 n = rows s2 n) as -> by (unfold rows; by rewrite Ers). rewrite R2. unfold rows. rewrite R1. cbn [snd].
  assert (Hin : existsb (fun e => bytes_eqb (re_strName (cr_reissue e.2)) n) (to_add (setNewReissue p)) = true -> is_Some (assets_of H !! n)).
  { intros (k & e & He & <-)%(existsb_reissue p); [|done|apply ho_p0|by left]. apply live_asset; [done|]. apply (ho_live0 k e); [by left|done]. }
  pose proof (ho_found0 n) as Hf. pose proof (ho_data0 n) as Hd. pose proof (ho_map0 n) as Hm. pose proof (ho_disjoint0 n) as Hj. unfold found, data, om_mem in *.
  cbn [ClearDirtyCache clean setNewAssets mapReissuedAssetData to_add to_remove om_find negb andb orb] in Hf, Hd, Hm.
  refine (eq_trans _ (dump_cases (ad_asset <$> db_assets (passetsdb w) !! n) (om_mem n (to_remove (setNewAssets p))) (cn_asset <$> om_find n (to_add (setNewAssets p)))
    (om_find n (mapReissuedAssetData p)) (existsb (fun e => bytes_eqb (re_strName (cr_reissue e.2)) n) (to_add (setNewReissue p)))
    (existsb (fun e => bytes_eqb (re_strName (cr_reissue e.2)) n) (to_remove (setNewReissue p))) (assets_of H !! n) _ _ _ Hin _ _)); unfold om_mem.
  - repeat case_match; done.
  - rewrite <- Hf. f_equal. destruct (om_find n (to_add (setNewAssets p))); [done|]. cbn. apply bool_decide_ext. by rewrite fmap_is_Some.
  - intros a Ha. rewrite <- (Hd a Ha). repeat case_match; done.
  - intros Hr. destruct Hm as [|[[]|Hx]]; [by right|by left|done|right]. by destruct (om_find n (to_remove (setNewAssets p))); [|destruct Hx].
  - intros Hs. destruct (cw_cover p ho_p0 n Hs) as (k & e & [He|He] & Hk); [left|right]; (apply (existsb_reissue p); [done|apply ho_p0|intros k' e' ?; (by left) || by right|by exists k, e]).
  - rewrite fmap_is_Some. intros Hx%Hj. by rewrite Hx.
Qed.
End Dump.

Lemma holds_rows db H : valid_history H -> (forall n, ad_asset <$> db_assets db !! n = assets_of H !! n) -> holds ClearDirtyCache ClearDirtyCache db H.
Proof.
  intros HH Hr. constructor; try done; try apply cache_wf_empty.
  - intros n d Hd. apply (assets_of_name H); [done|]. by rewrite <- Hr, Hd.
  - intros k e [He|He]; discriminate He.
  - intros n. rewrite <- Hr. unfold found. cbn. apply bool_decide_ext. by rewrite fmap_is_Some.
  - intros n a Ha. unfold data. cbn. by rewrite Hr.
  - by intros n [[]|[]].
Qed.

(** ** Runs *)

Inductive session := Connecting | Disconnecting.
(** A cache over the shared ones, the history with its changes and without. *)
Record cache_state := mkState { cs_this : CAssetsCache; cs_global : assets_global; cs_kind : session; cs_now : list asset_op; cs_base : list asset_op }.

Section Runs.
Variable fAssetIndex : bool.
Variable unset : Z.
Variable ap : AssetParams.

(** The calls that say more than their effect on the cache: an issue, and the undo
    of a reissue with the undo data of its block. *)
Inductive cache_call := CallIssue (a : CNewAsset) | CallUnreissue (r : CReissueAsset) (vUndoIPFS : list (bytes * CBlockAssetUndo)) | CallOther.

(** The operations on the cache of a block that is connected or disconnected, and
    what becomes of it. *)
Inductive cache_step : cache_call -> cache_state -> cache_state -> Prop :=
  | step_exists t w k H H0 n : cache_step CallOther (mkState t w k H H0) (mkState t (CheckIfAssetExists false t w n true).1 k H H0)
  | step_meta t w k H H0 n : cache_step CallOther (mkState t w k H H0) (mkState t (GetAssetMetaDataIfExists t w n).1 k H H0)
  | step_issue t w H H0 a address h hash t' w' ok : valid_op H (Issue a) ->
      AddNewAsset false fAssetIndex t w a address h hash = (t', w', ok) ->
      cache_step (CallIssue a) (mkState t w Connecting H H0) (mkState t' w' Connecting (Issue a :: H) H0)
  | step_reissue t w H H0 r address out t' w' ok : valid_op H (Reissue r out) ->
      AddReissueAsset fAssetIndex unset t w r address out = (t', w', ok) ->
      cache_step CallOther (mkState t w Connecting H H0) (mkState t' w' Connecting (Reissue r out :: H) H0)
  | step_unissue t w H H0 a address t' w' ok :
      RemoveNewAsset false fAssetIndex t w a address = (t', w', ok) ->
      cache_step CallOther (mkState t w Disconnecting (Issue a :: H) H0) (mkState t' w' Disconnecting H H0)
  | step_unreissue t w H H0 r address out vUndoIPFS t' w' :
      RemoveReissueAsset fAssetIndex unset t w r address out vUndoIPFS = (t', w', true) ->
      cache_step (CallUnreissue r vUndoIPFS) (mkState t w Disconnecting (Reissue r out :: H) H0) (mkState t' w' Disconnecting H H0)
  | step_owner t w k H H0 n address : cache_step CallOther (mkState t w k H H0) (mkState (AddOwnerAsset fAssetIndex t n address) w k H H0)
  | step_unowner t w k H H0 n address : cache_step CallOther (mkState t w k H H0) (mkState (RemoveOwnerAsset fAssetIndex t n address) w k H H0)
  | step_transfer t w k H H0 tr address out : cache_step CallOther (mkState t w k H H0) (mkState (AddTransferAsset fAssetIndex t w tr address out) w k H H0)
  | step_untransfer t w k H H0 tr address out : cache_step CallOther (mkState t w k H H0) (mkState (RemoveTransfer fAssetIndex t w tr address out).1 w k H H0)
  | step_spend t w k H H0 txOut : cache_step CallOther (mkState t w k H H0) (mkState (TrySpendCoin fAssetIndex ap t w txOut).1 w k H H0)
  | step_unspend t w k H H0 coin : cache_step CallOther (mkState t w k H H0) (mkState (UndoAssetCoin fAssetIndex ap t w coin).1 w k H H0)
  | step_flush t w k H H0 k' : cache_step CallOther (mkState t w k H H0) (mkState ClearDirtyCache (flush_global t w) k' H H)
  | step_drop t w k H H0 k' : cache_step CallOther (mkState t w k H H0) (mkState ClearDirtyCache w k' H0 H0)
  | step_dump w k H : cache_step CallOther (mkState ClearDirtyCache w k H H) (mkState ClearDirtyCache (DumpCacheToDatabase fAssetIndex w) k H H).

(** The calls for which the caches answer for the history: a name unissued since the
    last dump is not issued again, and the undo data of a reissue are those
    [AddCoins] made for it. The code guards neither; [issued_name_hidden_after_reorg]
    says what happens without the first. *)
Definition call_fits (c : cache_call) (s : cache_state) : Prop :=
  match c with
  | CallIssue a => om_find (strName a) (to_remove (setNewAssets (passets (cs_global s)))) = None
  | CallUnreissue r vUndoIPFS => forall a, assets_of (tail (cs_now s)) !! re_strName r = Some a -> undo_fits vUndoIPFS a r
  | CallOther => True
  end.
Definition fitting_step (s s' : cache_state) : Prop := exists c, cache_step c s s' /\ call_fits c s.

(** A node that starts: empty caches over a database of a history. *)
Definition start_state (s : cache_state) : Prop :=
  cs_this s = ClearDirtyCache /\ passets (cs_global s) = ClearDirtyCache /\ lru_items (passetsCache (cs_global s)) = [] /\
  valid_history (cs_now s) /\ cs_base s = cs_now s /\ forall n, ad_asset <$> db_assets (passetsdb (cs_global s)) !! n = assets_of (cs_now s) !! n.

Definition kind_ok (t : CAssetsCache) (k : session) : Prop :=
  match k with
  | Connecting => to_remove (setNewAssets t) = [] /\ to_remove (setNewReissue t) = []
  | Disconnecting => to_add (setNewAssets t) = [] /\ to_add (setNewReissue t) = []
  end.
Record state_ok (s : cache_state) : Prop := {
  so_lru : lru_ok (passetsCache (cs_global s)) (passetsdb (cs_global s));
  so_kind : kind_ok (cs_this s) (cs_kind s);
  so_now : valid_history (cs_now s);
  so_base : valid_history (cs_base s);
  so_holds : holds (cs_this s) (passets (cs_global s)) (passetsdb (cs_global s)) (cs_now s);
  so_holds_base : holds ClearDirtyCache (passets (cs_global s)) (passetsdb (cs_global s)) (cs_base s);
}.

Lemma kind_ok_same t t' k : same_assets t t' -> kind_ok t k -> kind_ok t' k.
Proof. intros (_ & E1 & E2). unfold kind_ok. by rewrite E1, E2. Qed.
Lemma kind_ok_empty k : kind_ok ClearDirtyCache k.
Proof. by destruct k. Qed.
Lemma state_ok_same t t' w k H H0 : same_assets t t' -> state_ok (mkState t w k H H0) -> state_ok (mkState t' w k H H0).
Proof. intros Hs []. constructor; cbn in *; try done; [by apply (kind_ok_same t)|by apply (holds_same t)]. Qed.
Lemma state_ok_world t w w' k H H0 : same_world w w' -> state_ok (mkState t w k H H0) -> state_ok (mkState t w' k H H0).
Proof. intros (E1 & E2 & Hl) []. rewrite E2 in Hl. constructor; cbn in *; rewrite ?E1, ?E2; done. Qed.

Lemma set_amount_same pair q t : same_assets t (set_amount fAssetIndex pair q t).
Proof. unfold set_amount. by destruct fAssetIndex. Qed.
Lemma best_amount_same ix t w pair : same_assets t (GetBestAssetAddressAmount ix t w pair).1.
Proof. unfold GetBestAssetAddressAmount. repeat case_match; done. Qed.
Lemma change_best_same pair f w t : same_assets t (change_best_amount fAssetIndex pair f w t).
Proof. unfold change_best_amount. destruct fAssetIndex; [|done]. exact (best_amount_same true t w pair). Qed.
Lemma UndoTransfer_same t w tr address : same_assets t (UndoTransfer fAssetIndex t w tr address).1.
Proof.
  unfold UndoTransfer. destruct fAssetIndex; [|done]. cbn [negb]. pose proof (best_amount_same true t w (tr_strName tr, address)) as Hb.
  destruct (GetBestAssetAddressAmount _ t w _) as [t1 best]. repeat case_match; done.
Qed.
Lemma RemoveTransfer_same t w tr address out : same_assets t (RemoveTransfer fAssetIndex t w tr address out).1.
Proof. unfold RemoveTransfer. pose proof (UndoTransfer_same t w tr address) as Hu. by destruct (UndoTransfer _ t w tr address) as [t1 []]. Qed.
Lemma TrySpendCoin_same t w txOut : same_assets t (TrySpendCoin fAssetIndex ap t w txOut).1.
Proof.
  unfold TrySpendCoin. destruct (is_asset_script _); [|done]. cbn [negb]. destruct (asset_of_script ap _) as [[[n q] address]|]; [|done].
  destruct (_ || _); [done|]. destruct (negb _); [done|]. pose proof (best_amount_same fAssetIndex t w (n, address)) as Hb.
  destruct (GetBestAssetAddressAmount _ t w _) as [t1 []]; done.
Qed.
Lemma UndoAssetCoin_same t w coin : same_assets t (UndoAssetCoin fAssetIndex ap t w coin).1.
Proof.
  unfold UndoAssetCoin. destruct (asset_of_script ap _) as [[[n q] address]|]; [|done]. destruct (_ || _); [done|]. cbn [fst].
  unfold AddBackSpentAsset. eapply same_assets_trans; [apply change_best_same|done].
Qed.

Lemma state_exists t w k H H0 n : state_ok (mkState t w k H H0) ->
  (CheckIfAssetExists false t w n true).2 = bool_decide (is_Some (assets_of H !! n)) /\ same_world w (CheckIfAssetExists false t w n true).1.
Proof.
  intros []. cbn [cs_this cs_global cs_kind cs_now cs_base] in *. destruct (CheckIfAssetExists_found t w n) as [-> Hw]; [done|exact (ho_db _ _ _ _ so_holds0)|]. split; [apply so_holds0|done].
Qed.
Lemma state_meta t w k H H0 n : state_ok (mkState t w k H H0) ->
  (forall a, assets_of H !! n = Some a -> fst <$> (GetAssetMetaDataIfExists t w n).2 = Some a) /\ same_world w (GetAssetMetaDataIfExists t w n).1.
Proof.
  intros []. cbn [cs_this cs_global cs_kind cs_now cs_base] in *. destruct (GetAssetMetaDataIfExists_data t w n) as [-> Hw]; [done|exact (ho_db _ _ _ _ so_holds0)|]. split; [apply so_holds0|done].
Qed.

Lemma issue_ok t w H H0 a address h hash t' w' ok : state_ok (mkState t w Connecting H H0) -> valid_op H (Issue a) ->
  om_find (strName a) (to_remove (setNewAssets (passets w))) = None -> AddNewAsset false fAssetIndex t w a address h hash = (t', w', ok) ->
  ok = true /\ state_ok (mkState t' w' Connecting (Issue a :: H) H0).
Proof.
  intros Hs Hop Hp. unfold AddNewAsset. destruct (state_exists _ _ _ _ _ (strName a) Hs) as [He Hw]. rewrite (proj1 Hop), bool_decide_eq_false_2 in He by (by intros []).
  destruct (CheckIfAssetExists false t w (strName a) true) as [w1 b]. cbn [fst snd] in *. subst b. intros [= <- <- <-]. split; [done|].
  apply (state_ok_world _ w); [done|]. eapply state_ok_same; [apply set_amount_same|]. destruct Hs. constructor; cbn in *; try done.
  - destruct so_kind0 as [Hk1 Hk2]. split; [|done]. cbn. by rewrite Hk1.
  - apply holds_issue; try done. by destruct so_kind0.
Qed.

Lemma unissue_ok t w H H0 a address t' w' ok : state_ok (mkState t w Disconnecting (Issue a :: H) H0) ->
  RemoveNewAsset false fAssetIndex t w a address = (t', w', ok) -> ok = true /\ state_ok (mkState t' w' Disconnecting H H0).
Proof.
  intros Hs. unfold RemoveNewAsset. destruct (state_exists _ _ _ _ _ (strName a) Hs) as [He Hw]. cbn [assets_of] in He. rewrite lookup_insert_eq, bool_decide_eq_true_2 in He by done.
  destruct (CheckIfAssetExists false t w (strName a) true) as [w1 b]. cbn [fst snd] in *. subst b. intros [= <- <- <-]. split; [done|].
  apply (state_ok_world _ w); [done|]. eapply state_ok_same; [apply set_amount_same|]. destruct Hs. cbn in *. destruct so_now0 as [Hop HH]. constructor; cbn in *; try done.
  - destruct so_kind0 as [Hk1 Hk2]. split; [|done]. cbn. by rewrite Hk1.
  - apply holds_unissue; try done. by destruct so_kind0.
Qed.

Lemma reissue_ok t w H H0 r address out t' w' ok : state_ok (mkState t w Connecting H H0) -> valid_op H (Reissue r out) ->
  AddReissueAsset fAssetIndex unset t w r address out = (t', w', ok) -> ok = true /\ state_ok (mkState t' w' Connecting (Reissue r out :: H) H0).
Proof.
  intros Hs Hop. pose proof Hop as (Hat & _ & a & Ha & _). unfold AddReissueAsset. destruct (state_meta _ _ _ _ _ (re_strName r) Hs) as [Hd Hw]. specialize (Hd a Ha).
  assert (Hbase : default a (om_find (re_strName r) (mapReissuedAssetData t)) = a).
  { revert Hd. unfold GetAssetMetaDataIfExists. destruct (om_find (re_strName r) (mapReissuedAssetData t)); [by intros [= ->]|done]. }
  destruct (GetAssetMetaDataIfExists t w (re_strName r)) as [w1 [[a1 at1]|]]; [|done]. cbn [fst snd fmap option_fmap option_map] in *. injection Hd as ->. rewrite Hbase.
  destruct (default (unset, uint256_null) at1) as [hh bh]. intros [= <- <- <-]. split; [done|].
  apply (state_ok_world _ w); [done|]. eapply state_ok_same; [apply change_best_same|]. destruct Hs. cbn in *. destruct so_kind0 as [Hk1 Hk2].
  assert (Hn : strName a = re_strName r) by (by apply (assets_of_name H)). constructor; cbn in *; try done.
  - split; [done|]. cbn. by rewrite Hk2.
  - change (re_strName r) with (re_strName r) in *. rewrite <- Hn. apply (holds_set_reissue _ _ _ H _ a (reissued a r) true); cbn; try done; try (by rewrite Hn).
    + by rewrite Hn, Ha.
    + intros k _. split; [intros _ ->; exists r, out; split; [by left|done]|]. intros (r1 & o1 & Hin & E). exists r1, o1. split; [by right|done].
Qed.

Lemma unreissue_ok t w H H0 r address out a vUndoIPFS t' w' : state_ok (mkState t w Disconnecting (Reissue r out :: H) H0) ->
  assets_of H !! re_strName r = Some a -> undo_fits vUndoIPFS a r ->
  RemoveReissueAsset fAssetIndex unset t w r address out vUndoIPFS = (t', w', true) -> state_ok (mkState t' w' Disconnecting H H0).
Proof.
  intros Hs Ha Hu. unfold RemoveReissueAsset. destruct (state_meta _ _ _ _ _ (re_strName r) Hs) as [Hd Hw]. cbn [assets_of] in Hd. rewrite Ha, lookup_insert_eq in Hd. specialize (Hd _ eq_refl).
  destruct (GetAssetMetaDataIfExists t w (re_strName r)) as [w1 [[a1 at1]|]]; [|done]. cbn [fst snd fmap option_fmap option_map] in *. injection Hd as ->.
  pose proof Hs as Hs'. destruct Hs'. cbn [cs_now cs_this cs_kind cs_base cs_global] in *. pose proof so_now0 as HH. destruct so_now0 as [(Hat & Hr & a' & Ha' & H1 & Hm) HHt].
  assert (a' = a) as -> by congruence. destruct (assets_of_hash H _ _ HHt Ha) as [Hf Hb]. rewrite (unreissued_reissued a r vUndoIPFS) by (done || lia). cbv zeta.
  destruct (default (unset, uint256_null) at1) as [hh bh]. set (t1 := set_reissues _ _ t). intros Heq.
  assert (Hst : same_assets t1 t' /\ w' = w1).
  { revert Heq. destruct fAssetIndex; cbn [negb]; [|by intros [= <- <-]]. pose proof (best_amount_same true t1 w1 (re_strName r, address)) as Hbs.
    destruct (GetBestAssetAddressAmount true t1 w1 _) as [t2 best]. destruct (negb best && _); [done|]. by intros [= <- <- _]. }
  destruct Hst as [Hst ->]. apply (state_ok_world _ w); [done|]. apply (state_ok_same t1); [done|]. destruct so_kind0 as [Hk1 Hk2].
  assert (Hn : strName a = re_strName r) by (by apply (assets_of_name H)). subst t1. constructor; cbn in *; try done.
  - split; [done|]. cbn. by rewrite Hk2.
  - apply (holds_set_reissue _ _ _ (Reissue r out :: H) _ (reissued a r) a false); try done; try (by rewrite Hn).
    + cbn [assets_of]. by rewrite Ha, Hn, lookup_insert_eq.
    + cbn [assets_of]. rewrite Ha, Hn, insert_insert_eq. symmetry. by apply insert_id.
    + intros k Hk. split; [done|]. intros (r1 & o1 & Hin & E). exists r1, o1. split; [|done]. apply elem_of_cons in Hin as [[= -> ->]|]; [|done].
      revert Hk. cbn [mark remove_dirty to_remove fst snd]. by rewrite os_insert_find, decide_True.
Qed.

Lemma step_ok c s s' : cache_step c s s' -> call_fits c s -> state_ok s -> state_ok s'.
Proof.
  intros Hstep Hfit Hs. destruct Hstep.
  - apply (state_ok_world _ w); [|done]. by apply (state_exists _ _ _ _ _ n Hs).
  - apply (state_ok_world _ w); [|done]. by apply (state_meta _ _ _ _ _ n Hs).
  - by eapply issue_ok.
  - by eapply reissue_ok.
  - by eapply unissue_ok.
  - pose proof (so_now _ Hs) as [(_ & _ & a & Ha & _) _]. cbn [call_fits cs_now tail] in Hfit. by eapply unreissue_ok; [..|exact (Hfit a Ha)|].
  - eapply state_ok_same; [|done]. eapply same_assets_trans; [|apply set_amount_same]. done.
  - eapply state_ok_same; [|done]. eapply same_assets_trans; [|apply set_amount_same]. done.
  - eapply state_ok_same; [|done]. unfold AddTransferAsset. eapply same_assets_trans; [apply change_best_same|done].
  - eapply state_ok_same; [apply RemoveTransfer_same|done].
  - eapply state_ok_same; [apply TrySpendCoin_same|done].
  - eapply state_ok_same; [apply UndoAssetCoin_same|done].
  - destruct Hs. constructor; cbn in *; try done; [apply kind_ok_empty|by apply holds_flush..].
  - destruct Hs. constructor; cbn in *; try done. apply kind_ok_empty.
  - destruct Hs. cbn in *. destruct (dump_rows fAssetIndex w H) as [Hl Hr]; [done..|]. constructor; cbn [cs_this cs_global cs_kind cs_now cs_base]; try done; by apply holds_rows.
Qed.

Lemma runs_ok s s' : start_state s -> rtc fitting_step s s' -> state_ok s'.
Proof.
  intros (E1 & E2 & E3 & Hv & E4 & Hr) Hrun. assert (Hs : state_ok s).
  { destruct s as [t w k H H0]. cbn in *. subst t H0. constructor; cbn; rewrite ?E2; try done; [|apply kind_ok_empty|by apply holds_rows..].
    intros k' d. unfold lru_find. by rewrite E3. }
  clear E1 E2 E3 Hv E4 Hr. induction Hrun as [|s1 s2 s3 (c & Hstep & Hfit) _ IH]; [done|]. apply IH. by eapply step_ok.
Qed.

(** C12. The layered caches answer as one map of the assets of the history, on
    every run of connecting, disconnecting, flushing, dropping and dumping whose
    calls fit: no name is issued that was unissued since the last dump, undo data
    are those made for the reissue, and a transaction output stands for the reissue
    of one name. An asset is then found exactly when the history has it, its
    metadata are those of the history, and issuing, reissuing and unissuing what
    the checks let through succeed. *)
Theorem asset_cache_refines s s' : start_state s -> rtc fitting_step s s' ->
  let '(mkState t w k H H0) := s' in
  (forall n, (CheckIfAssetExists false t w n true).2 = bool_decide (is_Some (assets_of H !! n))) /\
  (forall n a, assets_of H !! n = Some a -> fst <$> (GetAssetMetaDataIfExists t w n).2 = Some a) /\
  (k = Connecting -> forall a address h hash, valid_op H (Issue a) -> om_find (strName a) (to_remove (setNewAssets (passets w))) = None ->
     (AddNewAsset false fAssetIndex t w a address h hash).2 = true) /\
  (k = Connecting -> forall r address out, valid_op H (Reissue r out) -> (AddReissueAsset fAssetIndex unset t w r address out).2 = true) /\
  (k = Disconnecting -> forall a H' address, H = Issue a :: H' -> (RemoveNewAsset false fAssetIndex t w a address).2 = true).
Proof.
  intros Hst Hrun. pose proof (runs_ok s s' Hst Hrun) as Hs. destruct s' as [t w k H H0]. split_and!.
  - intros n. by apply (state_exists _ _ _ _ _ n Hs).
  - intros n. by apply (state_meta _ _ _ _ _ n Hs).
  - intros -> a address h hash Hop Hp. destruct (AddNewAsset _ _ _ _ _ _ _ _) as [[t' w'] ok] eqn:E. by destruct (issue_ok _ _ _ _ _ _ _ _ _ _ _ Hs Hop Hp E).
  - intros -> r address out Hop. destruct (AddReissueAsset _ _ _ _ _ _ _) as [[t' w'] ok] eqn:E. by destruct (reissue_ok _ _ _ _ _ _ _ _ _ _ Hs Hop E).
  - intros -> a H' address ->. destruct (RemoveNewAsset _ _ _ _ _ _) as [[t' w'] ok] eqn:E. by destruct (unissue_ok _ _ _ _ _ _ _ _ _ Hs E).
Qed.

End Runs.
End Refine.

(** ** A run *)

Definition gold : CNewAsset := mkNewAsset (bs "GOLD") (100 * COIN) 0 1 0 [].
Definition gold_hash : bytes := IPFS_SHA2_256 :: IPFS_SHA2_256_LEN :: repeat 5 32.
Definition more_gold : CReissueAsset := mkReissue (bs "GOLD") COIN 2 1 [].
Definition gold_out : COutPoint := mkOutPoint (repeat 7 32) 1.
Definition gold_addr : bytes := bs "XAddress".
Definition new_node : assets_global := mkGlobal ClearDirtyCache (mkLRU [] 2500) (mkAssetsDB ∅ ∅ ∅).

(** Results of operations that succeed. *)
Definition after_op (r : CAssetsCache * assets_global * bool) : assets_global := flush_global r.1.1 r.1.2.
Definition issued_gold (w : assets_global) : assets_global := after_op (AddNewAsset false true ClearDirtyCache w gold gold_addr 10 (repeat 1 32)).
Definition reissued_gold (w : assets_global) : assets_global := after_op (AddReissueAsset true 0 ClearDirtyCache w more_gold gold_addr gold_out).
Definition gold_undo : list (bytes * CBlockAssetUndo) := [(bs "GOLD", undo_item gold more_gold)].
Definition unreissued_gold (w : assets_global) : assets_global := after_op (RemoveReissueAsset true 0 ClearDirtyCache w more_gold gold_addr gold_out gold_undo).
Definition unissued_gold (w : assets_global) : assets_global := after_op (RemoveNewAsset false true ClearDirtyCache w gold gold_addr).

Lemma triple_eta {A B C} (x : A * B * C) : x = (x.1.1, x.1.2, x.2).
Proof. by destruct x as [[]]. Qed.
Lemma triple_true {A B} (x : A * B * bool) : x.2 = true -> x = (x.1.1, x.1.2, true).
Proof. destruct x as [[] ?]. by intros [= ->]. Qed.

Lemma gold_run : let w := unreissued_gold (DumpCacheToDatabase true (reissued_gold (issued_gold new_node))) in
  rtc (fitting_step (fun _ => bs "GOLD") true 0 main_assets) (mkState ClearDirtyCache new_node Connecting [] [])
    (mkState ClearDirtyCache w Disconnecting [Issue gold] [Issue gold]).
Proof.
  assert (Hflush : forall t w k H H0 k', fitting_step (fun _ => bs "GOLD") true 0 main_assets (mkState t w k H H0) (mkState ClearDirtyCache (flush_global t w) k' H H)) by (intros; exists CallOther; split; [apply step_flush|done]).
  cbv zeta. eapply rtc_l; [exists (CallIssue gold); split; [eapply (step_issue _ _ _ _ _ _ _ _ gold gold_addr 10 (repeat 1 32)); [split_and!; (done || by vm_compute)|apply triple_eta]|done]|]. eapply rtc_l; [apply (Hflush _ _ _ _ _ Connecting)|].
  eapply rtc_l; [exists CallOther; split; [|done]; eapply (step_reissue _ _ _ _ _ _ _ _ more_gold gold_addr gold_out); [|apply triple_eta]; split_and!; [done|by vm_compute|exists gold; split_and!; [apply lookup_insert_eq|done|by vm_compute]]|].
  eapply rtc_l; [apply (Hflush _ _ _ _ _ Disconnecting)|]. eapply rtc_l; [exists CallOther; split; [apply step_dump|done]|].
  eapply rtc_l; [exists (CallUnreissue more_gold gold_undo); split; [eapply (step_unreissue _ _ _ _ _ _ _ _ _ gold_addr gold_out gold_undo); apply triple_true; by vm_compute|]|].
  { intros a Ha. change (assets_of [Issue gold] !! strName gold = Some a) in Ha. cbn [assets_of] in Ha. rewrite lookup_insert_eq in Ha. injection Ha as <-. done. }
  eapply rtc_l; [apply (Hflush _ _ _ _ _ Disconnecting)|]. apply rtc_refl.
Qed.

Lemma asset_cache_refines_witness :
  let w := unreissued_gold (DumpCacheToDatabase true (reissued_gold (issued_gold new_node))) in
  fst <$> (GetAssetMetaDataIfExists ClearDirtyCache w (bs "GOLD")).2 = Some gold /\
  (RemoveNewAsset false true ClearDirtyCache w gold gold_addr).2 = true.
Proof.
  pose proof (asset_cache_refines (fun _ => bs "GOLD") true 0 main_assets (mkState ClearDirtyCache new_node Connecting [] []) _
    (conj eq_refl (conj eq_refl (conj eq_refl (conj I (conj eq_refl (fun _ => eq_refl)))))) gold_run) as (_ & Hm & _ & _ & Hr).
  split; [exact (Hm (bs "GOLD") gold (lookup_insert_eq _ _ _))|exact (Hr eq_refl gold [] gold_addr eq_refl)].
Defined.

(** ** What goes wrong after a reorganisation *)

(** C28. A name unissued since the last dump and issued again is not found by the
    rest of its block: [passets] still lists it for removal, and that list is read
    before the additions of the block. Its metadata are those of an undone reissue
    of the old asset, where a cache still has them, and are missing otherwise; they
    are not read from the issue. The same block can issue the name
    once more. The flush at the end of the block makes it visible. *)
Theorem issued_name_hidden_after_reorg fAssetIndex t w a address h hash t' w' :
  is_Some (om_find (strName a) (to_remove (setNewAssets (passets w)))) ->
  AddNewAsset false fAssetIndex t w a address h hash = (t', w', true) ->
  (CheckIfAssetExists false t' w' (strName a) true).2 = false /\
  fst <$> (GetAssetMetaDataIfExists t' w' (strName a)).2 =
    match om_find (strName a) (mapReissuedAssetData t) with Some old => Some old | None => om_find (strName a) (mapReissuedAssetData (passets w)) end /\
  (forall b addr' h' hash', strName b = strName a -> (AddNewAsset false fAssetIndex t' w' b addr' h' hash').2 = true) /\
  (CheckIfAssetExists false ClearDirtyCache (flush_global t' w') (strName a) true).2 = true.
Proof.
  intros Hrem. unfold AddNewAsset at 1. pose proof (proj2 (om_mem_iff _ _) Hrem) as Hmem.
  assert (Hc : CheckIfAssetExists false t w (strName a) true = (w, false)) by (unfold CheckIfAssetExists; rewrite Hmem; by destruct (om_mem (strName a) (to_remove (setNewAssets t)))).
  rewrite Hc. intros [= <- <-].
  set (t1 := set_amount _ _ _ _). assert (Ht1 : same_assets (set_new_assets (fun d => add_dirty d (strName a, mkCacheNew a address h hash)) t) t1) by apply set_amount_same.
  destruct Ht1 as (E1 & E2 & _).
  assert (He : CheckIfAssetExists false t1 w (strName a) true = (w, false)).
  { unfold CheckIfAssetExists. rewrite Hmem. by destruct (om_mem (strName a) (to_remove (setNewAssets t1))). }
  split_and!; [by rewrite He| | |].
  - unfold GetAssetMetaDataIfExists. rewrite E1. cbn [set_new_assets mapReissuedAssetData]. rewrite Hmem. by repeat case_match.
  - intros b addr' h' hash' Hb. unfold AddNewAsset. rewrite Hb, He. done.
  - assert (Ha : om_mem (strName a) (to_add (setNewAssets (Flush t1 (passets w)))) = true).
    { apply om_mem_iff. cbn [Flush setNewAssets]. rewrite flush_to_add, E2. cbn [set_new_assets setNewAssets add_dirty to_add to_remove fst snd].
      unfold om_mem. rewrite om_find_erase_eq, os_insert_find, decide_True by done. destruct (om_find (strName a) (to_add (setNewAssets (passets w)))); by eexists. }
    assert (Hr : om_mem (strName a) (to_remove (setNewAssets (Flush t1 (passets w)))) = false).
    { apply om_mem_false. cbn [Flush setNewAssets]. rewrite flush_to_remove, E2. cbn [set_new_assets setNewAssets add_dirty to_add to_remove fst snd].
      by rewrite os_insert_mem, bool_decide_eq_true_2, om_find_erase_eq. }
    unfold CheckIfAssetExists. cbn [flush_global passets ClearDirtyCache setNewAssets clean to_add to_remove]. rewrite Ha, Hr. done.
Qed.

(** GOLD is issued, saved, disconnected, and issued again by the next block. *)
Definition reorged : assets_global := unissued_gold (DumpCacheToDatabase true (issued_gold new_node)).
Lemma issued_name_hidden_after_reorg_witness :
  let r := AddNewAsset false true ClearDirtyCache reorged gold gold_addr 10 (repeat 2 32) in
  r.2 = true /\ (CheckIfAssetExists false r.1.1 r.1.2 (bs "GOLD") true).2 = false.
Proof.
  set (r := AddNewAsset _ _ _ _ _ _ _ _). assert (Hr : r.2 = true) by (by vm_compute). split; [done|].
  refine (proj1 (issued_name_hidden_after_reorg true ClearDirtyCache reorged gold gold_addr 10 (repeat 2 32) r.1.1 r.1.2 _ (triple_true r Hr))).
  apply om_mem_iff. by vm_compute.
Defined.

(** Another asset of the name, issued on the other branch. *)
Definition other_gold : CNewAsset := mkNewAsset (bs "GOLD") (5 * COIN) 8 0 0 [].
Definition branch_switched : assets_global :=
  let w := reissued_gold (DumpCacheToDatabase true (issued_gold new_node)) in
  after_op (AddNewAsset false true ClearDirtyCache (unissued_gold (unreissued_gold w)) other_gold gold_addr 11 (repeat 3 32)).

(** Two reissues of a block: the first changes the units, the second the hash. *)
Definition gold_ipfs : CReissueAsset := mkReissue (bs "GOLD") 0 (-1) 1 gold_hash.
Definition gold_out2 : COutPoint := mkOutPoint (repeat 8 32) 1.
Definition two_undo_items : list (bytes * CBlockAssetUndo) :=
  [(bs "GOLD", undo_item gold more_gold); (bs "GOLD", undo_item (reissued gold more_gold) gold_ipfs)].
Definition two_reissues_undone : CAssetsCache * assets_global * bool :=
  let w := issued_gold new_node in
  let r1 := AddReissueAsset true 0 ClearDirtyCache w more_gold gold_addr gold_out in
  let r2 := AddReissueAsset true 0 r1.1.1 r1.1.2 gold_ipfs gold_addr gold_out2 in
  let w := after_op r2 in
  let u2 := RemoveReissueAsset true 0 ClearDirtyCache w gold_ipfs gold_addr gold_out2 two_undo_items in
  RemoveReissueAsset true 0 u2.1.1 u2.1.2 more_gold gold_addr gold_out two_undo_items.

(** Two ways in which disconnecting leaves a reissue behind. An asset that was
    reissued and then unissued keeps its metadata in the shared cache: when the other
    branch issues the name, lookups give the metadata of the first asset, and the
    next dump writes them over those of the second. And the undo data of a block are
    searched by name with the first item taken for every reissue of the name: after
    two reissues in one block the hash that the second one set stays. *)
Lemma reissues_survive_reorg :
  ((CheckIfAssetExists false ClearDirtyCache branch_switched (bs "GOLD") true).2 = true /\
   fst <$> (GetAssetMetaDataIfExists ClearDirtyCache branch_switched (bs "GOLD")).2 = Some gold /\
   ad_asset <$> db_assets (passetsdb (DumpCacheToDatabase true branch_switched)) !! bs "GOLD" = Some gold /\ gold <> other_gold) /\
  two_reissues_undone.2 = true /\
  fst <$> (GetAssetMetaDataIfExists two_reissues_undone.1.1 two_reissues_undone.1.2 (bs "GOLD")).2 =
    Some (mkNewAsset (bs "GOLD") (100 * COIN) 0 1 1 gold_hash).
Proof. split; [split_and!; [by vm_compute..|done]|split; by vm_compute]. Qed.
