(* ===== verification/Utxo.v ===== *)
(** * The unspent outputs

    The coins of a block: [HaveInputs] and [GetValueIn] of src/src/coins.cpp,
    [CheckTxInputs] of src/src/consensus/tx_verify.cpp, and the part of
    [UpdateCoins], [ConnectBlock], [ApplyTxInUndo] and [DisconnectBlock] of
    src/src/validation.cpp that reads and changes the coins. [None] is a failed
    assertion or an exception. What the loop of [ConnectBlock] does besides is a
    record of functions ([loop_rules]) on a state of its own; TxAssets instantiates
    it. The address and spent indexes are left out. *)

From stdpp Require Import gmap.
From S2P Require Import Prelude Serialize Script Handle Slots Tx Merkle Chain Pow Headers Draw Key AssetScripts AssetTx XAssign XClaim Attest.
From S2P Require Import Registry Coinbase Blocks CheckTx Coins Producer.

Local Open Scope string_scope.
Local Open Scope list_scope.
Local Open Scope Z_scope.

Definition COINBASE_MATURITY : Z := 100.
Definition MIN_TRANSACTION_OUTPUT_WEIGHT : Z := WITNESS_SCALE_FACTOR * zlen (enc c_txout CTxOut_null).

Section Coins.
Variable ap : AssetParams.
Variable base : view.

(** ** Reading *)

(** The inputs from index [n] on. *)
Fixpoint have_inputs (c : CCoinsMap) (tx : CTransaction) (n : nat) (ins : list CTxIn) : CCoinsMap * bool :=
  match ins with
  | [] => (c, true)
  | i :: ins =>
      if IsXAccountDummyInput ap tx n then have_inputs c tx (S n) ins else
      let '(c, b) := HaveCoin base c (prevout i) in
      if b then have_inputs c tx (S n) ins else (c, false)
  end.
Definition HaveInputs (c : CCoinsMap) (tx : CTransaction) : CCoinsMap * bool :=
  if IsCoinBase tx then (c, true) else have_inputs c tx 0 (vin tx).

Fixpoint check_inputs (c : CCoinsMap) (tx : CTransaction) (nSpendHeight : Z) (n : nat) (ins : list CTxIn) (nValueIn : Z)
    : option (CCoinsMap * result Z (Z * string)) :=
  match ins with
  | [] => Some (c, Ok nValueIn)
  | i :: ins =>
      if IsXAccountDummyInput ap tx n then check_inputs c tx nSpendHeight (S n) ins nValueIn else
      let '(c, coin) := AccessCoin base c (prevout i) in
      if IsSpent coin then None else
      if fCoinBase coin && (nSpendHeight - coin_nHeight coin <? COINBASE_MATURITY)
      then Some (c, Err (0, "bad-txns-premature-spend-of-coinbase")) else
      let nValueIn := swrap 64 (nValueIn + nValue (coin_out coin)) in
      if negb (MoneyRange (nValue (coin_out coin))) || negb (MoneyRange nValueIn)
      then Some (c, Err (100, "bad-txns-inputvalues-outofrange"))
      else check_inputs c tx nSpendHeight (S n) ins nValueIn
  end.

(** [CheckTxInputs]: the fee, or the score and reason of the rejection. *)
Definition CheckTxInputs (c : CCoinsMap) (tx : CTransaction) (nSpendHeight : Z) : option (CCoinsMap * result Z (Z * string)) :=
  let '(c, have) := HaveInputs c tx in
  if negb have then Some (c, Err (100, "bad-txns-inputs-missingorspent")) else
  match check_inputs c tx nSpendHeight 0 (vin tx) 0 with
  | None => None
  | Some (c, Err e) => Some (c, Err e)
  | Some (c, Ok nValueIn) =>
      match GetValueOut true tx with
      | None => None
      | Some value_out =>
          if nValueIn <? value_out then Some (c, Err (100, "bad-txns-in-belowout")) else
          let txfee := nValueIn - value_out in
          if negb (MoneyRange txfee) then Some (c, Err (100, "bad-txns-fee-out-of-range")) else Some (c, Ok txfee)
      end
  end.

(** ** Connecting *)

Fixpoint spend_ins (c : CCoinsMap) (ins : list CTxIn) : option (CCoinsMap * list Coin) :=
  match ins with
  | [] => Some (c, [])
  | i :: ins =>
      if IsXAccountDummyPrevout (prevout i)
      then match spend_ins c ins with Some (c, l) => Some (c, Coin_empty :: l) | None => None end
      else
        let '(c, r) := SpendCoin base c (prevout i) in
        match r with
        | None => None
        | Some coin => match spend_ins c ins with Some (c, l) => Some (c, coin :: l) | None => None end
        end
  end.

(** [AddCoins] with [check] false. *)
Fixpoint add_outs (c : CCoinsMap) (txid : bytes) (n : Z) (outs : list CTxOut) (nHeight : Z) (fCoinbase : bool) : option CCoinsMap :=
  match outs with
  | [] => Some c
  | o :: outs =>
      match AddCoin c (mkOutPoint txid n) (mkCoin o fCoinbase nHeight) fCoinbase with
      | None => None
      | Some c => add_outs c txid (n + 1) outs nHeight fCoinbase
      end
  end.
Definition AddCoins (c : CCoinsMap) (tx : CTransaction) (nHeight : Z) : option CCoinsMap :=
  add_outs c (GetHash tx) 0 (vout tx) nHeight (IsCoinBase tx).

(** [UpdateCoins]: the cache and the undo data of the transaction. *)
Definition UpdateCoins (c : CCoinsMap) (tx : CTransaction) (nHeight : Z) : option (CCoinsMap * list Coin) :=
  match (if IsCoinBase tx then Some (c, []) else spend_ins c (vin tx)) with
  | None => None
  | Some (c, undo) => match AddCoins c tx nHeight with None => None | Some c => Some (c, undo) end
  end.

(** The rest of the loop over a state of its own (assets, identity assignments,
    sequence locks, signature operations and scripts): what is checked before the
    coins are updated, and what is updated with them, with the coins that are
    spent. The check may read coins into the cache. *)
Context {St : Type}.
Record loop_rules := mkRules {
  lr_check : Z -> St -> CCoinsMap -> CTransaction -> option (CCoinsMap * result St (Z * string));
  lr_update : Z -> St -> CTransaction -> list Coin -> option St }.
Variable rules : loop_rules.

(** The loop of [ConnectBlock] from a transaction on: the state, the cache, the
    fees and the undo data of the transactions. *)
Fixpoint connect_txs (s : St) (c : CCoinsMap) (nHeight nFees : Z) (txs : list CTransaction)
    : option (result (St * CCoinsMap * Z * list (list Coin)) (Z * string)) :=
  match txs with
  | [] => Some (Ok (s, c, nFees, []))
  | tx :: txs =>
      let checked :=
        if IsCoinBase tx then Some (c, Ok nFees) else
        match CheckTxInputs c tx nHeight with
        | None => None
        | Some (c, Err e) => Some (c, Err e)
        | Some (c, Ok txfee) =>
            let nFees := swrap 64 (nFees + txfee) in
            if negb (MoneyRange nFees) then Some (c, Err (100, "bad-txns-accumulated-fee-outofrange")) else Some (c, Ok nFees)
        end in
      match checked with
      | None => None
      | Some (_, Err e) => Some (Err e)
      | Some (c, Ok nFees) =>
          match lr_check rules nHeight s c tx with
          | None => None
          | Some (_, Err e) => Some (Err e)
          | Some (c, Ok s) =>
              match UpdateCoins c tx nHeight with
              | None => None
              | Some (c, undo) =>
                  match lr_update rules nHeight s tx undo with
                  | None => None
                  | Some s =>
                      match connect_txs s c nHeight nFees txs with
                      | Some (Ok (s, c, nFees, l)) => Some (Ok (s, c, nFees, undo :: l))
                      | r => r
                      end
                  end
              end
          end
      end
  end.

(** [ConnectBlock] up to the amount of the coinbase: the state, the cache and the
    block's undo data, which leaves the coinbase out. *)
Definition connect_coins (s : St) (c : CCoinsMap) (nHeight interval : Z) (txs : list CTransaction)
    : option (result (St * CCoinsMap * list (list Coin)) (Z * string)) :=
  match connect_txs s c nHeight 0 txs with
  | None => None
  | Some (Err e) => Some (Err e)
  | Some (Ok (s, c, nFees, undo)) =>
      let blockReward := swrap 64 (nFees + GetBlockSubsidy nHeight interval) in
      match txs with
      | [] => None
      | cb :: _ =>
          match GetValueOut true cb with
          | None => None
          | Some value_out => if blockReward <? value_out then Some (Err (100, "bad-cb-amount")) else Some (Ok (s, c, tail undo))
          end
      end
  end.

(** ** Disconnecting *)

Inductive DisconnectResult := DISCONNECT_OK | DISCONNECT_UNCLEAN | DISCONNECT_FAILED.

Fixpoint access_by_txid (fuel : nat) (c : CCoinsMap) (txid : bytes) (n : Z) : CCoinsMap * Coin :=
  match fuel with
  | O => (c, Coin_empty)
  | S fuel =>
      let '(c, alternate) := AccessCoin base c (mkOutPoint txid n) in
      if negb (IsSpent alternate) then (c, alternate) else access_by_txid fuel c txid (n + 1)
  end.
Definition AccessByTxid (c : CCoinsMap) (txid : bytes) : CCoinsMap * Coin :=
  access_by_txid (Z.to_nat (Z.quot GetMaxBlockWeight MIN_TRANSACTION_OUTPUT_WEIGHT)) c txid 0.

Definition ApplyTxInUndo (c : CCoinsMap) (undo : Coin) (out : COutPoint) : option (CCoinsMap * DisconnectResult) :=
  let '(c, have) := HaveCoin base c out in
  let fClean := negb have in
  let '(c, undo) :=
    if coin_nHeight undo =? 0 then
      let '(c, alternate) := AccessByTxid c (out_hash out) in
      (c, if negb (IsSpent alternate) then Some (mkCoin (coin_out undo) (fCoinBase alternate) (coin_nHeight alternate)) else None)
    else (c, Some undo) in
  match undo with
  | None => Some (c, DISCONNECT_FAILED)
  | Some undo =>
      match AddCoin c out undo (negb fClean) with
      | None => None
      | Some c => Some (c, if fClean then DISCONNECT_OK else DISCONNECT_UNCLEAN)
      end
  end.

Fixpoint undo_outs (c : CCoinsMap) (txid : bytes) (n : Z) (outs : list CTxOut) (nHeight : Z) (is_coinbase fClean : bool) : CCoinsMap * bool :=
  match outs with
  | [] => (c, fClean)
  | o :: outs =>
      if IsUnspendable (scriptPubKey o) then undo_outs c txid (n + 1) outs nHeight is_coinbase fClean else
      let '(c, r) := SpendCoin base c (mkOutPoint txid n) in
      let ok := match r with
                | None => false
                | Some coin => bool_decide (o = coin_out coin) && (nHeight =? coin_nHeight coin) && Bool.eqb is_coinbase (fCoinBase coin)
                end in
      undo_outs c txid (n + 1) outs nHeight is_coinbase (fClean && ok)
  end.

(** The inputs with their undo coins, last first. *)
Fixpoint restore_ins (c : CCoinsMap) (ins : list (CTxIn * Coin)) (fClean : bool) : option (CCoinsMap * option bool) :=
  match ins with
  | [] => Some (c, Some fClean)
  | (i, undo) :: ins =>
      if IsXAccountDummyPrevout (prevout i) then restore_ins c ins fClean else
      match ApplyTxInUndo c undo (prevout i) with
      | None => None
      | Some (c, DISCONNECT_FAILED) => Some (c, None)
      | Some (c, DISCONNECT_UNCLEAN) => restore_ins c ins false
      | Some (c, DISCONNECT_OK) => restore_ins c ins fClean
      end
  end.

(** One transaction of [DisconnectBlock], with its undo data unless it is the
    first; no flag is the failure. *)
Definition disconnect_tx (c : CCoinsMap) (nHeight : Z) (tx : CTransaction) (undo : option (list Coin)) (fClean : bool)
    : option (CCoinsMap * option bool) :=
  let '(c, fClean) := undo_outs c (GetHash tx) 0 (vout tx) nHeight (IsCoinBase tx) fClean in
  match undo with
  | None => Some (c, Some fClean)
  | Some vprevout =>
      if negb (zlen vprevout =? zlen (vin tx)) then Some (c, None) else restore_ins c (rev (zip (vin tx) vprevout)) fClean
  end.
Fixpoint disconnect_txs (c : CCoinsMap) (nHeight : Z) (txs : list (CTransaction * option (list Coin))) (fClean : bool)
    : option (CCoinsMap * DisconnectResult) :=
  match txs with
  | [] => Some (c, if fClean then DISCONNECT_OK else DISCONNECT_UNCLEAN)
  | (tx, undo) :: txs =>
      match disconnect_tx c nHeight tx undo fClean with
      | None => None
      | Some (c, None) => Some (c, DISCONNECT_FAILED)
      | Some (c, Some fClean) => disconnect_txs c nHeight txs fClean
      end
  end.
Definition disconnect_coins (c : CCoinsMap) (nHeight : Z) (txs : list CTransaction) (vtxundo : list (list Coin))
    : option (CCoinsMap * DisconnectResult) :=
  if negb (zlen vtxundo + 1 =? zlen txs) then Some (c, DISCONNECT_FAILED)
  else disconnect_txs c nHeight (rev (zip txs (None :: map Some vtxundo))) true.

End Coins.
Arguments loop_rules : clear implicits.

(** ** What a transaction does to the map of the coins *)

Definition spend_view (v : view) (ins : list CTxIn) : view :=
  fold_left (fun v i => if IsXAccountDummyPrevout (prevout i) then v else delete (prevout i) v) ins v.
Fixpoint add_view (v : view) (txid : bytes) (n : Z) (outs : list CTxOut) (nHeight : Z) (cb : bool) : view :=
  match outs with
  | [] => v
  | o :: outs =>
      add_view (if IsUnspendable (scriptPubKey o) then v else <[mkOutPoint txid n := mkCoin o cb nHeight]> v) txid (n + 1) outs nHeight cb
  end.
Definition tx_view (v : view) (tx : CTransaction) (nHeight : Z) : view :=
  add_view (if IsCoinBase tx then v else spend_view v (vin tx)) (GetHash tx) 0 (vout tx) nHeight (IsCoinBase tx).

(** The inputs are there, and no output of the transaction is. *)
Definition inputs_in (v : view) (ins : list CTxIn) : Prop :=
  Forall (fun i => IsXAccountDummyPrevout (prevout i) = false -> is_Some (v !! prevout i)) ins.
Definition fresh_outs (v : view) (txid : bytes) (n : Z) (outs : list CTxOut) : Prop :=
  forall k, (k < length outs)%nat -> v !! mkOutPoint txid (n + Z.of_nat k) = None.
Definition fresh_in (v : view) (tx : CTransaction) : Prop := fresh_outs v (GetHash tx) 0 (vout tx).
Definition undo_of (v : view) (ins : list CTxIn) : list Coin :=
  map (fun i => if IsXAccountDummyPrevout (prevout i) then Coin_empty else default Coin_empty (v !! prevout i)) ins.

Lemma fresh_outs_cons v txid n o outs : fresh_outs v txid n (o :: outs) ->
  v !! mkOutPoint txid n = None /\ fresh_outs v txid (n + 1) outs.
Proof.
  intros H. split.
  - specialize (H 0%nat ltac:(cbn; lia)). by rewrite Z.add_0_r in H.
  - intros k Hk. specialize (H (S k) ltac:(cbn; lia)). by replace (n + 1 + Z.of_nat k) with (n + Z.of_nat (S k)) by lia.
Qed.
Lemma fresh_outs_insert v txid n m outs coin : n < m -> fresh_outs v txid m outs -> fresh_outs (<[mkOutPoint txid n := coin]> v) txid m outs.
Proof. intros Hn H k Hk. rewrite lookup_insert_ne by (intros [= E]; lia). by apply H. Qed.

Section Views.
Variable ap : AssetParams.
Variable base : view.
Hypothesis Hbase : unspent_view base.

Lemma spend_ins_view ins : forall c, cache_ok base c -> NoDup (prevout <$> ins) -> inputs_in (view_of base c) ins ->
  exists c', spend_ins base c ins = Some (c', undo_of (view_of base c) ins) /\ cache_ok base c' /\ view_of base c' = spend_view (view_of base c) ins.
Proof.
  induction ins as [|i ins IH]; intros c Hc Hnd Hin; [by eexists|]. rewrite fmap_cons in Hnd. apply NoDup_cons in Hnd as [Hni Hnd].
  apply Forall_cons in Hin as [Hi Hin]. cbn [spend_ins undo_of map]. unfold spend_view. cbn [fold_left].
  destruct (IsXAccountDummyPrevout (prevout i)) eqn:Ed.
  { destruct (IH c Hc Hnd Hin) as (c' & E & H). rewrite E. by eexists. }
  destruct (Hi eq_refl) as [coin Hcoin]. destruct (SpendCoin_view base Hbase c (prevout i) coin Hc Hcoin) as (c1 & E1 & Hc1 & Hv1). rewrite E1.
  assert (Hother : forall j, j ∈ ins -> view_of base c1 !! prevout j = view_of base c !! prevout j).
  { intros j Hj. rewrite Hv1, lookup_delete_ne; [done|]. intros E. apply Hni. rewrite E. by apply list_elem_of_fmap_2. }
  destruct (IH c1 Hc1 Hnd) as (c' & E & Hc' & Hv').
  { apply Forall_forall. intros j Hj Hdj. rewrite Hother by done. by apply (proj1 (Forall_forall _ _) Hin). }
  rewrite E. eexists. split_and!; [|done|by rewrite Hv', Hv1]. rewrite Hcoin. cbn [default]. repeat f_equal. unfold undo_of. apply map_ext_in. intros j Hj.
  by rewrite Hother by by apply list_elem_of_In.
Qed.

Lemma add_outs_view outs txid h cb : forall n c, cache_ok base c -> Forall (fun o => nValue o <> -1) outs -> fresh_outs (view_of base c) txid n outs ->
  exists c', add_outs c txid n outs h cb = Some c' /\ cache_ok base c' /\ view_of base c' = add_view (view_of base c) txid n outs h cb.
Proof.
  induction outs as [|o outs IH]; intros n c Hc Hv Hf; [by eexists|]. apply Forall_cons in Hv as [Ho Hv]. apply fresh_outs_cons in Hf as [Hn Hf]. cbn [add_outs add_view].
  destruct (AddCoin_view base c (mkOutPoint txid n) (mkCoin o cb h) cb Hc) as (c1 & E1 & Hc1 & Hv1); [by apply Z.eqb_neq|done|]. rewrite E1. cbn [coin_out] in Hv1.
  destruct (IH (n + 1) c1 Hc1 Hv) as (c' & E & Hc' & Hv').
  - rewrite Hv1. destruct (IsUnspendable _); [done|]. by apply fresh_outs_insert; [lia|].
  - rewrite E. eexists. split_and!; [done..|]. by rewrite Hv', Hv1.
Qed.

Lemma spend_view_None ins o : forall v, v !! o = None -> spend_view v ins !! o = None.
Proof.
  induction ins as [|i ins IH]; intros v Hv; [done|]. unfold spend_view. cbn [fold_left]. apply IH. destruct (IsXAccountDummyPrevout _); [done|].
  rewrite lookup_delete_None. by right.
Qed.

Lemma UpdateCoins_view c tx h : cache_ok base c -> (IsCoinBase tx = false -> NoDup (prevout <$> vin tx) /\ inputs_in (view_of base c) (vin tx)) ->
  Forall (fun o => nValue o <> -1) (vout tx) -> fresh_in (view_of base c) tx ->
  exists c', UpdateCoins base c tx h = Some (c', if IsCoinBase tx then [] else undo_of (view_of base c) (vin tx)) /\ cache_ok base c' /\
    view_of base c' = tx_view (view_of base c) tx h.
Proof.
  intros Hc Hin Ho Hf. unfold UpdateCoins, tx_view, AddCoins. destruct (IsCoinBase tx).
  - destruct (add_outs_view (vout tx) (GetHash tx) h true 0 c Hc Ho Hf) as (c' & E & H). rewrite E. by eexists.
  - destruct (Hin eq_refl) as [Hnd Hi]. destruct (spend_ins_view (vin tx) c Hc Hnd Hi) as (c1 & E1 & Hc1 & Hv1). rewrite E1.
    destruct (add_outs_view (vout tx) (GetHash tx) h false 0 c1 Hc1 Ho) as (c' & E & Hc' & Hv').
    { intros k Hk. rewrite Hv1. by apply spend_view_None, Hf. }
    rewrite E. eexists. split_and!; [done..|]. by rewrite Hv', Hv1.
Qed.

(** ** Undoing *)

Lemma undo_outs_view outs txid h cb clean : forall n c v, cache_ok base c -> fresh_outs v txid n outs ->
  view_of base c = add_view v txid n outs h cb ->
  exists c', undo_outs base c txid n outs h cb clean = (c', clean) /\ cache_ok base c' /\ view_of base c' = v.
Proof.
  induction outs as [|o outs IH]; intros n c v Hc Hf Hv; [by eexists|]. apply fresh_outs_cons in Hf as [Hn Hf]. cbn [undo_outs]. cbn [add_view] in Hv.
  destruct (IsUnspendable (scriptPubKey o)); [by apply IH|].
  assert (Hadd : forall outs m v coin, n < m ->
    add_view (<[mkOutPoint txid n := coin]> v) txid m outs h cb = <[mkOutPoint txid n := coin]> (add_view v txid m outs h cb)).
  { clear. induction outs as [|o outs IH]; intros m v coin Hm; [done|]. cbn [add_view]. destruct (IsUnspendable _); [apply IH; lia|].
    rewrite insert_insert_ne by (intros [= E]; lia). apply IH. lia. }
  rewrite Hadd in Hv by lia.
  destruct (SpendCoin_view base Hbase c (mkOutPoint txid n) (mkCoin o cb h) Hc) as (c1 & E1 & Hc1 & Hv1); [by rewrite Hv, lookup_insert_eq|]. rewrite E1. cbn [coin_out coin_nHeight fCoinBase].
  rewrite bool_decide_true, Z.eqb_refl, Bool.eqb_reflx, !andb_true_r by done. apply IH; [done..|]. rewrite Hv1, Hv. apply delete_insert_id.
  assert (Hnone : forall outs m v, n < m -> v !! mkOutPoint txid n = None -> add_view v txid m outs h cb !! mkOutPoint txid n = None).
  { clear. induction outs as [|o outs IH]; intros m v Hm Hv; [done|]. cbn [add_view]. apply IH; [lia|]. destruct (IsUnspendable _); [done|]. by rewrite lookup_insert_ne by (intros [= E]; lia). }
  apply Hnone; [lia|done].
Qed.

(** The coins a node keeps. *)
Definition kept_coin (o : COutPoint) (coin : Coin) : Prop :=
  0 <= nValue (coin_out coin) <= MAX_MONEY /\ IsUnspendable (scriptPubKey (coin_out coin)) = false /\ 0 < coin_nHeight coin /\
  IsXAccountDummyPrevout o = false.
Definition kept_view (v : view) : Prop := map_Forall kept_coin v.

Lemma ApplyTxInUndo_view c o coin : cache_ok base c -> view_of base c !! o = None -> kept_coin o coin ->
  exists c', ApplyTxInUndo base c coin o = Some (c', DISCONNECT_OK) /\ cache_ok base c' /\ view_of base c' = <[o := coin]> (view_of base c).
Proof.
  intros Hc Hn (Hm & Hu & Hh & _). unfold ApplyTxInUndo. destruct (HaveCoin_view base Hbase c o Hc) as (H1 & H2 & H3). destruct (HaveCoin base c o) as [c1 b]. cbn [fst snd] in *.
  rewrite Hn in H1. cbn in H1. subst b. cbn [negb]. destruct (Z.eqb_spec (coin_nHeight coin) 0); [lia|].
  destruct (AddCoin_view base c1 o coin false H3) as (c' & E & Hc' & Hv'); [apply Z.eqb_neq; lia|by rewrite H2|]. rewrite E. rewrite Hu, H2 in Hv'. by eexists.
Qed.

Lemma restore_ins_view v : kept_view v -> forall ins clean w, NoDup (prevout <$> ins) -> inputs_in v ins ->
  forall c, cache_ok base c -> view_of base c = w -> (forall o, o ∈ prevout <$> ins -> w !! o = None) ->
  exists c', restore_ins base c (zip ins (undo_of v ins)) clean = Some (c', Some clean) /\ cache_ok base c' /\
    forall o, view_of base c' !! o = if decide (o ∈ prevout <$> ins) then v !! o else w !! o.
Proof.
  intros Hk ins clean. induction ins as [|i ins IH]; intros w Hnd Hin c Hc <- Hw.
  { exists c. split_and!; [done..|]. intros o. destruct (decide _) as [H|]; [|done]. by apply elem_of_nil in H. }
  rewrite fmap_cons in *. apply NoDup_cons in Hnd as [Hni Hnd]. apply Forall_cons in Hin as [Hi Hin]. unfold undo_of. cbn [map zip zip_with restore_ins]. fold (undo_of v ins).
  assert (Hcase : forall c1 : CCoinsMap, cache_ok base c1 -> (forall o, view_of base c1 !! o = if decide (o = prevout i) then v !! o else view_of base c !! o) ->
    exists c', restore_ins base c1 (zip ins (undo_of v ins)) clean = Some (c', Some clean) /\ cache_ok base c' /\
      forall o, view_of base c' !! o = if decide (o ∈ prevout i :: (prevout <$> ins)) then v !! o else view_of base c !! o).
  { intros c1 Hc1 Hv1. destruct (IH (view_of base c1) Hnd Hin c1 Hc1 eq_refl) as (c' & E & Hc' & Hv').
    - intros o Ho. rewrite Hv1. destruct (decide (o = prevout i)) as [->|]; [done|]. apply Hw. by right.
    - exists c'. split_and!; [done..|]. intros o. rewrite Hv', Hv1. repeat destruct (decide _); try done; by rewrite elem_of_cons in *; tauto. }
  destruct (IsXAccountDummyPrevout (prevout i)) eqn:Ed.
  - apply Hcase; [done|]. intros o. destruct (decide (o = prevout i)) as [->|]; [|done]. rewrite Hw by by left.
    destruct (v !! prevout i) as [coin|] eqn:E; [|done]. destruct (Hk _ _ E) as (_ & _ & _ & H). by rewrite H in Ed.
  - destruct (Hi eq_refl) as [coin Hcoin]. rewrite Hcoin. change (default Coin_empty (Some coin)) with coin.
    destruct (ApplyTxInUndo_view c (prevout i) coin Hc) as (c1 & E1 & Hc1 & Hv1); [apply Hw; by left|by apply Hk|]. rewrite E1. apply Hcase; [done|].
    intros o. rewrite Hv1. destruct (decide (o = prevout i)) as [->|]; by rewrite ?lookup_insert_eq, ?lookup_insert_ne by done.
Qed.

Lemma rev_undo v ins : rev (zip ins (undo_of v ins)) = zip (rev ins) (undo_of v (rev ins)).
Proof.
  assert (Hz : forall l, zip l (undo_of v l) = map (fun i => (i, if IsXAccountDummyPrevout (prevout i) then Coin_empty else default Coin_empty (v !! prevout i))) l).
  { induction l as [|i l IH]; [done|]. unfold undo_of. cbn [map zip zip_with]. f_equal. exact IH. }
  by rewrite !Hz, map_rev.
Qed.

Lemma spend_view_lookup ins o : forall v, kept_view v -> spend_view v ins !! o = if decide (o ∈ prevout <$> ins) then None else v !! o.
Proof.
  induction ins as [|i ins IH]; intros v Hk.
  { destruct (decide _) as [H|]; [|done]. by apply elem_of_nil in H. }
  unfold spend_view. cbn [fold_left]. fold (spend_view (if IsXAccountDummyPrevout (prevout i) then v else delete (prevout i) v) ins).
  rewrite IH by (destruct (IsXAccountDummyPrevout _); [done|by apply map_Forall_delete]). rewrite fmap_cons.
  destruct (decide (o ∈ prevout <$> ins)), (decide (o ∈ prevout i :: (prevout <$> ins))) as [Hin|Hin]; rewrite elem_of_cons in Hin; try tauto.
  - destruct Hin as [->|]; [|done]. destruct (IsXAccountDummyPrevout (prevout i)) eqn:E; [|by rewrite lookup_delete_eq].
    destruct (v !! prevout i) as [coin|] eqn:Ev; [|done]. destruct (Hk _ _ Ev) as (_ & _ & _ & H). by rewrite E in H.
  - destruct (IsXAccountDummyPrevout (prevout i)); [done|]. rewrite lookup_delete_ne; [done|]. intros E. apply Hin. by left.
Qed.

(** Disconnecting the transaction that was just connected. *)
Lemma disconnect_tx_view c v tx h first clean : kept_view v -> cache_ok base c -> fresh_in v tx ->
  (first = false -> IsCoinBase tx = false /\ NoDup (prevout <$> vin tx) /\ inputs_in v (vin tx)) -> (first = true -> IsCoinBase tx = true) ->
  view_of base c = tx_view v tx h ->
  exists c', disconnect_tx base c h tx (if first then None else Some (undo_of v (vin tx))) clean = Some (c', Some clean) /\ cache_ok base c' /\ view_of base c' = v.
Proof.
  intros Hk Hc Hf Hin Hcb Hv. unfold tx_view in Hv. unfold disconnect_tx. destruct first.
  - rewrite (Hcb eq_refl) in Hv |- *. destruct (undo_outs_view (vout tx) (GetHash tx) h true clean 0 c v Hc Hf Hv) as (c' & E & H). rewrite E. by eexists.
  - destruct (Hin eq_refl) as (Hn & Hnd & Hi). rewrite Hn in Hv |- *.
    destruct (undo_outs_view (vout tx) (GetHash tx) h false clean 0 c (spend_view v (vin tx)) Hc) as (c1 & E & Hc1 & Hv1); [|done|].
    { intros k Hl. by apply spend_view_None, Hf. }
    rewrite E. assert ((zlen (undo_of v (vin tx)) =? zlen (vin tx)) = true) as -> by (apply Z.eqb_eq; unfold zlen, undo_of; by rewrite length_map). cbn [negb].
    assert (Hrev : (prevout <$> rev (vin tx)) = rev (prevout <$> vin tx)) by apply map_rev.
    rewrite rev_undo. destruct (restore_ins_view v Hk (rev (vin tx)) clean (spend_view v (vin tx))) with (c := c1) as (c' & E' & Hc' & Hv'); [| |done..| |].
    + rewrite Hrev, <-Permutation_rev. done.
    + unfold inputs_in. by rewrite <-Permutation_rev.
    + intros o Ho. rewrite spend_view_lookup by done. rewrite Hrev, <-Permutation_rev in Ho. by rewrite decide_True.
    + exists c'. split_and!; [done..|]. apply map_eq. intros o. rewrite Hv', Hrev, spend_view_lookup by done.
      destruct (decide (o ∈ rev (prevout <$> vin tx))) as [H|H]; [done|]. rewrite <-Permutation_rev in H. by rewrite decide_False.
Qed.
End Views.

(** ** Values *)

Definition coin_value (coin : Coin) : Z := nValue (coin_out coin).
(** The sum over the coins, and over the inputs, of what a coin is worth. *)
Definition view_sum (f : Coin -> Z) (v : view) : Z := map_fold (fun _ coin acc => f coin + acc) 0 v.
Definition in_sum (f : Coin -> Z) (v : view) (ins : list CTxIn) : Z :=
  sumZ (map (fun i => if IsXAccountDummyPrevout (prevout i) then 0 else f (default Coin_empty (v !! prevout i))) ins).
Abbreviation view_total := (view_sum coin_value).
Abbreviation in_value := (in_sum coin_value).

Section Sums.
Variable f : Coin -> Z.

Lemma view_sum_insert v o coin : v !! o = None -> view_sum f (<[o := coin]> v) = f coin + view_sum f v.
Proof. intros H. unfold view_sum. rewrite map_fold_insert_L; [done| |done]. intros. lia. Qed.
Lemma view_sum_delete v o coin : v !! o = Some coin -> view_sum f (delete o v) = view_sum f v - f coin.
Proof. intros H. rewrite <-(insert_delete_id v o coin H) at 2. rewrite view_sum_insert by apply lookup_delete_eq. lia. Qed.

Lemma view_sum_nonneg v : map_Forall (fun _ coin => 0 <= f coin) v -> 0 <= view_sum f v.
Proof.
  induction v as [|o coin v Ho IH] using map_ind; [done|]. intros [Hc Hk]%map_Forall_insert; [|done]. rewrite view_sum_insert by done. specialize (IH Hk). lia.
Qed.

Lemma in_sum_cons v i ins :
  in_sum f v (i :: ins) = (if IsXAccountDummyPrevout (prevout i) then 0 else f (default Coin_empty (v !! prevout i))) + in_sum f v ins.
Proof. done. Qed.
Lemma in_sum_ext v w ins : (forall j, j ∈ ins -> w !! prevout j = v !! prevout j) -> in_sum f w ins = in_sum f v ins.
Proof. intros H. unfold in_sum. f_equal. apply map_ext_in. intros j Hj. by rewrite H by by apply list_elem_of_In. Qed.

Lemma spend_view_sum ins : forall v, NoDup (prevout <$> ins) -> inputs_in v ins -> view_sum f (spend_view v ins) = view_sum f v - in_sum f v ins.
Proof.
  induction ins as [|i ins IH]; intros v Hnd Hin.
  { unfold in_sum. cbn. lia. }
  rewrite fmap_cons in Hnd. apply NoDup_cons in Hnd as [Hni Hnd]. apply Forall_cons in Hin as [Hi Hin]. rewrite in_sum_cons.
  change (spend_view v (i :: ins)) with (spend_view (if IsXAccountDummyPrevout (prevout i) then v else delete (prevout i) v) ins).
  destruct (IsXAccountDummyPrevout (prevout i)); [rewrite IH by done; lia|]. destruct (Hi eq_refl) as [coin Hcoin].
  assert (Hother : forall j, j ∈ ins -> delete (prevout i) v !! prevout j = v !! prevout j).
  { intros j Hj. rewrite lookup_delete_ne; [done|]. intros E. apply Hni. rewrite E. by apply list_elem_of_fmap_2. }
  rewrite IH; [|done|].
  - rewrite (view_sum_delete _ _ _ Hcoin), Hcoin, (in_sum_ext v) by done. change (default Coin_empty (Some coin)) with coin. lia.
  - apply Forall_forall. intros j Hj Hd. rewrite Hother by done. by apply (proj1 (Forall_forall _ _) Hin).
Qed.

Lemma add_view_sum outs txid h cb : forall v n, Forall (fun o => 0 <= f (mkCoin o cb h)) outs -> fresh_outs v txid n outs ->
  view_sum f (add_view v txid n outs h cb) <= view_sum f v + sumZ (map (fun o => f (mkCoin o cb h)) outs).
Proof.
  induction outs as [|o outs IH]; intros v n Hv Hf; [cbn; lia|]. apply Forall_cons in Hv as [Ho Hv]. apply fresh_outs_cons in Hf as [Hn Hf]. cbn [add_view map].
  change (sumZ (?x :: ?l)) with (x + sumZ l). destruct (IsUnspendable _).
  - pose proof (IH v (n + 1) Hv Hf). lia.
  - pose proof (IH (<[mkOutPoint txid n := mkCoin o cb h]> v) (n + 1) Hv (fresh_outs_insert v txid n (n + 1) outs _ ltac:(lia) Hf)) as H.
    rewrite view_sum_insert in H by done. lia.
Qed.
End Sums.

(** ** What is kept *)

Lemma add_view_kept outs txid h cb : forall v n, kept_view v -> 0 < h -> Forall (fun o => 0 <= nValue o <= MAX_MONEY) outs -> n + zlen outs <= XACCOUNT_DUMMY_N ->
  kept_view (add_view v txid n outs h cb).
Proof.
  induction outs as [|o outs IH]; intros v n Hk Hh Hv Hn; [done|]. apply Forall_cons in Hv as [Ho Hv]. cbn [add_view]. rewrite zlen_cons in Hn. pose proof (zlen_nonneg outs).
  destruct (IsUnspendable (scriptPubKey o)) eqn:E; apply IH; try done; [lia| |lia]. apply map_Forall_insert_2; [|done]. split_and!; [apply Ho..|done|done|].
  unfold IsXAccountDummyPrevout. cbn [out_n]. destruct (Z.eqb_spec n XACCOUNT_DUMMY_N); [lia|done].
Qed.
Lemma spend_view_kept ins : forall v, kept_view v -> kept_view (spend_view v ins).
Proof.
  induction ins as [|i ins IH]; intros v Hk; [done|]. apply (IH (if IsXAccountDummyPrevout (prevout i) then v else delete (prevout i) v)).
  destruct (IsXAccountDummyPrevout _); [done|by apply map_Forall_delete].
Qed.

(** What [CheckTransaction] leaves of a transaction for the coins. *)
Definition shape_ok (ap : AssetParams) (tx : CTransaction) : Prop :=
  NoDup (prevout <$> vin tx) /\ Forall (fun o => 0 <= nValue o <= MAX_MONEY) (vout tx) /\ zlen (vout tx) <= XACCOUNT_DUMMY_N /\
  (Exists (fun i => IsXAccountDummyPrevout (prevout i) = true) (vin tx) -> is_claim ap tx = true).

Lemma tx_view_kept ap v tx h : kept_view v -> 0 < h -> shape_ok ap tx -> kept_view (tx_view v tx h).
Proof. intros Hk Hh (_ & Ho & Hl & _). apply add_view_kept; [|done..]. destruct (IsCoinBase tx); [done|by apply spend_view_kept]. Qed.

Lemma kept_unspent v : kept_view v -> unspent_view v.
Proof. intros Hk o coin Ho. apply Z.eqb_neq. destruct (Hk o coin Ho) as [? _]. lia. Qed.

(** ** [CheckTxInputs] *)

Section Inputs.
Variable ap : AssetParams.
Variable base : view.
Hypothesis Hbase : unspent_view base.

Lemma AccessCoin_view c o : cache_ok base c -> exists c',
  cache_ok base c' /\ view_of base c' = view_of base c /\
  match view_of base c !! o with Some coin => AccessCoin base c o = (c', coin) | None => exists coin, AccessCoin base c o = (c', coin) /\ IsSpent coin = true end.
Proof.
  intros Hc. destruct (FetchCoin_ok base Hbase c o Hc) as (H1 & H2 & _ & H4). unfold AccessCoin. destruct (FetchCoin base c o) as [c' e]. cbn [fst snd] in *. exists c'.
  split_and!; [done..|]. rewrite H4. destruct e as [e|]; cbn [entry_view]; [|by eexists]. destruct (IsSpent (ce_coin e)) eqn:E; [by eexists|done].
Qed.

(** The input is skipped exactly when its outpoint is the dummy. *)
Definition dummies (tx : CTransaction) (n : nat) (ins : list CTxIn) : Prop :=
  forall k i, ins !! k = Some i -> IsXAccountDummyInput ap tx (n + k) = IsXAccountDummyPrevout (prevout i).
Lemma dummies_cons tx n i ins : dummies tx n (i :: ins) -> IsXAccountDummyInput ap tx n = IsXAccountDummyPrevout (prevout i) /\ dummies tx (S n) ins.
Proof.
  intros H. split; [rewrite <-(Nat.add_0_r n); by apply H|]. intros k j Hk. replace (S n + k)%nat with (n + S k)%nat by lia. by apply H.
Qed.
Lemma shape_dummies tx : shape_ok ap tx -> dummies tx 0 (vin tx).
Proof.
  intros (_ & _ & _ & Hd) k i Hk. unfold IsXAccountDummyInput. cbn [Nat.add]. rewrite Hk. destruct (IsXAccountDummyPrevout (prevout i)) eqn:E; [|done]. cbn [negb].
  apply Hd, List.Exists_exists. exists i. split; [|done]. apply list_elem_of_In. by eapply list_elem_of_lookup_2.
Qed.

Lemma have_inputs_view tx ins : forall n c, cache_ok base c -> dummies tx n ins ->
  let r := have_inputs ap base c tx n ins in cache_ok base r.1 /\ view_of base r.1 = view_of base c /\ (r.2 = true -> inputs_in (view_of base c) ins).
Proof.
  induction ins as [|i ins IH]; intros n c Hc Hd; [split_and!; [done..|intros _; apply Forall_nil_2]|]. apply dummies_cons in Hd as [Hi Hd]. cbn [have_inputs]. cbv zeta. rewrite Hi.
  destruct (IsXAccountDummyPrevout (prevout i)) eqn:E.
  { destruct (IH (S n) c Hc Hd) as (H1 & H2 & H3). split_and!; [done..|]. intros Hr. constructor; [by rewrite E|by apply H3]. }
  destruct (HaveCoin_view base Hbase c (prevout i) Hc) as (H1 & H2 & H3). destruct (HaveCoin base c (prevout i)) as [c1 b]. cbn [fst snd] in *. destruct b; [|by split_and!].
  destruct (IH (S n) c1 H3 Hd) as (H4 & H5 & H6). rewrite H2 in *. split_and!; [done..|]. intros Hr. constructor; [|by apply H6]. intros _. symmetry in H1. by apply bool_decide_eq_true in H1.
Qed.

Definition matured (v : view) (h : Z) (ins : list CTxIn) : Prop :=
  Forall (fun i => forall coin, v !! prevout i = Some coin -> fCoinBase coin = true -> COINBASE_MATURITY <= h - coin_nHeight coin) ins.

Lemma check_inputs_view tx h ins : forall n c acc, cache_ok base c -> dummies tx n ins -> kept_view (view_of base c) -> inputs_in (view_of base c) ins -> 0 <= acc <= MAX_MONEY ->
  exists c' r, check_inputs ap base c tx h n ins acc = Some (c', r) /\ cache_ok base c' /\ view_of base c' = view_of base c /\
    (forall z, r = Ok z -> z = acc + in_value (view_of base c) ins /\ 0 <= z <= MAX_MONEY /\ matured (view_of base c) h ins).
Proof.
  induction ins as [|i ins IH]; intros n c acc Hc Hd Hk Hin Ha.
  { exists c, (Ok acc). split_and!; [done..|]. intros z [= <-]. unfold in_sum. cbn. split_and!; [lia..|constructor]. }
  apply dummies_cons in Hd as [Hi Hd]. apply Forall_cons in Hin as [H Hin]. cbn [check_inputs]. rewrite Hi, in_sum_cons. destruct (IsXAccountDummyPrevout (prevout i)) eqn:E.
  { destruct (IH (S n) c acc Hc Hd Hk Hin Ha) as (c' & r & H1 & H2 & H3 & H4). exists c', r. split_and!; [done..|]. intros z Hz. destruct (H4 z Hz) as (H5 & H6 & H7). split_and!; [lia..|].
    constructor; [|done]. intros coin Hcoin. destruct (Hk _ _ Hcoin) as (_ & _ & _ & Hx). by rewrite E in Hx. }
  destruct (H eq_refl) as [coin Hcoin]. destruct (AccessCoin_view c (prevout i) Hc) as (c1 & Hc1 & Hv1 & Hacc). rewrite Hcoin in Hacc |- *. rewrite Hacc.
  change (default Coin_empty (Some coin)) with coin. destruct (Hk _ _ Hcoin) as (Hm & _). rewrite (kept_unspent _ Hk _ _ Hcoin).
  destruct (fCoinBase coin && _) eqn:Ecb; [by exists c1; eexists; split_and!|]. change (coin_value coin) with (nValue (coin_out coin)). rewrite swrap_small by (unfold MAX_MONEY, COIN in *; lia).
  destruct (negb (MoneyRange _) || _) eqn:Em; [by exists c1; eexists; split_and!|]. apply orb_false_iff in Em as [_ Em]. apply negb_false_iff, MoneyRange_iff in Em.
  rewrite <-Hv1 in Hk, Hin. destruct (IH (S n) c1 (acc + nValue (coin_out coin)) Hc1 Hd Hk Hin Em) as (c' & r & H1 & H2 & H3 & H4). rewrite Hv1 in H3, H4.
  exists c', r. split_and!; [done..|]. intros z Hz. destruct (H4 z Hz) as (H5 & H6 & H7). split_and!; [lia..|]. constructor; [|done].
  intros coin' Hcoin' Hcb. rewrite Hcoin in Hcoin'. injection Hcoin' as <-. rewrite Hcb in Ecb. cbn in Ecb. apply Z.ltb_ge in Ecb. done.
Qed.

Lemma CheckTxInputs_view c tx h : cache_ok base c -> kept_view (view_of base c) -> shape_ok ap tx -> IsCoinBase tx = false ->
  GetValueOut true tx = Some (sumZ (map nValue (vout tx))) ->
  exists c' r, CheckTxInputs ap base c tx h = Some (c', r) /\ cache_ok base c' /\ view_of base c' = view_of base c /\
    (forall fee, r = Ok fee -> inputs_in (view_of base c) (vin tx) /\ matured (view_of base c) h (vin tx) /\
       fee = in_value (view_of base c) (vin tx) - sumZ (map nValue (vout tx)) /\ 0 <= fee <= MAX_MONEY).
Proof.
  intros Hc Hk Hs Hcb Hvo. unfold CheckTxInputs, HaveInputs. rewrite Hcb, Hvo. destruct (have_inputs_view tx (vin tx) 0 c Hc (shape_dummies tx Hs)) as (H1 & H2 & H3).
  destruct (have_inputs ap base c tx 0 (vin tx)) as [c1 have]. cbn [fst snd] in *. destruct have; cbn [negb]; [|by exists c1; eexists; split_and!].
  specialize (H3 eq_refl). rewrite <-H2 in Hk, H3 |- *.
  destruct (check_inputs_view tx h (vin tx) 0 c1 0 H1 (shape_dummies tx Hs) Hk H3) as (c2 & r & E & Hc2 & Hv2 & Hr); [unfold MAX_MONEY, COIN; lia|]. rewrite E.
  destruct r as [z|e]; [|by exists c2; eexists; split_and!]. destruct (Hr z eq_refl) as (-> & Hz & Hmat). rewrite Z.add_0_l in *.
  destruct (Z.ltb_spec (in_value (view_of base c1) (vin tx)) (sumZ (map nValue (vout tx)))); [by exists c2; eexists; split_and!|].
  destruct (MoneyRange _) eqn:Em; cbn [negb]; [|by exists c2; eexists; split_and!]. apply MoneyRange_iff in Em.
  exists c2; eexists. split_and!; [done..|]. intros fee [= <-]. split; [done|]. split; [done|]. split; [done|lia].
Qed.
End Inputs.

(** ** Blocks *)

Definition block_view (v : view) (txs : list CTransaction) (h : Z) : view := fold_left (fun v tx => tx_view v tx h) txs v.
(** No transaction of the block whose inputs are there has the id of one that
    still has a coin. *)
Fixpoint fresh_block (v : view) (txs : list CTransaction) (h : Z) : Prop :=
  match txs with
  | [] => True
  | tx :: txs => (IsCoinBase tx = false -> inputs_in v (vin tx)) -> fresh_in v tx /\ fresh_block (tx_view v tx h) txs h
  end.
Fixpoint block_inputs (v : view) (txs : list CTransaction) (h : Z) : Prop :=
  match txs with
  | [] => True
  | tx :: txs => (IsCoinBase tx = false -> inputs_in v (vin tx) /\ matured v h (vin tx)) /\ block_inputs (tx_view v tx h) txs h
  end.
Fixpoint block_undo (v : view) (txs : list CTransaction) (h : Z) : list (list Coin) :=
  match txs with
  | [] => []
  | tx :: txs => (if IsCoinBase tx then [] else undo_of v (vin tx)) :: block_undo (tx_view v tx h) txs h
  end.
Definition out_value (tx : CTransaction) : Z := sumZ (map nValue (vout tx)).
Definition minted (txs : list CTransaction) : Z := sumZ (map (fun tx => if IsCoinBase tx then out_value tx else 0) txs).
(** What [CheckTransaction] leaves of a transaction of the block. *)
Definition tx_ok (ap : AssetParams) (tx : CTransaction) : Prop := shape_ok ap tx /\ GetValueOut true tx = Some (out_value tx).

Section Block.
Variable ap : AssetParams.
Variable base : view.
Hypothesis Hbase : unspent_view base.

Lemma tx_view_sum f v tx h : shape_ok ap tx -> fresh_in v tx -> (IsCoinBase tx = false -> inputs_in v (vin tx)) ->
  Forall (fun o => 0 <= f (mkCoin o (IsCoinBase tx) h)) (vout tx) ->
  view_sum f (tx_view v tx h) <= view_sum f v + sumZ (map (fun o => f (mkCoin o (IsCoinBase tx) h)) (vout tx)) - (if IsCoinBase tx then 0 else in_sum f v (vin tx)).
Proof.
  intros (Hnd & _) Hf Hin Hp. unfold tx_view. destruct (IsCoinBase tx).
  - pose proof (add_view_sum f (vout tx) (GetHash tx) h true v 0 Hp Hf). lia.
  - pose proof (add_view_sum f (vout tx) (GetHash tx) h false (spend_view v (vin tx)) 0 Hp) as H. rewrite spend_view_sum in H; [|done|by apply Hin].
    assert (Hf' : fresh_outs (spend_view v (vin tx)) (GetHash tx) 0 (vout tx)) by (intros k Hk; by apply spend_view_None, Hf). specialize (H Hf'). lia.
Qed.
Lemma tx_view_total v tx h : shape_ok ap tx -> fresh_in v tx -> (IsCoinBase tx = false -> inputs_in v (vin tx)) ->
  view_total (tx_view v tx h) <= view_total v + out_value tx - (if IsCoinBase tx then 0 else in_value v (vin tx)).
Proof. intros Hs Hf Hin. apply tx_view_sum; [done..|]. eapply Forall_impl; [apply Hs|]. by intros o [? _]. Qed.

(** Rules that leave the coins alone and keep an invariant of the transactions
    done, the coins and their state, on transactions with what is known of a
    block's. *)
Definition rules_keep {St} (good : CTransaction -> Prop) (rules : loop_rules St) (Inv : list CTransaction -> view -> St -> Prop) : Prop :=
  forall h past s c tx, cache_ok base c -> kept_view (view_of base c) -> good tx -> fresh_in (view_of base c) tx ->
    (IsCoinBase tx = false -> inputs_in (view_of base c) (vin tx)) -> Inv past (view_of base c) s ->
    exists c' r, lr_check rules h s c tx = Some (c', r) /\ cache_ok base c' /\ view_of base c' = view_of base c /\
      forall s', r = Ok s' -> exists s'', lr_update rules h s' tx (if IsCoinBase tx then [] else undo_of (view_of base c) (vin tx)) = Some s'' /\
        Inv (past ++ [tx]) (tx_view (view_of base c) tx h) s''.

Section Loop.
Context {St : Type}.
Variable good : CTransaction -> Prop.
Variable rules : loop_rules St.
Variable Inv : list CTransaction -> view -> St -> Prop.
Hypothesis Hgood : forall tx, good tx -> tx_ok ap tx.
Hypothesis Hrules : rules_keep good rules Inv.

(** What the loop leaves of a state and a cache. *)
Definition txs_done (past : list CTransaction) (v : view) (txs : list CTransaction) (h fees : Z) (s' : St) (c' : CCoinsMap) (fees' : Z) (undos : list (list Coin)) : Prop :=
  cache_ok base c' /\ view_of base c' = block_view v txs h /\ kept_view (view_of base c') /\ undos = block_undo v txs h /\
  block_inputs v txs h /\ 0 <= fees' <= MAX_MONEY /\ view_total (view_of base c') <= view_total v + minted txs - (fees' - fees) /\ Inv (past ++ txs) (view_of base c') s'.

Lemma connect_txs_view h txs : forall past s c fees, 0 < h -> cache_ok base c -> kept_view (view_of base c) -> Forall good txs -> fresh_block (view_of base c) txs h ->
  0 <= fees <= MAX_MONEY -> Inv past (view_of base c) s ->
  exists r, connect_txs ap base rules s c h fees txs = Some r /\
    forall s' c' fees' undos, r = Ok (s', c', fees', undos) -> txs_done past (view_of base c) txs h fees s' c' fees' undos.
Proof.
  induction txs as [|tx txs IH]; intros past s c fees Hh Hc Hk Hok Hf Hfees Hinv.
  { eexists. split; [done|]. intros s' c' fees' undos [= <- <- <- <-]. unfold txs_done, minted. cbn. rewrite app_nil_r. split_and!; try done; lia. }
  apply Forall_cons in Hok as [Hg Hok]. destruct (Hgood tx Hg) as [Hs Hvo]. cbn [connect_txs].
  assert (Hstep : forall c1 fees1, cache_ok base c1 -> view_of base c1 = view_of base c -> 0 <= fees1 <= MAX_MONEY ->
    (IsCoinBase tx = false -> inputs_in (view_of base c) (vin tx) /\ matured (view_of base c) h (vin tx) /\ fees1 - fees = in_value (view_of base c) (vin tx) - out_value tx) ->
    (IsCoinBase tx = true -> fees1 = fees) ->
    exists r, match lr_check rules h s c1 tx with
      | None => None
      | Some (_, Err e) => Some (Err e)
      | Some (c1, Ok s) => match UpdateCoins base c1 tx h with
        | None => None
        | Some (c2, undo) => match lr_update rules h s tx undo with
          | None => None
          | Some s => match connect_txs ap base rules s c2 h fees1 txs with Some (Ok (s, c3, f, l)) => Some (Ok (s, c3, f, undo :: l)) | r => r end
          end end end = Some r /\
    forall s' c' fees' undos, r = Ok (s', c', fees', undos) -> txs_done past (view_of base c) (tx :: txs) h fees s' c' fees' undos).
  { intros c1 fees1 Hc1 Hv1 Hf1 Hin Hcb. rewrite <-Hv1 in *. destruct (Hf (fun Hn => proj1 (Hin Hn))) as [Hft Hfr].
    destruct (Hrules h past s c1 tx Hc1 Hk Hg Hft (fun Hn => proj1 (Hin Hn)) Hinv) as (c0 & r0 & -> & Hc0 & Hv0 & Hr0). destruct r0 as [s0|e]; [|by eexists]. rewrite <-Hv0 in *.
    destruct (UpdateCoins_view base Hbase c0 tx h Hc0) as (c2 & E2 & Hc2 & Hv2); [|eapply Forall_impl; [apply Hs|]; cbv beta; lia|done|].
    { intros Hn. destruct (Hin Hn) as (? & _). split; [apply Hs|done]. }
    rewrite E2. destruct (Hr0 s0 eq_refl) as (s2 & -> & Hi2). rewrite <-Hv2 in Hi2. assert (Hk2 : kept_view (view_of base c2)) by (rewrite Hv2; by eapply tx_view_kept).
    rewrite <-Hv2 in Hfr. destruct (IH (past ++ [tx]) s2 c2 fees1 Hh Hc2 Hk2 Hok Hfr Hf1 Hi2) as (r & E & Hr). rewrite E. destruct r as [[[[s3 c3] f] l]|e]; [|by eexists].
    eexists. split; [done|]. intros s' c' fees' undos [= <- <- <- <-]. destruct (Hr _ _ _ _ eq_refl) as (R1 & R2 & R3 & R4 & R5 & R6 & R7 & R8). rewrite Hv2 in R2, R4, R5, R7.
    pose proof (tx_view_total (view_of base c0) tx h Hs Hft (fun Hn => proj1 (Hin Hn))) as Ht. unfold txs_done. rewrite <-app_assoc in R8.
    change (minted (tx :: txs)) with ((if IsCoinBase tx then out_value tx else 0) + minted txs). cbn [block_undo block_inputs]. rewrite R4. split_and!; try done.
    - intros Hn. by destruct (Hin Hn) as (? & ? & _).
    - lia.
    - lia.
    - destruct (IsCoinBase tx); [rewrite (Hcb eq_refl) in *|destruct (Hin eq_refl) as (_ & _ & ?)]; lia. }
  destruct (IsCoinBase tx) eqn:Ecb; [by apply Hstep|]. destruct (CheckTxInputs_view ap base Hbase c tx h Hc Hk Hs Ecb Hvo) as (c1 & r1 & E1 & Hc1 & Hv1 & Hr1). rewrite E1.
  destruct r1 as [fee|e]; [|by eexists]. destruct (Hr1 fee eq_refl) as (Hin & Hm & Hfee & Hrange). rewrite swrap_small by (unfold MAX_MONEY, COIN in *; lia).
  destruct (MoneyRange (fees + fee)) eqn:Em; cbn [negb]; [|by eexists]. apply MoneyRange_iff in Em. apply Hstep; try done. intros _. split_and!; [done..|]. unfold out_value. lia.
Qed.
End Loop.

(** The block just connected, disconnected. *)
Fixpoint undo_pairs (first : bool) (v : view) (txs : list CTransaction) (h : Z) : list (CTransaction * option (list Coin)) :=
  match txs with
  | [] => []
  | tx :: txs => (tx, if first then None else Some (undo_of v (vin tx))) :: undo_pairs false (tx_view v tx h) txs h
  end.

Lemma disconnect_txs_app h l1 l2 : forall c c1 clean, disconnect_txs base c h l1 clean = Some (c1, DISCONNECT_OK) ->
  disconnect_txs base c h (l1 ++ l2) clean = disconnect_txs base c1 h l2 true.
Proof.
  induction l1 as [|[tx undo] l1 IH]; intros c c1 clean; cbn [app disconnect_txs].
  { destruct clean; by intros [= <-]. }
  destruct (disconnect_tx base c h tx undo clean) as [[c2 [b|]]|]; [apply IH|done..].
Qed.

Lemma disconnect_txs_view h txs : forall (first : bool) (v : view) (c : CCoinsMap), 0 < h -> kept_view v -> Forall (shape_ok ap) txs -> fresh_block v txs h -> block_inputs v txs h ->
  (if first then match txs with [] => True | tx :: txs => IsCoinBase tx = true /\ Forall (fun tx => IsCoinBase tx = false) txs end
   else Forall (fun tx => IsCoinBase tx = false) txs) ->
  cache_ok base c -> view_of base c = block_view v txs h ->
  exists c', disconnect_txs base c h (rev (undo_pairs first v txs h)) true = Some (c', DISCONNECT_OK) /\ cache_ok base c' /\ view_of base c' = v.
Proof.
  induction txs as [|tx txs IH]; intros first v c Hh Hk Hs Hf Hin Hcb Hc Hv; [by eexists|].
  apply Forall_cons in Hs as [Ht Hs]. destruct Hin as [Hit Hin], (Hf (fun Hn => proj1 (Hit Hn))) as [Hft Hfr].
  assert (Hrest : Forall (fun tx => IsCoinBase tx = false) txs) by (destruct first; [apply Hcb|by apply Forall_cons in Hcb as [_ ?]]).
  destruct (IH false (tx_view v tx h) c Hh (tx_view_kept ap v tx h Hk Hh Ht) Hs Hfr Hin Hrest Hc Hv) as (c1 & E1 & Hc1 & Hv1).
  cbn [undo_pairs rev]. rewrite (disconnect_txs_app _ _ _ _ _ _ E1). cbn [disconnect_txs].
  destruct (disconnect_tx_view base Hbase c1 v tx h first true Hk Hc1 Hft) as (c2 & E2 & Hc2 & Hv2); [| |done|rewrite E2; by eexists].
  - intros ->. apply Forall_cons in Hcb as [Hn _]. split_and!; [done|apply Ht|by apply Hit].
  - intros ->. apply Hcb.
Qed.

Lemma undo_pairs_zip h txs : forall v, Forall (fun tx => IsCoinBase tx = false) txs -> zip txs (map Some (block_undo v txs h)) = undo_pairs false v txs h.
Proof.
  induction txs as [|tx txs IH]; intros v Hn; [done|]. apply Forall_cons in Hn as [Hn Hns]. cbn [block_undo undo_pairs map zip zip_with]. rewrite Hn. f_equal. by apply IH.
Qed.
Lemma block_undo_length h txs : forall v, length (block_undo v txs h) = length txs.
Proof. induction txs as [|tx txs IH]; intros v; [done|]. cbn. by rewrite IH. Qed.
End Block.

(** ** Heights in coinbases *)

Lemma push_int64_form h : 0 < h < 2 ^ 63 -> (h <= 16 /\ push_int64 h = [h + 80]) \/
  (push_int64 h = Z.of_nat (length (CScriptNum_serialize h)) :: CScriptNum_serialize h /\ (length (CScriptNum_serialize h) <= 8)%nat).
Proof.
  intros Hh. pose proof (length_serialize h ltac:(lia)) as Hl. unfold push_int64. destruct (Z.eqb_spec h (-1)); [lia|]. destruct (Z.leb_spec 1 h); [|lia]. destruct (Z.leb_spec h 16); [by left|].
  right. cbn [orb andb]. destruct (Z.eqb_spec h 0); [lia|]. split; [|done]. unfold push. destruct (Z.ltb_spec (zlen (CScriptNum_serialize h)) OP_PUSHDATA1) as [|Hx]; [|unfold zlen, OP_PUSHDATA1 in Hx; lia].
  cbn [le_bytes app]. change 255 with (Z.ones 8). rewrite Z.land_ones, Z.mod_small by (unfold zlen; lia). done.
Qed.

(** No height's push begins another's. *)
Lemma push_int64_prefix h1 h2 s : 0 < h1 < 2 ^ 63 -> 0 < h2 < 2 ^ 63 ->
  take (length (push_int64 h1)) s = push_int64 h1 -> take (length (push_int64 h2)) s = push_int64 h2 -> h1 = h2.
Proof.
  intros H1 H2. destruct (push_int64_form h1 H1) as [[L1 ->]|[-> L1]], (push_int64_form h2 H2) as [[L2 ->]|[-> L2]]; (destruct s as [|b s]; [done|]); cbn [length take].
  - intros E1 E2. simplify_eq. lia.
  - intros E1 E2. simplify_eq. lia.
  - intros E1 E2. simplify_eq. lia.
  - intros [= -> E1] [= E E2]. apply Nat2Z.inj in E. rewrite E in E1. rewrite E1 in E2. rewrite <-(set_vch_serialize h1), <-(set_vch_serialize h2), E2 by lia. done.
Qed.

(** ** Transactions are not repeated *)

#[local] Opaque GetHash.

(** The transactions connected so far, with their heights. *)
Definition history : Type := list (CTransaction * Z).
Definition ids (hist : history) : list bytes := map (fun p => GetHash p.1) hist.
Definition cb_script (tx : CTransaction) : CScript := match vin tx with i :: _ => scriptSig i | [] => [] end.
Definition cb_height (tx : CTransaction) (h : Z) : Prop := take (length (push_int64 h)) (cb_script tx) = push_int64 h.

(** Every coin is of a transaction connected before, every input spent before
    is gone, every coinbase before carries its height. *)
Definition hist_ok (v : view) (hist : history) (top : Z) : Prop :=
  (forall o coin, v !! o = Some coin -> out_hash o ∈ ids hist) /\
  (forall t h, (t, h) ∈ hist -> IsCoinBase t = false -> forall i, i ∈ vin t -> IsXAccountDummyPrevout (prevout i) = false ->
     v !! prevout i = None /\ out_hash (prevout i) ∈ ids hist) /\
  (forall t h, (t, h) ∈ hist -> IsCoinBase t = true -> cb_height t h /\ 0 < h <= top).

(** Of the transactions to connect: a hash seen before is that of the same
    transaction, and no claim comes twice. *)
Fixpoint ids_new (ap : AssetParams) (hist : history) (txs : list CTransaction) (h : Z) : Prop :=
  match txs with
  | [] => True
  | tx :: txs =>
      (forall t h', (t, h') ∈ hist -> GetHash tx = GetHash t -> strip_witness tx = strip_witness t /\ is_claim ap tx = false) /\
      ids_new ap ((tx, h) :: hist) txs h
  end.

Lemma add_view_lookup outs txid h cb o coin : forall v n, add_view v txid n outs h cb !! o = Some coin -> v !! o = Some coin \/ out_hash o = txid.
Proof.
  induction outs as [|out outs IH]; intros v n; [by left|]. cbn [add_view]. intros [H|H]%IH; [|by right]. destruct (IsUnspendable _); [by left|].
  destruct (decide (mkOutPoint txid n = o)) as [<-|Hne]; [by right|]. left. by rewrite lookup_insert_ne in H.
Qed.
Lemma spend_view_Some ins o coin : forall v, spend_view v ins !! o = Some coin -> v !! o = Some coin.
Proof. intros v H. destruct (v !! o) as [coin'|] eqn:E; [|by rewrite (spend_view_None ins o v E) in H].
  revert v E H. induction ins as [|i ins IH]; intros v E H; [by rewrite <-H, <-E|].
  change (spend_view v (i :: ins)) with (spend_view (if IsXAccountDummyPrevout (prevout i) then v else delete (prevout i) v) ins) in H.
  destruct (IsXAccountDummyPrevout (prevout i)); [by apply (IH v)|]. destruct (decide (prevout i = o)) as [Heq|Hne].
  - rewrite Heq in H. by rewrite (spend_view_None ins o (delete o v)) in H by apply lookup_delete_eq.
  - apply (IH (delete (prevout i) v)); [by rewrite lookup_delete_ne|done].
Qed.
Lemma tx_view_lookup v tx h o coin : tx_view v tx h !! o = Some coin -> v !! o = Some coin \/ out_hash o = GetHash tx.
Proof. unfold tx_view. intros [H|H]%add_view_lookup; [|by right]. left. destruct (IsCoinBase tx); [done|]. by eapply spend_view_Some. Qed.

Lemma strip_ins_eq l l' : map strip_in l = map strip_in l' -> (prevout <$> l) = (prevout <$> l') /\ (scriptSig <$> l) = (scriptSig <$> l').
Proof.
  revert l'. induction l as [|i l IH]; intros [|i' l'] H; try discriminate; [by split|]. cbn [map] in H. injection H as Hp Hs _ Hl. destruct (IH l' Hl) as [E1 E2].
  rewrite !fmap_cons, Hp, Hs, E1, E2. by split.
Qed.
Lemma strip_coinbase t t' : strip_witness t = strip_witness t' ->
  (prevout <$> vin t) = (prevout <$> vin t') /\ cb_script t = cb_script t' /\ IsCoinBase t = IsCoinBase t'.
Proof.
  intros H. destruct (strip_ins_eq (vin t) (vin t') (f_equal vin H)) as [Hp Hs]. clear H. split; [done|].
  assert (Hc : forall t, cb_script t = default [] (head (scriptSig <$> vin t))) by (intros u; unfold cb_script; by destruct (vin u)).
  assert (Hb : forall t, IsCoinBase t = match prevout <$> vin t with [o] => COutPoint_IsNull o | _ => false end) by (intros u; unfold IsCoinBase; by destruct (vin u) as [|? [|]]).
  by rewrite !Hc, !Hb, Hs, Hp.
Qed.

Section History.
Variable ap : AssetParams.

Lemma id_new v hist top tx h : hist_ok v hist top -> shape_ok ap tx -> vin tx <> [] ->
  (IsCoinBase tx = false -> inputs_in v (vin tx)) -> (IsCoinBase tx = true -> cb_height tx h /\ top < h < 2 ^ 63) ->
  (forall t h', (t, h') ∈ hist -> GetHash tx = GetHash t -> strip_witness tx = strip_witness t /\ is_claim ap tx = false) ->
  GetHash tx ∉ ids hist.
Proof.
  intros (_ & Hspent & Hcb) (_ & _ & _ & Hdm) Hne Hin Hh Hsame Hid.
  apply list_elem_of_In, in_map_iff in Hid as ([t h'] & He & Ht). apply list_elem_of_In in Ht. symmetry in He. destruct (Hsame t h' Ht He) as [Hst Hcl].
  destruct (strip_coinbase _ _ Hst) as (Hp & Hs & Hc). destruct (IsCoinBase tx).
  - destruct (Hh eq_refl) as [H1 H2], (Hcb t h' Ht (eq_sym Hc)) as [H3 H4]. unfold cb_height in *. rewrite <-Hs in H3. pose proof (push_int64_prefix h h' _ ltac:(lia) ltac:(lia) H1 H3). lia.
  - destruct (vin tx) as [|i l] eqn:Ei; [done|]. assert (Hd : IsXAccountDummyPrevout (prevout i) = false).
    { apply not_true_iff_false. intros E. rewrite Hdm in Hcl; [done|]. by left. }
    specialize (Hin eq_refl). apply Forall_cons in Hin as [Hi _]. destruct (Hi Hd) as [coin Hcoin].
    assert (prevout i ∈ prevout <$> vin t) as (j & Ej & Hj)%list_elem_of_fmap by (rewrite <-Hp, fmap_cons; by left).
    rewrite Ej in Hd, Hcoin. destruct (Hspent t h' Ht (eq_sym Hc) j Hj Hd) as [Hnone _]. congruence.
Qed.

Lemma hist_ok_step v hist top tx h : hist_ok v hist top -> kept_view v -> GetHash tx ∉ ids hist -> top <= h ->
  (IsCoinBase tx = false -> inputs_in v (vin tx)) -> (IsCoinBase tx = true -> cb_height tx h /\ 0 < h) ->
  fresh_in v tx /\ hist_ok (tx_view v tx h) ((tx, h) :: hist) h.
Proof.
  intros (H1 & H2 & H3) Hk Hid Htop Hin Hh. split.
  { intros k _. destruct (v !! _) as [coin|] eqn:E; [|done]. by apply H1 in E. }
  assert (Hsub : forall x, x ∈ ids hist -> x ∈ ids ((tx, h) :: hist)) by (intros x Hx; by right).
  assert (Hgone : forall o, v !! o = None -> out_hash o ∈ ids hist -> tx_view v tx h !! o = None).
  { intros o Hv Hx. destruct (tx_view v tx h !! o) as [coin|] eqn:E; [|done]. apply tx_view_lookup in E as [E|E]; [congruence|]. by rewrite E in Hx. }
  split_and!.
  - intros o coin [E|E]%tx_view_lookup; [by eapply Hsub, H1|]. rewrite E. by left.
  - intros t h' [[= -> ->]|Ht]%elem_of_cons Hcb i Hi Hd.
    + destruct (proj1 (Forall_forall _ _) (Hin Hcb) i Hi Hd) as [coin Hcoin]. pose proof (H1 _ _ Hcoin) as Hx. split; [|by apply Hsub].
      destruct (tx_view v tx h !! prevout i) as [coin'|] eqn:E; [|done]. unfold tx_view in E. rewrite Hcb in E. apply add_view_lookup in E as [E|E]; [|by rewrite E in Hx].
      rewrite spend_view_lookup, decide_True in E by (done || by apply list_elem_of_fmap_2). done.
    + destruct (H2 t h' Ht Hcb i Hi Hd) as [Hn Hx]. split; [by apply Hgone|by apply Hsub].
  - intros t h' [[= -> ->]|Ht]%elem_of_cons Hcb; [destruct (Hh Hcb); split; [done|lia]|]. destruct (H3 t h' Ht Hcb). split; [done|lia].
Qed.

(** The transactions of a block after its coinbase. *)
Lemma fresh_block_rest h txs : forall v hist, hist_ok v hist h -> kept_view v -> 0 < h -> Forall (fun tx => shape_ok ap tx /\ vin tx <> [] /\ IsCoinBase tx = false) txs ->
  ids_new ap hist txs h -> fresh_block v txs h /\
  (block_inputs v txs h -> hist_ok (block_view v txs h) (rev (map (fun tx => (tx, h)) txs) ++ hist) h).
Proof.
  induction txs as [|tx txs IH]; intros v hist Hv Hk Hh Hok Hids; [done|]. apply Forall_cons in Hok as [(Hs & Hne & Hcb) Hok]. destruct Hids as [Hid Hids].
  assert (Hstep : (IsCoinBase tx = false -> inputs_in v (vin tx)) -> fresh_in v tx /\ hist_ok (tx_view v tx h) ((tx, h) :: hist) h).
  { intros Hin. apply hist_ok_step with (top := h); try done; [|by rewrite Hcb]. apply (id_new v hist h tx h); try done. by rewrite Hcb. }
  assert (Hkt := tx_view_kept ap v tx h Hk Hh Hs). split.
  - cbn [fresh_block]. intros Hin. destruct (Hstep Hin) as [Hf Hv']. split; [done|]. by apply (IH _ ((tx, h) :: hist)).
  - intros [Hin Hrest]. destruct (Hstep (fun Hn => proj1 (Hin Hn))) as [_ Hv']. destruct (IH _ ((tx, h) :: hist) Hv' Hkt Hh Hok Hids) as [_ H]. specialize (H Hrest).
    cbn [map rev]. by rewrite <-app_assoc.
Qed.

Lemma fresh_block_ok v hist top h cb txs : hist_ok v hist top -> kept_view v -> 0 <= top < h -> h < 2 ^ 63 -> shape_ok ap cb -> vin cb <> [] -> IsCoinBase cb = true -> cb_height cb h ->
  Forall (fun tx => shape_ok ap tx /\ vin tx <> [] /\ IsCoinBase tx = false) txs -> ids_new ap hist (cb :: txs) h ->
  fresh_block v (cb :: txs) h /\ (block_inputs v (cb :: txs) h -> hist_ok (block_view v (cb :: txs) h) (rev (map (fun tx => (tx, h)) (cb :: txs)) ++ hist) h).
Proof.
  intros Hv Hk Htop Hh Hs Hne Hcb Hch Hok [Hid Hids].
  assert (GetHash cb ∉ ids hist) as Hnew by (apply (id_new v hist top cb h); try done; [by rewrite Hcb|intros _; split; [done|lia]]).
  destruct (hist_ok_step v hist top cb h Hv Hk Hnew) as [Hf Hv']; [lia|by rewrite Hcb|intros _; split; [done|lia]|].
  destruct (fresh_block_rest h txs _ _ Hv' (tx_view_kept ap v cb h Hk ltac:(lia) Hs) ltac:(lia) Hok Hids) as [Hfr Hr]. split; [by intros _|].
  intros [_ Hrest]. cbn [map rev]. rewrite <-app_assoc. by apply Hr.
Qed.
End History.

(** ** The chain *)

Section Chain.
Context {secp : Secp256k1}.
Variable BlockHash : CBlockHeader -> bytes.
Variable BlockHashFull : CBlockHeader -> bytes * bytes.
Variable hp : HeaderParams.
Variable bp : BlockParams.
Variable params : CChainParams.
Variable ap : AssetParams.
Variable testnet : bool.

Lemma vout_size tx : zlen (vout tx) <= zlen (SerializeTransaction false tx).
Proof.
  assert (H : forall l, zlen l <= zlen (concat (map (enc c_txout) l))).
  { induction l as [|o l IH]; [done|]. cbn [map concat]. rewrite zlen_cons, zlen_app. assert (1 <= zlen (enc c_txout o)); [|lia]. cbn [enc c_txout c_map c_pair]. rewrite zlen_app.
    pose proof (zlen_nonneg (enc c_bytes (scriptPubKey o))). cbn [fst snd]. unfold c_int. cbn [enc]. unfold zlen at 1. rewrite length_le_bytes. cbn [enc] in *. lia. }
  unfold SerializeTransaction. rewrite !zlen_app. unfold c_vector. cbn [enc]. rewrite !zlen_app. specialize (H (vout tx)).
  repeat match goal with |- context [zlen ?x] => lazymatch goal with _ : 0 <= zlen x |- _ => fail | _ => pose proof (zlen_nonneg x) end end. lia.
Qed.

Lemma CheckTransaction_tx_ok st pool mem blk tx : CheckTransaction ap testnet st pool true mem blk tx = Accept -> tx_ok ap tx /\ vin tx <> [].
Proof.
  intros H. destruct (accepted_shape ap testnet st pool true mem blk tx H) as (Hi & _ & Ho & Hs & _ & Hd & _ & _ & Hx). split; [|done]. split.
  - split_and!; [by apply Hd|done| |done]. unfold CheckTransaction in H. destruct (_ =? 0); [done|]. destruct (_ =? 0); [done|].
    destruct (Z.ltb_spec GetMaxBlockWeight (zlen (SerializeTransaction false tx) * WITNESS_SCALE_FACTOR)) as [|Hsz]; [done|].
    pose proof (vout_size tx). assert (GetMaxBlockWeight <= WITNESS_SCALE_FACTOR * XACCOUNT_DUMMY_N) by by vm_compute. assert (0 < WITNESS_SCALE_FACTOR) by by vm_compute. nia.
  - apply value_out_exact. unfold counted, out_value. cbn [orb]. assert (Ht : forall l : list CTxOut, List.filter (fun _ => true) l = l) by (induction l; cbn; by f_equal). rewrite Ht.
    split_and!; [done| |lia]. apply Forall_map. eapply Forall_impl; [exact Ho|]. by intros o [? _].
Qed.

Definition tx_checked (tx : CTransaction) : Prop := exists st pool blk, CheckTransaction ap testnet st pool true false blk tx = Accept.
Lemma tx_checked_ok tx : tx_checked tx -> tx_ok ap tx.
Proof. intros (st & pool & blk & H). by destruct (CheckTransaction_tx_ok st pool false blk tx H). Qed.

Lemma CheckBlock_txs st pool blk a block pow root :
  (CheckBlock BlockHash BlockHashFull hp (CheckTransaction ap testnet st pool true false blk) a false block pow root).1 = Accept ->
  exists cb txs, vtx block = cb :: txs /\ IsCoinBase cb = true /\ Forall (fun tx => IsCoinBase tx = false) txs /\ Forall (fun tx => tx_checked tx /\ vin tx <> []) (cb :: txs).
Proof.
  unfold CheckBlock. destruct (BlockMerkleRoot (vtx block)) as [r2 mutated]. cbn [fst]. intros Hv%first_reject_accept.
  do 4 apply Forall_cons in Hv as [_ Hv]. apply Forall_cons in Hv as [Hcb Hv]. apply Forall_cons in Hv as [Hmul Hv]. apply Forall_cons in Hv as [Htx _].
  unfold check in Hcb, Hmul. destruct (vtx block) as [|cb txs]; [done|]. exists cb, txs. split; [done|]. destruct (IsCoinBase cb); [|done]. cbn [tail] in Hmul. split_and!; [done| |].
  - destruct (existsb IsCoinBase txs) eqn:E; [done|]. apply List.Forall_forall. intros tx Hin. apply not_true_iff_false. intros Ht. apply not_true_iff_false in E. apply E, existsb_exists. by exists tx.
  - apply first_reject_accept in Htx. rewrite Forall_map in Htx. eapply Forall_impl; [exact Htx|]. intros tx Hx. split; [by exists st, pool, blk|]. apply (CheckTransaction_tx_ok st pool false blk tx Hx).
Qed.

Lemma ContextualCheckBlock_height a att block p prev : nBIP34Enabled bp = true -> a !! p = Some prev ->
  (ContextualCheckBlock hp bp params a att block (Some p)).1 = Judged Accept ->
  match vtx block with cb :: _ => cb_height cb (nHeight prev + 1) | [] => True end.
Proof.
  intros Hb Hp. unfold ContextualCheckBlock. cbn [mbind option_bind]. rewrite Hp. cbv zeta. set (h := nHeight prev + 1).
  destruct (first_reject _) eqn:E; [|done]. intros _. apply first_reject_accept in E. apply Forall_cons in E as [_ E]. apply Forall_cons in E as [E _].
  unfold check in E. rewrite Hb in E. cbn [negb orb] in E. destruct (vtx block) as [|cb txs]; [done|]. unfold cb_height, cb_script. destruct (bytes_eqb _ _) eqn:Eb; [|done]. by apply bytes_eqb_eq in Eb.
Qed.

(** A block that passes the checks on top of the chain at height [h]. *)
Definition checked (h : Z) (block : CBlock) : Prop :=
  (exists st pool blk a pow root,
    (CheckBlock BlockHash BlockHashFull hp (CheckTransaction ap testnet st pool true false blk) a false block pow root).1 = Accept) /\
  (exists a att p prev, a !! p = Some prev /\ nHeight prev = h /\ (ContextualCheckBlock hp bp params a att block (Some p)).1 = Judged Accept) /\
  h + 1 < 2 ^ 31.
(** Such a block for a history in which its transactions are new. The checks do
    not see to that: an identity claim has no input that could be spent only
    once. *)
Definition extends (h : Z) (hist : history) (block : CBlock) : Prop := checked h block /\ ids_new ap hist (vtx block) (h + 1).

(** It is connected to the coins of the cache [c], whatever the rest of the loop
    checks, and leaves the cache [c'] and its undo data. *)
Definition joins (h : Z) (base : view) (c : CCoinsMap) (hist : history) (block : CBlock) (c' : CCoinsMap) (undo : list (list Coin)) : Prop :=
  checked h block /\ ids_new ap hist (vtx block) (h + 1) /\
  exists (St : Type) good (rules : loop_rules St) Inv s s', Forall good (vtx block) /\ rules_keep base (fun tx => tx_checked tx /\ good tx) rules Inv /\ Inv [] (view_of base c) s /\
    connect_coins ap base rules s c (h + 1) (nSubsidyHalvingInterval params) (vtx block) = Some (Ok (s', c', undo)).

(** The coins of a chain: none at the genesis block, then block by block; a
    cache may be replaced by another that stands for the same coins, which is
    what flushing, uncaching and reading do. *)
Inductive coin_chain : Z -> view -> CCoinsMap -> history -> Prop :=
| conn_genesis : coin_chain 0 ∅ ∅ []
| conn_block h base c hist block c' undo :
    coin_chain h base c hist -> joins h base c hist block c' undo ->
    coin_chain (h + 1) base c' (rev (map (fun tx => (tx, h + 1)) (vtx block)) ++ hist)
| conn_same h base c hist base' c' :
    coin_chain h base c hist -> unspent_view base' -> cache_ok base' c' -> view_of base' c' = view_of base c -> coin_chain h base' c' hist.

Definition chain_ok (h : Z) (base : view) (c : CCoinsMap) (hist : history) : Prop :=
  0 <= h /\ unspent_view base /\ cache_ok base c /\ kept_view (view_of base c) /\ hist_ok (view_of base c) hist h.

Lemma subsidy_bound h interval : 0 <= GetBlockSubsidy h interval <= 5000 * COIN.
Proof.
  unfold GetBlockSubsidy. destruct (Z.ltb_spec h 1); [by vm_compute|]. destruct (Z.leb_spec interval 0); [by vm_compute|]. destruct (64 <=? Z.quot h interval); [by vm_compute|].
  assert (Hq : 0 <= Z.quot h interval) by (apply Z.quot_pos; lia). rewrite Z.shiftr_div_pow2 by done. pose proof (Z.pow_pos_nonneg 2 (Z.quot h interval) ltac:(lia) Hq).
  unfold COIN. split; [by apply Z.div_pos|]. apply Z.div_le_upper_bound; [done|]. nia.
Qed.

Lemma minted_coinbase cb txs : IsCoinBase cb = true -> Forall (fun tx => IsCoinBase tx = false) txs -> minted (cb :: txs) = out_value cb.
Proof.
  intros Hcb Hn. change (minted (cb :: txs)) with ((if IsCoinBase cb then out_value cb else 0) + minted txs). rewrite Hcb.
  assert (minted txs = 0) as ->; [|lia]. induction Hn as [|tx txs Ht _ IH]; [done|]. change (minted (tx :: txs)) with ((if IsCoinBase tx then out_value tx else 0) + minted txs). rewrite Ht. lia.
Qed.

(** The shape of a checked block, and that its outputs are new. *)
Lemma checked_spec h base c hist block : nBIP34Enabled bp = true -> chain_ok h base c hist -> extends h hist block ->
  exists cb txs, vtx block = cb :: txs /\ IsCoinBase cb = true /\ Forall (fun tx => IsCoinBase tx = false) txs /\ Forall tx_checked (cb :: txs) /\
    fresh_block (view_of base c) (cb :: txs) (h + 1) /\
    (block_inputs (view_of base c) (cb :: txs) (h + 1) ->
     hist_ok (block_view (view_of base c) (cb :: txs) (h + 1)) (rev (map (fun tx => (tx, h + 1)) (cb :: txs)) ++ hist) (h + 1)).
Proof.
  intros Hb (Hh & Hbase & Hc & Hk & Hist) (((st & pool & blk & a & pow & root & Hcheck) & (a' & att & p & prev & Hp & Hprev & Hctx) & Hlim) & Hids).
  destruct (CheckBlock_txs _ _ _ _ _ _ _ Hcheck) as (cb & txs & Etx & Hcb & Hn & Hok). pose proof (ContextualCheckBlock_height _ _ _ _ _ Hb Hp Hctx) as Hch. rewrite Etx, Hprev in *. clear Hcheck Hctx.
  exists cb, txs. do 3 (split; [done|]). pose proof Hok as Hok'. apply Forall_cons in Hok' as [[Hcc Hne] Hrest]. destruct (tx_checked_ok cb Hcc) as [Hs _]. split.
  { eapply Forall_impl; [exact Hok|]. by intros tx [? _]. }
  apply (fresh_block_ok ap (view_of base c) hist h (h + 1) cb txs); try done; [lia|lia|]. apply List.Forall_forall. intros tx Hin.
  destruct (proj1 (List.Forall_forall _ _) Hrest tx Hin) as [[? _]%tx_checked_ok ?]. split_and!; [done..|]. by apply (proj1 (List.Forall_forall _ _) Hn).
Qed.

(** What connecting a checked block does to the coins, and to the state of the
    rest of the loop. *)
Lemma connect_spec {St} good (rules : loop_rules St) Inv s h base c hist block : nBIP34Enabled bp = true -> chain_ok h base c hist -> extends h hist block ->
  Forall good (vtx block) -> rules_keep base (fun tx => tx_checked tx /\ good tx) rules Inv -> Inv [] (view_of base c) s ->
  exists r, connect_coins ap base rules s c (h + 1) (nSubsidyHalvingInterval params) (vtx block) = Some r /\
    forall s' c' undo, r = Ok (s', c', undo) ->
      chain_ok (h + 1) base c' (rev (map (fun tx => (tx, h + 1)) (vtx block)) ++ hist) /\
      view_of base c' = block_view (view_of base c) (vtx block) (h + 1) /\ undo = tail (block_undo (view_of base c) (vtx block) (h + 1)) /\
      block_inputs (view_of base c) (vtx block) (h + 1) /\
      view_total (view_of base c') <= view_total (view_of base c) + GetBlockSubsidy (h + 1) (nSubsidyHalvingInterval params) /\ Inv (vtx block) (view_of base c') s'.
Proof.
  intros Hb Hok Hchk Hgood Hrules Hinv. destruct (checked_spec _ _ _ _ _ Hb Hok Hchk) as (cb & txs & Etx & Hcb & Hn & Hall & Hfresh & Hhist). rewrite Etx in *.
  assert (Hboth : Forall (fun tx => tx_checked tx /\ good tx) (cb :: txs)) by (by apply Forall_and).
  destruct Hok as (Hh & Hbase & Hc & Hk & Hist). pose proof (subsidy_bound (h + 1) (nSubsidyHalvingInterval params)) as Hsub.
  destruct (connect_txs_view ap base Hbase _ rules Inv (fun tx H => tx_checked_ok tx (proj1 H)) Hrules (h + 1) (cb :: txs) [] s c 0 ltac:(lia) Hc Hk Hboth Hfresh) as (r & Er & Hr); [by vm_compute|done|].
  pose proof Hall as [[_ Hv]%tx_checked_ok _]%Forall_cons. unfold connect_coins. rewrite Er, Hv. destruct r as [[[[s1 c1] fees] undos]|e]; [|by eexists].
  destruct (Z.ltb_spec (swrap 64 (fees + GetBlockSubsidy (h + 1) (nSubsidyHalvingInterval params))) (out_value cb)) as [|Hle]; [by eexists|]. eexists. split; [done|].
  intros s' c' undo E. injection E as <- <- <-. destruct (Hr _ _ _ _ eq_refl) as (R1 & R2 & R3 & R4 & R5 & R6 & R7 & R8).
  split; [unfold chain_ok; split_and!; [lia|done..|]; rewrite R2; by apply Hhist|]. split; [done|]. split; [by rewrite R4|]. split; [done|].
  rewrite minted_coinbase in R7 by done. rewrite swrap_small in Hle by (unfold MAX_MONEY, COIN in *; lia). split; [lia|done].
Qed.

(** Disconnecting a block from any cache of the coins it left. *)
Lemma disconnect_spec h base c hist block base1 c1 : nBIP34Enabled bp = true -> chain_ok h base c hist -> extends h hist block ->
  block_inputs (view_of base c) (vtx block) (h + 1) -> unspent_view base1 -> cache_ok base1 c1 -> view_of base1 c1 = block_view (view_of base c) (vtx block) (h + 1) ->
  exists c2, disconnect_coins base1 c1 (h + 1) (vtx block) (tail (block_undo (view_of base c) (vtx block) (h + 1))) = Some (c2, DISCONNECT_OK) /\
    cache_ok base1 c2 /\ view_of base1 c2 = view_of base c.
Proof.
  intros Hb Hok Hchk. destruct (checked_spec _ _ _ _ _ Hb Hok Hchk) as (cb & txs & Etx & Hcb & Hn & Hall & Hfresh & _). rewrite Etx. destruct Hok as (Hh & _ & _ & Hk & _).
  intros Hin Hb1 Hc1 Hv1. destruct (disconnect_txs_view ap base1 Hb1 (h + 1) (cb :: txs) true (view_of base c) c1) as (c2 & E2 & H2); [lia|done| |done..|].
  { eapply Forall_impl; [exact Hall|]. by intros tx [? _]%tx_checked_ok. }
  exists c2. split; [|done]. rewrite <-E2. unfold disconnect_coins. cbn [block_undo tail].
  assert ((zlen (block_undo (tx_view (view_of base c) cb (h + 1)) txs (h + 1)) + 1 =? zlen (cb :: txs)) = true) as ->
    by (apply Z.eqb_eq; rewrite zlen_cons; unfold zlen; rewrite block_undo_length; lia).
  cbn [negb zip zip_with undo_pairs map]. by rewrite <-undo_pairs_zip.
Qed.

Lemma coin_chain_ok h base c hist : nBIP34Enabled bp = true -> coin_chain h base c hist ->
  chain_ok h base c hist /\ view_total (view_of base c) <= total_subsidy (nSubsidyHalvingInterval params) (Z.to_nat h).
Proof.
  intros Hb. induction 1 as [|h base c hist block c' undo Hconn [IH1 IH2] Hj|h base c hist base' c' Hconn [IH1 IH2] Hu Hok Hv].
  - assert (He : view_of (∅ : view) ∅ = ∅) by (apply map_eq; intros o; by rewrite lookup_view_of). rewrite He. split; [|by vm_compute]. unfold chain_ok. rewrite He.
    split; [done|]. split; [by intros o coin Ho|]. split; [by intros o e Ho|]. split; [by intros o coin Ho|].
    split_and!; [by intros o coin Ho|intros t h Ht; by apply elem_of_nil in Ht..].
  - destruct Hj as (Hchk & Hids & St & good & rules & Inv & s & s' & Hg & Hrules & Hinv & Hj). destruct (connect_spec good rules Inv s _ _ _ _ _ Hb IH1 (conj Hchk Hids) Hg Hrules Hinv) as (r & E & Hr).
    rewrite Hj in E. injection E as <-. destruct (Hr _ _ _ eq_refl) as (H1 & _ & _ & _ & H2 & _). split; [done|]. destruct IH1 as [Hh _].
    replace (Z.to_nat (h + 1)) with (S (Z.to_nat h)) by lia. cbn [total_subsidy]. replace (Z.of_nat (S (Z.to_nat h))) with (h + 1) by lia. lia.
  - destruct IH1 as (Hh & _ & _ & Hk & Hi). split; [|by rewrite Hv]. unfold chain_ok. by rewrite Hv.
Qed.

(** C4. No coins from nothing. Whatever blocks a node connects on top of the
    genesis block, whatever is claimed, paid or assigned in them, and however
    its caches are flushed between them, all the unspent outputs together are
    worth at most the subsidies of the heights so far, which on the main
    network is never more than 20,999,994,999.727 XFER; every single one is
    worth between 0 and MAX_MONEY, is spendable, and is not the dummy outpoint
    of an identity claim. *)
Theorem unspent_total_bounded (h : Z) (base : view) (c : CCoinsMap) (hist : history) :
  nBIP34Enabled bp = true -> coin_chain h base c hist ->
  0 <= view_total (view_of base c) <= total_subsidy (nSubsidyHalvingInterval params) (Z.to_nat h) /\
  (nSubsidyHalvingInterval params = main_nSubsidyHalvingInterval -> view_total (view_of base c) <= 2099999499972700000) /\
  forall o coin, view_of base c !! o = Some coin ->
    0 <= nValue (coin_out coin) <= MAX_MONEY /\ IsUnspendable (scriptPubKey (coin_out coin)) = false /\ IsXAccountDummyPrevout o = false.
Proof.
  intros Hb Hc. destruct (coin_chain_ok _ _ _ _ Hb Hc) as [(_ & _ & _ & Hk & _) Ht]. split; [split; [apply view_sum_nonneg; intros o coin Ho; by destruct (Hk o coin Ho) as ((? & _) & _)|done]|]. split.
  - intros E. rewrite E in Ht. destruct (main_supply_cap (Z.to_nat h)) as [? _]. lia.
  - intros o coin Ho. destruct (Hk o coin Ho) as (H1 & H2 & _ & H3). done.
Qed.

(** C5. Connecting and disconnecting a block. Take a block that passes the checks
    on the tip of a chain, no two different transactions of which share an id, and
    which repeats no identity claim. It is connected to the coins of the chain
    without a failed assertion or an exception: it is rejected with a reason, or
    its inputs were all there when it was their turn, coinbases among them at least
    100 blocks old, and then disconnecting it with the undo data it left, from
    whatever cache holds the coins by then, is clean and restores the coins
    exactly. The rest of the loop is any that keeps an invariant of its own. *)
Theorem connect_disconnect (St : Type) (good : CTransaction -> Prop) (rules : loop_rules St) (Inv : list CTransaction -> view -> St -> Prop) (s : St) (h : Z) (base : view) (c : CCoinsMap) (hist : history) (block : CBlock) :
  nBIP34Enabled bp = true -> coin_chain h base c hist -> checked h block -> ids_new ap hist (vtx block) (h + 1) ->
  Forall good (vtx block) -> rules_keep base (fun tx => tx_checked tx /\ good tx) rules Inv -> Inv [] (view_of base c) s ->
  exists r, connect_coins ap base rules s c (h + 1) (nSubsidyHalvingInterval params) (vtx block) = Some r /\
    forall s' c' undo, r = Ok (s', c', undo) ->
      block_inputs (view_of base c) (vtx block) (h + 1) /\
      forall base1 c1, unspent_view base1 -> cache_ok base1 c1 -> view_of base1 c1 = view_of base c' ->
        exists c2, disconnect_coins base1 c1 (h + 1) (vtx block) undo = Some (c2, DISCONNECT_OK) /\ view_of base1 c2 = view_of base c.
Proof.
  intros Hb Hconn Hchk0 Hids Hgood Hrules Hinv. pose proof (conj Hchk0 Hids : extends h hist block) as Hchk. destruct (coin_chain_ok _ _ _ _ Hb Hconn) as [Hok _].
  destruct (connect_spec good rules Inv s _ _ _ _ _ Hb Hok Hchk Hgood Hrules Hinv) as (r & E & Hr). exists r. split; [done|].
  intros s' c' undo Er. destruct (Hr s' c' undo Er) as (_ & Hv & Hu & Hin & _). split; [done|]. intros base1 c1 Hb1 Hc1 Hv1. rewrite Hv in Hv1.
  destruct (disconnect_spec _ _ _ _ _ _ _ Hb Hok Hchk Hin Hb1 Hc1 Hv1) as (c2 & E2 & _ & Hv2). rewrite Hu. by exists c2.
Qed.
End Chain.

(** ** A block with a claim *)

Definition toy_block : CBlock :=
  Eval vm_compute in
  match assemble (H := toy_secp256k1) toy_main_hp toy_bp toy_params (toy_env (main_genesis_nTime + 70)) toy_node ([alice_claim], 0)
    0x30000000 (main_genesis_nTime + 70) (toy_script 3) 0 toy_tip with
  | Some (b, _, _) => b
  | None => mkBlock (mkHeader 0 [] [] 0 0 0 0 0 []) []
  end.

Lemma toy_checked : checked (secp := toy_secp256k1) toy_hash toy_full toy_main_hp toy_bp toy_params main_assets false 0 toy_block.
Proof.
  split; [|split; [|done]].
  - exists empty_xstate, empty_pool, true, (nd_arena toy_node), false, false. vm_compute. reflexivity.
  - exists (nd_arena toy_node), toy_seed, 0%nat, toy_tip. split; [exact toy_node_tip|]. split; [reflexivity|]. vm_compute. reflexivity.
Qed.
Lemma toy_ids : ids_new main_assets [] (vtx toy_block) (0 + 1).
Proof.
  split.
  - intros t h' Ht. destruct (proj1 (elem_of_nil _) Ht).
  - split; [|exact I]. intros t h' Ht He. exfalso. apply elem_of_cons in Ht as [Ht|Ht]; [|destruct (proj1 (elem_of_nil _) Ht)].
    assert (Hc : t = List.hd alice_claim (vtx toy_block)) by exact (f_equal fst Ht). rewrite Hc in He. vm_compute in He. discriminate He.
Qed.

Definition toy_rules : loop_rules unit := mkRules (fun _ s c _ => Some (c, Ok s)) (fun _ s _ _ => Some s).
Definition no_coins : view := ∅.
Definition no_entries : CCoinsMap := ∅.
Definition ok_or {A E} (d : A) (r : option (result A E)) : A := match r with Some (Ok p) => p | _ => d end.
Definition toy_connected : unit * CCoinsMap * list (list Coin) :=
  ok_or (tt, no_entries, []) (connect_coins main_assets no_coins toy_rules tt no_entries 1 main_nSubsidyHalvingInterval (vtx toy_block)).

Lemma toy_rules_keep good : rules_keep no_coins good toy_rules (fun _ _ _ => True).
Proof. intros h past s c tx Hc _ _ _ _ _. exists c, (Ok s). split_and!; [done..|]. intros s' _. by exists s'. Qed.

Definition is_ok {A E} (r : option (result A E)) : bool := match r with Some (Ok _) => true | _ => false end.
Lemma ok_or_ok {A B C E} (d : A * B * C) (r : option (result (A * B * C) E)) : is_ok r = true -> r = Some (Ok ((ok_or d r).1.1, (ok_or d r).1.2, (ok_or d r).2)).
Proof. by destruct r as [[[[]]|]|]. Qed.

Lemma toy_connects : connect_coins main_assets no_coins toy_rules tt no_entries 1 main_nSubsidyHalvingInterval (vtx toy_block) =
  Some (Ok (toy_connected.1.1, toy_connected.1.2, toy_connected.2)).
Proof.
  refine (ok_or_ok (tt, no_entries, []) (connect_coins main_assets no_coins toy_rules tt no_entries 1 main_nSubsidyHalvingInterval (vtx toy_block)) _). vm_compute. reflexivity.
Qed.
Lemma toy_joins : joins (secp := toy_secp256k1) toy_hash toy_full toy_main_hp toy_bp toy_params main_assets false 0 no_coins no_entries [] toy_block toy_connected.1.2 toy_connected.2.
Proof.
  split; [exact toy_checked|]. split; [exact toy_ids|]. exists unit, (fun _ => True), toy_rules, (fun _ _ _ => True), tt, toy_connected.1.1. split; [by apply Forall_true|]. split; [apply toy_rules_keep|]. exact (conj I toy_connects).
Qed.

(** The claim leaves two asset outputs beside the coinbase's. *)
Lemma unspent_total_bounded_witness :
  size (view_of no_coins toy_connected.1.2) = 3%nat /\ view_total (view_of no_coins toy_connected.1.2) = 5000 * COIN /\
  view_total (view_of no_coins toy_connected.1.2) <= total_subsidy main_nSubsidyHalvingInterval 1.
Proof.
  split; [vm_compute; reflexivity|]. split; [vm_compute; reflexivity|].
  refine (proj2 (proj1 (unspent_total_bounded (secp := toy_secp256k1) toy_hash toy_full toy_main_hp toy_bp toy_params main_assets false (0 + 1) no_coins toy_connected.1.2
    (rev (map (fun tx => (tx, 0 + 1)) (vtx toy_block)) ++ []) eq_refl _))).
  refine (conn_block _ _ _ _ _ _ _ 0 no_coins no_entries [] toy_block toy_connected.1.2 toy_connected.2 _ toy_joins). constructor.
Defined.

Lemma connect_disconnect_witness : exists c2,
  disconnect_coins no_coins toy_connected.1.2 1 (vtx toy_block) toy_connected.2 = Some (c2, DISCONNECT_OK) /\ view_of no_coins c2 = view_of no_coins no_entries.
Proof.
  destruct (connect_disconnect (secp := toy_secp256k1) toy_hash toy_full toy_main_hp toy_bp toy_params main_assets false unit (fun _ => True) toy_rules (fun _ _ _ => True) tt 0 no_coins no_entries [] toy_block
    eq_refl (conn_genesis _ _ _ _ _ _ _) toy_checked toy_ids (Forall_true _ _ (fun _ => I)) (toy_rules_keep _) I) as (r & E & Hr).
  assert (E' := toy_connects). change (connect_coins main_assets no_coins toy_rules tt no_entries 1 main_nSubsidyHalvingInterval (vtx toy_block) = Some r) in E.
  rewrite E' in E. apply (inj Some) in E.
  destruct (Hr toy_connected.1.1 toy_connected.1.2 toy_connected.2 (eq_sym E)) as [_ Hd]. refine (Hd no_coins toy_connected.1.2 _ _ eq_refl).
  - apply map_Forall_empty.
  - apply map_Forall_to_list. vm_compute. repeat constructor; discriminate.
Defined.
