(* ===== verification/TxAssets.v ===== *)
(** * The assets of a transaction

    [CheckTxAssets] of src/src/consensus/tx_verify.cpp with the contextual checks
    of src/src/assets/assets.cpp it calls: what a transaction does with assets is
    checked against the coins it spends and the assets that exist. Assets and
    messages are active from the genesis block on, restricted assets never are.
    The reasons of rejections leave out the asset name the code puts into some.
    Then what [AddCoins] and [SpendCoin] do to the asset cache for a transaction,
    and the asset part of the loop of [ConnectBlock]. *)

From stdpp Require Import gmap.
From S2P Require Import Prelude OrdMap Serialize Script Handle Slots Tx Merkle Chain Base58 AssetNames AssetScripts AssetTx XAssign XClaim VerifyAssets CheckTx.
From S2P Require Import Coins AssetCache Utxo.

Local Open Scope string_scope.
Local Open Scope list_scope.
Local Open Scope Z_scope.

(** ** Reading an output *)

Record CAssetOutputEntry := mkOutputEntry {
  ao_type : txnouttype; ao_assetName : bytes; ao_nAmount : Z; ao_destination : CTxDestination; ao_message : bytes; ao_expireTime : Z }.

(** A message a transfer of an owner token or a channel carries. *)
Record CMessage := mkMessage { ms_out : COutPoint; ms_strName : bytes; ms_ipfsHash : bytes; ms_nExpiredTime : Z; ms_time : Z }.

(** What the checks read besides coins and assets: the memory pool and the
    reissues it holds by name, whether the node reindexes, runs the public test
    network, gathers messages or checks for the pool, the clock and the time of
    the block; the rules on the verifier string and the frozen addresses of
    restricted assets, of which this chain has none. *)
Record asset_env := mkEnv {
  ae_fReindex : bool; ae_testnet : bool; ae_pool : XPool; ae_mapReissuedAssets : omap bytes bytes; ae_fCheckMempool : bool;
  ae_messaging : bool; ae_currentTime : Z; ae_nBlocktime : Z;
  ae_verifier_rules : CTransaction -> CReissueAsset -> option string; ae_frozen : bytes -> bytes -> bool }.

Section Params.
Variable ap : AssetParams.

(** [GetAssetData]: the branches that try a new asset again as a channel, a
    qualifier or a restricted asset fail where the first attempt failed. *)
Definition GetAssetData (script : CScript) : option CAssetOutputEntry :=
  let dest address := DecodeDestination (ap_prefixes ap) address in
  match IsAssetScript script with
  | Some (TX_NEW_ASSET, false, _) =>
      option_map (fun '(a, address) => mkOutputEntry TX_NEW_ASSET (strName a) (na_nAmount a) (dest address) [] 0) (AssetFromScript ap script)
  | Some (TX_TRANSFER_ASSET, _, _) =>
      option_map (fun '(t, address) => mkOutputEntry TX_TRANSFER_ASSET (tr_strName t) (tr_nAmount t) (dest address) (tr_message t) (tr_nExpireTime t))
        (TransferAssetFromScript ap script)
  | Some (TX_NEW_ASSET, true, _) =>
      option_map (fun '(name, address) => mkOutputEntry TX_NEW_ASSET name OWNER_ASSET_AMOUNT (dest address) [] 0) (OwnerAssetFromScript ap script)
  | Some (TX_REISSUE_ASSET, _, _) =>
      option_map (fun '(r, address) => mkOutputEntry TX_REISSUE_ASSET (re_strName r) (re_nAmount r) (dest address) [] 0) (ReissueAssetFromScript ap script)
  | _ => None
  end.

(** ** Contextual checks *)

Definition ContextualCheckTransferAsset (t : CAssetTransfer) : option string :=
  let assetType := name_type (tr_strName t) in
  first_error
    [ need (name_valid (tr_strName t)) "Invalid parameter: asset_name must only consist of valid characters and have a size between 3 and 32 characters. See help for more details.";
      need (0 <? tr_nAmount t) "Invalid parameter: asset amount can't be equal to or less than zero.";
      need (negb (bool_decide (tr_message t = []) && (0 <? tr_nExpireTime t)))
        "Invalid parameter: asset transfer expiration time requires a message to be attached to the transfer";
      need (0 <=? tr_nExpireTime t) "Invalid parameter: expiration time must be a positive value";
      (if bool_decide (tr_message t = []) then None else CheckEncoded (tr_message t));
      need (negb (is_type assetType [RESTRICTED; QUALIFIER; SUB_QUALIFIER])) "bad-txns-restricted-assets-removed" ].

Section Context.
Variable env : asset_env.
(** The cache of the block, or [passets] for the memory pool. *)
Variable this : CAssetsCache.

Definition ContextualCheckNewAsset (w : assets_global) (asset : CNewAsset) (fCheckMempool : bool) : assets_global * option string :=
  match CheckNewAsset asset with
  | Some e => (w, Some e)
  | None =>
      let '(w, exists_) := CheckIfAssetExists (ae_fReindex env) this w (strName asset) true in
      (w, first_error
        [ need (negb exists_) "Invalid parameter: asset_name has already been used";
          need (negb (fCheckMempool && om_mem (strName asset) (mapAssetToHash (ae_pool env)))) "Asset with this name is already in the mempool";
          need ((na_nHasIPFS asset =? 0) || (zlen (na_strIPFSHash asset) =? 34) || (zlen (na_strIPFSHash asset) =? 32))
            "Invalid parameter: ipfs_hash must be 46 characters. Txid must be valid 64 character hash";
          (if na_nHasIPFS asset =? 0 then None else CheckEncoded (na_strIPFSHash asset)) ])
  end.

Definition ContextualCheckReissueAsset (w : assets_global) (r : CReissueAsset) (tx : CTransaction) : assets_global * option string :=
  match ReissueAssetFromTransaction ap tx with
  | None => (w, Some "bad-txns-reissue-asset-contextual-check")
  | Some _ =>
      match CheckReissueAsset (ae_testnet env) r with
      | Some e => (w, Some e)
      | None =>
          let '(w, prev) := GetAssetMetaDataIfExists this w (re_strName r) in
          (w, match prev with
              | None => Some "Unable to reissue asset: asset_name doesn't exist in the database"
              | Some (prev_asset, _) =>
                  first_error
                    [ need (negb (na_nReissuable prev_asset =? 0)) "Unable to reissue asset: reissuable is set to false";
                      need (swrap 64 (na_nAmount prev_asset + re_nAmount r) <=? MAX_MONEY) "Unable to reissue asset: the amount trying to reissue is to large";
                      need (CheckAmountWithUnits (re_nAmount r) (na_units prev_asset))
                        "Unable to reissue asset: amount must be divisible by the smaller unit assigned to the asset";
                      need (negb ((re_nUnits r <? na_units prev_asset) && negb (re_nUnits r =? -1)))
                        "Unable to reissue asset: unit must be larger than current unit selection";
                      need (bool_decide (re_strIPFSHash r = []) || (zlen (re_strIPFSHash r) =? 34) || (zlen (re_strIPFSHash r) =? 32))
                        "Invalid parameter: ipfs_hash must be 34 bytes, Txid must be 32 bytes";
                      (if bool_decide (re_strIPFSHash r = []) then None else CheckEncoded (re_strIPFSHash r));
                      (if IsAssetNameAnRestricted (re_strName r) then ae_verifier_rules env tx r else None) ]
              end)
      end
  end.

Fixpoint ContextualCheckUniqueAssetTx (w : assets_global) (outs : list CTxOut) : assets_global * option string :=
  match outs with
  | [] => (w, None)
  | o :: outs =>
      if IsScriptNewUniqueAsset ap (scriptPubKey o) then
        match AssetFromScript ap (scriptPubKey o) with
        | None => (w, Some "bad-txns-issue-unique-serialization-failed")
        | Some (asset, _) =>
            match ContextualCheckNewAsset w asset false with
            | (w, Some e) => (w, Some e)
            | (w, None) => ContextualCheckUniqueAssetTx w outs
            end
        end
      else ContextualCheckUniqueAssetTx w outs
  end.

(** ** CheckTxAssets *)

Variable st : XState.
Variable base : view.

(** Amounts by name. *)
Definition add_total (name : bytes) (n : Z) (totals : omap bytes Z) : omap bytes Z :=
  om_insert name (match om_find name totals with Some q => swrap 64 (q + n) | None => n end) totals.
Definition total_of (name : bytes) (totals : omap bytes Z) : Z := default 0 (om_find name totals).

(** The inputs: the totals and the first address of each name. *)
Fixpoint asset_inputs (c : CCoinsMap) (tx : CTransaction) (n : nat) (ins : list CTxIn) (totals : omap bytes Z) (addresses : omap bytes bytes)
    : option (CCoinsMap * result (omap bytes Z * omap bytes bytes) (Z * string)) :=
  match ins with
  | [] => Some (c, Ok (totals, addresses))
  | i :: ins =>
      if IsXAccountDummyInput ap tx n then asset_inputs c tx (S n) ins totals addresses else
      let '(c, coin) := AccessCoin base c (prevout i) in
      if IsSpent coin then None else
      if negb (Coin_IsAsset coin) then asset_inputs c tx (S n) ins totals addresses else
      match GetAssetData (scriptPubKey (coin_out coin)) with
      | None => Some (c, reject 100 "bad-txns-failed-to-get-asset-from-script")
      | Some data =>
          if ao_nAmount data <? 0 then Some (c, reject 100 "bad-txns-input-asset-amount-negative") else
          if MAX_MONEY <? ao_nAmount data then Some (c, reject 100 "bad-txns-input-asset-amount-toolarge") else
          let totals := add_total (ao_assetName data) (ao_nAmount data) totals in
          if negb (MoneyRange (total_of (ao_assetName data) totals)) then Some (c, reject 100 "bad-txns-input-asset-totalInputs-toolarge") else
          let address := EncodeDestination (ap_prefixes ap) (ao_destination data) in
          if IsAssetNameAnRestricted (ao_assetName data) && ae_frozen env (ao_assetName data) address
          then Some (c, reject 100 "bad-txns-restricted-asset-transfer-from-frozen-address")
          else asset_inputs c tx (S n) ins totals (os_insert (ao_assetName data) address addresses)
      end
  end.

(** What the loop over the outputs gathers. *)
Record outs_found := mkFound { of_totals : omap bytes Z; of_messages : list CMessage; of_reissues : list (bytes * bytes) }.

Definition message_of (tx : CTransaction) (index : Z) (t : CAssetTransfer) (address : bytes) (addresses : omap bytes bytes) : list CMessage :=
  if ae_messaging env && (IsAssetNameAnOwner (tr_strName t) || IsAssetNameAnMsgChannel (tr_strName t)) && negb (bool_decide (tr_message t = [])) &&
     ((tr_nExpireTime t =? 0) || (ae_currentTime env <? tr_nExpireTime t)) && bool_decide (om_find (tr_strName t) addresses = Some address)
  then [mkMessage (mkOutPoint (GetHash tx) index) (tr_strName t) (tr_message t) (tr_nExpireTime t) (ae_nBlocktime env)] else [].

(** The units a transfer has to respect. *)
Definition transfer_units (w : assets_global) (t : CAssetTransfer) : assets_global * option (Z * string) :=
  if IsAssetNameAnOwner (tr_strName t)
  then (w, if tr_nAmount t =? OWNER_ASSET_AMOUNT then None else Some (100, "bad-txns-transfer-owner-amount-was-not-1"))
  else
    let '(w, asset) := GetAssetMetaDataIfExists this w (tr_strName t) in
    (w, match asset with
        | None => Some (100, "bad-txns-transfer-asset-not-exist")
        | Some (asset, _) =>
            if negb (bytes_eqb (strName asset) (tr_strName t)) then Some (100, "bad-txns-asset-database-corrupted") else
            if negb (CheckAmountWithUnits (tr_nAmount t) (na_units asset)) then Some (100, "bad-txns-transfer-asset-amount-not-match-units") else None
        end).

Definition asset_output (w : assets_global) (tx : CTransaction) (index : Z) (o : CTxOut) (addresses : omap bytes bytes) (f : outs_found)
    : assets_global * result outs_found (Z * string) :=
  if IsNullAsset (scriptPubKey o) then (w, reject 100 "bad-tx-null-asset-data-before-restricted-assets-activated") else
  match IsAssetScript (scriptPubKey o) with
  | Some (TX_TRANSFER_ASSET, _, _) =>
      match TransferAssetFromScript ap (scriptPubKey o) with
      | None => (w, reject 100 "bad-tx-asset-transfer-bad-deserialize")
      | Some (t, address) =>
          match ContextualCheckTransferAsset t with
          | Some e => (w, reject 100 e)
          | None =>
              if tr_nAmount t <? 0 then (w, reject 100 "bad-txns-transfer-asset-amount-negative") else
              if MAX_MONEY <? tr_nAmount t then (w, reject 100 "bad-txns-transfer-asset-amount-toolarge") else
              let totals := add_total (tr_strName t) (tr_nAmount t) (of_totals f) in
              if negb (MoneyRange (total_of (tr_strName t) totals)) then (w, reject 100 "bad-txns-transfer-asset-totalOutputs-toolarge") else
              match transfer_units w t with
              | (w, Some e) => (w, Err e)
              | (w, None) => (w, Ok (mkFound totals (of_messages f ++ message_of tx index t address addresses) (of_reissues f)))
              end
          end
      end
  | Some (TX_REISSUE_ASSET, _, _) =>
      match ReissueAssetFromScript ap (scriptPubKey o) with
      | None => (w, reject 100 "bad-tx-asset-reissue-bad-deserialize")
      | Some (r, _) =>
          match om_find (re_strName r) (ae_mapReissuedAssets env) with
          | Some hash => if bytes_eqb hash (GetHash tx) then (w, Ok f) else (w, reject 100 "bad-tx-reissue-chaining-not-allowed")
          | None => (w, Ok (mkFound (of_totals f) (of_messages f) (of_reissues f ++ [(re_strName r, GetHash tx)])))
          end
      end
  | _ => (w, Ok f)
  end.
Fixpoint asset_outputs (w : assets_global) (tx : CTransaction) (index : Z) (outs : list CTxOut) (addresses : omap bytes bytes) (f : outs_found)
    : assets_global * result outs_found (Z * string) :=
  match outs with
  | [] => (w, Ok f)
  | o :: outs =>
      match asset_output w tx index o addresses f with
      | (w, Err e) => (w, Err e)
      | (w, Ok f) => asset_outputs w tx (index + 1) outs addresses f
      end
  end.

Definition said (p : string) (r : assets_global * option string) : assets_global * option (Z * string) :=
  (r.1, match r.2 with None => None | Some e => Some (100, String.append p e) end).
(** The rules of the kind of transaction it is. *)
Definition issue_rules (w : assets_global) (tx : CTransaction) : assets_global * option (Z * string) :=
  if tx_IsNewAsset ap tx then
    match on_out None (last_out tx) (fun o => AssetFromScript ap (scriptPubKey o)) with
    | None => (w, Some (100, "bad-txns-issue-serialzation-failed"))
    | Some (asset, _) =>
        match ContextualCheckNewAsset w asset (ae_fCheckMempool env) with
        | (w, Some e) => (w, Some (100, e))
        | (w, None) =>
            (w, if negb (is_type (name_type (strName asset)) [ROOT]) then None else
                match ParseXAccountAssignment tx with
                | None => Some (100, "bad-txns-issue-root-missing-xaccount")
                | Some xid =>
                    if match CheckIfXAccountAssigned st (ae_pool env) xid with Some existing => negb (bytes_eqb existing (strName asset)) | None => false end
                    then Some (100, "bad-txns-xaccount-already-assigned") else
                    if ae_fCheckMempool env && match om_find xid (mapXAccountToHash (ae_pool env)) with Some hash => negb (bytes_eqb hash (GetHash tx)) | None => false end
                    then Some (100, "bad-txns-xaccount-already-in-mempool") else None
                end)
        end
    end
  else if tx_IsReissueAsset tx then
    match on_out None (last_out tx) (fun o => ReissueAssetFromScript ap (scriptPubKey o)) with
    | None => (w, Some (100, "bad-txns-reissue-serialzation-failed"))
    | Some (r, _) => said "bad-txns-reissue-contextual-" (ContextualCheckReissueAsset w r tx)
    end
  else if tx_IsNewUniqueAsset ap tx then said "bad-txns-issue-unique-contextual-" (ContextualCheckUniqueAssetTx w (vout tx))
  else if tx_IsNewMsgChannelAsset ap tx then
    match MsgChannelAssetFromTransaction ap tx with
    | None => (w, Some (100, "bad-txns-issue-msgchannel-serialzation-failed"))
    | Some (asset, _) => said "bad-txns-issue-msgchannel-contextual-" (ContextualCheckNewAsset w asset (ae_fCheckMempool env))
    end
  else if tx_IsNewQualifierAsset ap tx then (w, Some (100, "bad-txns-restricted-assets-removed"))
  else if tx_IsNewRestrictedAsset ap tx then (w, Some (100, "bad-txns-restricted-assets-removed"))
  else
    (w, first_error (map (fun o =>
       match IsAssetScript (scriptPubKey o) with
       | Some (TX_TRANSFER_ASSET, _, _) => None
       | Some _ => Some (100, "bad-txns-bad-asset-transaction")
       | None => if script_Find OP_RVN_ASSET (scriptPubKey o) =? 0 then None else Some (100, "bad-txns-bad-asset-script")
       end) (vout tx))).

(** The totals of the outputs against those of the inputs. *)
Fixpoint totals_match (ins outs : omap bytes Z) : option (Z * string) :=
  match outs with
  | [] => None
  | (name, n) :: outs =>
      match om_find name ins with
      | None => Some (100, "bad-tx-inputs-outputs-mismatch Bad Transaction - Trying to create outpoint for asset that you don't have")
      | Some m => if m =? n then totals_match ins outs else Some (100, "bad-tx-inputs-outputs-mismatch Bad Transaction - Assets would be burnt")
      end
  end.

(** [CheckTxAssets]: the messages and the reissues, or the score and reason of the
    rejection; [None] is the failed assertion. *)
Definition CheckTxAssets (c : CCoinsMap) (w : assets_global) (tx : CTransaction)
    : option (CCoinsMap * assets_global * result (list CMessage * list (bytes * bytes)) (Z * string)) :=
  let '(c, have) := HaveInputs ap base c tx in
  if negb have then Some (c, w, reject 100 "bad-txns-inputs-missing-or-spent") else
  match asset_inputs c tx 0 (vin tx) [] [] with
  | None => None
  | Some (c, Err e) => Some (c, w, Err e)
  | Some (c, Ok (totalInputs, mapAddresses)) =>
      match asset_outputs w tx 0 (vout tx) mapAddresses (mkFound [] [] []) with
      | (w, Err e) => Some (c, w, Err e)
      | (w, Ok f) =>
          match issue_rules w tx with
          | (w, Some e) => Some (c, w, Err e)
          | (w, None) =>
              Some (c, w,
                match totals_match totalInputs (of_totals f) with
                | Some e => Err e
                | None =>
                    if negb (zlen (of_totals f) =? zlen totalInputs) then reject 100 "bad-tx-asset-inputs-size-does-not-match-outputs-size"
                    else Ok (of_messages f, of_reissues f)
                end)
          end
      end
  end.

End Context.
(** ** Updating the asset cache *)

Definition CNewAsset_null : CNewAsset := mkNewAsset [] 0 MAX_UNIT 0 0 [].
Definition CReissueAsset_null : CReissueAsset := mkReissue [] 0 0 1 [].

Section Update.
Variables fReindex fAssetIndex : bool.
Variable unset : Z.

Abbreviation caches := (CAssetsCache * assets_global)%type.

(** The code goes on when an asset cannot be added. *)
Definition add_new (s : caches) (asset : CNewAsset) (address : bytes) (nHeight : Z) (blockHash : bytes) : caches :=
  (AddNewAsset fReindex fAssetIndex s.1 s.2 asset address nHeight blockHash).1.
Definition add_found (s : caches) (found : option (CNewAsset * bytes)) (nHeight : Z) (blockHash : bytes) : caches :=
  let '(asset, address) := default (CNewAsset_null, []) found in add_new s asset address nHeight blockHash.

(** The first part of [AddCoins]: what the transaction issues or reissues, and the
    undo data of a reissue that changes the hash or the units. *)
Definition add_issued (s : caches) (tx : CTransaction) (nHeight : Z) (blockHash : bytes) : caches * option (bytes * CBlockAssetUndo) :=
  if tx_IsNewAsset ap tx then
    let s := add_found s (AssetFromTransaction ap tx) nHeight blockHash in
    let '(ownerName, ownerAddress) := default ([], []) (OwnerFromTransaction ap tx) in
    ((AddOwnerAsset fAssetIndex s.1 ownerName ownerAddress, s.2), None)
  else if tx_IsReissueAsset tx then
    let '(reissue, address) := default (CReissueAsset_null, []) (ReissueAssetFromTransaction ap tx) in
    let '(w, found) := GetAssetMetaDataIfExists s.1 s.2 (re_strName reissue) in
    let asset := match found with Some (a, _) => a | None => CNewAsset_null end in
    let r := AddReissueAsset fAssetIndex unset s.1 w reissue address (mkOutPoint (GetHash tx) (zlen (vout tx) - 1)) in
    let fIPFSChanged := negb (bool_decide (re_strIPFSHash reissue = [])) in
    let fUnitsChanged := negb (re_nUnits reissue =? -1) in
    (r.1, if fIPFSChanged || fUnitsChanged then Some (re_strName reissue, mkAssetUndo fIPFSChanged fUnitsChanged (na_strIPFSHash asset) (na_units asset)) else None)
  else if tx_IsNewUniqueAsset ap tx then
    (fold_left (fun s o => if IsScriptNewUniqueAsset ap (scriptPubKey o) then add_found s (AssetFromScript ap (scriptPubKey o)) nHeight blockHash else s) (vout tx) s, None)
  else if tx_IsNewMsgChannelAsset ap tx then (add_found s (MsgChannelAssetFromTransaction ap tx) nHeight blockHash, None)
  else if tx_IsNewQualifierAsset ap tx then (add_found s (QualifierAssetFromTransaction ap tx) nHeight blockHash, None)
  else if tx_IsNewRestrictedAsset ap tx then (add_found s (RestrictedAssetFromTransaction ap tx) nHeight blockHash, None)
  else (s, None).

(** The loop of [AddCoins] over the outputs. *)
Fixpoint add_transfers (s : caches) (txid : bytes) (n : Z) (outs : list CTxOut) : caches :=
  match outs with
  | [] => s
  | o :: outs =>
      let t := match GetAssetData (scriptPubKey o) with
               | Some data =>
                   if bool_decide (ao_type data = TX_TRANSFER_ASSET) && (0 <? ao_nAmount data) then
                     AddTransferAsset fAssetIndex s.1 s.2
                       (mkTransfer (ao_assetName data) (ao_nAmount data) (ao_message data) (if bool_decide (ao_message data = []) then 0 else ao_expireTime data))
                       (EncodeDestination (ap_prefixes ap) (ao_destination data)) (mkOutPoint txid n)
                   else s.1
               | None => s.1
               end in
      add_transfers (t, s.2) txid (n + 1) outs
  end.

(** The coins a transaction spends; [None] is the failed assertion of [UpdateCoins]. *)
Fixpoint spend_assets (s : caches) (coins : list Coin) : option caches :=
  match coins with
  | [] => Some s
  | coin :: coins =>
      match TrySpendCoin fAssetIndex ap s.1 s.2 (coin_out coin) with
      | (_, false) => None
      | (t, true) => spend_assets (t, s.2) coins
      end
  end.
(** The asset cache in [UpdateCoins], with the coins of the inputs that are not a dummy. *)
Definition update_assets (s : caches) (tx : CTransaction) (spent : list Coin) (nHeight : Z) (blockHash : bytes)
    : option (caches * option (bytes * CBlockAssetUndo)) :=
  match spend_assets s spent with
  | None => None
  | Some s =>
      let '(s, undo) := add_issued s tx nHeight blockHash in
      Some (add_transfers s (GetHash tx) 0 (vout tx), undo)
  end.

(** ** The loop of ConnectBlock *)

(** What a block changes besides the coins: its asset cache over the shared ones,
    the identity assignments, and the asset undo data. *)
Record asset_state := mkAssets {
  as_cache : CAssetsCache; as_global : assets_global; as_accounts : XState; as_undo : list (bytes * CBlockAssetUndo) }.

Variable env : asset_env.
Variable base : view.
(** Sequence locks, signature operations and scripts. *)
Variable other_rules : Z -> CCoinsMap -> CTransaction -> option (Z * string).
(** Whether the write of an assignment succeeds. *)
Variable fWritten : bool.
Variable blockHash : bytes.

Definition asset_check (nHeight : Z) (s : asset_state) (c : CCoinsMap) (tx : CTransaction) : option (CCoinsMap * result asset_state (Z * string)) :=
  let others c s := match other_rules nHeight c tx with Some e => Some (c, Err e) | None => Some (c, Ok s) end in
  if IsCoinBase tx then others c s else
  match CheckTxAssets env (as_cache s) (as_accounts s) base c (as_global s) tx with
  | None => None
  | Some (c, _, Err e) => Some (c, Err e)
  | Some (c, w, Ok _) => others c (mkAssets (as_cache s) w (as_accounts s) (as_undo s))
  end.
(** The coins spent, which the dummy input of a claim is not. *)
Definition spent_coins (ins : list CTxIn) (undo : list Coin) : list Coin :=
  map snd (filter (fun p => IsXAccountDummyPrevout (prevout p.1) = false) (zip ins undo)).
Definition asset_update (nHeight : Z) (s : asset_state) (tx : CTransaction) (undo : list Coin) : option asset_state :=
  match update_assets (as_cache s, as_global s) tx (spent_coins (vin tx) undo) nHeight blockHash with
  | None => None
  | Some ((t, w), u) =>
      Some (mkAssets t w (connect_assignment ap fWritten tx (as_accounts s))
        (as_undo s ++ match u with Some item => if bool_decide (item.1 = []) then [] else [item] | None => [] end))
  end.
Definition asset_loop : loop_rules asset_state := mkRules asset_check asset_update.

End Update.
End Params.

(** ** Units *)

Section Units.
Variable ap : AssetParams.

(** The units of an asset in an output, in a coin; moved by a transfer, or made. *)
Definition script_units (name : bytes) (script : CScript) : Z :=
  match GetAssetData ap script with Some d => if bytes_eqb (ao_assetName d) name then ao_nAmount d else 0 | None => 0 end.
Definition coin_units (name : bytes) (coin : Coin) : Z := script_units name (scriptPubKey (coin_out coin)).
Definition is_transfer (o : CTxOut) : bool := bool_decide (is_Some (IsScriptTransferAsset (scriptPubKey o))).
Definition moved_units (name : bytes) (o : CTxOut) : Z := if is_transfer o then script_units name (scriptPubKey o) else 0.
Definition made_units (name : bytes) (o : CTxOut) : Z := if is_transfer o then 0 else script_units name (scriptPubKey o).

Lemma units_split name o : script_units name (scriptPubKey o) = moved_units name o + made_units name o.
Proof. unfold moved_units, made_units. destruct (is_transfer o); lia. Qed.
Lemma is_transfer_iff o : is_transfer o = true <-> exists own n, IsAssetScript (scriptPubKey o) = Some (TX_TRANSFER_ASSET, own, n).
Proof.
  unfold is_transfer, IsScriptTransferAsset. rewrite bool_decide_eq_true.
  destruct (IsAssetScript (scriptPubKey o)) as [[[[] b] n]|]; split; try (by intros []); try (by intros (? & ? & ?)); by eauto.
Qed.
Lemma transfer_data o own n : IsAssetScript (scriptPubKey o) = Some (TX_TRANSFER_ASSET, own, n) ->
  GetAssetData ap (scriptPubKey o) = option_map (fun '(t, address) => mkOutputEntry TX_TRANSFER_ASSET (tr_strName t) (tr_nAmount t)
    (DecodeDestination (ap_prefixes ap) address) (tr_message t) (tr_nExpireTime t)) (TransferAssetFromScript ap (scriptPubKey o)).
Proof. intros E. unfold GetAssetData. by rewrite E. Qed.

(** *** Totals *)

Definition totals_ok (totals : omap bytes Z) : Prop := om_wf totals /\ forall name q, om_find name totals = Some q -> 0 <= q <= MAX_MONEY.
Lemma totals_ok_nil : totals_ok [].
Proof. split; [apply om_wf_nil|done]. Qed.
Lemma total_range totals name : totals_ok totals -> 0 <= total_of name totals <= MAX_MONEY.
Proof. intros [_ H]. unfold total_of. destruct (om_find name totals) eqn:E; [by apply (H name)|by vm_compute]. Qed.

Lemma add_total_ok name n totals : totals_ok totals -> 0 <= n <= MAX_MONEY -> MoneyRange (total_of name (add_total name n totals)) = true ->
  totals_ok (add_total name n totals) /\ forall x, total_of x (add_total name n totals) = total_of x totals + if bytes_eqb name x then n else 0.
Proof.
  intros Ht Hn. pose proof (total_range totals name Ht) as Hr.
  assert (E : match om_find name totals with Some q => swrap 64 (q + n) | None => n end = total_of name totals + n).
  { revert Hr. unfold total_of. destruct (om_find name totals); cbn [default]; [intros; apply swrap_small; [lia|unfold MAX_MONEY, COIN in *; lia]|lia]. }
  unfold add_total. rewrite E. unfold total_of at 1. rewrite om_find_insert_eq. cbn [default]. intros Hm%MoneyRange_iff. destruct Ht as [Hwf Hb]. split.
  - split; [by apply om_wf_insert|]. intros x q. rewrite om_find_insert. case_decide; [by intros [= <-]|apply Hb].
  - intros x. unfold total_of at 1. rewrite om_find_insert. destruct (bytes_eqb name x) eqn:Ex.
    + apply bytes_eqb_eq in Ex as ->. by rewrite decide_True.
    + rewrite decide_False; [unfold total_of; lia|]. intros ->. by rewrite (proj2 (bytes_eqb_eq x x) eq_refl) in Ex.
Qed.

Lemma totals_match_eq ins outs : om_wf ins -> om_wf outs -> totals_match ins outs = None -> zlen outs = zlen ins -> forall name, om_find name outs = om_find name ins.
Proof.
  intros Hi Ho Hm Hl. assert (Hin : forall name q, (name, q) ∈ outs -> om_find name ins = Some q).
  { clear Ho Hl. induction outs as [|[x q] outs IH]; intros name q' Hx; [by apply elem_of_nil in Hx|]. cbn [totals_match] in Hm.
    destruct (om_find x ins) as [m|] eqn:E; [|done]. destruct (Z.eqb_spec m q); [|done]. apply elem_of_cons in Hx as [[= -> ->]|Hx]; [by subst|by apply IH]. }
  intros name. destruct (om_find name outs) as [q|] eqn:E; [symmetry; by apply Hin, om_find_Some_in|].
  destruct (om_find name ins) as [q|] eqn:Ei; [|done]. exfalso. apply om_find_Some_in in Ei.
  assert (Hsub : om_keys outs ⊆ om_keys ins).
  { intros k [v Hv]%om_keys_in. apply om_keys_in. exists v. by apply om_find_Some_in, Hin. }
  assert (Hk : name ∈ om_keys outs).
  { apply list_elem_of_In, (NoDup_length_incl (l := om_keys outs) (l' := om_keys ins)).
    - apply NoDup_ListNoDup. by apply om_keys_NoDup.
    - unfold om_keys. rewrite !length_fmap. unfold zlen in Hl. lia.
    - intros k Hk. apply list_elem_of_In, Hsub. by apply list_elem_of_In.
    - apply list_elem_of_In, om_keys_in. by exists q. }
  apply om_keys_find in Hk as [v Hv]; [|done]. congruence.
Qed.
End Units.

(** ** Conservation *)

Section Conservation.
Variable ap : AssetParams.
Variable env : asset_env.
Variable this : CAssetsCache.
Variable st : XState.
Variable base : view.
Hypothesis Hbase : unspent_view base.

Lemma GetAssetData_asset script : is_asset_script script = false -> GetAssetData ap script = None.
Proof. unfold is_asset_script, GetAssetData. by destruct (IsAssetScript script). Qed.

Lemma asset_inputs_units tx ins : forall n c totals addresses c' T A, cache_ok base c -> dummies ap tx n ins -> totals_ok totals ->
  asset_inputs ap env base c tx n ins totals addresses = Some (c', Ok (T, A)) ->
  cache_ok base c' /\ view_of base c' = view_of base c /\ totals_ok T /\
  forall name, total_of name T = total_of name totals + in_sum (coin_units ap name) (view_of base c) ins.
Proof.
  induction ins as [|i ins IH]; intros n c totals addresses c' T A Hc Hd Ht; cbn [asset_inputs].
  { intros [= <- <- <-]. split_and!; [done..|]. intros name. unfold in_sum. cbn. lia. }
  apply dummies_cons in Hd as [Hi Hd]. rewrite Hi. destruct (IsXAccountDummyPrevout (prevout i)) eqn:Ed.
  { intros E. destruct (IH _ _ _ _ _ _ _ Hc Hd Ht E) as (H1 & H2 & H3 & H4). split_and!; [done..|]. intros name. rewrite in_sum_cons, Ed, H4. lia. }
  destruct (AccessCoin_view base Hbase c (prevout i) Hc) as (c1 & Hc1 & Hv1 & Hacc).
  destruct (view_of base c !! prevout i) as [coin|] eqn:Ev; [|by destruct Hacc as (coin & -> & ->)]. rewrite Hacc. destruct (IsSpent coin); [done|].
  destruct (Coin_IsAsset coin) eqn:Ea; cbn [negb].
  - destruct (GetAssetData ap (scriptPubKey (coin_out coin))) as [d|] eqn:Eg; [|done].
    destruct (Z.ltb_spec (ao_nAmount d) 0); [done|]. destruct (Z.ltb_spec MAX_MONEY (ao_nAmount d)); [done|]. cbv zeta.
    destruct (MoneyRange _) eqn:Em; [|done]. cbn [negb]. destruct (add_total_ok (ao_assetName d) (ao_nAmount d) totals Ht) as [Ht' Hsum]; [lia|done|].
    destruct (_ && _); [done|]. intros E. destruct (IH _ _ _ _ _ _ _ Hc1 Hd Ht' E) as (H1 & H2 & H3 & H4). rewrite Hv1 in H2, H4. split_and!; [done..|].
    intros name. rewrite in_sum_cons, Ed, Ev, H4, Hsum. change (default Coin_empty (Some coin)) with coin.
    assert (coin_units ap name coin = if bytes_eqb (ao_assetName d) name then ao_nAmount d else 0) as -> by (unfold coin_units, script_units; by rewrite Eg). lia.
  - intros E. destruct (IH _ _ _ _ _ _ _ Hc1 Hd Ht E) as (H1 & H2 & H3 & H4). rewrite Hv1 in H2, H4. split_and!; [done..|].
    intros name. rewrite in_sum_cons, Ed, Ev, H4. change (default Coin_empty (Some coin)) with coin.
    assert (coin_units ap name coin = 0) as -> by (unfold coin_units, script_units; by rewrite GetAssetData_asset). lia.
Qed.

(** The assertion on the coins holds: [HaveInputs] has found them unspent. *)
Lemma asset_inputs_total tx ins : forall n c totals addresses, cache_ok base c -> dummies ap tx n ins -> inputs_in (view_of base c) ins ->
  exists c' r, asset_inputs ap env base c tx n ins totals addresses = Some (c', r) /\ cache_ok base c' /\ view_of base c' = view_of base c.
Proof.
  induction ins as [|i ins IH]; intros n c totals addresses Hc Hd Hin; cbn [asset_inputs]; [by exists c; eexists|].
  apply dummies_cons in Hd as [Hi Hd]. apply Forall_cons in Hin as [H1 Hin]. rewrite Hi. destruct (IsXAccountDummyPrevout (prevout i)) eqn:Ed; [by apply IH|].
  destruct (AccessCoin_view base Hbase c (prevout i) Hc) as (c1 & Hc1 & Hv1 & Hacc). destruct (H1 eq_refl) as [coin Ev]. rewrite Ev in Hacc. rewrite Hacc, (view_of_unspent base c Hbase _ _ Ev).
  rewrite <-Hv1 in Hin |- *. destruct (Coin_IsAsset coin); cbn [negb]; [|by apply IH]. destruct (GetAssetData ap _) as [d|]; [|by exists c1; eexists].
  destruct (_ <? _); [by exists c1; eexists|]. destruct (_ <? _); [by exists c1; eexists|]. cbv zeta. destruct (negb _); [by exists c1; eexists|]. destruct (_ && _); [by exists c1; eexists|].
  by apply IH.
Qed.

(** What an output that passes is. *)
Definition out_checked (o : CTxOut) : Prop :=
  IsNullAsset (scriptPubKey o) = false /\
  (is_transfer o = true -> exists t address, TransferAssetFromScript ap (scriptPubKey o) = Some (t, address) /\ 0 < tr_nAmount t <= MAX_MONEY /\
     name_valid (tr_strName t) = true /\ name_type (tr_strName t) ∉ [RESTRICTED; QUALIFIER; SUB_QUALIFIER]).

Lemma ContextualCheckTransferAsset_None t : ContextualCheckTransferAsset t = None ->
  0 < tr_nAmount t /\ name_valid (tr_strName t) = true /\ name_type (tr_strName t) ∉ [RESTRICTED; QUALIFIER; SUB_QUALIFIER].
Proof.
  unfold ContextualCheckTransferAsset. intros H. apply first_error_none in H. do 2 (apply Forall_cons in H as [? H]). do 3 (apply Forall_cons in H as [_ H]).
  apply Forall_cons in H as [H3 _]. rewrite need_none in *. split; [by apply Z.ltb_lt|]. split; [done|]. apply negb_true_iff, not_true_iff_false in H3. by rewrite is_type_iff in H3.
Qed.

Lemma asset_output_units w tx index o addresses f w' f' : totals_ok (of_totals f) -> asset_output ap env this w tx index o addresses f = (w', Ok f') ->
  out_checked o /\ totals_ok (of_totals f') /\ forall name, total_of name (of_totals f') = total_of name (of_totals f) + moved_units ap name o.
Proof.
  intros Ht. unfold asset_output. destruct (IsNullAsset (scriptPubKey o)) eqn:En; [done|].
  destruct (is_transfer o) eqn:Et.
  - apply is_transfer_iff in Et as Et'. destruct Et' as (own & n & Es). rewrite Es. destruct (TransferAssetFromScript ap (scriptPubKey o)) as [[t address]|] eqn:Ef; [|done].
    destruct (ContextualCheckTransferAsset t) eqn:Ec; [done|]. apply ContextualCheckTransferAsset_None in Ec as (Hpos & Hvalid & Htype).
    destruct (Z.ltb_spec (tr_nAmount t) 0); [done|]. destruct (Z.ltb_spec MAX_MONEY (tr_nAmount t)); [done|]. cbv zeta. destruct (MoneyRange _) eqn:Em; [|done]. cbn [negb].
    destruct (add_total_ok (tr_strName t) (tr_nAmount t) (of_totals f) Ht) as [Ht' Hsum]; [lia|done|]. destruct (transfer_units this w t) as [w1 [e|]]; [done|]. intros [= <- <-].
    split; [split; [done|]; intros _; exists t, address; split_and!; [done|lia|lia|done..]|]. split; [done|]. intros name. cbn [of_totals]. rewrite Hsum. unfold moved_units, script_units.
    rewrite Et, (transfer_data ap o own n Es), Ef. cbn. lia.
  - assert (Hn : forall own n, IsAssetScript (scriptPubKey o) <> Some (TX_TRANSFER_ASSET, own, n)) by (intros own n E; apply not_true_iff_false in Et; apply Et, is_transfer_iff; eauto).
    intros E. assert (of_totals f' = of_totals f) as ->.
    { revert E. destruct (IsAssetScript (scriptPubKey o)) as [[[[] own] n]|]; try (by intros [= <- <-]); [|by destruct (Hn own n)].
      destruct (ReissueAssetFromScript ap (scriptPubKey o)) as [[r ?]|]; [|done]. destruct (om_find _ _) as [hash|]; [destruct (bytes_eqb _ _); [|done]|]; by intros [= <- <-]. }
    split; [split; [done|by rewrite Et]|]. split; [done|]. intros name. unfold moved_units. rewrite Et. lia.
Qed.

Lemma asset_outputs_units tx addresses outs : forall w index f w' f', totals_ok (of_totals f) -> asset_outputs ap env this w tx index outs addresses f = (w', Ok f') ->
  Forall out_checked outs /\ totals_ok (of_totals f') /\ forall name, total_of name (of_totals f') = total_of name (of_totals f) + sumZ (map (moved_units ap name) outs).
Proof.
  induction outs as [|o outs IH]; intros w index f w' f' Ht; cbn [asset_outputs map].
  { intros [= <- <-]. split_and!; [constructor|done|]. intros name. cbn. lia. }
  destruct (asset_output ap env this w tx index o addresses f) as [w1 [f1|e]] eqn:E1; [|done]. destruct (asset_output_units _ _ _ _ _ _ _ _ Ht E1) as (H1 & H2 & H3).
  intros E. destruct (IH _ _ _ _ _ H2 E) as (H4 & H5 & H6). split_and!; [by constructor|done|]. intros name. rewrite H6, H3. change (sumZ (?x :: ?l)) with (x + sumZ l). lia.
Qed.

(** The parts of an accepted transaction. *)
Lemma CheckTxAssets_Ok c w tx c' w' r : cache_ok base c -> dummies ap tx 0 (vin tx) -> CheckTxAssets ap env this st base c w tx = Some (c', w', Ok r) ->
  cache_ok base c' /\ view_of base c' = view_of base c /\ (IsCoinBase tx = false -> inputs_in (view_of base c) (vin tx)) /\ Forall out_checked (vout tx) /\
  (exists A f w1, asset_outputs ap env this w tx 0 (vout tx) A (mkFound [] [] []) = (w1, Ok f) /\ issue_rules ap env this st w1 tx = (w', None)) /\
  forall name, sumZ (map (moved_units ap name) (vout tx)) = in_sum (coin_units ap name) (view_of base c) (vin tx) /\
    0 <= in_sum (coin_units ap name) (view_of base c) (vin tx) <= MAX_MONEY.
Proof.
  intros Hc Hd. unfold CheckTxAssets.
  assert (Hh : cache_ok base (HaveInputs ap base c tx).1 /\ view_of base (HaveInputs ap base c tx).1 = view_of base c /\
    ((HaveInputs ap base c tx).2 = true -> IsCoinBase tx = false -> inputs_in (view_of base c) (vin tx))).
  { unfold HaveInputs. destruct (IsCoinBase tx); [by split_and!|]. destruct (have_inputs_view ap base Hbase tx (vin tx) 0 c Hc Hd) as (H1 & H2 & H3). split_and!; [done..|]. intros E _. by apply H3. }
  destruct (HaveInputs ap base c tx) as [c1 have]. cbn [fst snd] in Hh. destruct Hh as (Hc1 & Hv1 & Hin). destruct have; cbn [negb]; [|done]. specialize (Hin eq_refl).
  destruct (asset_inputs ap env base c1 tx 0 (vin tx) [] []) as [[c2 [[T A]|e]]|] eqn:Ei; [|done..].
  destruct (asset_inputs_units _ _ _ _ _ _ _ _ _ Hc1 Hd totals_ok_nil Ei) as (Hc2 & Hv2 & HT & HTs).
  destruct (asset_outputs ap env this w tx 0 (vout tx) A (mkFound [] [] [])) as [w1 [f|e]] eqn:Eo; [|done].
  destruct (asset_outputs_units _ _ _ _ _ (mkFound [] [] []) _ _ totals_ok_nil Eo) as (Hout & Hf & Hfs).
  destruct (issue_rules ap env this st w1 tx) as [w2 [e|]] eqn:Er; [done|]. destruct (totals_match T (of_totals f)) eqn:Em; [done|].
  destruct (Z.eqb_spec (zlen (of_totals f)) (zlen T)) as [El|]; [|done]. cbn [negb]. intros [= <- <- <-].
  split_and!; [done|by rewrite Hv2, Hv1|done|done|by exists A, f, w1|]. intros name.
  pose proof (totals_match_eq T (of_totals f) (proj1 HT) (proj1 Hf) Em El name) as Hsame. specialize (HTs name). specialize (Hfs name).
  assert (Ht : total_of name (of_totals f) = total_of name T) by (unfold total_of; by rewrite Hsame). pose proof (total_range T name HT). rewrite Hv1 in HTs.
  change (total_of name []) with 0 in HTs. cbn [of_totals] in Hfs. change (total_of name []) with 0 in Hfs. lia.
Qed.

Lemma CheckTxAssets_total c w tx : cache_ok base c -> dummies ap tx 0 (vin tx) -> IsCoinBase tx = false ->
  exists c' w' r, CheckTxAssets ap env this st base c w tx = Some (c', w', r) /\ cache_ok base c' /\ view_of base c' = view_of base c.
Proof.
  intros Hc Hd Hcb. unfold CheckTxAssets, HaveInputs. rewrite Hcb. destruct (have_inputs_view ap base Hbase tx (vin tx) 0 c Hc Hd) as (H1 & H2 & H3).
  destruct (have_inputs ap base c tx 0 (vin tx)) as [c1 have]. cbn [fst snd] in *. destruct have; cbn [negb]; [|by eexists _, _, _]. specialize (H3 eq_refl). rewrite <-H2 in H3 |- *.
  destruct (asset_inputs_total tx (vin tx) 0 c1 [] [] H1 Hd H3) as (c2 & r & -> & Hc2 & Hv2). destruct r as [[T A]|e]; [|by eexists _, _, _].
  destruct (asset_outputs _ _ _ _ _ _ _ _ _) as [w1 [f|e]]; [|by eexists _, _, _]. destruct (issue_rules _ _ _ _ _ _) as [w2 [e|]]; by eexists _, _, _.
Qed.
End Conservation.
