(* ===== verification/Supply.v ===== *)
(** * The supply of assets

    What the checks of a transaction (src/src/consensus/tx_verify.cpp), the coins
    (src/src/coins.cpp, src/src/validation.cpp) and the asset cache
    (src/src/assets/assets.cpp) come to together: who can issue and reissue, and
    how many units of an asset there can be. *)

From stdpp Require Import gmap.
From S2P Require Import Prelude OrdMap Serialize Script Handle Slots Tx Merkle Chain Base58 Regex AssetNames AssetScripts AssetTx XAssign XClaim VerifyAssets.
From S2P Require Import Pow Headers Draw Key Attest Registry Coinbase Blocks CheckTx Coins Producer AssetCache Utxo TxAssets.

Local Open Scope string_scope.
Local Open Scope list_scope.
Local Open Scope Z_scope.

(** ** Sums over outputs of a kind *)

Definition outs_of (p : CTxOut -> bool) (outs : list CTxOut) : list CTxOut := filter (fun o => p o = true) outs.

Lemma sum_outs_of (f : CTxOut -> Z) p outs : (forall o, p o = false -> f o = 0) -> sumZ (map f outs) = sumZ (map f (outs_of p outs)).
Proof.
  intros Hf. unfold outs_of. induction outs as [|o outs IH]; [done|]. rewrite filter_cons. cbn [map]. change (sumZ (?x :: ?l)) with (x + sumZ l).
  destruct (decide (p o = true)) as [Hp|Hp]; [cbn [map]; change (sumZ (?x :: ?l)) with (x + sumZ l); lia|]. rewrite (Hf o) by (by apply not_true_iff_false). lia.
Qed.
Lemma sumZ_map_add {A} (f g : A -> Z) l : sumZ (map (fun x => f x + g x) l) = sumZ (map f l) + sumZ (map g l).
Proof. induction l as [|x l IH]; [done|]. cbn [map]. unfold sumZ in *. cbn [foldr]. lia. Qed.
Lemma sumZ_map_ext {A} (f g : A -> Z) l : (forall x, x ∈ l -> f x = g x) -> sumZ (map f l) = sumZ (map g l).
Proof. intros H. f_equal. apply map_ext_in. intros x Hx. by apply H, list_elem_of_In. Qed.
Lemma sumZ_map_nonneg {A} (f : A -> Z) l : Forall (fun x => 0 <= f x) l -> 0 <= sumZ (map f l).
Proof. induction 1 as [|x l Hx _ IH]; [done|]. cbn [map]. unfold sumZ in *. cbn [foldr]. lia. Qed.
Lemma sumZ_map_pos {A} (f : A -> Z) l : 0 < sumZ (map f l) -> exists x, x ∈ l /\ 0 < f x.
Proof.
  induction l as [|x l IH]; [done|]. cbn [map]. change (sumZ (?y :: ?k)) with (y + sumZ k). intros H. destruct (Z.ltb_spec 0 (f x)); [exists x; split; [by left|done]|].
  destruct IH as (y & Hy & Hf); [lia|]. exists y. split; [by right|done].
Qed.

Lemma count_kind (count : asset_counts -> Z) (p : CTxOut -> bool) outs : (forall c o, count (count_out c o) = count c + (if p o then 1 else 0)) -> count (mkCounts 0 0 0 0) = 0 ->
  count (GetTxOutAssetTypes outs) = zlen (outs_of p outs).
Proof.
  intros Hs H0. unfold GetTxOutAssetTypes, outs_of. assert (H : forall c, count (fold_left count_out outs c) = count c + zlen (filter (fun o => p o = true) outs)).
  { induction outs as [|o outs IH]; intros c; [rewrite filter_nil; change (zlen (@nil CTxOut)) with 0; cbn; lia|]. cbn [fold_left]. rewrite IH, filter_cons, Hs.
    destruct (p o); [rewrite decide_True by done; rewrite zlen_cons|rewrite decide_False by done]; lia. }
  rewrite H. lia.
Qed.
Lemma count_owners outs : nOwners (GetTxOutAssetTypes outs) = zlen (outs_of CheckOwnerDataTx outs).
Proof.
  apply (count_kind nOwners CheckOwnerDataTx); [|done]. intros c o. unfold count_out, CheckOwnerDataTx, IsScriptOwnerAsset.
  destruct (IsAssetScript (scriptPubKey o)) as [[[[] []] n]|]; cbn; lia.
Qed.
Lemma count_reissues outs : nReissues (GetTxOutAssetTypes outs) = zlen (outs_of CheckReissueDataTx outs).
Proof.
  apply (count_kind nReissues CheckReissueDataTx); [|done]. intros c o. unfold count_out, CheckReissueDataTx, IsScriptReissueAsset.
  destruct (IsAssetScript (scriptPubKey o)) as [[[[] []] n]|]; cbn; lia.
Qed.
Lemma one_out p outs o : zlen (outs_of p outs) = 1 -> o ∈ outs -> p o = true -> outs_of p outs = [o].
Proof.
  unfold outs_of. intros Hl Ho Hp. assert (Hin : o ∈ filter (fun o => p o = true) outs) by (by apply list_elem_of_filter). unfold zlen in Hl.
  destruct (filter _ outs) as [|x [|]]; cbn in Hl; [lia| |lia]. apply list_elem_of_singleton in Hin. by subst.
Qed.
Lemma no_out p outs : zlen (outs_of p outs) <= 0 -> outs_of p outs = [].
Proof. intros H. apply zlen_0_nil. pose proof (zlen_nonneg (outs_of p outs)). lia. Qed.

Lemma in_outs_of (p : CTxOut -> bool) outs o l : outs_of p outs = l -> o ∈ outs -> p o = true -> o ∈ l.
Proof. intros <- Ho Hp. by apply list_elem_of_filter. Qed.
Ltac only_out E Ho Hp := pose proof (in_outs_of _ _ _ _ E Ho Hp) as Hx; first [by apply elem_of_nil in Hx|apply list_elem_of_singleton in Hx; subst].

(** ** Units made *)

Section Made.
Variable ap : AssetParams.

(** The units an operation of the history makes: of the asset and, when it is
    issued, of its owner token. *)
Definition op_units (op : asset_op) (name : bytes) : Z :=
  match op with
  | Issue a => (if bytes_eqb (strName a) name then na_nAmount a else 0) + (if bytes_eqb (strName a ++ OWNER_TAG) name then OWNER_ASSET_AMOUNT else 0)
  | Reissue r _ => if bytes_eqb (re_strName r) name then re_nAmount r else 0
  end.
Definition ops_units (ops : list asset_op) (name : bytes) : Z := sumZ (map (fun op => op_units op name) ops).

(** What a transaction does to the assets, in the order [AddCoins] does it. *)
Definition unique_issue_of (o : CTxOut) : list asset_op :=
  if IsScriptNewUniqueAsset ap (scriptPubKey o) then match AssetFromScript ap (scriptPubKey o) with Some (a, _) => [Issue a] | None => [] end else [].
Definition tx_ops (tx : CTransaction) : list asset_op :=
  if tx_IsNewAsset ap tx then match AssetFromTransaction ap tx with Some (a, _) => [Issue a] | None => [] end
  else if tx_IsReissueAsset tx then
    match ReissueAssetFromTransaction ap tx with Some (r, _) => [Reissue r (mkOutPoint (GetHash tx) (zlen (vout tx) - 1))] | None => [] end
  else if tx_IsNewUniqueAsset ap tx then concat (map unique_issue_of (vout tx))
  else if tx_IsNewMsgChannelAsset ap tx then match MsgChannelAssetFromTransaction ap tx with Some (a, _) => [Issue a] | None => [] end
  else [].

Lemma issue_units o a addr name : AssetFromScript ap (scriptPubKey o) = Some (a, addr) -> script_units ap name (scriptPubKey o) = if bytes_eqb (strName a) name then na_nAmount a else 0.
Proof.
  intros Ha. unfold script_units, GetAssetData. pose proof Ha as Hs. unfold AssetFromScript, IsScriptNewAsset, from_script in Hs.
  destruct (IsAssetScript (scriptPubKey o)) as [[[[] []] n]|]; try done. by rewrite Ha.
Qed.
Lemma owner_units o n addr name : OwnerAssetFromScript ap (scriptPubKey o) = Some (n, addr) -> script_units ap name (scriptPubKey o) = if bytes_eqb n name then OWNER_ASSET_AMOUNT else 0.
Proof.
  intros Ha. unfold script_units, GetAssetData. pose proof Ha as Hs. unfold OwnerAssetFromScript, IsScriptOwnerAsset, from_script in Hs.
  destruct (IsAssetScript (scriptPubKey o)) as [[[[] []] k]|]; try done. by rewrite Ha.
Qed.
Lemma reissue_units o r addr name : ReissueAssetFromScript ap (scriptPubKey o) = Some (r, addr) -> script_units ap name (scriptPubKey o) = if bytes_eqb (re_strName r) name then re_nAmount r else 0.
Proof.
  intros Ha. unfold script_units, GetAssetData. pose proof Ha as Hs. unfold ReissueAssetFromScript, IsScriptReissueAsset, from_script in Hs.
  destruct (IsAssetScript (scriptPubKey o)) as [[[[] ?] k]|]; try done. by rewrite Ha.
Qed.

(** The units made are those of the outputs that issue, that are owner tokens and
    that reissue. *)
Definition kind_units (p : CTxOut -> bool) (name : bytes) (outs : list CTxOut) : Z := sumZ (map (fun o => script_units ap name (scriptPubKey o)) (outs_of p outs)).
Lemma made_split name outs : sumZ (map (made_units ap name) outs) = kind_units is_issue name outs + kind_units CheckOwnerDataTx name outs + kind_units CheckReissueDataTx name outs.
Proof.
  assert (Hk : forall p, kind_units p name outs = sumZ (map (fun o => if (p o : bool) then script_units ap name (scriptPubKey o) else 0) outs)).
  { intros p. unfold kind_units. rewrite (sum_outs_of (fun o => if p o then _ else 0) p) by (by intros o ->). apply sumZ_map_ext. intros o [-> _]%list_elem_of_filter. done. }
  rewrite !Hk, <- !sumZ_map_add. apply sumZ_map_ext. intros o _. unfold made_units, is_transfer, is_issue, CheckIssueDataTx, CheckOwnerDataTx, CheckReissueDataTx, script_units, GetAssetData.
  unfold IsScriptTransferAsset, IsScriptNewAsset, IsScriptOwnerAsset, IsScriptReissueAsset.
  destruct (IsAssetScript (scriptPubKey o)) as [[[[] []] n]|]; cbn; lia.
Qed.

(** ** The kinds of accepted transactions *)

Inductive tx_kind (tx : CTransaction) : Prop :=
| kind_new data own a addr oaddr : tx_IsNewAsset ap tx = true -> last_out tx = Some data -> owner_out tx = Some own ->
    AssetFromScript ap (scriptPubKey data) = Some (a, addr) -> OwnerAssetFromScript ap (scriptPubKey own) = Some (strName a ++ OWNER_TAG, oaddr) ->
    CheckNewAsset a = None -> outs_of is_issue (vout tx) = [data] -> outs_of CheckOwnerDataTx (vout tx) = [own] -> outs_of CheckReissueDataTx (vout tx) = [] -> tx_kind tx
| kind_reissue data r addr : tx_IsNewAsset ap tx = false -> tx_IsReissueAsset tx = true -> last_out tx = Some data ->
    ReissueAssetFromScript ap (scriptPubKey data) = Some (r, addr) -> CheckReissueAsset false r = None ->
    transfers_of ap (vout tx) ((if is_type (name_type (re_strName r)) [RESTRICTED] then drop 1 (re_strName r) else re_strName r) ++ OWNER_TAG) = true ->
    outs_of is_issue (vout tx) = [] -> outs_of CheckOwnerDataTx (vout tx) = [] -> outs_of CheckReissueDataTx (vout tx) = [data] -> tx_kind tx
| kind_unique : tx_IsNewAsset ap tx = false -> tx_IsReissueAsset tx = false -> tx_IsNewUniqueAsset ap tx = true ->
    (forall o, o ∈ vout tx -> is_issue o = true -> IsScriptNewUniqueAsset ap (scriptPubKey o) = true) ->
    (forall o, o ∈ vout tx -> IsScriptNewUniqueAsset ap (scriptPubKey o) = true -> exists a addr, AssetFromScript ap (scriptPubKey o) = Some (a, addr) /\ CheckNewAsset a = None) ->
    (exists root names, unique_outs ap (vout tx) [] [] 0 = Ok (root, names)) ->
    outs_of CheckOwnerDataTx (vout tx) = [] -> outs_of CheckReissueDataTx (vout tx) = [] -> tx_kind tx
| kind_channel data a addr : tx_IsNewAsset ap tx = false -> tx_IsReissueAsset tx = false -> tx_IsNewUniqueAsset ap tx = false -> tx_IsNewMsgChannelAsset ap tx = true ->
    last_out tx = Some data -> AssetFromScript ap (scriptPubKey data) = Some (a, addr) -> IsScriptNewMsgChannelAsset ap (scriptPubKey data) = true -> CheckNewAsset a = None ->
    outs_of is_issue (vout tx) = [data] -> outs_of CheckOwnerDataTx (vout tx) = [] -> outs_of CheckReissueDataTx (vout tx) = [] -> tx_kind tx
| kind_other : tx_IsNewAsset ap tx = false -> tx_IsReissueAsset tx = false -> tx_IsNewUniqueAsset ap tx = false -> tx_IsNewMsgChannelAsset ap tx = false ->
    tx_IsNewQualifierAsset ap tx = false -> tx_IsNewRestrictedAsset ap tx = false ->
    (forall o, o ∈ vout tx -> is_asset_script (scriptPubKey o) = true -> is_transfer o = true) -> tx_kind tx.

Lemma new_kind st pool tx : tx_IsNewAsset ap tx = true -> VerifyNewAsset ap st pool tx = None ->
  (forall a addr, AssetFromTransaction ap tx = Some (a, addr) -> CheckNewAsset a = None) -> tx_kind tx.
Proof.
  intros Hnew Hv Hc. unfold AssetFromTransaction in Hc. rewrite Hnew in Hc. cbn [negb] in Hc. unfold VerifyNewAsset in Hv. destruct (_ <? _); [done|].
  destruct (last_out tx) as [data|] eqn:Hl; [|done]. destruct (owner_out tx) as [own|] eqn:Ho; [|done].
  destruct (CheckIssueDataTx data) eqn:Hi; [|done]. destruct (CheckOwnerDataTx own) eqn:How; [|done]. cbn [negb on_out] in *.
  destruct (AssetFromScript ap (scriptPubKey data)) as [[a addr]|] eqn:Ha; [|done]. cbv zeta in Hv. destruct (OwnerAssetFromScript ap (scriptPubKey own)) as [[n oaddr]|] eqn:En; [|done].
  apply first_error_none in Hv. apply Forall_cons in Hv as [Hname Hv]. do 2 apply Forall_cons in Hv as [_ Hv]. apply Forall_cons in Hv as [Hn _].
  apply need_none, bytes_eqb_eq in Hname. subst n. unfold counts in Hn. apply need_none in Hn. rewrite !andb_true_iff in Hn. destruct Hn as [[H1%Z.eqb_eq H2%Z.eqb_eq] H3%Z.leb_le].
  rewrite count_owners in H1. rewrite count_issues in H2. rewrite count_reissues in H3. apply (kind_new tx data own a addr oaddr); try done; [by apply (Hc a addr)|..].
  - apply one_out; [done|by apply last_out_in|done].
  - apply one_out; [done|by apply list_elem_of_lookup_2 in Ho|done].
  - by apply no_out.
Qed.
Lemma reissue_kind tx : tx_IsNewAsset ap tx = false -> tx_IsReissueAsset tx = true -> VerifyReissueAsset ap tx = None ->
  (forall r addr, ReissueAssetFromTransaction ap tx = Some (r, addr) -> CheckReissueAsset false r = None) -> tx_kind tx.
Proof.
  intros Hnew Hre Hv Hc. unfold ReissueAssetFromTransaction in Hc. rewrite Hre in Hc. cbn [negb] in Hc. unfold VerifyReissueAsset in Hv. destruct (_ <? _); [done|].
  destruct (last_out tx) as [data|] eqn:Hl; [|done]. destruct (CheckReissueDataTx data) eqn:Hi; [|done]. cbn [negb on_out] in *.
  destruct (ReissueAssetFromScript ap (scriptPubKey data)) as [[r addr]|] eqn:Ha; [|done]. cbv zeta in Hv. apply first_error_none in Hv.
  apply Forall_cons in Hv as [Ht Hv]. apply Forall_cons in Hv as [_ Hv]. apply Forall_cons in Hv as [Hn _]. unfold counts in Hn. apply need_none in Hn, Ht. rewrite !andb_true_iff in Hn.
  destruct Hn as [[H1%Z.leb_le H2%Z.eqb_eq] H3%Z.leb_le]. rewrite count_owners in H1. rewrite count_reissues in H2. rewrite count_issues in H3.
  apply (kind_reissue tx data r addr); try done; [by apply (Hc r addr)|by apply no_out..|]. apply one_out; [done|by apply last_out_in|done].
Qed.
Lemma unique_kind tx : tx_IsNewAsset ap tx = false -> tx_IsReissueAsset tx = false -> tx_IsNewUniqueAsset ap tx = true -> VerifyNewUniqueAsset ap tx = None ->
  (forall o, o ∈ vout tx -> IsScriptNewUniqueAsset ap (scriptPubKey o) = true -> exists a addr, AssetFromScript ap (scriptPubKey o) = Some (a, addr) /\ CheckNewAsset a = None) -> tx_kind tx.
Proof.
  intros H0 H1 H2 Hv Hc. pose proof (fun o Ho Hi => proj1 (unique_issue ap empty_xstate empty_pool tx o Hv Ho Hi)) as Hu. unfold VerifyNewUniqueAsset in Hv. destruct (_ <? _); [done|].
  destruct (unique_outs ap (vout tx) [] [] 0) as [[root n]|] eqn:Eu; [|done]. apply first_error_none in Hv. do 3 apply Forall_cons in Hv as [_ Hv]. apply Forall_cons in Hv as [Hn _].
  unfold counts in Hn. apply need_none in Hn. rewrite !andb_true_iff in Hn. destruct Hn as [[H3%Z.leb_le H4%Z.leb_le] _]. rewrite count_owners in H3. rewrite count_reissues in H4.
  apply kind_unique; try done; [by eexists _, _|by apply no_out..].
Qed.
Lemma channel_kind tx : tx_IsNewAsset ap tx = false -> tx_IsReissueAsset tx = false -> tx_IsNewUniqueAsset ap tx = false -> tx_IsNewMsgChannelAsset ap tx = true ->
  VerifyNewMsgChannelAsset ap tx = None -> (forall a addr, MsgChannelAssetFromTransaction ap tx = Some (a, addr) -> CheckNewAsset a = None) -> tx_kind tx.
Proof.
  intros H0 H1 H2 Hm Hv Hc. unfold MsgChannelAssetFromTransaction in Hc. pose proof Hm as (data & Hl & Hi & Hk)%tx_new_of_inv. rewrite Hm, Hl in Hc. cbn [negb on_out] in Hc.
  unfold VerifyNewMsgChannelAsset in Hv. destruct (_ <? _); [done|]. rewrite Hl in Hv. destruct (CheckIssueDataTx data); [|done]. cbn [negb] in Hv.
  unfold MsgChannelAssetFromScript in *. rewrite Hk in *. destruct (AssetFromScript ap (scriptPubKey data)) as [[a addr]|] eqn:Ha; [|done]. apply first_error_none in Hv.
  do 2 apply Forall_cons in Hv as [_ Hv]. apply Forall_cons in Hv as [Hn _]. unfold counts, no_owner_one_issue in Hn. apply need_none in Hn. rewrite !andb_true_iff in Hn.
  destruct Hn as [[H3%Z.eqb_eq H4%Z.eqb_eq] H5%Z.leb_le]. rewrite count_owners in H3. rewrite count_issues in H4. rewrite count_reissues in H5.
  apply (kind_channel tx data a addr); try done; [by apply (Hc a addr)| |apply no_out; lia|apply no_out; lia]. apply one_out; [done|by apply last_out_in|done].
Qed.
Lemma other_kind tx : tx_IsNewAsset ap tx = false -> tx_IsReissueAsset tx = false -> tx_IsNewUniqueAsset ap tx = false -> tx_IsNewMsgChannelAsset ap tx = false ->
  (late_rules ap tx).1.1 = Accept -> tx_kind tx.
Proof.
  intros H0 H1 H2 H3 Hl. assert (Hno : forall kind, tx_new_of kind tx = true -> False).
  { intros kind (data & Hd & Hi & _)%tx_new_of_inv. apply (other_no_issue ap tx data Hl); [by apply last_out_in|done]. }
  assert (Hq : tx_IsNewQualifierAsset ap tx = false) by (apply not_true_iff_false; exact (Hno _)). assert (Hr : tx_IsNewRestrictedAsset ap tx = false) by (apply not_true_iff_false; exact (Hno _)).
  apply kind_other; try done. intros o Ho Ha. unfold late_rules in Hl. rewrite Hq, Hr in Hl. cbn [fst] in Hl. apply first_reject_accept in Hl. rewrite Forall_forall in Hl.
  specialize (Hl _ (list_elem_of_fmap_2 _ _ _ Ho)). cbn beta in Hl. apply is_transfer_iff. unfold is_asset_script in Ha.
  destruct (IsAssetScript (scriptPubKey o)) as [[[[] own] n]|]; try done. by exists own, n.
Qed.

Lemma accepted_kind st pool dup mem blk tx : CheckTransaction ap false st pool dup mem blk tx = Accept -> tx_kind tx.
Proof.
  intros (s & _ & Hr & _)%CheckTransaction_inv. unfold asset_rules in Hr. destruct (tx_IsNewAsset ap tx) eqn:Hnew.
  { cbn [fst] in Hr. apply first_reject_accept in Hr. apply Forall_cons in Hr as [Hv Hr]. apply Forall_cons in Hr as [Hr _]. apply reason_accept in Hv. apply (new_kind st pool); [done..|].
    intros a addr Ha. rewrite Ha in Hr. apply first_reject_accept in Hr. apply Forall_cons in Hr as [_ Hr]. apply Forall_cons in Hr as [Hc _]. by apply reason_accept in Hc. }
  destruct (tx_IsReissueAsset tx) eqn:Hre.
  { destruct (VerifyReissueAsset ap tx) eqn:Hv; [done|]. apply reissue_kind; [done..|]. intros r addr Ha. rewrite Ha in Hr. by destruct (CheckReissueAsset false r). }
  destruct (tx_IsNewUniqueAsset ap tx) eqn:Hu.
  { cbn [fst] in Hr. apply first_reject_accept in Hr. apply Forall_cons in Hr as [Hv Hr]. apply Forall_cons in Hr as [Hr _]. apply reason_accept in Hv. apply unique_kind; [done..|].
    intros o Ho Ht. apply first_reject_accept in Hr. rewrite Forall_forall in Hr. specialize (Hr _ (list_elem_of_fmap_2 _ _ _ Ho)). cbn beta in Hr. rewrite Ht in Hr.
    destruct (AssetFromScript ap (scriptPubKey o)) as [[a addr]|]; [|done]. apply reason_after_accept in Hr. by exists a, addr. }
  destruct (tx_IsNewMsgChannelAsset ap tx) eqn:Hm; [|by apply other_kind].
  cbn [fst] in Hr. apply first_reject_accept in Hr. apply Forall_cons in Hr as [Hv Hr]. apply Forall_cons in Hr as [Hr _]. apply reason_accept in Hv. apply channel_kind; [done..|].
  intros a addr Ha. rewrite Ha in Hr. by apply reason_after_accept in Hr.
Qed.

(** *** What it makes *)

Lemma CheckNewAsset_fields a : CheckNewAsset a = None ->
  0 < na_nAmount a <= MAX_MONEY /\ (na_nReissuable a = 0 \/ na_nReissuable a = 1) /\ (na_nHasIPFS a = 0 \/ na_nHasIPFS a = 1) /\ strName a <> [].
Proof.
  intros H. pose proof (CheckNewAsset_types a H) as [Hv _]. unfold CheckNewAsset in H. cbv zeta in H. apply first_error_none in H. do 5 apply Forall_cons in H as [_ H].
  apply Forall_cons in H as [H1 H]. apply Forall_cons in H as [H2 H]. do 2 apply Forall_cons in H as [_ H]. apply Forall_cons in H as [H3 H]. apply Forall_cons in H as [H4 _].
  rewrite need_none, ?orb_true_iff, ?Z.eqb_eq, ?Z.ltb_lt, ?Z.leb_le in *. split_and!; try done. by intros E; rewrite E in Hv.
Qed.
Lemma CheckReissueAsset_fields r : CheckReissueAsset false r = None -> 0 <= re_nAmount r < MAX_MONEY /\ (re_nReissuable r = 0 \/ re_nReissuable r = 1).
Proof.
  unfold CheckReissueAsset. intros H. apply first_error_none in H. apply Forall_cons in H as [H1 H]. apply Forall_cons in H as [_ H]. apply Forall_cons in H as [H3 _].
  rewrite need_none, ?orb_true_iff, ?andb_true_iff, ?Z.eqb_eq, ?Z.ltb_lt, ?Z.leb_le in *. split; [done|]. by destruct H3 as [[|]|]; [|left|right].
Qed.

Lemma ops_units_app l1 l2 name : ops_units (l1 ++ l2) name = ops_units l1 name + ops_units l2 name.
Proof. unfold ops_units. by rewrite map_app, sumZ_app. Qed.
Lemma ops_units_rev l name : ops_units (rev l) name = ops_units l name.
Proof. induction l as [|op l IH]; [done|]. cbn [rev]. rewrite ops_units_app, IH. unfold ops_units. cbn [map]. unfold sumZ. cbn [foldr]. lia. Qed.
Lemma issue_units_le a name : 0 <= na_nAmount a -> (if bytes_eqb (strName a) name then na_nAmount a else 0) <= op_units (Issue a) name.
Proof. intros H. cbn [op_units]. assert (0 <= OWNER_ASSET_AMOUNT) by by vm_compute. destruct (bytes_eqb (strName a ++ OWNER_TAG) name); lia. Qed.

Lemma made_le_ops tx name : tx_kind tx -> sumZ (map (made_units ap name) (vout tx)) <= ops_units (tx_ops tx) name.
Proof.
  intros Hk. rewrite made_split. unfold tx_ops. destruct Hk as [data own a addr oaddr Hn Hl Ho Ha How Hc E1 E2 E3|data r addr Hn Hre Hl Ha Hc Ht E1 E2 E3|
    Hn Hre Hu Hall Hck (root & names & Hun) E2 E3|data a addr Hn Hre Hu Hm Hl Ha Hk Hc E1 E2 E3|Hn Hre Hu Hm Hq Hr Hall].
  - unfold kind_units. rewrite E1, E2, E3, Hn. unfold AssetFromTransaction. rewrite Hn, Hl. cbn [negb on_out map sumZ foldr]. rewrite Ha, (issue_units _ _ _ name Ha), (owner_units _ _ _ name How).
    unfold ops_units. cbn [map sumZ foldr op_units]. lia.
  - unfold kind_units. rewrite E1, E2, E3, Hn, Hre. unfold ReissueAssetFromTransaction. rewrite Hre, Hl. cbn [negb on_out map sumZ foldr]. rewrite Ha, (reissue_units _ _ _ name Ha).
    unfold ops_units. cbn [map sumZ foldr op_units]. lia.
  - unfold kind_units at 2 3. rewrite E2, E3, Hn, Hre, Hu. cbn [map sumZ foldr]. clear Hun. unfold kind_units, outs_of, ops_units. rewrite !Z.add_0_r.
    assert (Hle : forall outs, (forall o, o ∈ outs -> o ∈ vout tx) -> sumZ (map (fun o => script_units ap name (scriptPubKey o)) (filter (fun o => is_issue o = true) outs)) <=
      sumZ (map (fun op => op_units op name) (concat (map unique_issue_of outs)))); [|by apply Hle].
    induction outs as [|o outs IH]; intros Hin; [done|]. specialize (IH (fun x Hx => Hin x (list_elem_of_further _ _ _ Hx))). rewrite filter_cons. cbn [map concat]. rewrite map_app, sumZ_app.
    assert (Ho : o ∈ vout tx) by (apply Hin; by left). unfold unique_issue_of at 1. destruct (IsScriptNewUniqueAsset ap (scriptPubKey o)) eqn:Eu.
    + destruct (Hck o Ho Eu) as (a & addr & Ha & Hc). rewrite Ha. destruct (CheckNewAsset_fields a Hc) as [Hpos _]. pose proof (issue_units_le a name ltac:(lia)) as Hi.
      destruct (decide (is_issue o = true)) as [|Hno]; [|by destruct Hno; apply (AssetFromScript_issue ap o a addr)]. cbn [map]. rewrite (issue_units _ _ _ name Ha).
      unfold sumZ in *. cbn [foldr] in *. lia.
    + destruct (decide (is_issue o = true)) as [Hi|]; [by rewrite (Hall o Ho Hi) in Eu|]. done.
  - unfold kind_units. rewrite E1, E2, E3, Hn, Hre, Hu, Hm. unfold MsgChannelAssetFromTransaction. rewrite Hm, Hl. cbn [negb on_out map sumZ foldr]. unfold MsgChannelAssetFromScript. rewrite Hk, Ha, (issue_units _ _ _ name Ha).
    destruct (CheckNewAsset_fields a Hc) as [Hpos _]. pose proof (issue_units_le a name ltac:(lia)) as Hi. unfold ops_units, sumZ. cbn [map foldr]. lia.
  - rewrite Hn, Hre, Hu, Hm, <- made_split. change (ops_units [] name) with 0. apply Z.eq_le_incl. transitivity (sumZ (map (fun _ => 0) (vout tx))); [|clear; induction (vout tx) as [|x l IH]; [done|exact IH]].
    apply sumZ_map_ext. intros o Ho. unfold made_units. destruct (is_transfer o) eqn:Et; [done|]. unfold script_units. rewrite GetAssetData_asset; [done|].
    apply not_true_iff_false. intros Ha. by rewrite (Hall o Ho Ha) in Et.
Qed.
End Made.

(** ** The caches while blocks are connected *)

Section Connecting.
Variable ap : AssetParams.
Variable reissue_at : bytes * Z -> bytes.
Variable fAssetIndex : bool.
Variable unset : Z.

Definition op_name (op : asset_op) : bytes := match op with Issue a => strName a | Reissue r _ => re_strName r end.
(** [passets] as it is while a block is connected; the names of operations are not
    among those unissued since the last dump. *)
Variable shared : CAssetsCache.
Definition shares (w : assets_global) : Prop := passets w = shared.
Definition spared (name : bytes) : Prop := om_find name (to_remove (setNewAssets shared)) = None.
Definition spared_ops (ops : list asset_op) : Prop := Forall (fun op => spared (op_name op)) ops.
Fixpoint valid_ops (H ops : list asset_op) : Prop :=
  match ops with [] => True | op :: ops => valid_op reissue_at H op /\ valid_ops (op :: H) ops end.

Abbreviation ok t w H H0 := (state_ok reissue_at (mkState t w Connecting H H0)).

Lemma same_world_shares w w' : same_world w w' -> shares w -> shares w'.
Proof. intros (E & _). unfold shares. by rewrite E. Qed.
Lemma same_world_trans w1 w2 w3 : same_world w1 w2 -> same_world w2 w3 -> same_world w1 w3.
Proof. intros (E1 & E2 & _) (F1 & F2 & Hl). split_and!; [by rewrite F1|by rewrite F2|done]. Qed.
Lemma ok_world t w w' H H0 : same_world w w' -> ok t w H H0 -> ok t w' H H0.
Proof. apply state_ok_world. Qed.
Lemma ok_refl t w H H0 : ok t w H H0 -> same_world w w.
Proof. intros []. done. Qed.

Lemma meta_is_asset t w H H0 n : ok t w H H0 -> shares w -> spared n -> fst <$> (GetAssetMetaDataIfExists t w n).2 = assets_of H !! n.
Proof.
  intros Hs Hf Hsp. destruct (assets_of H !! n) as [a|] eqn:Ea; [by apply (state_meta _ _ _ _ _ _ n Hs)|]. destruct Hs as [Hl Hk _ _ Hh _]. cbn [cs_this cs_global cs_kind cs_now cs_base] in *.
  destruct Hk as [Hk _]. destruct (GetAssetMetaDataIfExists_data t w n Hl (ho_db _ _ _ _ _ Hh)) as [-> _]. unfold data.
  pose proof (ho_map _ _ _ _ _ Hh n) as Hm. rewrite Ea, Hk, Hf in Hm. unfold spared in Hsp. rewrite Hsp in Hm. cbn [om_find] in Hm.
  destruct (om_find n (mapReissuedAssetData t)); [by destruct Hm as [[]|[[]|[]]]; [left|..]|]. rewrite Hf. destruct (om_find n (mapReissuedAssetData shared)); [by destruct Hm as [[]|[[]|[]]]; [right|..]|].
  pose proof (ho_found _ _ _ _ _ Hh n) as Hn. rewrite Ea, bool_decide_eq_false_2 in Hn by (by intros []). unfold found, om_mem in *. rewrite Hk, Hf, Hsp in *. cbn [om_find negb andb orb] in *.
  destruct (om_find n (to_add (setNewAssets t))); [done|]. destruct (om_find n (to_add (setNewAssets shared))); [done|]. by destruct (db_assets (passetsdb w) !! n).
Qed.

(** *** Issuing *)

Lemma dec_hash s a addr : AssetFromScript ap s = Some (a, addr) -> na_nHasIPFS a = 0 -> na_strIPFSHash a = [].
Proof.
  unfold AssetFromScript, from_script. destruct (IsScriptNewAsset s) as [n|]; [|done]. destruct (dec_new_asset (drop (Z.to_nat n) s)) as [[a' rest]|] eqn:E; [|done]. intros [= <- _].
  unfold dec_new_asset in E. do 5 apply rbind_inv in E as (? & ? & _ & E). apply rbind_inv in E as (hash & s1 & E1 & E). injection E as <- _. cbn [na_nHasIPFS na_strIPFSHash].
  intros ->. by injection E1 as <- _.
Qed.
Lemma hash_flag_of s a addr : AssetFromScript ap s = Some (a, addr) -> CheckNewAsset a = None ->
  (na_nHasIPFS a =? 0) || (zlen (na_strIPFSHash a) =? 34) || (zlen (na_strIPFSHash a) =? 32) = true -> hash_flag a.
Proof.
  intros Ha (_ & _ & Hf & _)%CheckNewAsset_fields Hl. unfold hash_flag. destruct Hf as [E|E].
  - rewrite E, (dec_hash _ _ _ Ha E). done.
  - rewrite E in *. rewrite bool_decide_eq_false_2; [done|]. intros Eh. by rewrite Eh in Hl.
Qed.
Lemma valid_issue env t w H H0 s a addr fm w' : ae_fReindex env = false -> ok t w H H0 -> AssetFromScript ap s = Some (a, addr) ->
  ContextualCheckNewAsset env t w a fm = (w', None) -> same_world w w' /\ valid_op reissue_at H (Issue a).
Proof.
  intros Hr Hs Ha. unfold ContextualCheckNewAsset. rewrite Hr. destruct (CheckNewAsset a) eqn:Hc; [done|]. destruct (state_exists _ _ _ _ _ _ (strName a) Hs) as [He Hw].
  destruct (CheckIfAssetExists false t w (strName a) true) as [w1 b]. cbn [fst snd] in *. intros E. pose proof (f_equal fst E) as Ew. pose proof (f_equal snd E) as Hv. cbn [fst snd] in Ew, Hv. subst w1. clear E. split; [done|].
  apply first_error_none in Hv. apply Forall_cons in Hv as [H1 Hv]. apply Forall_cons in Hv as [_ Hv]. apply Forall_cons in Hv as [H2 _]. rewrite need_none in *. apply negb_true_iff in H1. rewrite H1 in He.
  destruct (CheckNewAsset_fields a Hc) as (Hb & _). split_and!; [|by eapply hash_flag_of|lia|lia]. destruct (assets_of H !! strName a); [|done]. by rewrite bool_decide_eq_true_2 in He.
Qed.

Lemma CheckIfAssetExists_passets t w n : passets (CheckIfAssetExists false t w n true).1 = passets w.
Proof. unfold CheckIfAssetExists. repeat case_match; done. Qed.
Lemma add_new_ok t w H H0 a address h hash : ok t w H H0 -> shares w -> spared (strName a) -> valid_op reissue_at H (Issue a) ->
  let s := add_new false fAssetIndex (t, w) a address h hash in ok s.1 s.2 (Issue a :: H) H0 /\ shares s.2.
Proof.
  intros Hs Hf Hsp Hop. unfold add_new. cbn [fst snd]. destruct (AddNewAsset false fAssetIndex t w a address h hash) as [[t' w'] b] eqn:E. cbn [fst snd].
  destruct (issue_ok reissue_at fAssetIndex t w H H0 a address h hash t' w' b Hs Hop) as [_ Hs']; [by rewrite Hf|done|]. split; [done|].
  revert E. unfold AddNewAsset. pose proof (CheckIfAssetExists_passets t w (strName a)) as Hp. destruct (CheckIfAssetExists false t w (strName a) true) as [w1 []]; cbn [fst] in Hp; intros [= _ <- _]; unfold shares in *; by rewrite Hp.
Qed.

Lemma fresh_ops_valid ops : forall H, Forall (fun op => exists a, op = Issue a /\ valid_op reissue_at H (Issue a)) ops -> NoDup (map op_name ops) -> valid_ops H ops.
Proof.
  induction ops as [|op ops IH]; intros H Hall Hnd; [done|]. apply Forall_cons in Hall as [(a & -> & Ha) Hall]. cbn [map] in Hnd. apply NoDup_cons in Hnd as [Hno Hnd]. split; [done|].
  apply IH; [|done]. rewrite Forall_forall in Hall |- *. intros op Hop. destruct (Hall op Hop) as (b & -> & Hn & Hb). exists b. split; [done|]. split; [|done].
  cbn [assets_of]. rewrite lookup_insert_ne; [done|]. intros E. apply Hno. cbn [op_name]. rewrite E. apply list_elem_of_In, in_map_iff. exists (Issue b). split; [done|by apply list_elem_of_In].
Qed.
Lemma unique_names outs : forall root names n r m, unique_outs ap outs root names n = Ok (r, m) ->
  NoDup (map op_name (concat (map (unique_issue_of ap) outs))) /\ forall x, existsb (bytes_eqb x) names = true -> x ∉ map op_name (concat (map (unique_issue_of ap) outs)).
Proof.
  induction outs as [|o outs IH]; intros root names n r m; cbn [unique_outs map concat]; [intros _; split; [apply NoDup_nil_2|intros x _; apply not_elem_of_nil]|].
  unfold unique_issue_of at 1 3. destruct (IsScriptNewUniqueAsset ap (scriptPubKey o)) eqn:Eu; cbn [negb]; [|apply IH].
  destruct (AssetFromScript ap (scriptPubKey o)) as [[a addr]|]; [|done]. cbv zeta. destruct (bytes_eqb _ _); [|done]. cbn [negb]. destruct (existsb (bytes_eqb (strName a)) names) eqn:Ex; [done|].
  intros (Hnd & Hno)%IH. cbn [app map op_name]. split.
  - constructor; [|done]. apply Hno. cbn [existsb]. by rewrite (proj2 (bytes_eqb_eq _ _) eq_refl).
  - intros x Hx [->|Hin]%elem_of_cons; [by rewrite Hx in Ex|]. apply (Hno x); [|done]. cbn [existsb]. by rewrite Hx, orb_true_r.
Qed.

(** *** The rules against the history *)

(** Names are not empty; flags are 0 or 1 where no excused value is accepted. *)
Definition assets_fine (H : list asset_op) : Prop := forall n a, assets_of H !! n = Some a -> n <> [] /\ (na_nReissuable a = 0 \/ na_nReissuable a = 1).
Definition op_checked (op : asset_op) : Prop := match op with Issue a => CheckNewAsset a = None | Reissue r _ => CheckReissueAsset false r = None end.
Lemma assets_fine_ops ops : forall H, assets_fine H -> Forall op_checked ops -> assets_fine (rev ops ++ H).
Proof.
  induction ops as [|op ops IH]; intros H HH Hops; [done|]. apply Forall_cons in Hops as [Hop Hops]. cbn [rev]. rewrite <-app_assoc. apply IH; [|done]. intros n a.
  destruct op as [b|r out]; cbn [app assets_of op_checked] in *.
  - intros [[<- <-]|[_ Ha]]%lookup_insert_Some; [|by apply (HH n)]. by apply CheckNewAsset_fields in Hop as (_ & ? & _ & ?).
  - destruct (assets_of H !! re_strName r) as [b|] eqn:E; [|apply HH]. intros [[<- <-]|[_ Ha]]%lookup_insert_Some; [|by apply (HH n)].
    apply CheckReissueAsset_fields in Hop as [_ ?]. split; [by destruct (HH _ _ E)|done].
Qed.
Lemma tx_ops_checked tx : tx_kind ap tx -> Forall op_checked (tx_ops ap tx).
Proof.
  unfold tx_ops. intros [data own a addr oaddr Hn Hl _ Ha _ Hc _ _ _|data r addr Hn Hre Hl Ha Hc _ _ _ _|Hn Hre Hu _ Hck _ _ _|data a addr Hn Hre Hu Hm Hl Ha Hk Hc _ _ _|Hn Hre Hu Hm _ _ _].
  - rewrite Hn. unfold AssetFromTransaction. rewrite Hn, Hl. cbn [negb on_out]. rewrite Ha. by constructor.
  - rewrite Hn, Hre. unfold ReissueAssetFromTransaction. rewrite Hre, Hl. cbn [negb on_out]. rewrite Ha. by constructor.
  - rewrite Hn, Hre, Hu. rewrite Forall_concat, Forall_map, Forall_forall. intros o Ho. unfold unique_issue_of. destruct (IsScriptNewUniqueAsset ap (scriptPubKey o)) eqn:E; [|constructor].
    destruct (Hck o Ho E) as (a & addr & -> & Hc). by constructor.
  - rewrite Hn, Hre, Hu, Hm. unfold MsgChannelAssetFromTransaction. rewrite Hm, Hl. cbn [negb on_out]. unfold MsgChannelAssetFromScript. rewrite Hk, Ha. by constructor.
  - rewrite Hn, Hre, Hu, Hm. constructor.
Qed.

(** The outpoint of a reissue names its asset. *)
Definition reissue_named (tx : CTransaction) : Prop :=
  forall r addr, ReissueAssetFromTransaction ap tx = Some (r, addr) -> reissue_at (out_key (mkOutPoint (GetHash tx) (zlen (vout tx) - 1))) = re_strName r.

Lemma valid_reissue env t w H H0 r tx addr w' : ok t w H H0 -> shares w -> spared (re_strName r) -> assets_fine H -> reissue_named tx -> ReissueAssetFromTransaction ap tx = Some (r, addr) ->
  CheckReissueAsset false r = None -> ContextualCheckReissueAsset ap env t w r tx = (w', None) ->
  same_world w w' /\ valid_op reissue_at H (Reissue r (mkOutPoint (GetHash tx) (zlen (vout tx) - 1))).
Proof.
  intros Hs Hf Hsp Hre Hn Hr Hc. unfold ContextualCheckReissueAsset. rewrite Hr. destruct (CheckReissueAsset (ae_testnet env) r); [done|].
  pose proof (meta_is_asset t w H H0 (re_strName r) Hs Hf Hsp) as Hm. destruct (state_meta _ _ _ _ _ _ (re_strName r) Hs) as [_ Hw].
  destruct (GetAssetMetaDataIfExists t w (re_strName r)) as [w1 [[a at_]|]]; [|done]. cbn [fst snd fmap option_fmap option_map] in *. intros E.
  pose proof (f_equal fst E) as Ew. pose proof (f_equal snd E) as Hv. cbn [fst snd] in Ew, Hv. subst w1. clear E. split; [done|]. symmetry in Hm.
  apply first_error_none in Hv. apply Forall_cons in Hv as [H1 Hv]. apply Forall_cons in Hv as [H2 _]. rewrite need_none in *. apply negb_true_iff, Z.eqb_neq in H1. apply Z.leb_le in H2.
  destruct (CheckReissueAsset_fields r Hc) as [Hb _]. destruct Hs as [_ _ Hnow _ _ _]. cbn [cs_now] in Hnow. destruct (assets_of_hash reissue_at H _ _ Hnow Hm) as [_ Ha].
  rewrite swrap_small in H2 by (unfold MAX_MONEY, COIN in *; lia). split_and!; [by apply (Hn r addr)|lia|]. exists a. split; [done|]. split; [by destruct (Hre _ _ Hm) as [_ []]|done].
Qed.

Lemma unique_valid env H H0 t : ae_fReindex env = false -> forall outs w w', ok t w H H0 -> ContextualCheckUniqueAssetTx ap env t w outs = (w', None) ->
  same_world w w' /\ Forall (fun op => exists a, op = Issue a /\ valid_op reissue_at H (Issue a)) (concat (map (unique_issue_of ap) outs)).
Proof.
  intros Hr. induction outs as [|o outs IH]; intros w w' Hs; cbn [ContextualCheckUniqueAssetTx map concat].
  { intros [= <-]. split; [by eapply ok_refl|constructor]. }
  unfold unique_issue_of at 1. destruct (IsScriptNewUniqueAsset ap (scriptPubKey o)); [|by apply IH]. destruct (AssetFromScript ap (scriptPubKey o)) as [[a addr]|] eqn:Ea; [|done].
  destruct (ContextualCheckNewAsset env t w a false) as [w1 [e|]] eqn:E1; [done|]. destruct (valid_issue env t w H H0 _ _ _ _ _ Hr Hs Ea E1) as [Hw Hv]. intros E.
  destruct (IH w1 w' (ok_world _ _ _ _ _ Hw Hs) E) as [Hw' Hall]. split; [by eapply same_world_trans|]. constructor; [by exists a|done].
Qed.

Lemma said_none p r w : said p r = (w, None) -> r = (w, None).
Proof. unfold said. destruct r as [w1 [e|]]; [done|]. by intros [= <-]. Qed.

Lemma issue_rules_valid env st t w H H0 tx w' : ae_fReindex env = false -> ok t w H H0 -> shares w -> spared_ops (tx_ops ap tx) -> assets_fine H -> reissue_named tx -> tx_kind ap tx ->
  issue_rules ap env t st w tx = (w', None) -> same_world w w' /\ valid_ops H (tx_ops ap tx).
Proof.
  intros Hfr Hs Hf Hsp Hre Hn Hk. unfold issue_rules, tx_ops in *.
  destruct Hk as [data own a addr oaddr Hnew Hl _ Ha _ Hc _ _ _|data r addr Hnew Hrei Hl Ha Hc _ _ _ _|Hnew Hrei Hu _ Hck (root & m & Hun) _ _|data a addr Hnew Hrei Hu Hm Hl Ha Hk Hc _ _ _|Hnew Hrei Hu Hm Hq Hr _].
  - rewrite Hnew. unfold AssetFromTransaction. rewrite Hnew, Hl. cbn [negb on_out]. rewrite Ha. destruct (ContextualCheckNewAsset env t w a _) as [w1 [e|]] eqn:E1; [done|].
    destruct (valid_issue _ _ _ _ _ _ _ _ _ _ Hfr Hs Ha E1) as [Hw Hv]. intros E. apply (f_equal fst) in E. cbn [fst] in E. subst w1. by split_and!.
  - rewrite Hnew, Hrei, Hl. cbn [on_out]. rewrite Ha. assert (Hra : ReissueAssetFromTransaction ap tx = Some (r, addr)) by (unfold ReissueAssetFromTransaction; by rewrite Hrei, Hl).
    rewrite Hnew, Hrei, Hra in Hsp. apply Forall_cons in Hsp as [Hsp _]. rewrite Hra. intros E%said_none. destruct (valid_reissue _ _ _ _ _ _ _ _ _ Hs Hf Hsp Hre Hn Hra Hc E) as [Hw Hv]. by split_and!.
  - rewrite Hnew, Hrei, Hu. intros E%said_none. destruct (unique_valid _ _ _ _ Hfr _ _ _ Hs E) as [Hw Hv]. split; [done|]. apply fresh_ops_valid; [done|]. by apply (unique_names _ _ _ _ _ _ Hun).
  - rewrite Hnew, Hrei, Hu, Hm. assert (Hma : MsgChannelAssetFromTransaction ap tx = Some (a, addr)).
    { unfold MsgChannelAssetFromTransaction. rewrite Hm, Hl. cbn [negb on_out]. unfold MsgChannelAssetFromScript. by rewrite Hk. }
    rewrite Hma. intros E%said_none. destruct (valid_issue _ _ _ _ _ _ _ _ _ _ Hfr Hs Ha E) as [Hw Hv]. by split_and!.
  - rewrite Hnew, Hrei, Hu, Hm, Hq, Hr. intros E. apply (f_equal fst) in E. cbn [fst] in E. subst w'. split; [by eapply ok_refl|done].
Qed.

(** *** Updating *)

Lemma GetAssetMetaData_passets t w n : passets (GetAssetMetaDataIfExists t w n).1 = passets w.
Proof. unfold GetAssetMetaDataIfExists. repeat case_match; done. Qed.
Lemma add_reissue_ok t w H H0 r address out : ok t w H H0 -> shares w -> valid_op reissue_at H (Reissue r out) ->
  let s := (AddReissueAsset fAssetIndex unset t w r address out).1 in ok s.1 s.2 (Reissue r out :: H) H0 /\ shares s.2.
Proof.
  intros Hs Hf Hop. destruct (AddReissueAsset fAssetIndex unset t w r address out) as [[t' w'] b] eqn:E. cbn [fst snd].
  destruct (reissue_ok reissue_at fAssetIndex unset t w H H0 r address out t' w' b Hs Hop E) as [_ Hs']. split; [done|]. revert E. unfold AddReissueAsset.
  pose proof (GetAssetMetaData_passets t w (re_strName r)) as Hp. destruct (GetAssetMetaDataIfExists t w (re_strName r)) as [w1 [[a at_]|]]; cbn [fst] in Hp; repeat case_match; intros [= _ <- _]; unfold shares in *; by rewrite Hp.
Qed.
Lemma ok_owner t w H H0 n address : ok t w H H0 -> ok (AddOwnerAsset fAssetIndex t n address) w H H0.
Proof. intros Hs. eapply state_ok_same; [|exact Hs]. eapply same_assets_trans; [|apply set_amount_same]. done. Qed.

Lemma add_uniques_ok outs h hash : forall s H H0, ok s.1 s.2 H H0 -> shares s.2 -> spared_ops (concat (map (unique_issue_of ap) outs)) -> valid_ops H (concat (map (unique_issue_of ap) outs)) ->
  (forall o, o ∈ outs -> IsScriptNewUniqueAsset ap (scriptPubKey o) = true -> is_Some (AssetFromScript ap (scriptPubKey o))) ->
  let s' := fold_left (fun s o => if IsScriptNewUniqueAsset ap (scriptPubKey o) then add_found false fAssetIndex s (AssetFromScript ap (scriptPubKey o)) h hash else s) outs s in
  ok s'.1 s'.2 (rev (concat (map (unique_issue_of ap) outs)) ++ H) H0 /\ shares s'.2.
Proof.
  induction outs as [|o outs IH]; intros s H H0 Hs Hf Hsp Hv Hall; [done|]. cbn [map concat fold_left] in *. specialize (fun s H H0 Hs Hf Hsp Hv => IH s H H0 Hs Hf Hsp Hv (fun x Hx => Hall x (list_elem_of_further _ _ _ Hx))).
  unfold unique_issue_of at 1 in Hsp. unfold unique_issue_of at 1 in Hv. unfold unique_issue_of at 1. destruct (IsScriptNewUniqueAsset ap (scriptPubKey o)) eqn:Eu; [|by apply IH].
  destruct (Hall o (list_elem_of_here _ _) Eu) as [[a addr] Ea]. rewrite Ea in Hsp, Hv |- *. destruct Hv as [Hop Hv]. apply Forall_cons in Hsp as [Hsp1 Hsp]. destruct s as [t w].
  destruct (add_new_ok t w H H0 a addr h hash Hs Hf Hsp1 Hop) as [Hs1 Hf1]. cbn [app rev]. rewrite <-app_assoc. by apply IH.
Qed.

Lemma add_issued_ok s tx h hash H H0 : ok s.1 s.2 H H0 -> shares s.2 -> spared_ops (tx_ops ap tx) -> tx_kind ap tx -> valid_ops H (tx_ops ap tx) ->
  let s' := (add_issued ap false fAssetIndex unset s tx h hash).1 in ok s'.1 s'.2 (rev (tx_ops ap tx) ++ H) H0 /\ shares s'.2.
Proof.
  destruct s as [t w]. cbn [fst snd]. intros Hs Hf Hsp Hk. unfold tx_ops, add_issued in *.
  destruct Hk as [data own a addr oaddr Hnew Hl _ Ha _ _ _ _ _|data r addr Hnew Hrei Hl Ha _ _ _ _ _|Hnew Hrei Hu _ Hck _ _ _|data a addr Hnew Hrei Hu Hm Hl Ha Hk _ _ _ _|Hnew Hrei Hu Hm Hq Hr _].
  - rewrite Hnew in *. unfold AssetFromTransaction in *. rewrite Hnew, Hl in *. cbn [negb on_out] in *. rewrite Ha in *. intros [Hop _]. apply Forall_cons in Hsp as [Hsp _]. destruct (default ([], []) (OwnerFromTransaction ap tx)) as [n oa]. cbn [fst snd rev app].
    destruct (add_new_ok t w H H0 a addr h hash Hs Hf Hsp Hop) as [Hs1 Hf1]. split; [by apply ok_owner|done].
  - rewrite Hnew, Hrei. unfold ReissueAssetFromTransaction. rewrite Hrei, Hl. cbn [negb on_out]. rewrite Ha. intros [Hop _].
    change (default (CReissueAsset_null, []) (Some (r, addr))) with (r, addr). cbn [fst snd rev app]. destruct (state_meta _ _ _ _ _ _ (re_strName r) Hs) as [_ Hw].
    destruct (GetAssetMetaDataIfExists t w (re_strName r)) as [w1 found]. cbn [fst snd] in *. apply add_reissue_ok; [by eapply ok_world|by eapply same_world_shares|done].
  - rewrite Hnew, Hrei, Hu in *. intros Hv. cbn [fst]. apply (add_uniques_ok (vout tx) h hash (t, w)); [done..|]. intros o Ho Eu. destruct (Hck o Ho Eu) as (a & addr & -> & _). done.
  - rewrite Hnew, Hrei, Hu, Hm in *. unfold MsgChannelAssetFromTransaction in *. rewrite Hm, Hl in *. cbn [negb on_out] in *. unfold MsgChannelAssetFromScript in *. rewrite Hk, Ha in *. intros [Hop _]. apply Forall_cons in Hsp as [Hsp _]. cbn [fst snd rev app].
    by apply add_new_ok.
  - by rewrite Hnew, Hrei, Hu, Hm, Hq, Hr.
Qed.

(** The undo data of what it reissues. *)
Definition issued_undo (H : list asset_op) (tx : CTransaction) : option (bytes * CBlockAssetUndo) :=
  match tx_ops ap tx with
  | [Reissue r _] =>
      if bool_decide (re_strIPFSHash r = []) && (re_nUnits r =? -1) then None
      else Some (re_strName r, undo_item (default CNewAsset_null (assets_of H !! re_strName r)) r)
  | _ => None
  end.
Lemma unique_ops outs : Forall (fun op => exists a, op = Issue a) (concat (map (unique_issue_of ap) outs)).
Proof.
  rewrite Forall_concat, Forall_map, Forall_forall. intros o _. unfold unique_issue_of. destruct (IsScriptNewUniqueAsset _ _); [|constructor].
  destruct (AssetFromScript _ _) as [[a addr]|]; [|constructor]. by repeat constructor; exists a.
Qed.
Lemma add_issued_undo s tx h hash H H0 : ok s.1 s.2 H H0 -> shares s.2 -> spared_ops (tx_ops ap tx) -> tx_kind ap tx -> (add_issued ap false fAssetIndex unset s tx h hash).2 = issued_undo H tx.
Proof.
  destruct s as [t w]. cbn [fst snd]. intros Hs Hf Hsp Hk. unfold issued_undo, tx_ops, add_issued in *.
  destruct Hk as [data own a addr oaddr Hnew Hl _ Ha _ _ _ _ _|data r addr Hnew Hrei Hl Ha _ _ _ _ _|Hnew Hrei Hu _ Hck _ _ _|data a addr Hnew Hrei Hu Hm Hl Ha Hk _ _ _ _|Hnew Hrei Hu Hm Hq Hr _].
  - rewrite Hnew. unfold AssetFromTransaction. rewrite Hnew, Hl. cbn [negb on_out]. rewrite Ha. by destruct (default ([], []) (OwnerFromTransaction ap tx)).
  - rewrite Hnew, Hrei in *. unfold ReissueAssetFromTransaction in *. rewrite Hrei, Hl in *. cbn [negb on_out] in *. rewrite Ha in *. apply Forall_cons in Hsp as [Hsp _]. change (default (CReissueAsset_null, []) (Some (r, addr))) with (r, addr). cbn [fst snd].
    pose proof (meta_is_asset t w H H0 (re_strName r) Hs Hf Hsp) as Hm. destruct (GetAssetMetaDataIfExists t w (re_strName r)) as [w1 found]. cbn [snd] in *. rewrite <-Hm.
    unfold undo_item. destruct (bool_decide (re_strIPFSHash r = [])), (re_nUnits r =? -1); cbn [negb orb andb]; try done; by destruct found as [[]|].
  - rewrite Hnew, Hrei, Hu. cbn [snd]. pose proof (unique_ops (vout tx)) as Ho. destruct (concat _) as [|op [|]]; [done| |by destruct op]. apply Forall_cons in Ho as [(a & ->) _]. done.
  - rewrite Hnew, Hrei, Hu, Hm. unfold MsgChannelAssetFromTransaction. rewrite Hm, Hl. cbn [negb on_out]. unfold MsgChannelAssetFromScript. by rewrite Hk, Ha.
  - by rewrite Hnew, Hrei, Hu, Hm, Hq, Hr.
Qed.

Lemma add_transfers_ok txid outs H H0 : forall s n, ok s.1 s.2 H H0 -> let s' := add_transfers ap fAssetIndex s txid n outs in ok s'.1 s'.2 H H0 /\ s'.2 = s.2.
Proof.
  induction outs as [|o outs IH]; intros s n Hs; [done|]. cbn [add_transfers]. set (t := match GetAssetData ap (scriptPubKey o) with Some _ => _ | None => _ end).
  assert (Ht : ok t s.2 H H0).
  { subst t. destruct (GetAssetData ap (scriptPubKey o)) as [d|]; [|done]. destruct (_ && _); [|done]. eapply state_ok_same; [|exact Hs].
    unfold AddTransferAsset. eapply same_assets_trans; [apply change_best_same|done]. }
  exact (IH (t, s.2) (n + 1) Ht).
Qed.

(** *** Spending *)

Hypothesis Hprefixes : prefixes_ok (ap_prefixes ap).

(** A coin the code can read: its script is bytes, and names an asset if it has one. *)
Definition coin_fine (coin : Coin) : Prop :=
  bytes_ok (scriptPubKey (coin_out coin)) /\
  (is_asset_script (scriptPubKey (coin_out coin)) = true ->
   exists d, GetAssetData ap (scriptPubKey (coin_out coin)) = Some d /\ ao_assetName d <> [] /\ 0 <= ao_nAmount d <= MAX_MONEY).

Lemma script_address_some s : bytes_ok s -> is_asset_script s = true -> script_address ap s <> [].
Proof.
  unfold is_asset_script. destruct (IsAssetScript s) as [[[ty own] n]|] eqn:Es; [|done]. intros Hb _. pose proof (IsAssetScript_long _ _ Es) as Hlong. unfold script_address, ExtractDestination, Solver.
  replace (IsPayToScriptHash s) with false by (unfold IsPayToScriptHash; destruct (Z.eqb_spec (zlen s) 23); [lia|done]). rewrite Es.
  assert (Hty : ty = TX_NEW_ASSET \/ ty = TX_TRANSFER_ASSET \/ ty = TX_REISSUE_ASSET) by (unfold IsAssetScript in Es; case_ifs_in Es; injection Es as <- _ _; auto).
  assert (Hw : wf_destination (CKeyID (take 20 (drop 3 s)))).
  { split; [unfold zlen in Hlong; rewrite length_take, length_drop; lia|by apply bytes_ok_take, bytes_ok_drop]. }
  intros E. assert (Ed : EncodeDestination (ap_prefixes ap) (CKeyID (take 20 (drop 3 s))) = EncodeDestination (ap_prefixes ap) CNoDestination).
  { transitivity (@nil Z); [|done]. by destruct Hty as [->|[->| ->]]. }
  by apply (EncodeDestination_inj _ _ CNoDestination Hprefixes Hw I) in Ed.
Qed.
Lemma asset_of_data script : asset_of_script ap script = (fun d => (ao_assetName d, ao_nAmount d, script_address ap script)) <$> GetAssetData ap script.
Proof.
  unfold asset_of_script, GetAssetData, AssetFromScript, OwnerAssetFromScript, TransferAssetFromScript, ReissueAssetFromScript, from_script.
  unfold IsScriptNewAsset, IsScriptOwnerAsset, IsScriptTransferAsset, IsScriptReissueAsset. destruct (IsAssetScript script) as [[[[] []] n]|]; try done; by repeat case_match; simplify_eq.
Qed.
Lemma TrySpendCoin_fine t w coin : coin_fine coin -> (TrySpendCoin fAssetIndex ap t w (coin_out coin)).2 = true.
Proof.
  intros [Hb Hd]. unfold TrySpendCoin. destruct (is_asset_script _) eqn:Ea; [|done]. cbn [negb]. rewrite asset_of_data. destruct (Hd eq_refl) as (d & -> & Hn & _). cbn [fmap option_fmap option_map].
  rewrite (bool_decide_eq_false_2 (script_address _ _ = [])), (bool_decide_eq_false_2 (ao_assetName d = [])) by (done || by apply script_address_some). cbn [orb].
  destruct (negb _); [done|]. by destruct (GetBestAssetAddressAmount _ _ _ _) as [t1 []].
Qed.
Lemma spend_assets_ok coins H H0 : forall s, Forall coin_fine coins -> ok s.1 s.2 H H0 -> exists s', spend_assets ap fAssetIndex s coins = Some s' /\ ok s'.1 s'.2 H H0 /\ s'.2 = s.2.
Proof.
  induction coins as [|coin coins IH]; intros [t w] Hf Hs; [by eexists|]. apply Forall_cons in Hf as [Hc Hf]. cbn [spend_assets fst snd].
  pose proof (TrySpendCoin_fine t w coin Hc) as Ht. pose proof (TrySpendCoin_same fAssetIndex ap t w (coin_out coin)) as Hsame. destruct (TrySpendCoin _ _ _ _ _) as [t1 b]. cbn [fst snd] in *. subst b.
  apply (IH (t1, w) Hf). by apply (state_ok_same reissue_at t).
Qed.

Lemma update_assets_ok s tx spent h hash H H0 : ok s.1 s.2 H H0 -> shares s.2 -> spared_ops (tx_ops ap tx) -> tx_kind ap tx -> valid_ops H (tx_ops ap tx) -> Forall coin_fine spent ->
  exists s' u, update_assets ap false fAssetIndex unset s tx spent h hash = Some (s', u) /\ ok s'.1 s'.2 (rev (tx_ops ap tx) ++ H) H0 /\ shares s'.2 /\ u = issued_undo H tx.
Proof.
  intros Hs Hf Hspare Hk Hv Hsp. unfold update_assets. destruct (spend_assets_ok spent H H0 s Hsp Hs) as (s1 & -> & Hs1 & E1). rewrite <-E1 in Hf.
  destruct (add_issued_ok s1 tx h hash H H0 Hs1 Hf Hspare Hk Hv) as [Hs2 Hf2]. pose proof (add_issued_undo s1 tx h hash H H0 Hs1 Hf Hspare Hk) as Hu. destruct (add_issued ap false fAssetIndex unset s1 tx h hash) as [s2 u]. cbn [fst snd] in *.
  destruct (add_transfers_ok (GetHash tx) (vout tx) _ _ s2 0 Hs2) as [Hs3 E3]. eexists _, u. split; [done|]. split; [done|]. by rewrite E3.
Qed.

(** *** A transaction in the loop *)

Lemma asset_output_world env t w H H0 tx index o A f w' r : ok t w H H0 -> asset_output ap env t w tx index o A f = (w', r) -> same_world w w'.
Proof.
  intros Hs. assert (Hr := ok_refl _ _ _ _ Hs). unfold asset_output. destruct (IsNullAsset _); [by intros [= <- _]|].
  destruct (IsAssetScript (scriptPubKey o)) as [[[[] own] n]|]; try (by intros [= <- _]).
  - destruct (ReissueAssetFromScript ap _) as [[re a]|]; [|by intros [= <- _]]. destruct (om_find _ _); [destruct (bytes_eqb _ _)|]; by intros [= <- _].
  - destruct (TransferAssetFromScript ap _) as [[tr a]|]; [|by intros [= <- _]]. destruct (ContextualCheckTransferAsset tr); [by intros [= <- _]|]. destruct (_ <? _); [by intros [= <- _]|].
    destruct (_ <? _); [by intros [= <- _]|]. cbv zeta. destruct (negb _); [by intros [= <- _]|]. unfold transfer_units. destruct (IsAssetNameAnOwner _); [destruct (_ =? _); by intros [= <- _]|].
    destruct (state_meta _ _ _ _ _ _ (tr_strName tr) Hs) as [_ Hw]. destruct (GetAssetMetaDataIfExists t w (tr_strName tr)) as [w1 x]. cbn [fst] in Hw. destruct (match x with Some _ => _ | None => _ end); by intros [= <- _].
Qed.
Lemma asset_outputs_world env t H H0 tx A outs : forall w index f w' r, ok t w H H0 -> asset_outputs ap env t w tx index outs A f = (w', r) -> same_world w w'.
Proof.
  induction outs as [|o outs IH]; intros w index f w' r Hs; cbn [asset_outputs]; [intros [= <- _]; by eapply ok_refl|].
  destruct (asset_output ap env t w tx index o A f) as [w1 [f1|e]] eqn:E1; pose proof (asset_output_world _ _ _ _ _ _ _ _ _ _ _ _ Hs E1) as Hw; [|by intros [= <- _]].
  intros E. eapply same_world_trans; [exact Hw|]. eapply IH; [by eapply ok_world|exact E].
Qed.

Lemma transfer_fine o : out_checked ap o -> is_transfer o = true ->
  exists d, GetAssetData ap (scriptPubKey o) = Some d /\ ao_assetName d <> [] /\ 0 <= ao_nAmount d <= MAX_MONEY.
Proof.
  intros [_ Ht] Et. destruct (Ht Et) as (t & a & Ef & Hb & Hv & _). apply is_transfer_iff in Et as (own & n & Es). rewrite (transfer_data ap o own n Es), Ef. eexists. split; [done|]. cbn. split; [|lia].
  by intros E; rewrite E in Hv.
Qed.
Lemma issue_fine tx o : tx_kind ap tx -> o ∈ vout tx -> is_issue o = true -> exists a addr, AssetFromScript ap (scriptPubKey o) = Some (a, addr) /\ CheckNewAsset a = None.
Proof.
  intros Hk Ho Hi. destruct Hk as [data own a addr oaddr _ _ _ Ha _ Hc E1 _ _|data r addr _ _ _ _ _ _ E1 _ _|_ _ _ Hu Hck _ _ _|data a addr _ _ _ _ _ Ha _ Hc E1 _ _|_ _ _ _ _ _ Hall].
  - only_out E1 Ho Hi. by exists a, addr.
  - only_out E1 Ho Hi.
  - apply (Hck o Ho). by apply Hu.
  - only_out E1 Ho Hi. by exists a, addr.
  - apply CheckIssueDataTx_iff in Hi as [n Hi]. specialize (Hall o Ho). unfold is_asset_script in Hall. rewrite Hi in Hall. apply is_transfer_iff in Hall as (own & m & E); [|done]. congruence.
Qed.
Lemma owner_fine tx o n : tx_kind ap tx -> o ∈ vout tx -> IsAssetScript (scriptPubKey o) = Some (TX_NEW_ASSET, true, n) ->
  exists name addr, OwnerAssetFromScript ap (scriptPubKey o) = Some (name ++ OWNER_TAG, addr).
Proof.
  intros Hk Ho Es. assert (Hi : CheckOwnerDataTx o = true) by (unfold CheckOwnerDataTx, IsScriptOwnerAsset; by rewrite Es).
  destruct Hk as [data own a addr oaddr _ _ _ _ How _ _ E2 _|data r addr _ _ _ _ _ _ _ E2 _|_ _ _ _ _ _ E2 _|data a addr _ _ _ _ _ _ _ _ _ E2 _|_ _ _ _ _ _ Hall]; try only_out E2 Ho Hi.
  - by exists (strName a), oaddr.
  - specialize (Hall o Ho). unfold is_asset_script in Hall. rewrite Es in Hall. apply is_transfer_iff in Hall as (own & m & E); [|done]. congruence.
Qed.
Lemma reissue_fine H tx o own n : tx_kind ap tx -> assets_fine H -> valid_ops H (tx_ops ap tx) -> o ∈ vout tx -> IsAssetScript (scriptPubKey o) = Some (TX_REISSUE_ASSET, own, n) ->
  exists r addr, ReissueAssetFromScript ap (scriptPubKey o) = Some (r, addr) /\ re_strName r <> [] /\ 0 <= re_nAmount r <= MAX_MONEY.
Proof.
  intros Hk HH Hv Ho Es. assert (Hi : CheckReissueDataTx o = true) by (unfold CheckReissueDataTx, IsScriptReissueAsset; by rewrite Es).
  destruct Hk as [data own' a addr oaddr _ _ _ _ _ _ _ _ E3|data r addr Hnew Hrei Hl Ha Hc _ _ _ E3|_ _ _ _ _ _ _ E3|data a addr _ _ _ _ _ _ _ _ _ _ E3|_ _ _ _ _ _ Hall]; try only_out E3 Ho Hi.
  - exists r, addr. split; [done|]. unfold tx_ops, ReissueAssetFromTransaction in Hv. rewrite Hnew, Hrei, Hl in Hv. cbn [negb on_out] in Hv. rewrite Ha in Hv. destruct Hv as [(_ & _ & a & E & _) _].
    split; [by destruct (HH _ _ E)|]. destruct (CheckReissueAsset_fields r Hc). lia.
  - specialize (Hall o Ho). unfold is_asset_script in Hall. rewrite Es in Hall. apply is_transfer_iff in Hall as (own' & m & E); [|done]. congruence.
Qed.
(** The outputs of an accepted transaction are coins the code can read. *)
Lemma outs_fine H tx o cb h : tx_kind ap tx -> assets_fine H -> valid_ops H (tx_ops ap tx) -> out_checked ap o -> bytes_ok (scriptPubKey o) -> o ∈ vout tx -> coin_fine (mkCoin o cb h).
Proof.
  intros Hk HH Hv Hc Hb Ho. split; [done|]. cbn [coin_out]. intros Ha. destruct (is_transfer o) eqn:Et; [by apply transfer_fine|]. unfold is_asset_script in Ha. unfold GetAssetData.
  destruct (IsAssetScript (scriptPubKey o)) as [[[ty own] n]|] eqn:Es; [|done].
  assert (Hty : ty = TX_NEW_ASSET \/ ty = TX_TRANSFER_ASSET \/ ty = TX_REISSUE_ASSET) by (pose proof Es as Es'; unfold IsAssetScript in Es'; case_ifs_in Es'; injection Es' as <- _ _; auto).
  destruct Hty as [->|[->| ->]].
  - destruct own.
    + destruct (owner_fine tx o n Hk Ho Es) as (name & addr & ->). eexists. split; [done|]. cbn. split; [by destruct name|by vm_compute].
    + destruct (issue_fine tx o Hk Ho) as (a & addr & -> & Hf); [apply CheckIssueDataTx_iff; by exists n|]. eexists. split; [done|]. cbn. destruct (CheckNewAsset_fields a Hf) as (? & _ & _ & ?). split; [done|lia].
  - apply not_true_iff_false in Et. destruct Et. apply is_transfer_iff. by exists own, n.
  - destruct (reissue_fine H tx o own n Hk HH Hv Ho Es) as (r & addr & -> & Hn & Hr). by eexists.
Qed.

(** ** The invariant of the loop *)

(** The asset operations of transactions, the last first; the asset undo data of a
    transaction after a history, and of several. *)
Definition ops_of (txs : list CTransaction) : list asset_op := rev (concat (map (tx_ops ap) txs)).
Definition tx_undo (H : list asset_op) (tx : CTransaction) : list (bytes * CBlockAssetUndo) := match issued_undo H tx with Some item => [item] | None => [] end.
Fixpoint txs_undo (H : list asset_op) (txs : list CTransaction) : list (bytes * CBlockAssetUndo) :=
  match txs with [] => [] | tx :: txs => tx_undo H tx ++ txs_undo (rev (tx_ops ap tx) ++ H) txs end.
(** What holds of transactions that went through the loop after a history. *)
Definition tx_facts (H : list asset_op) (tx : CTransaction) : Prop :=
  tx_kind ap tx /\ valid_ops H (tx_ops ap tx) /\ Forall (fun o => coin_fine (mkCoin o false 0)) (vout tx).
Fixpoint txs_facts (H : list asset_op) (txs : list CTransaction) : Prop :=
  match txs with [] => True | tx :: txs => tx_facts H tx /\ txs_facts (rev (tx_ops ap tx) ++ H) txs end.

Lemma ops_of_cons tx txs H : ops_of (tx :: txs) ++ H = ops_of txs ++ rev (tx_ops ap tx) ++ H.
Proof. unfold ops_of. cbn [map concat]. by rewrite rev_app_distr, app_assoc. Qed.
Lemma ops_of_snoc txs tx H : ops_of (txs ++ [tx]) ++ H = rev (tx_ops ap tx) ++ ops_of txs ++ H.
Proof. unfold ops_of. rewrite map_app, concat_app, rev_app_distr. cbn [map concat]. by rewrite app_nil_r, app_assoc. Qed.
Lemma txs_undo_snoc txs tx : forall H, txs_undo H (txs ++ [tx]) = txs_undo H txs ++ tx_undo (ops_of txs ++ H) tx.
Proof. induction txs as [|t txs IH]; intros H; cbn [app txs_undo]; [by rewrite app_nil_r|]. by rewrite IH, ops_of_cons, app_assoc. Qed.
Lemma txs_facts_snoc txs tx : forall H, txs_facts H txs -> tx_facts (ops_of txs ++ H) tx -> txs_facts H (txs ++ [tx]).
Proof. induction txs as [|t txs IH]; intros H Hf Ht; cbn [app txs_facts] in *; [by split|]. destruct Hf as [H1 H2]. rewrite ops_of_cons in Ht. split; [done|by apply IH]. Qed.

(** The caches stand for the history with the operations of the transactions done,
    the coins can be read, and of each asset there are no more units than the
    history made. *)
Definition supply_inv (H0 : list asset_op) (past : list CTransaction) (v : view) (s : asset_state) : Prop :=
  let H := ops_of past ++ H0 in
  ok (as_cache s) (as_global s) H H0 /\ shares (as_global s) /\ assets_fine H /\ map_Forall (fun _ coin => coin_fine coin) v /\
  (forall name, view_sum (coin_units ap name) v <= ops_units H name) /\ txs_facts H0 past /\ as_undo s = txs_undo H0 past.

Lemma add_view_Forall (P : Coin -> Prop) outs txid h cb : forall v n, map_Forall (fun _ coin => P coin) v -> Forall (fun o => P (mkCoin o cb h)) outs ->
  map_Forall (fun _ coin => P coin) (add_view v txid n outs h cb).
Proof.
  induction outs as [|o outs IH]; intros v n Hv Ho; [done|]. apply Forall_cons in Ho as [H1 Ho]. cbn [add_view]. apply IH; [|done]. destruct (IsUnspendable _); [done|]. by apply map_Forall_insert_2.
Qed.
Lemma tx_view_Forall (P : Coin -> Prop) v tx h : map_Forall (fun _ coin => P coin) v -> Forall (fun o => P (mkCoin o (IsCoinBase tx) h)) (vout tx) ->
  map_Forall (fun _ coin => P coin) (tx_view v tx h).
Proof.
  intros Hv Ho. unfold tx_view. apply add_view_Forall; [|done]. destruct (IsCoinBase tx); [done|]. intros o coin Hc. apply (Hv o). by eapply spend_view_Some.
Qed.
Lemma coin_units_nonneg name coin : coin_fine coin -> 0 <= coin_units ap name coin.
Proof.
  intros [_ Hd]. unfold coin_units, script_units. destruct (GetAssetData ap (scriptPubKey (coin_out coin))) as [d|] eqn:E; [|done].
  assert (Ha : is_asset_script (scriptPubKey (coin_out coin)) = true).
  { apply not_false_iff_true. intros Ha. by rewrite (GetAssetData_asset ap _ Ha) in E. }
  destruct (Hd Ha) as (d' & E' & _ & Hb). assert (d' = d) as -> by congruence. destruct (bytes_eqb _ _); lia.
Qed.

(** The units after a transaction that moves what it spends. *)
Lemma units_step name v tx h H : shape_ok ap tx -> tx_kind ap tx -> fresh_in v tx -> (IsCoinBase tx = false -> inputs_in v (vin tx)) ->
  Forall (fun o => coin_fine (mkCoin o (IsCoinBase tx) h)) (vout tx) ->
  sumZ (map (moved_units ap name) (vout tx)) = (if IsCoinBase tx then 0 else in_sum (coin_units ap name) v (vin tx)) ->
  view_sum (coin_units ap name) v <= ops_units H name -> view_sum (coin_units ap name) (tx_view v tx h) <= ops_units (rev (tx_ops ap tx) ++ H) name.
Proof.
  intros Hs Hk Hf Hin Ho Hm Hle. pose proof (tx_view_sum ap (coin_units ap name) v tx h Hs Hf Hin) as Ht.
  assert (Hsum : sumZ (map (fun o => coin_units ap name (mkCoin o (IsCoinBase tx) h)) (vout tx)) = sumZ (map (moved_units ap name) (vout tx)) + sumZ (map (made_units ap name) (vout tx))).
  { rewrite <-sumZ_map_add. apply sumZ_map_ext. intros o _. apply (units_split ap name o). }
  rewrite Hsum, Hm in Ht. pose proof (made_le_ops ap tx name Hk). rewrite ops_units_app, ops_units_rev.
  assert (Hnn : Forall (fun o => 0 <= coin_units ap name (mkCoin o (IsCoinBase tx) h)) (vout tx)) by (eapply Forall_impl; [exact Ho|]; intros o; apply coin_units_nonneg).
  specialize (Ht Hnn). destruct (IsCoinBase tx); lia.
Qed.

(** A coinbase has no assets. *)
Lemma coinbase_no_assets tx : tx_checked ap false tx -> IsCoinBase tx = true -> forall o, o ∈ vout tx -> is_asset_script (scriptPubKey o) = false.
Proof.
  intros (st & pool & blk & (s & _ & _ & _ & _ & _ & Hc & _)%CheckTransaction_inv) Hcb o Ho. unfold IsCoinBase, coinbase_or_inputs in *. destruct (vin tx) as [|i [|]]; [done| |done].
  rewrite Hcb in Hc. apply first_reject_accept in Hc. apply Forall_cons in Hc as [_ Hc]. apply Forall_cons in Hc as [Hc _]. unfold check in Hc. destruct (existsb _ (vout tx)) eqn:E; [done|].
  apply not_true_iff_false. intros Ha. apply not_true_iff_false in E. apply E, existsb_exists. exists o. split; [by apply list_elem_of_In|]. by rewrite Ha.
Qed.
Lemma no_assets_no_ops tx : (forall o, o ∈ vout tx -> is_asset_script (scriptPubKey o) = false) -> tx_ops ap tx = [].
Proof.
  intros Hno. assert (Hi : forall o, o ∈ vout tx -> IsAssetScript (scriptPubKey o) = None) by (intros o Ho; specialize (Hno o Ho); unfold is_asset_script in Hno; by destruct (IsAssetScript _)).
  assert (Hl : forall o, last_out tx = Some o -> CheckIssueDataTx o = false /\ CheckReissueDataTx o = false).
  { intros o Ho%last_out_in. unfold CheckIssueDataTx, CheckReissueDataTx, IsScriptNewAsset, IsScriptReissueAsset. by rewrite (Hi o Ho). }
  unfold tx_ops, tx_IsNewAsset, tx_IsReissueAsset, tx_IsNewUniqueAsset, tx_IsNewMsgChannelAsset, tx_new_of. destruct (last_out tx) as [o|]; cbn [on_out]; [|by destruct (_ <? _)].
  destruct (Hl o eq_refl) as [-> ->]. by destruct (_ <? _).
Qed.

(** What is known of the transactions of a block besides the checks: scripts are
    bytes, and a hash names one reissue. *)
Definition tx_known (tx : CTransaction) : Prop := reissue_named tx /\ Forall (fun o => bytes_ok (scriptPubKey o)) (vout tx).
Definition tx_good (tx : CTransaction) : Prop := tx_known tx /\ spared_ops (tx_ops ap tx).

Lemma spent_fine v ins : map_Forall (fun _ coin => coin_fine coin) v -> inputs_in v ins -> Forall coin_fine (spent_coins ins (undo_of v ins)).
Proof.
  intros Hv Hin. unfold spent_coins, undo_of. induction ins as [|i ins IH]; [constructor|]. apply Forall_cons in Hin as [Hi Hin]. cbn [map zip zip_with]. rewrite filter_cons. cbn [fst].
  destruct (decide (IsXAccountDummyPrevout (prevout i) = false)) as [Ed|]; [|by apply IH]. cbn [map snd]. constructor; [|by apply IH]. rewrite Ed. destruct (Hi Ed) as [coin Ec]. rewrite Ec. by apply (Hv (prevout i)).
Qed.

Section Loop.
Variable env : asset_env.
Hypothesis Hreindex : ae_fReindex env = false.
Variable base : view.
Hypothesis Hbase : unspent_view base.
Variable other_rules : Z -> CCoinsMap -> CTransaction -> option (Z * string).
Variable fWritten : bool.
Variable blockHash : bytes.

Lemma issued_undo_named H tx item : assets_fine H -> valid_ops H (tx_ops ap tx) -> issued_undo H tx = Some item -> item.1 <> [].
Proof.
  unfold issued_undo. intros HH Hv. destruct (tx_ops ap tx) as [|[a|r out] [|]]; try done. destruct Hv as [(_ & _ & a & Ha & _) _]. destruct (_ && _); [done|]. intros [= <-]. by destruct (HH _ _ Ha).
Qed.
Lemma update_keeps H0 past v s s1 tx h undo : shape_ok ap tx -> tx_kind ap tx -> fresh_in v tx -> (IsCoinBase tx = false -> inputs_in v (vin tx)) -> supply_inv H0 past v s ->
  as_cache s1 = as_cache s -> same_world (as_global s) (as_global s1) -> as_undo s1 = as_undo s -> spared_ops (tx_ops ap tx) -> valid_ops (ops_of past ++ H0) (tx_ops ap tx) ->
  Forall (fun o => coin_fine (mkCoin o false 0)) (vout tx) -> Forall coin_fine (spent_coins (vin tx) undo) ->
  (forall name, sumZ (map (moved_units ap name) (vout tx)) = if IsCoinBase tx then 0 else in_sum (coin_units ap name) v (vin tx)) ->
  exists s', asset_update ap false fAssetIndex unset fWritten blockHash h s1 tx undo = Some s' /\ supply_inv H0 (past ++ [tx]) (tx_view v tx h) s'.
Proof.
  intros Hs Hk Hf Hin (Hok & Hfw & HH & Hv & Hle & Hfacts & Hundo) Ec Ew Eu Hspare Hvo Hout Hsp Hm. set (H := ops_of past ++ H0) in *. unfold asset_update. rewrite Ec, Eu.
  destruct (update_assets_ok (as_cache s, as_global s1) tx (spent_coins (vin tx) undo) h blockHash H H0) as ([t w] & u & -> & Hok' & Hfw' & Hu); try done; [by eapply ok_world|by eapply same_world_shares|].
  eexists. split; [done|]. unfold supply_inv. rewrite ops_of_snoc. fold H. cbn [as_cache as_global as_undo]. split_and!; [done..| | | | |].
  - apply assets_fine_ops; [done|by apply tx_ops_checked].
  - by apply tx_view_Forall.
  - intros name. by apply units_step.
  - apply txs_facts_snoc; [done|]. by split_and!.
  - rewrite txs_undo_snoc, Hundo. fold H. f_equal. unfold tx_undo. rewrite <-Hu. destruct u as [item|]; [|done]. rewrite bool_decide_eq_false_2; [done|]. by eapply issued_undo_named.
Qed.

Lemma loop_keeps H0 : rules_keep base (fun tx => tx_checked ap false tx /\ tx_good tx) (asset_loop ap false fAssetIndex unset env base other_rules fWritten blockHash) (supply_inv H0).
Proof.
  intros h past s c tx Hc Hkept [Hck [[Hn Hb] Hspare]] Hf Hin Hinv. destruct (tx_checked_ok ap false tx Hck) as [Hs _]. pose proof Hinv as (Hok & Hfw & HH & Hv & _).
  assert (Hk : tx_kind ap tx) by (destruct Hck as (st & pool & blk & Hck); by eapply accepted_kind). cbn [lr_check lr_update asset_loop]. unfold asset_check.
  destruct (IsCoinBase tx) eqn:Ecb.
  - exists c. destruct (other_rules h c tx) as [e|]; [by eexists|]. eexists. split_and!; [done..|]. intros s' [= <-]. pose proof (coinbase_no_assets tx Hck Ecb) as Hno.
    rewrite <-Ecb in Hin. apply (update_keeps H0 past _ s); rewrite ?Ecb; try done.
    + by eapply ok_refl.
    + by rewrite (no_assets_no_ops tx Hno).
    + rewrite Forall_forall in Hb |- *. intros o Ho. split; [by apply Hb|]. cbn [coin_out]. by rewrite (Hno o Ho).
    + unfold spent_coins. by destruct (vin tx).
    + intros name. transitivity (sumZ (map (fun _ => 0) (vout tx))); [|clear; induction (vout tx) as [|x l IH]; [done|exact IH]]. apply sumZ_map_ext. intros o Ho. unfold moved_units, script_units.
      rewrite (GetAssetData_asset ap _ (Hno o Ho)). by destruct (is_transfer o).
  - pose proof (shape_dummies ap tx Hs) as Hd. destruct (CheckTxAssets_total ap env (as_cache s) (as_accounts s) base Hbase c (as_global s) tx Hc Hd Ecb) as (c1 & w1 & r & E & Hc1 & Hv1).
    rewrite E. exists c1. destruct r as [x|e]; [|by eexists]. destruct (other_rules h c1 tx) as [e|]; [by eexists|]. eexists. split_and!; [done..|]. intros s' [= <-].
    destruct (CheckTxAssets_Ok ap env (as_cache s) (as_accounts s) base Hbase c (as_global s) tx c1 w1 x Hc Hd E) as (_ & _ & _ & Hout & (A & f & w0 & Eo & Er) & Hcons).
    pose proof (asset_outputs_world _ _ _ _ _ _ _ _ _ _ _ _ Hok Eo) as Hw0. pose proof (ok_world _ _ _ _ _ Hw0 Hok) as Hok0. pose proof (same_world_shares _ _ Hw0 Hfw) as Hfw0.
    destruct (issue_rules_valid _ _ _ _ _ _ _ _ Hreindex Hok0 Hfw0 Hspare HH Hn Hk Er) as [Hw1 Hvo]. apply (update_keeps H0 past _ s); rewrite ?Ecb; cbn [as_cache as_global as_undo]; try done.
    + by eapply same_world_trans.
    + rewrite Forall_forall in Hb, Hout |- *. intros o Ho. eapply (outs_fine _ tx); try done; [by apply Hout|by apply Hb].
    + apply spent_fine; [done|by apply Hin].
    + intros name. apply Hcons.
Qed.
End Loop.

(** *** Amounts *)

(** The amount the caches know of a name, with the owner token of the asset it is for. *)
Definition owner_of (name : bytes) : option bytes := match rev name with c :: r => if c =? 33 then Some (rev r) else None | [] => None end.
Definition recorded (meta : bytes -> option CNewAsset) (name : bytes) : Z :=
  default 0 (na_nAmount <$> meta name) + match owner_of name with Some x => match meta x with Some _ => OWNER_ASSET_AMOUNT | None => 0 end | None => 0 end.

Lemma owner_of_iff name x : owner_of name = Some x <-> name = x ++ OWNER_TAG.
Proof.
  unfold owner_of. split.
  - destruct (rev name) as [|c r] eqn:E; [done|]. destruct (Z.eqb_spec c 33) as [->|]; [|done]. intros [= <-]. rewrite <-(rev_involutive name), E. done.
  - intros ->. rewrite rev_app_distr. cbn. by rewrite rev_involutive.
Qed.
Lemma ops_recorded H name : valid_history reissue_at H -> ops_units H name = recorded (fun n => assets_of H !! n) name.
Proof.
  induction H as [|op H IH]; intros HH; [unfold recorded; cbn; by destruct (owner_of name)|]. cbn [valid_history] in HH. destruct HH as [Hop HH]. specialize (IH HH).
  change (ops_units (op :: H) name) with (op_units op name + ops_units H name). rewrite IH. unfold recorded. destruct op as [a|r out]; cbn [assets_of op_units].
  - destruct Hop as (Hnone & _). destruct (bytes_eqb (strName a) name) eqn:En.
    + apply bytes_eqb_eq in En. subst name. rewrite lookup_insert_eq, Hnone. cbn [fmap option_fmap option_map].
      change (default 0 (Some (na_nAmount a))) with (na_nAmount a). change (default 0 None) with 0.
      assert (bytes_eqb (strName a ++ OWNER_TAG) (strName a) = false) as ->.
      { apply not_true_iff_false. intros E%bytes_eqb_eq%(f_equal length). rewrite length_app in E. cbn in E. lia. }
      destruct (owner_of (strName a)) as [x|] eqn:Eo; [|lia]. apply owner_of_iff in Eo. rewrite lookup_insert_ne; [lia|]. intros E. rewrite E in Eo at 1. apply (f_equal length) in Eo. rewrite length_app in Eo. cbn in Eo. lia.
    + assert (Hne : strName a <> name) by (intros E; by rewrite (proj2 (bytes_eqb_eq _ _) E) in En). rewrite lookup_insert_ne by done. destruct (bytes_eqb (strName a ++ OWNER_TAG) name) eqn:Eo.
      * apply bytes_eqb_eq, eq_sym, owner_of_iff in Eo. rewrite Eo, lookup_insert_eq, Hnone. cbv iota. lia.
      * destruct (owner_of name) as [x|] eqn:Ex; [|lia]. rewrite lookup_insert_ne; [lia|]. intros E. apply owner_of_iff in Ex. subst. by rewrite (proj2 (bytes_eqb_eq _ _) eq_refl) in Eo.
  - destruct Hop as (_ & Hr & a & Ha & _ & Hm). rewrite Ha. destruct (assets_of_hash reissue_at H _ _ HH Ha) as [_ Hb].
    assert (Ho : forall x, (match <[re_strName r := reissued a r]> (assets_of H) !! x with Some _ => OWNER_ASSET_AMOUNT | None => 0 end) = (match assets_of H !! x with Some _ => OWNER_ASSET_AMOUNT | None => 0 end)).
    { intros x. destruct (decide (re_strName r = x)) as [<-|]; [by rewrite lookup_insert_eq, Ha|by rewrite lookup_insert_ne]. }
    assert (Hod : match owner_of name with Some x => match <[re_strName r := reissued a r]> (assets_of H) !! x with Some _ => OWNER_ASSET_AMOUNT | None => 0 end | None => 0 end =
      match owner_of name with Some x => match assets_of H !! x with Some _ => OWNER_ASSET_AMOUNT | None => 0 end | None => 0 end) by (destruct (owner_of name); [apply Ho|done]).
    rewrite Hod. destruct (bytes_eqb (re_strName r) name) eqn:En.
    + apply bytes_eqb_eq in En. subst name. rewrite lookup_insert_eq, Ha. cbn [fmap option_fmap option_map reissued na_nAmount].
      change (default 0 (Some ?x)) with x. rewrite swrap_small by (unfold MAX_MONEY, COIN in *; lia). lia.
    + rewrite lookup_insert_ne; [lia|]. intros E. by rewrite (proj2 (bytes_eqb_eq _ _) E) in En.
Qed.
End Connecting.

(** ** Who may issue and reissue *)

Section Authority.
Variable ap : AssetParams.

(** An input spends a coin with units of an asset. *)
Definition spends (v : view) (tx : CTransaction) (name : bytes) : Prop :=
  exists i coin, i ∈ vin tx /\ IsXAccountDummyPrevout (prevout i) = false /\ v !! prevout i = Some coin /\ 0 < coin_units ap name coin.

Lemma in_sum_spends v tx name : inputs_in v (vin tx) -> 0 < in_sum (coin_units ap name) v (vin tx) -> spends v tx name.
Proof.
  unfold spends. induction (vin tx) as [|i ins IH]; [done|]. intros [Hi Hin]%Forall_cons. rewrite in_sum_cons.
  destruct (IsXAccountDummyPrevout (prevout i)) eqn:Ed.
  { intros Hp. destruct (IH Hin Hp) as (j & coin & Hj & Hrest). exists j, coin. split; [by right|done]. }
  destruct (Hi eq_refl) as [coin Ec]. rewrite Ec. change (default Coin_empty (Some coin)) with coin. destruct (Z.ltb_spec 0 (coin_units ap name coin)).
  { intros _. exists i, coin. split; [by left|done]. }
  intros Hp. destruct (IH Hin ltac:(lia)) as (j & coin' & Hj & Hrest). exists j, coin'. split; [by right|done].
Qed.
Lemma transfers_moved tx name : Forall (out_checked ap) (vout tx) -> transfers_of ap (vout tx) name = true -> 0 < sumZ (map (moved_units ap name) (vout tx)).
Proof.
  intros Hout. assert (Hnn : forall l, Forall (out_checked ap) l -> Forall (fun o => 0 <= moved_units ap name o) l).
  { intros l Hl. eapply Forall_impl; [exact Hl|]. intros o Ho. unfold moved_units. destruct (is_transfer o) eqn:Et; [|done]. destruct (transfer_fine ap o Ho Et) as (d & Hd & _ & Hb).
    unfold script_units. rewrite Hd. destruct (bytes_eqb _ _); lia. }
  unfold transfers_of. induction (vout tx) as [|o outs IH]; [done|]. apply Forall_cons in Hout as [Ho Hout]. cbn [existsb map]. change (sumZ (?x :: ?l)) with (x + sumZ l).
  pose proof (sumZ_map_nonneg _ _ (Hnn _ Hout)) as Hrest. pose proof (Hnn [o]) as H1. rewrite !Forall_singleton in H1. specialize (H1 Ho).
  destruct (TransferAssetFromScript ap (scriptPubKey o)) as [[t a]|] eqn:Ef; cbn [orb]; [|intros He; specialize (IH Hout He); lia]. destruct (bytes_eqb name (tr_strName t)) eqn:En; cbn [orb]; [|intros He; specialize (IH Hout He); lia].
  intros _. assert (Et : is_transfer o = true) by (unfold TransferAssetFromScript, from_script in Ef; unfold is_transfer; destruct (IsScriptTransferAsset _); [by apply bool_decide_eq_true_2|done]).
  destruct (proj2 Ho Et) as (t' & a' & Ef' & Hp & _). assert (t' = t) as -> by congruence. apply bytes_eqb_eq in En. subst name. unfold moved_units at 1. rewrite Et. apply is_transfer_iff in Et as (own & n & Es).
  unfold script_units. rewrite (transfer_data ap o own n Es), Ef. cbn. rewrite (proj2 (bytes_eqb_eq _ _) eq_refl). lia.
Qed.

(** A transaction that passes CheckTransaction and CheckTxAssets moves of every
    asset exactly the units that its inputs hold, at most MAX_MONEY. What it issues is
    allowed, and it reissues or issues under another asset only if one of its inputs
    spends the owner token of that asset. *)
Lemma tx_authority (env : asset_env) (this : CAssetsCache) (st st2 : XState) (pool : XPool) (mem blk : bool) (base : view) (c c' : CCoinsMap) (w w' : assets_global)
    (tx : CTransaction) (r : list CMessage * list (bytes * bytes)) :
  unspent_view base -> cache_ok base c -> IsCoinBase tx = false ->
  CheckTransaction ap false st pool true mem blk tx = Accept -> CheckTxAssets ap env this st2 base c w tx = Some (c', w', Ok r) ->
  (forall name, sumZ (map (moved_units ap name) (vout tx)) = in_sum (coin_units ap name) (view_of base c) (vin tx) /\ 0 <= in_sum (coin_units ap name) (view_of base c) (vin tx) <= MAX_MONEY) /\
  (forall o, o ∈ vout tx -> CheckIssueDataTx o = true -> exists asset address, AssetFromScript ap (scriptPubKey o) = Some (asset, address) /\ issue_allowed ap st pool tx asset /\
     (name_type (strName asset) ∈ [SUB; UNIQUE] -> spends (view_of base c) tx (GetParentName (strName asset) ++ OWNER_TAG))) /\
  (forall o, o ∈ vout tx -> CheckReissueDataTx o = true -> exists reissue address, ReissueAssetFromScript ap (scriptPubKey o) = Some (reissue, address) /\
     (name_type (re_strName reissue) <> RESTRICTED -> spends (view_of base c) tx (re_strName reissue ++ OWNER_TAG))).
Proof.
  intros Hbase Hc Hcb Hck Hok. destruct (CheckTransaction_tx_ok ap false st pool mem blk tx Hck) as [[Hs _] _].
  destruct (CheckTxAssets_Ok ap env this st2 base Hbase c w tx c' w' r Hc (shape_dummies ap tx Hs) Hok) as (_ & _ & Hin & Hout & _ & Hcons). specialize (Hin Hcb).
  assert (Hsp : forall name, transfers_of ap (vout tx) name = true -> spends (view_of base c) tx name).
  { intros name Ht. apply in_sum_spends; [done|]. rewrite <-(proj1 (Hcons name)). by apply transfers_moved. }
  split; [done|]. split.
  - intros o Ho Hi. destruct (issue_is_allowed ap false st pool true mem blk tx o Hck Ho Hi) as (a & addr & Ha & Hall). exists a, addr. split; [done|]. split; [done|]. destruct Hall as [_ Hall].
    intros Ht. apply Hsp. apply elem_of_cons in Ht as [Ht|Ht]; [rewrite Ht in Hall; apply Hall|]. apply list_elem_of_singleton in Ht. rewrite Ht in Hall. apply Hall.
  - intros o Ho Hi. destruct (accepted_kind ap st pool true mem blk tx Hck) as [data own' a addr oaddr _ _ _ _ _ _ _ _ E3|data re addr _ _ _ Ha _ Ht _ _ E3|_ _ _ _ _ _ _ E3|data a addr _ _ _ _ _ _ _ _ _ _ E3|_ _ _ _ _ _ Hall];
      try only_out E3 Ho Hi.
    + exists re, addr. split; [done|]. intros Hn. apply Hsp. assert (Hr : is_type (name_type (re_strName re)) [RESTRICTED] = false).
      { apply not_true_iff_false. rewrite is_type_iff, list_elem_of_singleton. done. }
      by rewrite Hr in Ht.
    + exfalso. unfold CheckReissueDataTx, IsScriptReissueAsset in Hi. specialize (Hall o Ho). unfold is_asset_script in Hall. apply bool_decide_eq_true in Hi.
      destruct (IsAssetScript (scriptPubKey o)) as [[[[] own] n]|] eqn:Es; try (by destruct Hi). pose proof (Hall eq_refl) as (own' & n' & E)%is_transfer_iff. congruence.
Qed.
End Authority.

(** ** The chain *)

Section Chain.
Context `{secp : Secp256k1}.
Variable BlockHash : CBlockHeader -> bytes.
Variable BlockHashFull : CBlockHeader -> bytes * bytes.
Variable hp : HeaderParams.
Variable bp : BlockParams.
Variable params : CChainParams.
Variable ap : AssetParams.
Hypothesis Hprefixes : prefixes_ok (ap_prefixes ap).
Variable reissue_at : bytes * Z -> bytes.
Variable fAssetIndex : bool.
Variable unset : Z.

Abbreviation block_extends := (extends BlockHash BlockHashFull hp bp params ap false).

(** A block connected to the coins and, with an empty cache, to the assets; the
    node does not reindex. *)
Definition connect_block (base : view) (env : asset_env) (others : Z -> CCoinsMap -> CTransaction -> option (Z * string)) (fWritten : bool)
    (st : XState) (w : assets_global) (c : CCoinsMap) (h : Z) (block : CBlock) : option (result (asset_state * CCoinsMap * list (list Coin)) (Z * string)) :=
  connect_coins ap base (asset_loop ap false fAssetIndex unset env base others fWritten (BlockHash (block_header block))) (mkAssets ClearDirtyCache w st []) c h
    (nSubsidyHalvingInterval params) (vtx block).

(** The invariant of the loop with the caches flushed. *)
Definition supply_at (H : list asset_op) (v : view) (w : assets_global) : Prop :=
  state_ok reissue_at (mkState ClearDirtyCache w Connecting H H) /\ assets_fine H /\ map_Forall (fun _ coin => coin_fine ap coin) v /\
  forall name, view_sum (coin_units ap name) v <= ops_units H name.

Lemma supply_start H v w st : supply_at H v w -> supply_inv ap reissue_at (passets w) H [] v (mkAssets ClearDirtyCache w st []).
Proof. intros (Hs & HH & Hv & Hle). unfold supply_inv. cbn. by split_and!. Qed.
Lemma supply_flush p H past v s : supply_inv ap reissue_at p H past v s -> supply_at (ops_of ap past ++ H) v (flush_global (as_cache s) (as_global s)).
Proof.
  intros (Hs & Hf & HH & Hv & Hle & _). split_and!; try done.
  exact (step_ok reissue_at fAssetIndex unset ap CallOther _ _ (step_flush _ _ _ _ _ _ _ _ _ Connecting) I Hs).
Qed.

(** Connecting a checked block never fails an assertion, and keeps the invariant. *)
Lemma connect_block_spec h base c hist w block env others fWritten st H : nBIP34Enabled bp = true -> chain_ok h base c hist -> supply_at H (view_of base c) w ->
  block_extends h hist block -> Forall (tx_good ap reissue_at (passets w)) (vtx block) -> ae_fReindex env = false ->
  exists r, connect_block base env others fWritten st w c (h + 1) block = Some r /\
    forall s' c' undo, r = Ok (s', c', undo) -> chain_ok (h + 1) base c' (rev (map (fun tx => (tx, h + 1)) (vtx block)) ++ hist) /\
      supply_inv ap reissue_at (passets w) H (vtx block) (view_of base c') s' /\
      view_of base c' = block_view (view_of base c) (vtx block) (h + 1) /\ undo = tail (block_undo (view_of base c) (vtx block) (h + 1)) /\ block_inputs (view_of base c) (vtx block) (h + 1).
Proof.
  intros Hb Hok Hsup Hck Hkn Hre. pose proof Hok as (_ & Hbase & _). set (hash := BlockHash (block_header block)).
  destruct (connect_spec BlockHash BlockHashFull hp bp params ap false (tx_good ap reissue_at (passets w)) (asset_loop ap false fAssetIndex unset env base others fWritten hash)
    (supply_inv ap reissue_at (passets w) H) (mkAssets ClearDirtyCache w st []) h base c hist block Hb Hok Hck Hkn (loop_keeps ap reissue_at fAssetIndex unset (passets w) Hprefixes env Hre base Hbase others fWritten hash H)
    (supply_start H _ w st Hsup)) as (r & E & Hr).
  exists r. split; [exact E|]. intros s' c' undo Er. by destruct (Hr s' c' undo Er) as (Hok' & Hv' & Hu' & Hin' & _ & Hinv).
Qed.
End Chain.

(** ** A claim and a sub-asset *)

Definition quiet_env : asset_env := mkEnv false false empty_pool [] false false 0 0 (fun _ _ => None) (fun _ _ => false).
(** The owner token that [sub_with_xid] spends. *)
Definition bob_out : CTxOut := mkTxOut 0 (transfer_ConstructTransaction (mkTransfer (bs "BOB!") COIN [] 0) (P2PKH (repeat 4 20))).
Definition bob_coins : view := {[ mkOutPoint (repeat 9 32) 0 := mkCoin bob_out false 1 ]}.
Definition bob_checked : option (CCoinsMap * assets_global * result (list CMessage * list (bytes * bytes)) (Z * string)) :=
  CheckTxAssets main_assets quiet_env ClearDirtyCache empty_xstate bob_coins no_entries new_node sub_with_xid.
Definition passed {A B C E} (r : option (A * B * result C E)) : bool := match r with Some (_, _, Ok _) => true | _ => false end.
Definition passed_with {A B C E} (a : A) (b : B) (d : C) (r : option (A * B * result C E)) : A * B * C := match r with Some (a, b, Ok x) => (a, b, x) | _ => (a, b, d) end.
Lemma passed_eq {A B C E} a b d (r : option (A * B * result C E)) : passed r = true -> r = Some ((passed_with a b d r).1.1, (passed_with a b d r).1.2, Ok (passed_with a b d r).2).
Proof. by destruct r as [[[] []]|]. Qed.

(** BOB/X is issued by spending the owner token of BOB. *)
Lemma sub_asset_spends_owner : spends main_assets (view_of bob_coins no_entries) sub_with_xid (bs "BOB!").
Proof.
  assert (Hc : passed bob_checked = true) by (vm_compute; reflexivity).
  destruct (tx_authority main_assets quiet_env ClearDirtyCache empty_xstate empty_xstate empty_pool false true bob_coins no_entries _ new_node _ sub_with_xid _
    (proj2 (map_Forall_singleton _ _ _) eq_refl) (map_Forall_empty _) eq_refl eq_refl (passed_eq no_entries new_node ([], []) bob_checked Hc)) as (_ & Hi & _).
  destruct (Hi (mkTxOut 0 (ConstructTransaction (main_asset (bs "BOB/X")) (P2PKH (repeat 4 20))))) as (a & addr & Ha & _ & Hs).
  - do 4 (apply list_elem_of_further). apply list_elem_of_here.
  - vm_compute. reflexivity.
  - vm_compute in Ha. injection Ha as <- _. apply Hs. apply list_elem_of_here.
Qed.

Local Abbreviation toy_asset_connected :=
  (connect_block toy_hash toy_params main_assets false 0 no_coins quiet_env (fun _ _ _ => None) true empty_xstate new_node no_entries (0 + 1) toy_block).
Definition toy_assets : asset_state * CCoinsMap * list (list Coin) := ok_or (mkAssets ClearDirtyCache new_node empty_xstate [], no_entries, []) toy_asset_connected.
Definition toy_world : assets_global := flush_global (as_cache toy_assets.1.1) (as_global toy_assets.1.1).

Definition byte_okb (c : Z) : bool := (0 <=? c) && (c <? 256).
Lemma bytes_okb l : forallb byte_okb l = true -> bytes_ok l.
Proof.
  intros H. apply List.Forall_forall. intros c Hc. apply (proj1 (forallb_forall _ _) H) in Hc. unfold byte_okb in Hc. apply andb_true_iff in Hc as [?%Z.leb_le ?%Z.ltb_lt]. by unfold byte_ok.
Qed.
(** A transaction that reissues nothing. *)
Lemma known_plain ap reissue_at tx : tx_IsReissueAsset tx = false -> forallb (fun o => forallb byte_okb (scriptPubKey o)) (vout tx) = true -> tx_known ap reissue_at tx.
Proof.
  intros Hr Hb. split; [intros r addr; unfold ReissueAssetFromTransaction; by rewrite Hr|]. apply List.Forall_forall. intros o Ho. by apply bytes_okb, (proj1 (forallb_forall _ _) Hb).
Qed.
