(* ===== verification/Reorg.v ===== *)
(** * Disconnecting the assets of a block

    The part of [DisconnectBlock] and [ApplyTxInUndo] of src/src/validation.cpp
    that changes the asset cache and the identity assignments, with the coins of
    Utxo.v, and what a reorganisation leaves of the assets. Restricted assets are
    never active. The address indexes and the messages are left out. *)

From stdpp Require Import gmap.
From S2P Require Import Prelude OrdMap Serialize Script Handle Slots Tx Merkle Chain Base58 Regex AssetNames AssetScripts AssetTx XAssign XClaim VerifyAssets.
From S2P Require Import Pow Headers Draw Key Attest Registry Coinbase Blocks CheckTx Coins Producer AssetCache Utxo TxAssets Supply.

Local Open Scope string_scope.
Local Open Scope list_scope.
Local Open Scope Z_scope.

Section Disconnect.
Variable ap : AssetParams.
Variables fReindex fAssetIndex : bool.
Variable unset : Z.

Abbreviation caches := (CAssetsCache * assets_global)%type.

(** An asset is removed if the caches have it; [None] is the failure. *)
Definition remove_new (s : caches) (asset : CNewAsset) (address : bytes) : option caches :=
  let '(w, contains) := CheckIfAssetExists fReindex s.1 s.2 (strName asset) true in
  if negb contains then Some (s.1, w) else
  match RemoveNewAsset fReindex fAssetIndex s.1 w asset address with
  | (t, w, true) => Some (t, w)
  | _ => None
  end.
Definition remove_found (s : caches) (found : option (CNewAsset * bytes)) : option caches :=
  match found with None => None | Some (asset, address) => remove_new s asset address end.
Fixpoint remove_uniques (s : caches) (outs : list CTxOut) : option caches :=
  match outs with
  | [] => Some s
  | o :: outs =>
      if IsScriptNewUniqueAsset ap (scriptPubKey o) then
        match remove_found s (AssetFromScript ap (scriptPubKey o)) with None => None | Some s => remove_uniques s outs end
      else remove_uniques s outs
  end.
(** What the transaction issued or reissued. A restricted asset fails: the output
    with its verifier string is only looked for when they are active. *)
Definition remove_issued (s : caches) (tx : CTransaction) (vUndoData : list (bytes * CBlockAssetUndo)) : option caches :=
  if tx_IsNewAsset ap tx then
    match remove_found s (AssetFromTransaction ap tx) with
    | None => None
    | Some s => match OwnerFromTransaction ap tx with
                | None => None
                | Some (ownerName, ownerAddress) => Some (RemoveOwnerAsset fAssetIndex s.1 ownerName ownerAddress, s.2)
                end
    end
  else if tx_IsReissueAsset tx then
    match ReissueAssetFromTransaction ap tx with
    | None => None
    | Some (reissue, address) =>
        let '(w, contains) := CheckIfAssetExists fReindex s.1 s.2 (re_strName reissue) true in
        if negb contains then Some (s.1, w) else
        match RemoveReissueAsset fAssetIndex unset s.1 w reissue address (mkOutPoint (GetHash tx) (zlen (vout tx) - 1)) vUndoData with
        | (t, w, true) => Some (t, w)
        | _ => None
        end
    end
  else if tx_IsNewUniqueAsset ap tx then remove_uniques s (vout tx)
  else if tx_IsNewMsgChannelAsset ap tx then remove_found s (MsgChannelAssetFromTransaction ap tx)
  else if tx_IsNewQualifierAsset ap tx then remove_found s (QualifierAssetFromTransaction ap tx)
  else if tx_IsNewRestrictedAsset ap tx then None
  else Some s.
(** The transfers among the outputs that were coins. *)
Fixpoint remove_transfers (s : caches) (txid : bytes) (n : Z) (outs : list CTxOut) : option caches :=
  match outs with
  | [] => Some s
  | o :: outs =>
      if IsUnspendable (scriptPubKey o) || negb (is_transfer o) then remove_transfers s txid (n + 1) outs else
      match TransferAssetFromScript ap (scriptPubKey o) with
      | None => None
      | Some (transfer, address) =>
          match RemoveTransfer fAssetIndex s.1 s.2 transfer address (mkOutPoint txid n) with
          | (_, false) => None
          | (t, true) => remove_transfers (t, s.2) txid (n + 1) outs
          end
      end
  end.
(** Whether the coins of the outputs are spent on the copy of the cache made for
    this; that depends on the outputs alone. *)
Definition outs_spent (s : caches) (outs : list CTxOut) : bool :=
  forallb (fun o => IsUnspendable (scriptPubKey o) || (TrySpendCoin fAssetIndex ap s.1 s.2 o).2) outs.

Variable base : view.
Variables fJustCheck fWritten : bool.

(** The inputs with their undo coins, last first, as [restore_ins] with the assets. *)
Fixpoint restore_coins (c : CCoinsMap) (s : caches) (ins : list (CTxIn * Coin)) (fClean : bool) : option (CCoinsMap * caches * option bool) :=
  match ins with
  | [] => Some (c, s, Some fClean)
  | (i, undo) :: ins =>
      if IsXAccountDummyPrevout (prevout i) then restore_coins c s ins fClean else
      match ApplyTxInUndo base c undo (prevout i) with
      | None => None
      | Some (c, DISCONNECT_FAILED) => Some (c, s, None)
      | Some (c, r) =>
          let '(t, ok) := if Coin_IsAsset undo then UndoAssetCoin fAssetIndex ap s.1 s.2 undo else (s.1, true) in
          restore_coins c (t, s.2) ins (fClean && match r with DISCONNECT_OK => ok | _ => false end)
      end
  end.

(** One transaction of [DisconnectBlock]; no flag is the failure. *)
Definition disconnect_tx_assets (c : CCoinsMap) (s : asset_state) (nHeight : Z) (tx : CTransaction) (undo : option (list Coin)) (fClean : bool)
    : option (CCoinsMap * asset_state * option bool) :=
  let '(c, fClean) := undo_outs base c (GetHash tx) 0 (vout tx) nHeight (IsCoinBase tx) fClean in
  let caches := (as_cache s, as_global s) in
  let fClean := fClean && outs_spent caches (vout tx) in
  match remove_issued caches tx (as_undo s) with
  | None => Some (c, s, None)
  | Some caches =>
      let st := disconnect_assignment ap fJustCheck fWritten tx (as_accounts s) in
      match remove_transfers caches (GetHash tx) 0 (vout tx) with
      | None => Some (c, mkAssets caches.1 caches.2 st (as_undo s), None)
      | Some caches =>
          match undo with
          | None => Some (c, mkAssets caches.1 caches.2 st (as_undo s), Some fClean)
          | Some vprevout =>
              if negb (zlen vprevout =? zlen (vin tx)) then Some (c, mkAssets caches.1 caches.2 st (as_undo s), None) else
              match restore_coins c caches (rev (zip (vin tx) vprevout)) fClean with
              | None => None
              | Some (c, caches, r) => Some (c, mkAssets caches.1 caches.2 st (as_undo s), r)
              end
          end
      end
  end.
Fixpoint disconnect_assets (c : CCoinsMap) (s : asset_state) (nHeight : Z) (txs : list (CTransaction * option (list Coin))) (fClean : bool)
    : option (CCoinsMap * asset_state * DisconnectResult) :=
  match txs with
  | [] => Some (c, s, if fClean then DISCONNECT_OK else DISCONNECT_UNCLEAN)
  | (tx, undo) :: txs =>
      match disconnect_tx_assets c s nHeight tx undo fClean with
      | None => None
      | Some (c, s, None) => Some (c, s, DISCONNECT_FAILED)
      | Some (c, s, Some fClean) => disconnect_assets c s nHeight txs fClean
      end
  end.
(** [DisconnectBlock], with the asset undo data of the block in the state. *)
Definition disconnect_block (c : CCoinsMap) (s : asset_state) (nHeight : Z) (txs : list CTransaction) (vtxundo : list (list Coin))
    : option (CCoinsMap * asset_state * DisconnectResult) :=
  if negb (zlen vtxundo + 1 =? zlen txs) then Some (c, s, DISCONNECT_FAILED)
  else disconnect_assets c s nHeight (rev (zip txs (None :: map Some vtxundo))) true.

End Disconnect.

(** ** What is undone *)

Section Undo.
Variable ap : AssetParams.
Hypothesis Hprefixes : prefixes_ok (ap_prefixes ap).
Variable reissue_at : bytes * Z -> bytes.
(** With the index of amounts by address on, taking back a transfer or a reissue
    fails when the index has no amount for the address. *)
Variable fAssetIndex : bool.
Variable unset : Z.

Abbreviation ok t w H H0 := (state_ok reissue_at (mkState t w Disconnecting H H0)).

(** *** Coins *)

Lemma amount_of_data script d : GetAssetData ap script = Some d -> GetAssetAmountFromScript script = Some (ao_nAmount d).
Proof.
  unfold GetAssetAmountFromScript, GetAssetData, AssetFromScript, OwnerAssetFromScript, TransferAssetFromScript, ReissueAssetFromScript, from_script, read_record.
  unfold IsScriptNewAsset, IsScriptOwnerAsset, IsScriptTransferAsset, IsScriptReissueAsset. destruct (IsAssetScript script) as [[[[] []] n]|]; try done.
  all: match goal with |- context [match ?x with Some _ => _ | None => _ end] => destruct x as [[a rest]|]; [|done] end; by intros [= <-].
Qed.
Lemma UndoAssetCoin_fine t w coin : coin_fine ap coin -> IsUnspendable (scriptPubKey (coin_out coin)) = false -> Coin_IsAsset coin = true -> (UndoAssetCoin fAssetIndex ap t w coin).2 = true.
Proof.
  intros [Hb Hd] Hu Ha. destruct (Hd Ha) as (d & Ed & Hn & _). unfold UndoAssetCoin. rewrite asset_of_data, Ed. cbn [fmap option_fmap option_map].
  rewrite (bool_decide_eq_false_2 (ao_assetName d = [])), (bool_decide_eq_false_2 (script_address ap (scriptPubKey (coin_out coin)) = [])) by (done || by apply script_address_some). cbn [orb].
  unfold IsUnspendable in Hu. apply orb_false_iff in Hu as [_ Hu]. rewrite (amount_of_data _ d Ed) in Hu. by destruct (ao_nAmount d).
Qed.

Lemma restore_ins_false base ins : forall c c' b, restore_ins base c ins false = Some (c', Some b) -> b = false.
Proof.
  induction ins as [|[i u] ins IH]; intros c c' b; cbn [restore_ins]; [by intros [= _ <-]|]. destruct (IsXAccountDummyPrevout _); [apply IH|].
  destruct (ApplyTxInUndo base c u (prevout i)) as [[c1 []]|]; [apply IH..|done|done].
Qed.
Lemma restore_coins_ok base H H0 ins : forall c s c', restore_ins base c ins true = Some (c', Some true) ->
  Forall (fun p => IsXAccountDummyPrevout (prevout p.1) = false -> coin_fine ap p.2 /\ IsUnspendable (scriptPubKey (coin_out p.2)) = false) ins -> ok s.1 s.2 H H0 ->
  exists s', restore_coins ap fAssetIndex base c s ins true = Some (c', s', Some true) /\ ok s'.1 s'.2 H H0.
Proof.
  induction ins as [|[i u] ins IH]; intros c s c' Hr Hall Hs; cbn [restore_ins restore_coins] in *; [injection Hr as ->; by eexists|]. apply Forall_cons in Hall as [Hu Hall]. cbn [fst snd] in Hu.
  destruct (IsXAccountDummyPrevout _); [by apply IH|]. destruct (ApplyTxInUndo base c u (prevout i)) as [[c1 []]|]; [|by apply restore_ins_false in Hr|done|done]. destruct (Hu eq_refl) as [Hf Hs1].
  assert (Hstep : exists t, (if Coin_IsAsset u then UndoAssetCoin fAssetIndex ap s.1 s.2 u else (s.1, true)) = (t, true) /\ ok t s.2 H H0).
  { destruct (Coin_IsAsset u) eqn:Ea; [|by exists s.1]. pose proof (UndoAssetCoin_fine s.1 s.2 u Hf Hs1 Ea) as Hok. pose proof (UndoAssetCoin_same fAssetIndex ap s.1 s.2 u) as Hsame.
    destruct (UndoAssetCoin fAssetIndex ap s.1 s.2 u) as [t b]. cbn [fst snd] in *. subst b. exists t. split; [done|]. by eapply state_ok_same. }
  destruct Hstep as (t & -> & Ht). cbn [andb]. by apply IH.
Qed.

Lemma outs_spent_fine s outs : Forall (fun o => coin_fine ap (mkCoin o false 0)) outs -> outs_spent ap fAssetIndex s outs = true.
Proof.
  intros Hf. apply forallb_forall. intros o Ho. apply orb_true_iff. right. apply (TrySpendCoin_fine ap fAssetIndex Hprefixes s.1 s.2 (mkCoin o false 0)). by apply (proj1 (List.Forall_forall _ _) Hf).
Qed.
Lemma remove_transfers_ok txid H H0 outs : forall s n, Forall (fun o => coin_fine ap (mkCoin o false 0)) outs -> ok s.1 s.2 H H0 ->
  match remove_transfers ap fAssetIndex s txid n outs with Some s' => ok s'.1 s'.2 H H0 | None => fAssetIndex = true end.
Proof.
  induction outs as [|o outs IH]; intros s n Hf Hs; [done|]. apply Forall_cons in Hf as [Ho Hf]. cbn [remove_transfers]. destruct (IsUnspendable _); [by apply IH|]. cbn [orb].
  destruct (is_transfer o) eqn:Et; cbn [negb]; [|by apply IH]. apply is_transfer_iff in Et as (own & k & Es). destruct Ho as [_ Hd]. cbn [coin_out] in Hd.
  destruct (Hd ltac:(unfold is_asset_script; by rewrite Es)) as (d & Ed & _). rewrite (transfer_data ap o own k Es) in Ed. destruct (TransferAssetFromScript ap (scriptPubKey o)) as [[tr addr]|]; [|done].
  pose proof (RemoveTransfer_same fAssetIndex s.1 s.2 tr addr (mkOutPoint txid n)) as Hsame. destruct (RemoveTransfer fAssetIndex s.1 s.2 tr addr _) as [t []] eqn:E; [|by revert E; unfold RemoveTransfer, UndoTransfer; destruct fAssetIndex].
  apply IH; [done|]. eapply state_ok_same; [exact Hsame|exact Hs].
Qed.

(** *** What was issued *)

Lemma remove_new_ok t w H H0 a address : ok t w (Issue a :: H) H0 -> exists s', remove_new false fAssetIndex (t, w) a address = Some s' /\ ok s'.1 s'.2 H H0.
Proof.
  intros Hs. unfold remove_new. cbn [fst snd]. destruct (state_exists _ _ _ _ _ _ (strName a) Hs) as [He Hw]. cbn [assets_of] in He. rewrite lookup_insert_eq, bool_decide_eq_true_2 in He by done.
  destruct (CheckIfAssetExists false t w (strName a) true) as [w1 b]. cbn [fst snd] in *. subst b. cbn [negb]. destruct (RemoveNewAsset false fAssetIndex t w1 a address) as [[t' w'] b] eqn:E.
  destruct (unissue_ok reissue_at fAssetIndex _ _ _ _ _ _ _ _ _ (state_ok_world _ _ _ _ _ _ _ Hw Hs) E) as [-> Hs']. by eexists.
Qed.

Lemma elem_of_rev {A} (x : A) l : x ∈ rev l <-> x ∈ l.
Proof. by rewrite !list_elem_of_In, <-in_rev. Qed.
(** The order of assets issued next to each other does not matter. *)
Lemma issues_lookup ops H : Forall (fun op => exists a, op = Issue a) ops -> NoDup (map op_name ops) ->
  forall n, assets_of (ops ++ H) !! n = match list_find (fun op => op_name op = n) ops with Some (_, Issue a) => Some a | _ => assets_of H !! n end.
Proof.
  induction ops as [|op ops IH]; intros Hi Hnd n; [done|]. apply Forall_cons in Hi as [(a & ->) Hi]. cbn [map op_name] in Hnd. apply NoDup_cons in Hnd as [_ Hnd]. cbn [app assets_of list_find].
  destruct (decide (op_name (Issue a) = n)) as [<-|Hne]; cbn [op_name] in *; [by rewrite lookup_insert_eq|]. rewrite lookup_insert_ne by done. rewrite IH by done. destruct (list_find _ ops) as [[k [b|]]|]; done.
Qed.
Lemma issues_rev ops H : Forall (fun op => exists a, op = Issue a) ops -> NoDup (map op_name ops) -> assets_of (rev ops ++ H) = assets_of (ops ++ H).
Proof.
  intros Hi Hnd. apply map_eq. intros n. assert (Hi' : Forall (fun op => exists a, op = Issue a) (rev ops)) by (apply Forall_rev; done).
  assert (Hnd' : NoDup (map op_name (rev ops))) by (by rewrite <-(Permutation_rev ops)). rewrite !issues_lookup by done.
  destruct (list_find (fun op => op_name op = n) (rev ops)) as [[k op]|] eqn:E1, (list_find (fun op => op_name op = n) ops) as [[k' op']|] eqn:E2; try done.
  - apply list_find_Some in E1 as (Hk & Hn & _), E2 as (Hk' & Hn' & _). assert (op = op') as ->; [|done]. apply list_elem_of_lookup_2 in Hk, Hk'. rewrite elem_of_rev in Hk.
    apply list_elem_of_lookup in Hk as [x Hx], Hk' as [y Hy]. assert (x = y) as ->; [|congruence]. apply (NoDup_lookup (map op_name ops) x y n); [done|..]; rewrite list_lookup_fmap; [rewrite Hx|rewrite Hy]; cbn; congruence.
  - exfalso. apply list_find_Some in E1 as (Hk & Hn & _). apply list_find_None in E2. rewrite Forall_forall in E2. apply (E2 op); [|done]. apply list_elem_of_lookup_2 in Hk. by rewrite elem_of_rev in Hk.
  - exfalso. apply list_find_Some in E2 as (Hk & Hn & _). apply list_find_None in E1. rewrite Forall_forall in E1. apply (E1 op'); [|done]. apply list_elem_of_lookup_2 in Hk. by apply elem_of_rev.
Qed.
Lemma state_ok_equiv t w k H H' H0 : assets_of H = assets_of H' -> valid_history reissue_at H' -> (forall k, live H k <-> live H' k) ->
  state_ok reissue_at (mkState t w k H H0) -> state_ok reissue_at (mkState t w k H' H0).
Proof.
  intros E HH Hl [S1 S2 _ S4 S5 S6]. constructor; try done. cbn [cs_this cs_global cs_now] in *. destruct S5. constructor; try done.
  - intros x e H1 H2. apply Hl. by eapply ho_live.
  - intros n. by rewrite <-E.
  - intros n a. rewrite <-E. apply ho_data.
  - intros n. rewrite <-E. apply ho_map.
Qed.
Lemma live_issues ops H : Forall (fun op => exists a, op = Issue a) ops -> forall k, live (ops ++ H) k <-> live H k.
Proof.
  intros Hi k. unfold live. split; intros (r & out & Hin & E); exists r, out; (split; [|done]).
  - apply elem_of_app in Hin as [Hin|]; [|done]. rewrite Forall_forall in Hi. by destruct (Hi _ Hin).
  - apply elem_of_app. by right.
Qed.

Lemma valid_ops_each ops : forall H, valid_ops reissue_at H ops -> Forall (fun op => exists a, op = Issue a) ops -> Forall (fun op => exists a, op = Issue a /\ valid_op reissue_at H (Issue a)) ops.
Proof.
  induction ops as [|op ops IH]; intros H Hv Hi; [constructor|]. apply Forall_cons in Hi as [(a & ->) Hi]. destruct Hv as [Ha Hv]. constructor; [by exists a|].
  eapply Forall_impl; [exact (IH _ Hv Hi)|]. intros op (b & -> & Hn & Hb). exists b. split; [done|]. split; [|done]. cbn [assets_of] in Hn. by apply lookup_insert_None in Hn as [? _].
Qed.
Lemma valid_ops_history ops : forall H, valid_history reissue_at H -> valid_ops reissue_at H ops -> valid_history reissue_at (rev ops ++ H).
Proof. induction ops as [|op ops IH]; intros H HH Hv; [done|]. destruct Hv as [Ho Hv]. cbn [rev]. rewrite <-app_assoc. by apply IH. Qed.
Lemma valid_history_app l H : valid_history reissue_at (l ++ H) -> valid_history reissue_at H.
Proof. induction l as [|op l IH]; [done|]. intros [_ HH]. by apply IH. Qed.

Lemma remove_uniques_ok H H0 outs : forall t w, ok t w (concat (map (unique_issue_of ap) outs) ++ H) H0 ->
  (forall o, o ∈ outs -> IsScriptNewUniqueAsset ap (scriptPubKey o) = true -> is_Some (AssetFromScript ap (scriptPubKey o))) ->
  exists s', remove_uniques ap false fAssetIndex (t, w) outs = Some s' /\ ok s'.1 s'.2 H H0.
Proof.
  induction outs as [|o outs IH]; intros t w Hs Hall; [by eexists|]. cbn [map concat remove_uniques] in *. specialize (fun t w Hs => IH t w Hs (fun x Hx => Hall x (list_elem_of_further _ _ _ Hx))).
  unfold unique_issue_of at 1 in Hs. destruct (IsScriptNewUniqueAsset ap (scriptPubKey o)) eqn:Eu; [|by apply IH]. destruct (Hall o (list_elem_of_here _ _) Eu) as [[a addr] Ea]. rewrite Ea in Hs |- *.
  destruct (remove_new_ok t w _ H0 a addr Hs) as ([t1 w1] & E & Hs1). cbn [remove_found]. rewrite E. by apply IH.
Qed.

Lemma remove_reissue_ok t w H H0 r address out a vUndo : ok t w (Reissue r out :: H) H0 -> assets_of H !! re_strName r = Some a -> undo_fits vUndo a r ->
  let '(w1, contains) := CheckIfAssetExists false t w (re_strName r) true in
  contains = true /\ let '(t', w', b) := RemoveReissueAsset fAssetIndex unset t w1 r address out vUndo in if b then ok t' w' H H0 else fAssetIndex = true.
Proof.
  intros Hs Ha Hu. destruct (state_exists _ _ _ _ _ _ (re_strName r) Hs) as [He Hw]. cbn [assets_of] in He. rewrite Ha, lookup_insert_eq, bool_decide_eq_true_2 in He by done.
  destruct (CheckIfAssetExists false t w (re_strName r) true) as [w1 b]. cbn [fst snd] in *. subst b. split; [done|]. pose proof (state_ok_world _ _ _ _ _ _ _ Hw Hs) as Hs1.
  destruct (RemoveReissueAsset fAssetIndex unset t w1 r address out vUndo) as [[t' w'] []] eqn:E; [exact (unreissue_ok reissue_at fAssetIndex unset _ _ _ _ _ _ _ _ _ _ _ Hs1 Ha Hu E)|].
  destruct fAssetIndex; [done|]. exfalso. revert E. unfold RemoveReissueAsset.
  destruct (state_meta _ _ _ _ _ _ (re_strName r) Hs1) as [Hm _]. cbn [assets_of] in Hm. rewrite Ha, lookup_insert_eq in Hm. specialize (Hm _ eq_refl).
  destruct (GetAssetMetaDataIfExists t w1 (re_strName r)) as [w2 [[a2 at2]|]]; [|done]. by destruct (default _ at2).
Qed.

(** The undo data fit what the transaction reissues after a history. *)
Definition tx_fits (vUndo : list (bytes * CBlockAssetUndo)) (H : list asset_op) (tx : CTransaction) : Prop :=
  forall r out a, tx_ops ap tx = [Reissue r out] -> assets_of H !! re_strName r = Some a -> undo_fits vUndo a r.

Lemma remove_issued_ok t w H H0 tx vUndo : ok t w (rev (tx_ops ap tx) ++ H) H0 -> tx_kind ap tx -> valid_ops reissue_at H (tx_ops ap tx) -> tx_fits vUndo H tx ->
  match remove_issued ap false fAssetIndex unset (t, w) tx vUndo with Some s' => ok s'.1 s'.2 H H0 | None => fAssetIndex = true end.
Proof.
  intros Hs Hk Hv Hfit. unfold remove_issued, tx_fits in *. pose proof Hk as Hk'. unfold tx_ops in Hs, Hv, Hfit.
  destruct Hk as [data own a addr oaddr Hnew Hl Ho Ha How _ _ _ _|data r addr Hnew Hrei Hl Ha _ _ _ _ _|Hnew Hrei Hu _ Hck (root & m & Hun) _ _|data a addr Hnew Hrei Hu Hm Hl Ha Hk _ _ _ _|Hnew Hrei Hu Hm Hq Hr _].
  - rewrite Hnew in *. unfold AssetFromTransaction, OwnerFromTransaction in *. rewrite Hnew, Hl in *. rewrite Ho. cbn [negb on_out] in *. rewrite Ha in *. cbn [remove_found rev app] in *.
    destruct (remove_new_ok t w H H0 a addr Hs) as ([t1 w1] & -> & Hs1). rewrite How. cbn [fst snd] in *. eapply state_ok_same; [|exact Hs1].
    eapply same_assets_trans; [|apply set_amount_same]. done.
  - rewrite Hnew, Hrei in *. assert (Hra : ReissueAssetFromTransaction ap tx = Some (r, addr)) by (unfold ReissueAssetFromTransaction; by rewrite Hrei, Hl). rewrite Hra in *. cbn [rev app fst snd] in *.
    destruct Hv as [Hop _]. pose proof Hop as (_ & _ & a & Hx & _). pose proof (remove_reissue_ok t w H H0 r addr _ a vUndo Hs Hx (Hfit r _ a eq_refl Hx)) as Hrm.
    destruct (CheckIfAssetExists false t w (re_strName r) true) as [w1 b]. destruct Hrm as [-> Hrm]. cbn [negb]. by destruct (RemoveReissueAsset _ _ _ _ _ _ _ _) as [[t' w'] []].
  - rewrite Hnew, Hrei, Hu in *. destruct (unique_names _ _ _ _ _ _ _ Hun) as [Hnd _]. pose proof (unique_ops ap (vout tx)) as Hi. set (ops := concat (map (unique_issue_of ap) (vout tx))) in *.
    assert (HH : valid_history reissue_at H) by (destruct Hs as [_ _ Hnow _ _ _]; by eapply valid_history_app).
    destruct (remove_uniques_ok H H0 (vout tx) t w) as (s' & -> & Hs'); [|intros o Ho Eu; destruct (Hck o Ho Eu) as (a & addr & -> & _); done|done]. fold ops. apply (state_ok_equiv _ _ _ (rev ops ++ H)); [by apply issues_rev| | |done].
    + rewrite <-(rev_involutive ops). apply valid_ops_history; [done|]. apply fresh_ops_valid; [apply Forall_rev; by apply valid_ops_each|by rewrite <-(Permutation_rev ops)].
    + intros k. rewrite !live_issues; [done|done|by apply Forall_rev].
  - rewrite Hnew, Hrei, Hu, Hm in *. assert (Hma : MsgChannelAssetFromTransaction ap tx = Some (a, addr)).
    { unfold MsgChannelAssetFromTransaction. rewrite Hm, Hl. cbn [negb on_out]. unfold MsgChannelAssetFromScript. by rewrite Hk. }
    rewrite Hma in *. cbn [remove_found rev app] in *. by destruct (remove_new_ok t w H H0 a addr Hs) as (s' & -> & Hs').
  - by rewrite Hnew, Hrei, Hu, Hm, Hq, Hr in *.
Qed.

(** *** A transaction *)

Section Block.
Variable base : view.
Hypothesis Hbase : unspent_view base.
Variables fJustCheck fWritten : bool.

Abbreviation state s H H0 := (ok (as_cache s) (as_global s) H H0).
Abbreviation undo_tx := (disconnect_tx_assets ap false fAssetIndex unset base fJustCheck fWritten).
Abbreviation undo_txs := (disconnect_assets ap false fAssetIndex unset base fJustCheck fWritten).

Lemma undone_fine v ins : kept_view v -> map_Forall (fun _ coin => coin_fine ap coin) v -> inputs_in v ins ->
  Forall (fun p => IsXAccountDummyPrevout (prevout p.1) = false -> coin_fine ap p.2 /\ IsUnspendable (scriptPubKey (coin_out p.2)) = false) (rev (zip ins (undo_of v ins))).
Proof.
  intros Hk Hv Hin. apply Forall_rev. unfold undo_of. induction ins as [|i ins IH]; [constructor|]. apply Forall_cons in Hin as [Hi Hin]. cbn [map zip zip_with]. constructor; [|by apply IH].
  cbn [fst snd]. intros Ed. rewrite Ed. destruct (Hi Ed) as [coin Ec]. rewrite Ec. split; [by apply (Hv (prevout i))|]. by destruct (Hk _ _ Ec) as (_ & ? & _).
Qed.

Lemma disconnect_tx_assets_ok c c' s h tx undo H H0 : disconnect_tx base c h tx undo true = Some (c', Some true) ->
  match undo with None => True | Some coins => Forall (fun p => IsXAccountDummyPrevout (prevout p.1) = false -> coin_fine ap p.2 /\ IsUnspendable (scriptPubKey (coin_out p.2)) = false) (rev (zip (vin tx) coins)) end ->
  state s (rev (tx_ops ap tx) ++ H) H0 -> tx_facts ap reissue_at H tx -> tx_fits (as_undo s) H tx ->
  exists c1 s' r, undo_tx c s h tx undo true = Some (c1, s', r) /\ (fAssetIndex = true /\ r = None \/ c1 = c' /\ r = Some true /\ state s' H H0 /\ as_undo s' = as_undo s).
Proof.
  intros Hc Hu Hs (Hk & Hv & Hout) Hfit. unfold disconnect_tx, disconnect_tx_assets in *. destruct (undo_outs base c (GetHash tx) 0 (vout tx) h (IsCoinBase tx) true) as [c1 clean].
  rewrite (outs_spent_fine _ _ Hout), andb_true_r. pose proof (remove_issued_ok _ _ H H0 tx (as_undo s) Hs Hk Hv Hfit) as Hri.
  destruct (remove_issued _ _ _ _ _ _ _) as [s1|]; [|by eexists _, _, _; split; [|left]]. cbv zeta. pose proof (remove_transfers_ok (GetHash tx) H H0 (vout tx) s1 0 Hout Hri) as Hrt.
  destruct (remove_transfers _ _ _ _ _ _) as [s2|]; [|by eexists _, _, _; split; [|left]]. destruct undo as [coins|]; [|injection Hc as -> ->; by eexists _, _, _; split; [|right]].
  destruct (negb _); [done|]. destruct clean; [|by apply restore_ins_false in Hc]. destruct (restore_coins_ok base H H0 _ c1 s2 c' Hc Hu Hrt) as (s3 & -> & Hs3). by eexists _, _, _; split; [|right].
Qed.

Lemma disconnect_assets_failed h l1 l2 : forall c s c1 s1 clean, undo_txs c s h l1 clean = Some (c1, s1, DISCONNECT_FAILED) -> undo_txs c s h (l1 ++ l2) clean = Some (c1, s1, DISCONNECT_FAILED).
Proof.
  induction l1 as [|[tx undo] l1 IH]; intros c s c1 s1 clean; cbn [app disconnect_assets]; [by destruct clean|].
  destruct (undo_tx c s h tx undo clean) as [[[c2 s2] [b|]]|]; [apply IH|done..].
Qed.
Lemma disconnect_assets_app h l1 l2 : forall c s c1 s1 clean, undo_txs c s h l1 clean = Some (c1, s1, DISCONNECT_OK) -> undo_txs c s h (l1 ++ l2) clean = undo_txs c1 s1 h l2 true.
Proof.
  induction l1 as [|[tx undo] l1 IH]; intros c s c1 s1 clean; cbn [app disconnect_assets].
  { destruct clean; by intros [= <- <-]. }
  destruct (undo_tx c s h tx undo clean) as [[[c2 s2] [b|]]|]; [apply IH|done..].
Qed.

(** *** A block *)

Fixpoint txs_fit (vUndo : list (bytes * CBlockAssetUndo)) (H : list asset_op) (txs : list CTransaction) : Prop :=
  match txs with [] => True | tx :: txs => tx_fits vUndo H tx /\ txs_fit vUndo (rev (tx_ops ap tx) ++ H) txs end.

Lemma disconnect_assets_ok h txs H0 : forall (first : bool) v c s H, 0 < h -> kept_view v -> Forall (shape_ok ap) txs -> fresh_block v txs h -> block_inputs v txs h ->
  (if first then match txs with [] => True | tx :: txs => IsCoinBase tx = true /\ Forall (fun tx => IsCoinBase tx = false) txs end else Forall (fun tx => IsCoinBase tx = false) txs) ->
  cache_ok base c -> view_of base c = block_view v txs h ->
  map_Forall (fun _ coin => coin_fine ap coin) v -> txs_facts ap reissue_at H txs -> txs_fit (as_undo s) H txs -> state s (ops_of ap txs ++ H) H0 ->
  exists c' s' r, undo_txs c s h (rev (undo_pairs first v txs h)) true = Some (c', s', r) /\
    (fAssetIndex = true /\ r = DISCONNECT_FAILED \/ r = DISCONNECT_OK /\ cache_ok base c' /\ view_of base c' = v /\ state s' H H0 /\ as_undo s' = as_undo s).
Proof.
  induction txs as [|tx txs IH]; intros first v c s H Hh Hk Hs Hf Hin Hcb Hc Hv Hfine Hfacts Hfit Hst; [by eexists _, _, _; split; [|right]|].
  apply Forall_cons in Hs as [Ht Hs]. destruct Hin as [Hit Hin], (Hf (fun Hn => proj1 (Hit Hn))) as [Hft Hfr], Hfacts as [Hft1 Hfacts], Hfit as [Hfit1 Hfit].
  assert (Hrest : Forall (fun tx => IsCoinBase tx = false) txs) by (destruct first; [apply Hcb|by apply Forall_cons in Hcb as [_ ?]]).
  assert (Hfine' : map_Forall (fun _ coin => coin_fine ap coin) (tx_view v tx h)) by (apply tx_view_Forall; [done|apply Hft1]). rewrite ops_of_cons in Hst.
  destruct (IH false (tx_view v tx h) c s _ Hh (tx_view_kept ap v tx h Hk Hh Ht) Hs Hfr Hin Hrest Hc Hv Hfine' Hfacts Hfit Hst) as (c1 & s1 & r1 & E1 & [[Hix ->]|(-> & Hc1 & Hv1 & Hs1 & Eu1)]).
  { cbn [undo_pairs rev]. rewrite (disconnect_assets_failed _ _ _ _ _ _ _ _ E1). by eexists _, _, _; split; [|left]. }
  cbn [undo_pairs rev]. rewrite (disconnect_assets_app _ _ _ _ _ _ _ _ E1). cbn [disconnect_assets].
  assert (Hnot : first = false -> IsCoinBase tx = false /\ NoDup (prevout <$> vin tx) /\ inputs_in v (vin tx)).
  { intros ->. apply Forall_cons in Hcb as [Hn _]. split_and!; [done|apply Ht|by apply Hit]. }
  destruct (disconnect_tx_view base Hbase c1 v tx h first true Hk Hc1 Hft Hnot) as (c2 & E2 & Hc2 & Hv2); [by intros ->; apply Hcb|done|].
  destruct (disconnect_tx_assets_ok c1 c2 s1 h tx _ H H0 E2) as (c3 & s2 & r & E3 & Hr); [|done..|by rewrite Eu1|].
  - destruct first; [done|]. by apply undone_fine, Hnot.
  - rewrite E3. destruct Hr as [[Hix ->]|(-> & -> & Hs2 & Eu2)]; [by eexists _, _, _; split; [|left]|]. eexists _, _, _. split; [done|]. right. split_and!; [done..|]. congruence.
Qed.
End Block.

(** The names that transactions reissue. *)
Definition reissued_names (txs : list CTransaction) : list bytes := concat (map (fun tx => match tx_ops ap tx with [Reissue r _] => [re_strName r] | _ => [] end) txs).

Lemma tx_undo_names H tx : map fst (tx_undo ap H tx) ⊆ match tx_ops ap tx with [Reissue r _] => [re_strName r] | _ => [] end.
Proof. unfold tx_undo, issued_undo. destruct (tx_ops ap tx) as [|[a|r out] [|]]; try done. destruct (_ && _); cbn [map fst]; set_solver. Qed.
Lemma txs_undo_names txs : forall H, map fst (txs_undo ap H txs) ⊆ reissued_names txs.
Proof.
  induction txs as [|tx txs IH]; intros H; [done|]. cbn [txs_undo]. unfold reissued_names. cbn [map concat]. rewrite map_app. pose proof (tx_undo_names H tx). pose proof (IH (rev (tx_ops ap tx) ++ H)). set_solver.
Qed.
Lemma find_between {A} (P : A -> Prop) `{forall x, Decision (P x)} pre mid post : Forall (fun x => ~ P x) pre -> Forall (fun x => ~ P x) post -> snd <$> list_find P (pre ++ mid ++ post) = snd <$> list_find P mid.
Proof.
  intros Hpre Hpost. induction Hpre as [|x pre Hx _ IH].
  - cbn [app]. induction mid as [|y mid IH]; cbn [app list_find].
    + by rewrite (proj2 (list_find_None _ _) Hpost).
    + destruct (decide (P y)); [done|]. destruct (list_find P (mid ++ post)) as [[]|], (list_find P mid) as [[]|]; cbn in *; congruence.
  - cbn [app list_find]. rewrite decide_False by done. destruct (list_find P (pre ++ mid ++ post)) as [[]|]; cbn in *; done.
Qed.
(** With each name reissued once, the undo data of the block fit. *)
Lemma undo_data_fit txs : forall pre H, NoDup (map fst pre ++ reissued_names txs) -> txs_facts ap reissue_at H txs -> txs_fit (pre ++ txs_undo ap H txs) H txs.
Proof.
  induction txs as [|tx txs IH]; intros pre H Hnd Hf; [done|]. destruct Hf as [(_ & Hv & _) Hf]. cbn [txs_undo txs_fit]. unfold reissued_names in Hnd. cbn [map concat] in Hnd. fold (reissued_names txs) in Hnd. split.
  - intros r out a E Ha. rewrite E in Hnd. apply NoDup_app in Hnd as (_ & Hpre & Hpost). cbn [app] in Hpost. apply NoDup_cons in Hpost as [Hpost _].
    pose proof (find_between (fun item : bytes * CBlockAssetUndo => item.1 = re_strName r) pre (tx_undo ap H tx) (txs_undo ap (rev (tx_ops ap tx) ++ H) txs)) as Hfind. unfold undo_fits.
    unfold tx_undo at 2, issued_undo in Hfind. rewrite E, Ha in Hfind. change (default CNewAsset_null (Some a)) with a in Hfind. rewrite <-E in Hfind.
    assert (Hfound := Hfind ltac:(rewrite Forall_forall; intros x Hx Ex; apply (Hpre (re_strName r)); [rewrite <-Ex; by apply list_elem_of_fmap_2|by left])
      ltac:(rewrite Forall_forall; intros x Hx Ex; apply Hpost; rewrite <-Ex; eapply txs_undo_names; by apply list_elem_of_fmap_2)). clear Hfind.
    destruct (bool_decide_reflect (re_strIPFSHash r = [])), (Z.eqb_spec (re_nUnits r) (-1)); cbn [andb list_find] in Hfound; cbn [fst] in Hfound; rewrite ?decide_True in Hfound by done;
      destruct (list_find _ _) as [[k [nm u]]|]; cbn in Hfound; by simplify_eq.
  - rewrite app_assoc. apply IH; [|done]. rewrite map_app, <-app_assoc. apply NoDup_app in Hnd as (H1 & H2 & H3). apply NoDup_app in H3 as (H4 & H5 & H6). pose proof (tx_undo_names H tx) as Hsub.
    apply NoDup_app. split; [done|]. split; [set_solver|]. apply NoDup_app. split_and!; [|set_solver|done]. unfold tx_undo. destruct (issued_undo ap H tx); cbn; [apply NoDup_singleton|constructor].
Qed.
End Undo.

(** ** The block that was connected last *)

Section Tip.
Context `{secp : Secp256k1}.
Variable BlockHash : CBlockHeader -> bytes.
Variable BlockHashFull : CBlockHeader -> bytes * bytes.
Variable hp : HeaderParams.
Variable bp : BlockParams.
Variable params : CChainParams.
Variable ap : AssetParams.
Hypothesis Hprefixes : prefixes_ok (ap_prefixes ap).
Variable reissue_at : bytes * Z -> bytes.
Variable fAssetIndex : bool.
Variable unset : Z.

Abbreviation block_extends := (extends BlockHash BlockHashFull hp bp params ap false).

Lemma kind_any w k k' H H0 : state_ok reissue_at (mkState ClearDirtyCache w k H H0) -> state_ok reissue_at (mkState ClearDirtyCache w k' H H0).
Proof. intros []. constructor; try done. apply kind_ok_empty. Qed.

Lemma disconnect_block_ok h base c hist block base1 c1 H w1 st1 fJustCheck fWritten vUndo :
  nBIP34Enabled bp = true -> chain_ok h base c hist -> block_extends h hist block -> block_inputs (view_of base c) (vtx block) (h + 1) ->
  unspent_view base1 -> cache_ok base1 c1 -> view_of base1 c1 = block_view (view_of base c) (vtx block) (h + 1) ->
  map_Forall (fun _ coin => coin_fine ap coin) (view_of base c) -> txs_facts ap reissue_at H (vtx block) -> txs_fit ap vUndo H (vtx block) ->
  state_ok reissue_at (mkState ClearDirtyCache w1 Connecting (ops_of ap (vtx block) ++ H) (ops_of ap (vtx block) ++ H)) ->
  exists c2 s2 r, disconnect_block ap false fAssetIndex unset base1 fJustCheck fWritten c1 (mkAssets ClearDirtyCache w1 st1 vUndo) (h + 1) (vtx block) (tail (block_undo (view_of base c) (vtx block) (h + 1)))
      = Some (c2, s2, r) /\
    (fAssetIndex = true /\ r = DISCONNECT_FAILED \/ r = DISCONNECT_OK /\ cache_ok base1 c2 /\ view_of base1 c2 = view_of base c /\
     state_ok reissue_at (mkState ClearDirtyCache (flush_global (as_cache s2) (as_global s2)) Connecting H H)).
Proof.
  intros Hb Hok Hchk. destruct (checked_spec BlockHash BlockHashFull hp bp params ap false _ _ _ _ _ Hb Hok Hchk) as (cb & txs & Etx & Hcb & Hn & Hall & Hfresh & _). rewrite Etx. destruct Hok as (Hh & _ & _ & Hk & _).
  intros Hin Hb1 Hc1 Hv1 Hfine Hfacts Hfit Hst. pose proof (kind_any _ _ Disconnecting _ _ Hst) as Hst'.
  destruct (disconnect_assets_ok ap Hprefixes reissue_at fAssetIndex unset base1 Hb1 fJustCheck fWritten (h + 1) (cb :: txs) (ops_of ap (cb :: txs) ++ H) true (view_of base c) c1 (mkAssets ClearDirtyCache w1 st1 vUndo) H)
    as (c2 & s2 & r & E2 & Hr); [lia|done| |done..|].
  { eapply Forall_impl; [exact Hall|]. by intros tx [? _]%tx_checked_ok. }
  exists c2, s2, r. split; [|destruct Hr as [?|(-> & Hc2 & Hv2 & Hs2 & _)]; [by left|right]; split_and!; try done; exact (step_ok reissue_at fAssetIndex unset ap CallOther _ _ (step_flush _ _ _ _ _ _ _ _ _ Connecting) I Hs2)].
  rewrite <-E2. unfold disconnect_block. cbn [block_undo tail].
  assert ((zlen (block_undo (tx_view (view_of base c) cb (h + 1)) txs (h + 1)) + 1 =? zlen (cb :: txs)) = true) as ->
    by (apply Z.eqb_eq; rewrite zlen_cons; unfold zlen; rewrite block_undo_length; lia).
  cbn [negb zip zip_with undo_pairs map]. by rewrite <-undo_pairs_zip.
Qed.

End Tip.
