(* ===== verification/Active.v ===== *)
(** * The active chain

    [ConnectTip] and [DisconnectTip] of src/src/validation.cpp on the coins and the
    assets, and what a node holds after any sequence of them: blocks are connected
    and disconnected, and between them caches are flushed, dumped to the database
    and read. *)

From stdpp Require Import gmap.
From S2P Require Import Prelude OrdMap Serialize Script Handle Slots Tx Merkle Chain Base58 Regex AssetNames AssetScripts AssetTx XAssign XClaim VerifyAssets.
From S2P Require Import Pow Headers Draw Key Attest Registry Coinbase Blocks CheckTx Coins Producer AssetCache Utxo TxAssets Supply Reorg.

Local Open Scope string_scope.
Local Open Scope list_scope.
Local Open Scope Z_scope.

(** A block of the active chain with the undo data that are on disk. *)
Record connected := mkConnected { bc_block : CBlock; bc_undo : list (list Coin); bc_assets : list (bytes * CBlockAssetUndo) }.

Section Active.
Context `{secp : Secp256k1}.
Variable BlockHash : CBlockHeader -> bytes.
Variable BlockHashFull : CBlockHeader -> bytes * bytes.
Variable hp : HeaderParams.
Variable bp : BlockParams.
Variable params : CChainParams.
Variable ap : AssetParams.
Hypothesis Hprefixes : prefixes_ok (ap_prefixes ap).
Variable reissue_at : bytes * Z -> bytes.
Variable fAssetIndex : bool.
Variable unset : Z.

Abbreviation block_checked := (checked BlockHash BlockHashFull hp bp params ap false).
Abbreviation block_extends := (extends BlockHash BlockHashFull hp bp params ap false).

(** The coins, the shared asset caches, the assignments and the block with its undo
    data, or the rejection; [None] is a failed assertion. *)
Definition ConnectTip (base : view) (env : asset_env) (others : Z -> CCoinsMap -> CTransaction -> option (Z * string)) (fWritten : bool)
    (st : XState) (w : assets_global) (c : CCoinsMap) (h : Z) (block : CBlock) : option (result (CCoinsMap * assets_global * XState * connected) (Z * string)) :=
  match connect_block BlockHash params ap fAssetIndex unset base env others fWritten st w c h block with
  | None => None
  | Some (Err e) => Some (Err e)
  | Some (Ok (s, c, undo)) => Some (Ok (c, flush_global (as_cache s) (as_global s), as_accounts s, mkConnected block undo (as_undo s)))
  end.
(** [None] is the failure, after which the node stops. *)
Definition DisconnectTip (base : view) (fWritten : bool) (st : XState) (w : assets_global) (c : CCoinsMap) (h : Z) (tip : connected) : option (CCoinsMap * assets_global * XState) :=
  match disconnect_block ap false fAssetIndex unset base false fWritten c (mkAssets ClearDirtyCache w st (bc_assets tip)) h (vtx (bc_block tip)) (bc_undo tip) with
  | Some (c, s, DISCONNECT_OK) => Some (c, flush_global (as_cache s) (as_global s), as_accounts s)
  | _ => None
  end.

(** ** What the blocks say *)

Definition blocks (chain : list connected) : list CBlock := map bc_block chain.
(** Of the blocks of a chain, the tip first: its transactions, its coins and its
    asset operations. *)
Fixpoint chain_history (bs : list CBlock) : history :=
  match bs with [] => [] | b :: bs => rev (map (fun tx => (tx, zlen bs + 1)) (vtx b)) ++ chain_history bs end.
Fixpoint chain_view (bs : list CBlock) : view := match bs with [] => ∅ | b :: bs => block_view (chain_view bs) (vtx b) (zlen bs + 1) end.
Fixpoint chain_ops (bs : list CBlock) : list asset_op := match bs with [] => [] | b :: bs => ops_of ap (vtx b) ++ chain_ops bs end.

(** ** The states of a node *)

(** What is assumed of a connection besides the checks of the code: the transactions
    of the block are new (no two different ones share an id, no identity claim comes
    again), their scripts are bytes, a transaction id stands for the reissue of one
    name, the block issues and reissues no name that was unissued since the last
    dump of the caches, and the node does not reindex. *)
Definition connect_fits (chain : list connected) (w : assets_global) (env : asset_env) (block : CBlock) : Prop :=
  ids_new ap (chain_history (blocks chain)) (vtx block) (zlen (blocks chain) + 1) /\ Forall (tx_good ap reissue_at (passets w)) (vtx block) /\ ae_fReindex env = false.
(** And of a disconnection: the block reissued no name twice. *)
Definition disconnect_fits (tip : connected) : Prop := NoDup (reissued_names ap (vtx (bc_block tip))).

(** The states a node comes to, with the index of amounts by address on or off:
    blocks that pass the checks are connected where [ConnectTip] accepts them, the
    tip is disconnected where [DisconnectTip] succeeds. *)
Inductive node_at : list connected -> view -> CCoinsMap -> assets_global -> Prop :=
| node_genesis w : passets w = ClearDirtyCache -> lru_items (passetsCache w) = [] -> db_assets (passetsdb w) = ∅ -> node_at [] ∅ ∅ w
| node_connect chain base c w block env others fWritten st c' w' st' tip : let h := zlen (blocks chain) in
    node_at chain base c w -> block_checked h block -> connect_fits chain w env block ->
    ConnectTip base env others fWritten st w c (h + 1) block = Some (Ok (c', w', st', tip)) -> node_at (tip :: chain) base c' w'
| node_disconnect tip chain base c w fWritten st c' w' st' :
    node_at (tip :: chain) base c w -> disconnect_fits tip ->
    DisconnectTip base fWritten st w c (zlen (blocks chain) + 1) tip = Some (c', w', st') -> node_at chain base c' w'
| node_dump chain base c w : node_at chain base c w -> node_at chain base c (DumpCacheToDatabase fAssetIndex w)
| node_read chain base c w w' : node_at chain base c w -> same_world w w' -> node_at chain base c w'
| node_coins chain base c w base' c' : node_at chain base c w -> unspent_view base' -> cache_ok base' c' -> view_of base' c' = view_of base c -> node_at chain base' c' w.

(** ** The invariant *)

Definition tip_ok (bs : list CBlock) : Prop :=
  kept_view (chain_view bs) /\ hist_ok (chain_view bs) (chain_history bs) (zlen bs) /\ assets_fine (chain_ops bs) /\
  map_Forall (fun _ coin => coin_fine ap coin) (chain_view bs) /\ forall name, view_sum (coin_units ap name) (chain_view bs) <= ops_units (chain_ops bs) name.
Definition link_ok (tip : connected) (bs : list CBlock) : Prop :=
  let txs := vtx (bc_block tip) in
  block_extends (zlen bs) (chain_history bs) (bc_block tip) /\ block_inputs (chain_view bs) txs (zlen bs + 1) /\ txs_facts ap reissue_at (chain_ops bs) txs /\
  bc_undo tip = tail (block_undo (chain_view bs) txs (zlen bs + 1)) /\ bc_assets tip = txs_undo ap (chain_ops bs) txs.
Fixpoint links_ok (chain : list connected) : Prop :=
  match chain with [] => True | tip :: chain => link_ok tip (blocks chain) /\ tip_ok (blocks chain) /\ links_ok chain end.
Definition node_ok (chain : list connected) (base : view) (c : CCoinsMap) (w : assets_global) : Prop :=
  let bs := blocks chain in
  unspent_view base /\ cache_ok base c /\ view_of base c = chain_view bs /\
  state_ok reissue_at (mkState ClearDirtyCache w Connecting (chain_ops bs) (chain_ops bs)) /\ tip_ok bs /\ links_ok chain.

Lemma node_chain_ok chain base c w : node_ok chain base c w -> chain_ok (zlen (blocks chain)) base c (chain_history (blocks chain)).
Proof. intros (Hb & Hc & Hv & _ & (Hk & Hh & _) & _). unfold chain_ok. rewrite Hv. split_and!; try done. unfold zlen. lia. Qed.
Lemma node_supply_at chain base c w : node_ok chain base c w -> supply_at ap reissue_at (chain_ops (blocks chain)) (view_of base c) w.
Proof. intros (_ & _ & Hv & Hs & (_ & _ & HH & Hf & Hle) & _). unfold supply_at. rewrite Hv. by split_and!. Qed.
Lemma view_of_none v : view_of v ∅ = v.
Proof. apply map_eq. intros o. rewrite lookup_view_of, lookup_empty. by destruct (v !! o). Qed.

Lemma connect_tip_ok chain base c w block env others fWritten st : nBIP34Enabled bp = true -> node_ok chain base c w ->
  block_checked (zlen (blocks chain)) block -> connect_fits chain w env block ->
  exists r, ConnectTip base env others fWritten st w c (zlen (blocks chain) + 1) block = Some r /\
    forall c' w' st' tip, r = Ok (c', w', st', tip) -> bc_block tip = block /\ node_ok (tip :: chain) base c' w'.
Proof.
  intros Hb Hn Hck0 (Hids & Hg & Hre). pose proof (conj Hck0 Hids : block_extends _ _ _) as Hck. pose proof (node_chain_ok _ _ _ _ Hn) as Hok. pose proof (node_supply_at _ _ _ _ Hn) as Hsup.
  destruct (connect_block_spec BlockHash BlockHashFull hp bp params ap Hprefixes reissue_at fAssetIndex unset _ base c _ w block env others fWritten st _ Hb Hok Hsup Hck Hg Hre) as (r & E & Hr).
  unfold ConnectTip. rewrite E. destruct r as [[[s c'] undo]|e]; [|by eexists]. eexists. split; [done|]. intros c1 w1 st1 tip [= <- <- <- <-]. split; [done|].
  destruct (Hr s c' undo eq_refl) as ((_ & Hbase & Hc' & Hk' & Hh') & Hinv & Hv' & Hu & Hin). pose proof (supply_flush ap reissue_at fAssetIndex unset _ _ _ _ _ Hinv) as (Hs' & HH' & Hf' & Hle').
  destruct Hinv as (_ & _ & _ & _ & _ & Hfacts & Eu). destruct Hn as (_ & _ & Hv & _ & Htip & Hlinks). rewrite Hv in *.
  assert (Hlen : zlen (block :: blocks chain) = zlen (blocks chain) + 1) by (rewrite zlen_cons; lia).
  assert (Htip' : tip_ok (block :: blocks chain)) by (unfold tip_ok; rewrite Hlen; cbn [chain_view chain_history chain_ops]; rewrite <-Hv'; by split_and!).
  unfold node_ok. cbn [blocks map bc_block]. fold (blocks chain). cbn [chain_view chain_ops links_ok]. split_and!; try done.
Qed.
Lemma disconnect_tip_ok tip chain base c w fWritten st : nBIP34Enabled bp = true -> node_ok (tip :: chain) base c w -> disconnect_fits tip ->
  match DisconnectTip base fWritten st w c (zlen (blocks chain) + 1) tip with
  | Some (c', w', st') => node_ok chain base c' w'
  | None => fAssetIndex = true
  end.
Proof.
  intros Hb (Hbase & Hc & Hv & Hs & _ & Hlink & Htip & Hlinks) Hnd. unfold DisconnectTip. destruct Hlink as (Hck & Hin & Hfacts & Eu & Ea). pose proof Htip as (Hk & Hh & _ & Hf & _).
  assert (Hok : chain_ok (zlen (blocks chain)) (chain_view (blocks chain)) ∅ (chain_history (blocks chain))).
  { unfold chain_ok. rewrite view_of_none. split_and!; try done; [unfold zlen; lia|by apply kept_unspent]. }
  destruct (disconnect_block_ok BlockHash BlockHashFull hp bp params ap Hprefixes reissue_at fAssetIndex unset _ _ ∅ _ (bc_block tip) base c (chain_ops (blocks chain)) w st false fWritten (bc_assets tip) Hb Hok Hck)
    as (c2 & s2 & r & E & Hr); rewrite ?view_of_none in *; try done.
  { rewrite Ea. exact (undo_data_fit ap Hprefixes reissue_at _ [] _ Hnd Hfacts). }
  rewrite Eu, E. destruct Hr as [[Hix ->]|(-> & Hc2 & Hv2 & Hs2)]; [done|]. by split_and!.
Qed.

Lemma genesis_ok w : passets w = ClearDirtyCache -> lru_items (passetsCache w) = [] -> db_assets (passetsdb w) = ∅ -> node_ok [] ∅ ∅ w.
Proof.
  intros E1 E2 E3. unfold node_ok, tip_ok. cbn [blocks map chain_view chain_history chain_ops links_ok]. rewrite view_of_none. split_and!; try done; try apply map_Forall_empty.
  - apply (runs_ok reissue_at fAssetIndex unset ap (mkState ClearDirtyCache w Connecting [] [])); [|apply rtc_refl]. split_and!; try done. intros n. cbn [cs_global cs_now assets_of]. by rewrite E3.
  - split_and!; intros ? ? H; by rewrite ?lookup_empty in H; apply elem_of_nil in H || discriminate H.
Qed.
Lemma node_at_ok chain base c w : nBIP34Enabled bp = true -> node_at chain base c w -> node_ok chain base c w.
Proof.
  intros Hb. induction 1 as [w E1 E2 E3|chain base c w block env others fWritten st c' w' st' tip h _ IH Hck Hg Hj|tip chain base c w fWritten st c' w' st' _ IH Hnd Hj|chain base c w _ IH|chain base c w w' _ IH Hw|
    chain base c w base' c' _ IH Hu Hok Hv].
  - by apply genesis_ok.
  - destruct (connect_tip_ok chain base c w block env others fWritten st Hb IH Hck Hg) as (r & E & Hr). subst h. rewrite Hj in E. injection E as <-. by apply (Hr c' w' st' tip).
  - pose proof (disconnect_tip_ok tip chain base c w fWritten st Hb IH Hnd) as Hok. by rewrite Hj in Hok.
  - destruct IH as (H1 & H2 & H3 & H4 & H5 & H6). split_and!; try done. exact (step_ok reissue_at fAssetIndex unset ap CallOther _ _ (step_dump _ _ _ _ w Connecting _) I H4).
  - destruct IH as (H1 & H2 & H3 & H4 & H5 & H6). split_and!; try done. by apply (state_ok_world _ _ w).
  - destruct IH as (H1 & H2 & H3 & H4 & H5 & H6). split_and!; try done. by rewrite Hv.
Qed.

(** What the caches know of an asset that is there. *)
Definition asset_found (w : assets_global) (n : bytes) : option CNewAsset :=
  if (CheckIfAssetExists false ClearDirtyCache w n true).2 then fst <$> (GetAssetMetaDataIfExists ClearDirtyCache w n).2 else None.
Lemma asset_found_is chain base c w n : node_ok chain base c w -> asset_found w n = assets_of (chain_ops (blocks chain)) !! n.
Proof.
  intros (_ & _ & _ & Hs & _). unfold asset_found. rewrite (proj1 (state_exists _ _ _ _ _ _ n Hs)). destruct (assets_of (chain_ops (blocks chain)) !! n) as [a|] eqn:Ea; [|by rewrite bool_decide_eq_false_2 by (by intros [])].
  rewrite bool_decide_eq_true_2 by done. by apply (state_meta _ _ _ _ _ _ n Hs).
Qed.

(** C7. Whatever blocks were connected and disconnected on the way, with the caches
    flushed, dumped and read in between, a node holds what the blocks of its active
    chain say: its coins are those of the transactions of these blocks in order, and
    an asset is found, with its metadata, exactly as the issues and reissues of these
    blocks leave it. So nodes with the same blocks agree, however they came there.
    Disconnecting the last block gives the state of the chain before it when it
    succeeds, and it succeeds when the index of amounts by address is off. All this
    for runs as [connect_fits] and [disconnect_fits] say: new transactions, scripts
    of bytes, ids that stand for the reissue of one name, no issue or reissue of a
    name unissued since the last dump, no reindexing, and no disconnected block that
    reissued a name twice. *)
Theorem active_chain_decides (chain : list connected) (base : view) (c : CCoinsMap) (w : assets_global) :
  nBIP34Enabled bp = true -> node_at chain base c w ->
  view_of base c = chain_view (blocks chain) /\ (forall n, asset_found w n = assets_of (chain_ops (blocks chain)) !! n) /\
  forall tip rest fWritten st, chain = tip :: rest -> disconnect_fits tip ->
    match DisconnectTip base fWritten st w c (zlen (blocks rest) + 1) tip with
    | Some (c', w', st') => view_of base c' = chain_view (blocks rest) /\ forall n, asset_found w' n = assets_of (chain_ops (blocks rest)) !! n
    | None => fAssetIndex = true
    end.
Proof.
  intros Hb Hn. apply node_at_ok in Hn; [|done]. split_and!; [by destruct Hn as (_ & _ & ? & _)|intros n; by eapply asset_found_is|].
  intros tip rest fWritten st -> Hnd. pose proof (disconnect_tip_ok tip rest base c w fWritten st Hb Hn Hnd) as Hd. destruct (DisconnectTip _ _ _ _ _ _ _) as [[[c' w'] st']|]; [|done].
  split; [by destruct Hd as (_ & _ & ? & _)|]. intros n. by eapply asset_found_is.
Qed.

(** C8. In every such state, with the index of amounts by address on or off, the
    unspent outputs hold of every asset at most the amount that the caches record for
    it, and of an owner token at most one for an asset that exists; recorded amounts
    are within MAX_MONEY. Connecting a block that passes the checks and fits (see
    [connect_fits]) fails no assertion of the coins or of the asset caches. The runs
    are those of [active_chain_decides]. *)
Theorem asset_supply_bounded (chain : list connected) (base : view) (c : CCoinsMap) (w : assets_global) :
  nBIP34Enabled bp = true -> node_at chain base c w ->
  (forall name, 0 <= view_sum (coin_units ap name) (view_of base c) <= recorded (asset_found w) name) /\
  (forall name a, asset_found w name = Some a -> 0 <= na_nAmount a <= MAX_MONEY) /\
  forall block env others fWritten st, block_checked (zlen (blocks chain)) block -> connect_fits chain w env block ->
    is_Some (ConnectTip base env others fWritten st w c (zlen (blocks chain) + 1) block).
Proof.
  intros Hb Hn%node_at_ok; [|done]. pose proof (fun n => asset_found_is _ _ _ _ n Hn) as Hm. pose proof Hn as (_ & _ & Hv & Hs & (_ & _ & _ & Hf & Hle) & _). destruct Hs as [_ _ Hnow _ _ _]. cbn [cs_now] in Hnow. split_and!.
  - intros name. rewrite Hv. split; [apply view_sum_nonneg; intros o coin Ho; by apply (coin_units_nonneg ap), (Hf o)|]. etransitivity; [apply Hle|]. rewrite (ops_recorded reissue_at) by done.
    unfold recorded. rewrite Hm. destruct (owner_of name) as [x|]; [by rewrite Hm|done].
  - intros name a. rewrite Hm. intros Ha. by destruct (assets_of_hash reissue_at _ name a Hnow Ha).
  - intros block env others fWritten st Hck Hg. destruct (connect_tip_ok chain base c w block env others fWritten st Hb Hn Hck Hg) as (r & E & _). by exists r.
Qed.
End Active.

(** ** A node with one block *)

Local Abbreviation toy_asset_connected :=
  (connect_block toy_hash toy_params main_assets false 0 no_coins quiet_env (fun _ _ _ => None) true empty_xstate new_node no_entries (0 + 1) toy_block).
Local Abbreviation toy_node := (node_at (secp := toy_secp256k1) toy_hash toy_full toy_main_hp toy_bp toy_params main_assets (fun _ => []) false 0).
Definition toy_tip : connected := mkConnected toy_block toy_assets.2 (as_undo toy_assets.1.1).

Lemma toy_good : Forall (tx_good main_assets (fun _ => []) (passets new_node)) (vtx toy_block).
Proof.
  apply List.Forall_forall. intros tx Hin. split; [apply known_plain; revert tx Hin; apply List.Forall_forall; vm_compute; repeat constructor|].
  apply List.Forall_forall. intros op _. reflexivity.
Qed.
Lemma toy_node_at : toy_node [toy_tip] no_coins toy_assets.1.2 toy_world.
Proof.
  assert (Hc : toy_asset_connected = Some (Ok (toy_assets.1.1, toy_assets.1.2, toy_assets.2))).
  { refine (ok_or_ok (mkAssets ClearDirtyCache new_node empty_xstate [], no_entries, []) toy_asset_connected _). vm_compute. reflexivity. }
  refine (node_connect (secp := toy_secp256k1) toy_hash toy_full toy_main_hp toy_bp toy_params main_assets (fun _ => []) false 0 [] no_coins no_entries new_node toy_block quiet_env
    (fun _ _ _ => None) true empty_xstate toy_assets.1.2 toy_world (as_accounts toy_assets.1.1) toy_tip _ toy_checked (conj toy_ids (conj toy_good eq_refl)) _).
  - by apply node_genesis.
  - unfold ConnectTip. change (zlen (blocks []) + 1) with (0 + 1). rewrite Hc. reflexivity.
Qed.
Lemma toy_reissues : disconnect_fits main_assets toy_tip.
Proof. unfold disconnect_fits. assert (E : reissued_names main_assets (vtx toy_block) = []) by (vm_compute; reflexivity). cbn [bc_block toy_tip]. rewrite E. constructor. Qed.

(** ALICE is found after the block with its claim, and no more once it is undone. *)
Lemma active_chain_decides_witness : is_Some (asset_found toy_world (bs "ALICE")) /\
  exists c w st, DisconnectTip main_assets false 0 no_coins true empty_xstate toy_world toy_assets.1.2 1 toy_tip = Some (c, w, st) /\ view_of no_coins c = ∅ /\ asset_found w (bs "ALICE") = None.
Proof.
  destruct (active_chain_decides (secp := toy_secp256k1) toy_hash toy_full toy_main_hp toy_bp toy_params main_assets main_prefixes_ok (fun _ => []) false 0 [toy_tip] no_coins toy_assets.1.2 toy_world
    eq_refl toy_node_at) as (_ & _ & Hd).
  split; [assert (E : bool_decide (is_Some (asset_found toy_world (bs "ALICE"))) = true) by (vm_compute; reflexivity); by apply bool_decide_eq_true in E|].
  specialize (Hd toy_tip [] true empty_xstate eq_refl toy_reissues). revert Hd. change (zlen (blocks []) + 1) with 1. generalize (DisconnectTip main_assets false 0 no_coins true empty_xstate toy_world toy_assets.1.2 1 toy_tip).
  intros [[[c w] st]|]; [|discriminate]. intros [Hv Hf]. exists c, w, st. split; [reflexivity|]. split; [exact Hv|]. exact (Hf (bs "ALICE")).
Defined.

(** The claim makes 1 unit of ALICE and its owner token. *)
Lemma asset_supply_bounded_witness :
  view_sum (coin_units main_assets (bs "ALICE")) (view_of no_coins toy_assets.1.2) = COIN /\
  view_sum (coin_units main_assets (bs "ALICE!")) (view_of no_coins toy_assets.1.2) = COIN /\
  view_sum (coin_units main_assets (bs "ALICE")) (view_of no_coins toy_assets.1.2) <= recorded (asset_found toy_world) (bs "ALICE").
Proof.
  split; [vm_compute; reflexivity|]. split; [vm_compute; reflexivity|].
  exact (proj2 (proj1 (asset_supply_bounded (secp := toy_secp256k1) toy_hash toy_full toy_main_hp toy_bp toy_params main_assets main_prefixes_ok (fun _ => []) false 0 [toy_tip] no_coins toy_assets.1.2 toy_world
    eq_refl toy_node_at) (bs "ALICE"))).
Defined.

(** ** A claim that comes twice *)

(** The checks of a block let a claim come twice, and so does its merkle root: a last
    transaction that equals the one before it is no mutation when their number is odd. *)
Definition twice_block : CBlock :=
  Eval vm_compute in
  match assemble (H := toy_secp256k1) toy_main_hp toy_bp toy_params (toy_env (main_genesis_nTime + 70)) Producer.toy_node ([alice_claim; alice_claim], 0)
    0x30000000 (main_genesis_nTime + 70) (toy_script 3) 0 Producer.toy_tip with
  | Some (b, _, _) => b
  | None => mkBlock (mkHeader 0 [] [] 0 0 0 0 0 []) []
  end.
Local Abbreviation connect_twice st w c := (ConnectTip toy_hash toy_params main_assets false 0 no_coins quiet_env (fun _ _ _ => None) true st w c 1 twice_block).

Local Abbreviation toy_undone := (DisconnectTip main_assets false 0 no_coins true empty_xstate (DumpCacheToDatabase false toy_world) toy_assets.1.2 1 toy_tip).

Lemma twice_checked : checked (secp := toy_secp256k1) toy_hash toy_full toy_main_hp toy_bp toy_params main_assets false 0 twice_block.
Proof.
  split; [|split; [|done]].
  - exists empty_xstate, empty_pool, true, (nd_arena Producer.toy_node), false, false. vm_compute. reflexivity.
  - exists (nd_arena Producer.toy_node), toy_seed, 0%nat, Producer.toy_tip. split; [exact toy_node_tip|]. split; [reflexivity|]. vm_compute. reflexivity.
Qed.
(** A node that starts rejects it, because the name is used by then. A node that
    disconnected a block with the same claim since the last dump does not find the
    name, and [AddCoin] throws: [connect_fits] is needed, and no check sees to it. *)
Lemma repeated_claim_throws :
  connect_twice empty_xstate new_node no_entries = Some (Err (100, "Invalid parameter: asset_name has already been used")) /\
  exists c w st, toy_node [] no_coins c w /\ connect_twice st w c = None.
Proof.
  split; [vm_compute; reflexivity|].
  assert (H : match toy_undone with Some (c, w, st) => connect_twice st w c | None => Some (Err (0, "")) end = None) by (vm_compute; reflexivity).
  assert (Hnode : forall c w st, toy_undone = Some (c, w, st) -> toy_node [] no_coins c w).
  { intros c w st E. eapply (node_disconnect (secp := toy_secp256k1) _ _ _ _ _ _ _ _ _ toy_tip []); [|exact toy_reissues|exact E]. apply node_dump. exact toy_node_at. }
  revert H Hnode. generalize toy_undone. intros [[[c w] st]|] H Hnode; [|discriminate H]. exists c, w, st. split; [exact (Hnode c w st eq_refl)|exact H].
Qed.
