(* ===== verification/Sha1.v ===== *)
(** SHA-1: src/src/crypto/sha1.cpp, which [OP_SHA1] of the script interpreter
    uses. The streaming interface is [MDHash.Write]. *)

From S2P Require Import Prelude MDHash Sha256 Ripemd160.

Local Open Scope Z_scope.

Module sha1.
Import sha256 ripemd160.

Definition sha1_f1 (b c d : Z) : Z := Z.lxor d (Z.land b (Z.lxor c d)).
Definition sha1_f2 (b c d : Z) : Z := Z.lxor (Z.lxor b c) d.
Definition sha1_f3 (b c d : Z) : Z := Z.lor (Z.land b c) (Z.land d (Z.lor b c)).
Definition k1 : Z := 0x5A827999.
Definition k2 : Z := 0x6ED9EBA1.
Definition k3 : Z := 0x8F1BBCDC.
Definition k4 : Z := 0xCA62C1D6.

Definition sha1_Initialize : regs5 :=
  Regs5 0x67452301 0xEFCDAB89 0x98BADCFE 0x10325476 0xC3D2E1F0.

(** [Round(a, b, c, d, e, f(b, c, d), k, w)]; the next call of [Transform] names
    the five variables rotated by one, and the result is given that way. *)
Definition sha1_Round (f : Z -> Z -> Z -> Z) (k : Z) (s : regs5) (w : Z) : regs5 :=
  let '(Regs5 a b c d e) := s in
  Regs5 (add32 e (add32 (add32 (add32 (rol a 5) (f b c d)) k) w)) a (rol b 30) c d.

(** [w0 = left(w0 ^ w13 ^ w8 ^ w2)] and its fifteen renamings. *)
Definition left_w (w : list Z) (i : Z) : list Z :=
  let at_off d := nth (Z.to_nat ((i + d) mod 16)) w 0 in
  <[Z.to_nat i := rol (Z.lxor (Z.lxor (Z.lxor (at_off 0) (at_off 13)) (at_off 8)) (at_off 2)) 1]> w.

(** The calls of [Round] number [t] on: the first sixteen read the words of the
    chunk, the others first update their word. *)
Definition sha1_call (t : Z) (ws : list Z * regs5) : list Z * regs5 :=
  let w := if t <? 16 then ws.1 else left_w ws.1 (t mod 16) in
  let x := nth (Z.to_nat (t mod 16)) w 0 in
  (w, if t <? 20 then sha1_Round sha1_f1 k1 ws.2 x
      else if t <? 40 then sha1_Round sha1_f2 k2 ws.2 x
      else if t <? 60 then sha1_Round sha1_f3 k3 ws.2 x
      else sha1_Round sha1_f2 k4 ws.2 x).
Fixpoint sha1_calls (n : nat) (t : Z) (ws : list Z * regs5) : list Z * regs5 :=
  match n with O => ws | S n => sha1_calls n (t + 1) (sha1_call t ws) end.

Definition sha1_Transform (s : regs5) (chunk : bytes) : regs5 :=
  let '(Regs5 s0 s1 s2 s3 s4) := s in
  let '(Regs5 a b c d e) := (sha1_calls 80 0 (read_be32 16 chunk, s)).2 in
  Regs5 (add32 s0 a) (add32 s1 b) (add32 s2 c) (add32 s3 d) (add32 s4 e).

Definition CSHA1 : hasher regs5 := Hasher sha1_Initialize (repeat 0 64) 0.
Definition CSHA1_Write (c : hasher regs5) (data : bytes) : hasher regs5 := Write sha1_Transform c data.

Definition sha1_out (s : regs5) : bytes :=
  let '(Regs5 a b c d e) := s in
  be_bytes 4 a ++ be_bytes 4 b ++ be_bytes 4 c ++ be_bytes 4 d ++ be_bytes 4 e.

Definition CSHA1_Finalize (c : hasher regs5) : bytes :=
  let sizedesc := be_bytes 8 (u64 (Z.shiftl (hbytes c) 3)) in
  let c1 := CSHA1_Write c (take (pad_len (hbytes c)) pad) in
  sha1_out (hs (CSHA1_Write c1 sizedesc)).

(** The specification: the padded message, block after block. *)
Definition sha1_spec (m : bytes) : bytes := sha1_out (absorb sha1_Transform sha1_Initialize (fips_pad m)).

Lemma sha1_Finalize_holds m c : holds sha1_Transform sha1_Initialize m c -> CSHA1_Finalize c = sha1_spec m.
Proof.
  intros Hc. pose proof Hc as (_ & _ & _ & Hn). unfold CSHA1_Finalize, sha1_spec.
  pose proof (Write_holds _ _ _ _ (take (pad_len (hbytes c)) pad) Hc) as H1.
  pose proof (Write_holds _ _ _ _ (be_bytes 8 (u64 (Z.shiftl (hbytes c) 3))) H1) as H2.
  destruct H2 as (H2 & _). unfold CSHA1_Write.
  rewrite H2, Hn, sizedesc_eq, pad_len_u64, pad_take. unfold fips_pad. by rewrite <-app_assoc.
Qed.
(** [CSHA1().Write(data).Finalize(hash)] is the SHA-1 of the data. *)
Lemma CSHA1_correct m : CSHA1_Finalize (CSHA1_Write CSHA1 m) = sha1_spec m.
Proof. apply sha1_Finalize_holds, (Write_holds _ _ []), init_holds. done. Qed.

(** The vectors of src/src/test/crypto_tests.cpp. *)
Example sha1_abc : sha1_spec (bs "abc") =
  [0xa9; 0x99; 0x3e; 0x36; 0x47; 0x06; 0x81; 0x6a; 0xba; 0x3e; 0x25; 0x71; 0x78; 0x50; 0xc2; 0x6c; 0x9c; 0xd0; 0xd8; 0x9d].
Proof. vm_compute. reflexivity. Qed.
Example sha1_digest : sha1_spec (bs "message digest") =
  [0xc1; 0x22; 0x52; 0xce; 0xda; 0x8b; 0xe8; 0x99; 0x4d; 0x5f; 0xa0; 0x29; 0x0a; 0x47; 0x23; 0x1c; 0x1d; 0x16; 0xaa; 0xe3].
Proof. vm_compute. reflexivity. Qed.

End sha1.

#[global] Arguments sha1.CSHA1_Finalize : simpl never.
