(* ===== verification/Ecdsa.v ===== *)
(** DER signatures: [ecdsa_signature_parse_der_lax], [CPubKey::Verify] and
    [CPubKey::CheckLowS] of src/src/pubkey.cpp, over the libsecp256k1 calls they
    make, and the encoding rules for signatures and keys of
    src/src/script/interpreter.cpp. *)

From S2P Require Import Prelude Sha256 Ripemd160 Script Key.

Local Open Scope Z_scope.

(** The libsecp256k1 calls on signatures: parsing [R] and [S] as 64 bytes, which
    fails when one is not below the group order; the lower-S form with whether it
    differs; and the verification of a digest. *)
Class Secp256k1Ecdsa `(Secp256k1) := {
  secp_sig : Type;
  signature_parse_compact : bytes -> option secp_sig;
  signature_normalize : secp_sig -> bool * secp_sig;
  ecdsa_verify : secp_sig -> bytes -> secp_pubkey -> bool;
}.

(** ** Lax DER *)

(** [while (lenbyte > 0 && input[pos] == 0)] *)
Fixpoint skip_zeros (n : nat) (input : bytes) : nat * bytes :=
  match n, input with
  | S n', b :: rest => if b =? 0 then skip_zeros n' rest else (n, input)
  | _, _ => (n, input)
  end.

(** An integer length: the length and what follows it. *)
Definition der_length (input : bytes) : option (Z * bytes) :=
  match input with
  | [] => None
  | lenbyte :: rest =>
      if Z.land lenbyte 0x80 =? 0 then Some (lenbyte, rest)
      else if zlen rest <? lenbyte - 0x80 then None
      else let '(n, rest) := skip_zeros (Z.to_nat (lenbyte - 0x80)) rest in
        if (8 <=? n)%nat then None else Some (be_decode (take n rest), drop n rest)
  end.
(** An integer element: its bytes and what follows it. *)
Definition der_integer (input : bytes) : option (bytes * bytes) :=
  match input with
  | [] => None
  | tag :: rest =>
      if negb (tag =? 0x02) then None else
      match der_length rest with
      | None => None
      | Some (len, rest) => if zlen rest <? len then None else Some (take (Z.to_nat len) rest, drop (Z.to_nat len) rest)
      end
  end.
(** The sequence header: what follows it. *)
Definition der_sequence (input : bytes) : option bytes :=
  match input with
  | tag :: lenbyte :: rest =>
      if negb (tag =? 0x30) then None
      else if Z.land lenbyte 0x80 =? 0 then Some rest
      else if zlen rest <? lenbyte - 0x80 then None else Some (drop (Z.to_nat (lenbyte - 0x80)) rest)
  | _ => None
  end.
(** Ignore leading zeroes; [None] is an overflow of the 32 bytes. *)
Definition der_scalar (b : bytes) : option bytes :=
  let '(n, v) := skip_zeros (length b) b in
  if (32 <? n)%nat then None else Some (repeat 0 (32 - n) ++ v).

Section Ecdsa.
Context `{secp : Secp256k1} {ec : Secp256k1Ecdsa secp}.

(** [None] is the result 0. A number that does not fit gives the signature of
    zeroes, which is parsed but never valid. *)
Definition ecdsa_signature_parse_der_lax (input : bytes) : option secp_sig :=
  match der_sequence input with
  | None => None
  | Some rest =>
      match der_integer rest with
      | None => None
      | Some (r, rest) =>
          match der_integer rest with
          | None => None
          | Some (s, _) =>
              let zeroes := signature_parse_compact (repeat 0 64) in
              match der_scalar r, der_scalar s with
              | Some r, Some s => match signature_parse_compact (r ++ s) with Some sig => Some sig | None => zeroes end
              | _, _ => zeroes
              end
          end
      end
  end.

Definition CPubKey_Verify (key : CPubKey) (hash vchSig : bytes) : bool :=
  if negb (CPubKey_IsValid key) then false else
  match ec_pubkey_parse key with
  | None => false
  | Some pubkey =>
      match ecdsa_signature_parse_der_lax vchSig with
      | None => false
      | Some sig => ecdsa_verify (signature_normalize sig).2 hash pubkey
      end
  end.

Definition CheckLowS (vchSig : bytes) : bool :=
  match ecdsa_signature_parse_der_lax vchSig with
  | None => false
  | Some sig => negb (signature_normalize sig).1
  end.
End Ecdsa.

(** ** Strict DER *)

Definition IsValidSignatureEncoding (sig : bytes) : bool :=
  if zlen sig <? 9 then false else
  if 73 <? zlen sig then false else
  if negb (sat sig 0 =? 0x30) then false else
  if negb (sat sig 1 =? zlen sig - 3) then false else
  let lenR := sat sig 3 in
  if zlen sig <=? 5 + lenR then false else
  let at_ n := sat sig (Z.to_nat n) in
  let lenS := at_ (5 + lenR) in
  if negb (lenR + lenS + 7 =? zlen sig) then false else
  if negb (sat sig 2 =? 0x02) then false else
  if lenR =? 0 then false else
  if negb (Z.land (sat sig 4) 0x80 =? 0) then false else
  if (1 <? lenR) && (sat sig 4 =? 0x00) && (Z.land (sat sig 5) 0x80 =? 0) then false else
  if negb (at_ (lenR + 4) =? 0x02) then false else
  if lenS =? 0 then false else
  if negb (Z.land (at_ (lenR + 6)) 0x80 =? 0) then false else
  if (1 <? lenS) && (at_ (lenR + 6) =? 0x00) && (Z.land (at_ (lenR + 7)) 0x80 =? 0) then false else
  true.

Definition IsCompressedOrUncompressedPubKey (vchPubKey : bytes) : bool :=
  if zlen vchPubKey <? 33 then false
  else if sat vchPubKey 0 =? 0x04 then zlen vchPubKey =? 65
  else if (sat vchPubKey 0 =? 0x02) || (sat vchPubKey 0 =? 0x03) then zlen vchPubKey =? 33
  else false.
Definition IsCompressedPubKey (vchPubKey : bytes) : bool :=
  if negb (zlen vchPubKey =? 33) then false
  else if negb (sat vchPubKey 0 =? 0x02) && negb (sat vchPubKey 0 =? 0x03) then false else true.

Definition IsDefinedHashtypeSignature (vchSig : bytes) : bool :=
  if zlen vchSig =? 0 then false else
  let nHashType := Z.land (List.last vchSig 0) (Z.lnot SIGHASH_ANYONECANPAY) in
  if (nHashType <? SIGHASH_ALL) || (SIGHASH_SINGLE <? nHashType) then false else true.

(** A signature in its strict form: two integers without needless bytes, and the
    byte of the signed parts. *)
Definition der_int_ok (b : bytes) : Prop :=
  match b with
  | [] => False
  | x :: b => bytes_ok (x :: b) /\ x < 128 /\ match b with [] => True | y :: _ => x = 0 -> 128 <= y end
  end.
Definition der_signature (r s : bytes) : bytes :=
  0x30 :: (zlen r + zlen s + 4) :: (0x02 :: zlen r :: r) ++ 0x02 :: zlen s :: s.

Lemma skip_zeros_spec b : let '(n, v) := skip_zeros (length b) b in
  b = repeat 0 (length b - n) ++ v /\ length v = n /\ (n <= length b)%nat /\ match v with [] => True | x :: _ => x <> 0 end.
Proof.
  induction b as [|x b IH]; [done|]. cbn [length skip_zeros]. destruct (Z.eqb_spec x 0) as [->|Hx].
  - destruct (skip_zeros (length b) b) as [n v]. destruct IH as (Hb & Hv & Hle & Hnz). split_and!; [|done|lia|done].
    replace (S (length b) - n)%nat with (S (length b - n)) by lia. cbn [repeat app]. by f_equal.
  - split_and!; [by rewrite Nat.sub_diag|done|lia|done].
Qed.

Lemma le_decode_zeros k : le_decode (repeat 0 k) = 0.
Proof. induction k as [|k IH]; [done|]. cbn [repeat]. rewrite le_decode_cons, IH; [done|by split]. Qed.
Lemma be_decode_zeros k b : bytes_ok b -> be_decode (repeat 0 k ++ b) = be_decode b.
Proof.
  intros Hb. unfold be_decode. rewrite rev_app_distr, le_decode_app by (by apply Forall_rev). rewrite rev_repeat, le_decode_zeros. lia.
Qed.
(** The 32 bytes of an integer that fits. *)
Lemma der_scalar_value b v : bytes_ok b -> der_scalar b = Some v -> length v = 32%nat /\ be_decode v = be_decode b.
Proof.
  intros Hok. unfold der_scalar. pose proof (skip_zeros_spec b) as H. destruct (skip_zeros (length b) b) as [n w]. destruct H as (Hb & Hw & Hle & _).
  destruct (Nat.ltb_spec 32 n); [done|]. intros [= <-]. rewrite length_app, repeat_length. split; [lia|]. rewrite Hb in Hok |- *.
  apply bytes_ok_app in Hok as [_ Hok]. by rewrite !be_decode_zeros.
Qed.

Lemma der_integer_strict r rest : bytes_ok r -> zlen r < 128 -> der_integer ((0x02 :: zlen r :: r) ++ rest) = Some (r, rest).
Proof.
  intros Hr Hl. cbn [app der_integer]. change (negb (0x02 =? 0x02)) with false. cbv iota. cbn [der_length].
  rewrite land_128 by (split; unfold zlen in *; lia). destruct (Z.ltb_spec (zlen r) 128); [|lia].
  rewrite zlen_app. destruct (Z.ltb_spec (zlen r + zlen rest) (zlen r)); [unfold zlen in *; lia|].
  unfold zlen. by rewrite Nat2Z.id, take_app_length, drop_app_length.
Qed.

Section Strict.
Context `{secp : Secp256k1} {ec : Secp256k1Ecdsa secp}.

(** The lax parser reads the two integers of a strict signature. *)
Lemma der_lax_strict r s : bytes_ok r -> bytes_ok s -> zlen r + zlen s < 124 ->
  ecdsa_signature_parse_der_lax (der_signature r s) =
  match der_scalar r, der_scalar s with
  | Some r, Some s => match signature_parse_compact (r ++ s) with Some sig => Some sig | None => signature_parse_compact (repeat 0 64) end
  | _, _ => signature_parse_compact (repeat 0 64)
  end.
Proof.
  intros Hr Hs Hl. unfold ecdsa_signature_parse_der_lax, der_signature. assert (0 <= zlen r /\ 0 <= zlen s) as [] by (unfold zlen; lia).
  cbn [der_sequence]. change (negb (0x30 =? 0x30)) with false. cbv iota. rewrite land_128 by (unfold byte_ok; lia). destruct (Z.ltb_spec (zlen r + zlen s + 4) 128); [|lia].
  rewrite der_integer_strict by (done || lia). pose proof (der_integer_strict s [] Hs ltac:(lia)) as E. rewrite app_nil_r in E. by rewrite E.
Qed.
End Strict.

Lemma sat_skip (a l : bytes) n k : n = Z.of_nat (length a + k) -> sat (a ++ l) (Z.to_nat n) = sat l k.
Proof. intros ->. unfold sat. rewrite Nat2Z.id, app_nth2_plus. done. Qed.
Lemma top_bit b : byte_ok b -> (Z.land b 128 =? 0) = true <-> b < 128.
Proof. intros H. by rewrite land_128, Z.ltb_lt. Qed.
Lemma top_bit_set b : byte_ok b -> (Z.land b 128 =? 0) = false <-> 128 <= b.
Proof. intros H. by rewrite land_128, Z.ltb_ge. Qed.

(** The checks on an integer at the front of [l ++ rest]. *)
Lemma der_int_ok_checks l rest : bytes_ok (l ++ rest) -> l <> [] -> rest <> [] ->
  der_int_ok l <-> Z.land (sat (l ++ rest) 0) 128 = 0 /\
    (1 <? zlen l) && (sat (l ++ rest) 0 =? 0) && (Z.land (sat (l ++ rest) 1) 128 =? 0) = false.
Proof.
  intros Hok Hl Hr. destruct l as [|x l]; [done|]. apply bytes_ok_app in Hok as [Hok Hokr]. pose proof Hok as [Hx Hl']%Forall_cons. cbn [app]. unfold sat at 1 2. cbn [nth]. rewrite <-Z.eqb_eq, top_bit by done.
  unfold der_int_ok. rewrite zlen_cons. destruct l as [|y l].
  - change (1 <? 1 + zlen []) with false. cbn. naive_solver.
  - pose proof (Forall_inv Hl') as Hy. change (sat _ 1) with y. assert ((1 <? 1 + zlen (y :: l)) = true) as -> by (apply Z.ltb_lt; rewrite zlen_cons; pose proof (zlen_nonneg l); lia). cbn [andb].
    rewrite andb_false_iff, Z.eqb_neq, top_bit_set by done. split; [|naive_solver lia]. intros (_ & ? & Hi). split; [done|]. destruct (Z.eq_dec x 0); [right; by apply Hi|by left].
Qed.

Lemma unless_iff (b x : bool) : (if b then false else x) = true <-> b = false /\ x = true.
Proof. destruct b; naive_solver. Qed.
Definition der_shape (a b c : Z) (r : bytes) (d : Z) (s : bytes) (t : Z) : bytes := [a; b; c; zlen r] ++ r ++ [d; zlen s] ++ s ++ [t].
Lemma zlen_shape a b c r d s t : zlen (der_shape a b c r d s t) = zlen r + zlen s + 7.
Proof. unfold der_shape. rewrite !zlen_app. change (zlen [a; b; c; zlen r]) with 4. change (zlen [d; zlen s]) with 2. change (zlen [t]) with 1. lia. Qed.
Lemma sat_shape_r a b c r d s t k : sat (der_shape a b c r d s t) (4 + k) = sat (r ++ d :: zlen s :: s ++ [t]) k.
Proof. done. Qed.
Lemma sat_shape_s a b c r d s t n k : n = zlen r + Z.of_nat k -> sat (der_shape a b c r d s t) (Z.to_nat (4 + n)) = sat (d :: zlen s :: s ++ [t]) k.
Proof. intros ->. unfold der_shape. rewrite app_assoc. apply sat_skip. rewrite length_app. unfold zlen. cbn [length]. lia. Qed.

Lemma strict_shape a b c r d s t : bytes_ok (der_shape a b c r d s t) ->
  IsValidSignatureEncoding (der_shape a b c r d s t) = true <->
  a = 0x30 /\ b = zlen r + zlen s + 4 /\ c = 0x02 /\ d = 0x02 /\ der_int_ok r /\ der_int_ok s /\ zlen r + zlen s <= 66.
Proof.
  intros Hok. pose proof Hok as [_ Hr]%bytes_ok_app. pose proof Hr as [_ [_ Hs]%bytes_ok_app]%bytes_ok_app. unfold IsValidSignatureEncoding. rewrite zlen_shape.
  change (sat _ 0) with a. change (sat _ 1) with b. change (sat _ 2) with c. change (sat _ 3) with (zlen r). change (sat _ 4) with (sat (r ++ d :: zlen s :: s ++ [t]) 0). change (sat _ 5) with (sat (r ++ d :: zlen s :: s ++ [t]) 1).
  replace (5 + zlen r) with (4 + (zlen r + Z.of_nat 1)) by lia. replace (zlen r + 4) with (4 + (zlen r + Z.of_nat 0)) by lia. replace (zlen r + 6) with (4 + (zlen r + Z.of_nat 2)) by lia. replace (zlen r + 7) with (4 + (zlen r + Z.of_nat 3)) by lia.
  cbv zeta. rewrite !(sat_shape_s a b c r d s t _ _ eq_refl). change (sat (d :: _) 1) with (zlen s). change (sat (d :: _) 0) with d. change (sat (d :: _) 2) with (sat (s ++ [t]) 0). change (sat (d :: _) 3) with (sat (s ++ [t]) 1).
  rewrite !unless_iff, !negb_false_iff, !Z.eqb_eq, !Z.eqb_neq, !Z.leb_gt, !Z.ltb_ge.
  assert (Hn : forall l : bytes, l <> [] <-> 1 <= zlen l) by (intros [|x l]; [done|]; rewrite zlen_cons; pose proof (zlen_nonneg l); split; [lia|done]).
  pose proof (der_int_ok_checks r (d :: zlen s :: s ++ [t]) Hr) as Er. pose proof (der_int_ok_checks s [t] Hs) as Es. pose proof (zlen_nonneg r). pose proof (zlen_nonneg s).
  assert (Hint : forall l, der_int_ok l -> l <> []) by (by intros [|]). split.
  - intros (? & ? & -> & -> & ? & _ & -> & Hr0 & ? & ? & -> & Hs0 & ? & ? & _). split_and!; try done; [lia|by apply Er; [apply Hn; lia|..]|by apply Es; [apply Hn; lia|..]|lia].
  - intros (-> & -> & -> & -> & Hir & His & Hl). apply Hint in Hir as Hr0. apply Hint in His as Hs0. apply Er in Hir as []; [|done..]. apply Es in His as []; [|done..].
    apply Hn in Hr0. apply Hn in Hs0. split_and!; done || lia.
Qed.

(** A strict encoding is that of two integers in their shortest form, followed by a
    byte. *)
Lemma strict_encoding_iff sig : bytes_ok sig ->
  IsValidSignatureEncoding sig = true <-> exists r s t, sig = der_signature r s ++ [t] /\ der_int_ok r /\ der_int_ok s /\ zlen r + zlen s <= 66.
Proof.
  intros Hok. assert (Hsig : forall r s t, der_signature r s ++ [t] = der_shape 0x30 (zlen r + zlen s + 4) 0x02 r 0x02 s t).
  { intros r s t. unfold der_signature, der_shape. cbn [app]. by rewrite <-app_assoc. }
  split; [|intros (r & s & t & -> & Hr & Hs & Hl); rewrite Hsig in Hok |- *; by apply strict_shape].
  intros Hv. assert (exists a b c r d s t, sig = der_shape a b c r d s t) as (a & b & c & r & d & s & t & ->).
  { unfold IsValidSignatureEncoding in Hv. cbv zeta in Hv. rewrite !unless_iff, !negb_false_iff, !Z.eqb_eq, !Z.eqb_neq, !Z.leb_gt, !Z.ltb_ge in Hv. destruct Hv as (H9 & _ & _ & _ & HR & HS & _).
    destruct sig as [|a [|b [|c [|lenR rest]]]]; try (by cbn in H9). change (sat _ 3) with lenR in HR, HS. rewrite !zlen_cons in *.
    pose proof Hok as [_ [_ [_ [HlenR _]%Forall_cons]%Forall_cons]%Forall_cons]%Forall_cons. assert (exists r u, rest = r ++ u /\ zlen r = lenR) as (r & v & -> & Hr).
    { exists (take (Z.to_nat lenR) rest), (drop (Z.to_nat lenR) rest). rewrite take_drop. unfold zlen in *. rewrite length_take. destruct HlenR. split; [done|lia]. }
    destruct v as [|d [|lenS u]]; rewrite ?zlen_app, ?zlen_cons, ?Hr in HR, HS; change (zlen []) with 0 in *; [lia|lia|].
    assert (ES : sat (a :: b :: c :: lenR :: r ++ d :: lenS :: u) (Z.to_nat (5 + lenR)) = lenS).
    { apply (sat_skip ([a; b; c; lenR] ++ r) (d :: lenS :: u) _ 1). rewrite length_app. unfold zlen in Hr. cbn [length]. lia. }
    assert (HlenS : byte_ok lenS) by (by rewrite !app_comm_cons in Hok; apply bytes_ok_app in Hok as [_ [_ [? _]%Forall_cons]%Forall_cons]).
    rewrite ES in HS. destruct (@exists_last _ u) as (s & t & ->); [intros ->; change (zlen []) with 0 in HS; destruct HlenS; lia|]. rewrite zlen_app in HS. change (zlen [t]) with 1 in HS.
    assert (zlen s = lenS) as <- by lia. subst lenR. by exists a, b, c, r, d, s, t. }
  apply strict_shape in Hv as (-> & -> & -> & -> & Hr & Hs & Hl); [|done]. exists r, s, t. by rewrite Hsig.
Qed.

(** ** An instance

    With the toy keys: [R] is the key and [S] the digest. *)
Definition toy_ecdsa : Secp256k1Ecdsa toy_secp256k1 := {|
  secp_sig := bytes;
  signature_parse_compact b := Some b;
  signature_normalize sig := (false, sig);
  ecdsa_verify sig hash P := bytes_eqb sig (tail (ec_pubkey_serialize P true) ++ hash);
|}.
Definition toy_der_int (b : bytes) : bytes :=
  match (skip_zeros (length b) b).2 with [] => [0] | x :: v => if 128 <=? x then 0 :: x :: v else x :: v end.
Definition toy_signature (key hash : bytes) (nHashType : Z) : bytes := der_signature (toy_der_int key) (toy_der_int hash) ++ [nHashType].
