(* ===== verification/Interp.v ===== *)
(** * The script interpreter

    [EvalScript] of src/src/script/interpreter.cpp with every opcode, and
    [CScript::FindAndDelete] of src/src/script/script.h. The stack is a list with
    its top first; an exception inside [EvalScript] is the error
    [SCRIPT_ERR_UNKNOWN_ERROR], as its [catch (...)] has it. *)

From S2P Require Import Prelude Sha256 Ripemd160 Script Key Sha1 Ecdsa.

Local Open Scope Z_scope.

(** ** Errors and flags *)

Inductive ScriptError :=
| SCRIPT_ERR_UNKNOWN_ERROR | SCRIPT_ERR_EVAL_FALSE | SCRIPT_ERR_OP_RETURN
| SCRIPT_ERR_SCRIPT_SIZE | SCRIPT_ERR_PUSH_SIZE | SCRIPT_ERR_OP_COUNT | SCRIPT_ERR_STACK_SIZE | SCRIPT_ERR_SIG_COUNT | SCRIPT_ERR_PUBKEY_COUNT
| SCRIPT_ERR_VERIFY | SCRIPT_ERR_EQUALVERIFY | SCRIPT_ERR_CHECKMULTISIGVERIFY | SCRIPT_ERR_CHECKSIGVERIFY | SCRIPT_ERR_NUMEQUALVERIFY
| SCRIPT_ERR_BAD_OPCODE | SCRIPT_ERR_DISABLED_OPCODE | SCRIPT_ERR_INVALID_STACK_OPERATION | SCRIPT_ERR_INVALID_ALTSTACK_OPERATION | SCRIPT_ERR_UNBALANCED_CONDITIONAL
| SCRIPT_ERR_NEGATIVE_LOCKTIME | SCRIPT_ERR_UNSATISFIED_LOCKTIME
| SCRIPT_ERR_SIG_HASHTYPE | SCRIPT_ERR_SIG_DER | SCRIPT_ERR_MINIMALDATA | SCRIPT_ERR_SIG_PUSHONLY | SCRIPT_ERR_SIG_HIGH_S | SCRIPT_ERR_SIG_NULLDUMMY
| SCRIPT_ERR_PUBKEYTYPE | SCRIPT_ERR_CLEANSTACK | SCRIPT_ERR_MINIMALIF | SCRIPT_ERR_SIG_NULLFAIL
| SCRIPT_ERR_DISCOURAGE_UPGRADABLE_NOPS | SCRIPT_ERR_DISCOURAGE_UPGRADABLE_WITNESS_PROGRAM
| SCRIPT_ERR_WITNESS_PROGRAM_WRONG_LENGTH | SCRIPT_ERR_WITNESS_PROGRAM_WITNESS_EMPTY | SCRIPT_ERR_WITNESS_PROGRAM_MISMATCH
| SCRIPT_ERR_WITNESS_MALLEATED | SCRIPT_ERR_WITNESS_MALLEATED_P2SH | SCRIPT_ERR_WITNESS_UNEXPECTED | SCRIPT_ERR_WITNESS_PUBKEYTYPE.

Definition ScriptErrorString (serror : ScriptError) : string :=
  match serror with
  | SCRIPT_ERR_EVAL_FALSE => "Script evaluated without error but finished with a false/empty top stack element"
  | SCRIPT_ERR_VERIFY => "Script failed an OP_VERIFY operation"
  | SCRIPT_ERR_EQUALVERIFY => "Script failed an OP_EQUALVERIFY operation"
  | SCRIPT_ERR_CHECKMULTISIGVERIFY => "Script failed an OP_CHECKMULTISIGVERIFY operation"
  | SCRIPT_ERR_CHECKSIGVERIFY => "Script failed an OP_CHECKSIGVERIFY operation"
  | SCRIPT_ERR_NUMEQUALVERIFY => "Script failed an OP_NUMEQUALVERIFY operation"
  | SCRIPT_ERR_SCRIPT_SIZE => "Script is too big"
  | SCRIPT_ERR_PUSH_SIZE => "Push value size limit exceeded"
  | SCRIPT_ERR_OP_COUNT => "Operation limit exceeded"
  | SCRIPT_ERR_STACK_SIZE => "Stack size limit exceeded"
  | SCRIPT_ERR_SIG_COUNT => "Signature count negative or greater than pubkey count"
  | SCRIPT_ERR_PUBKEY_COUNT => "Pubkey count negative or limit exceeded"
  | SCRIPT_ERR_BAD_OPCODE => "Opcode missing or not understood"
  | SCRIPT_ERR_DISABLED_OPCODE => "Attempted to use a disabled opcode"
  | SCRIPT_ERR_INVALID_STACK_OPERATION => "Operation not valid with the current stack size"
  | SCRIPT_ERR_INVALID_ALTSTACK_OPERATION => "Operation not valid with the current altstack size"
  | SCRIPT_ERR_OP_RETURN => "OP_RETURN was encountered"
  | SCRIPT_ERR_UNBALANCED_CONDITIONAL => "Invalid OP_IF construction"
  | SCRIPT_ERR_NEGATIVE_LOCKTIME => "Negative locktime"
  | SCRIPT_ERR_UNSATISFIED_LOCKTIME => "Locktime requirement not satisfied"
  | SCRIPT_ERR_SIG_HASHTYPE => "Signature hash type missing or not understood"
  | SCRIPT_ERR_SIG_DER => "Non-canonical DER signature"
  | SCRIPT_ERR_MINIMALDATA => "Data push larger than necessary"
  | SCRIPT_ERR_SIG_PUSHONLY => "Only non-push operators allowed in signatures"
  | SCRIPT_ERR_SIG_HIGH_S => "Non-canonical signature: S value is unnecessarily high"
  | SCRIPT_ERR_SIG_NULLDUMMY => "Dummy CHECKMULTISIG argument must be zero"
  | SCRIPT_ERR_MINIMALIF => "OP_IF/NOTIF argument must be minimal"
  | SCRIPT_ERR_SIG_NULLFAIL => "Signature must be zero for failed CHECK(MULTI)SIG operation"
  | SCRIPT_ERR_DISCOURAGE_UPGRADABLE_NOPS => "NOPx reserved for soft-fork upgrades"
  | SCRIPT_ERR_DISCOURAGE_UPGRADABLE_WITNESS_PROGRAM => "Witness version reserved for soft-fork upgrades"
  | SCRIPT_ERR_PUBKEYTYPE => "Public key is neither compressed or uncompressed"
  | SCRIPT_ERR_CLEANSTACK => "Extra items left on stack after execution"
  | SCRIPT_ERR_WITNESS_PROGRAM_WRONG_LENGTH => "Witness program has incorrect length"
  | SCRIPT_ERR_WITNESS_PROGRAM_WITNESS_EMPTY => "Witness program was passed an empty witness"
  | SCRIPT_ERR_WITNESS_PROGRAM_MISMATCH => "Witness program hash mismatch"
  | SCRIPT_ERR_WITNESS_MALLEATED => "Witness requires empty scriptSig"
  | SCRIPT_ERR_WITNESS_MALLEATED_P2SH => "Witness requires only-redeemscript scriptSig"
  | SCRIPT_ERR_WITNESS_UNEXPECTED => "Witness provided for non-witness script"
  | SCRIPT_ERR_WITNESS_PUBKEYTYPE => "Using non-compressed keys in segwit"
  | SCRIPT_ERR_UNKNOWN_ERROR => "unknown error"
  end%string.

Definition SCRIPT_VERIFY_NONE : Z := 0.
Definition SCRIPT_VERIFY_P2SH : Z := Z.shiftl 1 0.
Definition SCRIPT_VERIFY_STRICTENC : Z := Z.shiftl 1 1.
Definition SCRIPT_VERIFY_DERSIG : Z := Z.shiftl 1 2.
Definition SCRIPT_VERIFY_LOW_S : Z := Z.shiftl 1 3.
Definition SCRIPT_VERIFY_NULLDUMMY : Z := Z.shiftl 1 4.
Definition SCRIPT_VERIFY_SIGPUSHONLY : Z := Z.shiftl 1 5.
Definition SCRIPT_VERIFY_MINIMALDATA : Z := Z.shiftl 1 6.
Definition SCRIPT_VERIFY_DISCOURAGE_UPGRADABLE_NOPS : Z := Z.shiftl 1 7.
Definition SCRIPT_VERIFY_CLEANSTACK : Z := Z.shiftl 1 8.
Definition SCRIPT_VERIFY_CHECKLOCKTIMEVERIFY : Z := Z.shiftl 1 9.
Definition SCRIPT_VERIFY_CHECKSEQUENCEVERIFY : Z := Z.shiftl 1 10.
Definition SCRIPT_VERIFY_WITNESS : Z := Z.shiftl 1 11.
Definition SCRIPT_VERIFY_DISCOURAGE_UPGRADABLE_WITNESS_PROGRAM : Z := Z.shiftl 1 12.
Definition SCRIPT_VERIFY_MINIMALIF : Z := Z.shiftl 1 13.
Definition SCRIPT_VERIFY_NULLFAIL : Z := Z.shiftl 1 14.
Definition SCRIPT_VERIFY_WITNESS_PUBKEYTYPE : Z := Z.shiftl 1 15.

(** [(flags & flag) != 0] *)
Definition has (flags flag : Z) : bool := negb (Z.land flags flag =? 0).

(** ** The other opcodes *)
Definition OP_NOP : Z := 0x61.
Definition OP_IF : Z := 0x63.
Definition OP_NOTIF : Z := 0x64.
Definition OP_ELSE : Z := 0x67.
Definition OP_ENDIF : Z := 0x68.
Definition OP_VERIFY : Z := 0x69.
Definition OP_TOALTSTACK : Z := 0x6b.
Definition OP_FROMALTSTACK : Z := 0x6c.
Definition OP_2DROP : Z := 0x6d.
Definition OP_2DUP : Z := 0x6e.
Definition OP_3DUP : Z := 0x6f.
Definition OP_2OVER : Z := 0x70.
Definition OP_2ROT : Z := 0x71.
Definition OP_2SWAP : Z := 0x72.
Definition OP_IFDUP : Z := 0x73.
Definition OP_DEPTH : Z := 0x74.
Definition OP_NIP : Z := 0x77.
Definition OP_OVER : Z := 0x78.
Definition OP_PICK : Z := 0x79.
Definition OP_ROLL : Z := 0x7a.
Definition OP_ROT : Z := 0x7b.
Definition OP_SWAP : Z := 0x7c.
Definition OP_TUCK : Z := 0x7d.
Definition OP_CAT : Z := 0x7e.
Definition OP_SUBSTR : Z := 0x7f.
Definition OP_LEFT : Z := 0x80.
Definition OP_RIGHT : Z := 0x81.
Definition OP_SIZE : Z := 0x82.
Definition OP_INVERT : Z := 0x83.
Definition OP_AND : Z := 0x84.
Definition OP_OR : Z := 0x85.
Definition OP_XOR : Z := 0x86.
Definition OP_1ADD : Z := 0x8b.
Definition OP_1SUB : Z := 0x8c.
Definition OP_2MUL : Z := 0x8d.
Definition OP_2DIV : Z := 0x8e.
Definition OP_NEGATE : Z := 0x8f.
Definition OP_ABS : Z := 0x90.
Definition OP_NOT : Z := 0x91.
Definition OP_0NOTEQUAL : Z := 0x92.
Definition OP_ADD : Z := 0x93.
Definition OP_SUB : Z := 0x94.
Definition OP_MUL : Z := 0x95.
Definition OP_DIV : Z := 0x96.
Definition OP_MOD : Z := 0x97.
Definition OP_LSHIFT : Z := 0x98.
Definition OP_RSHIFT : Z := 0x99.
Definition OP_BOOLAND : Z := 0x9a.
Definition OP_BOOLOR : Z := 0x9b.
Definition OP_NUMEQUAL : Z := 0x9c.
Definition OP_NUMEQUALVERIFY : Z := 0x9d.
Definition OP_NUMNOTEQUAL : Z := 0x9e.
Definition OP_LESSTHAN : Z := 0x9f.
Definition OP_GREATERTHAN : Z := 0xa0.
Definition OP_LESSTHANOREQUAL : Z := 0xa1.
Definition OP_GREATERTHANOREQUAL : Z := 0xa2.
Definition OP_MIN : Z := 0xa3.
Definition OP_MAX : Z := 0xa4.
Definition OP_WITHIN : Z := 0xa5.
Definition OP_RIPEMD160 : Z := 0xa6.
Definition OP_SHA1 : Z := 0xa7.
Definition OP_SHA256 : Z := 0xa8.
Definition OP_HASH256 : Z := 0xaa.
Definition OP_CODESEPARATOR : Z := 0xab.
Definition OP_NOP1 : Z := 0xb0.
Definition OP_CHECKLOCKTIMEVERIFY : Z := 0xb1.
Definition OP_CHECKSEQUENCEVERIFY : Z := 0xb2.
Definition OP_NOP4 : Z := 0xb3.
Definition MAX_OPS_PER_SCRIPT : Z := 201.
Definition MAX_STACK_SIZE : Z := 1000.

(** ** Values *)

Inductive SigVersion := SIGVERSION_BASE | SIGVERSION_WITNESS_V0.
#[export] Instance SigVersion_eq_dec : EqDecision SigVersion.
Proof. solve_decision. Defined.

(** What the interpreter asks of a [BaseSignatureChecker]. *)
Record SignatureChecker := mkChecker {
  CheckSig : bytes -> bytes -> CScript -> SigVersion -> bool;
  CheckLockTime : Z -> bool;
  CheckSequence : Z -> bool }.

(** Any byte but a final 0x80, the negative zero. *)
Fixpoint CastToBool (vch : bytes) : bool :=
  match vch with
  | [] => false
  | b :: rest => if b =? 0 then CastToBool rest else match rest with [] => negb (b =? 0x80) | _ => true end
  end.
Definition vchFalse : bytes := [].
Definition vchTrue : bytes := [1].
Definition of_bool (b : bool) : bytes := if b then vchTrue else vchFalse.

Definition CheckMinimalPush (data : bytes) (opcode : Z) : bool :=
  let b0 := sat data 0 in
  if zlen data =? 0 then opcode =? OP_0
  else if (zlen data =? 1) && (1 <=? b0) && (b0 <=? 16) then opcode =? OP_1 + (b0 - 1)
  else if (zlen data =? 1) && (b0 =? 0x81) then opcode =? OP_1NEGATE
  else if zlen data <=? 75 then opcode =? zlen data
  else if zlen data <=? 255 then opcode =? OP_PUSHDATA1
  else if zlen data <=? 65535 then opcode =? OP_PUSHDATA2
  else true.

(** ** FindAndDelete *)

(** The inner loop drops every [b] at the front; [fuel] is the length. *)
Fixpoint skip_copies (fuel : nat) (b pc : bytes) : bytes :=
  match fuel with
  | O => pc
  | S fuel => if (length b <=? length pc)%nat && bytes_eqb b (take (length b) pc) then skip_copies fuel b (drop (length b) pc) else pc
  end.
(** The outer loop copies what an opcode occupies and goes on after it. *)
Fixpoint delete_copies (fuel : nat) (b pc : bytes) : bytes :=
  let pc := skip_copies (length pc) b pc in
  match fuel, GetOp2 pc with
  | S fuel, Some r => take (length pc - length (op_rest r)) pc ++ delete_copies fuel b (op_rest r)
  | _, _ => pc
  end.
Definition FindAndDelete (script b : CScript) : CScript :=
  if (length b =? 0)%nat then script else delete_copies (length script) b script.

(** ** The state of EvalScript *)

(** The stacks with their tops first, the conditions with the innermost first, the
    script from [pbegincodehash] on and [nOpCount]. *)
Record eval_state := mkEval {
  ev_stack : list bytes; ev_alt : list bytes; ev_exec : list bool; ev_code : CScript; ev_ops : Z }.
Abbreviation outcome := (result eval_state ScriptError).
Definition with_stack (st : eval_state) (s : list bytes) : eval_state := mkEval s (ev_alt st) (ev_exec st) (ev_code st) (ev_ops st).
Definition invalid_stack : outcome := Err SCRIPT_ERR_INVALID_STACK_OPERATION.

Section Interp.
Context `{secp : Secp256k1} {ec : Secp256k1Ecdsa secp}.
Variable flags : Z.
Variable checker : SignatureChecker.
Variable sigversion : SigVersion.
Abbreviation fRequireMinimal := (has flags SCRIPT_VERIFY_MINIMALDATA).

(** A [CScriptNum] of a stack element; the exception is caught at the end. *)
Definition number (size : Z) (vch : bytes) (k : Z -> outcome) : outcome :=
  match CScriptNum_of vch fRequireMinimal size with NumOk v => k v | _ => Err SCRIPT_ERR_UNKNOWN_ERROR end.

(** [None] is success. *)
Definition CheckSignatureEncoding (vchSig : bytes) : option ScriptError :=
  if zlen vchSig =? 0 then None
  else if has flags (Z.lor (Z.lor SCRIPT_VERIFY_DERSIG SCRIPT_VERIFY_LOW_S) SCRIPT_VERIFY_STRICTENC) && negb (IsValidSignatureEncoding vchSig) then Some SCRIPT_ERR_SIG_DER
  else if has flags SCRIPT_VERIFY_LOW_S && negb (IsValidSignatureEncoding vchSig) then Some SCRIPT_ERR_SIG_DER
  else if has flags SCRIPT_VERIFY_LOW_S && negb (CheckLowS (removelast vchSig)) then Some SCRIPT_ERR_SIG_HIGH_S
  else if has flags SCRIPT_VERIFY_STRICTENC && negb (IsDefinedHashtypeSignature vchSig) then Some SCRIPT_ERR_SIG_HASHTYPE
  else None.
Definition CheckPubKeyEncoding (vchPubKey : bytes) : option ScriptError :=
  if has flags SCRIPT_VERIFY_STRICTENC && negb (IsCompressedOrUncompressedPubKey vchPubKey) then Some SCRIPT_ERR_PUBKEYTYPE
  else if has flags SCRIPT_VERIFY_WITNESS_PUBKEYTYPE && bool_decide (sigversion = SIGVERSION_WITNESS_V0) && negb (IsCompressedPubKey vchPubKey)
  then Some SCRIPT_ERR_WITNESS_PUBKEYTYPE
  else None.
Definition check_encodings (vchSig vchPubKey : bytes) : option ScriptError :=
  match CheckSignatureEncoding vchSig with Some e => Some e | None => CheckPubKeyEncoding vchPubKey end.

(** ** Control *)

Definition upgradable_nop (st : eval_state) : outcome :=
  if has flags SCRIPT_VERIFY_DISCOURAGE_UPGRADABLE_NOPS then Err SCRIPT_ERR_DISCOURAGE_UPGRADABLE_NOPS else Ok st.

Definition op_locktime (st : eval_state) : outcome :=
  if negb (has flags SCRIPT_VERIFY_CHECKLOCKTIMEVERIFY) then upgradable_nop st else
  match ev_stack st with
  | [] => invalid_stack
  | top :: _ => number 5 top (fun nLockTime =>
      if nLockTime <? 0 then Err SCRIPT_ERR_NEGATIVE_LOCKTIME
      else if negb (CheckLockTime checker nLockTime) then Err SCRIPT_ERR_UNSATISFIED_LOCKTIME else Ok st)
  end.
Definition op_sequence (st : eval_state) : outcome :=
  if negb (has flags SCRIPT_VERIFY_CHECKSEQUENCEVERIFY) then upgradable_nop st else
  match ev_stack st with
  | [] => invalid_stack
  | top :: _ => number 5 top (fun nSequence =>
      if nSequence <? 0 then Err SCRIPT_ERR_NEGATIVE_LOCKTIME
      else if negb (Z.land nSequence (2 ^ 31) =? 0) then Ok st
      else if negb (CheckSequence checker nSequence) then Err SCRIPT_ERR_UNSATISFIED_LOCKTIME else Ok st)
  end.
Definition op_if (fExec notif : bool) (st : eval_state) : outcome :=
  let enter s fValue := Ok (mkEval s (ev_alt st) (fValue :: ev_exec st) (ev_code st) (ev_ops st)) in
  if negb fExec then enter (ev_stack st) false else
  match ev_stack st with
  | [] => Err SCRIPT_ERR_UNBALANCED_CONDITIONAL
  | vch :: s =>
      if bool_decide (sigversion = SIGVERSION_WITNESS_V0) && has flags SCRIPT_VERIFY_MINIMALIF &&
         ((1 <? zlen vch) || ((zlen vch =? 1) && negb (sat vch 0 =? 1)))
      then Err SCRIPT_ERR_MINIMALIF
      else enter s (if notif then negb (CastToBool vch) else CastToBool vch)
  end.
(** [None]: the opcode is none of these. *)
Definition control_op (fExec : bool) (opcode : Z) (st : eval_state) : option outcome :=
  if (opcode =? OP_1NEGATE) || ((OP_1 <=? opcode) && (opcode <=? OP_16)) then
    Some (Ok (with_stack st (CScriptNum_serialize (opcode - (OP_1 - 1)) :: ev_stack st)))
  else if opcode =? OP_NOP then Some (Ok st)
  else if opcode =? OP_CHECKLOCKTIMEVERIFY then Some (op_locktime st)
  else if opcode =? OP_CHECKSEQUENCEVERIFY then Some (op_sequence st)
  else if (opcode =? OP_NOP1) || ((OP_NOP4 <=? opcode) && (opcode <=? OP_NOP10)) then Some (upgradable_nop st)
  else if opcode =? OP_IF then Some (op_if fExec false st)
  else if opcode =? OP_NOTIF then Some (op_if fExec true st)
  else if opcode =? OP_ELSE then
    Some (match ev_exec st with
          | [] => Err SCRIPT_ERR_UNBALANCED_CONDITIONAL
          | b :: l => Ok (mkEval (ev_stack st) (ev_alt st) (negb b :: l) (ev_code st) (ev_ops st)) end)
  else if opcode =? OP_ENDIF then
    Some (match ev_exec st with
          | [] => Err SCRIPT_ERR_UNBALANCED_CONDITIONAL
          | _ :: l => Ok (mkEval (ev_stack st) (ev_alt st) l (ev_code st) (ev_ops st)) end)
  else if opcode =? OP_VERIFY then
    Some (match ev_stack st with
          | [] => invalid_stack
          | vch :: s => if CastToBool vch then Ok (with_stack st s) else Err SCRIPT_ERR_VERIFY end)
  else if opcode =? OP_RETURN then Some (Err SCRIPT_ERR_OP_RETURN)
  else None.

(** ** Stack operations *)

Definition op_pick (roll : bool) (st : eval_state) : outcome :=
  match ev_stack st with
  | top :: s =>
      if (length s =? 0)%nat then invalid_stack else
      number 4 top (fun v =>
        let n := getint v in
        if (n <? 0) || (zlen s <=? n) then invalid_stack else
        let vch := nth (Z.to_nat n) s [] in
        Ok (with_stack st (vch :: (if roll then delete (Z.to_nat n) s else s))))
  | [] => invalid_stack
  end.
Definition stack_op (opcode : Z) (st : eval_state) : option outcome :=
  let ok s := Ok (with_stack st s) in
  if opcode =? OP_TOALTSTACK then
    Some (match ev_stack st with
          | x :: s => Ok (mkEval s (x :: ev_alt st) (ev_exec st) (ev_code st) (ev_ops st)) | [] => invalid_stack end)
  else if opcode =? OP_FROMALTSTACK then
    Some (match ev_alt st with
          | x :: a => Ok (mkEval (x :: ev_stack st) a (ev_exec st) (ev_code st) (ev_ops st)) | [] => Err SCRIPT_ERR_INVALID_ALTSTACK_OPERATION end)
  else if opcode =? OP_2DROP then Some (match ev_stack st with _ :: _ :: s => ok s | _ => invalid_stack end)
  else if opcode =? OP_2DUP then Some (match ev_stack st with x2 :: x1 :: s => ok (x2 :: x1 :: x2 :: x1 :: s) | _ => invalid_stack end)
  else if opcode =? OP_3DUP then Some (match ev_stack st with x3 :: x2 :: x1 :: s => ok (x3 :: x2 :: x1 :: x3 :: x2 :: x1 :: s) | _ => invalid_stack end)
  else if opcode =? OP_2OVER then
    Some (match ev_stack st with x4 :: x3 :: x2 :: x1 :: s => ok (x2 :: x1 :: x4 :: x3 :: x2 :: x1 :: s) | _ => invalid_stack end)
  else if opcode =? OP_2ROT then
    Some (match ev_stack st with x6 :: x5 :: x4 :: x3 :: x2 :: x1 :: s => ok (x2 :: x1 :: x6 :: x5 :: x4 :: x3 :: s) | _ => invalid_stack end)
  else if opcode =? OP_2SWAP then
    Some (match ev_stack st with x4 :: x3 :: x2 :: x1 :: s => ok (x2 :: x1 :: x4 :: x3 :: s) | _ => invalid_stack end)
  else if opcode =? OP_IFDUP then Some (match ev_stack st with x :: s => ok (if CastToBool x then x :: x :: s else x :: s) | _ => invalid_stack end)
  else if opcode =? OP_DEPTH then Some (ok (CScriptNum_serialize (zlen (ev_stack st)) :: ev_stack st))
  else if opcode =? OP_DROP then Some (match ev_stack st with _ :: s => ok s | _ => invalid_stack end)
  else if opcode =? OP_DUP then Some (match ev_stack st with x :: s => ok (x :: x :: s) | _ => invalid_stack end)
  else if opcode =? OP_NIP then Some (match ev_stack st with x2 :: _ :: s => ok (x2 :: s) | _ => invalid_stack end)
  else if opcode =? OP_OVER then Some (match ev_stack st with x2 :: x1 :: s => ok (x1 :: x2 :: x1 :: s) | _ => invalid_stack end)
  else if opcode =? OP_PICK then Some (op_pick false st)
  else if opcode =? OP_ROLL then Some (op_pick true st)
  else if opcode =? OP_ROT then Some (match ev_stack st with x3 :: x2 :: x1 :: s => ok (x1 :: x3 :: x2 :: s) | _ => invalid_stack end)
  else if opcode =? OP_SWAP then Some (match ev_stack st with x2 :: x1 :: s => ok (x1 :: x2 :: s) | _ => invalid_stack end)
  else if opcode =? OP_TUCK then Some (match ev_stack st with x2 :: x1 :: s => ok (x2 :: x1 :: x2 :: s) | _ => invalid_stack end)
  else if opcode =? OP_SIZE then Some (match ev_stack st with x :: s => ok (CScriptNum_serialize (zlen x) :: x :: s) | _ => invalid_stack end)
  else if opcode =? OP_EQUAL then Some (match ev_stack st with x2 :: x1 :: s => ok (of_bool (bytes_eqb x1 x2) :: s) | _ => invalid_stack end)
  else if opcode =? OP_EQUALVERIFY then
    Some (match ev_stack st with x2 :: x1 :: s => if bytes_eqb x1 x2 then ok s else Err SCRIPT_ERR_EQUALVERIFY | _ => invalid_stack end)
  else None.

(** ** Numbers *)

Definition b2z (b : bool) : Z := if b then 1 else 0.
Definition numeric1 (opcode bn : Z) : Z :=
  if opcode =? OP_1ADD then bn + 1 else if opcode =? OP_1SUB then bn - 1 else if opcode =? OP_NEGATE then - bn
  else if opcode =? OP_ABS then (if bn <? 0 then - bn else bn) else if opcode =? OP_NOT then b2z (bn =? 0) else b2z (negb (bn =? 0)).
Definition numeric2 (opcode bn1 bn2 : Z) : Z :=
  if opcode =? OP_ADD then bn1 + bn2 else if opcode =? OP_SUB then bn1 - bn2
  else if opcode =? OP_BOOLAND then b2z (negb (bn1 =? 0) && negb (bn2 =? 0)) else if opcode =? OP_BOOLOR then b2z (negb (bn1 =? 0) || negb (bn2 =? 0))
  else if (opcode =? OP_NUMEQUAL) || (opcode =? OP_NUMEQUALVERIFY) then b2z (bn1 =? bn2) else if opcode =? OP_NUMNOTEQUAL then b2z (negb (bn1 =? bn2))
  else if opcode =? OP_LESSTHAN then b2z (bn1 <? bn2) else if opcode =? OP_GREATERTHAN then b2z (bn2 <? bn1)
  else if opcode =? OP_LESSTHANOREQUAL then b2z (bn1 <=? bn2) else if opcode =? OP_GREATERTHANOREQUAL then b2z (bn2 <=? bn1)
  else if opcode =? OP_MIN then (if bn1 <? bn2 then bn1 else bn2) else (if bn2 <? bn1 then bn1 else bn2).
Definition numeric_op (opcode : Z) (st : eval_state) : option outcome :=
  let ok s := Ok (with_stack st s) in
  if ((OP_1ADD <=? opcode) && (opcode <=? OP_1SUB)) || ((OP_NEGATE <=? opcode) && (opcode <=? OP_0NOTEQUAL)) then
    Some (match ev_stack st with
          | x :: s => number 4 x (fun bn => ok (CScriptNum_serialize (numeric1 opcode bn) :: s))
          | _ => invalid_stack end)
  else if ((OP_ADD <=? opcode) && (opcode <=? OP_SUB)) || ((OP_BOOLAND <=? opcode) && (opcode <=? OP_MAX)) then
    Some (match ev_stack st with
          | x2 :: x1 :: s => number 4 x1 (fun bn1 => number 4 x2 (fun bn2 =>
              let out := CScriptNum_serialize (numeric2 opcode bn1 bn2) in
              if opcode =? OP_NUMEQUALVERIFY then (if CastToBool out then ok s else Err SCRIPT_ERR_NUMEQUALVERIFY) else ok (out :: s)))
          | _ => invalid_stack end)
  else if opcode =? OP_WITHIN then
    Some (match ev_stack st with
          | x3 :: x2 :: x1 :: s => number 4 x1 (fun bn1 => number 4 x2 (fun bn2 => number 4 x3 (fun bn3 =>
              ok (of_bool ((bn2 <=? bn1) && (bn1 <? bn3)) :: s))))
          | _ => invalid_stack end)
  else None.

(** ** Hashes and signatures *)

Definition op_hash (opcode : Z) (vch : bytes) : bytes :=
  if opcode =? OP_RIPEMD160 then ripemd160.CRIPEMD160_Finalize (ripemd160.CRIPEMD160_Write ripemd160.CRIPEMD160 vch)
  else if opcode =? OP_SHA1 then sha1.CSHA1_Finalize (sha1.CSHA1_Write sha1.CSHA1 vch)
  else if opcode =? OP_SHA256 then sha256.SHA256 [vch]
  else if opcode =? OP_HASH160 then ripemd160.Hash160 vch
  else sha256.Hash [vch].

(** The signatures are dropped from the code that is signed, before segwit. *)
Definition signed_code (code : CScript) (sigs : list bytes) : CScript :=
  if bool_decide (sigversion = SIGVERSION_BASE) then fold_left (fun code sig => FindAndDelete code (push sig)) sigs code else code.

(** What [OP_...VERIFY] leaves instead of the result. *)
Definition verified (verify fSuccess : bool) (e : ScriptError) (st : eval_state) (s : list bytes) : outcome :=
  if verify then (if fSuccess then Ok (with_stack st s) else Err e) else Ok (with_stack st (of_bool fSuccess :: s)).

Definition op_checksig (verify : bool) (st : eval_state) : outcome :=
  match ev_stack st with
  | vchPubKey :: vchSig :: s =>
      match check_encodings vchSig vchPubKey with
      | Some e => Err e
      | None =>
          let fSuccess := CheckSig checker vchSig vchPubKey (signed_code (ev_code st) [vchSig]) sigversion in
          if negb fSuccess && has flags SCRIPT_VERIFY_NULLFAIL && negb (zlen vchSig =? 0) then Err SCRIPT_ERR_SIG_NULLFAIL
          else verified verify fSuccess SCRIPT_ERR_CHECKSIGVERIFY st s
      end
  | _ => invalid_stack
  end.

(** The loop over signatures and keys: whether all signatures found their key. *)
Fixpoint check_multisig (scriptCode : CScript) (sigs keys : list bytes) : result bool ScriptError :=
  match sigs, keys with
  | [], _ => Ok true
  | _ :: _, [] => Ok false
  | vchSig :: sigs', vchPubKey :: keys' =>
      match check_encodings vchSig vchPubKey with
      | Some e => Err e
      | None =>
          let sigs := if CheckSig checker vchSig vchPubKey scriptCode sigversion then sigs' else sigs in
          if (length keys' <? length sigs)%nat then Ok false else check_multisig scriptCode sigs keys'
      end
  end.
(** With the top of the stack first: the number of keys, the keys, the number of
    signatures, the signatures and one more element. *)
Definition op_checkmultisig (verify : bool) (st : eval_state) : outcome :=
  match ev_stack st with
  | [] => invalid_stack
  | top :: s => number 4 top (fun v =>
      let nKeysCount := getint v in
      if (nKeysCount <? 0) || (MAX_PUBKEYS_PER_MULTISIG <? nKeysCount) then Err SCRIPT_ERR_PUBKEY_COUNT else
      let nOpCount := ev_ops st + nKeysCount in
      if MAX_OPS_PER_SCRIPT <? nOpCount then Err SCRIPT_ERR_OP_COUNT else
      let st := mkEval (ev_stack st) (ev_alt st) (ev_exec st) (ev_code st) nOpCount in
      let keys := take (Z.to_nat nKeysCount) s in
      match drop (Z.to_nat nKeysCount) s with
      | [] => invalid_stack
      | count :: s => number 4 count (fun v =>
          let nSigsCount := getint v in
          if (nSigsCount <? 0) || (nKeysCount <? nSigsCount) then Err SCRIPT_ERR_SIG_COUNT else
          let sigs := take (Z.to_nat nSigsCount) s in
          match drop (Z.to_nat nSigsCount) s with
          | [] => invalid_stack
          | dummy :: s =>
              match check_multisig (signed_code (ev_code st) sigs) sigs keys with
              | Err e => Err e
              | Ok fSuccess =>
                  if negb fSuccess && has flags SCRIPT_VERIFY_NULLFAIL && existsb (fun sig => negb (zlen sig =? 0)) sigs then Err SCRIPT_ERR_SIG_NULLFAIL
                  else if has flags SCRIPT_VERIFY_NULLDUMMY && negb (zlen dummy =? 0) then Err SCRIPT_ERR_SIG_NULLDUMMY
                  else verified verify fSuccess SCRIPT_ERR_CHECKMULTISIGVERIFY st s
              end
          end)
      end)
  end.

Definition crypto_op (opcode : Z) (rest : bytes) (st : eval_state) : option outcome :=
  if (OP_RIPEMD160 <=? opcode) && (opcode <=? OP_HASH256) then
    Some (match ev_stack st with x :: s => Ok (with_stack st (op_hash opcode x :: s)) | _ => invalid_stack end)
  else if opcode =? OP_CODESEPARATOR then Some (Ok (mkEval (ev_stack st) (ev_alt st) (ev_exec st) rest (ev_ops st)))
  else if opcode =? OP_CHECKSIG then Some (op_checksig false st)
  else if opcode =? OP_CHECKSIGVERIFY then Some (op_checksig true st)
  else if opcode =? OP_CHECKMULTISIG then Some (op_checkmultisig false st)
  else if opcode =? OP_CHECKMULTISIGVERIFY then Some (op_checkmultisig true st)
  else if opcode =? OP_RVN_ASSET then Some (Ok st)
  else None.

(** ** The loop *)

Definition exec_op (fExec : bool) (opcode : Z) (rest : bytes) (st : eval_state) : outcome :=
  match control_op fExec opcode st with Some r => r | None =>
  match stack_op opcode st with Some r => r | None =>
  match numeric_op opcode st with Some r => r | None =>
  match crypto_op opcode rest st with Some r => r | None => Err SCRIPT_ERR_BAD_OPCODE
  end end end end.

Definition disabled_ops : list Z :=
  [OP_CAT; OP_SUBSTR; OP_LEFT; OP_RIGHT; OP_INVERT; OP_AND; OP_OR; OP_XOR; OP_2MUL; OP_2DIV; OP_MUL; OP_DIV; OP_MOD; OP_LSHIFT; OP_RSHIFT].

(** Size limits *)
Definition check_size (st : eval_state) : outcome :=
  if MAX_STACK_SIZE <? zlen (ev_stack st) + zlen (ev_alt st) then Err SCRIPT_ERR_STACK_SIZE else Ok st.
(** One turn of the loop: the instruction is read, counted and done. *)
Definition eval_step (r : op_result) (st : eval_state) : outcome :=
  let opcode := op_code r in
  let fExec := forallb (fun b => b) (ev_exec st) in
  if MAX_SCRIPT_ELEMENT_SIZE <? zlen (op_data r) then Err SCRIPT_ERR_PUSH_SIZE else
  let nOpCount := if OP_16 <? opcode then ev_ops st + 1 else ev_ops st in
  if (OP_16 <? opcode) && (MAX_OPS_PER_SCRIPT <? nOpCount) then Err SCRIPT_ERR_OP_COUNT else
  let st := mkEval (ev_stack st) (ev_alt st) (ev_exec st) (ev_code st) nOpCount in
  if existsb (Z.eqb opcode) disabled_ops then Err SCRIPT_ERR_DISABLED_OPCODE else
  let done :=
    if fExec && (0 <=? opcode) && (opcode <=? OP_PUSHDATA4) then
      if fRequireMinimal && negb (CheckMinimalPush (op_data r) opcode) then Err SCRIPT_ERR_MINIMALDATA
      else Ok (with_stack st (op_data r :: ev_stack st))
    else if fExec || ((OP_IF <=? opcode) && (opcode <=? OP_ENDIF)) then exec_op fExec opcode (op_rest r) st
    else Ok st in
  match done with Err e => Err e | Ok st => check_size st end.

(** [while (pc < pend)]; every turn reads a byte, so the length is fuel enough. *)
Fixpoint eval_loop (fuel : nat) (pc : bytes) (st : eval_state) : outcome :=
  match pc, fuel with
  | [], _ => Ok st
  | _, O => Ok st
  | _, S fuel =>
      match GetOp2 pc with
      | None => Err SCRIPT_ERR_BAD_OPCODE
      | Some r => match eval_step r st with Err e => Err e | Ok st => eval_loop fuel (op_rest r) st end
      end
  end.

(** The stack the script leaves, or the error. *)
Definition EvalScript (stack : list bytes) (script : CScript) : result (list bytes) ScriptError :=
  if MAX_SCRIPT_SIZE <? zlen script then Err SCRIPT_ERR_SCRIPT_SIZE else
  match eval_loop (length script) script (mkEval stack [] [] script 0) with
  | Err e => Err e
  | Ok st => match ev_exec st with [] => Ok (ev_stack st) | _ :: _ => Err SCRIPT_ERR_UNBALANCED_CONDITIONAL end
  end.

(** ** Stepping *)

Lemma eval_loop_fuel n m pc st : (length pc <= n)%nat -> (length pc <= m)%nat -> eval_loop n pc st = eval_loop m pc st.
Proof.
  revert m pc st. induction n as [|n IH]; intros m [|b pc] st Hn Hm; try (cbn in *; lia); [by destruct m..|].
  destruct m as [|m]; [cbn in Hm; lia|]. cbn [eval_loop]. destruct (GetOp2 (b :: pc)) as [r|] eqn:E; [|done]. apply GetOp2_rest in E.
  destruct (eval_step r st); [|done]. apply IH; lia.
Qed.
(** A turn: the instruction read is done, and the rest follows. *)
Lemma eval_loop_step pc r st : GetOp2 pc = Some r ->
  eval_loop (length pc) pc st = match eval_step r st with Err e => Err e | Ok st => eval_loop (length (op_rest r)) (op_rest r) st end.
Proof.
  intros E. pose proof (GetOp2_rest _ _ E). destruct pc as [|b pc]; [done|]. cbn [length eval_loop]. rewrite E. destruct (eval_step r st); [|done].
  apply eval_loop_fuel; cbn [length] in *; lia.
Qed.
End Interp.

(** ** Deleting what is not there *)

Lemma GetOp2_suffix pc r : GetOp2 pc = Some r -> exists pre, pc = pre ++ op_rest r.
Proof.
  destruct pc as [|op pc]; [done|]. assert (Ht : forall l n k x, take_data op n (drop k l) = Some x -> exists pre, op :: l = pre ++ op_rest x).
  { intros l n k x. unfold take_data. destruct (_ <? _); [done|]. intros [= <-]. cbn [op_rest]. exists (op :: take (k + Z.to_nat n) l). rewrite drop_drop. cbn [app]. by rewrite take_drop. }
  cbn [GetOp2]. intros H. case_ifs_in H; try (injection H as <-; cbn [op_rest]); try (by apply (Ht pc _ _ _ H)).
  - apply (Ht pc op 0%nat). by rewrite drop_0.
  - exists (op :: pc). by rewrite app_nil_r.
  - by exists [op].
Qed.
Lemma delete_keep n b pc r : skip_copies (length pc) b pc = pc -> GetOp2 pc = Some r -> delete_copies n b (op_rest r) = op_rest r -> delete_copies (S n) b pc = pc.
Proof.
  intros Hs Hr Hk. cbn [delete_copies]. rewrite Hs, Hr, Hk. destruct (GetOp2_suffix pc r Hr) as [pre E]. rewrite E at 1 2 3. rewrite length_app, take_app_length' by lia. done.
Qed.
Lemma skip_copies_none n b pc : bytes_eqb b (take (length b) pc) = false -> skip_copies n b pc = pc.
Proof. intros E. destruct n as [|n]; [done|]. cbn [skip_copies]. by rewrite E, andb_false_r. Qed.

(** A push begins with a push opcode, and with its own length when that is short. *)
Lemma push_head b : exists x t, push b = x :: t /\ x <= OP_PUSHDATA4 /\ (x < OP_PUSHDATA1 -> x = zlen b /\ t = b).
Proof.
  unfold push. pose proof (zlen_nonneg b). destruct (Z.ltb_spec (zlen b) OP_PUSHDATA1) as [Hb|Hb].
  { exists (zlen b), b. cbn [le_bytes app]. unfold OP_PUSHDATA1, OP_PUSHDATA4 in *. rewrite land_255, Z.mod_small by lia. split_and!; [done|lia|done]. }
  case_ifs; eexists _, _; (split; [done|]); unfold OP_PUSHDATA1, OP_PUSHDATA2, OP_PUSHDATA4; split; lia.
Qed.
Lemma no_copy_at n sig x pc : OP_PUSHDATA4 < x -> skip_copies n (push sig) (x :: pc) = x :: pc.
Proof.
  intros Hx. apply skip_copies_none. destruct (push_head sig) as (y & t & -> & Hy & _). apply not_true_iff_false. rewrite bytes_eqb_eq. cbn. intros [= ->]. lia.
Qed.

(** ** Pushes *)

Lemma GetOp2_code x pc r : GetOp2 (x :: pc) = Some r -> op_code r = x.
Proof. cbn [GetOp2]. unfold take_data. intros H. case_ifs_in H; by injection H as <-. Qed.
Lemma GetOp2_push_minimal b rest : 2 <= zlen b <= MAX_SCRIPT_ELEMENT_SIZE -> exists opcode,
  GetOp2 (push b ++ rest) = Some (OpResult opcode b rest) /\ 0 <= opcode <= OP_PUSHDATA4 /\ CheckMinimalPush b opcode = true.
Proof.
  unfold MAX_SCRIPT_ELEMENT_SIZE. intros Hb. destruct (GetOp2_push b rest) as (opcode & _ & E); [lia|]. exists opcode. split; [done|].
  assert (Hc : opcode = if zlen b <? OP_PUSHDATA1 then zlen b else if zlen b <=? 255 then OP_PUSHDATA1 else OP_PUSHDATA2).
  { unfold push in E. destruct (Z.ltb_spec (zlen b) OP_PUSHDATA1) as [H1|].
    - cbn [le_bytes app] in E. apply GetOp2_code in E. cbn [op_code] in E. rewrite land_255, Z.mod_small in E by (unfold OP_PUSHDATA1 in H1; lia). done.
    - destruct (Z.leb_spec (zlen b) 0xff); [by apply GetOp2_code in E|]. destruct (Z.leb_spec (zlen b) 0xffff); [by apply GetOp2_code in E|lia]. }
  unfold CheckMinimalPush. replace (zlen b =? 0) with false by (symmetry; apply Z.eqb_neq; lia). replace (zlen b =? 1) with false by (symmetry; apply Z.eqb_neq; lia). cbn [andb].
  unfold OP_PUSHDATA1, OP_PUSHDATA2, OP_PUSHDATA4 in *. destruct (Z.ltb_spec (zlen b) 76).
  - destruct (Z.leb_spec (zlen b) 75); [|lia]. subst opcode. split; [lia|by apply Z.eqb_eq].
  - destruct (Z.leb_spec (zlen b) 75); [lia|]. destruct (Z.leb_spec (zlen b) 255); subst opcode; [split; [lia|done]|]. destruct (Z.leb_spec (zlen b) 65535); [|lia]. split; [lia|done].
Qed.

Section Pushes.
Context `{secp : Secp256k1} {ec : Secp256k1Ecdsa secp}.

(** A short push puts its data on the stack. *)
Lemma eval_push flags checker ver b rest s code : 2 <= zlen b <= MAX_SCRIPT_ELEMENT_SIZE -> zlen s + 1 <= MAX_STACK_SIZE ->
  eval_loop flags checker ver (length (push b ++ rest)) (push b ++ rest) (mkEval s [] [] code 0) = eval_loop flags checker ver (length rest) rest (mkEval (b :: s) [] [] code 0).
Proof.
  intros Hb Hs. destruct (GetOp2_push_minimal b rest Hb) as (opcode & E & Hop & Hmin). rewrite (eval_loop_step _ _ _ _ _ _ E). cbn [op_rest]. unfold eval_step. cbn [op_code op_data ev_exec ev_ops ev_stack ev_alt ev_code forallb].
  destruct (Z.ltb_spec MAX_SCRIPT_ELEMENT_SIZE (zlen b)); [lia|]. unfold OP_PUSHDATA4 in Hop. assert ((OP_16 <? opcode) = false) as -> by (apply Z.ltb_ge; unfold OP_16; lia). cbn [andb].
  assert (existsb (Z.eqb opcode) disabled_ops = false) as ->.
  { apply not_true_iff_false. rewrite existsb_exists. intros (x & Hx & ->%Z.eqb_eq). assert (Hall : forallb (fun z => OP_PUSHDATA4 <? z) disabled_ops = true) by reflexivity.
    rewrite forallb_forall in Hall. specialize (Hall x Hx). apply Z.ltb_lt in Hall. unfold OP_PUSHDATA4 in Hall. lia. }
  assert ((0 <=? opcode) = true) as -> by (apply Z.leb_le; lia). assert ((opcode <=? OP_PUSHDATA4) = true) as -> by (apply Z.leb_le; unfold OP_PUSHDATA4; lia). rewrite Hmin. cbn [andb negb]. rewrite andb_false_r.
  unfold with_stack, check_size. cbn [ev_stack ev_alt ev_exec ev_code ev_ops]. rewrite zlen_cons. change (zlen []) with 0. destruct (Z.ltb_spec MAX_STACK_SIZE (1 + zlen s + 0)); [lia|done].
Qed.
Lemma IsPushOnly_push b rest : 2 <= zlen b <= MAX_SCRIPT_ELEMENT_SIZE -> IsPushOnly rest = true -> IsPushOnly (push b ++ rest) = true.
Proof.
  intros Hb Hr. destruct (GetOp2_push_minimal b rest Hb) as (opcode & E & Hop & _). pose proof (GetOp2_rest _ _ E) as Hlen. cbn [op_rest] in Hlen. unfold IsPushOnly.
  destruct (push b ++ rest) as [|x l] eqn:El; [done|]. cbn [length IsPushOnly_loop]. rewrite E. cbn [op_code op_rest length] in *. unfold OP_16, OP_PUSHDATA4 in *. destruct (Z.ltb_spec 96 opcode); [lia|].
  rewrite <-Hr. apply IsPushOnly_loop_fuel; lia.
Qed.
End Pushes.
