(* ===== verification/Sighash.v ===== *)
(** * What a signature signs

    [SignatureHash] with [CTransactionSignatureSerializer], and
    [TransactionSignatureChecker], of src/src/script/interpreter.cpp. The hashes
    that [PrecomputedTransactionData] keeps are those computed here. *)

From S2P Require Import Prelude Sha256 Serialize Script Tx Key Ecdsa Interp.

Local Open Scope Z_scope.

(** Where a [GetOp] that fails leaves its iterator. *)
Definition GetOp_stop (pc : bytes) : bytes :=
  match pc with
  | [] => []
  | opcode :: pc =>
      if opcode =? OP_PUSHDATA1 then (if zlen pc <? 1 then pc else drop 1 pc)
      else if opcode =? OP_PUSHDATA2 then (if zlen pc <? 2 then pc else drop 2 pc)
      else if opcode =? OP_PUSHDATA4 then (if zlen pc <? 4 then pc else drop 4 pc)
      else pc
  end.

(** The two loops of [SerializeScriptCode]: the separators are counted, and the
    bytes read between them written. *)
Fixpoint count_separators (fuel : nat) (pc : bytes) : Z :=
  match fuel, GetOp2 pc with
  | S fuel, Some r => b2z (op_code r =? OP_CODESEPARATOR) + count_separators fuel (op_rest r)
  | _, _ => 0
  end.
Fixpoint drop_separators (fuel : nat) (pc : bytes) : bytes :=
  match fuel, GetOp2 pc with
  | S fuel, Some r => (if op_code r =? OP_CODESEPARATOR then [] else take (length pc - length (op_rest r)) pc) ++ drop_separators fuel (op_rest r)
  | _, _ => take (length pc - length (GetOp_stop pc)) pc
  end.
Definition SerializeScriptCode (scriptCode : CScript) : bytes :=
  WriteCompactSize (zlen scriptCode - count_separators (length scriptCode) scriptCode) ++ drop_separators (length scriptCode) scriptCode.

Definition CTxIn_null : CTxIn := mkTxIn (mkOutPoint uint256_null 0xffffffff) [] SEQUENCE_FINAL [].

Section Serializer.
Variable txTo : CTransaction.
Variable scriptCode : CScript.
Variable nIn : nat.
Variable nHashType : Z.

Definition fAnyoneCanPay : bool := has nHashType SIGHASH_ANYONECANPAY.
Definition fHashSingle : bool := Z.land nHashType 0x1f =? SIGHASH_SINGLE.
Definition fHashNone : bool := Z.land nHashType 0x1f =? SIGHASH_NONE.

Definition SerializeInput (nInput : nat) : bytes :=
  let nInput := if fAnyoneCanPay then nIn else nInput in
  let i := nth nInput (vin txTo) CTxIn_null in
  enc c_outpoint (prevout i)
  ++ (if negb (nInput =? nIn)%nat then enc c_bytes [] else SerializeScriptCode scriptCode)
  ++ (if negb (nInput =? nIn)%nat && (fHashSingle || fHashNone) then enc (c_int 4) 0 else enc (c_uint 4) (nSequence i)).
Definition SerializeOutput (nOutput : nat) : bytes :=
  if fHashSingle && negb (nOutput =? nIn)%nat then enc c_txout CTxOut_null else enc c_txout (nth nOutput (vout txTo) CTxOut_null).

Definition SerializeForSignature : bytes :=
  let nInputs := if fAnyoneCanPay then 1%nat else length (vin txTo) in
  let nOutputs := if fHashNone then O else if fHashSingle then S nIn else length (vout txTo) in
  enc (c_int 4) (tx_nVersion txTo)
  ++ WriteCompactSize (Z.of_nat nInputs) ++ concat (map SerializeInput (seq 0 nInputs))
  ++ WriteCompactSize (Z.of_nat nOutputs) ++ concat (map SerializeOutput (seq 0 nOutputs))
  ++ enc (c_uint 4) (nLockTime txTo).
End Serializer.

Definition GetPrevoutHash (txTo : CTransaction) : bytes := sha256.Hash [concat (map (fun i => enc c_outpoint (prevout i)) (vin txTo))].
Definition GetSequenceHash (txTo : CTransaction) : bytes := sha256.Hash [concat (map (fun i => enc (c_uint 4) (nSequence i)) (vin txTo))].
Definition GetOutputsHash (txTo : CTransaction) : bytes := sha256.Hash [concat (map (enc c_txout) (vout txTo))].

Definition uint256_one : bytes := 1 :: repeat 0 31.

(** Of an input of the transaction: its callers pass one, as the assertion wants. *)
Definition SignatureHash (scriptCode : CScript) (txTo : CTransaction) (nIn : nat) (nHashType amount : Z) (sigversion : SigVersion) : bytes :=
  match sigversion with
  | SIGVERSION_WITNESS_V0 =>
      let single_none := fHashSingle nHashType || fHashNone nHashType in
      let hashPrevouts := if fAnyoneCanPay nHashType then uint256_null else GetPrevoutHash txTo in
      let hashSequence := if fAnyoneCanPay nHashType || single_none then uint256_null else GetSequenceHash txTo in
      let hashOutputs :=
        if negb single_none then GetOutputsHash txTo
        else if fHashSingle nHashType && (nIn <? length (vout txTo))%nat then sha256.Hash [enc c_txout (nth nIn (vout txTo) CTxOut_null)]
        else uint256_null in
      let i := nth nIn (vin txTo) CTxIn_null in
      sha256.Hash [enc (c_int 4) (tx_nVersion txTo) ++ hashPrevouts ++ hashSequence ++ enc c_outpoint (prevout i) ++ enc c_bytes scriptCode
        ++ enc (c_int 8) amount ++ enc (c_uint 4) (nSequence i) ++ hashOutputs ++ enc (c_uint 4) (nLockTime txTo) ++ enc (c_int 4) nHashType]
  | SIGVERSION_BASE =>
      if fHashSingle nHashType && (length (vout txTo) <=? nIn)%nat then uint256_one
      else sha256.Hash [SerializeForSignature txTo scriptCode nIn nHashType ++ enc (c_int 4) nHashType]
  end.

(** ** The checker of an input *)

Section Checker.
Context `{secp : Secp256k1} {ec : Secp256k1Ecdsa secp}.
Variable txTo : CTransaction.
Variable nIn : nat.
Variable amount : Z.

Definition tx_CheckSig (vchSigIn vchPubKey : bytes) (scriptCode : CScript) (sigversion : SigVersion) : bool :=
  let pubkey := CPubKey_Set vchPubKey in
  if negb (CPubKey_IsValid pubkey) then false
  else if zlen vchSigIn =? 0 then false
  else CPubKey_Verify pubkey (SignatureHash scriptCode txTo nIn (List.last vchSigIn 0) amount sigversion) (removelast vchSigIn).

Definition tx_CheckLockTime (lock : Z) : bool :=
  if negb (((nLockTime txTo <? LOCKTIME_THRESHOLD) && (lock <? LOCKTIME_THRESHOLD)) || ((LOCKTIME_THRESHOLD <=? nLockTime txTo) && (LOCKTIME_THRESHOLD <=? lock))) then false
  else if nLockTime txTo <? lock then false
  else if nSequence (nth nIn (vin txTo) CTxIn_null) =? SEQUENCE_FINAL then false
  else true.

Definition tx_CheckSequence (sequence : Z) : bool :=
  let txToSequence := nSequence (nth nIn (vin txTo) CTxIn_null) in
  if uwrap 32 (tx_nVersion txTo) <? 2 then false
  else if negb (Z.land txToSequence SEQUENCE_LOCKTIME_DISABLE_FLAG =? 0) then false
  else
    let nLockTimeMask := Z.lor SEQUENCE_LOCKTIME_TYPE_FLAG SEQUENCE_LOCKTIME_MASK in
    let txToSequenceMasked := Z.land txToSequence nLockTimeMask in
    let nSequenceMasked := Z.land sequence nLockTimeMask in
    if negb (((txToSequenceMasked <? SEQUENCE_LOCKTIME_TYPE_FLAG) && (nSequenceMasked <? SEQUENCE_LOCKTIME_TYPE_FLAG)) ||
             ((SEQUENCE_LOCKTIME_TYPE_FLAG <=? txToSequenceMasked) && (SEQUENCE_LOCKTIME_TYPE_FLAG <=? nSequenceMasked))) then false
    else if txToSequenceMasked <? nSequenceMasked then false
    else true.

Definition TransactionSignatureChecker : SignatureChecker := mkChecker tx_CheckSig tx_CheckLockTime tx_CheckSequence.
End Checker.

(** ** What a signature of everything binds *)

(** A script that is read to its end. *)
Inductive reads : bytes -> Prop :=
| reads_nil : reads []
| reads_op pc r : GetOp2 pc = Some r -> reads (op_rest r) -> reads pc.

Lemma read_length pc r : GetOp2 pc = Some r -> zlen (take (length pc - length (op_rest r)) pc) = zlen pc - zlen (op_rest r).
Proof. intros E. apply GetOp2_rest in E. unfold zlen. rewrite length_take. lia. Qed.
Lemma separator_length pc r : GetOp2 pc = Some r -> op_code r = OP_CODESEPARATOR -> zlen pc = zlen (op_rest r) + 1.
Proof.
  destruct pc as [|x pc]; [done|]. intros E Ho. pose proof (GetOp2_code _ _ _ E) as Hx. rewrite Ho in Hx. subst x. cbn [GetOp2] in E. injection E as <-. cbn [op_rest]. rewrite zlen_cons. lia.
Qed.
Lemma stripped_length fuel pc : reads pc -> (length pc <= fuel)%nat -> zlen (drop_separators fuel pc) = zlen pc - count_separators fuel pc.
Proof.
  revert pc. induction fuel as [|fuel IH]; intros pc Hr Hf; [destruct pc; [done|cbn in Hf; lia]|]. destruct Hr as [|pc r E Hr]; [done|]. cbn [drop_separators count_separators]. rewrite E.
  pose proof (GetOp2_rest _ _ E). rewrite zlen_app, (IH _ Hr) by lia. destruct (Z.eqb_spec (op_code r) OP_CODESEPARATOR) as [Ho|]; cbn [b2z]; [rewrite (separator_length _ _ E Ho)|rewrite (read_length _ _ E)].
  - change (zlen []) with 0. lia.
  - lia.
Qed.

Definition signed_code_of (code : CScript) : bytes := drop_separators (length code) code.
Lemma SerializeScriptCode_reads code : reads code -> SerializeScriptCode code = enc c_bytes (signed_code_of code).
Proof. intros Hr. unfold SerializeScriptCode. rewrite <-stripped_length by done. reflexivity. Qed.

(** The transaction a signature of everything is for: without the scripts of the
    inputs, but the code signed in the place of one. *)
Definition signed_in (code : CScript) (nIn k : nat) (i : CTxIn) : CTxIn := mkTxIn (prevout i) (if (k =? nIn)%nat then signed_code_of code else []) (nSequence i) [].
Definition signed_tx (tx : CTransaction) (code : CScript) (nIn : nat) : CTransaction :=
  mkTx (tx_nVersion tx) (imap (signed_in code nIn) (vin tx)) (vout tx) (nLockTime tx).
Definition signs_all (nHashType : Z) : bool := negb (fAnyoneCanPay nHashType) && negb (fHashSingle nHashType) && negb (fHashNone nHashType).

Lemma map_seq_nth {A B} (f : nat -> A -> B) (d : A) (l : list A) : map (fun k => f k (nth k l d)) (seq 0 (length l)) = imap f l.
Proof.
  apply list_eq. intros k. rewrite list_lookup_imap. change (map ?g ?m) with (g <$> m). rewrite list_lookup_fmap. destruct (l !! k) as [x|] eqn:E.
  - pose proof (lookup_lt_Some _ _ _ E). rewrite lookup_seq_lt by lia. cbn. by rewrite (nth_lookup_Some _ _ _ _ E).
  - apply lookup_ge_None in E. by rewrite lookup_seq_ge by lia.
Qed.

Lemma preimage_all tx code nIn ht : signs_all ht = true -> reads code -> SerializeForSignature tx code nIn ht = SerializeTransaction false (signed_tx tx code nIn).
Proof.
  unfold signs_all. rewrite !andb_true_iff, !negb_true_iff. intros [[Ha Hs] Hn] Hr.
  assert (Hin : map (SerializeInput tx code nIn ht) (seq 0 (length (vin tx))) = map (enc c_txin) (imap (signed_in code nIn) (vin tx))).
  { change (map (enc c_txin) ?l) with (enc c_txin <$> l). rewrite fmap_imap, <-(map_seq_nth _ CTxIn_null). apply map_ext. intros k. unfold SerializeInput. rewrite Ha, Hs, Hn, andb_false_r.
    unfold compose, signed_in. rewrite SerializeScriptCode_reads by done. destruct (k =? nIn)%nat; reflexivity. }
  assert (Hout : map (SerializeOutput tx nIn ht) (seq 0 (length (vout tx))) = map (enc c_txout) (vout tx)).
  { rewrite <-(imap_const (enc c_txout)), <-(map_seq_nth _ CTxOut_null). apply map_ext. intros k. unfold SerializeOutput. by rewrite Hs. }
  unfold SerializeForSignature, SerializeTransaction. rewrite Ha, Hs, Hn, Hin, Hout. cbn [andb negb Z.eqb Z.land app signed_tx tx_nVersion vin vout nLockTime enc c_vector]. unfold zlen. rewrite length_imap, <-!app_assoc. done.
Qed.

Lemma signed_tx_wf tx code n : wf_tx false tx -> wf_bytes (signed_code_of code) -> wf_tx false (signed_tx tx code n) /\ strip_witness (signed_tx tx code n) = signed_tx tx code n.
Proof.
  intros (Hv & [Hi Hl] & Ho & Hk & _) Hc. rewrite Forall_lookup in Hi. split.
  - unfold wf_tx. cbn [signed_tx tx_nVersion vin vout nLockTime]. split_and!; try done.
    + split; [|unfold zlen in *; by rewrite length_imap]. rewrite Forall_lookup. intros k i. rewrite list_lookup_imap. intros (j & Hj & ->)%fmap_Some. destruct (Hi k j Hj) as (H1 & _ & H3). unfold wf_txin_base, signed_in. cbn [prevout scriptSig nSequence]. split_and!; try done. destruct (k =? n)%nat; [done|]. split; [constructor|done].
    + rewrite Forall_lookup. intros k i. rewrite list_lookup_imap. intros (j & _ & ->)%fmap_Some. by split.
  - unfold strip_witness, signed_tx. cbn [tx_nVersion vin vout nLockTime]. f_equal. change (map strip_in ?l) with (strip_in <$> l). rewrite fmap_imap. by apply imap_ext.
Qed.
Lemma preimage_inj tx1 tx2 code1 code2 n1 n2 ht1 ht2 : wf_tx false tx1 -> wf_tx false tx2 -> wf_bytes (signed_code_of code1) -> wf_bytes (signed_code_of code2) -> byte_ok ht1 -> byte_ok ht2 ->
  SerializeTransaction false (signed_tx tx1 code1 n1) ++ enc (c_int 4) ht1 = SerializeTransaction false (signed_tx tx2 code2 n2) ++ enc (c_int 4) ht2 ->
  signed_tx tx1 code1 n1 = signed_tx tx2 code2 n2 /\ ht1 = ht2.
Proof.
  intros Hw1 Hw2 Hc1 Hc2 Hb1 Hb2 E. destruct (signed_tx_wf tx1 code1 n1 Hw1 Hc1) as [Hs1 Es1]. destruct (signed_tx_wf tx2 code2 n2 Hw2 Hc2) as [Hs2 Es2].
  apply (f_equal (UnserializeTransaction false)) in E. rewrite !tx_roundtrip_plain, Es1, Es2 in E by done. apply (inj Some), pair_equal_spec in E as [Et Eh]. split; [done|].
  assert (Hr : Roundtrips (c_int 4) (wf_int 4)) by (apply c_int_roundtrips; lia). assert (Hint : forall b, byte_ok b -> wf_int 4 b) by (intros b [? ?]; unfold wf_int; lia).
  pose proof (dec_enc (c := c_int 4) ht1 [] (Hint _ Hb1)) as D1. pose proof (dec_enc (c := c_int 4) ht2 [] (Hint _ Hb2)) as D2. rewrite Eh, D2 in D1. congruence.
Qed.
(** Everything but the scripts is in the signed transaction. *)
Lemma signed_tx_inj tx1 tx2 code1 code2 n1 n2 : signed_tx tx1 code1 n1 = signed_tx tx2 code2 n2 ->
  tx_nVersion tx1 = tx_nVersion tx2 /\ nLockTime tx1 = nLockTime tx2 /\ vout tx1 = vout tx2 /\ map prevout (vin tx1) = map prevout (vin tx2) /\ map nSequence (vin tx1) = map nSequence (vin tx2) /\
  ((n1 < length (vin tx1))%nat -> signed_code_of code1 <> [] -> n1 = n2 /\ signed_code_of code1 = signed_code_of code2).
Proof.
  intros E. assert (Hin : imap (signed_in code1 n1) (vin tx1) = imap (signed_in code2 n2) (vin tx2)) by exact (f_equal vin E).
  assert (Hp : forall {B} (f : CTxIn -> B) code n tx, (forall k i, f (signed_in code n k i) = f i) -> map f (imap (signed_in code n) (vin tx)) = map f (vin tx)).
  { intros B f code n tx Hf. change (map f ?l) with (f <$> l). rewrite fmap_imap, <-(imap_const f). apply imap_ext. intros k i _. apply Hf. }
  split_and!; [exact (f_equal tx_nVersion E)|exact (f_equal nLockTime E)|exact (f_equal vout E)| | |].
  - by rewrite <-(Hp _ prevout code1 n1 tx1), <-(Hp _ prevout code2 n2 tx2), Hin.
  - by rewrite <-(Hp _ nSequence code1 n1 tx1), <-(Hp _ nSequence code2 n2 tx2), Hin.
  - intros [i Hi]%lookup_lt_is_Some_2 Hne. apply (f_equal (fun l => l !! n1)) in Hin. rewrite !list_lookup_imap, Hi in Hin. destruct (vin tx2 !! n1) as [j|]; [|done]. cbn in Hin. injection Hin as _ Hcode _.
    rewrite Nat.eqb_refl in Hcode. destruct (Nat.eqb_spec n1 n2); done.
Qed.

(** C11. A signature of everything binds the transaction. Two inputs of two
    transactions, with scripts that are read to their end and a hash type that
    selects neither NONE nor SINGLE nor ANYONECANPAY, have the same signature hash
    only if version, lock time, all spent outpoints, all sequence numbers, all outputs
    and the hash type are the same, and so is the signed code at its position, unless
    two different messages have the same double SHA-256. *)
Theorem signature_binds_transaction (tx1 tx2 : CTransaction) (code1 code2 : CScript) (n1 n2 : nat) (ht1 ht2 amount1 amount2 : Z) :
  wf_tx false tx1 -> wf_tx false tx2 -> reads code1 -> reads code2 -> wf_bytes (signed_code_of code1) -> wf_bytes (signed_code_of code2) ->
  signs_all ht1 = true -> signs_all ht2 = true -> byte_ok ht1 -> byte_ok ht2 ->
  SignatureHash code1 tx1 n1 ht1 amount1 SIGVERSION_BASE = SignatureHash code2 tx2 n2 ht2 amount2 SIGVERSION_BASE ->
  (exists m1 m2, m1 <> m2 /\ sha256.Hash [m1] = sha256.Hash [m2]) \/
  ht1 = ht2 /\ tx_nVersion tx1 = tx_nVersion tx2 /\ nLockTime tx1 = nLockTime tx2 /\ vout tx1 = vout tx2 /\
    map prevout (vin tx1) = map prevout (vin tx2) /\ map nSequence (vin tx1) = map nSequence (vin tx2) /\
    ((n1 < length (vin tx1))%nat -> signed_code_of code1 <> [] -> n1 = n2 /\ signed_code_of code1 = signed_code_of code2).
Proof.
  intros Hw1 Hw2 Hr1 Hr2 Hc1 Hc2 Ha1 Ha2 Hb1 Hb2. unfold SignatureHash.
  assert (Hs : forall ht, signs_all ht = true -> fHashSingle ht = false) by (intros ht; unfold signs_all; destruct (fHashSingle ht); [by rewrite andb_false_r|done]).
  rewrite (Hs _ Ha1), (Hs _ Ha2), !preimage_all by done. cbn [andb]. set (m1 := SerializeTransaction false _ ++ enc _ ht1). set (m2 := SerializeTransaction false _ ++ enc _ ht2).
  intros E. destruct (decide (m1 = m2)) as [Em|]; [right|left; by exists m1, m2]. apply preimage_inj in Em as [Et Eh]; try done. split; [done|]. by apply signed_tx_inj.
Qed.

(** Signing does not depend on the scripts of the inputs. *)
Definition unsigned_tx (ssig : CScript) : CTransaction := mkTx 2 [mkTxIn (mkOutPoint (repeat 7 32) 0) ssig SEQUENCE_FINAL []] [mkTxOut 5 [OP_1]] 0.
Definition code_with_separator : CScript := [OP_DUP; OP_CODESEPARATOR; OP_CHECKSIG].

Lemma signature_binds_transaction_witness : signed_code_of code_with_separator = [OP_DUP; OP_CHECKSIG] /\
  ((exists m1 m2, m1 <> m2 /\ sha256.Hash [m1] = sha256.Hash [m2]) \/
   SIGHASH_ALL = SIGHASH_ALL /\ tx_nVersion (unsigned_tx []) = tx_nVersion (unsigned_tx [OP_1]) /\ nLockTime (unsigned_tx []) = nLockTime (unsigned_tx [OP_1]) /\ vout (unsigned_tx []) = vout (unsigned_tx [OP_1]) /\
    map prevout (vin (unsigned_tx [])) = map prevout (vin (unsigned_tx [OP_1])) /\ map nSequence (vin (unsigned_tx [])) = map nSequence (vin (unsigned_tx [OP_1])) /\
    ((0 < 1)%nat -> signed_code_of code_with_separator <> [] -> 0%nat = 0%nat /\ signed_code_of code_with_separator = signed_code_of code_with_separator)).
Proof.
  assert (Hwf : forall ssig, ssig = [] \/ ssig = [OP_1] -> wf_tx false (unsigned_tx ssig)).
  { intros ssig Hs. assert (Hb : wf_bytes ssig) by (destruct Hs as [-> | ->]; split; [repeat constructor; done|done|repeat constructor; done|done]).
    assert (Hi : wf_txin_base (mkTxIn (mkOutPoint (repeat 7 32) 0) ssig SEQUENCE_FINAL [])) by (split; [split; [split; [by repeat constructor|done]|done]|split; [exact Hb|done]]).
    assert (Ho : wf_txout (mkTxOut 5 [OP_1])) by (split; [done|split; [by repeat constructor|done]]).
    split; [done|]. split; [split; [by constructor|done]|]. split; [split; [by constructor|done]|]. split; [done|]. split; [|done]. constructor; [by split|constructor]. }
  assert (Hr : reads code_with_separator) by (do 3 (eapply reads_op; [reflexivity|cbn [op_rest]]); constructor).
  assert (Hc : wf_bytes (signed_code_of code_with_separator)) by (split; [repeat constructor; done|done]).
  split; [reflexivity|]. apply (signature_binds_transaction (unsigned_tx []) (unsigned_tx [OP_1]) code_with_separator code_with_separator 0 0 SIGHASH_ALL SIGHASH_ALL 0 0
    (Hwf [] (or_introl eq_refl)) (Hwf [OP_1] (or_intror eq_refl)) Hr Hr Hc Hc eq_refl eq_refl); [split; done|split; done|vm_compute; reflexivity].
Defined.
