(* ===== verification/Spend.v ===== *)
(** * Spending an output

    [VerifyScript] and [VerifyWitnessProgram] of src/src/script/interpreter.cpp
    with the witness signature counts, and what it takes to spend an output that
    pays to a key, with or without an asset. *)

From S2P Require Import Prelude Sha256 Ripemd160 Serialize Script Slots Tx Base58 AssetScripts Key Ecdsa Interp Sighash.

Local Open Scope Z_scope.

Section Verify.
Context `{secp : Secp256k1} {ec : Secp256k1Ecdsa secp}.
Variable flags : Z.
Variable checker : SignatureChecker.
Abbreviation EvalScript := (EvalScript flags checker).

(** The top of the stack is true. *)
Definition eval_true (stack : list bytes) : bool := match stack with [] => false | top :: _ => CastToBool top end.

(** The script and the stack of a witness program of version 0; the stack of a
    witness has its top last. *)
Definition witness_program (witness : list bytes) (program : bytes) : result (CScript * list bytes) ScriptError :=
  if zlen program =? 32 then
    match rev witness with
    | [] => Err SCRIPT_ERR_WITNESS_PROGRAM_WITNESS_EMPTY
    | script :: stack => if bytes_eqb (sha256.SHA256 [script]) program then Ok (script, stack) else Err SCRIPT_ERR_WITNESS_PROGRAM_MISMATCH
    end
  else if zlen program =? 20 then
    if negb (zlen witness =? 2) then Err SCRIPT_ERR_WITNESS_PROGRAM_MISMATCH
    else Ok ([OP_DUP; OP_HASH160] ++ push program ++ [OP_EQUALVERIFY; OP_CHECKSIG], rev witness)
  else Err SCRIPT_ERR_WITNESS_PROGRAM_WRONG_LENGTH.

(** [None] is success. *)
Definition VerifyWitnessProgram (witness : list bytes) (witversion : Z) (program : bytes) : option ScriptError :=
  if witversion =? 0 then
    match witness_program witness program with
    | Err e => Some e
    | Ok (scriptPubKey, stack) =>
        if existsb (fun x => MAX_SCRIPT_ELEMENT_SIZE <? zlen x) stack then Some SCRIPT_ERR_PUSH_SIZE else
        match EvalScript SIGVERSION_WITNESS_V0 stack scriptPubKey with
        | Err e => Some e
        | Ok stack => if negb (zlen stack =? 1) then Some SCRIPT_ERR_EVAL_FALSE else if negb (eval_true stack) then Some SCRIPT_ERR_EVAL_FALSE else None
        end
    end
  else if has flags SCRIPT_VERIFY_DISCOURAGE_UPGRADABLE_WITNESS_PROGRAM then Some SCRIPT_ERR_DISCOURAGE_UPGRADABLE_WITNESS_PROGRAM
  else None.

(** A witness program found in a script: [Ok] says whether there is one. The
    [scriptSig] it demands comes with the error for another. *)
Definition verify_witness (script : CScript) (scriptSig expected : CScript) (malleated : ScriptError) (witness : list bytes) : result bool ScriptError :=
  if negb (has flags SCRIPT_VERIFY_WITNESS) then Ok false else
  match IsWitnessProgram script with
  | None => Ok false
  | Some (witnessversion, witnessprogram) =>
      if negb (bytes_eqb scriptSig expected) then Err malleated else
      match VerifyWitnessProgram witness witnessversion witnessprogram with Some e => Err e | None => Ok true end
  end.

(** [stack.resize(1)] of a stack with its top first: the bottom stays. *)
Definition resize1 (stack : list bytes) : list bytes := [List.last stack []].

(** The last checks; [None] is a failed assertion. *)
Definition verify_end (witness : list bytes) (hadWitness : bool) (stack : list bytes) : option (result unit ScriptError) :=
  if has flags SCRIPT_VERIFY_CLEANSTACK && negb (has flags SCRIPT_VERIFY_P2SH && has flags SCRIPT_VERIFY_WITNESS) then None else
  if has flags SCRIPT_VERIFY_CLEANSTACK && negb (zlen stack =? 1) then Some (Err SCRIPT_ERR_CLEANSTACK) else
  if has flags SCRIPT_VERIFY_WITNESS && negb (has flags SCRIPT_VERIFY_P2SH) then None else
  if has flags SCRIPT_VERIFY_WITNESS && negb hadWitness && negb (zlen witness =? 0) then Some (Err SCRIPT_ERR_WITNESS_UNEXPECTED)
  else Some (Ok tt).

(** Validation of a pay-to-script-hash output with the stack [stackCopy] that the
    [scriptSig] left; the result is the last stack and whether there was a witness. *)
Definition verify_p2sh (scriptSig : CScript) (stackCopy : list bytes) (witness : list bytes) (hadWitness : bool) : option (result (bool * list bytes) ScriptError) :=
  if negb (IsPushOnly scriptSig) then Some (Err SCRIPT_ERR_SIG_PUSHONLY) else
  match stackCopy with
  | [] => None
  | pubKey2 :: stack =>
      match EvalScript SIGVERSION_BASE stack pubKey2 with
      | Err e => Some (Err e)
      | Ok stack =>
          if negb (eval_true stack) then Some (Err SCRIPT_ERR_EVAL_FALSE) else
          match verify_witness pubKey2 scriptSig (push pubKey2) SCRIPT_ERR_WITNESS_MALLEATED_P2SH witness with
          | Err e => Some (Err e)
          | Ok had => Some (Ok (hadWitness || had, if had then resize1 stack else stack))
          end
      end
  end.

Definition VerifyScript (scriptSig scriptPubKey : CScript) (witness : list bytes) : option (result unit ScriptError) :=
  if has flags SCRIPT_VERIFY_SIGPUSHONLY && negb (IsPushOnly scriptSig) then Some (Err SCRIPT_ERR_SIG_PUSHONLY) else
  match EvalScript SIGVERSION_BASE [] scriptSig with
  | Err e => Some (Err e)
  | Ok stackCopy =>
  match EvalScript SIGVERSION_BASE stackCopy scriptPubKey with
  | Err e => Some (Err e)
  | Ok stack =>
      if negb (eval_true stack) then Some (Err SCRIPT_ERR_EVAL_FALSE) else
      match verify_witness scriptPubKey scriptSig [] SCRIPT_ERR_WITNESS_MALLEATED witness with
      | Err e => Some (Err e)
      | Ok hadWitness =>
          let stack := if hadWitness then resize1 stack else stack in
          if has flags SCRIPT_VERIFY_P2SH && IsPayToScriptHash scriptPubKey then
            match verify_p2sh scriptSig stackCopy witness hadWitness with
            | None => None
            | Some (Err e) => Some (Err e)
            | Some (Ok (hadWitness, stack)) => verify_end witness hadWitness stack
            end
          else verify_end witness hadWitness stack
      end
  end end.
End Verify.

(** ** Signature operations of a witness *)

Definition WitnessSigOps (witversion : Z) (witprogram : bytes) (witness : list bytes) : Z :=
  if witversion =? 0 then
    if zlen witprogram =? 20 then 1
    else if (zlen witprogram =? 32) && (0 <? zlen witness) then GetSigOpCount true (List.last witness [])
    else 0
  else 0.
(** The data of the last instruction of a [scriptSig] that only pushes. *)
Fixpoint last_push (fuel : nat) (pc data : bytes) : bytes :=
  match fuel, GetOp2 pc with
  | S fuel, Some r => last_push fuel (op_rest r) (op_data r)
  | _, _ => data
  end.
(** [None] is the failed assertion that P2SH is on. *)
Definition CountWitnessSigOps (scriptSig scriptPubKey : CScript) (witness : list bytes) (flags : Z) : option Z :=
  if negb (has flags SCRIPT_VERIFY_WITNESS) then Some 0 else
  if negb (has flags SCRIPT_VERIFY_P2SH) then None else
  match IsWitnessProgram scriptPubKey with
  | Some (witnessversion, witnessprogram) => Some (WitnessSigOps witnessversion witnessprogram witness)
  | None =>
      if IsPayToScriptHash scriptPubKey && IsPushOnly scriptSig then
        match IsWitnessProgram (last_push (length scriptSig) scriptSig []) with
        | Some (witnessversion, witnessprogram) => Some (WitnessSigOps witnessversion witnessprogram witness)
        | None => Some 0
        end
      else Some 0
  end.

(** ** Paying to a key *)

(** What follows the script of a key: nothing, or the data of an asset. *)
Definition key_tail (tail : bytes) : Prop := tail = [] \/ exists data, tail = OP_RVN_ASSET :: data.

Section KeyScript.
Context `{secp : Secp256k1} {ec : Secp256k1Ecdsa secp}.
Variable flags : Z.
Variable checker : SignatureChecker.
Variable ver : SigVersion.

Lemma check_size_ok s a e code ops st : check_size (mkEval s a e code ops) = Ok st <-> st = mkEval s a e code ops /\ zlen s + zlen a <= MAX_STACK_SIZE.
Proof. unfold check_size. cbn [ev_stack ev_alt]. destruct (Z.ltb_spec MAX_STACK_SIZE (zlen s + zlen a)); split; [done|intros []; lia|by intros [= <-]|by intros [-> _]]. Qed.
Lemma step_dup x s code rest : eval_step flags checker ver (OpResult OP_DUP [] rest) (mkEval (x :: s) [] [] code 0) = check_size (mkEval (x :: x :: s) [] [] code 1).
Proof. reflexivity. Qed.
Lemma step_hash160 x s code rest : eval_step flags checker ver (OpResult OP_HASH160 [] rest) (mkEval (x :: s) [] [] code 1) = check_size (mkEval (ripemd160.Hash160 x :: s) [] [] code 2).
Proof. reflexivity. Qed.
Lemma step_equalverify x y s code rest : eval_step flags checker ver (OpResult OP_EQUALVERIFY [] rest) (mkEval (x :: y :: s) [] [] code 2) =
  if bytes_eqb y x then check_size (mkEval s [] [] code 3) else Err SCRIPT_ERR_EQUALVERIFY.
Proof. unfold eval_step. cbn. by destruct (bytes_eqb y x). Qed.
Lemma step_checksig s code rest : eval_step flags checker ver (OpResult OP_CHECKSIG [] rest) (mkEval s [] [] code 3) =
  match op_checksig flags checker ver false (mkEval s [] [] code 4) with Err e => Err e | Ok st => check_size st end.
Proof. reflexivity. Qed.
Lemma step_asset data s code rest : eval_step flags checker ver (OpResult OP_RVN_ASSET data rest) (mkEval s [] [] code 4) =
  if MAX_SCRIPT_ELEMENT_SIZE <? zlen data then Err SCRIPT_ERR_PUSH_SIZE else check_size (mkEval s [] [] code 5).
Proof. reflexivity. Qed.
Lemma step_id id s code rest : length id = 20%nat -> eval_step flags checker ver (OpResult 20 id rest) (mkEval s [] [] code 2) = check_size (mkEval (id :: s) [] [] code 2).
Proof. intros Hl. unfold eval_step, CheckMinimalPush, zlen. cbn [op_code op_data]. rewrite Hl. cbn. by rewrite andb_false_r. Qed.
Lemma GetOp_id id rest : length id = 20%nat -> GetOp2 (20 :: id ++ rest) = Some (OpResult 20 id rest).
Proof. intros Hl. change (GetOp2 (20 :: id ++ rest)) with (take_data 20 20 (id ++ rest)). replace 20 with (zlen id) at 2 by (unfold zlen; by rewrite Hl). apply take_data_app. Qed.

Lemma eval_tail tail s code st : key_tail tail -> eval_loop flags checker ver (length tail) tail (mkEval s [] [] code 4) = Ok st ->
  zlen tail <= 521 /\ ev_stack st = s /\ ev_exec st = [].
Proof.
  intros [->|[data ->]]; [by intros [= <-]|]. rewrite (eval_loop_step _ _ _ _ (OpResult OP_RVN_ASSET data [])), step_asset by done. rewrite zlen_cons.
  destruct (Z.ltb_spec MAX_SCRIPT_ELEMENT_SIZE (zlen data)) as [|Hd]; [done|]. destruct (check_size _) as [st'|] eqn:E; [|done]. apply check_size_ok in E as [-> _].
  intros [= <-]. unfold MAX_SCRIPT_ELEMENT_SIZE in Hd. split; [lia|done].
Qed.
Lemma eval_tail_ok tail s code : key_tail tail -> zlen tail <= 521 -> zlen s <= MAX_STACK_SIZE -> exists st,
  eval_loop flags checker ver (length tail) tail (mkEval s [] [] code 4) = Ok st /\ ev_stack st = s /\ ev_exec st = [].
Proof.
  intros [->|[data ->]] Hl Hs; [by eexists|]. rewrite zlen_cons in Hl. rewrite (eval_loop_step _ _ _ _ (OpResult OP_RVN_ASSET data [])), step_asset by done.
  destruct (Z.ltb_spec MAX_SCRIPT_ELEMENT_SIZE (zlen data)) as [Hd|]; [unfold MAX_SCRIPT_ELEMENT_SIZE in Hd; lia|].
  assert (check_size (mkEval s [] [] code 5) = Ok (mkEval s [] [] code 5)) as -> by (apply check_size_ok; change (zlen []) with 0; split; [done|lia]). by eexists.
Qed.

Lemma eval_op opcode rest st : OP_PUSHDATA4 < opcode -> opcode <> OP_RVN_ASSET -> eval_loop flags checker ver (length (opcode :: rest)) (opcode :: rest) st =
  match eval_step flags checker ver (OpResult opcode [] rest) st with Err e => Err e | Ok st => eval_loop flags checker ver (length rest) rest st end.
Proof.
  intros H1 H2. apply (eval_loop_step _ _ _ _ (OpResult opcode [] rest)). cbn [GetOp2]. destruct (Z.leb_spec opcode OP_PUSHDATA4); [lia|]. by destruct (Z.eqb_spec opcode OP_RVN_ASSET).
Qed.
(** The loop on the script of a key, up to its tail. *)
Lemma eval_key_loop id tail stack code : length id = 20%nat ->
  let script := P2PKH id ++ tail in
  eval_loop flags checker ver (length script) script (mkEval stack [] [] code 0) =
  match stack with
  | [] => invalid_stack
  | pubkey :: s =>
      if MAX_STACK_SIZE <? zlen stack + 1 then Err SCRIPT_ERR_STACK_SIZE
      else if MAX_STACK_SIZE <? zlen stack + 2 then Err SCRIPT_ERR_STACK_SIZE
      else if bytes_eqb (ripemd160.Hash160 pubkey) id then
        match op_checksig flags checker ver false (mkEval stack [] [] code 4) with
        | Err e => Err e
        | Ok st => match check_size st with Err e => Err e | Ok st => eval_loop flags checker ver (length tail) tail st end
        end
      else Err SCRIPT_ERR_EQUALVERIFY
  end.
Proof.
  intros Hl script. subst script. rewrite P2PKH_eq by done. rewrite <-!app_assoc. cbn [app]. rewrite (eval_op OP_DUP) by done.
  destruct stack as [|pubkey s]; [done|]. rewrite step_dup. unfold check_size at 1. cbn [ev_stack ev_alt]. change (zlen []) with 0. rewrite !zlen_cons.
  replace (1 + (1 + zlen s) + 0) with (1 + zlen s + 1) by lia. destruct (Z.ltb_spec MAX_STACK_SIZE (1 + zlen s + 1)) as [|H1]; [done|].
  assert (Hc : forall x y ops, check_size (mkEval (x :: y :: s) [] [] code ops) = Ok (mkEval (x :: y :: s) [] [] code ops)).
  { intros x y ops. apply check_size_ok. rewrite !zlen_cons. change (zlen []) with 0. split; [done|lia]. }
  rewrite (eval_op OP_HASH160) by done. rewrite step_hash160, Hc.
  rewrite (eval_loop_step _ _ _ _ _ _ (GetOp_id id _ Hl)). cbn [op_rest]. rewrite step_id by done. unfold check_size at 1. cbn [ev_stack ev_alt]. change (zlen []) with 0. rewrite !zlen_cons.
  replace (1 + (1 + (1 + zlen s)) + 0) with (1 + zlen s + 2) by lia. destruct (Z.ltb_spec MAX_STACK_SIZE (1 + zlen s + 2)) as [|H2]; [done|].
  rewrite (eval_op OP_EQUALVERIFY) by done. rewrite step_equalverify. destruct (bytes_eqb _ id); [|done].
  assert (check_size (mkEval (pubkey :: s) [] [] code 3) = Ok (mkEval (pubkey :: s) [] [] code 3)) as -> by (apply check_size_ok; rewrite zlen_cons; change (zlen []) with 0; split; [done|lia]).
  rewrite (eval_op OP_CHECKSIG) by done. rewrite step_checksig. by destruct (op_checksig _ _ _ _ _).
Qed.

(** What the script of a key asks of the stack, and what it leaves. *)
Lemma eval_key_script id tail stack stack' : length id = 20%nat -> key_tail tail ->
  EvalScript flags checker ver stack (P2PKH id ++ tail) = Ok stack' <->
  exists pubkey sig s, let ok := CheckSig checker sig pubkey (signed_code ver (P2PKH id ++ tail) [sig]) ver in
    stack = pubkey :: sig :: s /\ zlen stack + 2 <= MAX_STACK_SIZE /\ ripemd160.Hash160 pubkey = id /\ check_encodings flags ver sig pubkey = None /\
    (ok = false -> has flags SCRIPT_VERIFY_NULLFAIL = true -> sig = []) /\ zlen tail <= 521 /\ stack' = of_bool ok :: s.
Proof.
  intros Hl Ht. unfold EvalScript. rewrite eval_key_loop by done. assert (Hz : zlen (P2PKH id ++ tail) = 25 + zlen tail) by (rewrite zlen_app; f_equal; by apply length_P2PKH). rewrite Hz.
  set (code := P2PKH id ++ tail). unfold op_checksig. cbn [ev_stack ev_code]. split.
  - destruct (MAX_SCRIPT_SIZE <? _); [done|]. destruct stack as [|pubkey s]; [done|]. destruct (MAX_STACK_SIZE <? _ + 1); [done|]. destruct (Z.ltb_spec MAX_STACK_SIZE (zlen (pubkey :: s) + 2)) as [|Hs]; [done|].
    destruct (bytes_eqb _ id) eqn:Eid; [|done]. apply bytes_eqb_eq in Eid. destruct s as [|sig s]; [done|]. destruct (check_encodings _ _ _ _) eqn:Ec; [done|].
    destruct (negb _ && _ && _) eqn:En; [done|]. unfold verified, with_stack. cbn [ev_stack ev_alt ev_exec ev_code ev_ops]. set (ok := CheckSig _ _ _ _ _) in *.
    destruct (check_size _) as [st|] eqn:Ez; [|done]. apply check_size_ok in Ez as [-> _]. destruct (eval_loop _ _ _ _ _ _) as [st|] eqn:El; [|done].
    destruct (eval_tail _ _ _ _ Ht El) as (Htl & Est & ->). intros [= <-]. exists pubkey, sig, s. split_and!; try done.
    intros Hok Hnf. fold code ok in Hok. rewrite Hok, Hnf in En. cbn [negb andb] in En. apply negb_false_iff, Z.eqb_eq in En. destruct sig; [done|]. rewrite zlen_cons in En. pose proof (zlen_nonneg sig). lia.
  - intros (pubkey & sig & s & -> & Hs & Hid & Hc & Hnf & Htl & ->). unfold MAX_SCRIPT_SIZE. destruct (Z.ltb_spec 10000 (25 + zlen tail)); [lia|].
    destruct (Z.ltb_spec MAX_STACK_SIZE (zlen (pubkey :: sig :: s) + 1)); [lia|]. destruct (Z.ltb_spec MAX_STACK_SIZE (zlen (pubkey :: sig :: s) + 2)); [lia|]. rewrite Hid, (proj2 (bytes_eqb_eq id id) eq_refl), Hc.
    fold code in Hnf |- *. set (ok := CheckSig _ _ _ _ _) in *. assert (negb ok && has flags SCRIPT_VERIFY_NULLFAIL && negb (zlen sig =? 0) = false) as ->.
    { destruct ok; [done|]. destruct (has flags SCRIPT_VERIFY_NULLFAIL) eqn:Eh; [|done]. by rewrite Hnf. }
    unfold verified, with_stack. cbn [ev_stack ev_alt ev_exec ev_code ev_ops]. rewrite !zlen_cons in Hs.
    assert (check_size (mkEval (of_bool ok :: s) [] [] code 4) = Ok (mkEval (of_bool ok :: s) [] [] code 4)) as -> by (apply check_size_ok; rewrite zlen_cons; change (zlen []) with 0; split; [done|lia]).
    destruct (eval_tail_ok tail (of_bool ok :: s) code Ht Htl) as (st & -> & -> & ->); [rewrite zlen_cons; lia|done].
Qed.
End KeyScript.

(** The signature is not part of the code it signs, unless it is the hash of the
    key itself. *)
Lemma code_keeps_key_script id tail sig : length id = 20%nat -> key_tail tail -> sig <> id -> FindAndDelete (P2PKH id ++ tail) (push sig) = P2PKH id ++ tail.
Proof.
  intros Hl Ht Hne. unfold FindAndDelete. destruct (push_head sig) as (x & t & Ep & Hx & Hshort). assert ((length (push sig) =? 0)%nat = false) as -> by (by rewrite Ep).
  assert (Hop : forall n opcode rest, OP_PUSHDATA4 < opcode -> opcode <> OP_RVN_ASSET -> delete_copies n (push sig) rest = rest -> delete_copies (S n) (push sig) (opcode :: rest) = opcode :: rest).
  { intros n opcode rest H1 H2 Hr. apply (delete_keep _ _ _ (OpResult opcode [] rest)); [by apply no_copy_at| |done].
    cbn [GetOp2]. destruct (Z.leb_spec opcode OP_PUSHDATA4); [lia|]. by destruct (Z.eqb_spec opcode OP_RVN_ASSET). }
  assert (Htail : forall n, delete_copies (S n) (push sig) tail = tail).
  { intros n. destruct Ht as [->|[data ->]]; [by rewrite Ep|]. apply (delete_keep _ _ _ (OpResult OP_RVN_ASSET data [])); [by apply no_copy_at|done|]. rewrite Ep. by destruct n. }
  rewrite P2PKH_eq, <-!app_assoc by done. cbn [app length]. rewrite length_app, Hl. cbn [Nat.add]. apply Hop; [done..|]. apply Hop; [done..|].
  apply (delete_keep _ _ _ (OpResult 20 id ([OP_EQUALVERIFY; OP_CHECKSIG] ++ tail))); [|by apply GetOp_id|cbn [op_rest app]; by do 2 (apply Hop; [done..|])].
  apply skip_copies_none, not_true_iff_false. rewrite bytes_eqb_eq, Ep. cbn [length take]. intros [= -> E]. destruct (Hshort ltac:(done)) as [Hz ->].
  assert (length sig = 20%nat) by (unfold zlen in Hz; lia). rewrite take_app_length' in E by lia. done.
Qed.

Lemma key_script_plain id tail : length id = 20%nat -> IsWitnessProgram (P2PKH id ++ tail) = None /\ IsPayToScriptHash (P2PKH id ++ tail) = false.
Proof.
  intros Hl. rewrite P2PKH_eq by done. unfold IsWitnessProgram, IsPayToScriptHash. cbn [app sat nth]. split; [by destruct (_ || _)|]. by rewrite andb_false_r.
Qed.

Lemma zlen_push_le b : zlen (push b) <= zlen b + 5.
Proof. unfold push. rewrite zlen_app. case_ifs; rewrite ?zlen_cons; unfold zlen; rewrite length_le_bytes; lia. Qed.

Section Spending.
Context `{secp : Secp256k1} {ec : Secp256k1Ecdsa secp}.

(** The verification flags satisfy the assertions of [VerifyScript]. *)
Definition flags_fine (flags : Z) : bool :=
  implb (has flags SCRIPT_VERIFY_CLEANSTACK) (has flags SCRIPT_VERIFY_P2SH && has flags SCRIPT_VERIFY_WITNESS) &&
  implb (has flags SCRIPT_VERIFY_WITNESS) (has flags SCRIPT_VERIFY_P2SH).

Lemma p2sh_needs_element flags checker script ver : IsPayToScriptHash script = true -> forall stack, EvalScript flags checker ver [] script <> Ok stack.
Proof.
  intros Hp stack. destruct script as [|x script]; [done|]. unfold IsPayToScriptHash in Hp. rewrite !andb_true_iff, !Z.eqb_eq in Hp. destruct Hp as [[[_ Hx] _] _]. change (sat (x :: script) 0) with x in Hx. subst x.
  unfold EvalScript. destruct (MAX_SCRIPT_SIZE <? _); [done|]. by rewrite (eval_op flags checker ver OP_HASH160).
Qed.
(** The assertions of [VerifyScript] hold. *)
Lemma VerifyScript_total flags checker ssig script witness : flags_fine flags = true -> is_Some (VerifyScript flags checker ssig script witness).
Proof.
  intros Hf. assert (Hend : forall had stack, is_Some (verify_end flags witness had stack)).
  { intros had stack. unfold flags_fine in Hf. unfold verify_end. destruct (has flags SCRIPT_VERIFY_CLEANSTACK), (has flags SCRIPT_VERIFY_P2SH), (has flags SCRIPT_VERIFY_WITNESS); try done; cbn [andb negb]; case_ifs; done. }
  unfold VerifyScript. destruct (_ && negb _); [done|]. destruct (EvalScript _ _ _ [] ssig) as [copy|]; [|done]. destruct (EvalScript _ _ _ copy script) as [stack|] eqn:Es; [|done].
  destruct (negb _); [done|]. destruct (verify_witness _ _ _ _ _ _ _) as [had|]; [|done]. destruct (_ && IsPayToScriptHash script) eqn:Ep; [|apply Hend]. apply andb_true_iff in Ep as [_ Ep].
  unfold verify_p2sh. destruct (negb _); [done|]. destruct copy as [|script2 copy]; [by apply (p2sh_needs_element flags checker) in Es|]. destruct (EvalScript _ _ _ copy script2) as [stack2|]; [|done].
  destruct (negb _); [done|]. destruct (verify_witness _ _ _ _ _ _ _) as [had2|]; [apply Hend|done].
Qed.

Lemma key_script_verified flags checker ssig id tail witness : length id = 20%nat -> key_tail tail ->
  VerifyScript flags checker ssig (P2PKH id ++ tail) witness = Some (Ok tt) ->
  exists pubkey sig s, EvalScript flags checker SIGVERSION_BASE [] ssig = Ok (pubkey :: sig :: s) /\ ripemd160.Hash160 pubkey = id /\ zlen tail <= 521 /\
    check_encodings flags SIGVERSION_BASE sig pubkey = None /\ CheckSig checker sig pubkey (FindAndDelete (P2PKH id ++ tail) (push sig)) SIGVERSION_BASE = true.
Proof.
  intros Hl Ht. unfold VerifyScript. destruct (_ && _); [done|]. destruct (EvalScript _ _ _ [] ssig) as [stack|] eqn:Es; [|done].
  destruct (EvalScript _ _ _ stack _) as [stack'|] eqn:Ep; [|done]. apply eval_key_script in Ep as (pubkey & sig & s & -> & _ & Hid & Hc & _ & Htl & ->); [|done..].
  cbn [eval_true]. change (signed_code SIGVERSION_BASE ?c [sig]) with (FindAndDelete c (push sig)). destruct (CheckSig _ _ _ _ _) eqn:Eok; [|done]. intros _. by exists pubkey, sig, s.
Qed.
Lemma key_script_accepted flags checker id tail pubkey sig : length id = 20%nat -> key_tail tail -> zlen tail <= 521 -> flags_fine flags = true ->
  2 <= zlen pubkey <= MAX_SCRIPT_ELEMENT_SIZE -> 2 <= zlen sig <= MAX_SCRIPT_ELEMENT_SIZE -> ripemd160.Hash160 pubkey = id -> check_encodings flags SIGVERSION_BASE sig pubkey = None ->
  CheckSig checker sig pubkey (FindAndDelete (P2PKH id ++ tail) (push sig)) SIGVERSION_BASE = true ->
  VerifyScript flags checker (push sig ++ push pubkey) (P2PKH id ++ tail) [] = Some (Ok tt).
Proof.
  intros Hl Ht Htl Hf Hp Hs Hid Hc Hok. unfold VerifyScript. rewrite <-(app_nil_r (push pubkey)), IsPushOnly_push, andb_false_r; [|done|by apply IsPushOnly_push].
  assert (EvalScript flags checker SIGVERSION_BASE [] (push sig ++ push pubkey ++ []) = Ok [pubkey; sig]) as ->.
  { unfold EvalScript. rewrite !zlen_app. pose proof (zlen_push_le sig). pose proof (zlen_push_le pubkey). change (zlen []) with 0. unfold MAX_SCRIPT_ELEMENT_SIZE in *.
    destruct (Z.ltb_spec MAX_SCRIPT_SIZE (zlen (push sig) + (zlen (push pubkey) + 0))) as [Hbig|_]; [unfold MAX_SCRIPT_SIZE in Hbig; lia|]. by rewrite !eval_push. }
  assert (EvalScript flags checker SIGVERSION_BASE [pubkey; sig] (P2PKH id ++ tail) = Ok [vchTrue]) as ->.
  { apply eval_key_script; [done..|]. exists pubkey, sig, []. change (signed_code SIGVERSION_BASE ?c [sig]) with (FindAndDelete c (push sig)). rewrite Hok. by split_and!. }
  change (negb (eval_true [vchTrue])) with false. cbv iota. destruct (key_script_plain id tail Hl) as [Hw Hp2]. unfold verify_witness. rewrite Hw, Hp2, andb_false_r.
  unfold flags_fine in Hf. unfold verify_end. destruct (has flags SCRIPT_VERIFY_CLEANSTACK), (has flags SCRIPT_VERIFY_P2SH), (has flags SCRIPT_VERIFY_WITNESS); done.
Qed.

(** The input [n] of a transaction carries a signature of the transaction by a key
    with the hash [id]; in strict form where the flags ask for it. *)
Definition signed_by (flags : Z) (tx : CTransaction) (n : nat) (amount : Z) (script : CScript) (id : bytes) : Prop :=
  exists pubkey sig, CPubKey_GetID pubkey = id /\ CPubKey_IsValid pubkey = true /\ sig <> [] /\
    (has flags SCRIPT_VERIFY_DERSIG = true -> IsValidSignatureEncoding sig = true) /\
    CPubKey_Verify pubkey (SignatureHash (FindAndDelete script (push sig)) tx n (List.last sig 0) amount SIGVERSION_BASE) (removelast sig) = true.

Lemma GetID_eq pubkey : CPubKey_GetID pubkey = ripemd160.Hash160 pubkey.
Proof. reflexivity. Qed.
Lemma pubkey_size pubkey : CPubKey_Set pubkey = pubkey -> CPubKey_IsValid pubkey = true -> 2 <= zlen pubkey <= MAX_SCRIPT_ELEMENT_SIZE.
Proof.
  unfold CPubKey_Set, CPubKey_IsValid. destruct pubkey as [|b l]; [done|]. destruct (negb _ && _) eqn:E; [|done]. intros _ _. apply andb_true_iff in E as [H0 E%Z.eqb_eq].
  rewrite <-E. revert H0. unfold GetLen, MAX_SCRIPT_ELEMENT_SIZE. case_ifs; by cbn.
Qed.
Lemma tx_CheckSig_true tx n amount sig pubkey code ver : tx_CheckSig tx n amount sig pubkey code ver = true <->
  CPubKey_Set pubkey = pubkey /\ CPubKey_IsValid pubkey = true /\ sig <> [] /\ CPubKey_Verify pubkey (SignatureHash code tx n (List.last sig 0) amount ver) (removelast sig) = true.
Proof.
  unfold tx_CheckSig. assert (Hset : CPubKey_IsValid (CPubKey_Set pubkey) = true -> CPubKey_Set pubkey = pubkey) by (unfold CPubKey_Set; destruct (_ && _); done).
  assert (Hsig : (zlen sig =? 0) = false <-> sig <> []) by (destruct sig; [done|]; rewrite Z.eqb_neq, zlen_cons; pose proof (zlen_nonneg sig); split; [done|lia]). split.
  - destruct (CPubKey_IsValid (CPubKey_Set pubkey)) eqn:Ev; [|done]. rewrite (Hset eq_refl) in Ev |- *. cbn [negb]. destruct (zlen sig =? 0); [done|]. intros Hv. exact (conj eq_refl (conj Ev (conj (proj1 Hsig eq_refl) Hv))).
  - intros (-> & -> & Hs & Hv). apply Hsig in Hs. rewrite Hs. exact Hv.
Qed.
Lemma dersig_strict flags sig pubkey ver : check_encodings flags ver sig pubkey = None -> sig <> [] -> has flags SCRIPT_VERIFY_DERSIG = true -> IsValidSignatureEncoding sig = true.
Proof.
  unfold check_encodings, CheckSignatureEncoding. intros Hc Hs Hd. destruct (Z.eqb_spec (zlen sig) 0) as [Hz|]; [destruct sig; [done|rewrite zlen_cons in Hz; pose proof (zlen_nonneg sig); lia]|].
  destruct (IsValidSignatureEncoding sig); [done|]. rewrite andb_true_r in Hc. assert (has flags (Z.lor (Z.lor SCRIPT_VERIFY_DERSIG SCRIPT_VERIFY_LOW_S) SCRIPT_VERIFY_STRICTENC) = true) as E; [|by rewrite E in Hc].
  unfold has in *. rewrite negb_true_iff, Z.eqb_neq in *. intros E. apply Hd. apply Z.bits_inj'. intros k Hk. assert (Hb : Z.testbit (Z.land flags (Z.lor (Z.lor SCRIPT_VERIFY_DERSIG SCRIPT_VERIFY_LOW_S) SCRIPT_VERIFY_STRICTENC)) k = false) by (rewrite E; apply Z.bits_0).
  rewrite !Z.land_spec, !Z.lor_spec, Z.bits_0 in *. destruct (Z.testbit flags k); [|done]. destruct (Z.testbit SCRIPT_VERIFY_DERSIG k); done.
Qed.

Lemma key_script_signed flags tx n amount ssig id tail witness : length id = 20%nat -> key_tail tail ->
  VerifyScript flags (TransactionSignatureChecker tx n amount) ssig (P2PKH id ++ tail) witness = Some (Ok tt) -> signed_by flags tx n amount (P2PKH id ++ tail) id /\ zlen tail <= 521.
Proof.
  intros Hl Ht Hv. destruct (key_script_verified _ _ _ _ _ _ Hl Ht Hv) as (pubkey & sig & s & _ & Hid & Htl & Hc & Hok). apply tx_CheckSig_true in Hok as (_ & Hval & Hne & Hver).
  split; [|done]. exists pubkey, sig. rewrite GetID_eq. split; [exact Hid|]. split; [exact Hval|]. split; [exact Hne|]. split; [|exact Hver]. by apply (dersig_strict flags sig pubkey SIGVERSION_BASE).
Qed.

(** C10. An output that pays to a key hash, whether or not it carries an asset, is
    spent exactly with a signature by a key of that hash. Whatever the script of the
    input does and whatever flags apply, if VerifyScript accepts it then the input has
    left a public key with that hash and a signature which CPubKey::Verify accepts for
    the signature hash of this transaction and input, strictly encoded if the flags
    say so. Conversely pushing such a signature and such a key is accepted. *)
Theorem key_output_spending (flags : Z) (tx : CTransaction) (n : nat) (amount : Z) (id tail : bytes) :
  length id = 20%nat -> key_tail tail ->
  (forall ssig witness, VerifyScript flags (TransactionSignatureChecker tx n amount) ssig (P2PKH id ++ tail) witness = Some (Ok tt) ->
     signed_by flags tx n amount (P2PKH id ++ tail) id /\ zlen tail <= 521) /\
  (forall pubkey sig, CPubKey_GetID pubkey = id -> CPubKey_Set pubkey = pubkey -> 2 <= zlen sig <= MAX_SCRIPT_ELEMENT_SIZE -> sig <> id ->
     CPubKey_Verify pubkey (SignatureHash (P2PKH id ++ tail) tx n (List.last sig 0) amount SIGVERSION_BASE) (removelast sig) = true ->
     check_encodings flags SIGVERSION_BASE sig pubkey = None -> flags_fine flags = true -> zlen tail <= 521 ->
     VerifyScript flags (TransactionSignatureChecker tx n amount) (push sig ++ push pubkey) (P2PKH id ++ tail) [] = Some (Ok tt)).
Proof.
  intros Hl Ht. split; [intros ssig witness; exact (key_script_signed flags tx n amount ssig id tail witness Hl Ht)|]. intros pubkey sig Hid Hset Hs Hne Hver Hc Hf Htl. rewrite GetID_eq in Hid.
  assert (Hval : CPubKey_IsValid pubkey = true) by (revert Hver; unfold CPubKey_Verify; destruct (CPubKey_IsValid pubkey); [reflexivity|discriminate]).
  apply (key_script_accepted flags _ id tail pubkey sig Hl Ht Htl Hf (pubkey_size pubkey Hset Hval) Hs Hid Hc). apply (tx_CheckSig_true tx n amount sig pubkey). rewrite (code_keeps_key_script id tail sig Hl Ht Hne).
  split; [exact Hset|]. split; [exact Hval|]. split; [|exact Hver]. clear - Hs. intros ->. change (zlen []) with 0 in Hs. lia.
Qed.
End Spending.

(** The address of [alice_key] spends with its signature, and only so. *)
Definition alice_key : bytes := 2 :: repeat 9 32.
Definition alice_id : bytes := Eval vm_compute in CPubKey_GetID alice_key.
Definition alice_signs : bytes := Eval vm_compute in toy_signature (repeat 9 32) (SignatureHash (P2PKH alice_id) (unsigned_tx []) 0 SIGHASH_ALL 5 SIGVERSION_BASE) SIGHASH_ALL.

Lemma key_output_spending_witness : let flags := Z.lor SCRIPT_VERIFY_P2SH SCRIPT_VERIFY_DERSIG in
  VerifyScript (secp := toy_secp256k1) (ec := toy_ecdsa) flags (TransactionSignatureChecker (secp := toy_secp256k1) (ec := toy_ecdsa) (unsigned_tx []) 0 5) (push alice_signs ++ push alice_key) (P2PKH alice_id ++ []) [] = Some (Ok tt) /\
  signed_by (secp := toy_secp256k1) (ec := toy_ecdsa) flags (unsigned_tx []) 0 5 (P2PKH alice_id ++ []) alice_id.
Proof.
  intros flags. destruct (key_output_spending (secp := toy_secp256k1) (ec := toy_ecdsa) flags (unsigned_tx []) 0 5 alice_id [] eq_refl (or_introl eq_refl)) as [Hs Ha].
  assert (Hv := Ha alice_key alice_signs). refine (let Hok := Hv _ _ _ _ _ _ _ _ in conj Hok (proj1 (Hs _ _ Hok))); clear; [vm_compute; reflexivity|vm_compute; reflexivity|split; vm_compute; discriminate|discriminate|vm_compute; reflexivity..|discriminate].
Defined.

(** ** Assets that are not held by their address *)

(** A script of 25 bytes that any input satisfies, with a key hash where the script of
    a key has it. *)
Definition open_script (id : bytes) : CScript := [OP_NOP; OP_NOP; 20] ++ id ++ [OP_DUP; OP_EQUAL].

Section Open.
Context `{secp : Secp256k1} {ec : Secp256k1Ecdsa secp}.
Variable flags : Z.
Variable checker : SignatureChecker.
Variable ver : SigVersion.

Lemma step_nop code ops rest : 0 <= ops <= 1 -> eval_step flags checker ver (OpResult OP_NOP [] rest) (mkEval [] [] [] code ops) = Ok (mkEval [] [] [] code (ops + 1)).
Proof. intros H. assert (ops = 0 \/ ops = 1) as [-> | ->] by lia; reflexivity. Qed.
Lemma step_same x code rest : eval_step flags checker ver (OpResult OP_EQUAL [] rest) (mkEval [x; x] [] [] code 3) = Ok (mkEval [vchTrue] [] [] code 4).
Proof. unfold eval_step. cbn. by rewrite (proj2 (bytes_eqb_eq x x) eq_refl). Qed.

Lemma eval_open_script id tail : length id = 20%nat -> key_tail tail -> zlen tail <= 521 -> EvalScript flags checker ver [] (open_script id ++ tail) = Ok [vchTrue].
Proof.
  intros Hl Ht Htl. unfold EvalScript. assert (Hz : zlen (open_script id ++ tail) = 25 + zlen tail) by (unfold open_script, zlen; rewrite !length_app, Hl; cbn [length]; lia). rewrite Hz.
  destruct (Z.ltb_spec MAX_SCRIPT_SIZE (25 + zlen tail)) as [Hbig|_]; [unfold MAX_SCRIPT_SIZE in Hbig; lia|]. set (code := open_script id ++ tail) at 3. unfold open_script. rewrite <-!app_assoc. cbn [app].
  rewrite (eval_op flags checker ver OP_NOP) by done. rewrite step_nop by lia. rewrite (eval_op flags checker ver OP_NOP) by done. rewrite step_nop by lia.
  rewrite (eval_loop_step _ _ _ _ _ _ (GetOp_id id _ Hl)). cbn [op_rest]. change (0 + 1 + 1) with 2. rewrite step_id by done. change (check_size (mkEval [id] [] [] code 2)) with (Ok (E := ScriptError) (mkEval [id] [] [] code 2)). cbv beta iota. cbn [app].
  rewrite (eval_op flags checker ver OP_DUP) by done. change (eval_step flags checker ver (OpResult OP_DUP [] (OP_EQUAL :: tail)) (mkEval [id] [] [] code 2)) with (Ok (E := ScriptError) (mkEval [id; id] [] [] code 3)). cbv beta iota.
  rewrite (eval_op flags checker ver OP_EQUAL) by done. rewrite step_same. by destruct (eval_tail_ok flags checker ver tail [vchTrue] code Ht Htl) as (st & -> & -> & ->).
Qed.
End Open.

(** C26. The address of an asset output need not be able to spend it. Whatever stands
    around bytes 3 to 22 of its script, the output of a transfer is read as paying to
    the address with that key hash: the script of open_script and that of the address
    itself give the same asset, amount and address. Yet the first is spent by anyone,
    with an empty input and no signature, under all the flags blocks and mempool use. *)
Theorem asset_address_not_enforced `{secp : Secp256k1} {ec : Secp256k1Ecdsa secp} (ap : AssetParams) (flags : Z) (checker : SignatureChecker) (t : CAssetTransfer) (id : bytes) :
  length id = 20%nat -> wf_transfer t -> flags_fine flags = true ->
  TransferAssetFromScript ap (transfer_ConstructTransaction t (open_script id)) = Some (t, EncodeDestination (ap_prefixes ap) (CKeyID id)) /\
  TransferAssetFromScript ap (transfer_ConstructTransaction t (open_script id)) = TransferAssetFromScript ap (transfer_ConstructTransaction t (P2PKH id)) /\
  VerifyScript flags checker [] (transfer_ConstructTransaction t (open_script id)) [] = Some (Ok tt).
Proof.
  intros Hl Ht Hf. destruct (transfer_roundtrip t Ht) as [Hr Hz]. assert (Hlen : length (open_script id) = 25%nat) by (unfold open_script; rewrite !length_app, Hl; done).
  assert (Hread : TransferAssetFromScript ap (transfer_ConstructTransaction t (open_script id)) = Some (t, EncodeDestination (ap_prefixes ap) (CKeyID id))).
  { unfold TransferAssetFromScript, transfer_ConstructTransaction. erewrite (from_script_tail ap IsScriptTransferAsset dec_transfer (open_script id) RVN_T (enc_transfer t) TX_TRANSFER_ASSET false t); try done.
    - unfold open_script. cbn [app drop]. by rewrite drop_0, take_app_length' by done.
    - intros s n H. unfold IsScriptTransferAsset. by rewrite H. }
  split_and!; [done|by rewrite TransferAssetFromScript_built|]. unfold transfer_ConstructTransaction, VerifyScript. rewrite andb_false_r.
  set (tail := asset_tail RVN_T (enc_transfer t)). assert (Ht' : key_tail tail) by (right; by eexists).
  assert (Htl : zlen tail <= 521) by (subst tail; unfold asset_tail; rewrite zlen_cons, zlen_app; pose proof (zlen_push_le (RVN_R :: RVN_V :: RVN_N :: RVN_T :: enc_transfer t)) as Hp; rewrite !zlen_cons in Hp; change (zlen [OP_DROP]) with 1; lia).
  change (EvalScript flags checker SIGVERSION_BASE [] []) with (Ok (E := ScriptError) (@nil bytes)). cbv iota. rewrite eval_open_script by done. change (negb (eval_true [vchTrue])) with false. cbv iota.
  assert (Hw : IsWitnessProgram (open_script id ++ tail) = None /\ IsPayToScriptHash (open_script id ++ tail) = false).
  { unfold IsWitnessProgram, IsPayToScriptHash, open_script. cbn [app sat nth]. split; [by destruct (_ || _)|]. by rewrite andb_false_r. }
  destruct Hw as [Hw Hp]. unfold verify_witness. rewrite Hw, Hp, andb_false_r.
  unfold flags_fine in Hf. unfold verify_end. destruct (has flags SCRIPT_VERIFY_CLEANSTACK), (has flags SCRIPT_VERIFY_P2SH), (has flags SCRIPT_VERIFY_WITNESS); done.
Qed.

(** An owner token, with the witness, clean stack and minimal data rules on. *)
Lemma asset_address_not_enforced_witness :
  let flags := Z.lor (Z.lor SCRIPT_VERIFY_P2SH SCRIPT_VERIFY_WITNESS) (Z.lor SCRIPT_VERIFY_CLEANSTACK SCRIPT_VERIFY_MINIMALDATA) in
  let checker := TransactionSignatureChecker (secp := toy_secp256k1) (ec := toy_ecdsa) (unsigned_tx []) 0 0 in
  VerifyScript (secp := toy_secp256k1) (ec := toy_ecdsa) flags checker [] (transfer_ConstructTransaction (mkTransfer (bs "ALICE!") COIN [] 0) (open_script alice_id)) [] = Some (Ok tt).
Proof.
  intros flags checker. refine (proj2 (proj2 (asset_address_not_enforced (secp := toy_secp256k1) (ec := toy_ecdsa) main_assets flags checker (mkTransfer (bs "ALICE!") COIN [] 0) alice_id eq_refl _ eq_refl))).
  unfold wf_transfer, wf_bytes. split_and!; try done; [by repeat constructor|by left].
Defined.
