(* ===== verification/Authority.v ===== *)
(** * Who spends, issues and reissues on the active chain

    [CheckInputs] and [GetBlockScriptFlags] of src/src/validation.cpp, as the script
    rule of the loop of [ConnectBlock]; and what connecting a block on the active
    chain says about the keys that signed its transactions. *)

From stdpp Require Import gmap.
From S2P Require Import Prelude OrdMap Serialize Script Handle Slots Tx Merkle Chain Base58 Regex AssetNames AssetScripts AssetTx XAssign XClaim VerifyAssets.
From S2P Require Import Pow Headers Draw Key Attest Registry Coinbase Blocks CheckTx Coins Producer AssetCache Utxo TxAssets Supply Reorg Active Ecdsa Interp Sighash Spend.

Local Open Scope string_scope.
Local Open Scope list_scope.
Local Open Scope Z_scope.

(** ** Flags *)

Definition MANDATORY_SCRIPT_VERIFY_FLAGS : Z := SCRIPT_VERIFY_P2SH.
Definition or_flags (l : list Z) : Z := fold_right Z.lor 0 l.
Definition STANDARD_SCRIPT_VERIFY_FLAGS : Z :=
  or_flags [MANDATORY_SCRIPT_VERIFY_FLAGS; SCRIPT_VERIFY_DERSIG; SCRIPT_VERIFY_STRICTENC; SCRIPT_VERIFY_MINIMALDATA; SCRIPT_VERIFY_NULLDUMMY;
    SCRIPT_VERIFY_DISCOURAGE_UPGRADABLE_NOPS; SCRIPT_VERIFY_CLEANSTACK; SCRIPT_VERIFY_MINIMALIF; SCRIPT_VERIFY_NULLFAIL; SCRIPT_VERIFY_CHECKLOCKTIMEVERIFY;
    SCRIPT_VERIFY_CHECKSEQUENCEVERIFY; SCRIPT_VERIFY_LOW_S; SCRIPT_VERIFY_WITNESS; SCRIPT_VERIFY_DISCOURAGE_UPGRADABLE_WITNESS_PROGRAM; SCRIPT_VERIFY_WITNESS_PUBKEYTYPE].
Definition STANDARD_NOT_MANDATORY_VERIFY_FLAGS : Z := Z.land STANDARD_SCRIPT_VERIFY_FLAGS (Z.lnot MANDATORY_SCRIPT_VERIFY_FLAGS).

(** The flags of a block with the time [nBlockTime]; [fWitness] is
    [IsWitnessEnabled]. *)
Definition GetBlockScriptFlags (nBlockTime : Z) (nBIP66Enabled nBIP65Enabled nCSVEnabled fWitness : bool) : Z :=
  or_flags [if 1333238400 <=? nBlockTime then SCRIPT_VERIFY_P2SH else SCRIPT_VERIFY_NONE; if nBIP66Enabled then SCRIPT_VERIFY_DERSIG else 0;
    if nBIP65Enabled then SCRIPT_VERIFY_CHECKLOCKTIMEVERIFY else 0; if nCSVEnabled then SCRIPT_VERIFY_CHECKSEQUENCEVERIFY else 0;
    if fWitness then Z.lor SCRIPT_VERIFY_WITNESS SCRIPT_VERIFY_NULLDUMMY else 0].

Lemma block_flags_fine nBlockTime b66 b65 csv fWitness : 1333238400 <= nBlockTime -> flags_fine (GetBlockScriptFlags nBlockTime b66 b65 csv fWitness) = true.
Proof. intros H. unfold GetBlockScriptFlags. destruct (Z.leb_spec 1333238400 nBlockTime); [|lia]. by destruct b66, b65, csv, fWitness. Qed.

Section Scripts.
Context `{secp : Secp256k1} {ec : Secp256k1Ecdsa secp}.
Variable ap : AssetParams.
Variable base : view.
Variable flags : Z.

(** [CScriptCheck::operator()] *)
Definition script_check (out : CTxOut) (tx : CTransaction) (n : nat) (i : CTxIn) (flags : Z) : option (result unit ScriptError) :=
  VerifyScript flags (TransactionSignatureChecker tx n (nValue out)) (scriptSig i) (scriptPubKey out) (scriptWitness i).

(** The rejection of a script: a failure of standard rules alone is no misbehaviour. *)
Definition script_reject (out : CTxOut) (tx : CTransaction) (n : nat) (i : CTxIn) (e : ScriptError) : option (Z * string) :=
  let mandatory := (100, "mandatory-script-verify-flag-failed (" ++ ScriptErrorString e ++ ")")%string in
  if has flags STANDARD_NOT_MANDATORY_VERIFY_FLAGS then
    match script_check out tx n i (Z.land flags (Z.lnot STANDARD_NOT_MANDATORY_VERIFY_FLAGS)) with
    | None => None
    | Some (Ok _) => Some (0, "non-mandatory-script-verify-flag (" ++ ScriptErrorString e ++ ")")%string
    | Some (Err _) => Some mandatory
    end
  else Some mandatory.

(** The inner option is the rejection, the outer a failed assertion. *)
Fixpoint check_scripts (c : CCoinsMap) (tx : CTransaction) (n : nat) (ins : list CTxIn) : option (option (Z * string)) :=
  match ins with
  | [] => Some None
  | i :: ins =>
      if IsXAccountDummyInput ap tx n then check_scripts c tx (S n) ins else
      let '(c, coin) := AccessCoin base c (prevout i) in
      if IsSpent coin then None else
      match script_check (coin_out coin) tx n i flags with
      | None => None
      | Some (Ok _) => check_scripts c tx (S n) ins
      | Some (Err e) => match script_reject (coin_out coin) tx n i e with None => None | Some r => Some (Some r) end
      end
  end.
Definition CheckInputs (c : CCoinsMap) (tx : CTransaction) (fScriptChecks : bool) : option (option (Z * string)) :=
  if negb (IsCoinBase tx) && fScriptChecks then check_scripts c tx 0 (vin tx) else Some None.

(** The rules of the loop that follow the assets: sequence locks and signature
    operations, then the scripts. A failed assertion of [CheckInputs] does not
    happen, by [check_inputs_total]. *)
Definition script_rules (before : Z -> CCoinsMap -> CTransaction -> option (Z * string)) (nHeight : Z) (c : CCoinsMap) (tx : CTransaction) : option (Z * string) :=
  match before nHeight c tx with
  | Some e => Some e
  | None => match CheckInputs c tx true with Some r => r | None => Some (0, "assertion") end
  end.

Hypothesis Hbase : unspent_view base.
Hypothesis Hflags : flags_fine flags = true.

Lemma mandatory_fine : flags_fine (Z.land flags (Z.lnot STANDARD_NOT_MANDATORY_VERIFY_FLAGS)) = true.
Proof.
  assert (H : forall f, Z.land (Z.lnot STANDARD_NOT_MANDATORY_VERIFY_FLAGS) f = 0 -> has (Z.land flags (Z.lnot STANDARD_NOT_MANDATORY_VERIFY_FLAGS)) f = false).
  { intros f E. unfold has. by rewrite <-Z.land_assoc, E, Z.land_0_r. }
  unfold flags_fine. by rewrite (H SCRIPT_VERIFY_CLEANSTACK), (H SCRIPT_VERIFY_WITNESS).
Qed.

Definition input_verified (v : view) (tx : CTransaction) (n : nat) (i : CTxIn) : Prop :=
  exists coin, v !! prevout i = Some coin /\ script_check (coin_out coin) tx n i flags = Some (Ok tt).

Lemma check_scripts_view tx ins : forall n c, cache_ok base c -> dummies ap tx n ins -> inputs_in (view_of base c) ins ->
  exists r, check_scripts c tx n ins = Some r /\
    (r = None -> forall k i, ins !! k = Some i -> IsXAccountDummyPrevout (prevout i) = false -> input_verified (view_of base c) tx (n + k) i).
Proof.
  induction ins as [|i ins IH]; intros n c Hc Hd Hin; [by exists None|]. apply dummies_cons in Hd as [Hi Hd]. apply Forall_cons in Hin as [H Hin]. cbn [check_scripts]. rewrite Hi.
  destruct (IsXAccountDummyPrevout (prevout i)) eqn:E.
  { destruct (IH (S n) c Hc Hd Hin) as (r & Er & Hr). exists r. split; [done|]. intros Hn [|k] j Hj Hdj; [injection Hj as <-; congruence|]. rewrite <-Nat.add_succ_comm. by apply Hr. }
  destruct (H eq_refl) as [coin Ec]. destruct (AccessCoin_view base Hbase c (prevout i) Hc) as (c1 & Hc1 & Hv1 & Hacc). rewrite Ec in Hacc. rewrite Hacc, (view_of_unspent base c Hbase _ _ Ec).
  destruct (VerifyScript_total flags (TransactionSignatureChecker tx n (nValue (coin_out coin))) (scriptSig i) (scriptPubKey (coin_out coin)) (scriptWitness i) Hflags) as [r Er].
  unfold script_check at 1. rewrite Er. destruct r as [[]|e].
  - rewrite <-Hv1 in Hin. destruct (IH (S n) c1 Hc1 Hd Hin) as (r & Er' & Hr). exists r. split; [done|]. rewrite Hv1 in Hr. intros Hn [|k] j Hj Hdj.
    + injection Hj as <-. rewrite Nat.add_0_r. by exists coin.
    + rewrite <-Nat.add_succ_comm. by apply Hr.
  - unfold script_reject, script_check. destruct (has flags _); [|by eexists].
    destruct (VerifyScript_total _ (TransactionSignatureChecker tx n (nValue (coin_out coin))) (scriptSig i) (scriptPubKey (coin_out coin)) (scriptWitness i) mandatory_fine) as [[u|e'] ->]; by eexists.
Qed.

(** [CheckInputs] fails no assertion, and what it accepts is verified. *)
Lemma check_inputs_total c tx : cache_ok base c -> dummies ap tx 0 (vin tx) -> inputs_in (view_of base c) (vin tx) -> IsCoinBase tx = false ->
  exists r, CheckInputs c tx true = Some r /\ (r = None -> forall n i, vin tx !! n = Some i -> IsXAccountDummyPrevout (prevout i) = false -> input_verified (view_of base c) tx n i).
Proof. intros Hc Hd Hin Hcb. unfold CheckInputs. rewrite Hcb. by apply (check_scripts_view tx (vin tx) 0 c). Qed.
End Scripts.

(** ** One transaction of a block *)

(** The loop of [ConnectBlock] came to a transaction with what it made of those
    before. *)
Lemma connect_txs_at {St} ap base (rules : loop_rules St) h tx rest past : forall s c fees r,
  connect_txs ap base rules s c h fees (past ++ tx :: rest) = Some (Ok r) ->
  exists s1 c1 fees1 undos r1, connect_txs ap base rules s c h fees past = Some (Ok (s1, c1, fees1, undos)) /\ connect_txs ap base rules s1 c1 h fees1 (tx :: rest) = Some (Ok r1).
Proof.
  induction past as [|p past IH]; intros s c fees r.
  { cbn [app]. intros E. by exists s, c, fees, [], r. }
  cbn [app connect_txs]. destruct (if IsCoinBase p then _ else _) as [[c0 [f0|]]|]; [|done..]. destruct (lr_check _ _ _ _ _) as [[c1 [s1|]]|]; [|done..].
  destruct (UpdateCoins _ _ _ _) as [[c2 u]|]; [|done]. destruct (lr_update _ _ _ _ _) as [s2|]; [|done].
  destruct (connect_txs ap base rules s2 c2 h f0 (past ++ tx :: rest)) as [[r'|]|] eqn:E; [|done..]. destruct (IH _ _ _ _ E) as (s3 & c3 & f3 & us & r3 & E3 & E4). rewrite E3. intros _. by exists s3, c3, f3, (u :: us), r3.
Qed.
Lemma fresh_prefix v l1 l2 h : fresh_block v (l1 ++ l2) h -> fresh_block v l1 h.
Proof. revert v. induction l1 as [|tx l1 IH]; intros v; [done|]. cbn [app fresh_block]. intros H Hin. destruct (H Hin) as [Hf Hr]. split; [done|by apply IH]. Qed.

Section At.
Context `{secp : Secp256k1}.
Variable BlockHash : CBlockHeader -> bytes.
Variable BlockHashFull : CBlockHeader -> bytes * bytes.
Variable hp : HeaderParams.
Variable bp : BlockParams.
Variable params : CChainParams.
Variable ap : AssetParams.

(** The check of the loop accepted it on a cache of the coins at that point. *)
Lemma connect_at {St} good (rules : loop_rules St) Inv s h base c hist block past tx rest r :
  nBIP34Enabled bp = true -> chain_ok h base c hist -> extends BlockHash BlockHashFull hp bp params ap false h hist block -> Forall good (vtx block) ->
  rules_keep base (fun tx => tx_checked ap false tx /\ good tx) rules Inv -> Inv [] (view_of base c) s ->
  connect_coins ap base rules s c (h + 1) (nSubsidyHalvingInterval params) (vtx block) = Some (Ok r) -> vtx block = past ++ tx :: rest -> IsCoinBase tx = false ->
  let v := block_view (view_of base c) past (h + 1) in
  exists s1 c1 c2 s2, cache_ok base c1 /\ view_of base c1 = v /\ inputs_in v (vin tx) /\ tx_checked ap false tx /\ Inv past v s1 /\ lr_check rules (h + 1) s1 c1 tx = Some (c2, Ok s2).
Proof.
  intros Hb Hok Hchk Hgood Hrules Hinv Hc Etx Ecb v. destruct (checked_spec BlockHash BlockHashFull hp bp params ap false _ _ _ _ _ Hb Hok Hchk) as (cb & txs & Evtx & _ & _ & Hall & Hfresh & _).
  rewrite <-Evtx, Etx in Hall, Hfresh. rewrite Etx in Hc, Hgood. destruct Hok as (Hh & Hbase & Hcache & Hk & _). unfold connect_coins in Hc.
  destruct (connect_txs ap base rules s c (h + 1) 0 (past ++ tx :: rest)) as [[[[[s0 c0] f0] u0]|]|] eqn:E; [|done..]. clear Hc.
  destruct (connect_txs_at _ _ _ _ _ _ _ _ _ _ _ E) as (s1 & c1 & fees1 & us & r1 & E1 & E2). pose proof (proj2 (Forall_and _ _) (conj Hall Hgood)) as Hboth.
  pose proof Hboth as [Hpast [[Ht _] _]%Forall_cons]%Forall_app.
  destruct (connect_txs_view ap base Hbase _ rules Inv (fun tx H => tx_checked_ok ap false tx (proj1 H)) Hrules (h + 1) past [] s c 0 ltac:(lia) Hcache Hk Hpast (fresh_prefix _ _ _ _ Hfresh)) as (r' & Er & Hr); [by vm_compute|done|].
  rewrite E1 in Er. injection Er as <-. destruct (Hr _ _ _ _ eq_refl) as (R1 & R2 & R3 & _ & _ & _ & _ & R8). rewrite R2 in R8. fold v in R2, R8. destruct (tx_checked_ok ap false tx Ht) as [Hs Hvo].
  cbn [connect_txs] in E2. rewrite Ecb in E2. destruct (CheckTxInputs_view ap base Hbase c1 tx (h + 1) R1 R3 Hs Ecb Hvo) as (c2 & r2 & EC & Hc2 & Hv2 & Hr2). rewrite EC in E2.
  destruct r2 as [fee|]; [|done]. destruct (Hr2 fee eq_refl) as (Hin & _). rewrite R2 in Hin, Hv2. destruct (negb (MoneyRange _)); [done|].
  destruct (lr_check rules (h + 1) s1 c2 tx) as [[c3 [s3|]]|] eqn:El; [|done..]. by exists s1, c2, c3, s3.
Qed.
End At.

(** ** The active chain *)

(** The script of an address: that of the key, or the same with an asset. *)
Definition pays_to (script : CScript) (id : bytes) : Prop := length id = 20%nat /\ exists tail, script = P2PKH id ++ tail /\ key_tail tail.

Lemma asset_pays_to script x id : IsAssetScript script = Some x -> length id = 20%nat -> take 25 script = P2PKH id -> pays_to script id.
Proof.
  intros Ha Hl Ht. split; [done|]. exists (drop 25 script). rewrite <-Ht, take_drop. split; [done|]. right. pose proof (IsAssetScript_long _ _ Ha) as Hlong. unfold IsAssetScript in Ha.
  destruct (31 <? zlen script); [|done]. cbn [negb] in Ha. destruct (Z.eqb_spec (sat script 25) OP_RVN_ASSET) as [H25|]; [|done].
  destruct (drop 25 script) as [|b data] eqn:Ed; [apply (f_equal length) in Ed; rewrite length_drop in Ed; unfold zlen in Hlong; cbn in Ed; lia|].
  exists data. f_equal. rewrite <-H25. unfold sat. rewrite <-(Nat.add_0_r 25), <-nth_skipn. change (skipn 25 script) with (drop 25 script). by rewrite Ed.
Qed.
Lemma units_asset ap name script : 0 < script_units ap name script -> is_Some (IsAssetScript script).
Proof. unfold script_units, GetAssetData. destruct (IsAssetScript script); [done|]. cbn. lia. Qed.

Section Authority.
Context `{secp : Secp256k1} {ec : Secp256k1Ecdsa secp}.
Variable BlockHash : CBlockHeader -> bytes.
Variable BlockHashFull : CBlockHeader -> bytes * bytes.
Variable hp : HeaderParams.
Variable bp : BlockParams.
Variable params : CChainParams.
Variable ap : AssetParams.
Hypothesis Hprefixes : prefixes_ok (ap_prefixes ap).
Variable reissue_at : bytes * Z -> bytes.
Variable fAssetIndex : bool.
Variable unset : Z.
Variable flags : Z.

(** An input spends a coin and its script is accepted; if the coin is held by an
    address, a key of that address signed the transaction. *)
Definition signed_spend (v : view) (tx : CTransaction) (n : nat) (coin : Coin) : Prop :=
  exists i, vin tx !! n = Some i /\ v !! prevout i = Some coin /\ script_check (coin_out coin) tx n i flags = Some (Ok tt) /\
    forall id, pays_to (scriptPubKey (coin_out coin)) id -> signed_by flags tx n (nValue (coin_out coin)) (scriptPubKey (coin_out coin)) id.
(** An input spends units of an asset so; the address is that of the first 25 bytes. *)
Definition signed_units (v : view) (tx : CTransaction) (name : bytes) : Prop :=
  exists n coin, signed_spend v tx n coin /\ 0 < coin_units ap name coin /\
    forall id, length id = 20%nat -> take 25 (scriptPubKey (coin_out coin)) = P2PKH id -> signed_by flags tx n (nValue (coin_out coin)) (scriptPubKey (coin_out coin)) id.

Lemma verified_signed v tx n i : vin tx !! n = Some i -> input_verified flags v tx n i -> exists coin, v !! prevout i = Some coin /\ signed_spend v tx n coin.
Proof.
  intros Hi (coin & Ec & Hs). exists coin. split; [done|]. exists i. split_and!; try done. intros id (Hl & tail & Es & Ht). unfold script_check in Hs. rewrite Es in Hs |- *.
  by destruct (key_script_signed _ _ _ _ _ _ _ _ Hl Ht Hs).
Qed.
Lemma spends_signed v tx name : (forall n i, vin tx !! n = Some i -> IsXAccountDummyPrevout (prevout i) = false -> input_verified flags v tx n i) ->
  spends ap v tx name -> signed_units v tx name.
Proof.
  intros Hv (i & coin & Hi & Hd & Ec & Hu). apply list_elem_of_lookup_1 in Hi as [n Hn]. destruct (verified_signed v tx n i Hn (Hv n i Hn Hd)) as (coin' & Ec' & Hs). assert (coin' = coin) as -> by congruence.
  exists n, coin. split_and!; [done..|]. intros id Hl Ht. destruct Hs as (j & _ & _ & _ & Hsig). apply Hsig. destruct (units_asset _ _ _ Hu) as [x Ea]. by apply (asset_pays_to _ x).
Qed.

End Authority.

(** ** A block in which an owner token is moved *)

Lemma ids_distinct ap txs h : forall hist : history, NoDup (map GetHash (txs ++ map fst hist)) -> ids_new ap hist txs h.
Proof.
  induction txs as [|tx txs IH]; intros hist Hnd; [exact I|]. cbn [app map ids_new] in *. apply NoDup_cons in Hnd as [Hn Hnd]. split.
  - intros t h' Ht He. exfalso. apply Hn. rewrite He. apply (list_elem_of_fmap_2 GetHash). apply elem_of_app. right. exact (list_elem_of_fmap_2 fst _ _ Ht).
  - apply IH. cbn [map fst]. rewrite <-(Permutation_middle txs (map fst hist) tx). cbn [app map]. apply NoDup_cons. exact (conj Hn Hnd).
Qed.

(** Claimed by an address, and given away with its signature in the same block. *)
Definition key_claim : CTransaction := Eval vm_compute in claim_tx (bs "alice") (MakeXAccountAssignmentScript (bs "alice")) alice_id (bs "ALICE").
Definition token_script : CScript := Eval vm_compute in scriptPubKey (nth 1 (vout key_claim) CTxOut_null).
Definition token_out : COutPoint := Eval vm_compute in mkOutPoint (GetHash key_claim) 1.
Definition give_token (ssig : CScript) : CTransaction :=
  mkTx 2 [mkTxIn token_out ssig SEQUENCE_FINAL []] [mkTxOut 0 (transfer_ConstructTransaction (mkTransfer (bs "ALICE!") COIN [] 0) (P2PKH (repeat 4 20)))] 0.
Definition alice_sig : bytes := Eval vm_compute in toy_signature (repeat 9 32) (SignatureHash token_script (give_token []) 0 SIGHASH_ALL 0 SIGVERSION_BASE) SIGHASH_ALL.
Definition token_transfer : CTransaction := Eval vm_compute in give_token (push alice_sig ++ push alice_key).
Definition signed_block : CBlock :=
  Eval vm_compute in
  match assemble (H := toy_secp256k1) toy_main_hp toy_bp toy_params (toy_env (main_genesis_nTime + 70)) Producer.toy_node ([key_claim; token_transfer], 0)
    0x30000000 (main_genesis_nTime + 70) (toy_script 3) 0 Producer.toy_tip with
  | Some (b, _, _) => b
  | None => mkBlock (mkHeader 0 [] [] 0 0 0 0 0 []) []
  end.
Definition all_flags : Z := GetBlockScriptFlags main_genesis_nTime true true true true.
Local Abbreviation signed_connected :=
  (ConnectTip toy_hash toy_params main_assets false 0 no_coins quiet_env (script_rules (secp := toy_secp256k1) (ec := toy_ecdsa) main_assets no_coins all_flags (fun _ _ _ => None))
    true empty_xstate new_node no_entries (0 + 1) signed_block).

Lemma signed_checked : checked (secp := toy_secp256k1) toy_hash toy_full toy_main_hp toy_bp toy_params main_assets false 0 signed_block.
Proof.
  split; [|split; [|done]].
  - exists empty_xstate, empty_pool, true, (nd_arena Producer.toy_node), false, false. vm_compute. reflexivity.
  - exists (nd_arena Producer.toy_node), toy_seed, 0%nat, Producer.toy_tip. split; [exact toy_node_tip|]. split; [reflexivity|]. vm_compute. reflexivity.
Qed.
Lemma signed_ids : ids_new main_assets [] (vtx signed_block) (0 + 1).
Proof. apply ids_distinct. apply (proj1 (bool_decide_eq_true (NoDup (map GetHash (vtx signed_block ++ map fst []))))). vm_compute. reflexivity. Qed.
Lemma signed_good : Forall (tx_good main_assets (fun _ => []) (passets new_node)) (vtx signed_block).
Proof.
  apply List.Forall_forall. intros tx Hin. split; [apply known_plain; revert tx Hin; apply List.Forall_forall; vm_compute; repeat constructor|].
  apply List.Forall_forall. intros op _. reflexivity.
Qed.
Lemma signed_connects : exists c w st tip, signed_connected = Some (Ok (c, w, st, tip)).
Proof.
  assert (H : is_ok signed_connected = true) by (vm_compute; reflexivity). revert H. generalize signed_connected. intros [[[[[c w] st] tip]|]|]; [|done..]. intros _. by exists c, w, st, tip.
Qed.

