(* ===== verification/Gossip.v ===== *)
(** The heartbeat gossip of src/src/net_processing.cpp: the [xhb] message a node
    sends for itself, and the handler that reads one from a peer, checks and
    records it, and decides whether to relay it. *)

From S2P Require Import Prelude OrdMap Sha256 Ripemd160 Script Serialize Handle Slots Key Attest Registry.

Local Open Scope Z_scope.

Record xhb_msg := mkXhb {
  nHbTime : Z;
  hb_script : CScript;
  hb_xHandle : bytes;
  hb_xUserId : Z;
  hb_xVerified : bool;
  vchSig : bytes;
  vchAttest : bytes;
}.

(** [bool] on the wire: one byte, any non-zero value is true. *)
Definition c_bool : codec bool :=
  mkCodec (fun b => le_bytes 1 (if b : bool then 1 else 0))
          (rbind (dec (c_uint 1)) (fun f => rret (negb (f =? 0)))).

(** [msgMaker.Make(NetMsgType::XHB, ...)] *)
Definition encode_xhb (m : xhb_msg) : bytes :=
  enc (c_int 8) (nHbTime m) ++ enc c_bytes (hb_script m) ++ enc c_bytes (hb_xHandle m)
  ++ enc (c_uint 8) (hb_xUserId m) ++ enc c_bool (hb_xVerified m) ++ enc c_bytes (vchSig m)
  ++ enc c_bytes (vchAttest m).

(** A field that is read only when bytes are left. *)
Definition if_more {A} (d : reader A) (default : A) : reader A :=
  fun s => match s with [] => Some (default, s) | _ => d s end.

Definition parse_xhb : reader xhb_msg :=
  (time <-- dec (c_int 8) ;;
   script <-- dec c_bytes ;;
   p <-- if_more (dec (c_pair c_bytes (c_uint 8))) ([], 0) ;;
   verified <-- if_more (dec c_bool) false ;;
   sig <-- if_more (dec c_bytes) [] ;;
   attest <-- if_more (dec c_bytes) [] ;;
   rret (mkXhb time script p.1 p.2 verified sig attest))%reader.

(** What the handler leaves: its return value, the misbehaviour score charged to
    the peer, the stamps, the registry, the relay times and the message to
    relay. *)
Record xhb_result := mkXhbResult {
  xr_ret : bool;
  xr_misbehaving : Z;
  xr_att : AttestState;
  xr_reg : Registry;
  xr_lastRelay : omap bytes Z;
  xr_relay : option xhb_msg;
}.

Section Gossip.
Context `{Secp256k1}.

(** The relay throttle: at most once in fifteen seconds per node id. *)
Definition relay_step (now : Z) (lastRelay : omap bytes Z) (id : bytes) : bool * omap bytes Z :=
  match om_find id lastRelay with
  | Some t => if 15 <=? now - t then (true, om_insert id now lastRelay) else (false, lastRelay)
  | None => (true, om_insert id now lastRelay)
  end.

(** The stamp part of the handler: whether the sender's stamp or a lookup
    attests the node, with the stamp to carry on, or [None] when a lookup node
    drops the message; and the table. *)
Definition xhb_stamp (env : Env) (att : AttestState) (script : CScript) (xHandle attest : bytes)
    : option (bool * bytes) * AttestState :=
  let params := env_params env in
  let id := IdFromScript script in
  if VerifyAttestation params id xHandle attest then
    (Some (true, attest), StoreAttestation params att id xHandle attest)
  else if RequireXAttestation params then
    let '(ok, sig, att') := LookupAndAttest params (env_lookup env) att script xHandle in
    if ok then (Some (true, sig), att')
    else if IsXLookupNode (env_lookup env) att' then (None, att')
    else (Some (false, sig), att')
  else (Some (false, attest), att).

Definition ProcessXhb (env : Env) (al : Allowlist) (att : AttestState) (r : Registry)
    (lastRelay : omap bytes Z) (vRecv : bytes) : xhb_result :=
  let params := env_params env in
  let now := GetTime env in
  let stop ret score att := mkXhbResult ret score att r lastRelay None in
  match parse_xhb vRecv with
  | None => stop false 1 att
  | Some (m, _) =>
      let script := hb_script m in
      let xHandle := hb_xHandle m in
      if (zlen script =? 0) || (MAX_HEARTBEAT_SCRIPT <? zlen script) then stop false 1 att else
      if (MAX_X_HANDLE <? zlen xHandle) || (MAX_HEARTBEAT_SIG <? zlen (vchSig m)) then stop false 1 att else
      if (now + 600 <? nHbTime m) || (nHbTime m <? now - 600) then stop true 0 att else
      if negb (VerifyHeartbeatSig script (nHbTime m) xHandle (hb_xUserId m) (vchSig m) (hb_xVerified m))
      then stop false 10 att else
      if negb (hb_xVerified m) then stop true 0 att else
      let id := IdFromScript script in
      let '(checked, att) := xhb_stamp env att script xHandle (vchAttest m) in
      match checked with
      | None => stop true 0 att
      | Some (attested, stamp) =>
          let attested := attested || HasAttestation att id in
          let '(ok, r') :=
            if attested || negb (RequireXAttestation params)
            then Heartbeat env al att r script now xHandle (hb_xUserId m) (hb_xVerified m)
            else (true, r) in
          if negb ok then mkXhbResult true 0 att r' lastRelay None else
          let '(shouldRelay, lastRelay) := relay_step now lastRelay id in
          mkXhbResult true 0 att r' lastRelay
            (if shouldRelay
             then Some (mkXhb (nHbTime m) script xHandle (hb_xUserId m) (hb_xVerified m) (vchSig m) stamp)
             else None)
      end
  end.

(** ** The sender *)

(** [SignLocalHeartbeat]: with the stored payout key, or with the wallet's key
    for the destination of the local script. *)
Definition SignLocalHeartbeat (env : Env) (g_localPayoutKey : CKey) (walletKey : bytes -> option CKey)
    (r : Registry) (timestamp : Z) : option bytes :=
  if negb (WalletAllowsHeartbeat env) then None else
  let script := localScript r in
  let x := localX r in
  if (zlen script =? 0) || (zlen (xhandle x) =? 0) then None else
  match ExtractDestination script with
  | Some (CKeyID keyID) =>
      if CKey_IsValid g_localPayoutKey &&
         match GetPubKey g_localPayoutKey with
         | Some pub => bytes_eqb (CPubKey_GetID pub) keyID
         | None => false
         end
      then SignHeartbeat g_localPayoutKey timestamp script (xhandle x) 0 (SessionIsXVerified env)
      else
        match walletKey keyID with
        | Some wkey =>
            if CKey_IsValid wkey
            then SignHeartbeat wkey timestamp script (xhandle x) 0 (SessionIsXVerified env)
            else None
        | None => None
        end
  | _ => None
  end.

(** The message a node pushes to a peer for itself. *)
Definition LocalXhb (env : Env) (g_localPayoutKey : CKey) (walletKey : bytes -> option CKey)
    (att : AttestState) (r : Registry) : option xhb_msg :=
  if negb (LocalEligible env r) then None else
  let hbNow := GetTime env in
  if zlen (localScript r) =? 0 then None else
  match SignLocalHeartbeat env g_localPayoutKey walletKey r hbNow with
  | None => None
  | Some hbSig =>
      let attest := match GetAttestation att (IdFromScript (localScript r)) with
                    | Some row => row_sig row | None => [] end in
      Some (mkXhb hbNow (localScript r) (xhandle (localX r)) 0 (SessionIsXVerified env) hbSig attest)
  end.

End Gossip.

(** ** The wire format *)
Definition wf_xhb (m : xhb_msg) : Prop :=
  wf_int 8 (nHbTime m) /\ wf_bytes (hb_script m) /\ wf_bytes (hb_xHandle m) /\
  wf_uint 8 (hb_xUserId m) /\ wf_bytes (vchSig m) /\ wf_bytes (vchAttest m).

#[global] Instance c_bool_roundtrips : Roundtrips c_bool (fun _ => True).
Proof.
  split; [|intros b _; apply le_bytes_ok]. intros b rest _. cbn [enc dec c_bool].
  erewrite rbind_step by (apply (dec_enc (c := c_uint 1)); by destruct b). by destruct b.
Qed.

Lemma if_more_enc {A} (c : codec A) (wf : A -> Prop) `{!Roundtrips c wf} d a rest :
  wf a -> enc c a <> [] -> if_more (dec c) d (enc c a ++ rest) = Some (a, rest).
Proof.
  intros Hw Hne. unfold if_more. rewrite (dec_enc (c := c)) by done. by destruct (enc c a).
Qed.

Lemma WriteCompactSize_nonempty n : WriteCompactSize n <> [].
Proof. unfold WriteCompactSize. by case_ifs. Qed.

Lemma c_bytes_nonempty b rest : enc c_bytes b ++ rest <> [].
Proof.
  cbn [enc c_bytes]. pose proof (WriteCompactSize_nonempty (zlen b)). by destruct (WriteCompactSize (zlen b)).
Qed.

Lemma parse_encode_xhb m : wf_xhb m -> parse_xhb (encode_xhb m) = Some (m, []).
Proof.
  destruct m as [t s h u v sg at0]. intros (Ht & Hs & Hh & Hu & Hsg & Hat).
  cbn [nHbTime hb_script hb_xHandle hb_xUserId vchSig vchAttest] in *.
  assert (Roundtrips (c_int 8) (wf_int 8)) as H8 by (apply c_int_roundtrips; lia).
  unfold parse_xhb, encode_xhb.
  cbn [nHbTime hb_script hb_xHandle hb_xUserId hb_xVerified vchSig vchAttest].
  erewrite rbind_step by (by apply (dec_enc (c := c_int 8))).
  erewrite rbind_step by (by apply (dec_enc (c := c_bytes))).
  rewrite (app_assoc (enc c_bytes h)).
  change (enc c_bytes h ++ enc (c_uint 8) u) with (enc (c_pair c_bytes (c_uint 8)) (h, u)).
  erewrite rbind_step by (apply (if_more_enc (c_pair c_bytes (c_uint 8)) (wf_pair wf_bytes (wf_uint 8))); [done|apply c_bytes_nonempty]).
  erewrite rbind_step by (by apply (if_more_enc c_bool (fun _ => True))).
  erewrite rbind_step
    by (apply (if_more_enc c_bytes wf_bytes); [done|rewrite <-(app_nil_r (enc c_bytes sg)); apply c_bytes_nonempty]).
  rewrite <-(app_nil_r (enc c_bytes at0)).
  erewrite rbind_step by (apply (if_more_enc c_bytes wf_bytes); [done|
    rewrite <-(app_nil_r (enc c_bytes at0)); apply c_bytes_nonempty]).
  done.
Qed.

Section GossipFacts.
Context `{Secp256k1} `{!Secp256k1Laws _}.

Lemma AttestDigest_norm id h norm :
  NormalizeXHandle h = Ok norm -> AttestDigest id h = AttestDigest id norm.
Proof.
  intros Hn. unfold AttestDigest. by rewrite Hn, Normalize_valid by (by eapply Normalize_Ok_valid).
Qed.

Lemma StoreAttestation_has params att id h norm sig :
  NormalizeXHandle h = Ok norm -> VerifyAttestation params id h sig = true ->
  HasAttestation (StoreAttestation params att id h sig) id = true.
Proof.
  intros Hn Hv. unfold StoreAttestation. rewrite Hn.
  assert (VerifyAttestation params id norm sig = true) as ->.
  { revert Hv. unfold VerifyAttestation, VerifyAttestationPub. by rewrite (AttestDigest_norm id h norm). }
  unfold HasAttestation, om_mem. simpl. by rewrite om_find_insert_eq.
Qed.

Lemma LookupAndAttest_has params xl att script h :
  (IsXLookupNode xl att = true -> holds_seed_key params att) ->
  (LookupAndAttest params xl att script h).1.1 = true ->
  HasAttestation (LookupAndAttest params xl att script h).2 (IdFromScript script) = true.
Proof.
  intros Hk. unfold LookupAndAttest. destruct (NormalizeXHandle h) as [norm|] eqn:En; [|done].
  destruct (HasAttestation att (IdFromScript script)) eqn:Eh.
  { by destruct (GetAttestation _ _). }
  destruct (IsXLookupNode xl att) eqn:El; cbn [negb]; [|done].
  destruct (LookupHandle xl norm); [|done..].
  destruct (SignAttestation_verifies params att (IdFromScript script) norm (Hk eq_refl))
    as (sig & -> & _ & Hv).
  intros _. cbn [snd]. eapply StoreAttestation_has; [|exact Hv].
  by apply Normalize_valid, (Normalize_Ok_valid h).
Qed.

Lemma VerifyHeartbeatSig_handle script t h u sig v :
  VerifyHeartbeatSig script t h u sig v = true -> exists norm, NormalizeXHandle h = Ok norm.
Proof. unfold VerifyHeartbeatSig. case_ifs; try done. destruct (NormalizeXHandle h); [eauto|done]. Qed.

Lemma xhb_stamp_ok env att script h sig :
  attest_ok (env_params env) att -> attest_ok (env_params env) (xhb_stamp env att script h sig).2.
Proof.
  intros Ha. unfold xhb_stamp. destruct (VerifyAttestation _ _ _ _); [by apply StoreAttestation_ok|].
  destruct (RequireXAttestation _); [|done].
  pose proof (LookupAndAttest_ok (env_params env) (env_lookup env) att script h Ha) as Hl.
  destruct (LookupAndAttest _ _ _ _ _) as [[ok s] att']. by case_ifs.
Qed.

Lemma xhb_stamp_has env att script h norm sig s att' :
  (IsXLookupNode (env_lookup env) att = true -> holds_seed_key (env_params env) att) ->
  NormalizeXHandle h = Ok norm -> xhb_stamp env att script h sig = (Some (true, s), att') ->
  HasAttestation att' (IdFromScript script) = true.
Proof.
  intros Hk Hn. unfold xhb_stamp. destruct (VerifyAttestation _ _ _ _) eqn:Ev.
  { intros [= <- <-]. by eapply StoreAttestation_has. }
  destruct (RequireXAttestation _); [|done].
  pose proof (LookupAndAttest_has (env_params env) (env_lookup env) att script h Hk) as Hl.
  destruct (LookupAndAttest _ _ _ _ _) as [[[] s'] att'']; cbn [fst snd] in Hl.
  - intros [= <- <-]. by apply Hl.
  - by case_ifs.
Qed.

(** C19. Gossip cannot put a node into the hat by itself. Whatever bytes a peer
    sends, the registry and the table of stamps stay consistent; and if the
    registry changes at all, the bytes were a heartbeat for a script whose key
    signed it, at a time within ten minutes, flagged as X Verified, and on an
    attested network the node id has a stamp afterwards. The registry and the
    stamps were consistent before, and a node that looks up X holds the key of
    the network's attestor, as the start of a node sees to. *)
Theorem gossip_only_signed_and_stamped env al att r lastRelay vRecv :
  let res := ProcessXhb env al att r lastRelay vRecv in
  reg_ok r -> attest_ok (env_params env) att ->
  (IsXLookupNode (env_lookup env) att = true -> holds_seed_key (env_params env) att) ->
  reg_ok (xr_reg res) /\ attest_ok (env_params env) (xr_att res) /\
  (xr_reg res <> r ->
   exists m rest, parse_xhb vRecv = Some (m, rest) /\
     VerifyHeartbeatSig (hb_script m) (nHbTime m) (hb_xHandle m) (hb_xUserId m) (vchSig m) true = true /\
     GetTime env - 600 <= nHbTime m <= GetTime env + 600 /\
     (RequireXAttestation (env_params env) = true ->
      HasAttestation (xr_att res) (IdFromScript (hb_script m)) = true)).
Proof.
  cbv zeta. intros Hr Ha Hk. unfold ProcessXhb.
  destruct (parse_xhb vRecv) as [[m rest]|]; [|done].
  do 2 (match goal with |- context [if ?b then mkXhbResult _ _ _ _ _ _ else _] => destruct b end; [done|]).
  destruct (Z.ltb_spec (GetTime env + 600) (nHbTime m)); cbn [orb]; [done|].
  destruct (Z.ltb_spec (nHbTime m) (GetTime env - 600)); [done|].
  destruct (VerifyHeartbeatSig _ _ _ _ _ _) eqn:Ev; cbn [negb]; [|done].
  destruct (hb_xVerified m) eqn:Ex; cbn [negb]; [|done].
  destruct (VerifyHeartbeatSig_handle _ _ _ _ _ _ Ev) as [norm Hn].
  pose proof (xhb_stamp_ok env att (hb_script m) (hb_xHandle m) (vchAttest m) Ha) as Ha'.
  pose proof (xhb_stamp_has env att (hb_script m) (hb_xHandle m) norm (vchAttest m)) as Hh.
  destruct (xhb_stamp _ _ _ _ _) as [[[attested stamp]|] att']; cbn [snd] in Ha'; [|done].
  set (hb := if _ || _ then Heartbeat _ _ _ _ _ _ _ _ _ else _).
  assert (reg_ok hb.2 /\ (hb.2 <> r -> RequireXAttestation (env_params env) = true ->
            HasAttestation att' (IdFromScript (hb_script m)) = true)) as [Hr' Hst].
  { subst hb. destruct attested; cbn [orb].
    - split; [by apply Heartbeat_ok|]. intros _ _. by eapply Hh.
    - destruct (HasAttestation att' _) eqn:Eh; cbn [orb]; [by split; [apply Heartbeat_ok|]|].
      destruct (RequireXAttestation _); cbn [negb]; [done|]. by split; [apply Heartbeat_ok|]. }
  destruct hb as [ok r']. cbn [snd] in *.
  assert (forall b lr rl, reg_ok (xr_reg (mkXhbResult b 0 att' r' lr rl)) /\
    attest_ok (env_params env) (xr_att (mkXhbResult b 0 att' r' lr rl)) /\
    (xr_reg (mkXhbResult b 0 att' r' lr rl) <> r ->
     exists m0 rest0, Some (m, rest) = Some (m0, rest0) /\
     VerifyHeartbeatSig (hb_script m0) (nHbTime m0) (hb_xHandle m0) (hb_xUserId m0) (vchSig m0) true = true /\
     GetTime env - 600 <= nHbTime m0 <= GetTime env + 600 /\
     (RequireXAttestation (env_params env) = true ->
      HasAttestation (xr_att (mkXhbResult b 0 att' r' lr rl)) (IdFromScript (hb_script m0)) = true))) as Hfin.
  { intros. cbn [xr_reg xr_att]. split_and!; [apply Hr'..|apply Ha'|].
    intros Hne. exists m, rest. split_and!; [done..|lia|lia|by apply Hst]. }
  destruct ok; cbn [negb]; [|apply Hfin]. destruct (relay_step _ _ _). apply Hfin.
Qed.

(** ** From a sign-in to the seed's hat *)

Lemma P2PKH_bytes_ok id : bytes_ok id -> bytes_ok (GetScriptForDestination (CKeyID id)).
Proof.
  intros Hi. cbn [GetScriptForDestination]. constructor; [done|]. constructor; [done|].
  apply bytes_ok_app. split; [by apply push_ok|]. by repeat constructor.
Qed.

Lemma valid_handle_bytes h : valid_handle h -> wf_bytes h.
Proof.
  intros [Hl Hc]. unfold MAX_X_HANDLE in Hl. split; [|unfold MAX_SIZE; lia].
  eapply Forall_impl; [exact Hc|]. intros c Hc'. apply handle_char_range in Hc'. unfold byte_ok. lia.
Qed.

(** The local node's message: what it contains and that it is well formed. *)
Lemma LocalXhb_ok env key pub walletKey att r h :
  key_ok key -> GetPubKey key = Some pub -> valid_handle h ->
  localScript r = GetScriptForDestination (CKeyID (CPubKey_GetID pub)) -> xhandle (localX r) = h ->
  SessionIsXVerified env = true -> WalletAllowsHeartbeat env = true -> wf_int 8 (GetTime env) ->
  GetAttestation att (IdFromScript (localScript r)) = None ->
  exists m, LocalXhb env key walletKey att r = Some m /\ wf_xhb m /\
    nHbTime m = GetTime env /\ hb_script m = localScript r /\ hb_xHandle m = h /\
    hb_xVerified m = true /\ vchAttest m = [] /\ zlen (vchSig m) = 65 /\
    VerifyHeartbeatSig (hb_script m) (nHbTime m) h (hb_xUserId m) (vchSig m) true = true.
Proof.
  intros Hk Hp Hh Hs Hx Hv Hw Ht Hg. pose proof Hh as [[Hh1 _] _].
  assert (length (CPubKey_GetID pub) = 20%nat) as Hlen by apply ripemd160.length_Hash160.
  pose proof (length_P2PKH _ Hlen) as Hsz. pose proof (ExtractDestination_P2PKH _ Hlen) as Hd.
  assert (fValid key = true) as Hfv by (unfold GetPubKey in Hp; by destruct (fValid key)).
  destruct (SignCompact_recover key (HeartbeatDigest (GetTime env) (localScript r) h 0 true) Hk Hfv)
    as (sig & pub' & Esig & Hl & Hb & Hp' & _); [apply zlen_SHA256|].
  destruct (SignHeartbeat_verifies key pub (GetTime env) h 0 true Hk Hp Hh) as (sig' & Esig' & Hver).
  rewrite <-Hs in Esig', Hver.
  assert (sig' = sig) as -> by (unfold SignHeartbeat, CKey_IsValid in Esig'; rewrite Hfv in Esig'; cbn [negb] in Esig'; congruence).
  eexists. unfold LocalXhb, LocalEligible, SignLocalHeartbeat, CKey_IsValid.
  rewrite Hv, Hw, Hx, Hg. cbn [negb].
  destruct (Z.eqb_spec (zlen (localScript r)) 0) as [E|_]; [rewrite Hs in E; lia|].
  destruct (Z.eqb_spec (zlen h) 0); [lia|]. cbn [orb].
  rewrite Hs at 1. rewrite Hd, Hfv, Hp, bytes_eqb_refl. cbn [andb]. rewrite Esig'.
  split; [done|]. cbn [nHbTime hb_script hb_xHandle hb_xUserId hb_xVerified vchSig vchAttest].
  split; [|by split_and!]. unfold wf_xhb. cbn [nHbTime hb_script hb_xHandle hb_xUserId vchSig vchAttest].
  split_and!; try done; try apply Ht; try by apply valid_handle_bytes.
  - rewrite Hs. split; [|unfold MAX_SIZE; lia]. apply P2PKH_bytes_ok, ripemd160.Hash160_ok.
  - split; [done|unfold MAX_SIZE; lia].
  - split; [constructor|done].
Qed.

(** A first heartbeat, with nothing in its way. *)
Lemma Heartbeat_fresh env al att r script now h uid :
  valid_handle h -> 1 <= zlen script <= MAX_HEARTBEAT_SCRIPT -> IsNull (IdFromScript script) = false ->
  Allowlist_PinnedScript al h = [] -> IdFromScript script <> localId r ->
  om_find h (byHandle r) = None -> om_find (IdFromScript script) (nodes r) = None ->
  zlen (nodes r) < MAX_ACTIVE_NODES ->
  exists r', Heartbeat env al att r script now h uid true = (true, r') /\
    om_find (IdFromScript script) (nodes r')
    = Some (mkNode (IdFromScript script) script now now {| xhandle := h; xuserId := uid |}).
Proof.
  intros Hh Hs Hn Hp Hl Hb Hf Hsz. unfold Heartbeat, heartbeat_admit.
  apply bytes_eqb_neq in Hl as ->. rewrite andb_false_r. cbn [andb negb].
  destruct (Z.eqb_spec (zlen script) 0); [lia|].
  destruct (Z.ltb_spec MAX_HEARTBEAT_SCRIPT (zlen script)); [lia|]. cbn [orb].
  rewrite Hn, Normalize_valid, Hp by done. cbv zeta. change (zlen (@nil Z) =? 0) with true. cbn [negb andb].
  unfold release_handle. rewrite Hb, Hf. eexists. split; [done|].
  by rewrite record_node_small, om_find_insert_eq.
Qed.

(** C20. A verified user reaches the hat. Take a node that is signed in as X
    Verified under a valid handle, whose payout script is the pay-to-pubkey-hash of
    its key, whose wallet allows heartbeats and which has no stamp yet, and a seed
    of an attested network that holds the attestor's key, has the X lookup on and
    finds the handle verified, has no stamp for the id, has room in its registry,
    has neither the handle nor the id there and no pinned script for the handle, is
    another node, and whose clock is within ten minutes of the sender's. Then the
    message the node sends, serialized and read by the seed, is accepted without
    charging the sender; the seed stamps the id and records it with the sender's
    script and handle. *)
Theorem signin_reaches_seed env_s key pub walletKey att_s r_s env al att r lastRelay h :
  let script := GetScriptForDestination (CKeyID (CPubKey_GetID pub)) in
  let id := IdFromScript script in
  key_ok key -> GetPubKey key = Some pub -> valid_handle h ->
  localScript r_s = script -> xhandle (localX r_s) = h ->
  SessionIsXVerified env_s = true -> WalletAllowsHeartbeat env_s = true -> wf_int 8 (GetTime env_s) ->
  GetAttestation att_s id = None ->
  GetTime env - 600 <= GetTime env_s <= GetTime env + 600 ->
  RequireXAttestation (env_params env) = true -> holds_seed_key (env_params env) att ->
  LookupEnabled (env_lookup env) = true -> LookupHandle (env_lookup env) h = VERIFIED ->
  GetAttestation att id = None ->
  zlen (nodes r) < MAX_ACTIVE_NODES -> om_find h (byHandle r) = None -> om_find id (nodes r) = None ->
  IsNull id = false -> id <> localId r -> Allowlist_PinnedScript al h = [] ->
  exists m, LocalXhb env_s key walletKey att_s r_s = Some m /\
    let res := ProcessXhb env al att r lastRelay (encode_xhb m) in
    xr_ret res = true /\ xr_misbehaving res = 0 /\ HasAttestation (xr_att res) id = true /\
    exists n, om_find id (nodes (xr_reg res)) = Some n /\ an_script n = script /\
      xhandle (an_x n) = h /\ lastSeen n = GetTime env /\ joined n = GetTime env.
Proof.
  cbv zeta. set (script := GetScriptForDestination _). set (id := IdFromScript script).
  intros Hk Hp Hh Hs Hx Hsv Hwa Ht Hgs Hclk Hreq Hseed Hen Hlk Hg Hsz Hbh Hnf Hnull Hloc Hpin.
  destruct (LocalXhb_ok env_s key pub walletKey att_s r_s h) as
    (m & Em & Hwf & Emt & Ems & Emh & Emv & Ema & Hsl & Hver); try done; [by rewrite Hs|].
  exists m. split; [done|]. unfold ProcessXhb. rewrite parse_encode_xhb by done.
  assert (zlen script = 25) as Hz by (apply length_P2PKH, ripemd160.length_Hash160).
  pose proof Hh as [[Hh1 Hh2] _]. rewrite Ems, Hs, Emt, Emh, Emv, Ema, Hz, Hsl in *.
  change ((25 =? 0) || (MAX_HEARTBEAT_SCRIPT <? 25)) with false. cbv iota.
  destruct (Z.ltb_spec MAX_X_HANDLE (zlen h)); [lia|]. change (MAX_HEARTBEAT_SIG <? 65) with false. cbn [orb].
  destruct (Z.ltb_spec (GetTime env + 600) (GetTime env_s)); [lia|].
  destruct (Z.ltb_spec (GetTime env_s) (GetTime env - 600)); [lia|]. cbn [orb].
  rewrite Hver. cbn [negb].
  assert (exists sig att', xhb_stamp env att script h [] = (Some (true, sig), att') /\
            HasAttestation att' id = true) as (sig & att' & Est & Hhas).
  { unfold xhb_stamp. fold id. assert (VerifyAttestation (env_params env) id h [] = false) as -> by done.
    rewrite Hreq. unfold LookupAndAttest. rewrite Normalize_valid by done. fold id.
    unfold HasAttestation, om_mem. unfold GetAttestation in Hg. rewrite Hg.
    assert (IsXLookupNode (env_lookup env) att = true) as ->.
    { unfold IsXLookupNode, CKey_IsValid. destruct Hseed as (_ & -> & _). by rewrite Hen. }
    cbn [negb]. rewrite Hlk.
    destruct (SignAttestation_verifies (env_params env) att id h Hseed) as (sg & -> & _ & Hvs).
    eexists _, _. split; [done|]. by apply (StoreAttestation_has _ _ _ _ h), Hvs; apply Normalize_valid. }
  rewrite Est. fold id. rewrite Hhas. cbn [orb].
  destruct (Heartbeat_fresh env al att' r script (GetTime env) h (hb_xUserId m)) as (r' & -> & Hn'); try done.
  { rewrite Hz. done. }
  cbn [negb]. destruct (relay_step _ _ _). cbn [xr_ret xr_misbehaving xr_att xr_reg].
  split_and!; [done..|]. by eexists.
Qed.

End GossipFacts.

(** ** Concrete messages *)

(** The payout script of [toy_key 9], as a user whose local account is [handle]. *)
Definition toy_payout : CScript := GetScriptForDestination (CKeyID (CPubKey_GetID (2 :: repeat 9 32))).
Definition toy_user (handle : bytes) : Registry :=
  mkRegistry [] [] toy_payout (IdFromScript toy_payout) {| xhandle := handle; xuserId := 0 |}.
Definition no_wallet : bytes -> option CKey := fun _ => None.

(** The heartbeat of carol's node, and what the seed, with alice and bob stamped,
    makes of it. *)
Definition carol_xhb : xhb_msg :=
  Eval vm_compute in default (mkXhb 0 [] [] 0 false [] [])
    (LocalXhb (H := toy_secp256k1) (toy_env 1789197400) (toy_key 9) no_wallet (mkAttest CKey_empty false []) (toy_user (bs "carol"))).
Local Abbreviation carol_seen :=
  (ProcessXhb (H := toy_secp256k1) (toy_env 1789197405) Allowlist_empty toy_stamped Registry_empty [] (encode_xhb carol_xhb)).
Lemma carol_changes : (length (nodes (xr_reg carol_seen)) = 1)%nat.
Proof. vm_compute. reflexivity. Qed.

Lemma gossip_only_signed_and_stamped_witness :
  reg_ok (xr_reg carol_seen) /\ xr_reg carol_seen <> Registry_empty /\
  exists m rest, parse_xhb (encode_xhb carol_xhb) = Some (m, rest) /\
    VerifyHeartbeatSig (H := toy_secp256k1) (hb_script m) (nHbTime m) (hb_xHandle m) (hb_xUserId m) (vchSig m) true = true /\
    HasAttestation (xr_att carol_seen) (IdFromScript (hb_script m)) = true.
Proof.
  pose proof toy_secp256k1_laws as L.
  destruct (gossip_only_signed_and_stamped (H := toy_secp256k1) (toy_env 1789197405) Allowlist_empty toy_stamped
    Registry_empty [] (encode_xhb carol_xhb) Registry_empty_ok toy_stamped_ok) as (Hr & _ & Hc).
  - intros _. split_and!; [split|..]; vm_compute; reflexivity.
  - assert (Hne : xr_reg carol_seen <> Registry_empty) by (intros E; pose proof carol_changes as Hl; rewrite E in Hl; discriminate Hl).
    split; [exact Hr|]. split; [exact Hne|]. destruct (Hc Hne) as (m & rest & E & Hv & _ & Hs). exists m, rest. split; [exact E|]. split; [exact Hv|]. exact (Hs eq_refl).
Defined.

Lemma signin_reaches_seed_witness :
  exists m, LocalXhb (H := toy_secp256k1) (toy_env 1789197400) (toy_key 9) no_wallet
      (mkAttest CKey_empty false []) (toy_user (bs "alice")) = Some m /\
    let res := ProcessXhb (H := toy_secp256k1) (toy_env 1789197405) Allowlist_empty toy_seed Registry_empty [] (encode_xhb m) in
    xr_ret res = true /\ HasAttestation (xr_att res) (IdFromScript toy_payout) = true.
Proof.
  pose proof toy_secp256k1_laws as L.
  pose proof (signin_reaches_seed (H := toy_secp256k1) (toy_env 1789197400) (toy_key 9) (2 :: repeat 9 32)
    no_wallet (mkAttest CKey_empty false []) (toy_user (bs "alice")) (toy_env 1789197405) Allowlist_empty
    toy_seed Registry_empty [] (bs "alice")) as Hx. cbv zeta in Hx.
  repeat match type of Hx with
         | ?P -> _ =>
             let p := fresh in
             assert P as p by first
               [ exact valid_alice | exact toy_seed_holds | vm_compute; reflexivity
               | vm_compute; congruence | split; vm_compute; reflexivity | split; vm_compute; congruence ];
             specialize (Hx p); clear p
         end.
  destruct Hx as (m & E & Hret & _ & Hatt & _). exists m. split; [exact E|]. split; [exact Hret|exact Hatt].
Defined.

(** Nodes other than the seed do not compare the handle with the stamp: the
    owner of an id stamped for alice can heartbeat it under the handle bob, and
    a node without X lookup records bob for that id although its own table says
    alice. While that node is live, bob's own heartbeat is refused there. *)
Theorem stamped_id_takes_any_handle :
  let env := mkEnv toy_params (mkLookup false (fun _ => LOOKUP_FAILED)) false false 1789197405 in
  let att := mkAttest CKey_empty false
    (g_attest (LookupAndAttest (H := toy_secp256k1) toy_params (mkLookup true (fun _ => VERIFIED)) toy_seed
                 toy_payout (bs "alice")).2) in
  let msg := default (mkXhb 0 [] [] 0 false [] [])
    (LocalXhb (H := toy_secp256k1) (toy_env 1789197400) (toy_key 9) no_wallet toy_seed (toy_user (bs "bob"))) in
  let res := ProcessXhb (H := toy_secp256k1) env Allowlist_empty att Registry_empty [] (encode_xhb msg) in
  (xhandle ∘ an_x <$> om_find (IdFromScript toy_payout) (nodes (xr_reg res))) = Some (bs "bob") /\
  (row_handle <$> GetAttestation (xr_att res) (IdFromScript toy_payout)) = Some (bs "alice") /\
  (Heartbeat (H := toy_secp256k1) env Allowlist_empty att (xr_reg res) (toy_script 2) 1789197410
     (bs "bob") 0 true).1 = false.
Proof. vm_compute. split_and!; reflexivity. Qed.
