(* ===== verification/Lottery.v ===== *)
(** * The lottery as a whole

    The state of the lottery module of one node and everything the rest of the
    program does to it, one call at a time: heartbeats from peers
    (src/src/net_processing.cpp), the start of the node and its producer
    ([InitAttestation], [LoadOrCreateLocalScript], [StartProducer] of
    src/src/lottery.cpp), Sign in with X ([BindLotteryFromSession] of
    src/src/xsession.cpp), the RPC commands (src/src/rpc/lottery.cpp), block
    templates and received blocks. *)

From S2P Require Import Prelude OrdMap Sha256 Ripemd160 Script Handle Hex Slots Tx Draw Key Attest Registry Coinbase.
From S2P Require Import Gossip Json Session.

Local Open Scope Z_scope.

(** The file-level variables of the module, and the relay times of the
    handler. *)
Record Lottery := mkLottery {
  g_allowlist : Allowlist;
  lt_att : AttestState;
  g_registry : Registry;
  lt_lastRelay : omap bytes Z;
  g_localPayoutKey : CKey;
  g_seedNotifyUntil : Z;
  g_producerThreads : bool; (** not null *)
}.

Definition lottery_init : Lottery :=
  mkLottery Allowlist_empty (mkAttest CKey_empty false []) Registry_empty [] CKey_empty 0 false.

Definition with_allow (l : Lottery) (al : Allowlist) : Lottery :=
  mkLottery al (lt_att l) (g_registry l) (lt_lastRelay l) (g_localPayoutKey l) (g_seedNotifyUntil l) (g_producerThreads l).
Definition with_att (l : Lottery) (att : AttestState) : Lottery :=
  mkLottery (g_allowlist l) att (g_registry l) (lt_lastRelay l) (g_localPayoutKey l) (g_seedNotifyUntil l) (g_producerThreads l).
Definition with_reg (l : Lottery) (r : Registry) : Lottery :=
  mkLottery (g_allowlist l) (lt_att l) r (lt_lastRelay l) (g_localPayoutKey l) (g_seedNotifyUntil l) (g_producerThreads l).
Definition with_relay (l : Lottery) (m : omap bytes Z) : Lottery :=
  mkLottery (g_allowlist l) (lt_att l) (g_registry l) m (g_localPayoutKey l) (g_seedNotifyUntil l) (g_producerThreads l).
Definition with_payout_key (l : Lottery) (k : CKey) : Lottery :=
  mkLottery (g_allowlist l) (lt_att l) (g_registry l) (lt_lastRelay l) k (g_seedNotifyUntil l) (g_producerThreads l).
Definition with_notify (l : Lottery) (t : Z) : Lottery :=
  mkLottery (g_allowlist l) (lt_att l) (g_registry l) (lt_lastRelay l) (g_localPayoutKey l) t (g_producerThreads l).
Definition with_producer (l : Lottery) (b : bool) : Lottery :=
  mkLottery (g_allowlist l) (lt_att l) (g_registry l) (lt_lastRelay l) (g_localPayoutKey l) (g_seedNotifyUntil l) b.

Definition set_key (att : AttestState) (k : CKey) : AttestState :=
  mkAttest k (g_forceBakedSeedForTest att) (g_attest att).

(** Line ends and spaces off the end of a key file. *)
Fixpoint pop_blank (rev_raw : bytes) : bytes :=
  match rev_raw with
  | c :: s => if (c =? 10) || (c =? 13) || (c =? 32) then pop_blank s else rev_raw
  | [] => []
  end.

Section Calls.
Context `{Secp256k1}.

(** ** Start-up *)

(** The key from the contents of a file, and whether it is usable. *)
Definition LoadAttestorKeyFromPath (att : AttestState) (file : option bytes) : bool * AttestState :=
  match file with
  | None => (false, att)
  | Some contents =>
      let n := zlen contents in
      let raw := if (0 <? n) && (n <? 256) then contents else [] in
      let raw := rev (pop_blank (rev raw)) in
      if negb (IsHex raw && (zlen raw =? 64)) then (false, att) else
      let secret := ParseHex raw in
      if negb (zlen secret =? 32) then (false, att) else
      let k := CKey_Set (g_attestorKey att) secret true in
      (CKey_IsValid k, set_key att k)
  end.

(** The attestor key, then the node's own stamp when it can look itself up. *)
Definition InitAttestation (env : Env) (keyfile : option bytes) (l : Lottery) : Lottery :=
  let att := (LoadAttestorKeyFromPath (lt_att l) keyfile).2 in
  if IsBakedSeed (env_params env) att then with_att l att else
  if LookupEnabled (env_lookup env) && CKey_IsValid (g_attestorKey att) then
    let x := localX (g_registry l) in
    let s := localScript (g_registry l) in
    if negb (zlen (xhandle x) =? 0) && negb (zlen s =? 0) && SessionIsXVerified env
    then with_att l (LookupAndAttest (env_params env) (env_lookup env) att s (xhandle x)).2
    else with_att l att
  else with_att l att.

(** The payout key from its file, or the [fresh] one that [MakeNewKey] made, and
    its script. *)
Definition LoadOrCreateLocalScript (keyfile : option bytes) (fresh : CKey) (l : Lottery) : option (CScript * Lottery) :=
  let key :=
    match keyfile with
    | Some raw => if 32 <=? zlen raw then CKey_Set CKey_empty (take 32 raw) true else CKey_empty
    | None => CKey_empty
    end in
  let key := if CKey_IsValid key then key else fresh in
  match GetPubKey key with
  | Some pub => Some (GetScriptForDestination (CKeyID (CPubKey_GetID pub)), with_payout_key l key)
  | None => None
  end.

Definition heartbeat_local (env : Env) (now : Z) (l : Lottery) : Lottery :=
  let '(_, att, r) := HeartbeatLocal env (g_allowlist l) (lt_att l) (g_registry l) now in
  with_reg (with_att l att) r.

(** ** Sign-in *)

Definition RequestSeedNotify (env : Env) (l : Lottery) : Lottery := with_notify l (GetTime env + 20).
Definition SeedNotifyActive (env : Env) (l : Lottery) : bool := GetTime env <=? g_seedNotifyUntil l.

(** From the session files; an exception of [LoadSession] leaves the state. *)
Definition BindLotteryFromSession (env : Env) (files : XFiles) (l : Lottery) : Lottery :=
  match LoadSession files with
  | Ok s =>
      let local := {| xhandle := ss_username s; xuserId := uwrap 64 (atoi64 (ss_userId s)) |} in
      let l := with_reg l (SetLocalXAccount (g_registry l) local) in
      if negb (IsXVerified s) then l
      else if IsBakedSeed (env_params env) (lt_att l)
      then with_reg l (SetLocalXAccount (g_registry l) XAccount_empty)
      else RequestSeedNotify env (heartbeat_local env (GetTime env) l)
  | Err ErrThrow => l
  | Err _ => with_reg l (SetLocalXAccount (g_registry l) XAccount_empty)
  end.

(** The mock of users/me: the session is saved, then bound. *)
Definition ApplyUsersMePayload (env : Env) (regtest : bool) (dkey dfile : disk) (rand payload : bytes) (files : XFiles)
    (l : Lottery) : option session_error * XFiles * Lottery :=
  match apply_payload regtest (GetTime env) dkey dfile rand files payload with
  | (Some e, files) => (Some e, files, l)
  | (None, files) => (None, files, BindLotteryFromSession env files l)
  end.

(** [-xoauthmock], with the random bytes and what the disk does with the two files. *)
Record startup_mock := mkMock { sm_dkey : disk; sm_dfile : disk; sm_rand : bytes; sm_payload : bytes }.
Definition ApplyStartupArgs (env : Env) (regtest : bool) (mock : option startup_mock) (files : XFiles) (l : Lottery) : XFiles * Lottery :=
  match mock with
  | Some m =>
      if negb regtest || (zlen (sm_payload m) =? 0) then (files, l) else
      let '(_, files, l) := ApplyUsersMePayload env regtest (sm_dkey m) (sm_dfile m) (sm_rand m) (sm_payload m) files l in (files, l)
  | None => (files, l)
  end.

(** [al] is what the list files and [-xverified] make of the invite list. *)
Definition InitEligibility (env : Env) (al : Allowlist) (regtest : bool) (mock : option startup_mock) (attestorfile : option bytes) (files : XFiles)
    (l : Lottery) : Lottery :=
  let '(files, l) := ApplyStartupArgs env regtest mock files (with_allow l al) in
  BindLotteryFromSession env files (InitAttestation env attestorfile l).

(** [None] is a failed assertion of [GetPubKey]. [hostshare::Load] is on the state of
    HostShare. *)
Definition StartProducer (env : Env) (al : Allowlist) (regtest : bool) (mock : option startup_mock) (attestorfile : option bytes) (files : XFiles)
    (payoutfile : option bytes) (fresh : CKey) (l : Lottery) : option Lottery :=
  if g_producerThreads l then Some l else
  let l := InitEligibility env al regtest mock attestorfile files l in
  match LoadOrCreateLocalScript payoutfile fresh l with
  | Some (script, l) => Some (with_producer (heartbeat_local env (GetTime env) (with_reg l (SetLocalScript (g_registry l) script))) true)
  | None => None
  end.
Definition StopProducer (l : Lottery) : Lottery := with_producer l false.

(** ** The calls *)
Inductive call :=
  | Start (al : Allowlist) (regtest : bool) (mock : option startup_mock) (attestorfile : option bytes) (files : XFiles)
      (payoutfile : option bytes) (fresh : CKey)
  | Stop
  | Exit (** the process ends and another one begins *)
  | SignIn (files : XFiles)
  | MockSignIn (regtest : bool) (dkey dfile : disk) (rand payload : bytes) (files : XFiles)
  | RecvXhb (vRecv : bytes)
  | LocalTurn
  | AdoptScript (script : CScript)
  | RegisterActiveNode (script : CScript) (handle : bytes) (userId : Z)
  | AddXVerified (handle : bytes) (userId : Z) (pinnedScript : CScript)
  | RemoveXVerified (handle : bytes)
  | Template (txs : list CTransaction) (nHeight : Z) (prev : bytes) (subsidy nFees : Z) (script : CScript)
  | RecvBlock (txs : list CTransaction) (nHeight : Z) (prev : bytes) (subsidy : Z).

(** The state after a call. The variables of the module are in memory only: what
    ends the process, a failed assertion too, leaves those of a new one. *)
Definition lottery_step (env : Env) (c : call) (l : Lottery) : Lottery :=
  let params := env_params env in
  match c with
  | Start al regtest mock attestorfile files payoutfile fresh =>
      default lottery_init (StartProducer env al regtest mock attestorfile files payoutfile fresh l)
  | Stop => StopProducer l
  | Exit => lottery_init
  | SignIn files => BindLotteryFromSession env files l
  | MockSignIn regtest dkey dfile rand payload files =>
      (ApplyUsersMePayload env regtest dkey dfile rand payload files l).2
  | RecvXhb vRecv =>
      let res := ProcessXhb env (g_allowlist l) (lt_att l) (g_registry l) (lt_lastRelay l) vRecv in
      with_relay (with_reg (with_att l (xr_att res)) (xr_reg res)) (xr_lastRelay res)
  | LocalTurn => heartbeat_local env (GetTime env) l
  | AdoptScript script => with_reg l (SetLocalScript (g_registry l) script)
  | RegisterActiveNode script handle userId =>
      with_reg l (Heartbeat env (g_allowlist l) (lt_att l) (g_registry l) script (GetTime env) handle userId true).2
  | AddXVerified handle userId pinnedScript =>
      match Allowlist_Add (g_allowlist l) handle userId pinnedScript with
      | Ok al => with_allow l al
      | Err _ => l
      end
  | RemoveXVerified handle =>
      match Allowlist_Remove (g_allowlist l) handle with Ok al => with_allow l al | Err _ => l end
  | Template txs nHeight prev subsidy nFees script =>
      let '(_, att, r) := ApplyCoinbasePayouts env (g_allowlist l) (lt_att l) (g_registry l) txs nHeight prev
                            (genesis_nTime params) (nSubsidyHalvingInterval params) subsidy nFees script in
      with_reg (with_att l att) r
  | RecvBlock txs nHeight prev subsidy =>
      with_att l (CheckLotteryCoinbase params (lt_att l) txs nHeight prev (genesis_nTime params)
                    (nSubsidyHalvingInterval params) subsidy).2
  end.

Definition lottery_run (calls : list (Env * call)) (l : Lottery) : Lottery :=
  fold_left (fun l ec => lottery_step ec.1 ec.2 l) calls l.
End Calls.

(** ** What the calls keep *)

(** The table of stamps only grows, and the attestor key stays. *)
Definition att_grows (att att' : AttestState) : Prop :=
  g_attestorKey att' = g_attestorKey att /\ g_forceBakedSeedForTest att' = g_forceBakedSeedForTest att /\
  forall id, HasAttestation att id = true -> HasAttestation att' id = true.

#[export] Instance att_grows_preorder : PreOrder att_grows.
Proof.
  split; [by intros ?|]. intros x y z (E1 & E2 & E3) (F1 & F2 & F3). split_and!; [congruence..|auto].
Qed.

Create HintDb grows.

Section Grows.
Context `{Secp256k1}.

Lemma StoreAttestation_grows params att id h sig : att_grows att (StoreAttestation params att id h sig).
Proof.
  unfold StoreAttestation. destruct (NormalizeXHandle h); [|done]. destruct (VerifyAttestation _ _ _ _); cbn [negb]; [|done].
  split; [done|]. split; [done|]. intros i. unfold HasAttestation, om_mem, set_attest. cbn [g_attest].
  rewrite om_find_insert. by case_decide.
Qed.

Lemma LookupAndAttest_grows params xl att script h : att_grows att (LookupAndAttest params xl att script h).2.
Proof.
  unfold LookupAndAttest. destruct (NormalizeXHandle h); [|done].
  destruct (HasAttestation _ _); [by destruct (GetAttestation _ _)|]. destruct (negb _); [done|].
  destruct (LookupHandle _ _); [|done..]. destruct (SignAttestation _ _ _); [|done]. apply StoreAttestation_grows.
Qed.

Lemma cache_rows_grows params n : forall att data, att_grows att (cache_rows params att n data).
Proof.
  induction n as [|n IH]; intros att data; [done|]. cbn [cache_rows].
  destruct (xva_row data) as [[[[id h] sig] rest]|]; [|done]. etrans; [|apply IH]. apply StoreAttestation_grows.
Qed.

Lemma CacheStampsFromXva_grows params att script : att_grows att (CacheStampsFromXva params att script).
Proof.
  unfold CacheStampsFromXva. destruct (op_return_data script); [|done]. case_ifs; try done. apply cache_rows_grows.
Qed.

Lemma HeartbeatLocal_grows env al att r now : att_grows att (HeartbeatLocal env al att r now).1.2.
Proof.
  unfold HeartbeatLocal.
  pose proof (LookupAndAttest_grows (env_params env) (env_lookup env) att (localScript r) (xhandle (localX r))) as Hg.
  destruct (LookupAndAttest _ _ _ _ _) as [[ok s] att']. cbn [snd] in Hg.
  repeat case_match; simplify_eq; cbn [fst snd]; done || by destruct (Heartbeat _ _ _ _ _ _ _ _ _).
Qed.

Lemma xhb_stamp_grows env att script h sig : att_grows att (xhb_stamp env att script h sig).2.
Proof.
  unfold xhb_stamp. destruct (VerifyAttestation _ _ _ _); [apply StoreAttestation_grows|].
  destruct (RequireXAttestation _); [|done].
  pose proof (LookupAndAttest_grows (env_params env) (env_lookup env) att script h) as Hg.
  destruct (LookupAndAttest _ _ _ _ _) as [[ok s] att']. by case_ifs.
Qed.

Lemma ProcessXhb_grows env al att r lastRelay vRecv :
  att_grows att (xr_att (ProcessXhb env al att r lastRelay vRecv)).
Proof.
  unfold ProcessXhb. destruct (parse_xhb vRecv) as [[m rest]|]; [|done].
  pose proof (xhb_stamp_grows env att (hb_script m) (hb_xHandle m) (vchAttest m)) as Hg.
  destruct (xhb_stamp _ _ _ _ _) as [[[attested stamp]|] att']; cbn [snd] in Hg; repeat case_match; done.
Qed.

Lemma ApplyCoinbasePayouts_grows env al att r txs h prev g interval subsidy nFees ps :
  att_grows att (ApplyCoinbasePayouts env al att r txs h prev g interval subsidy nFees ps).1.2.
Proof.
  unfold ApplyCoinbasePayouts. destruct txs as [|cb txs]; [done|]. destruct (h <? 1); [done|].
  set (r1 := if negb (zlen ps =? 0) then SetLocalScript r ps else r). pose proof (HeartbeatLocal_grows env al att r1 (GetTime env)) as Hg.
  destruct (HeartbeatLocal _ _ _ _ _) as [[ok att'] r']. cbn [fst snd] in Hg. by case_ifs.
Qed.

Lemma CheckLotteryCoinbase_grows params att txs h prev g interval subsidy :
  att_grows att (CheckLotteryCoinbase params att txs h prev g interval subsidy).2.
Proof.
  unfold CheckLotteryCoinbase. repeat case_match; try done. apply CacheStampsFromXva_grows.
Qed.
End Grows.

#[export] Hint Resolve StoreAttestation_grows LookupAndAttest_grows CacheStampsFromXva_grows HeartbeatLocal_grows
  ProcessXhb_grows ApplyCoinbasePayouts_grows CheckLotteryCoinbase_grows : grows.

(** ** The invariant *)
Section Invariant.
Context `{Secp256k1}.
Variable params : CChainParams.

Record lottery_ok (l : Lottery) : Prop := {
  lo_reg : reg_ok (g_registry l);
  lo_att : attest_ok params (lt_att l);
  lo_key : key_ok (g_attestorKey (lt_att l));
}.

Lemma lottery_init_ok : lottery_ok lottery_init.
Proof. split; [apply Registry_empty_ok|split; [constructor|done]|done]. Qed.

Lemma lottery_ok_grows l l' :
  lottery_ok l -> att_grows (lt_att l) (lt_att l') -> reg_ok (g_registry l') -> attest_ok params (lt_att l') ->
  lottery_ok l'.
Proof. intros [] (E & _) ? ?. by split; [..|rewrite E]. Qed.

Lemma SetLocalXAccount_ok r x : reg_ok r -> reg_ok (SetLocalXAccount r x).
Proof. done. Qed.

Lemma heartbeat_local_ok env now l : env_params env = params -> lottery_ok l ->
  lottery_ok (heartbeat_local env now l) /\ att_grows (lt_att l) (lt_att (heartbeat_local env now l)).
Proof.
  intros He Hl. unfold heartbeat_local.
  destruct (HeartbeatLocal_ok params env (g_allowlist l) (lt_att l) (g_registry l) now) as [Ha Hr];
    [apply Hl|done|apply Hl|].
  pose proof (HeartbeatLocal_grows env (g_allowlist l) (lt_att l) (g_registry l) now) as Hg.
  destruct (HeartbeatLocal _ _ _ _ _) as [[ok att] r]. cbn [fst snd] in *.
  split; [by apply (lottery_ok_grows l)|done].
Qed.

Lemma BindLottery_ok env files l : env_params env = params -> lottery_ok l ->
  lottery_ok (BindLotteryFromSession env files l) /\ att_grows (lt_att l) (lt_att (BindLotteryFromSession env files l)).
Proof.
  intros He Hl. unfold BindLotteryFromSession.
  assert (forall x, lottery_ok (with_reg l (SetLocalXAccount (g_registry l) x))) as Hset by (by destruct Hl).
  destruct (LoadSession files) as [s|e]; [|by destruct e; split]. destruct (negb (IsXVerified s)); [by split|].
  destruct (IsBakedSeed _ _); [split; [by destruct Hl|done]|].
  set (l1 := with_reg l _). destruct (heartbeat_local_ok env (GetTime env) l1) as [[] Hg]; [done|apply Hset|].
  by split.
Qed.

Lemma LoadAttestorKey_ok att file : key_ok (g_attestorKey att) ->
  key_ok (g_attestorKey (LoadAttestorKeyFromPath att file).2) /\
  g_attest (LoadAttestorKeyFromPath att file).2 = g_attest att.
Proof.
  intros Hk. unfold LoadAttestorKeyFromPath. destruct file as [contents|]; [|done].
  cbv zeta. set (raw := rev _). destruct (negb _); [done|]. destruct (negb _); [done|].
  cbn [snd g_attestorKey g_attest set_key]. split; [by apply CKey_Set_ok|done].
Qed.

Lemma attest_ok_table att att' : g_attest att' = g_attest att -> attest_ok params att -> attest_ok params att'.
Proof. intros E [? ?]. split; by rewrite E. Qed.

Lemma InitAttestation_ok env keyfile l : env_params env = params -> lottery_ok l -> lottery_ok (InitAttestation env keyfile l).
Proof.
  intros He [Hr Ha Hk]. unfold InitAttestation.
  destruct (LoadAttestorKey_ok (lt_att l) keyfile Hk) as [Hk' Et]. set (att := (LoadAttestorKeyFromPath _ _).2) in *.
  assert (Ha' : attest_ok params att) by by apply (attest_ok_table (lt_att l)).
  set (att2 := (LookupAndAttest _ _ att _ _).2).
  assert (lottery_ok (with_att l att)) as Hok by done.
  assert (lottery_ok (with_att l att2)) as Hok2
    by (apply (lottery_ok_grows (with_att l att)); [done|apply LookupAndAttest_grows|done|subst att2; rewrite He; by apply LookupAndAttest_ok]).
  by case_ifs.
Qed.

Lemma ApplyUsersMePayload_ok env regtest dkey dfile rand payload files l : env_params env = params -> lottery_ok l ->
  let l' := (ApplyUsersMePayload env regtest dkey dfile rand payload files l).2 in lottery_ok l' /\ att_grows (lt_att l) (lt_att l').
Proof.
  intros He Hl. unfold ApplyUsersMePayload. destruct (apply_payload _ _ _ _ _ _ _) as [[e|] files']; [done|]. by apply BindLottery_ok.
Qed.

Lemma InitEligibility_ok env al regtest mock attestorfile files l : env_params env = params -> lottery_ok l ->
  lottery_ok (InitEligibility env al regtest mock attestorfile files l).
Proof.
  intros He Hl. assert (Hal : lottery_ok (with_allow l al)) by (by destruct Hl).
  assert (Hfin : forall files l, lottery_ok l -> lottery_ok (BindLotteryFromSession env files (InitAttestation env attestorfile l))).
  { intros f l0 H0. apply BindLottery_ok; [done|]. by apply InitAttestation_ok. }
  unfold InitEligibility, ApplyStartupArgs. destruct mock as [m|]; [|by apply Hfin]. destruct (_ || _); [by apply Hfin|].
  pose proof (ApplyUsersMePayload_ok env regtest (sm_dkey m) (sm_dfile m) (sm_rand m) (sm_payload m) files _ He Hal) as [H1 _].
  destruct (ApplyUsersMePayload _ _ _ _ _ _ _ _) as [[e f] l1]. by apply Hfin.
Qed.

Lemma StartProducer_ok env al regtest mock attestorfile files payoutfile fresh l l' : env_params env = params -> lottery_ok l ->
  StartProducer env al regtest mock attestorfile files payoutfile fresh l = Some l' -> lottery_ok l'.
Proof.
  intros He Hl. unfold StartProducer. destruct (g_producerThreads l); [by intros [= <-]|].
  pose proof (InitEligibility_ok env al regtest mock attestorfile files l He Hl) as H2.
  set (l2 := InitEligibility _ _ _ _ _ _ _) in *. unfold LoadOrCreateLocalScript. destruct (GetPubKey _) as [pub|]; [|done].
  set (script := GetScriptForDestination _). set (l3 := with_reg (with_payout_key l2 _) _). intros E%(inj Some). subst l'. assert (lottery_ok l3) as H3.
  { destruct H2. split; [|done..]. subst l3. cbn [g_registry with_reg with_payout_key]. by apply SetLocalScript_ok. }
  by destruct (heartbeat_local_ok env (GetTime env) l3 He H3) as [[] _].
Qed.

Lemma ProcessXhb_ok env al att r lastRelay vRecv : env_params env = params -> reg_ok r -> attest_ok params att ->
  reg_ok (xr_reg (ProcessXhb env al att r lastRelay vRecv)) /\
  attest_ok params (xr_att (ProcessXhb env al att r lastRelay vRecv)).
Proof.
  intros <- Hr Ha. unfold ProcessXhb. destruct (parse_xhb vRecv) as [[m rest]|]; [|done].
  pose proof (xhb_stamp_ok env att (hb_script m) (hb_xHandle m) (vchAttest m) Ha) as Ha'.
  destruct (xhb_stamp _ _ _ _ _) as [[[attested stamp]|] att']; cbn [snd] in Ha'.
  - pose proof (Heartbeat_ok env al att' r (hb_script m) (GetTime env) (hb_xHandle m) (hb_xUserId m) (hb_xVerified m) Hr)
      as Hb.
    destruct (Heartbeat _ _ _ _ _ _ _ _ _) as [ok r']. cbn [snd] in Hb. repeat case_match; simplify_eq; done.
  - repeat case_match; done.
Qed.

Lemma ApplyCoinbasePayouts_ok env al att r txs h prev g interval subsidy nFees ps :
  env_params env = params -> reg_ok r -> attest_ok params att ->
  let res := ApplyCoinbasePayouts env al att r txs h prev g interval subsidy nFees ps in
  attest_ok params res.1.2 /\ reg_ok res.2.
Proof.
  intros He Hr Ha. cbv zeta. unfold ApplyCoinbasePayouts. destruct txs as [|cb txs]; [done|].
  destruct (h <? 1); [done|]. set (r1 := if negb (zlen ps =? 0) then SetLocalScript r ps else r).
  assert (reg_ok r1) as Hr1 by (subst r1; destruct (negb _); [by apply SetLocalScript_ok|done]).
  destruct (HeartbeatLocal_ok params env al att r1 (GetTime env)) as [? ?]; [done..|].
  destruct (HeartbeatLocal _ _ _ _ _) as [[ok att'] r']. cbn [fst snd] in *. by case_ifs.
Qed.

Lemma CheckLotteryCoinbase_ok att txs h prev g interval subsidy :
  attest_ok params att -> attest_ok params (CheckLotteryCoinbase params att txs h prev g interval subsidy).2.
Proof.
  intros Ha. unfold CheckLotteryCoinbase. repeat case_match; try done. by apply CacheStampsFromXva_ok.
Qed.

(** The calls that begin or end a run of the module. *)
Definition is_boundary (c : call) : bool := match c with Start _ _ _ _ _ _ _ | Exit => true | _ => false end.

(** One call. *)
Lemma lottery_step_ok env c l : env_params env = params -> lottery_ok l ->
  lottery_ok (lottery_step env c l) /\ (is_boundary c = false -> att_grows (lt_att l) (lt_att (lottery_step env c l))).
Proof.
  intros He Hl.
  assert (forall l', lottery_ok l' -> att_grows (lt_att l) (lt_att l') ->
    lottery_ok l' /\ (is_boundary c = false -> att_grows (lt_att l) (lt_att l'))) as Hfin by (intros l' Hok Hg; by split).
  destruct c; cbn [lottery_step is_boundary] in *.
  - split; [|done]. destruct (StartProducer _ _ _ _ _ _ _ _ _) as [l'|] eqn:E; [by apply (StartProducer_ok _ _ _ _ _ _ _ _ _ _ He Hl E)|apply lottery_init_ok].
  - apply Hfin; [by destruct Hl|done].
  - split; [apply lottery_init_ok|done].
  - destruct (BindLottery_ok env files l He Hl). by apply Hfin.
  - destruct (ApplyUsersMePayload_ok env regtest dkey dfile rand payload files l He Hl). by apply Hfin.
  - destruct (ProcessXhb_ok env (g_allowlist l) (lt_att l) (g_registry l) (lt_lastRelay l) vRecv He) as [Hr Ha];
      [apply Hl..|].
    apply Hfin; [|apply ProcessXhb_grows]. by apply (lottery_ok_grows l); [|apply ProcessXhb_grows|..].
  - destruct (heartbeat_local_ok env (GetTime env) l He Hl). by apply Hfin.
  - apply Hfin; [|done]. destruct Hl. split; [by apply SetLocalScript_ok|done..].
  - apply Hfin; [|done]. destruct Hl. split; [by apply Heartbeat_ok|done..].
  - destruct (Allowlist_Add _ _ _ _); apply Hfin; done || by destruct Hl.
  - destruct (Allowlist_Remove _ _); apply Hfin; done || by destruct Hl.
  - pose proof (ApplyCoinbasePayouts_ok env (g_allowlist l) (lt_att l) (g_registry l) txs nHeight prev
      (genesis_nTime (env_params env)) (nSubsidyHalvingInterval (env_params env)) subsidy nFees script He
      ltac:(apply Hl) ltac:(apply Hl)) as [Ha Hr].
    pose proof (ApplyCoinbasePayouts_grows env (g_allowlist l) (lt_att l) (g_registry l) txs nHeight prev
      (genesis_nTime (env_params env)) (nSubsidyHalvingInterval (env_params env)) subsidy nFees script) as Hg.
    destruct (ApplyCoinbasePayouts _ _ _ _ _ _ _ _ _ _ _ _) as [[txs' att] r]. cbn [fst snd] in *.
    apply Hfin; [|done]. by apply (lottery_ok_grows l).
  - apply Hfin; [|apply CheckLotteryCoinbase_grows].
    apply (lottery_ok_grows l); [done|apply CheckLotteryCoinbase_grows|apply Hl|].
    rewrite He. apply CheckLotteryCoinbase_ok, Hl.
Qed.

Lemma lottery_run_ok calls : forall l,
  Forall (fun ec => env_params ec.1 = params) calls -> lottery_ok l ->
  lottery_ok (lottery_run calls l) /\
  (forallb (fun ec => negb (is_boundary ec.2)) calls = true -> att_grows (lt_att l) (lt_att (lottery_run calls l))).
Proof.
  induction calls as [|[env c] calls IH]; intros l Hf Hl; [done|]. inv Hf.
  destruct (lottery_step_ok env c l) as (J1 & J3); [done..|].
  destruct (IH (lottery_step env c l)) as (K1 & K3); [done..|].
  split; [done|]. cbn [forallb fst snd]. intros [Hs Hss]%andb_true_iff. etrans; [apply J3|by apply K3].
  by destruct (is_boundary c).
Qed.
End Invariant.

Section Runs.
Context `{Secp256k1}.
Variable params : CChainParams.

(** Every winner is a registered node under the id of its script, with a stamp
    that verifies where the network asks for one. *)
Lemma draw_winners_ok env l nHeight prev g interval subsidy :
  env_params env = params -> lottery_ok params l ->
  let d := ComputeDraw env (lt_att l) (g_registry l) nHeight prev g interval subsidy in
  zlen (d_active d) < 2 ^ 31 ->
  NoDup (d_winners d) /\
  forall w, w ∈ d_winners d ->
    (exists n, om_find w (nodes (g_registry l)) = Some n /\ IdFromScript (an_script n) = w) /\
    (RequireXAttestation params = true ->
     exists row, GetAttestation (lt_att l) w = Some row /\ valid_handle (row_handle row) /\
       VerifyAttestation params w (row_handle row) (row_sig row) = true).
Proof.
  intros He Hl d Hn. destruct Hl as [Hr [_ Ha] _].
  destruct (draw_active_ok env (lt_att l) (g_registry l) nHeight prev g interval subsidy Hr) as (Hs & Hf & Hst).
  fold d in Hs, Hf, Hst.
  assert (d_winners d = SelectWinners (d_active d) (Seed prev (SlotFromHeight nHeight g)) (WinnerCount nHeight interval))
    as Ew by done.
  split.
  - destruct (SelectWinners_perm (d_active d) (Seed prev (SlotFromHeight nHeight g)) (WinnerCount nHeight interval) Hn)
      as (_ & losers & Hp). rewrite <-Ew in Hp.
    assert (NoDup (d_winners d ++ losers)) as Hd by (rewrite Hp; by apply sorted_ids_NoDup).
    by apply NoDup_app in Hd as (? & _).
  - intros w Hw. rewrite Ew in Hw. apply SelectWinners_subset in Hw; [|done]. split.
    + destruct (Hf w Hw) as [n Hfn]. exists n. split; [done|]. destruct Hr as (_ & _ & Hr).
      by destruct (Hr w n Hfn) as (_ & -> & _).
    + intros Hq. rewrite He in Hst. specialize (Hst Hq). unfold all_stamped in Hst. rewrite Forall_forall in Hst.
      specialize (Hst w Hw).
      destruct (HasAttestation_get _ _ Hst) as [row Hrow]. exists row. split; [done|]. by apply (Ha w row).
Qed.

(** Two nodes with one handle are one node. *)
Lemma handle_unique r id id' n n' : reg_ok r ->
  om_find id (nodes r) = Some n -> om_find id' (nodes r) = Some n' ->
  xhandle (an_x n) = xhandle (an_x n') -> id = id'.
Proof.
  intros (_ & _ & Hr) Hn Hn' E. destruct (Hr id n Hn) as (_ & _ & _ & _ & H1).
  destruct (Hr id' n' Hn') as (_ & _ & _ & _ & H2). congruence.
Qed.
End Runs.

(** C3. The lottery in every run. Take a node in a consistent state, such as a new
    process, and let anything happen to it: starts with any key files, stops, the end
    of the process, sign-ins, messages with any contents from peers, commands,
    templates and received blocks, with any answers from X and any clock. Then the
    registry and the stamps are consistent; an X handle belongs to at most one node;
    in every draw the winners are distinct, each a registered node under the id of
    its payout script, and on an attested network each with a stamp of the attestor
    that verifies. Between a start and the end of the process no stamp is lost and
    the attestor's key stays. A node that holds that key, or one on a network without
    attestation, fills in coinbases that every node accepts, if there are winners, the
    scripts of the registry are payable by a coinbase, at most 1024 ids are active, the
    subsidy is positive and with the fees in the money range. *)
Theorem lottery_runs_safe `{Secp256k1} `{!Secp256k1Laws _} (params : CChainParams) (calls : list (Env * call))
    (l0 : Lottery) :
  Forall (fun ec => env_params ec.1 = params) calls -> lottery_ok params l0 ->
  let l := lottery_run calls l0 in
  lottery_ok params l /\
  (forallb (fun ec => negb (is_boundary ec.2)) calls = true ->
     g_attestorKey (lt_att l) = g_attestorKey (lt_att l0) /\
     forall id, HasAttestation (lt_att l0) id = true -> HasAttestation (lt_att l) id = true) /\
  (forall id id' n n', om_find id (nodes (g_registry l)) = Some n -> om_find id' (nodes (g_registry l)) = Some n' ->
     xhandle (an_x n) = xhandle (an_x n') -> id = id') /\
  forall env nHeight prev subsidy, env_params env = params ->
    let g := genesis_nTime params in
    let interval := nSubsidyHalvingInterval params in
    let d := ComputeDraw env (lt_att l) (g_registry l) nHeight prev g interval subsidy in
    (zlen (d_active d) < 2 ^ 31 ->
     NoDup (d_winners d) /\
     forall w, w ∈ d_winners d ->
       (exists n, om_find w (nodes (g_registry l)) = Some n /\ IdFromScript (an_script n) = w) /\
       (RequireXAttestation params = true ->
        exists row, GetAttestation (lt_att l) w = Some row /\ valid_handle (row_handle row) /\
          VerifyAttestation params w (row_handle row) (row_sig row) = true)) /\
    forall cb txs nFees script att_v,
      (RequireXAttestation params = true -> holds_seed_key params (lt_att l)) ->
      1 <= nHeight -> IsCoinBase cb = true -> 0 < subsidy -> 0 <= nFees -> subsidy + nFees <= MAX_MONEY ->
      let '(blk, att', r') :=
        ApplyCoinbasePayouts env (g_allowlist l) (lt_att l) (g_registry l) (cb :: txs) nHeight prev g interval subsidy
          nFees script in
      let draw := ComputeDraw env att' r' nHeight prev g interval subsidy in
      payable r' -> d_winners draw <> [] -> zlen (d_active draw) <= 1024 ->
      (CheckLotteryCoinbase params att_v blk nHeight prev g interval subsidy).1 = Judged Accept.
Proof.
  intros Hf Hl l. destruct (lottery_run_ok params calls l0 Hf Hl) as (Hok & Hg). fold l in Hok, Hg.
  split; [done|]. split; [by intros (? & _ & ?)%Hg|]. split; [intros id id' n n'; apply handle_unique, Hok|].
  intros env nHeight prev subsidy He g interval d. split; [by apply (draw_winners_ok params)|].
  intros cb txs nFees script att_v Hk Hh Hcb Hsub Hfee Hmax.
  pose proof (apply_payouts_accepted env (g_allowlist l) (lt_att l) att_v (g_registry l) cb txs nHeight prev g interval
    subsidy nFees script) as Hacc. cbv zeta in Hacc. rewrite He in Hacc.
  by apply Hacc; [apply Hok|apply Hok|..].
Qed.

(** A seed that starts with its key file, hears from alice and gets a block. *)
Definition toy_calls : list (Env * call) :=
  let msg := default (mkXhb 0 [] [] 0 false [] [])
    (LocalXhb (H := toy_secp256k1) (toy_env 1789197400) (toy_key 9) no_wallet (mkAttest CKey_empty false [])
       (toy_user (bs "alice"))) in
  [ (toy_env 1789197390, Start Allowlist_empty false None (Some (HexStr (repeat 7 32) ++ [10])) no_files None (toy_key 3));
    (toy_env 1789197405, RecvXhb (encode_xhb msg));
    (toy_env 1789197410, RecvBlock [toy_coinbase []] 1 toy_prev (5000 * COIN)) ].

Lemma lottery_runs_safe_witness :
  let l := lottery_run (H := toy_secp256k1) toy_calls lottery_init in
  lottery_ok (H := toy_secp256k1) toy_params l /\ HasAttestation (lt_att l) (IdFromScript toy_payout) = true /\
  is_Some (om_find (IdFromScript toy_payout) (nodes (g_registry l))).
Proof.
  pose proof toy_secp256k1_laws as L. cbv zeta. split.
  - apply (lottery_runs_safe (H := toy_secp256k1) toy_params toy_calls lottery_init).
    + repeat constructor.
    + apply lottery_init_ok.
  - split; [vm_compute; reflexivity|]. eexists. vm_compute. reflexivity.
Defined.
